(* ===== verification/_CoqProject ===== *)
-Q . S2P
Prelude.v
CString.v
Linked.v
Heap.v
Hashes.v
EventQueue.v
Threads.v
EventLoop.v
AddTwoNumbers.v
MpHash.v
Dict.v
DictDemo.v
Md5.v
Base64.v
Pool.v
MemPool.v
MemPoolClient.v
DemoMains.v
Double.v
IpAddress.v
BitTricks.v
QrCode.v
BuildDate.v
FileUtils.v
Sockets.v
Multiplex.v
Zmq.v
FileMagic.v
Nids.v
DateTime.v
Atomic.v
CountingMalloc.v
Commands.v
OpenSsl.v
Layout.v
CJson.v
CJsonPrint.v
CJsonParse.v
CJsonMinify.v
CJsonTyped.v
CJsonHeap.v
CJsonTree.v
CJsonApi.v
CJsonClient.v
CJsonArrays.v
CJsonDocument.v
CJsonDemo.v
ThreadPool.v
ProducerConsumer.v
