(* ===== verification/Prelude.v ===== *)
(** * The C programs of c_learning

    The repository is a collection of small C programs, one directory each, around components
    written for them: hash functions, a dictionary, a hash table, a memory pool, an event queue
    and its event loop, a thread pool, MD5, Base64 and a JSON library. This development models
    these components as executable functions and step relations and proves what makes them
    correct; where the code falls short of what it means to do, a theorem says what it does.

    ** How the code is represented

    - A machine integer is the [Z] it denotes; [wrap w] and [sint w] below are the conversions
      to unsigned and signed types of width [w], written where the code wraps around.
    - A buffer or C string is the list of its bytes. An object reached through pointers lives
      in a store, a [gmap] from addresses; 0 is the null pointer (-1 where pointers are array
      indices). Linked.v has the representation predicates of linked lists, Heap.v says what
      is relied on of [malloc] ([Allocator], [AllocatorOk]; [bump] is an instance).
    - Code that can fail is in the option monad ([None] is undefined behaviour: a bad pointer,
      an access out of bounds, a signed overflow) or, in the JSON files and FileMagic.v, in one
      that names the fault; the one of the JSON files also counts allocations and says which of
      them fail. Exceptions are taken as compilers take them, wrapping around, and a comment at
      each says so: a byte above 127 that is shifted into the sign bit ([MD5Decode], [reverse] of
      MpHash.v, [ip2int]) and the exponent of a JSON number ([exp_digits]).
    - Threads are program counters; a step of the system is a step of one thread that is not
      blocked. A mutex is the number of its owner. Theorems about threads are about every state
      reachable by [rtc step].

    ** Components

    - Hashes.v: demo_hash/demo_hash.h and the copies in dict.c and mphash.c. Called by Dict.v
      and MpHash.v.
    - EventQueue.v: demo_event/event_queue.h, a circular list refined to a FIFO
      ([dequeue_refines_fifo]). EventLoop.v: demo_event/event.c, consumers and producers around
      one mutex, condition and queue ([event_loop_invariant], [no_event_is_stranded]).
    - MpHash.v: demo_mempool/mphash.c, refined to a bounded set. Dict.v: demo_dict/dict.c and
      dict.h, refined to a finite map, with the iterator.
    - Pool.v: the blocks of one pool of demo_mempool/mempool.c (search, split, coalesce);
      MemPool.v: chains of pools, large blocks, the public functions, over Pool.v and MpHash.v.
      MemPoolClient.v: clients of a pool that may not grow, from what the other two prove
      ([pool_alloc_spec], [free_in_pool_spec], [table_rep]) and a contract for [malloc].
    - Md5.v: demo_openssl/demo_md5/md5.c and md5.h against RFC 1321. Base64.v:
      demo_base64/base64.c against RFC 4648.
    - JSON, demo_json/cJSON.c and cJSON.h. Double.v: the doubles it computes with. CJson.v:
      parsing, printing and minifying over texts. CJsonPrint.v, CJsonParse.v, CJsonMinify.v and
      CJsonTyped.v: what these compute, own and build. CJsonHeap.v: the operations on trees of
      linked items. CJsonTree.v: which heaps represent which trees. CJsonApi.v: each operation
      on trees. CJsonClient.v: programs that call them. CJsonArrays.v: the array constructors.
    - ThreadPool.v: demo_pthread/thread_pool/thread_pool.h. ProducerConsumer.v:
      demo_pthread/demo_pthread.c. Threads.v: what EventLoop.v and ProducerConsumer.v share,
      one mutex and one condition variable over any type of program counters (the class
      [Threads] and its laws).
    - AddTwoNumbers.v: demo_leetcode/1_两数相加/main.c. IpAddress.v: demo_ipaddr/demo_ip_int.c.
      BitTricks.v: demo_trik/demo_trik.c. QrCode.v: the drawing of demo_qrcode/demo_qrencode.c.
      BuildDate.v: the date macros of demo_log/demo_log.h. DateTime.v: demo_datetime/datetime.h.
      CountingMalloc.v: demo_libevent/samples/event_mem_management.c. Atomic.v: demo_atomic.
      Layout.v: the structures of demo__attribute__/demo_attr.c, demo_TAILQ and demo_LIST.
    - Programs of C strings in fixed buffers, over CString.v (the string functions of the C
      library). FileUtils.v: demo_file/file_utils.h. Sockets.v: demo_socket/demo_socket.c.
      Multiplex.v: the loops of demo_socket/epoll, poll and select and of
      demo_libevent/demo_libevent.c. Zmq.v: demo_zmq. FileMagic.v: demo_magic/demo_magic.c.
      Nids.v: demo_nids/demo_nids.c and demo_pcap/demo_pcap.c. OpenSsl.v: demo_openssl/demo_aes,
      demo_sha and demo_md.c. Commands.v: main.c, demo_daemonize and demo_mmap.
    - Programs on the components. CJsonDocument.v: any document a program can build with cJSON,
      from its creation over its text to its deletion; CJsonDemo.v: demo_json/demo_json.c.
      DictDemo.v: demo_dict/demo_dict.c, the dictionary with strings for keys. DemoMains.v:
      demo_hash/demo_hash.c, demo_base64/demo_base64.c and demo_mempool/demo_mempool.c.

    A definition has the name of the function or type it models; a comment in front of it gives
    the file and the lines. The loop of a function is a [Fixpoint] of its own, and the [main] of
    a program has the program's name in front.

    ** Theorems

    - Refinement: an abstract object and the sequence of calls on it ([fifo], the finite map of
      Dict.v, the set of MpHash.v, the trees of CJsonClient.v); the code runs without a bad
      access, returns what the object returns, and its store represents the object again.
    - Safety of memory: [pool_run_safe] and [one_pool_serves] (blocks never overlap, and all
      memory comes back), [counting_malloc_serves], [parse_owns_its_tree] and [print_renders] (no
      leak whichever allocations fail), [pmemcpy_in_bounds] and [parse_plain_in_bounds] (no access
      out of bounds).
    - Equivalence with a specification: [MD5_is_RFC1321], [get_md5_spec], [minify_print],
      [delete_releases_tree]; the closed forms and the injectivity of the hashes.
    - Round trips: [base64_roundtrip], [print_parse_roundtrip], [alloc_free_roundtrip],
      [document_roundtrip], [ip_roundtrip], [datetime_roundtrip], [drawing_shows_code],
      [build_date]. Types: [parser_builds_typed].
    - Programs: [client_sends_input], [weather_average], [tcp_callback_spec], [dict_main_prints],
      [main_document] and the other theorems about what a program prints.
    - Threads: invariants under every interleaving, and that no wake-up is lost.
    - Errors: what the code does where it is wrong ([palloc_diverges],
      [parse_string_out_of_bounds], [alloc_large_overflows], [shutdown_goes_unnoticed],
      [create_int_array_null_element], [tid_list_overflows], [monitor_goes_blind],
      [file_read_str_overflows], [server_budget], [look_at_fails], [aes_main_prints_nothing],
      [run_commands_spec]).

    ** Fuel

    Recursion that is not structural takes fuel, and running out of it is a failure, so a
    theorem that a call succeeds also says that the fuel was enough. The fuel is computed from
    the data where the code bounds the loop by it: the length of the text for the parser and
    [cJSON_Minify], the number of items for loops over a JSON tree, the size of the table in
    Dict.v and MpHash.v, the number of blocks in Pool.v. Where a loop need not end, fuel is an
    argument and the theorem is either that enough of it gives the result ([create_loop],
    [add_loop]) or that no amount does ([palloc_diverges]).

    ** Not modelled

    - The operating system and libraries that are not under src/. What the programs ask of them
      (results of system calls, bytes received, the texts of [strftime]'s other conversions, a
      cipher) is an argument of the definitions, with what is relied on as a hypothesis; the calls
      that only set something up are left out.
    - Programs that only call such libraries and print: demo_getopt, demo_conf, demo_pfring,
      demo_protobuf (generated code), the client of demo_zmq, the lists of sys/queue.h in
      demo_LIST and demo_TAILQ, the logging macros of demo_log and the demonstrations of main.c
      that print constants.
    - libevent and libnids under demo_libevent and demo_nids, demo_vim and libs: third-party
      code the repository keeps copies of.
    - The weak memory of the hardware: the steps of threads are sequentially consistent. What a
      thread does between two calls under a lock is one step, and so is a call of the thread
      library; outside the locks each read and each write of a shared variable is a step.
    - [printf] for debugging and the parts the build leaves out ([_BASE64_CHECKDATA], the names
      and checks of mempool.c under its debug macros). *)

(** This file: machine words, lists, optional results and the automation the components share. *)

From Stdlib Require Export ZArith Lia Bool.
From stdpp Require Export base tactics option list numbers gmap fin_maps.

#[global] Set Default Goal Selector "!".

Open Scope Z_scope.

(** ** Words

    A [w]-bit C integer is the [Z] it denotes. [wrap w] is the conversion to the unsigned
    type of width [w], [sint w] the conversion to the signed one (two's complement). *)

Definition wrap (w x : Z) : Z := x mod 2 ^ w.

Definition sint (w x : Z) : Z := (x + 2 ^ (w - 1)) mod 2 ^ w - 2 ^ (w - 1).

Abbreviation u8 := (wrap 8).
Abbreviation u16 := (wrap 16).
Abbreviation u32 := (wrap 32).
Abbreviation u64 := (wrap 64).
Abbreviation i8 := (sint 8).
Abbreviation i32 := (sint 32).

Definition INT_MAX : Z := 2 ^ 31 - 1.
Definition INT_MIN : Z := - 2 ^ 31.
Definition LONG_MAX : Z := 2 ^ 63 - 1.

(** [~ x] on an unsigned type of width [w]. *)
Definition notw (w x : Z) : Z := wrap w (Z.lnot x).

Create HintDb words.

Section wrap.
Context (w : Z) (Hw : 0 <= w).

Lemma pow2_pos : 0 < 2 ^ w.
Proof using Hw. lia. Qed.

Lemma wrap_bounds x : 0 <= wrap w x < 2 ^ w.
Proof using Hw. unfold wrap. apply Z.mod_pos_bound, pow2_pos. Qed.

Lemma wrap_small x : 0 <= x < 2 ^ w -> wrap w x = x.
Proof using Type. intros. unfold wrap. by apply Z.mod_small. Qed.

Lemma wrap_wrap x : wrap w (wrap w x) = wrap w x.
Proof using Hw. apply wrap_small, wrap_bounds. Qed.

Lemma wrap_add_l x y : wrap w (wrap w x + y) = wrap w (x + y).
Proof using Type. unfold wrap. apply Zplus_mod_idemp_l. Qed.

Lemma wrap_add_r x y : wrap w (x + wrap w y) = wrap w (x + y).
Proof using Type. unfold wrap. apply Zplus_mod_idemp_r. Qed.

Lemma wrap_mul_l x y : wrap w (wrap w x * y) = wrap w (x * y).
Proof using Type. unfold wrap. apply Zmult_mod_idemp_l. Qed.

Lemma wrap_mul_r x y : wrap w (x * wrap w y) = wrap w (x * y).
Proof using Type. unfold wrap. apply Zmult_mod_idemp_r. Qed.

Lemma wrap_sub_l x y : wrap w (wrap w x - y) = wrap w (x - y).
Proof using Type. unfold wrap. apply Zminus_mod_idemp_l. Qed.

Lemma wrap_sub_r x y : wrap w (x - wrap w y) = wrap w (x - y).
Proof using Type. unfold wrap. apply Zminus_mod_idemp_r. Qed.

Lemma wrap_land x : wrap w x = Z.land x (Z.ones w).
Proof using Hw. unfold wrap. by rewrite Z.land_ones. Qed.

Lemma testbit_wrap x i :
  Z.testbit (wrap w x) i = (i <? w) && Z.testbit x i.
Proof using Hw.
  unfold wrap. destruct (Z.ltb_spec i w); simpl.
  - destruct (Z.lt_ge_cases i 0); [by rewrite !Z.testbit_neg_r by lia|].
    by apply Z.mod_pow2_bits_low.
  - by apply Z.mod_pow2_bits_high; lia.
Qed.

Lemma testbit_high x i : 0 <= x < 2 ^ w -> w <= i -> Z.testbit x i = false.
Proof using Hw.
  intros Hx Hi. rewrite <- (wrap_small x Hx), testbit_wrap.
  by destruct (Z.ltb_spec i w); [lia|].
Qed.

(** A nonnegative number whose bits from [w] on are clear fits in [w] bits. *)
Lemma bits_bounded x :
  (forall i, w <= i -> Z.testbit x i = false) -> 0 <= x < 2 ^ w.
Proof using Hw.
  intros Hx. replace x with (wrap w x); [apply wrap_bounds|].
  apply Z.bits_inj'; intros i Hi. rewrite testbit_wrap.
  destruct (Z.ltb_spec i w); [done|]. by rewrite Hx.
Qed.

Lemma lxor_bounds x y :
  0 <= x < 2 ^ w -> 0 <= y < 2 ^ w -> 0 <= Z.lxor x y < 2 ^ w.
Proof using Hw.
  intros Hx Hy. apply bits_bounded. intros i Hi.
  rewrite Z.lxor_spec, !testbit_high; auto.
Qed.

Lemma lor_bounds x y :
  0 <= x < 2 ^ w -> 0 <= y < 2 ^ w -> 0 <= Z.lor x y < 2 ^ w.
Proof using Hw.
  intros Hx Hy. apply bits_bounded. intros i Hi.
  rewrite Z.lor_spec, !testbit_high; auto.
Qed.

Lemma land_bounds_r x y : 0 <= y < 2 ^ w -> 0 <= Z.land x y < 2 ^ w.
Proof using Hw.
  intros Hy. apply bits_bounded. intros i Hi.
  rewrite Z.land_spec, (testbit_high y); auto. by rewrite andb_false_r.
Qed.

Lemma shiftr_bounds x n : 0 <= n -> 0 <= x < 2 ^ w -> 0 <= Z.shiftr x n < 2 ^ w.
Proof using Hw.
  intros Hn Hx. apply bits_bounded. intros i Hi.
  rewrite Z.shiftr_spec, testbit_high; auto; lia.
Qed.
End wrap.

#[export] Hint Resolve wrap_bounds lxor_bounds lor_bounds land_bounds_r shiftr_bounds : words.
#[export] Hint Extern 1 (0 <= _) => lia : words.

Lemma sint_small w x : 0 < w -> - 2 ^ (w - 1) <= x < 2 ^ (w - 1) -> sint w x = x.
Proof.
  intros Hw Hx. unfold sint. rewrite Z.mod_small; [lia|].
  replace (2 ^ w) with (2 * 2 ^ (w - 1)); [lia|].
  rewrite <- Z.pow_succ_r by lia. f_equal. lia.
Qed.

Lemma i32_small x : INT_MIN <= x <= INT_MAX -> i32 x = x.
Proof. unfold INT_MIN, INT_MAX. intros. apply sint_small; lia. Qed.

(** Close a side condition: a bound of a word or a computation. *)
Ltac words := first [reflexivity | solve [auto 20 with words] | lia].

(** ** Bitwise equalities

    [bitwise] proves an equality of integers bit by bit: it pushes [Z.testbit] through the
    operators, splits on the position of the bit and leaves booleans to [btauto]. *)

Lemma testbit_shiftl x n i :
  Z.testbit (Z.shiftl x n) i = (0 <=? i) && Z.testbit x (i - n).
Proof.
  destruct (Z.leb_spec 0 i); [by rewrite Z.shiftl_spec|].
  by rewrite Z.testbit_neg_r.
Qed.

Lemma testbit_shiftr x n i :
  Z.testbit (Z.shiftr x n) i = (0 <=? i) && Z.testbit x (i + n).
Proof.
  destruct (Z.leb_spec 0 i); [by rewrite Z.shiftr_spec|].
  by rewrite Z.testbit_neg_r.
Qed.

Lemma testbit_ones n i :
  0 <= n -> Z.testbit (Z.ones n) i = (0 <=? i) && (i <? n).
Proof. intros. by apply Z.testbit_ones. Qed.

Lemma testbit_lnot x i : Z.testbit (Z.lnot x) i = (0 <=? i) && negb (Z.testbit x i).
Proof.
  destruct (Z.leb_spec 0 i); [by rewrite Z.lnot_spec|].
  by rewrite Z.testbit_neg_r.
Qed.

Create Rewrite HintDb bits.
#[export] Hint Rewrite Z.land_spec Z.lor_spec Z.lxor_spec testbit_shiftl testbit_shiftr
  testbit_lnot Z.testbit_0_l : bits.
#[export] Hint Rewrite testbit_wrap testbit_ones using lia : bits.

(** Split on every comparison of bit positions left in the goal. *)
Ltac split_positions :=
  repeat match goal with
    | |- context [?a <? ?b] => destruct (Z.ltb_spec a b); try lia
    | |- context [?a <=? ?b] => destruct (Z.leb_spec a b); try lia
    end.

(** Give syntactically different but equal bit positions the same name. *)
Ltac merge_positions :=
  repeat match goal with
    | |- context [Z.testbit ?x ?i] =>
        match goal with
        | |- context [Z.testbit x ?j] =>
            assert_fails (unify i j); replace i with j by lia
        end
    end.

Ltac bool_done :=
  simpl; rewrite ?andb_true_r, ?andb_false_r, ?orb_false_r, ?orb_true_r, ?xorb_false_r;
  try done;
  repeat match goal with |- context [Z.testbit ?x ?i] => destruct (Z.testbit x i) end;
  try done.

Ltac bitwise :=
  apply Z.bits_inj'; let i := fresh "i" in let Hi := fresh "Hi" in
  intros i Hi; autorewrite with bits; split_positions;
  merge_positions; bool_done.

(** Disjoint bits add up. *)
Lemma lor_shiftl_add x y n :
  0 <= n -> 0 <= x < 2 ^ n -> Z.lor x (Z.shiftl y n) = x + y * 2 ^ n.
Proof.
  intros Hn Hx. rewrite <- Z.shiftl_mul_pow2 by done.
  assert (Z.land x (Z.shiftl y n) = 0) as Hd.
  { apply Z.bits_inj'; intros i Hi. rewrite Z.land_spec, testbit_shiftl, Z.testbit_0_l.
    destruct (Z.ltb_spec i n).
    - rewrite (Z.testbit_neg_r y) by lia. by rewrite !andb_false_r.
    - by rewrite (testbit_high n Hn x) by lia. }
  by rewrite <- Z.lxor_lor, <- Z.add_nocarry_lxor.
Qed.

(** ** Optional results

    [None] is undefined behaviour of the C abstract machine (a null or dangling pointer is
    dereferenced, an index is out of range, a signed operation overflows), unless a
    definition says otherwise. *)

Lemma bind_Some_inv {A B} (m : option A) (f : A -> option B) y :
  (m ≫= f) = Some y -> exists x, m = Some x /\ f x = Some y.
Proof. destruct m; simpl; intros; eauto; discriminate. Qed.

(** Break the hypotheses [x ← m; k = Some y] into their steps. *)
Ltac invert_binds :=
  repeat match goal with
    | H : mbind _ _ = Some _ |- _ =>
        let x := fresh "x" in let E := fresh "E" in
        apply bind_Some_inv in H; destruct H as (x & E & H)
    | H : Some _ = Some _ |- _ => injection H as H; try subst
    | H : None = Some _ |- _ => discriminate H
    end.

(** Run a bind whose first action is a value, and leave everything else alone. *)
Ltac bind_simpl := cbn [mbind option_bind].

(** C's [assert]-like tests as option actions. *)
Definition require (b : bool) : option unit := if b then Some tt else None.

(** ** Lists indexed by C integers *)

Definition znth {A} (l : list A) (i : Z) : option A :=
  if i <? 0 then None else l !! Z.to_nat i.

Definition zset {A} (l : list A) (i : Z) (x : A) : option (list A) :=
  if (0 <=? i) && (i <? Z.of_nat (length l)) then Some (<[Z.to_nat i := x]> l) else None.

Lemma znth_Some {A} (l : list A) i x :
  znth l i = Some x -> 0 <= i < Z.of_nat (length l).
Proof.
  unfold znth. destruct (Z.ltb_spec i 0); [done|].
  intros Hl%lookup_lt_Some. lia.
Qed.

Lemma znth_lt {A} (l : list A) i :
  0 <= i < Z.of_nat (length l) -> exists x, znth l i = Some x.
Proof.
  intros Hi. unfold znth. destruct (Z.ltb_spec i 0); [lia|].
  apply lookup_lt_is_Some_2. lia.
Qed.

Lemma zset_length {A} (l l' : list A) i x : zset l i x = Some l' -> length l' = length l.
Proof.
  unfold zset. case_match; [|done]. intros [= <-]. apply length_insert.
Qed.

Lemma znth_zset {A} (l l' : list A) i j x :
  zset l i x = Some l' -> znth l' j = if decide (i = j) then Some x else znth l j.
Proof.
  unfold zset, znth. case_match eqn:E; [|done]. intros [= <-].
  apply andb_true_iff in E as [E1%Z.leb_le E2%Z.ltb_lt].
  destruct (Z.ltb_spec j 0); case_decide; try lia; try done.
  - subst. apply list_lookup_insert_eq. lia.
  - apply list_lookup_insert_ne. lia.
Qed.

Lemma zset_ok {A} (l : list A) i x :
  0 <= i < Z.of_nat (length l) -> exists l', zset l i x = Some l'.
Proof.
  intros Hi. unfold zset.
  destruct (Z.leb_spec 0 i), (Z.ltb_spec i (Z.of_nat (length l))); simpl; try lia. eauto.
Qed.

(** ** Bytes *)

Definition is_byte (b : Z) : Prop := 0 <= b < 256.

#[export] Instance is_byte_dec b : Decision (is_byte b).
Proof. unfold is_byte. apply _. Defined.

Definition bytes_ok (bs : list Z) : Prop := Forall is_byte bs.

Lemma last_default_cons {A} (x : A) l d : List.last (x :: l) d = List.last l x.
Proof.
  revert x d. induction l as [|y l IH]; intros x d; [done|].
  change (List.last (x :: y :: l) d) with (List.last (y :: l) d). by rewrite !IH.
Qed.

Lemma filter_all {A} (P : A -> Prop) `{!forall x, Decision (P x)} l : Forall P l -> filter P l = l.
Proof.
  induction 1 as [|x l Hx _ IH]; [done|]. by rewrite filter_cons_True, IH.
Qed.

Lemma znth_nat {A} (l : list A) i : znth l (Z.of_nat i) = l !! i.
Proof. unfold znth. destruct (Z.ltb_spec (Z.of_nat i) 0); [lia|]. by rewrite Nat2Z.id. Qed.

(** ** Lists of lists: the buckets of a hash table *)

Lemma concat_middle {A} (c1 c2 : list (list A)) l :
  concat (c1 ++ l :: c2) ≡ₚ l ++ concat c1 ++ concat c2.
Proof. rewrite concat_app. simpl. by rewrite Permutation_app_swap_app. Qed.

Lemma elem_of_concat_lookup {A} (c : list (list A)) i m a :
  c !! i = Some m -> a ∈ m -> a ∈ concat c.
Proof.
  intros Hi Ha. apply list_elem_of_split_length in Hi as (c1 & c2 & -> & _).
  rewrite concat_middle. apply elem_of_app. by left.
Qed.

Lemma lookup_middle_ne {A} (c1 c2 : list A) (l l' : A) i :
  i <> length c1 -> (c1 ++ l' :: c2) !! i = (c1 ++ l :: c2) !! i.
Proof.
  intros Hi. destruct (decide (i < length c1)%nat).
  - by rewrite !lookup_app_l.
  - rewrite !lookup_app_r by lia. by destruct (i - length c1)%nat eqn:E; [lia|].
Qed.

Lemma lookup_middle_others {A} (c1 c2 : list (list A)) l i m a :
  (c1 ++ l :: c2) !! i = Some m -> i <> length c1 -> a ∈ m -> a ∈ concat c1 ++ concat c2.
Proof.
  intros Hi Hne Ha. apply elem_of_app. destruct (decide (i < length c1)%nat).
  - left. rewrite lookup_app_l in Hi by done. by eapply elem_of_concat_lookup.
  - right. rewrite lookup_app_r in Hi by lia.
    destruct (i - length c1)%nat as [|j] eqn:E; [lia|]. by eapply elem_of_concat_lookup.
Qed.

Lemma concat_replicate_nil {A} n : concat (replicate n []) =@{list A} [].
Proof. induction n as [|n IH]; [done|exact IH]. Qed.

Lemma drop_middle {A} (c1 c2 : list A) x : drop (S (length c1)) (c1 ++ x :: c2) = c2.
Proof. by induction c1. Qed.

(** ** A family of lists: one of them is replaced *)

Definition member {A} (ls : list (list A)) (k : nat) (a : A) : Prop :=
  exists l, ls !! k = Some l /\ a ∈ l.

Lemma member_concat {A} (ls : list (list A)) a : a ∈ concat ls <-> exists k, member ls k a.
Proof.
  split.
  - intros Ha. apply list_elem_of_In, in_concat in Ha as (l & Hl & Ha).
    apply list_elem_of_In, list_elem_of_lookup in Hl as (k & Hk).
    exists k, l. split; [done|]. by apply list_elem_of_In.
  - intros (k & l & Hk & Ha). by eapply elem_of_concat_lookup.
Qed.

Lemma member_insert {A} (ls : list (list A)) i l l' k a :
  ls !! i = Some l ->
  member (<[i := l']> ls) k a <-> (k = i /\ a ∈ l') \/ (k <> i /\ member ls k a).
Proof.
  intros Hi. apply lookup_lt_Some in Hi. unfold member.
  destruct (decide (k = i)) as [->|Hne].
  - rewrite list_lookup_insert_eq by done. naive_solver.
  - rewrite list_lookup_insert_ne by done. naive_solver.
Qed.

Lemma concat_hole {A} (ls : list (list A)) i l :
  ls !! i = Some l ->
  exists R, (forall l', concat (<[i := l']> ls) ≡ₚ l' ++ R) /\ concat ls ≡ₚ l ++ R /\
    (forall k a, k <> i -> member ls k a -> a ∈ R).
Proof.
  intros Hi. apply list_elem_of_split_length in Hi as (c1 & c2 & -> & ->).
  exists (concat c1 ++ concat c2). split; [|split].
  - intros l'. rewrite insert_app_r_alt, Nat.sub_diag by lia. simpl. apply concat_middle.
  - apply concat_middle.
  - intros k a Hk (m & Hm & Ha). by eapply lookup_middle_others.
Qed.

Lemma member_unique {A} (ls : list (list A)) i j a :
  NoDup (concat ls) -> member ls i a -> member ls j a -> i = j.
Proof.
  intros Hnd (l & Hi & Ha) Hj. destruct (decide (j = i)) as [->|Hne]; [done|].
  destruct (concat_hole _ _ _ Hi) as (R & _ & E & HR). rewrite E in Hnd.
  apply NoDup_app in Hnd as (_ & Hd & _). destruct (Hd a Ha). by eapply HR.
Qed.

(** ** One element of a list is replaced *)

Lemma bind_update {A B} (f : A -> list B) l i x y :
  l !! i = Some x -> (l ≫= f) ++ f y ≡ₚ (<[i := y]> l ≫= f) ++ f x.
Proof.
  intros Hi. apply list_elem_of_split_length in Hi as (l1 & l2 & -> & ->).
  rewrite insert_app_r_alt, Nat.sub_diag by lia. cbn [insert list_insert].
  rewrite !bind_app, !bind_cons. rewrite <- !(assoc_L app). f_equiv.
  rewrite (Permutation_app_comm (f x)), (Permutation_app_comm (f y)), <- !(assoc_L app).
  f_equiv. apply Permutation_app_comm.
Qed.

Lemma insert_elem {A} (l : list A) i x y : l !! i = Some x -> y ∈ <[i := y]> l.
Proof.
  intros Hi%lookup_lt_Some. apply list_elem_of_lookup. exists i. by rewrite list_lookup_insert_eq.
Qed.

Lemma elem_of_insert {A} (l : list A) i x y : x ∈ <[i := y]> l -> x = y \/ x ∈ l.
Proof.
  intros (j & Hj)%list_elem_of_lookup. destruct (decide (i = j)) as [->|Hne].
  - apply list_lookup_insert_Some in Hj as [(_ & <- & _)|[? _]]; [by left|done].
  - rewrite list_lookup_insert_ne in Hj by done. right. by eapply list_elem_of_lookup_2.
Qed.

(** ** Bytes of a word, the lowest first *)

Definition le_bytes (n : nat) (x : Z) : list Z :=
  (fun i => (x / 2 ^ (8 * Z.of_nat i)) mod 256) <$> seq 0 n.

Definition word_of (bytes : list Z) : Z := foldr (fun b n => b + 256 * n) 0 bytes.

Lemma length_le_bytes n x : length (le_bytes n x) = n.
Proof. unfold le_bytes. by rewrite length_fmap, length_seq. Qed.

Lemma le_bytes_S n x : le_bytes (S n) x = x mod 256 :: le_bytes n (x / 256).
Proof.
  unfold le_bytes. cbn [seq]. rewrite fmap_cons, <- fmap_S_seq, <- list_fmap_compose. f_equal.
  - by rewrite Z.div_1_r.
  - apply list_fmap_ext. intros _ i _. cbn. rewrite Z.div_div by lia. do 2 f_equal.
    replace (8 * Z.of_nat (S i)) with (8 + 8 * Z.of_nat i) by lia. by rewrite Z.pow_add_r by lia.
Qed.

Lemma word_of_le_bytes n x : 0 <= x < 2 ^ (8 * Z.of_nat n) -> word_of (le_bytes n x) = x.
Proof.
  revert x. induction n as [|n IH]; intros x Hx; [cbn in *; lia|].
  rewrite le_bytes_S. cbn [word_of foldr]. fold (word_of (le_bytes n (x / 256))). rewrite IH.
  - pose proof (Z.div_mod x 256). lia.
  - replace (8 * Z.of_nat (S n)) with (8 + 8 * Z.of_nat n) in Hx by lia.
    rewrite Z.pow_add_r in Hx by lia. split; [apply Z.div_pos; lia|].
    apply Z.div_lt_upper_bound; [lia|]. change 256 with (2 ^ 8). lia.
Qed.
