(* ===== verification/CString.v ===== *)
(** C strings in buffers of a fixed size, and the functions of the C library on them that the
    small programs of the repository use.

    A buffer is the list of its bytes. [None] is undefined behaviour: a byte outside a buffer is
    read or written, or a text does not end. *)

From S2P Require Import Prelude.

(** The text of a C string: the bytes up to the first NUL. *)
Fixpoint c_string (s : list Z) : list Z :=
  match s with
  | [] => []
  | c :: s => if c =? 0 then [] else c :: c_string s
  end.

(** Bytes are stored from position [k] on. *)
Definition store (buf : list Z) (k : nat) (s : list Z) : option (list Z) :=
  if bool_decide (k + length s <= length buf)%nat
  then Some (take k buf ++ s ++ drop (k + length s) buf) else None.

(** [strlen], and what [%s] prints. *)
Definition text_in (buf : list Z) : option (list Z) :=
  if bool_decide (0 ∈ buf) then Some (c_string buf) else None.

Definition strcpy (buf s : list Z) : option (list Z) := store buf 0 (c_string s ++ [0]).

(** [strcat], and [sprintf] behind the text of the buffer: the text must end inside the buffer,
    and there must be room for what is appended and its NUL. *)
Definition strcat (buf s : list Z) : option (list Z) :=
  store buf (length (c_string buf)) (c_string s ++ [0]).

(** [snprintf(buf, len, "%s", text)]: what is stored, and the length of the whole text. *)
Definition snprintf (text : list Z) (len : Z) : list Z * Z :=
  (if len =? 0 then [] else take (Z.to_nat (len - 1)) text ++ [0], Z.of_nat (length text)).

(** [fgets]: the bytes up to and including a newline, as many as fit with their NUL; [None] at the
    end of the file. *)
Fixpoint take_line (n : nat) (input : list Z) : list Z * list Z :=
  match n, input with
  | S n, c :: input =>
      if c =? 10 then ([c], input)
      else let '(line, rest) := take_line n input in (c :: line, rest)
  | _, _ => ([], input)
  end.

Definition fgets (len : nat) (input : list Z) : option (list Z * list Z) :=
  match input with [] => None | _ => Some (take_line (len - 1) input) end.

(** The characters of <ctype.h>. *)
Definition is_space (c : Z) : bool := (c =? 32) || ((9 <=? c) && (c <=? 13)).
Definition is_digit (c : Z) : bool := (48 <=? c) && (c <=? 57).

Fixpoint scan_space (s : list Z) : list Z :=
  match s with c :: rest => if is_space c then scan_space rest else s | [] => [] end.

(** ** Texts *)

Lemma c_string_nul s r : 0 ∉ s -> c_string (s ++ 0 :: r) = s.
Proof.
  induction s as [|c s IH]; [done|]. rewrite elem_of_cons. intros Hs. cbn [app c_string].
  destruct (Z.eqb_spec c 0) as [->|_]; [by destruct Hs; left|]. rewrite IH; tauto.
Qed.

Lemma c_string_end s r : c_string (s ++ 0 :: r) = c_string s.
Proof. induction s as [|c s IH]; [done|]. cbn [app c_string]. by rewrite IH. Qed.

Lemma c_string_whole s : 0 ∉ s -> c_string s = s.
Proof.
  induction s as [|c s IH]; [done|]. rewrite elem_of_cons. intros Hs. cbn [c_string].
  destruct (Z.eqb_spec c 0) as [->|_]; [by destruct Hs; left|]. rewrite IH; tauto.
Qed.

Lemma c_string_app s t : 0 ∉ s -> c_string (s ++ t) = s ++ c_string t.
Proof.
  induction s as [|c s IH]; [done|]. rewrite elem_of_cons. intros Hs. cbn [app c_string].
  destruct (Z.eqb_spec c 0) as [->|_]; [by destruct Hs; left|]. rewrite IH; tauto.
Qed.

Lemma c_string_no_nul s : 0 ∉ c_string s.
Proof.
  induction s as [|c s IH]; cbn [c_string]; [apply not_elem_of_nil|].
  destruct (Z.eqb_spec c 0) as [->|Hc]; [apply not_elem_of_nil|]. rewrite elem_of_cons. naive_solver.
Qed.

(** A text and what follows it. *)
Lemma c_string_split s : 0 ∈ s -> exists r, s = c_string s ++ 0 :: r.
Proof.
  induction s as [|c s IH]; [by intros ?%not_elem_of_nil|]. rewrite elem_of_cons. cbn [c_string].
  destruct (Z.eqb_spec c 0) as [->|Hc]; [by exists s|]. intros [E|Hs]; [congruence|].
  destruct (IH Hs) as [r E]. exists r. cbn [app]. by rewrite <- E.
Qed.

Lemma c_string_length s : (length (c_string s) <= length s)%nat.
Proof. induction s as [|c s IH]; cbn [c_string]; [done|]. case_match; cbn [length]; lia. Qed.

(** The buffer holds a text. *)
Definition holds (buf s : list Z) : Prop := 0 ∉ s /\ exists r, buf = s ++ 0 :: r.

Lemma holds_text buf s : holds buf s -> c_string buf = s /\ text_in buf = Some s.
Proof.
  intros [Hs [r ->]]. unfold text_in. rewrite bool_decide_true by set_solver.
  by rewrite c_string_nul.
Qed.

(** ** Stores *)

Lemma store_ok buf k s :
  (k + length s <= length buf)%nat -> store buf k s = Some (take k buf ++ s ++ drop (k + length s) buf).
Proof. intros H. unfold store. by rewrite bool_decide_true. Qed.

Lemma store_overflow buf k s : (length buf < k + length s)%nat -> store buf k s = None.
Proof. intros H. unfold store. rewrite bool_decide_false; [done|lia]. Qed.

Lemma store_length buf k s buf' : store buf k s = Some buf' -> length buf' = length buf.
Proof.
  unfold store. case_bool_decide as H; [|done]. intros [= <-].
  rewrite !length_app, length_take, length_drop. lia.
Qed.

(** Storing behind a prefix, in front of a rest. *)
Lemma store_app a b c s : length b = length s -> store (a ++ b ++ c) (length a) s = Some (a ++ s ++ c).
Proof.
  intros Hl. rewrite store_ok by (rewrite !length_app; lia). rewrite take_app_length, <- Hl.
  rewrite <- length_app. by rewrite (assoc_L app a b c), drop_app_length.
Qed.

(** A text and its NUL at the start of a buffer. *)
Lemma store_text buf s :
  0 ∉ s -> (length s < length buf)%nat ->
  exists buf', store buf 0 (s ++ [0]) = Some buf' /\ holds buf' s /\ length buf' = length buf.
Proof.
  intros Hs Hl. rewrite store_ok by (rewrite length_app; cbn [length]; lia). eexists. split; [done|].
  split; [split; [done|]|].
  - rewrite take_0. eexists. by rewrite <- (assoc_L app).
  - rewrite !length_app, length_take, length_drop. cbn [length]. lia.
Qed.

Lemma strcpy_spec buf s :
  0 ∉ s -> (length s < length buf)%nat ->
  exists buf', strcpy buf s = Some buf' /\ holds buf' s /\ length buf' = length buf.
Proof. intros Hs. unfold strcpy. rewrite c_string_whole by done. by apply store_text. Qed.

Lemma strcat_spec buf s t :
  holds buf s -> 0 ∉ t -> (length s + length t < length buf)%nat ->
  exists buf', strcat buf t = Some buf' /\ holds buf' (s ++ t) /\ length buf' = length buf.
Proof.
  intros Hb Ht Hl. pose proof Hb as [Hs [r E]]. apply holds_text in Hb as [Hc _]. unfold strcat.
  rewrite Hc, c_string_whole by done.
  rewrite store_ok by (rewrite length_app; cbn [length]; lia). eexists. split; [done|]. split; [split|].
  - set_solver.
  - rewrite E, take_app_length. eexists. by rewrite <- !(assoc_L app).
  - rewrite !length_app, length_take, length_drop. cbn [length]. lia.
Qed.

Lemma strcat_overflow buf s t :
  holds buf s -> 0 ∉ t -> (length buf <= length s + length t)%nat -> strcat buf t = None.
Proof.
  intros [Hc _]%holds_text Ht Hl. unfold strcat. rewrite Hc, c_string_whole by done.
  apply store_overflow. rewrite length_app. cbn [length]. lia.
Qed.

Lemma snprintf_fits text len :
  Z.of_nat (length text) < len -> snprintf text len = (text ++ [0], Z.of_nat (length text)).
Proof.
  intros Hl. unfold snprintf. destruct (Z.eqb_spec len 0); [lia|]. by rewrite take_ge by lia.
Qed.

(** ** Lines *)

Lemma take_line_spec n input line rest :
  take_line n input = (line, rest) ->
  line ++ rest = input /\ (length line <= n)%nat /\ (n <> 0%nat -> input <> [] -> line <> []).
Proof.
  revert input line rest. induction n as [|n IH]; intros [|c input] line rest; cbn [take_line];
    try (intros [= <- <-]; split_and!; [done|cbn; lia|done]).
  destruct (Z.eqb_spec c 10) as [->|_].
  - intros [= <- <-]. split_and!; [done|cbn; lia|done].
  - destruct (take_line n input) as [line' rest'] eqn:E. intros [= <- <-].
    destruct (IH _ _ _ E) as (<- & Hl & _). split_and!; [done|cbn; lia|done].
Qed.
