(* ===== verification/Linked.v ===== *)
(** Linked lists in a store: the pointer discipline dict.c, mphash.c, mempool.c,
    event_queue.h and cJSON.c share.

    A store is a finite map from locations to nodes. [Next] and [Prev] say what a node type
    must provide to be threaded on a list (its link fields and their assignments);
    [lseg] and [dseg] are the representation predicates of singly and doubly linked
    segments, and the lemmas below say what the assignments [p->next = v] and
    [p->prev = v] do to them. [core] is a node without its links: an operation on links
    keeps [core <$> h]. *)

From S2P Require Import Prelude.

(** ** The interface of a node *)

Class Next (L N : Type) := {
  null : L;
  next_of : N -> L;
  set_next : L -> N -> N;
}.

Class Prev (L N : Type) := {
  prev_of : N -> L;
  set_prev : L -> N -> N;
}.

Definition core {L N} `{Next L N} `{Prev L N} (n : N) : N := set_prev null (set_next null n).

Class LinksOk (L N : Type) `{Next L N} `{Prev L N} := {
  next_set_next v (n : N) : next_of (set_next v n) = v;
  prev_set_prev v (n : N) : prev_of (set_prev v n) = v;
  next_set_prev v (n : N) : next_of (set_prev v n) = next_of n;
  prev_set_next v (n : N) : prev_of (set_next v n) = prev_of n;
  core_set_next v (n : N) : core (set_next v n) = core n;
  core_set_prev v (n : N) : core (set_prev v n) = core n;
}.

Create Rewrite HintDb links.
#[export] Hint Rewrite @next_set_next @prev_set_prev @next_set_prev @prev_set_next
  @core_set_next @core_set_prev using typeclasses eauto : links.

(** ** Assignments through a pointer: [None] when it does not point to a node *)

Section stores.
Context {L N : Type} `{Countable L}.

Definition st_next `{Next L N} (h : gmap L N) (a v : L) : option (gmap L N) :=
  n ← h !! a; Some (<[a := set_next v n]> h).

Definition st_prev `{Prev L N} (h : gmap L N) (a v : L) : option (gmap L N) :=
  n ← h !! a; Some (<[a := set_prev v n]> h).

Lemma st_next_Some `{Next L N} (h h' : gmap L N) a v :
  st_next h a v = Some h' -> exists n, h !! a = Some n /\ h' = <[a := set_next v n]> h.
Proof. unfold st_next. intros. invert_binds. eauto. Qed.

Lemma st_prev_Some `{Prev L N} (h h' : gmap L N) a v :
  st_prev h a v = Some h' -> exists n, h !! a = Some n /\ h' = <[a := set_prev v n]> h.
Proof. unfold st_prev. intros. invert_binds. eauto. Qed.

Lemma st_next_ok `{Next L N} (h : gmap L N) a v n :
  h !! a = Some n -> st_next h a v = Some (<[a := set_next v n]> h).
Proof. unfold st_next. by intros ->. Qed.

Lemma st_prev_ok `{Prev L N} (h : gmap L N) a v n :
  h !! a = Some n -> st_prev h a v = Some (<[a := set_prev v n]> h).
Proof. unfold st_prev. by intros ->. Qed.

Lemma core_insert `{LinksOk L N} (h : gmap L N) a n n' :
  h !! a = Some n -> core n' = core n ->
  core <$> <[a := n']> h = core <$> h.
Proof. intros Ha Hc. rewrite fmap_insert, Hc, <- fmap_insert. by rewrite insert_id. Qed.
End stores.

(** [core <$> <[..]> h = core <$> h] after assignments to links. *)
Ltac same_core :=
  repeat (erewrite core_insert;
          [|rewrite ?lookup_insert_ne by congruence; eassumption|done]); try done.

(** ** Singly linked segments: [x] leads through the nodes [l] to [y] *)

Section lseg.
Context {L N : Type} `{Countable L} `{Next L N}.
Implicit Types (h : gmap L N) (x y a : L) (l : list L).

Fixpoint lseg h x l y : Prop :=
  match l with
  | [] => x = y
  | a :: l => x = a /\ a <> null /\ exists n, h !! a = Some n /\ lseg h (next_of n) l y
  end.

Lemma lseg_frame h h' x l y :
  (forall a, a ∈ l -> h' !! a = h !! a) -> lseg h x l y -> lseg h' x l y.
Proof.
  revert x. induction l as [|a l IH]; intros x Hf; simpl; [done|].
  intros (-> & Ha & n & Hn & Hl). split; [done|]. split; [done|].
  exists n. rewrite Hf by set_solver. split; [done|].
  apply IH; [|done]. intros; apply Hf; set_solver.
Qed.

Lemma lseg_app h x l1 l2 y :
  lseg h x (l1 ++ l2) y <-> exists z, lseg h x l1 z /\ lseg h z l2 y.
Proof.
  revert x. induction l1 as [|a l1 IH]; intros x; simpl.
  { split; [eauto|]. by intros (z & -> & ?). }
  split.
  - intros (-> & Ha & n & Hn & (z & Hl1 & Hl2)%IH). eauto 10.
  - intros (z & (-> & Ha & n & Hn & Hl1) & Hl2).
    split; [done|]. split; [done|]. exists n. split; [done|]. apply IH. eauto.
Qed.

Lemma lseg_lookup h x l y a : lseg h x l y -> a ∈ l -> exists n, h !! a = Some n.
Proof.
  revert x. induction l as [|b l IH]; intros x; simpl; [set_solver|].
  intros (-> & Hb & n & Hn & Hl) [->|Ha]%elem_of_cons; eauto.
Qed.

Lemma lseg_null_head h l : lseg h null l null -> l = [].
Proof. destruct l as [|a l]; [done|]. by intros (<- & Ha & _). Qed.

Lemma lseg_nil h x : lseg h x [] x.
Proof. done. Qed.

Lemma lseg_not_null h x l y a : lseg h x l y -> a ∈ l -> a <> null.
Proof.
  revert x. induction l as [|b l IH]; intros x; simpl; [set_solver|].
  intros (-> & Hb & n & Hn & Hl) [->|Ha]%elem_of_cons; eauto.
Qed.

(** The list a pointer leads to is unique. *)
Lemma lseg_det h x l1 l2 : lseg h x l1 null -> lseg h x l2 null -> l1 = l2.
Proof.
  revert x l2. induction l1 as [|a l1 IH]; intros x [|b l2]; simpl.
  - done.
  - intros -> (<- & Hb & _). done.
  - intros (-> & Ha & _) ->. done.
  - intros (-> & Ha & n & Hn & Hl1) (<- & _ & n' & Hn' & Hl2).
    simplify_eq. f_equal. eauto.
Qed.

Lemma lseg_suffix_det h x l1 a l2 n :
  lseg h x (l1 ++ a :: l2) null -> h !! a = Some n -> lseg h (next_of n) l2 null.
Proof. intros (z & _ & -> & _ & n' & Hn' & Hl)%lseg_app Hn. by simplify_eq. Qed.

(** A null-terminated chain has no repetition, so it is no longer than the store. *)
Lemma lseg_NoDup h x l : lseg h x l null -> NoDup l.
Proof.
  remember (length l) as k eqn:Hk. revert x l Hk.
  induction k as [k IH] using lt_wf_ind. intros x [|a l] -> Hl; [constructor|].
  pose proof Hl as (-> & Ha & n & Hn & Hl').
  constructor; [|eapply (IH (length l)); simpl; eauto].
  intros (l1 & l2 & ->)%list_elem_of_split.
  pose proof (lseg_suffix_det _ _ _ _ _ _ Hl' Hn) as Hl2.
  pose proof (lseg_det _ _ _ _ Hl' Hl2) as E.
  apply (f_equal length) in E. rewrite length_app in E. simpl in E. lia.
Qed.

Lemma lseg_length h x l : lseg h x l null -> (length l <= size h)%nat.
Proof.
  intros Hl. pose proof (lseg_NoDup _ _ _ Hl) as Hnd.
  rewrite <- size_dom.
  rewrite <- (size_list_to_set (C := gset L) l) by done.
  apply subseteq_size. intros a Ha%elem_of_list_to_set. apply elem_of_dom.
  destruct (lseg_lookup _ _ _ _ _ Hl Ha) as [n ->]. done.
Qed.
End lseg.

(** ** Doubly linked segments: from [x], whose predecessor is [p], through [l] to [y];
    [q] is the last node of the segment ([p] when it is empty). *)

Section dseg.
Context {L N : Type} `{Countable L} `{LinksOk L N}.
Implicit Types (h : gmap L N) (p q x y a : L) (l : list L).

Fixpoint dseg h p x l q y : Prop :=
  match l with
  | [] => x = y /\ q = p
  | a :: l =>
      x = a /\ a <> null /\
      exists n, h !! a = Some n /\ prev_of n = p /\ dseg h a (next_of n) l q y
  end.

(** A whole list: first node [x], null at both ends. *)
Definition dlist h x l : Prop := exists q, dseg h null x l q null.

Lemma dseg_lseg h p x l q y : dseg h p x l q y -> lseg h x l y.
Proof.
  revert p x. induction l as [|a l IH]; intros p x; simpl; [by intros [-> _]|].
  intros (-> & Ha & n & Hn & _ & Hl). eauto 10.
Qed.

Lemma dlist_lseg h x l : dlist h x l -> lseg h x l null.
Proof. intros [q Hq]. by eapply dseg_lseg. Qed.

Lemma dlist_NoDup h x l : dlist h x l -> NoDup l.
Proof. intros Hl%dlist_lseg. by eapply lseg_NoDup. Qed.

Lemma dseg_frame h h' p x l q y :
  (forall a, a ∈ l -> h' !! a = h !! a) -> dseg h p x l q y -> dseg h' p x l q y.
Proof.
  revert p x. induction l as [|a l IH]; intros p x Hf; simpl; [done|].
  intros (-> & Ha & n & Hn & Hp & Hl). split; [done|]. split; [done|].
  exists n. rewrite Hf by set_solver. split; [done|]. split; [done|].
  apply IH; [|done]. intros; apply Hf; set_solver.
Qed.

Lemma dlist_frame h h' x l :
  (forall a, a ∈ l -> h' !! a = h !! a) -> dlist h x l -> dlist h' x l.
Proof. intros Hf [q Hq]. exists q. by eapply dseg_frame. Qed.

Lemma dseg_app h p x l1 l2 q y :
  dseg h p x (l1 ++ l2) q y <-> exists m z, dseg h p x l1 m z /\ dseg h m z l2 q y.
Proof.
  revert p x. induction l1 as [|a l1 IH]; intros p x; simpl.
  { split; [eauto 10|]. by intros (m & z & [-> ->] & ?). }
  split.
  - intros (-> & Ha & n & Hn & Hp & (m & z & Hl1 & Hl2)%IH). eauto 15.
  - intros (m & z & (-> & Ha & n & Hn & Hp & Hl1) & Hl2).
    split; [done|]. split; [done|]. exists n. repeat (split; [done|]). apply IH. eauto.
Qed.

Lemma dseg_cons h p a l q y n :
  a <> null -> h !! a = Some n -> prev_of n = p -> dseg h a (next_of n) l q y ->
  dseg h p a (a :: l) q y.
Proof. simpl. eauto 10. Qed.

Lemma dlist_null h x l : dlist h x l -> x = null <-> l = [].
Proof.
  intros [q Hq]. destruct l as [|a l]; simpl in Hq; [by destruct Hq|].
  destruct Hq as (-> & Ha & _). naive_solver.
Qed.

Lemma dlist_head h x a l : dlist h x (a :: l) -> x = a.
Proof. intros [q Hq]. by destruct Hq. Qed.

Lemma dlist_nil h : dlist h null [].
Proof. by exists null. Qed.

(** The last node of a non-empty segment; what follows it may be redirected. *)
Lemma dseg_last h p x l q y :
  dseg h p x l q y -> l <> [] -> q ∈ l /\ exists n, h !! q = Some n /\ next_of n = y.
Proof.
  revert p x. induction l as [|a l IH]; intros p x Hl Hne; [done|].
  destruct Hl as (-> & Ha & n & Hn & Hp & Hl). destruct l as [|b l].
  - destruct Hl as [<- ->]. split; [set_solver|eauto].
  - destruct (IH _ _ Hl ltac:(done)) as [? ?]. split; [set_solver|done].
Qed.

Lemma dseg_set_last_next h p x l q y z n :
  dseg h p x l q y -> NoDup l -> l <> [] -> h !! q = Some n ->
  dseg (<[q := set_next z n]> h) p x l q z.
Proof.
  revert p x. induction l as [|a l IH]; intros p x Hl Hnd Hne Hq; [done|].
  destruct Hl as (-> & Ha & n' & Hn' & Hp & Hl). apply NoDup_cons in Hnd as [Hal Hnd].
  destruct l as [|b l].
  - destruct Hl as [<- ->]. simplify_eq.
    eapply dseg_cons; [done|by rewrite lookup_insert_eq|by rewrite prev_set_next|].
    by rewrite next_set_next.
  - destruct (dseg_last _ _ _ _ _ _ Hl ltac:(done)) as [Hql _].
    eapply dseg_cons; [done|rewrite lookup_insert_ne by set_solver; done|done|].
    by apply IH.
Qed.

Lemma dseg_set_first_prev h p p' x a l q y n :
  dseg h p x (a :: l) q y -> NoDup (a :: l) -> h !! a = Some n ->
  dseg (<[a := set_prev p' n]> h) p' a (a :: l) q y.
Proof.
  intros (-> & Ha & n' & Hn' & Hp & Hl) [Hal Hnd]%NoDup_cons Hn. simplify_eq.
  eapply dseg_cons; [done|by rewrite lookup_insert_eq|by rewrite prev_set_prev|].
  rewrite next_set_prev. eapply dseg_frame; [|done].
  intros b Hb. rewrite lookup_insert_ne; [done|set_solver].
Qed.
End dseg.

(** ** Three list operations, as the C code writes them *)

Section dops.
Context {L N : Type} `{Countable L} `{LinksOk L N}.
Implicit Types (h : gmap L N) (p q x y a : L) (l : list L).

(** [if (p) p->next = v], [if (p) p->prev = v] *)
Definition st_next_opt h p v : option (gmap L N) :=
  if decide (p = null) then Some h else st_next h p v.
Definition st_prev_opt h p v : option (gmap L N) :=
  if decide (p = null) then Some h else st_prev h p v.

(** Only the links of nodes of [l] changed. *)
Definition links_only h h' l : Prop :=
  core <$> h' = core <$> h /\ forall a, a ∉ l -> h' !! a = h !! a.

Lemma links_only_refl h l : links_only h h l.
Proof. done. Qed.

Lemma links_only_trans h1 h2 h3 l :
  links_only h1 h2 l -> links_only h2 h3 l -> links_only h1 h3 l.
Proof. intros [C1 F1] [C2 F2]. split; [congruence|]. intros. by rewrite F2, F1. Qed.

Lemma links_only_insert h a n n' l :
  h !! a = Some n -> core n' = core n -> a ∈ l -> links_only h (<[a := n']> h) l.
Proof.
  intros Ha Hc Hal. split; [by eapply core_insert|].
  intros b Hb. rewrite lookup_insert_ne; [done|congruence].
Qed.

Lemma links_only_mono h h' l l' :
  l ⊆ l' -> links_only h h' l -> links_only h h' l'.
Proof. intros Hs [Hc Hf]. split; [done|]. intros. apply Hf. set_solver. Qed.

Lemma links_only_core h h' l a n' :
  links_only h h' l -> h' !! a = Some n' -> exists n, h !! a = Some n /\ core n = core n'.
Proof.
  intros [Hc _] Ha. apply (f_equal (lookup a)) in Hc. rewrite !lookup_fmap, Ha in Hc.
  destruct (h !! a); simpl in Hc; simplify_eq. eauto.
Qed.

(** [if (m) m->next = z] where [m] is the last node of [l]: the segment now leads to [z]. *)
Lemma set_end h x l m y z :
  dseg h null x l m y -> NoDup l ->
  exists h1, st_next_opt h m z = Some h1 /\ links_only h h1 l /\
    dseg h1 null (match l with [] => z | _ => x end) l m z.
Proof.
  intros S1 Hnd. unfold st_next_opt. destruct l as [|a l].
  - destruct S1 as [-> ->]. rewrite decide_True by done. by exists h.
  - destruct (dseg_last _ _ _ _ _ _ S1 ltac:(done)) as (Hm & n & Hn & _).
    rewrite decide_False
      by exact (lseg_not_null _ _ _ _ _ (dseg_lseg _ _ _ _ _ _ S1) Hm).
    unfold st_next. rewrite Hn. eexists. split; [done|]. split.
    + eapply links_only_insert; [done|by rewrite core_set_next|done].
    + by eapply dseg_set_last_next.
Qed.

(** [if (z) z->prev = m] where [z] is the first node of [l]. *)
Lemma set_start h l m m' z q :
  dseg h m' z l q null -> NoDup l ->
  exists h1, st_prev_opt h z m = Some h1 /\ links_only h h1 l /\
    exists q', dseg h1 m z l q' null.
Proof.
  intros S1 Hnd. unfold st_prev_opt. destruct l as [|b l].
  - destruct S1 as [-> ->]. rewrite decide_True by done.
    exists h. split; [done|]. split; [done|]. by exists m.
  - pose proof S1 as (-> & Hb & n & Hn & _). unfold st_prev.
    rewrite decide_False, Hn by done. eexists. split; [done|]. split.
    + eapply links_only_insert; [done|by rewrite core_set_prev|set_solver].
    + exists q. by eapply dseg_set_first_prev.
Qed.

Lemma links_only_dseg h h' l p x l' q y :
  links_only h h' l -> (forall a, a ∈ l' -> a ∉ l) -> dseg h p x l' q y -> dseg h' p x l' q y.
Proof. intros [_ Hf] Hd. apply dseg_frame. intros a Ha. by apply Hf, Hd. Qed.

Lemma NoDup_app_parts (l1 l2 : list L) :
  NoDup (l1 ++ l2) ->
  NoDup l1 /\ NoDup l2 /\ (forall a, a ∈ l1 -> a ∉ l2) /\ (forall a, a ∈ l2 -> a ∉ l1).
Proof. intros (? & ? & ?)%NoDup_app. naive_solver. Qed.
End dops.

Section dlists.
Context {L N : Type} `{Countable L} `{LinksOk L N}.
Implicit Types (h : gmap L N) (x y z a : L) (l : list L).

Lemma dlist_split h x l1 a l2 n :
  dlist h x (l1 ++ a :: l2) -> h !! a = Some n ->
  a <> null /\ dseg h null x l1 (prev_of n) a /\ exists q, dseg h a (next_of n) l2 q null.
Proof.
  intros [q (m & z & D1 & (-> & Ha & n' & Hn' & Hp & D2))%dseg_app] Hn.
  simplify_eq. eauto.
Qed.

Lemma dlist_next_null h x l1 a l2 n :
  dlist h x (l1 ++ a :: l2) -> h !! a = Some n -> (next_of n = null <-> l2 = []).
Proof.
  intros D Hn. destruct (dlist_split _ _ _ _ _ _ D Hn) as (_ & _ & q & D2).
  destruct l2 as [|b l2]; simpl in D2; [by destruct D2|].
  destruct D2 as (-> & Hb & _). naive_solver.
Qed.

Lemma dlist_prev_null h x l1 a l2 n :
  dlist h x (l1 ++ a :: l2) -> h !! a = Some n -> (prev_of n = null <-> l1 = []).
Proof.
  intros D Hn. destruct (dlist_split _ _ _ _ _ _ D Hn) as (_ & D1 & _).
  destruct l1 as [|b l1]; [by destruct D1|].
  destruct (dseg_last _ _ _ _ _ _ D1 ltac:(done)) as (Hin & _).
  pose proof (lseg_not_null _ _ _ _ _ (dseg_lseg _ _ _ _ _ _ D1) Hin).
  naive_solver.
Qed.

(** [n->prev->next = n->next; n->next->prev = n->prev], each guarded against null. *)
Lemma dlist_unlink h x l1 a l2 n :
  dlist h x (l1 ++ a :: l2) -> h !! a = Some n ->
  exists h1 h2,
    st_next_opt h (prev_of n) (next_of n) = Some h1 /\
    st_prev_opt h1 (next_of n) (prev_of n) = Some h2 /\
    links_only h h2 (l1 ++ l2) /\
    dlist h2 (match l1 with [] => next_of n | _ => x end) (l1 ++ l2).
Proof.
  intros D Hn. destruct (dlist_split _ _ _ _ _ _ D Hn) as (_ & D1 & q & D2).
  apply dlist_NoDup, NoDup_app_parts in D as (Nd1 & [_ Nd2]%NoDup_cons & Hd & Hd').
  destruct (set_end _ _ _ _ _ (next_of n) D1 Nd1) as (h1 & E1 & L1 & S1).
  destruct (set_start h1 l2 (prev_of n) a (next_of n) q) as (h2 & E2 & L2 & q' & S2);
    [eapply links_only_dseg;
      [done|by intros c Hc; apply Hd', list_elem_of_further|done]|done|].
  exists h1, h2. split; [done|]. split; [done|]. split.
  - eapply links_only_trans; (eapply links_only_mono; [|done]);
      intros c Hc; apply elem_of_app; auto.
  - exists q'. apply dseg_app. exists (prev_of n), (next_of n). split; [|done].
    eapply links_only_dseg; [done|intros c Hc Hc'|done].
    by eapply (Hd c Hc), list_elem_of_further.
Qed.

(** A node whose own links are already set is spliced in between [l1] and [l2]. *)
Lemma dlist_splice h x l1 l2 e n z :
  dseg h null x l1 (prev_of n) z -> (exists m q, dseg h m (next_of n) l2 q null) ->
  NoDup (l1 ++ e :: l2) -> e <> null -> h !! e = Some n ->
  exists h1 h2,
    st_next_opt h (prev_of n) e = Some h1 /\
    st_prev_opt h1 (next_of n) e = Some h2 /\
    links_only h h2 (l1 ++ l2) /\
    dlist h2 (match l1 with [] => e | _ => x end) (l1 ++ e :: l2).
Proof.
  intros D1 (m & q & D2) (Nd1 & [He Nd2]%NoDup_cons & Hd & Hd')%NoDup_app_parts Hne Hn.
  destruct (set_end _ _ _ _ _ e D1 Nd1) as (h1 & E1 & L1 & S1).
  destruct (set_start h1 l2 e m (next_of n) q) as (h2 & E2 & L2 & q' & S2);
    [eapply links_only_dseg;
      [done|by intros c Hc; apply Hd', list_elem_of_further|done]|done|].
  exists h1, h2. split; [done|]. split; [done|]. split.
  - eapply links_only_trans; (eapply links_only_mono; [|done]);
      intros c Hc; apply elem_of_app; auto.
  - exists q'. apply dseg_app. exists (prev_of n), e. split.
    + eapply links_only_dseg; [done|intros c Hc Hc'|done].
      by eapply (Hd c Hc), list_elem_of_further.
    + apply (dseg_cons _ _ _ _ _ _ n); [done| |done|done].
      destruct L1 as [_ F1], L2 as [_ F2]. rewrite F2, F1; [done| |done].
      apply Hd', list_elem_of_here.
Qed.
End dlists.

(** Only the [next] fields matter to a singly linked segment. *)
Lemma lseg_next_frame {L N} `{Countable L} `{Next L N} (h h' : gmap L N) x l y :
  (forall a, a ∈ l -> next_of <$> h' !! a = next_of <$> h !! a) ->
  lseg h x l y -> lseg h' x l y.
Proof.
  revert x. induction l as [|a l IH]; intros x Hf; simpl; [done|].
  intros (-> & Ha & n & Hn & Hl). split; [done|]. split; [done|].
  specialize (Hf a (list_elem_of_here _ _)) as Hf'. rewrite Hn in Hf'.
  destruct (h' !! a) as [n'|]; simplify_eq/=. exists n'. split; [done|].
  replace (next_of n') with (next_of n) by congruence. apply IH; [|done].
  intros b Hb. by apply Hf, list_elem_of_further.
Qed.

(** Splicing when the new node's links are not yet set: the two stores the code may build,
    depending on the order of its assignments, are the same. *)
Lemma insert_swap {L N} `{Countable L} (h : gmap L N) a b n m :
  a <> b -> <[a := n]> (<[b := m]> h) = <[b := m]> (<[a := n]> h).
Proof. apply insert_insert_ne. Qed.

(** Setting the same link twice. *)
Lemma st_prev_opt_twice {L N} `{Countable L} `{LinksOk L N} (h h' : gmap L N) p v :
  (forall n : N, set_prev v (set_prev v n) = set_prev v n) ->
  st_prev_opt h p v = Some h' -> st_prev_opt h' p v = Some h'.
Proof.
  intros Hs. unfold st_prev_opt. case_decide; [done|].
  intros (n & Hn & ->)%st_prev_Some. erewrite st_prev_ok by apply lookup_insert_eq.
  by rewrite insert_insert_eq, Hs.
Qed.

(** Taking a node out of a singly linked list: [prev->next = n->next], then the node is
    released; at the head of the list only the head changes. *)
Section lremove.
Context {L N : Type} `{Countable L} `{Next L N}.
Hypothesis next_set_next' : forall v (n : N), next_of (set_next v n) = v.

Lemma lseg_snoc_next (h : gmap L N) x k p np y z :
  lseg h x (k ++ [p]) y -> NoDup (k ++ [p]) -> h !! p = Some np ->
  lseg (<[p := set_next z np]> h) x (k ++ [p]) z.
Proof using Type*.
  intros (w & Hk & -> & Hp & n & Hn & Hy)%lseg_app (Hnd & Hd & _)%NoDup_app Hnp.
  apply lseg_app. exists p. split.
  - eapply lseg_frame; [|exact Hk]. intros a Ha. rewrite lookup_insert_ne; [done|].
    intros <-. apply (Hd p Ha). left.
  - simpl. split; [done|]. split; [done|]. eexists. rewrite lookup_insert_eq.
    split; [done|]. by rewrite next_set_next'.
Qed.

Lemma lseg_remove_inner (h : gmap L N) x k p a l2 np n :
  lseg h x ((k ++ [p]) ++ a :: l2) null -> h !! p = Some np -> h !! a = Some n ->
  lseg (delete a (<[p := set_next (next_of n) np]> h)) x ((k ++ [p]) ++ l2) null.
Proof using Type*.
  intros Hl Hnp Hn. pose proof (lseg_NoDup _ _ _ Hl) as Hnd.
  pose proof Hl as (w & Hk & -> & Ha & n' & Hn' & Hl2)%lseg_app. simplify_eq.
  pose proof Hnd as (Hk' & Hd & [Ha2 Hnd2]%NoDup_cons)%NoDup_app.
  assert (a ∉ k ++ [p]) as Hak by (intros Hin; apply (Hd a Hin); left).
  apply lseg_app. exists (next_of n). split.
  - eapply (lseg_frame (<[p := set_next (next_of n) np]> h)).
    + intros b Hb. rewrite lookup_delete_ne; [done|congruence].
    + by eapply lseg_snoc_next.
  - eapply lseg_frame; [|exact Hl2]. intros b Hb.
    rewrite lookup_delete_ne by congruence. rewrite lookup_insert_ne; [done|].
    intros <-. apply (Hd p); [apply elem_of_app; right; left|by apply list_elem_of_further].
Qed.

Lemma lseg_remove_head (h : gmap L N) x a l2 n :
  lseg h x (a :: l2) null -> h !! a = Some n -> lseg (delete a h) (next_of n) l2 null.
Proof using Type.
  intros Hl Hn. pose proof (lseg_NoDup _ _ _ Hl) as [Ha _]%NoDup_cons.
  destruct Hl as (-> & _ & n' & Hn' & Hl). simplify_eq.
  eapply lseg_frame; [|exact Hl]. intros b Hb. rewrite lookup_delete_ne; [done|congruence].
Qed.
End lremove.

(** ** Operations on whole doubly linked lists *)

Section dlinks.
Context {L N : Type} `{Countable L} `{LinksOk L N}.
Implicit Types (h : gmap L N) (x a : L) (l : list L).

Definition links (n : N) : L * L := (prev_of n, next_of n).

(** Only the links of its nodes matter to a list. *)
Lemma dseg_same_links h h' p x l q y :
  (forall a, a ∈ l -> links <$> h' !! a = links <$> h !! a) ->
  dseg h p x l q y -> dseg h' p x l q y.
Proof.
  revert p x. induction l as [|a l IH]; intros p x Hf; simpl; [done|].
  intros (-> & Ha & n & Hn & Hp & Hl). split; [done|]. split; [done|].
  specialize (Hf a (list_elem_of_here _ _)) as Hf'. rewrite Hn in Hf'.
  destruct (h' !! a) as [n'|]; [|done]. simpl in Hf'. unfold links in Hf'. simplify_eq/=.
  exists n'. split; [done|]. split; [congruence|].
  replace (next_of n') with (next_of n) by congruence. apply IH; [|done].
  intros b Hb. by apply Hf, list_elem_of_further.
Qed.

Lemma dlist_same_links h h' x l :
  (forall a, a ∈ l -> links <$> h' !! a = links <$> h !! a) -> dlist h x l -> dlist h' x l.
Proof. intros Hf [q Hq]. exists q. by eapply dseg_same_links. Qed.

(** [a->next = x; if (x) x->prev = a; a->prev = NULL]: a node in front of the list [x]. *)
Lemma dlist_push h x l a n :
  dlist h x l -> a ∉ l -> a <> null -> h !! a = Some n -> prev_of n = null -> next_of n = x ->
  exists h1, st_prev_opt h x a = Some h1 /\ links_only h h1 l /\ dlist h1 a (a :: l).
Proof.
  intros [q D] Ha Hne Hn Hp <-.
  destruct (dlist_splice h a [] l a n a) as (h1 & h2 & E1 & E2 & Hlo & D2).
  - simpl. by rewrite Hp.
  - by exists null, q.
  - simpl. constructor; [done|]. eapply (dlist_NoDup h (next_of n)). by exists q.
  - done.
  - done.
  - unfold st_next_opt in E1. rewrite decide_True in E1 by done. simplify_eq.
    exists h2. done.
Qed.

Lemma links_only_links h h' l a :
  links_only h h' l -> a ∉ l -> links <$> h' !! a = links <$> h !! a.
Proof. intros [_ Hf] Ha. by rewrite Hf. Qed.

Lemma links_only_present h h' l a n :
  links_only h h' l -> h !! a = Some n -> exists n', h' !! a = Some n' /\ core n' = core n.
Proof.
  intros [Hc _] Ha. apply (f_equal (lookup a)) in Hc. rewrite !lookup_fmap, Ha in Hc.
  destruct (h' !! a) as [n'|]; simpl in Hc; simplify_eq. eauto.
Qed.
End dlinks.

(** The two assignments around a node may be made in either order. *)
Lemma st_opt_swap {L N} `{Countable L} `{LinksOk L N} (h h1 h2 : gmap L N) p v q w :
  st_next_opt h p v = Some h1 -> st_prev_opt h1 q w = Some h2 -> (p = null \/ p <> q) ->
  exists h1', st_prev_opt h q w = Some h1' /\ st_next_opt h1' p v = Some h2.
Proof.
  unfold st_next_opt, st_prev_opt. intros E1 E2 Hne. case_decide as Hp; case_decide as Hq.
  - simplify_eq. eauto.
  - simplify_eq. eauto.
  - simplify_eq. eauto.
  - destruct Hne as [?|Hne]; [done|].
    apply st_next_Some in E1 as (n & Hn & ->). apply st_prev_Some in E2 as (n' & Hn' & ->).
    rewrite lookup_insert_ne in Hn' by done. rewrite (st_prev_ok _ _ _ _ Hn').
    eexists. split; [done|]. erewrite st_next_ok by (rewrite lookup_insert_ne by done; done).
    by rewrite insert_insert_ne.
Qed.

(** The neighbours of a node of a list are two different nodes, or null. *)
Lemma dlist_neighbours {L N} `{Countable L} `{LinksOk L N} (h : gmap L N) x l1 a l2 n :
  dlist h x (l1 ++ a :: l2) -> h !! a = Some n ->
  (prev_of n = null \/ prev_of n ∈ l1) /\ (next_of n = null \/ next_of n ∈ l2) /\
  (prev_of n = null \/ prev_of n <> next_of n).
Proof.
  intros D Hn. pose proof (dlist_NoDup _ _ _ D) as Hnd.
  destruct (dlist_split _ _ _ _ _ _ D Hn) as (_ & D1 & q & D2).
  apply NoDup_app_parts in Hnd as (_ & _ & Hd & _).
  assert (prev_of n = null \/ prev_of n ∈ l1 /\ prev_of n <> null) as Hp1.
  { destruct l1 as [|b l1]; [left; by destruct D1|right].
    destruct (dseg_last _ _ _ _ _ _ D1 ltac:(done)) as [Hin _]. split; [done|].
    exact (lseg_not_null _ _ _ _ _ (dseg_lseg _ _ _ _ _ _ D1) Hin). }
  assert (next_of n = null \/ next_of n ∈ l2) as Hp2.
  { destruct l2 as [|b l2]; [left; by destruct D2|right]. destruct D2 as (-> & _). left. }
  split; [tauto|]. split; [done|]. destruct Hp1 as [?|[Hp1 Hnn]]; [by left|right].
  intros E. destruct Hp2 as [Hp2|Hp2]; [congruence|].
  apply (Hd _ Hp1). rewrite E. by right.
Qed.
