(* ===== verification/Heap.v ===== *)
(** What the components rely on of [malloc]: it returns the address of a block that is not in
    use, and not the null pointer. The sources that never test its result are modelled under
    the assumption that it succeeds. *)

From S2P Require Import Prelude.

Class Allocator (N : Type) := malloc : gmap Z N -> Z.

Class AllocatorOk (N : Type) `{Allocator N} := {
  malloc_fresh (h : gmap Z N) : h !! malloc h = None;
  malloc_not_null (h : gmap Z N) : malloc h <> 0;
}.

(** A concrete allocator: one past the greatest address in use. *)
Definition bump {N} (h : gmap Z N) : Z := 1 + map_fold (fun a _ m => Z.max a m) 0 h.

Lemma bump_above {N} (h : gmap Z N) a n : h !! a = Some n -> 0 <= a < bump h \/ a < 0 < bump h.
Proof.
  unfold bump. revert a n.
  apply (map_fold_weak_ind (fun m h => 0 <= m /\ forall a n, h !! a = Some n ->
    0 <= a < 1 + m \/ a < 0 < 1 + m)).
  - split; [lia|]. intros a n. by rewrite lookup_empty.
  - intros b n' h' m Hb [Hm IH]. split; [lia|]. intros a n Ha.
    destruct (decide (b = a)) as [->|Hne]; [lia|].
    rewrite lookup_insert_ne in Ha by done. specialize (IH a n Ha). lia.
Qed.

Lemma bump_pos {N} (h : gmap Z N) : 0 < bump h.
Proof.
  unfold bump. apply (map_fold_weak_ind (fun m _ => 0 < 1 + m)); lia.
Qed.

Module BumpAllocator.
#[export] Instance bump_allocator N : Allocator N := bump.

#[export] Instance bump_allocator_ok N : AllocatorOk N.
Proof.
  split; intros h; unfold malloc, bump_allocator.
  - destruct (h !! bump h) as [n|] eqn:E; [|done]. apply bump_above in E. lia.
  - pose proof (bump_pos h). lia.
Qed.
End BumpAllocator.
