(* ===== verification/Hashes.v ===== *)
(** The hash functions of src/demo_hash/demo_hash.h, the ones src/demo_dict/dict.c keeps its
    own copies of, and FNV-1 and the bit reversal of src/demo_mempool/mphash.c.

    A buffer is the list of its bytes; the length argument the C functions take next to the
    pointer is the length of that list. *)

From S2P Require Import Prelude.

(** ** Thomas Wang's 32 bit mix function *)

Module Wang.

(* src/demo_hash/demo_hash.h:12-27 IntHash *)
Definition IntHash (key : Z) : Z :=
  let key := u32 (key + notw 32 (u32 (Z.shiftl key 15))) in
  let key := Z.lxor key (Z.shiftr key 10) in
  let key := u32 (key + u32 (Z.shiftl key 3)) in
  let key := Z.lxor key (Z.shiftr key 6) in
  let key := u32 (key + notw 32 (u32 (Z.shiftl key 11))) in
  Z.lxor key (Z.shiftr key 16).

(* src/demo_dict/dict.c:70-80 dictIntHashFunction *)
Definition dictIntHashFunction (key : Z) : Z :=
  let key := u32 (key + notw 32 (u32 (Z.shiftl key 15))) in
  let key := Z.lxor key (Z.shiftr key 10) in
  let key := u32 (key + u32 (Z.shiftl key 3)) in
  let key := Z.lxor key (Z.shiftr key 6) in
  let key := u32 (key + notw 32 (u32 (Z.shiftl key 11))) in
  Z.lxor key (Z.shiftr key 16).

End Wang.

(** ** MurmurHash2 *)

Module Murmur.

(* src/demo_hash/demo_hash.h:49-49 MurmurHash2 *)
Definition m : Z := 0x5bd1e995.
(* src/demo_hash/demo_hash.h:50-50 MurmurHash2 *)
Definition r : Z := 24.

(** A 4-byte load on a little-endian machine. *)
(* src/demo_hash/demo_hash.h:59-59 MurmurHash2 *)
Definition load32 (b0 b1 b2 b3 : Z) : Z :=
  Z.lor b0 (Z.lor (Z.shiftl b1 8) (Z.lor (Z.shiftl b2 16) (Z.shiftl b3 24))).

(* src/demo_hash/demo_hash.h:59-66 MurmurHash2 *)
Definition mix_word (h k : Z) : Z :=
  let k := u32 (k * m) in
  let k := Z.lxor k (Z.shiftr k r) in
  let k := u32 (k * m) in
  let h := u32 (h * m) in
  Z.lxor h k.

(** The [switch (len)]: case 3 falls through to 2 and to 1. *)
(* src/demo_hash/demo_hash.h:72-81 MurmurHash2 *)
Definition mix_tail (h : Z) (data : list Z) : Z :=
  match data with
  | [d0; d1; d2] =>
      u32 (Z.lxor (Z.lxor (Z.lxor h (Z.shiftl d2 16)) (Z.shiftl d1 8)) d0 * m)
  | [d0; d1] => u32 (Z.lxor (Z.lxor h (Z.shiftl d1 8)) d0 * m)
  | [d0] => u32 (Z.lxor h d0 * m)
  | _ => h
  end.

(* src/demo_hash/demo_hash.h:83-89 MurmurHash2 *)
Definition final_mix (h : Z) : Z :=
  let h := Z.lxor h (Z.shiftr h 13) in
  let h := u32 (h * m) in
  Z.lxor h (Z.shiftr h 15).

(* src/demo_hash/demo_hash.h:55-81 MurmurHash2 *)
Fixpoint mix_words (h : Z) (data : list Z) : Z :=
  match data with
  | b0 :: b1 :: b2 :: b3 :: rest => mix_words (mix_word h (load32 b0 b1 b2 b3)) rest
  | _ => mix_tail h data
  end.

(* src/demo_hash/demo_hash.h:31-90 MurmurHash2 *)
Definition MurmurHash2 (hash_seed : Z) (key : list Z) : Z :=
  let h := u32 (Z.lxor hash_seed (u64 (Z.of_nat (length key)))) in
  final_mix (mix_words h key).

(** dict.c's copy takes the length as an [int]: the counter of its loop is signed. *)
(* src/demo_dict/dict.c:92-144 dictGenHashFunction *)
Definition dictGenHashFunction (dict_hash_function_seed : Z) (key : list Z) : Z :=
  let len := i32 (Z.of_nat (length key)) in
  let h := Z.lxor dict_hash_function_seed (u32 len) in
  if len <? 0 then final_mix h else final_mix (mix_words h key).

End Murmur.

(** ** Bernstein's hash, its case-insensitive variant and FNV *)

Module Djb.

(* src/demo_hash/demo_hash.h:100-100 DJBHash *)
Definition djb_step (hash c : Z) : Z := u32 (u32 (u32 (Z.shiftl hash 5) + hash) + u32 c).

(** [char] is signed on the platforms the project builds for. *)
(* src/demo_hash/demo_hash.h:92-104 DJBHash *)
Definition DJBHash (hash_seed : Z) (str : list Z) : Z :=
  Z.land (fold_left (fun hash c => djb_step hash (i8 c)) str hash_seed)
         (notw 32 (u32 (Z.shiftl 1 31))).

(** C's [tolower] in the "C" locale. *)
Definition tolower (c : Z) : Z := if (65 <=? c) && (c <=? 90) then c + 32 else c.
Definition toupper (c : Z) : Z := if (97 <=? c) && (c <=? 122) then c - 32 else c.

(* src/demo_hash/demo_hash.h:106-116 DJBCaseHash *)
Definition DJBCaseHash (hash_seed : Z) (buf : list Z) : Z :=
  fold_left (fun hash c => djb_step hash (tolower c)) buf hash_seed.

(* src/demo_dict/dict.c:146-153 dictGenCaseHashFunction *)
Definition dictGenCaseHashFunction (dict_hash_function_seed : Z) (buf : list Z) : Z :=
  fold_left (fun hash c => djb_step hash (tolower c)) buf dict_hash_function_seed.

End Djb.

Module Fnv.

(* src/demo_mempool/mphash.c:56-56 FNV_MAGIC_INIT *)
Definition FNV_MAGIC_INIT : Z := 0x811c9dc5.
(* src/demo_mempool/mphash.c:57-57 FNV_MAGIC_PRIME *)
Definition FNV_MAGIC_PRIME : Z := 0x01000193.

(** mphash.c: multiply, then xor in the octet, from the first octet to the last. *)
(* src/demo_mempool/mphash.c:59-82 mp_hash *)
Definition mp_hash (data : list Z) : Z :=
  fold_left (fun hash b => Z.lxor (u32 (hash * FNV_MAGIC_PRIME)) b) data FNV_MAGIC_INIT.

(* src/demo_hash/demo_hash.h:123-123 M_MASK *)
Definition M_MASK : Z := 0x8765fed1.

(** demo_hash.h: [while (len--) hash = (hash * 16777619) ^ key[len]], from the last octet to
    the first; [M_SHIFT] is a global the caller may change. *)
(* src/demo_hash/demo_hash.h:127-129 FNVHash *)
Definition FNVHash_loop (key : list Z) : Z :=
  fold_right (fun b hash => Z.lxor (u32 (hash * 16777619)) b) (u32 (i32 2166136261)) key.

(* src/demo_hash/demo_hash.h:119-134 FNVHash *)
Definition FNVHash (M_SHIFT : Z) (key : list Z) : Z :=
  let hash := FNVHash_loop key in
  if M_SHIFT =? 0 then hash
  else Z.land (Z.lxor hash (Z.shiftr hash M_SHIFT)) M_MASK.

End Fnv.

(** * Bijections of words

    Every step of the mixers is a bijection of the 32-bit words: an affine map with an odd
    slope, or [x ^ (x >> n)]. *)

Section bijections.
Context (w : Z) (Hw : 0 <= w).

Lemma wrap_affine_cancel a c b x :
  wrap w (a * c) = 1 -> 0 <= x < 2 ^ w ->
  wrap w (c * (wrap w (a * x + b) - b)) = x.
Proof using Hw.
  intros Hac Hx.
  rewrite <- wrap_mul_r, wrap_sub_l, wrap_mul_r.
  replace (c * (a * x + b - b)) with ((a * c) * x) by ring.
  by rewrite <- wrap_mul_l, Hac, Z.mul_1_l, wrap_small.
Qed.

Lemma wrap_mul_inj a c x y :
  wrap w (a * c) = 1 -> 0 <= x < 2 ^ w -> 0 <= y < 2 ^ w ->
  wrap w (x * a) = wrap w (y * a) -> x = y.
Proof using Hw.
  intros Hac Hx Hy Heq.
  rewrite <- (wrap_affine_cancel a c 0 x), <- (wrap_affine_cancel a c 0 y) by done.
  by rewrite !Z.add_0_r, !(Z.mul_comm a), Heq.
Qed.

(** [x ^ (x >> n)] determines [x] bit by bit, from the top. *)
Lemma xorshift_inj n x y :
  0 < n -> 0 <= x < 2 ^ w -> 0 <= y < 2 ^ w ->
  Z.lxor x (Z.shiftr x n) = Z.lxor y (Z.shiftr y n) -> x = y.
Proof using Hw.
  intros Hn Hx Hy Heq. apply Z.bits_inj'. intros i Hi.
  remember (Z.to_nat (w - i)) as k eqn:Hk. revert i Hi Hk.
  induction k as [k IH] using lt_wf_ind. intros i Hi ->.
  destruct (Z.le_gt_cases w i).
  { by rewrite !(testbit_high w). }
  apply (f_equal (fun z => Z.testbit z i)) in Heq.
  rewrite !Z.lxor_spec, !Z.shiftr_spec in Heq by lia.
  rewrite <- (IH (Z.to_nat (w - (i + n))) ltac:(lia) (i + n)) in Heq by lia.
  by destruct (Z.testbit x i), (Z.testbit y i), (Z.testbit x (i + n)).
Qed.
End bijections.

(** The last summand of [x ^ x >> n ^ x >> 2n ^ ...] that is not zero on 32 bits. *)
Definition unxorshift (n y : Z) : Z :=
  Z.lxor y (Z.lxor (Z.shiftr y n) (Z.lxor (Z.shiftr y (2 * n)) (Z.lxor (Z.shiftr y (3 * n))
    (Z.lxor (Z.shiftr y (4 * n)) (Z.shiftr y (5 * n)))))).

Lemma shiftr_word_0 x n : 0 <= x < 2 ^ 32 -> 32 <= n -> Z.shiftr x n = 0.
Proof.
  intros Hx Hn. rewrite Z.shiftr_div_pow2 by lia. apply Z.div_small.
  pose proof (Z.pow_le_mono_r 2 32 n). lia.
Qed.

Lemma lxor_self_l x y : Z.lxor x (Z.lxor x y) = y.
Proof. by rewrite <- Z.lxor_assoc, Z.lxor_nilpotent, Z.lxor_0_l. Qed.

Lemma unxorshift_spec n y :
  6 <= n -> 0 <= y < 2 ^ 32 ->
  unxorshift n (Z.lxor y (Z.shiftr y n)) = y /\
  Z.lxor (unxorshift n y) (Z.shiftr (unxorshift n y) n) = y.
Proof.
  intros Hn Hy. unfold unxorshift.
  rewrite !Z.shiftr_lxor, !Z.shiftr_shiftr by lia.
  replace (n + 2 * n) with (3 * n) by lia. replace (n + 3 * n) with (4 * n) by lia.
  replace (n + 4 * n) with (5 * n) by lia. replace (n + n) with (2 * n) by lia.
  replace (2 * n + n) with (3 * n) by lia. replace (3 * n + n) with (4 * n) by lia.
  replace (4 * n + n) with (5 * n) by lia.
  rewrite (shiftr_word_0 y (5 * n + n)), (shiftr_word_0 y (n + 5 * n)) by lia.
  rewrite !Z.lxor_0_r, !Z.lxor_assoc, !lxor_self_l.
  split; rewrite ?Z.lxor_nilpotent, ?Z.lxor_0_r; [done|].
  rewrite (Z.lxor_comm y). apply Z.bits_inj'; intros i Hi.
  rewrite !Z.lxor_spec.
  repeat match goal with |- context [Z.testbit ?x i] => destruct (Z.testbit x i) end; done.
Qed.

(** ** [IntHash] is a bijection of the 32-bit words *)

Module WangFacts.
Import Wang.

Lemma add_not_shift key n :
  0 <= n -> u32 (key + notw 32 (u32 (Z.shiftl key n))) = u32 ((1 - 2 ^ n) * key + -1).
Proof.
  intros Hn. unfold notw. rewrite wrap_add_r. unfold Z.lnot. rewrite <- Z.sub_1_r.
  rewrite Z.shiftl_mul_pow2 by lia.
  replace (key + (- u32 (key * 2 ^ n) - 1)) with (key - 1 - u32 (key * 2 ^ n)) by ring.
  rewrite wrap_sub_r. f_equal. ring.
Qed.

Lemma add_shift key n :
  0 <= n -> u32 (key + u32 (Z.shiftl key n)) = u32 ((1 + 2 ^ n) * key + 0).
Proof.
  intros Hn. rewrite wrap_add_r, Z.shiftl_mul_pow2 by lia. f_equal. ring.
Qed.

Definition xorshift (n x : Z) : Z := Z.lxor x (Z.shiftr x n).

Lemma IntHash_steps key :
  IntHash key =
  xorshift 16 (u32 ((1 - 2 ^ 11) * xorshift 6 (u32 ((1 + 2 ^ 3) *
    xorshift 10 (u32 ((1 - 2 ^ 15) * key + -1)) + 0)) + -1)).
Proof.
  unfold IntHash, xorshift. cbv zeta. rewrite add_not_shift by lia.
  set (k1 := u32 (_ * key + _)). rewrite add_shift by lia.
  set (k2 := u32 (_ * Z.lxor k1 _ + _)). by rewrite add_not_shift by lia.
Qed.

(** The inverse: each step undone, the last one first. *)
Definition unhash (h : Z) : Z :=
  let h := unxorshift 16 h in
  let h := u32 ((1 + 2 ^ 11 + 2 ^ 22) * (h - -1)) in
  let h := unxorshift 6 h in
  let h := u32 (954437177 * (h - 0)) in
  let h := unxorshift 10 h in
  u32 ((1 + 2 ^ 15 + 2 ^ 30) * (h - -1)).

Lemma xorshift_bounds n x : 0 <= n -> 0 <= x < 2 ^ 32 -> 0 <= xorshift n x < 2 ^ 32.
Proof. intros. unfold xorshift. auto with words. Qed.

Lemma unxorshift_bounds n x : 0 <= n -> 0 <= x < 2 ^ 32 -> 0 <= unxorshift n x < 2 ^ 32.
Proof. intros. unfold unxorshift. auto 20 with words. Qed.

Lemma IntHash_bounds key : 0 <= IntHash key < 2 ^ 32.
Proof. rewrite IntHash_steps. apply xorshift_bounds; [lia|]. by apply wrap_bounds. Qed.

Lemma unhash_bounds h : 0 <= unhash h < 2 ^ 32.
Proof. unfold unhash. by apply wrap_bounds. Qed.

Lemma affine_uncancel a c b y :
  u32 (a * c) = 1 -> 0 <= y < 2 ^ 32 -> u32 (a * u32 (c * (y - b)) + b) = y.
Proof.
  intros Hac Hy. rewrite <- wrap_add_l, wrap_mul_r, wrap_add_l.
  replace (a * (c * (y - b)) + b) with ((a * c) * (y - b) + b) by ring.
  rewrite <- wrap_add_l, <- wrap_mul_l, Hac, Z.mul_1_l, wrap_add_l.
  rewrite wrap_small; lia.
Qed.

Lemma unxor_xor n x : 6 <= n -> 0 <= x < 2 ^ 32 -> unxorshift n (xorshift n x) = x.
Proof. intros. by apply unxorshift_spec. Qed.

Lemma xor_unxor n x : 6 <= n -> 0 <= x < 2 ^ 32 -> xorshift n (unxorshift n x) = x.
Proof. intros. by apply unxorshift_spec. Qed.

Hint Resolve xorshift_bounds unxorshift_bounds : words.

Lemma unhash_IntHash key : 0 <= key < 2 ^ 32 -> unhash (IntHash key) = key.
Proof.
  intros Hk. rewrite IntHash_steps. unfold unhash. cbv zeta.
  rewrite unxor_xor, wrap_affine_cancel by (reflexivity || auto with words || lia).
  rewrite unxor_xor, wrap_affine_cancel by (reflexivity || auto with words || lia).
  by rewrite unxor_xor, wrap_affine_cancel by (reflexivity || auto with words || lia).
Qed.

Lemma IntHash_unhash h : 0 <= h < 2 ^ 32 -> IntHash (unhash h) = h.
Proof.
  intros Hh. rewrite IntHash_steps. unfold unhash. cbv zeta.
  rewrite affine_uncancel, xor_unxor by (reflexivity || auto with words || lia).
  rewrite affine_uncancel, xor_unxor by (reflexivity || auto with words || lia).
  by rewrite affine_uncancel, xor_unxor by (reflexivity || auto with words || lia).
Qed.

(** Thomas Wang's 32 bit mix is a permutation of the unsigned ints: every 32-bit word is
    the hash of exactly one 32-bit key, so [IntHash] never makes two keys collide. *)
Theorem IntHash_bijective h :
  0 <= h < 2 ^ 32 -> exists! key, 0 <= key < 2 ^ 32 /\ IntHash key = h.
Proof.
  intros Hh. exists (unhash h). split.
  - split; [apply unhash_bounds|by apply IntHash_unhash].
  - intros key [Hk <-]. by apply unhash_IntHash.
Qed.

Lemma IntHash_bijective_witness :
  0 <= 4096 < 2 ^ 32 /\ exists! key, 0 <= key < 2 ^ 32 /\ IntHash key = 4096.
Proof. split; [lia|]. apply (IntHash_bijective 4096). lia. Defined.

End WangFacts.

(** ** MurmurHash2: where it cannot collide *)

Module MurmurFacts.
Import Murmur.

(** The inverse of the odd constant [m] modulo 2^32. *)
Definition m_inv : Z := 3852147133.

Lemma m_inv_ok : u32 (m * m_inv) = 1.
Proof. reflexivity. Qed.

Lemma load32_le b0 b1 b2 b3 :
  bytes_ok [b0; b1; b2; b3] ->
  load32 b0 b1 b2 b3 = b0 + 256 * (b1 + 256 * (b2 + 256 * b3)).
Proof.
  intros Hb. unfold bytes_ok in Hb. rewrite !Forall_cons in Hb. unfold is_byte in Hb.
  unfold load32.
  replace (Z.lor (Z.shiftl b1 8) (Z.lor (Z.shiftl b2 16) (Z.shiftl b3 24)))
    with (Z.shiftl (Z.lor b1 (Z.shiftl (Z.lor b2 (Z.shiftl b3 8)) 8)) 8).
  - rewrite !lor_shiftl_add by lia. lia.
  - by rewrite !Z.shiftl_lor, !Z.shiftl_shiftl by lia.
Qed.

Lemma load32_inj b0 b1 b2 b3 c0 c1 c2 c3 :
  bytes_ok [b0; b1; b2; b3] -> bytes_ok [c0; c1; c2; c3] ->
  load32 b0 b1 b2 b3 = load32 c0 c1 c2 c3 ->
  [b0; b1; b2; b3] = [c0; c1; c2; c3].
Proof.
  intros Hb Hc. rewrite !load32_le by done.
  unfold bytes_ok in *. rewrite !Forall_cons in *. unfold is_byte in *.
  intros. repeat f_equal; lia.
Qed.

Lemma load32_bounds b0 b1 b2 b3 :
  bytes_ok [b0; b1; b2; b3] -> 0 <= load32 b0 b1 b2 b3 < 2 ^ 32.
Proof.
  intros Hb. rewrite load32_le by done.
  unfold bytes_ok in *. rewrite !Forall_cons in *. unfold is_byte in *. lia.
Qed.

Lemma final_mix_inj x y :
  0 <= x < 2 ^ 32 -> 0 <= y < 2 ^ 32 -> final_mix x = final_mix y -> x = y.
Proof.
  intros Hx Hy Heq. unfold final_mix in Heq. cbv zeta in Heq.
  apply (xorshift_inj 32) in Heq; [|words..].
  apply (wrap_mul_inj 32 ltac:(lia) m m_inv) in Heq; [|words..].
  apply (xorshift_inj 32) in Heq; words || done.
Qed.

(** Multiplying the word in is a bijection of the word, whatever the hash so far is. *)
Lemma mix_word_inj h x y :
  0 <= x < 2 ^ 32 -> 0 <= y < 2 ^ 32 -> mix_word h x = mix_word h y -> x = y.
Proof.
  intros Hx Hy Heq. unfold mix_word, r in Heq. cbv zeta in Heq.
  apply (f_equal (Z.lxor (u32 (h * m)))) in Heq. rewrite !lxor_self_l in Heq.
  apply (wrap_mul_inj 32 ltac:(lia) m m_inv) in Heq; [|words..].
  apply (xorshift_inj 32) in Heq; [|words..].
  apply (wrap_mul_inj 32 ltac:(lia) m m_inv) in Heq; words || done.
Qed.

Lemma mix_word_bounds h k : 0 <= mix_word h k < 2 ^ 32.
Proof. unfold mix_word. cbv zeta. unfold r. auto 10 with words. Qed.

(** The words of an aligned prefix are mixed before the rest is looked at. *)
Lemma mix_words_app n : forall pre h rest,
  length pre = (4 * n)%nat -> mix_words h (pre ++ rest) = mix_words (mix_words h pre) rest.
Proof.
  induction n as [|n IH]; intros pre h rest Hl.
  { destruct pre; [done|simpl in Hl; lia]. }
  destruct pre as [|b0 [|b1 [|b2 [|b3 pre]]]]; simpl in Hl; try lia.
  simpl. apply IH. lia.
Qed.

(** MurmurHash2 never makes two keys of the same length collide when they differ in the
    last aligned 4-byte word only: in particular all 4-byte keys have different hashes. *)
Theorem MurmurHash2_last_word_inj seed pre n x y :
  length pre = (4 * n)%nat -> length x = 4%nat -> length y = 4%nat ->
  bytes_ok x -> bytes_ok y ->
  MurmurHash2 seed (pre ++ x) = MurmurHash2 seed (pre ++ y) -> x = y.
Proof.
  intros Hpre Hlx Hly Hx Hy Heq.
  destruct x as [|x0 [|x1 [|x2 [|x3 [|]]]]]; simpl in Hlx; try lia.
  destruct y as [|y0 [|y1 [|y2 [|y3 [|]]]]]; simpl in Hly; try lia.
  unfold MurmurHash2 in Heq. rewrite !length_app in Heq. cbv zeta in Heq.
  rewrite !(mix_words_app n) in Heq by done. simpl in Heq.
  apply final_mix_inj in Heq; [|apply mix_word_bounds..].
  apply mix_word_inj in Heq; [|by apply load32_bounds..].
  by apply load32_inj.
Qed.

Lemma MurmurHash2_last_word_inj_witness :
  MurmurHash2 5381 ([1; 2; 3; 4] ++ [104; 101; 108; 108]) <>
  MurmurHash2 5381 ([1; 2; 3; 4] ++ [104; 101; 108; 109]).
Proof.
  intros H.
  assert ([104; 101; 108; 108] = [104; 101; 108; 109]) as E; [|discriminate E].
  apply (MurmurHash2_last_word_inj 5381 [1; 2; 3; 4] 1 [104; 101; 108; 108]
           [104; 101; 108; 109]); [reflexivity..| | |exact H]; by repeat constructor.
Defined.


Lemma length_u64 (key : list Z) :
  Z.of_nat (length key) <= INT_MAX -> u64 (Z.of_nat (length key)) = Z.of_nat (length key).
Proof. unfold INT_MAX. intros. apply wrap_small. lia. Qed.

(** dict.c's private copy computes the same hash as demo_hash.h's MurmurHash2 for every
    key whose length an [int] can hold. *)
Theorem dictGenHashFunction_MurmurHash2 seed key :
  0 <= seed < 2 ^ 32 -> Z.of_nat (length key) <= INT_MAX ->
  dictGenHashFunction seed key = MurmurHash2 seed key.
Proof.
  intros Hs Hl. unfold dictGenHashFunction, MurmurHash2. cbv zeta.
  rewrite length_u64 by done. unfold INT_MAX in Hl.
  replace (i32 (Z.of_nat (length key))) with (Z.of_nat (length key))
    by (unfold sint; rewrite Z.mod_small; lia).
  destruct (Z.ltb_spec (Z.of_nat (length key)) 0); [lia|].
  rewrite (wrap_small 32 (Z.of_nat _)) by lia.
  rewrite (wrap_small 32) by (apply lxor_bounds; lia). done.
Qed.

Lemma dictGenHashFunction_MurmurHash2_witness :
  dictGenHashFunction 5381 [104; 101; 108; 108; 111] =
  MurmurHash2 5381 [104; 101; 108; 108; 111].
Proof. apply dictGenHashFunction_MurmurHash2; [lia|]. vm_compute. discriminate. Defined.

End MurmurFacts.

(** ** Bernstein's hash and FNV *)

Module DjbFacts.
Import Djb.

Lemma djb_step_spec h c : djb_step h c = u32 (33 * h + c).
Proof.
  unfold djb_step. rewrite wrap_add_r, wrap_add_l, <- Z.add_assoc, wrap_add_l.
  rewrite Z.shiftl_mul_pow2 by lia. f_equal. ring.
Qed.

(** The polynomial the shift-and-add loop evaluates, without any wrap-around. *)
Fixpoint djb_poly (seed : Z) (cs : list Z) : Z :=
  match cs with
  | [] => seed
  | c :: cs => djb_poly (33 * seed + c) cs
  end.

Lemma djb_poly_wrap cs : forall a b,
  u32 a = u32 b -> u32 (djb_poly a cs) = u32 (djb_poly b cs).
Proof.
  induction cs as [|c cs IH]; intros a b Hab; simpl; [done|].
  apply IH. by rewrite <- wrap_add_l, <- wrap_mul_r, Hab, wrap_mul_r, wrap_add_l.
Qed.

Lemma fold_djb_step (f : Z -> Z) (cs : list Z) : forall seed,
  u32 (fold_left (fun h c => djb_step h (f c)) cs seed) = u32 (djb_poly seed (f <$> cs)).
Proof.
  induction cs as [|c cs IH]; intros seed; simpl; [done|].
  rewrite IH, djb_step_spec. apply djb_poly_wrap. by rewrite wrap_wrap.
Qed.

Lemma fold_djb_step_bounds (f : Z -> Z) (cs : list Z) (seed : Z) :
  0 <= seed < 2 ^ 32 -> 0 <= fold_left (fun h c => djb_step h (f c)) cs seed < 2 ^ 32.
Proof.
  revert seed. induction cs as [|c cs IH]; intros seed Hs; simpl; [done|].
  apply IH. rewrite djb_step_spec. words.
Qed.

(** [DJBHash] is Bernstein's polynomial hash (base 33, signed characters) modulo 2^31:
    the mask it ends with strips the highest bit and nothing else. *)
Theorem DJBHash_spec (seed : Z) (str : list Z) :
  0 <= seed < 2 ^ 32 -> DJBHash seed str = djb_poly seed (i8 <$> str) mod 2 ^ 31.
Proof.
  intros Hs. unfold DJBHash.
  replace (notw 32 (u32 (Z.shiftl 1 31))) with (Z.ones 31) by reflexivity.
  rewrite Z.land_ones by lia.
  rewrite <- (wrap_small 32 (fold_left _ _ _)) by (by apply fold_djb_step_bounds).
  rewrite fold_djb_step. unfold wrap.
  change (2 ^ 32) with (2 ^ 31 * 2). rewrite Z.rem_mul_r by lia.
  by rewrite Z.mul_comm, Z.mod_add, Z.mod_mod by lia.
Qed.

Lemma DJBHash_spec_witness :
  DJBHash 5381 [72; 101; 200] = djb_poly 5381 (i8 <$> [72; 101; 200]) mod 2 ^ 31.
Proof. apply DJBHash_spec. lia. Defined.

Lemma tolower_toupper c : tolower (toupper c) = tolower c.
Proof.
  unfold tolower, toupper. destruct (Z.leb_spec 97 c), (Z.leb_spec c 122); simpl;
    split_positions; simpl; lia.
Qed.

(** The case-insensitive hashes do not depend on the case of any letter, and the one of
    dict.c is the one of demo_hash.h. *)
Theorem case_hashes_ignore_case (seed : Z) (buf : list Z) :
  DJBCaseHash seed (toupper <$> buf) = DJBCaseHash seed buf /\
  dictGenCaseHashFunction seed (toupper <$> buf) = DJBCaseHash seed buf.
Proof.
  unfold DJBCaseHash, dictGenCaseHashFunction.
  split; revert seed; induction buf as [|c buf IH]; intros seed; simpl; auto;
    by rewrite tolower_toupper, IH.
Qed.

End DjbFacts.

Module FnvFacts.
Import Fnv.

(** demo_hash.h's [FNVHash] walks its buffer backwards: with the default [M_SHIFT] it is
    the FNV-1 hash of mphash.c applied to the reversed buffer. *)
Theorem FNVHash_mp_hash_rev key : FNVHash 0 key = mp_hash (rev key).
Proof.
  unfold FNVHash, FNVHash_loop, mp_hash. cbn [Z.eqb].
  rewrite <- fold_left_rev_right, rev_involutive. reflexivity.
Qed.

Lemma mp_hash_bounds data : bytes_ok data -> 0 <= mp_hash data < 2 ^ 32.
Proof.
  intros Hd. unfold mp_hash.
  assert (0 <= FNV_MAGIC_INIT < 2 ^ 32) as Hi by (unfold FNV_MAGIC_INIT; lia).
  revert Hi. generalize FNV_MAGIC_INIT.
  induction Hd as [|b data Hb Hd IH]; intros h Hh; simpl; [done|].
  apply IH, lxor_bounds; [lia|words|]. unfold is_byte in Hb. lia.
Qed.

End FnvFacts.
