(* ===== verification/EventQueue.v ===== *)
(** The event queue of src/demo_event/event_queue.h: a circular doubly linked list with a
    sentinel entry, used as a FIFO by src/demo_event/event.c.

    A [struct dequeue] is the record of its three fields; the entries it leads to live in a
    store of [struct entry]. Events are the pointers the queue is given. *)

From S2P Require Import Prelude Linked Heap.

(* src/demo_event/event_queue.h:18-23 entry *)
Record entry := Entry { e : Z; prev : Z; next : Z }.
(* src/demo_event/event_queue.h:25-29 dequeue *)
Record dequeue := Dequeue { head : Z; tail : Z; size : Z }.

Abbreviation store := (gmap Z entry).

#[export] Instance entry_next : Next Z entry := {|
  null := 0; next_of := next; set_next v n := Entry (e n) (prev n) v |}.
#[export] Instance entry_prev : Prev Z entry := {|
  prev_of := prev; set_prev v n := Entry (e n) v (next n) |}.
#[export] Instance entry_links : LinksOk Z entry.
Proof. by split; intros ? []. Qed.

(** ** The operations *)

Section operations.
Context `{Allocator entry}.

(* src/demo_event/event_queue.h:31-36 dequeue_create_entry *)
Definition dequeue_create_entry (h : store) (ev : Z) : store * Z :=
  let p := malloc h in (<[p := Entry ev 0 0]> h, p).

(* src/demo_event/event_queue.h:38-46 dequeue_create *)
Definition dequeue_create (h : store) : option (store * dequeue) :=
  let (h, p) := dequeue_create_entry h 0 in
  h ← st_prev h p p;
  h ← st_next h p 0;
  Some (h, Dequeue p p 0).

(* src/demo_event/event_queue.h:48-50 dequeue_empty *)
Definition dequeue_empty (dq : dequeue) : bool := size dq =? 0.

(* src/demo_event/event_queue.h:52-54 dequeue_size *)
Definition dequeue_size (dq : dequeue) : Z := size dq.

(** [dq] is a pointer: [None] is the null one. The signed counter must not overflow. *)
(* src/demo_event/event_queue.h:56-70 dequeue_push *)
Definition dequeue_push (h : store) (dq : option dequeue) (ev : Z)
    : option (store * option dequeue) :=
  match dq with
  | None => Some (h, None)
  | Some dq =>
      let (h, p) := dequeue_create_entry h ev in
      h ← st_prev h p (tail dq);
      h ← st_next h (tail dq) p;
      let dq := Dequeue (head dq) p (size dq) in
      h ← st_prev h (head dq) (tail dq);
      h ← st_next h (tail dq) (head dq);
      require (size dq <? INT_MAX) ≫= fun _ =>
      Some (h, Some (Dequeue (head dq) (tail dq) (size dq + 1)))
  end.

(* src/demo_event/event_queue.h:72-87 dequeue_pop *)
Definition dequeue_pop (h : store) (dq : option dequeue)
    : option (store * option dequeue * Z) :=
  match dq with
  | None => Some (h, None, 0)
  | Some dq =>
      if size dq =? 0 then Some (h, Some dq, 0) else
      hd ← h !! head dq;
      let p := next hd in
      if p =? tail dq then
        ent ← h !! p;
        Some (h, Some (Dequeue (head dq) (head dq) (size dq - 1)), e ent)
      else
        ent ← h !! p;
        h ← st_next h (head dq) (next ent);
        h ← st_prev h (next ent) (prev ent);
        Some (h, Some (Dequeue (head dq) (tail dq) (size dq - 1)), e ent)
  end.

(** [while (p1->next != dq->head) { p2 = p1->next; free(p1); p1 = p2; }] *)
(* src/demo_event/event_queue.h:92-96 dequeue_free *)
Fixpoint dequeue_free_loop (fuel : nat) (h : store) (hd p1 : Z) : option store :=
  match fuel with
  | O => None
  | S fuel =>
      n ← h !! p1;
      if next n =? hd then Some h
      else dequeue_free_loop fuel (delete p1 h) hd (next n)
  end.

(* src/demo_event/event_queue.h:89-98 dequeue_free *)
Definition dequeue_free (h : store) (dq : dequeue) : option store :=
  dequeue_free_loop (S (base.size h)) h (head dq) (head dq).
End operations.

#[global] Arguments dequeue_push : simpl never.
#[global] Arguments dequeue_pop : simpl never.

(** ** The abstract queue

    [queue_on h dq l es]: behind its sentinel the queue [dq] has the entries [l], which hold
    the events [es], the oldest first; the last entry is [tail] and leads back to the
    sentinel. Of an empty queue only [tail] is meaningful: its sentinel's links are stale. *)

Definition event_at (h : store) (a : Z) : Z := from_option e 0 (h !! a).
Definition events (h : store) (l : list Z) : list Z := event_at h <$> l.

Record queue_on (h : store) (dq : dequeue) (l : list Z) (es : list Z) : Prop := QueueOn {
  on_sentinel : head dq <> 0;
  on_chain : exists n, h !! head dq = Some n /\
    (l <> [] -> dseg h (head dq) (next n) l (tail dq) (head dq));
  on_nil : l = [] -> tail dq = head dq;
  on_nodup : NoDup (head dq :: l);
  on_events : events h l = es;
  on_size : size dq = Z.of_nat (length l);
}.

Definition queue_rep (h : store) (dq : dequeue) (es : list Z) : Prop :=
  exists l, queue_on h dq l es.

Lemma events_frame h h' l :
  (forall a, a ∈ l -> event_at h' a = event_at h a) -> events h' l = events h l.
Proof. intros Hf. apply list_fmap_ext. intros i a Ha. by eapply Hf, list_elem_of_lookup_2. Qed.

Lemma event_at_core h h' a : core <$> h' = core <$> h -> event_at h' a = event_at h a.
Proof.
  intros Hc. apply (f_equal (lookup a)) in Hc. rewrite !lookup_fmap in Hc.
  unfold event_at. destruct (h !! a) as [[]|], (h' !! a) as [[]|]; simpl in *; congruence.
Qed.

Section correctness.
Context `{AllocatorOk entry}.
Implicit Types (h : store) (dq : dequeue).

Lemma queue_on_length h dq l es : queue_on h dq l es -> length es = length l.
Proof. intros [_ _ _ _ <- _]. apply length_fmap. Qed.

Lemma queue_on_live h dq l es a : queue_on h dq l es -> a ∈ l -> exists n, h !! a = Some n.
Proof.
  intros [_ (n & _ & Hd) _ _ _ _] Ha.
  assert (l <> []) as Hne by (by intros ->; apply elem_of_nil in Ha).
  eapply lseg_lookup; [by eapply dseg_lseg, Hd|done].
Qed.

(** [dequeue_size] and [dequeue_empty] report the length of the abstract queue. *)
Lemma dequeue_size_spec h dq es :
  queue_rep h dq es -> dequeue_size dq = Z.of_nat (length es) /\
    (dequeue_empty dq = true <-> es = []).
Proof.
  intros [l Hq]. pose proof (queue_on_length _ _ _ _ Hq) as Hl. destruct Hq.
  unfold dequeue_size, dequeue_empty. rewrite on_size0, <- Hl. split; [done|].
  rewrite Z.eqb_eq. destruct es; simpl; [done|]. split; [lia|done].
Qed.

Lemma dequeue_create_spec h :
  exists h' dq, dequeue_create h = Some (h', dq) /\ queue_rep h' dq [].
Proof.
  unfold dequeue_create, dequeue_create_entry. set (p := malloc h).
  unfold st_prev, st_next. rewrite lookup_insert_eq. simpl. rewrite lookup_insert_eq. simpl.
  eexists _, _. split; [done|]. exists []. split; simpl; try done.
  - apply malloc_not_null.
  - eexists. by rewrite lookup_insert_eq.
  - apply NoDup_singleton.
Qed.

Lemma queue_on_fresh h dq l es a : queue_on h dq l es -> h !! a = None -> a ∉ head dq :: l.
Proof.
  intros Hq Ha [->|Hin]%elem_of_cons.
  - destruct Hq as [_ (n & Hn & _) _ _ _ _]. congruence.
  - destruct (queue_on_live _ _ _ _ _ Hq Hin) as [n Hn]. congruence.
Qed.

(** Linking a new last entry [p] behind [tail]. *)
Lemma push_links h hd n l tl p ev :
  hd <> 0 -> p <> 0 -> NoDup (hd :: l) -> p ∉ hd :: l ->
  h !! hd = Some n -> h !! p = Some (Entry ev tl 0) ->
  (l = [] -> tl = hd) -> (l <> [] -> dseg h hd (next n) l tl hd) ->
  exists h1 h2 h3 n',
    st_next h tl p = Some h1 /\ st_prev h1 hd p = Some h2 /\ st_next h2 p hd = Some h3 /\
    core <$> h3 = core <$> h /\ h3 !! hd = Some n' /\ dseg h3 hd (next n') (l ++ [p]) p hd.
Proof.
  intros Hh0 Hp0 Hnd Hp Hn Hpn Hnil Hl. apply NoDup_cons in Hnd as [Hhl Hnd].
  apply not_elem_of_cons in Hp as [Hph Hpl].
  destruct (decide (l = [])) as [->|Hne].
  - rewrite (Hnil eq_refl) in *.
    exists (<[hd := Entry (e n) (prev n) p]> h), (<[hd := Entry (e n) p p]> h),
      (<[p := Entry ev hd hd]> (<[hd := Entry (e n) p p]> h)), (Entry (e n) p p).
    rewrite (st_next_ok _ _ _ n) by done. split; [done|].
    erewrite st_prev_ok by (by rewrite lookup_insert_eq).
    rewrite insert_insert_eq. split; [done|].
    erewrite st_next_ok by (by rewrite lookup_insert_ne).
    split; [done|]. split; [same_core|]. split.
    + by rewrite lookup_insert_ne, lookup_insert_eq.
    + simpl. split; [done|]. split; [done|]. eexists. by rewrite lookup_insert_eq.
  - specialize (Hl Hne). destruct (dseg_last _ _ _ _ _ _ Hl Hne) as (Htl & nt & Hnt & _).
    assert (tl <> hd) by congruence. assert (tl <> p) by congruence.
    exists (<[tl := set_next p nt]> h), (<[hd := Entry (e n) p (next n)]> (<[tl := set_next p nt]> h)),
      (<[p := Entry ev tl hd]> (<[hd := Entry (e n) p (next n)]> (<[tl := set_next p nt]> h))),
      (Entry (e n) p (next n)).
    rewrite (st_next_ok _ _ _ nt) by done. split; [done|].
    rewrite (st_prev_ok _ _ _ n) by (by rewrite lookup_insert_ne). split; [done|].
    rewrite (st_next_ok _ _ _ (Entry ev tl 0)) by (by rewrite !lookup_insert_ne).
    split; [done|]. split; [same_core|]. split.
    + by rewrite lookup_insert_ne, lookup_insert_eq.
    + apply dseg_app. exists tl, p. split.
      * eapply (dseg_frame (<[tl := set_next p nt]> h)).
        { intros a Ha. rewrite 2!lookup_insert_ne; [done|congruence..]. }
        by eapply dseg_set_last_next.
      * simpl. split; [done|]. split; [done|]. eexists. by rewrite lookup_insert_eq.
Qed.

(** [dequeue_push] appends: the queue then holds the events it held, in order, and the
    pushed one as its youngest. *)
Lemma dequeue_push_spec h dq es ev :
  queue_rep h dq es -> Z.of_nat (length es) < INT_MAX ->
  exists h' dq', dequeue_push h (Some dq) ev = Some (h', Some dq') /\
    queue_rep h' dq' (es ++ [ev]).
Proof.
  intros [l Hq] Hmax. pose proof (queue_on_length _ _ _ _ Hq) as Hlen.
  pose proof (malloc_fresh h) as Hp. pose proof (malloc_not_null h) as Hp0.
  unfold dequeue_push, dequeue_create_entry. set (p := malloc h) in *.
  pose proof (queue_on_fresh _ _ _ _ _ Hq Hp) as Hpl.
  destruct Hq as [Hh0 (n & Hn & Hd) Hnil Hnd Hes Hsz].
  cbv beta iota zeta. erewrite st_prev_ok by apply lookup_insert_eq. simpl.
  rewrite insert_insert_eq.
  apply not_elem_of_cons in Hpl as Hpl'. destruct Hpl' as [Hph Hpl'].
  destruct (push_links (<[p := Entry ev (tail dq) 0]> h) (head dq) n l (tail dq) p ev)
    as (h1 & h2 & h3 & n' & E1 & E2 & E3 & Hc & Hn' & D); try done.
  { by rewrite lookup_insert_ne. }
  { by rewrite lookup_insert_eq. }
  { intros Hne. eapply dseg_frame; [|by apply Hd].
    intros a Ha. rewrite lookup_insert_ne; [done|congruence]. }
  rewrite E1. simpl. rewrite E2. simpl. rewrite E3. simpl. rewrite Hsz, <- Hlen.
  destruct (Z.ltb_spec (Z.of_nat (length es)) INT_MAX); [|lia]. simpl.
  eexists _, _. split; [done|]. exists (l ++ [p]). split; simpl.
  - done.
  - eauto.
  - by destruct l.
  - apply NoDup_cons in Hnd as [? ?]. apply NoDup_cons. split; [set_solver|].
    apply NoDup_app. set_solver by (apply NoDup_singleton || done).
  - unfold events. rewrite fmap_app. simpl. f_equal.
    + rewrite <- Hes. apply events_frame. intros a Ha.
      rewrite (event_at_core _ _ _ Hc). unfold event_at.
      rewrite lookup_insert_ne; [done|congruence].
    + rewrite (event_at_core _ _ _ Hc). unfold event_at. by rewrite lookup_insert_eq.
  - rewrite length_app. simpl. lia.
Qed.

(** [dequeue_pop] takes the oldest event off and leaves the others in order; it changes
    nothing and returns the null pointer when the queue is empty. *)
Lemma dequeue_pop_spec h dq es :
  queue_rep h dq es ->
  match es with
  | [] => dequeue_pop h (Some dq) = Some (h, Some dq, 0)
  | ev :: es' =>
      exists h' dq', dequeue_pop h (Some dq) = Some (h', Some dq', ev) /\ queue_rep h' dq' es'
  end.
Proof.
  intros [l Hq]. destruct Hq as [Hh0 (n & Hn & Hd) Hnil Hnd Hes Hsz].
  unfold dequeue_pop. rewrite Hsz. destruct l as [|a l].
  { by rewrite <- Hes. }
  simpl in Hes. rewrite <- Hes. specialize (Hd ltac:(done)).
  destruct (Z.eqb_spec (Z.of_nat (length (a :: l))) 0); [simpl in *; lia|].
  rewrite Hn. simpl. destruct Hd as (Hx & Ha0 & na & Hna & Hpa & Hd). rewrite Hx, Hna.
  apply NoDup_cons in Hnd as [Hha [Hal Hnd]%NoDup_cons].
  apply not_elem_of_cons in Hha as [Hha Hhl].
  assert (event_at h a = e na) as -> by (unfold event_at; by rewrite Hna).
  destruct l as [|b l].
  - destruct Hd as [Hnx ->]. rewrite Z.eqb_refl. simpl.
    eexists _, _. split; [done|]. exists []. split; simpl; try done.
    + by exists n.
    + apply NoDup_singleton.
  - destruct (dseg_last _ _ _ _ _ _ Hd ltac:(done)) as (Htl & _).
    destruct (Z.eqb_spec a (tail dq)) as [->|Hne]; [done|]. simpl.
    destruct Hd as (Hb & Hb0 & nb & Hnb & Hpb & Hd).
    simpl in Hpa, Hb. rewrite Hpa.
    erewrite st_next_ok by done. simpl. rewrite Hb.
    erewrite st_prev_ok by (by rewrite lookup_insert_ne by set_solver). simpl.
    apply NoDup_cons in Hnd as Hnd'. destruct Hnd' as [Hbl Hnd'].
    assert (head dq <> b) by set_solver.
    eexists _, _. split; [done|]. exists (b :: l). split; simpl; try done.
    + exists (set_next b n). rewrite lookup_insert_ne, lookup_insert_eq by set_solver.
      split; [done|]. intros _. simpl. split; [done|]. split; [done|].
      eexists. rewrite lookup_insert_eq. split; [done|]. split; [done|]. simpl.
      eapply dseg_frame; [|done]. intros c Hc. rewrite !lookup_insert_ne; set_solver.
    + apply NoDup_cons. done.
    + apply (events_frame h _ (b :: l)). intros c Hc. apply event_at_core.
      same_core.
    + lia.
Qed.

(** *** Any sequence of calls *)

Inductive call := Push (ev : Z) | Pop.

(** The results of the [dequeue_pop] calls, in order. *)
Fixpoint run (h : store) (dq : option dequeue) (cs : list call)
    : option (store * option dequeue * list Z) :=
  match cs with
  | [] => Some (h, dq, [])
  | Push ev :: cs => '(h, dq) ← dequeue_push h dq ev; run h dq cs
  | Pop :: cs =>
      '(h, dq, r) ← dequeue_pop h dq;
      '(h, dq, rs) ← run h dq cs;
      Some (h, dq, r :: rs)
  end.

(** What a first-in first-out queue answers. *)
Fixpoint fifo (es : list Z) (cs : list call) : list Z * list Z :=
  match cs with
  | [] => (es, [])
  | Push ev :: cs => fifo (es ++ [ev]) cs
  | Pop :: cs =>
      match es with
      | [] => let (es, rs) := fifo [] cs in (es, 0 :: rs)
      | ev :: es => let (es, rs) := fifo es cs in (es, ev :: rs)
      end
  end.

Lemma run_fifo cs : forall h dq es,
  queue_rep h dq es -> Z.of_nat (length es + length cs) <= INT_MAX ->
  exists h' dq', run h (Some dq) cs = Some (h', Some dq', (fifo es cs).2) /\
    queue_rep h' dq' (fifo es cs).1.
Proof.
  induction cs as [|[ev|] cs IH]; intros h dq es Hq Hmax; simpl in *.
  - eauto.
  - destruct (dequeue_push_spec h dq es ev Hq) as (h' & dq' & -> & Hq'); [lia|]. simpl.
    apply IH; [done|]. rewrite length_app. simpl. lia.
  - pose proof (dequeue_pop_spec h dq es Hq) as Hpop. destruct es as [|ev es].
    + rewrite Hpop. simpl. destruct (IH h dq [] Hq) as (h' & dq' & -> & Hq'); [simpl; lia|].
      destruct (fifo [] cs). simpl. eauto.
    + destruct Hpop as (h' & dq' & -> & Hq'). simpl.
      destruct (IH h' dq' es Hq') as (h'' & dq'' & -> & Hq''); [simpl in *; lia|].
      destruct (fifo es cs). simpl. eauto.
Qed.

(** C16. The linked queue refines a first-in first-out queue: from [dequeue_create], every
    sequence of pushes and pops runs without a bad pointer access, its pops return exactly
    what the abstract queue returns (the null pointer when it is empty), and the entries
    left are the events left. *)
Theorem dequeue_refines_fifo h cs :
  Z.of_nat (length cs) <= INT_MAX ->
  exists h0 dq h' dq',
    dequeue_create h = Some (h0, dq) /\
    run h0 (Some dq) cs = Some (h', Some dq', (fifo [] cs).2) /\
    queue_rep h' dq' (fifo [] cs).1.
Proof.
  intros Hmax. destruct (dequeue_create_spec h) as (h0 & dq & Hc & Hq).
  destruct (run_fifo cs h0 dq [] Hq) as (h' & dq' & Hr & Hq'); [done|].
  by exists h0, dq, h', dq'.
Qed.

(** *** Releasing the queue *)

Lemma free_loop_spec hd q : forall l h p x fuel n,
  dseg h p x l q hd -> l <> [] -> NoDup l -> hd ∉ l -> (length l < fuel)%nat ->
  h !! p = Some n -> next n = x -> p ∉ l ->
  exists h', dequeue_free_loop fuel h hd p = Some h' /\
    forall a, h' !! a = if decide (a ∈ p :: l /\ a <> q) then None else h !! a.
Proof.
  induction l as [|a l IH]; intros h p x fuel n Hd Hne Hnd Hhd Hf Hn Hx Hp; [done|].
  destruct fuel as [|fuel]; [simpl in Hf; lia|]. simpl. rewrite Hn. simpl.
  destruct Hd as (-> & Ha0 & na & Hna & Hpa & Hd).
  apply not_elem_of_cons in Hhd as [Hhda Hhd]. apply not_elem_of_cons in Hp as [Hpa' Hp].
  apply NoDup_cons in Hnd as [Hal Hnd].
  rewrite Hx. destruct (Z.eqb_spec a hd) as [->|_]; [done|].
  destruct l as [|b l].
  - destruct Hd as [Hnx ->]. destruct fuel as [|fuel]; [simpl in Hf; lia|]. simpl.
    rewrite lookup_delete_ne, Hna by done. simpl in *. rewrite Hnx, Z.eqb_refl.
    eexists. split; [done|]. intros c. rewrite lookup_delete.
    repeat case_decide; set_solver.
  - destruct (dseg_last _ _ _ _ _ _ Hd ltac:(done)) as (Hq & _).
    destruct (IH (delete p h) a (next_of na) fuel na) as (h' & E & Hdel); try done.
    + eapply dseg_frame; [|done]. intros c Hc. rewrite lookup_delete_ne; [done|congruence].
    + simpl in *. lia.
    + by rewrite lookup_delete_ne.
    + exists h'. split; [done|]. intros c. rewrite Hdel, lookup_delete.
      repeat case_decide; set_solver.
Qed.

(** [dequeue_free] of a queue that holds events releases the sentinel and every entry
    except the youngest one: the last entry is leaked. *)
Theorem dequeue_free_leaks_last h dq l es :
  queue_on h dq l es -> l <> [] ->
  tail dq ∈ l /\
  exists h', dequeue_free h dq = Some h' /\
    forall a, h' !! a = if decide (a ∈ head dq :: l /\ a <> tail dq) then None else h !! a.
Proof.
  intros Hq Hne. pose proof Hq as [Hh0 (n & Hn & Hd) _ Hnd _ _].
  specialize (Hd Hne). apply NoDup_cons in Hnd as [Hhl Hnd].
  split; [by apply (dseg_last _ _ _ _ _ _ Hd)|].
  eapply free_loop_spec; try done.
  assert (length l <= base.size h)%nat; [|lia].
  rewrite <- size_dom, <- (size_list_to_set (C := gset Z) l) by done.
  apply subseteq_size. intros a Ha%elem_of_list_to_set. apply elem_of_dom.
  destruct (queue_on_live _ _ _ _ a Hq Ha) as [? ->]. done.
Qed.

(** [dequeue_free] of a queue nothing was ever pushed to frees the sentinel and then
    reads through its null [next] field: undefined behaviour, whatever the store is. *)
Theorem dequeue_free_new_crashes h :
  h !! 0 = None ->
  exists h' dq, dequeue_create h = Some (h', dq) /\ dequeue_free h' dq = None.
Proof.
  intros Hnull. unfold dequeue_create, dequeue_create_entry. set (p := malloc h).
  pose proof (malloc_not_null h) as Hp0. fold p in Hp0.
  cbv beta iota zeta. erewrite st_prev_ok by apply lookup_insert_eq. simpl.
  erewrite st_next_ok by apply lookup_insert_eq. simpl. rewrite !insert_insert_eq.
  eexists _, _. split; [done|]. unfold dequeue_free. cbn -[Z.eqb].
  rewrite lookup_insert_eq. cbn -[Z.eqb]. destruct (Z.eqb_spec 0 p) as [E|_]; [done|].
  destruct (base.size _) as [|k] eqn:Ek; [done|]. simpl.
  by rewrite lookup_delete_ne, lookup_insert_ne, Hnull by done.
Qed.
End correctness.

(** ** Witnesses *)

Import BumpAllocator.

Lemma dequeue_refines_fifo_witness :
  exists h0 dq h' dq',
    dequeue_create ∅ = Some (h0, dq) /\
    run h0 (Some dq) [Push 11; Push 22; Pop; Push 33; Pop; Pop; Pop] =
      Some (h', Some dq', [11; 22; 33; 0]) /\
    queue_rep h' dq' [].
Proof.
  apply (dequeue_refines_fifo ∅ [Push 11; Push 22; Pop; Push 33; Pop; Pop; Pop]).
  vm_compute. discriminate.
Defined.

Definition two_events : store := <[3 := Entry 22 2 1]> (<[2 := Entry 11 1 3]> {[1 := Entry 0 3 2]}).

Lemma two_events_queue : queue_on two_events (Dequeue 1 3 2) [2; 3] [11; 22].
Proof.
  split; try done.
  - exists (Entry 0 3 2). split; [done|]. intros _. simpl.
    repeat (split; [done|]). eexists. split; [reflexivity|]. simpl. split; [done|].
    repeat (split; [done|]). eexists. split; [reflexivity|]. done.
  - apply (bool_decide_unpack _). vm_compute. done.
Qed.

Lemma dequeue_free_leaks_last_witness :
  3 ∈ [2; 3] /\
  exists h', dequeue_free two_events (Dequeue 1 3 2) = Some h' /\
    forall a, h' !! a = if decide (a ∈ [1; 2; 3] /\ a <> 3) then None else two_events !! a.
Proof.
  exact (dequeue_free_leaks_last two_events (Dequeue 1 3 2) [2; 3] [11; 22]
           two_events_queue ltac:(discriminate)).
Defined.

Lemma dequeue_free_new_crashes_witness :
  exists h' dq, dequeue_create ∅ = Some (h', dq) /\ dequeue_free h' dq = None.
Proof. apply (dequeue_free_new_crashes ∅). reflexivity. Defined.
