(* ===== verification/Threads.v ===== *)
(** Threads around one mutex and one condition variable: what the models of event.c and
    demo_pthread.c share.

    A system has a program counter for every thread, and the mutex is the number of the thread
    that owns it. [Threads] says of a program counter whether the thread must own the mutex
    there, whether it is blocked on the condition variable, where it goes on from there, and
    whether its step is a broadcast. [inv_lock] is the invariant of a mutex: the threads inside
    are exactly its owner. *)

From S2P Require Import Prelude.

Class Threads (pc : Type) := {
  inside : pc -> bool;
  waits : pc -> bool;
  wakes_to : pc;
  broadcasts : pc -> bool;
}.

Class ThreadsOk (pc : Type) `{Threads pc} := {
  waits_outside p : waits p = true -> inside p = false;
  wakes_outside : inside wakes_to = false;
  wakes_up : waits wakes_to = false;
  waits_silent p : waits p = true -> broadcasts p = false;
}.

Section threads.
Context {pc : Type} `{ThreadsOk pc}.
Implicit Types (p q x : pc) (ps qs : list pc) (i j : nat) (lock : option nat).

(** [pthread_cond_broadcast] lets every thread that waits go on; a step of [p] does so if it
    is a broadcast. *)
Definition wake p : pc := if waits p then wakes_to else p.

Definition woken p ps : list pc := if broadcasts p then wake <$> ps else ps.

Definition holder ps i : Prop := exists p, ps !! i = Some p /\ inside p = true.

Definition inv_lock ps lock : Prop := forall i, holder ps i <-> lock = Some i.

(** What a step of thread [i] may do to the lock, given whether it was and is inside. *)
Definition lock_step i (was is_now : bool) lock lock' : Prop :=
  match was, is_now with
  | false, true => lock = None /\ lock' = Some i
  | true, false => lock' = None
  | _, _ => lock' = lock
  end.

(** ** Threads that wait *)

Lemma inside_wake p : inside (wake p) = inside p.
Proof. unfold wake. destruct (waits p) eqn:E; [|done]. by rewrite wakes_outside, waits_outside. Qed.

Lemma waits_wake p : waits (wake p) = false.
Proof. unfold wake. destruct (waits p) eqn:E; [apply wakes_up|done]. Qed.

(** A broadcast leaves everything as it was but the threads that wait. *)
Lemma woken_lookup p ps i x :
  woken p ps !! i = Some x <->
    exists y, ps !! i = Some y /\ x = if broadcasts p then wake y else y.
Proof.
  unfold woken. destruct (broadcasts p); [|naive_solver].
  rewrite list_lookup_fmap_Some. naive_solver.
Qed.

Lemma woken_other p ps i x :
  waits x = false -> x <> wakes_to -> woken p ps !! i = Some x <-> ps !! i = Some x.
Proof.
  intros H1 H2. rewrite woken_lookup. split.
  - intros (y & Hy & E). destruct (broadcasts p); [|congruence]. unfold wake in E.
    destruct (waits y); congruence.
  - intros Hx. exists x. split; [done|]. unfold wake. rewrite H1. by destruct (broadcasts p).
Qed.

Lemma woken_elem p ps x : waits x = false -> x <> wakes_to -> x ∈ woken p ps <-> x ∈ ps.
Proof.
  intros H1 H2. rewrite !list_elem_of_lookup. split; intros [i Hi]; exists i;
    by apply (woken_other p ps i x H1 H2).
Qed.

Lemma woken_waiting p ps x :
  waits x = true -> x ∈ woken p ps -> x ∈ ps /\ broadcasts p = false.
Proof.
  intros Hx [i Hi]%list_elem_of_lookup. apply woken_lookup in Hi as (y & Hy & E).
  destruct (broadcasts p); subst.
  - by rewrite waits_wake in Hx.
  - split; [by eapply list_elem_of_lookup_2|done].
Qed.

Lemma woken_self p ps i : ps !! i = Some p -> woken p ps !! i = Some p.
Proof.
  intros Hi. apply woken_lookup. exists p. split; [done|]. unfold wake.
  destruct (broadcasts p) eqn:Eb, (waits p) eqn:Ew; try done.
  by rewrite waits_silent in Eb.
Qed.

Lemma woken_bind {A} (f : pc -> list A) p ps :
  (forall q, waits q = true -> f q = f wakes_to) -> woken p ps ≫= f = ps ≫= f.
Proof.
  intros Hf. unfold woken. destruct (broadcasts p); [|done].
  induction ps as [|q ps IH]; [done|]. cbn. f_equal; [|exact IH].
  unfold wake. destruct (waits q) eqn:E; [by rewrite (Hf q)|done].
Qed.

(** ** The mutex *)

Lemma holder_unique ps lock i j : inv_lock ps lock -> holder ps i -> holder ps j -> i = j.
Proof. intros Hl Hi Hj. apply Hl in Hi, Hj. congruence. Qed.

Lemma holder_lookup ps i p : ps !! i = Some p -> holder ps i <-> inside p = true.
Proof. intros Hi. split; [intros (x & Hx & ?); congruence|by exists p]. Qed.

Lemma outside ps i p : inv_lock ps None -> ps !! i = Some p -> inside p = false.
Proof.
  intros Hl Hi. destruct (inside p) eqn:E; [|done].
  assert (None = Some i) by (apply Hl; by exists p). done.
Qed.

Lemma inv_lock_insert ps lock lock' i p p' :
  inv_lock ps lock -> ps !! i = Some p -> lock_step i (inside p) (inside p') lock lock' ->
  inv_lock (<[i := p']> ps) lock'.
Proof.
  intros Hl Hi Hs j.
  assert (holder (<[i := p']> ps) j <-> (j = i /\ inside p' = true) \/ (j <> i /\ holder ps j)) as ->.
  { apply lookup_lt_Some in Hi. unfold holder. setoid_rewrite list_lookup_insert_Some. naive_solver. }
  rewrite (Hl j). pose proof (Hl i) as Hpi. rewrite (holder_lookup _ _ _ Hi) in Hpi.
  unfold lock_step in Hs.
  destruct (inside p), (inside p'); destruct (decide (j = i)); naive_solver congruence.
Qed.

Lemma inv_lock_woken p ps lock : inv_lock ps lock -> inv_lock (woken p ps) lock.
Proof.
  intros Hl i. rewrite <- (Hl i). unfold holder. setoid_rewrite woken_lookup. split.
  - intros (x & (y & Hy & ->) & Hin). exists y. split; [done|].
    destruct (broadcasts p); [by rewrite inside_wake in Hin|done].
  - intros (y & Hy & Hin). eexists. split; [by eexists|].
    destruct (broadcasts p); [by rewrite inside_wake|done].
Qed.

Lemma inv_lock_app ps qs lock :
  Forall (fun q => inside q = false) qs -> inv_lock ps lock -> inv_lock (ps ++ qs) lock.
Proof.
  intros Hq Hl i. rewrite <- (Hl i). unfold holder. split.
  - intros (p & [Hp|[_ Hp]]%lookup_app_Some & Hin); [by exists p|].
    rewrite Forall_lookup in Hq. apply Hq in Hp. congruence.
  - intros (p & Hp & Hin). exists p. split; [by apply lookup_app_l_Some|done].
Qed.

(** A thread takes a step and starts the threads [qs]. *)
Lemma inv_lock_step ps qs lock lock' i p p' :
  inv_lock ps lock -> ps !! i = Some p -> lock_step i (inside p) (inside p') lock lock' ->
  Forall (fun q => inside q = false) qs ->
  inv_lock (<[i := p']> (woken p ps) ++ qs) lock'.
Proof.
  intros Hl Hi Hs Hq. apply inv_lock_app; [done|].
  eapply inv_lock_insert; [by apply inv_lock_woken|by apply woken_self|done].
Qed.

(** A thread leaves the wait on its own. *)
Lemma inv_lock_spurious ps lock i p :
  inv_lock ps lock -> ps !! i = Some p -> waits p = true -> inv_lock (<[i := wakes_to]> ps) lock.
Proof.
  intros Hl Hi Hw. eapply inv_lock_insert; [done|done|].
  by rewrite waits_outside, wakes_outside.
Qed.
End threads.
