(* ===== verification/EventLoop.v ===== *)
(** The event loop of src/demo_event/event.c: threads that add events to the queue of
    event_queue.h (EventQueue.v) and threads that take them out and act on them.

    Every thread has a program counter; [thread_step] is what it does next, and [step] lets any
    thread that is not blocked go on. The mutex is the number of its owner. A thread that waits
    on the condition variable has given the mutex up; it leaves the wait when the condition is
    broadcast, or spuriously, and then takes the mutex again. The queue is the heap of entries
    and the record [events] leads to. An event is the pointer to it; [act_event], which prints
    what the event holds, is the step that follows that pointer. [wait_for_events] joins
    consumers that never return, so [event_exit] is not reached from [main]. *)

From stdpp Require Import relations.
From S2P Require Import Prelude Linked Heap EventQueue Threads.

Definition E_INIT_ERROR : Z := -1.
(* src/demo_event/event.c:18-18 thread_pool_core_size *)
Definition thread_pool_core_size : nat := 3.

(* src/demo_event/event.c:15-21 events *)
Record shared := Shared { _lock : option nat; heap : store; queue : option dequeue }.

Definition set_lock l s := Shared l (heap s) (queue s).

Inductive pc :=
  (* exec_event *)
  | Lock                 (* pthread_mutex_lock *)
  | Look                 (* while (dequeue_empty(events)), lock held *)
  | Waiting              (* blocked in pthread_cond_wait *)
  | Woken                (* leaving pthread_cond_wait, which takes the lock again *)
  | Pop                  (* dequeue_pop, lock held *)
  | Unlock (e : Z)       (* pthread_mutex_unlock *)
  | Act (e : Z)          (* act_event *)
  (* add_event *)
  | AddLock (e : Z)      (* pthread_mutex_lock *)
  | Push (e : Z)         (* dequeue_push, lock held *)
  | Broadcast            (* pthread_cond_broadcast, lock held *)
  | AddUnlock            (* pthread_mutex_unlock *)
  | Added.

#[export] Instance pc_threads : Threads pc := {
  inside p := match p with Look | Pop | Unlock _ | Push _ | Broadcast | AddUnlock => true | _ => false end;
  waits p := match p with Waiting => true | _ => false end;
  wakes_to := Woken;
  broadcasts p := match p with Broadcast => true | _ => false end;
}.

#[export] Instance pc_threads_ok : ThreadsOk pc.
Proof. split; [intros []|..|intros []]; done. Qed.

Section Program.
Context `{Allocator entry}.

(** [None]: the thread is blocked, has returned, or follows a bad pointer. *)
(* src/demo_event/event.c:35-47 exec_event *)
Definition exec_event (me : nat) (s : shared) (p : pc) : option (shared * pc) :=
  match p with
  | Lock | Woken =>
      match _lock s with None => Some (set_lock (Some me) s, Look) | Some _ => None end
  | Look =>
      dq ← queue s;
      if dequeue_empty dq then Some (set_lock None s, Waiting) else Some (s, Pop)
  | Pop =>
      '(h, q, e) ← dequeue_pop (heap s) (queue s);
      Some (Shared (_lock s) h q, Unlock e)
  | Unlock e => Some (set_lock None s, Act e)
  | Act e => if e =? 0 then None else Some (s, Lock)
  | _ => None
  end.

(** The step of [Broadcast] is in [step]: it also wakes the threads that wait. *)
(* src/demo_event/event.c:28-33 add_event *)
Definition add_event (me : nat) (s : shared) (p : pc) : option (shared * pc) :=
  match p with
  | AddLock e =>
      match _lock s with None => Some (set_lock (Some me) s, Push e) | Some _ => None end
  | Push e =>
      '(h, q) ← dequeue_push (heap s) (queue s) e;
      Some (Shared (_lock s) h q, Broadcast)
  | Broadcast => Some (s, AddUnlock)
  | AddUnlock => Some (set_lock None s, Added)
  | _ => None
  end.

Definition thread_step (me : nat) (s : shared) (p : pc) : option (shared * pc) :=
  match p with
  | Lock | Look | Waiting | Woken | Pop | Unlock _ | Act _ => exec_event me s p
  | _ => add_event me s p
  end.

(** The queue, how many threads were started, and what is returned. *)
(* src/demo_event/event.c:49-72 event_init *)
Definition event_init (cond_ok mutex_ok : bool) (h : store) : option (shared * list pc * Z) :=
  '(h, dq) ← dequeue_create h;
  let s := Shared None h (Some dq) in
  if negb cond_ok then Some (s, [], E_INIT_ERROR)
  else if negb mutex_ok then Some (s, [], E_INIT_ERROR)
  else Some (s, replicate thread_pool_core_size Lock, 0).

(* src/demo_event/event.c:74-76 event_exit *)
Definition event_exit (s : shared) : option store :=
  dq ← queue s; dequeue_free (heap s) dq.

(** [pushed], [popped] and [acted] record the events in the order of these steps. *)
Record system := System {
  sh : shared;
  pcs : list pc;
  pushed : list Z;
  popped : list Z;
  acted : list Z;
}.

Definition pushes (p : pc) : list Z := match p with Push e => [e] | _ => [] end.
Definition pops (p p' : pc) : list Z := match p, p' with Pop, Unlock e => [e] | _, _ => [] end.
Definition acts (p : pc) : list Z := match p with Act e => [e] | _ => [] end.

(** A thread that is not blocked goes on. *)
Inductive move : system -> system -> Prop :=
  | move_thread s i p s' p' :
      pcs s !! i = Some p -> thread_step i (sh s) p = Some (s', p') ->
      move s (System s' (<[i := p']> (woken p (pcs s)))
        (pushed s ++ pushes p) (popped s ++ pops p p') (acted s ++ acts p)).

Inductive step : system -> system -> Prop :=
  | step_move s s' : move s s' -> step s s'
  | step_spurious s i :
      pcs s !! i = Some Waiting ->
      step s (System (sh s) (<[i := Woken]> (pcs s)) (pushed s) (popped s) (acted s))
  | step_add s e :
      e <> 0 ->
      step s (System (sh s) (pcs s ++ [AddLock e]) (pushed s) (popped s) (acted s)).

(** What a process reaches that has called [event_init] successfully. *)
Definition reachable (h : store) (s : system) : Prop :=
  exists s0 ps, event_init true true h = Some (s0, ps, 0) /\ rtc step (System s0 ps [] [] []) s.
End Program.

(** ** The invariant *)

(** The events a consumer has taken out and not yet acted on. *)
Definition carried (p : pc) : list Z := match p with Unlock e | Act e => [e] | _ => [] end.

(** The event a caller of [add_event] is about to push. *)
Definition offered (p : pc) : list Z := match p with AddLock e | Push e => [e] | _ => [] end.

Definition consumes (p : pc) : bool :=
  match p with AddLock _ | Push _ | Broadcast | AddUnlock | Added => false | _ => true end.

Definition queue_is (s : shared) (es : list Z) : Prop :=
  exists dq, queue s = Some dq /\ queue_rep (heap s) dq es.

Record ok (s : system) (es : list Z) : Prop := {
  ok_lock : inv_lock (pcs s) (_lock (sh s));
  ok_queue : queue_is (sh s) es;
  ok_fifo : pushed s = popped s ++ es;
  ok_pop : Pop ∈ pcs s -> es <> [];
  ok_acted : popped s ≡ₚ acted s ++ (pcs s ≫= carried);
  ok_wake : es <> [] -> Waiting ∈ pcs s -> Broadcast ∈ pcs s;
  ok_events : 0 ∉ pushed s ++ (pcs s ≫= offered);
  ok_consumers : exists i p, pcs s !! i = Some p /\ consumes p = true;
}.

Section invariant.
Context `{AllocatorOk entry}.

Lemma push_below_max h dq e r : dequeue_push h (Some dq) e = Some r -> size dq < INT_MAX.
Proof.
  unfold dequeue_push. destruct (dequeue_create_entry h e). intros E. invert_binds.
  unfold require in *. cbn [size] in *. destruct (size dq <? INT_MAX) eqn:El; [by apply Z.ltb_lt|done].
Qed.

(** What a step of the thread [i] does to the lock, the queue and the events. *)
Lemma event_thread_facts i s p s' p' es :
  thread_step i s p = Some (s', p') -> queue_is s es -> (p = Pop -> es <> []) ->
  lock_step i (inside p) (inside p') (_lock s) (_lock s') /\
  exists es', queue_is s' es' /\ es ++ pushes p = pops p p' ++ es' /\
    carried p' ++ acts p = carried p ++ pops p p' /\
    offered p = pushes p ++ offered p' /\
    (p' = Pop -> es' <> []) /\ (p' = Waiting -> es' = []) /\
    (pushes p <> [] -> p' = Broadcast) /\
    consumes p' = consumes p.
Proof using All.
  intros Hs (dq & Hq & Hr) Hp. pose proof (dequeue_size_spec _ _ _ Hr) as [Hsz Hemp].
  destruct p; simpl in Hs; rewrite ?Hq in Hs; simpl in Hs; try done.
  all: try (repeat case_match; simplify_eq; split; [done|]; exists es; cbn;
    split; [by exists dq|]; split_and!; try done; try (by rewrite app_nil_r); naive_solver).
  - destruct (dequeue_empty dq); simplify_eq; (split; [done|]); exists es; cbn;
      (split; [by exists dq|]); rewrite app_nil_r; split_and!; try done; naive_solver.
  - pose proof (dequeue_pop_spec _ _ _ Hr) as Hpop.
    destruct es as [|ev es']; [by destruct (Hp eq_refl)|].
    destruct Hpop as (h' & dq' & E & Hr'). rewrite E in Hs. simplify_eq/=.
    split; [done|]. exists es'. split; [by exists dq'|]. split_and!; try done; try naive_solver.
    by rewrite app_nil_r.
  - destruct (dequeue_push (heap s) (Some dq) e) as [[h' q']|] eqn:E; simplify_eq/=.
    assert (Z.of_nat (length es) < INT_MAX) as Hlt.
    { apply push_below_max in E. unfold dequeue_size in Hsz. lia. }
    destruct (dequeue_push_spec _ _ _ e Hr Hlt) as (h1 & dq' & E' & Hr').
    rewrite E' in E. simplify_eq/=.
    split; [done|]. exists (es ++ [e]). split; [by exists dq'|]. by split_and!.
Qed.
Lemma ok_thread s es i p s' p' :
  ok s es -> pcs s !! i = Some p -> thread_step i (sh s) p = Some (s', p') ->
  exists es', ok (System s' (<[i := p']> (woken p (pcs s)))
    (pushed s ++ pushes p) (popped s ++ pops p p') (acted s ++ acts p)) es' /\
    es ++ pushes p = pops p p' ++ es'.
Proof using All.
  intros Ho Hi Hs. pose proof Ho as [Hlock Hqueue Hfifo Hpop Hacted Hwake Hev Hcons].
  destruct (event_thread_facts _ _ _ _ _ _ Hs Hqueue) as (Fl & es' & Fq & Fe & Fc & Fo & Fp & Fw & Fpush & Fk).
  { intros ->. by eapply Hpop, list_elem_of_lookup_2. }
  pose proof (woken_self _ _ _ Hi) as Hi'.
  exists es'. split; [|done]. split; cbn [sh pcs pushed popped acted].
  - by eapply inv_lock_insert; [apply inv_lock_woken|..].
  - done.
  - by rewrite Hfifo, <- !(assoc_L app), Fe.
  - intros [j Hj]%list_elem_of_lookup.
    apply list_lookup_insert_Some in Hj as [(-> & -> & _)|[Hne Hj]]; [by apply Fp|].
    apply woken_other in Hj; [|done..]. intros ->. rewrite app_nil_r in Fe.
    assert (p <> Pop) as Hp.
    { intros ->. apply Hne. eapply holder_unique; [exact Hlock|by exists Pop..]. }
    apply (Hpop (list_elem_of_lookup_2 _ _ _ Hj)). destruct p; cbn in Fe; try done;
      by apply app_nil in Fe as [-> _].
  - rewrite Hacted. pose proof (bind_update carried _ i p p' Hi') as Hb.
    rewrite woken_bind in Hb by (by intros []). apply (Permutation_app_inv_r (carried p')).
    trans (acted s ++ ((pcs s ≫= carried) ++ carried p') ++ pops p p'); [solve_Permutation|].
    rewrite Hb, <- (assoc_L app), <- Fc. solve_Permutation.
  - intros Hne [E|Hin]%elem_of_insert; [by rewrite Fw in Hne|].
    apply woken_waiting in Hin as [Hin Hp]; [|done].
    assert (p <> Broadcast) by by intros ->.
    destruct (decide (pushes p = [])) as [E|E]; [|rewrite Fpush by done; by eapply insert_elem].
    rewrite E, app_nil_r in Fe.
    assert (Broadcast ∈ pcs s) as [j Hj]%list_elem_of_lookup.
    { apply Hwake; [|done]. rewrite Fe. by intros [_ ?]%app_nil. }
    apply list_elem_of_lookup. exists j. rewrite list_lookup_insert_ne by congruence.
    by apply woken_other.
  - pose proof (bind_update offered _ i p p' Hi') as Hb. rewrite woken_bind in Hb by (by intros []).
    rewrite Fo in Hb. intros Hin. apply Hev.
    enough ((pushed s ++ pushes p) ++ (<[i:=p']> (woken p (pcs s)) ≫= offered)
      ≡ₚ pushed s ++ (pcs s ≫= offered)) as <- by exact Hin.
    apply (Permutation_app_inv_r (offered p')). rewrite <- !(assoc_L app), Hb. solve_Permutation.
  - destruct Hcons as (k & x & Hk & Hx). destruct (decide (k = i)) as [->|Hne].
    + exists i, p'. assert (x = p) as -> by congruence. rewrite Fk.
      split; [by apply list_lookup_insert_eq; eapply lookup_lt_Some|done].
    + exists k, (if broadcasts p then wake x else x).
      rewrite list_lookup_insert_ne by done. split; [apply woken_lookup; by exists x|].
      destruct (broadcasts p); [|done]. by destruct x.
Qed.

Lemma event_ok_step s es s' : ok s es -> step s s' -> exists es', ok s' es'.
Proof using All.
  intros Ho Hst. revert Ho. destruct Hst as [? ? [s i p s' p' Hi Hs]|s i Hi|s e He]; intros Ho.
  - destruct (ok_thread _ _ _ _ _ _ Ho Hi Hs) as (es' & Ho' & _). by exists es'.
  - exists es. destruct Ho as [Hlock Hqueue Hfifo Hpop Hacted Hwake Hev Hcons].
    assert (forall f : pc -> list Z, f Waiting = [] -> f Woken = [] ->
      <[i := Woken]> (pcs s) ≫= f ≡ₚ pcs s ≫= f) as Hf.
    { intros f E1 E2. pose proof (bind_update f _ i _ Woken Hi) as Hb.
      by rewrite E1, E2, !app_nil_r in Hb. }
    split; cbn [sh pcs pushed popped acted]; try done.
    + exact (inv_lock_spurious _ _ _ _ Hlock Hi eq_refl).
    + by intros [?|Hin]%elem_of_insert; [|apply Hpop].
    + by rewrite Hf.
    + intros Hne [?|Hin]%elem_of_insert; [done|]. specialize (Hwake Hne Hin).
      apply list_elem_of_lookup in Hwake as [j Hj]. apply list_elem_of_lookup. exists j.
      rewrite list_lookup_insert_ne by congruence. done.
    + by rewrite Hf.
    + exists i, Woken. split; [by apply list_lookup_insert_eq; eapply lookup_lt_Some|done].
  - exists es. destruct Ho as [Hlock Hqueue Hfifo Hpop Hacted Hwake Hev (k & x & Hk & Hx)].
    split; cbn [sh pcs pushed popped acted]; try done.
    + apply inv_lock_app; [by apply Forall_singleton|done].
    + set_solver.
    + by rewrite bind_app, app_nil_r.
    + set_solver.
    + rewrite bind_app, (assoc_L app). cbn. set_solver.
    + exists k, x. split; [by apply lookup_app_l_Some|done].
Qed.

Lemma ok_init h s0 ps :
  event_init true true h = Some (s0, ps, 0) -> ok (System s0 ps [] [] []) [].
Proof using All.
  destruct (dequeue_create_spec h) as (h' & dq & E & Hq). unfold event_init. rewrite E.
  intros [= <- <-]. split; cbn [sh pcs pushed popped acted]; try done.
  - intros j. split; [|done]. intros (x & Hx & Hin). by destruct j as [|[|[|j]]]; simplify_eq/=.
  - by exists dq.
  - by rewrite !elem_of_cons, elem_of_nil; intros [?|[?|[?|?]]].
  - vm_compute. by intros ?%elem_of_nil.
  - exists 0%nat, Lock. done.
Qed.

Lemma event_ok_reachable h s : reachable h s -> exists es, ok s es.
Proof using All.
  intros (s0 & ps & E & Hr). apply ok_init in E.
  revert E. generalize (@nil Z) at 4. generalize dependent (System s0 ps [] [] []).
  intros s1 Hr. induction Hr as [|x y z Hxy _ IH]; intros es Ho; [by exists es|].
  destruct (event_ok_step _ _ _ Ho Hxy) as [es' Ho']. by eapply IH.
Qed.
(** ** Progress *)

(** The threads that cannot go on. *)
Definition blocked (s : shared) (es : list Z) (p : pc) : Prop :=
  match p with
  | Lock | Woken | AddLock _ => _lock s <> None
  | Waiting | Added => True
  | Push _ => INT_MAX <= Z.of_nat (length es)
  | _ => False
  end.

Lemma carried_not_null s es i p e : ok s es -> pcs s !! i = Some p -> e ∈ carried p -> e <> 0.
Proof.
  intros Ho Hi He ->. apply (ok_events _ _ Ho), elem_of_app. left. rewrite (ok_fifo _ _ Ho).
  apply elem_of_app. left. rewrite (ok_acted _ _ Ho). apply elem_of_app. right.
  apply list_elem_of_bind. exists p. split; [done|]. by eapply list_elem_of_lookup_2.
Qed.

Lemma not_blocked s es i p :
  ok s es -> pcs s !! i = Some p -> thread_step i (sh s) p = None -> blocked (sh s) es p.
Proof using All.
  intros Ho Hi Hs. destruct (ok_queue _ _ Ho) as (dq & Hq & Hr).
  destruct p; simpl in *; try done; try (by destruct (_lock (sh s))); rewrite ?Hq in Hs;
    simpl in Hs; try (by case_match).
  - pose proof (dequeue_pop_spec _ _ _ Hr) as Hpop.
    destruct es as [|e es]; [by eapply (ok_pop _ _ Ho), eq_refl; eapply list_elem_of_lookup_2|].
    destruct Hpop as (h' & dq' & E & _). by rewrite E in Hs.
  - destruct (Z.eqb_spec e 0) as [E|]; [|done].
    eapply carried_not_null in E; [done..|]. by left.
  - destruct (Z.le_gt_cases INT_MAX (Z.of_nat (length es))) as [|Hlt]; [done|].
    destruct (dequeue_push_spec _ _ _ e Hr Hlt) as (h' & dq' & E & _). by rewrite E in Hs.
Qed.

(** From [s] the threads can take the event [e], the oldest one in the queue, out. *)
Definition leads (e : Z) (P : list Z) (s : system) : Prop :=
  exists s', rtc move s s' /\ popped s' = P ++ [e].

Definition due (e : Z) (P : list Z) (s : system) : Prop :=
  popped s = P /\ exists es, ok s (e :: es).

(** A thread that is not blocked goes on: it takes [e] out, or [e] is still due. *)
Lemma goes_on e P s i p :
  due e P s -> pcs s !! i = Some p -> (forall es, ok s (e :: es) -> ~ blocked (sh s) (e :: es) p) ->
  (forall s2 p', due e P s2 -> thread_step i (sh s) p = Some (sh s2, p') ->
     pcs s2 !! i = Some p' -> pops p p' = [] -> leads e P s2) ->
  leads e P s.
Proof using All.
  intros [HP [es Ho]] Hi Hb Hk. destruct (thread_step i (sh s) p) as [[s' p']|] eqn:Hs.
  2: { destruct (Hb es Ho). by eapply not_blocked. }
  destruct (ok_thread _ _ _ _ _ _ Ho Hi Hs) as (es' & Ho' & Fe).
  pose proof (move_thread _ _ _ _ _ Hi Hs) as Hm.
  match type of Hm with move _ ?s2 => set (s2' := s2) in * end.
  destruct (pops p p') as [|e' l] eqn:E.
  - assert (due e P s2') as Hd.
    { split; [by cbn; rewrite app_nil_r|]. exists (es ++ pushes p). simpl in Fe. by subst es'. }
    destruct (Hk s2' p' Hd eq_refl) as (s3 & Hr & Hp); [|done|].
    { apply list_lookup_insert_eq. by eapply lookup_lt_Some, woken_self. }
    exists s3. split; [by eapply rtc_l|done].
  - exists s2'. split; [by apply rtc_once|]. cbn. rewrite HP.
    by destruct p, p'; simplify_eq/=.
Qed.

Lemma pop_leads e P s i : due e P s -> pcs s !! i = Some Pop -> leads e P s.
Proof using All.
  intros Hd Hi. eapply goes_on; [done|done|by intros ? _ []|]. intros s2 p' _ Hs _ Hp. simpl in Hs.
  destruct (dequeue_pop _ _) as [[[h q] e']|]; by simplify_eq/=.
Qed.

Lemma event_look_leads e P s i : due e P s -> pcs s !! i = Some Look -> leads e P s.
Proof using All.
  intros Hd Hi. eapply goes_on; [done|done|by intros ? _ []|]. intros s2 p' Hd2 Hs Hi2 _.
  assert (p' = Pop) as ->.
  { destruct Hd as [_ [es Ho]]. destruct (ok_queue _ _ Ho) as (dq & Hq & Hr). simpl in Hs.
    rewrite Hq in Hs. simpl in Hs. apply dequeue_size_spec in Hr as [_ [Hemp _]].
    destruct (dequeue_empty dq); [by specialize (Hemp eq_refl)|by simplify_eq]. }
  by eapply pop_leads.
Qed.

Lemma lock_leads e P s i p :
  due e P s -> _lock (sh s) = None -> pcs s !! i = Some p -> p = Lock \/ p = Woken -> leads e P s.
Proof using All.
  intros Hd Hl Hi Hp. eapply goes_on; [done|done|by destruct Hp as [->| ->]; intros ? _ []|].
  intros s2 p' Hd2 Hs Hi2 _. apply (event_look_leads _ _ _ i Hd2).
  destruct Hp as [->| ->]; simpl in Hs; rewrite Hl in Hs; by simplify_eq.
Qed.

Lemma event_free_leads e P s : due e P s -> _lock (sh s) = None -> leads e P s.
Proof using All.
  intros Hd Hl. pose proof Hd as [_ [es Ho]].
  assert (forall i p, pcs s !! i = Some p -> inside p = false) as Hout.
  { intros i p. apply outside. rewrite <- Hl. apply (ok_lock _ _ Ho). }
  destruct (ok_consumers _ _ Ho) as (i & p & Hi & Hc). pose proof (Hout _ _ Hi) as Hin.
  destruct p; try done.
  - by eapply lock_leads; [..|left].
  - assert (Broadcast ∈ pcs s) as [j Hj]%list_elem_of_lookup.
    { eapply ok_wake; [done..|]. by eapply list_elem_of_lookup_2. }
    by apply Hout in Hj.
  - by eapply lock_leads; [..|right].
  - eapply goes_on; [done|done|by intros ? _ []|]. intros s2 p' Hd2 Hs Hi2 _.
    simpl in Hs. case_match; simplify_eq. eapply lock_leads; [done| |done|by left]. congruence.
Qed.

(** Whoever is inside gets out. *)
Lemma event_due_leads e P s :
  due e P s -> (forall es, ok s es -> Z.of_nat (length es) < INT_MAX) -> leads e P s.
Proof using All.
  intros Hd Hmax. pose proof Hd as [_ [es Ho]].
  assert (forall s i p, due e P s -> pcs s !! i = Some p ->
    p = AddUnlock \/ (exists e, p = Unlock e) -> leads e P s) as Hunlock.
  { intros s1 j p Hd1 Hj Hp. eapply goes_on; [done|done| |].
    - by destruct Hp as [->|[? ->]]; intros ? _ [].
    - intros s2 p' Hd2 Hs _ _. apply event_free_leads; [done|].
      destruct Hp as [->|[? ->]]; by injection Hs as <- _. }
  assert (forall s i, due e P s -> pcs s !! i = Some Broadcast -> leads e P s) as Hbroadcast.
  { intros s1 j Hd1 Hj. eapply goes_on; [done|done|by intros ? _ []|].
    intros s2 p' Hd2 Hs Hi2 _. simpl in Hs. simplify_eq. by eapply Hunlock; [..|left]. }
  destruct (_lock (sh s)) as [i|] eqn:El; [|by apply event_free_leads].
  apply (ok_lock _ _ Ho) in El as (p & Hi & Hin). destruct p; try done.
  - by eapply event_look_leads.
  - by eapply pop_leads.
  - eapply Hunlock; [done..|]. right. by eexists.
  - eapply goes_on; [done|done| |].
    + intros es' Ho' Hb. specialize (Hmax _ Ho'). by apply Z.le_ngt in Hb.
    + intros s2 p' Hd2 Hs Hi2 _. simpl in Hs.
      destruct (dequeue_push _ _ _) as [[h q]|]; simplify_eq/=. by eapply Hbroadcast.
  - by eapply Hbroadcast.
  - by eapply Hunlock; [..|left].
Qed.

End invariant.

(** ** Theorems *)

Section theorems.
Context `{AllocatorOk entry}.

(** C13. However consumers and callers of [add_event] interleave after [event_init], and
    whatever wakes up spuriously: the queue is a well-formed list of exactly the events pushed
    and not yet popped, in order; each popped event, never a null pointer, is with exactly one
    consumer until it has been acted on, once; only one thread at a time is inside the lock;
    and a thread cannot go on only when it waits for the condition or the lock, has returned,
    or the queue holds [INT_MAX] events. *)
Theorem event_loop_invariant h s :
  reachable h s -> exists es,
    queue_is (sh s) es /\ pushed s = popped s ++ es /\ 0 ∉ pushed s /\
    popped s ≡ₚ acted s ++ (pcs s ≫= carried) /\
    (forall i j, holder (pcs s) i -> holder (pcs s) j -> i = j) /\
    (forall i p, pcs s !! i = Some p -> thread_step i (sh s) p = None -> blocked (sh s) es p).
Proof.
  intros [es Ho]%event_ok_reachable. exists es. pose proof Ho as []. split_and!; try done.
  - intros Hin. apply ok_events0. set_solver.
  - intros i j. by apply (holder_unique _ (_lock (sh s))).
  - intros i p. by eapply not_blocked.
Qed.

(** C14. No wake-up is lost: from every reachable state in which an event is queued the threads
    can go on, without a spurious wake-up and without another event, until the oldest one is
    taken out. *)
Theorem no_event_is_stranded h s e es :
  reachable h s -> pushed s = popped s ++ e :: es -> Z.of_nat (length (e :: es)) < INT_MAX ->
  exists s', rtc move s s' /\ popped s' = popped s ++ [e].
Proof.
  intros [es' Ho]%event_ok_reachable E Hmax. pose proof (ok_fifo _ _ Ho) as Hf. rewrite E in Hf.
  apply app_inv_head in Hf as <-. apply event_due_leads; [split; [done|by exists es]|].
  intros es2 Ho2. apply ok_fifo in Ho2. rewrite E in Ho2. by apply app_inv_head in Ho2 as <-.
Qed.
End theorems.

(** ** Witnesses *)

Import BumpAllocator.

(** The threads [ids] go on, in this order. *)
Fixpoint schedule (ids : list nat) (s : system) : option system :=
  match ids with
  | [] => Some s
  | i :: ids =>
      p ← pcs s !! i;
      '(s', p') ← thread_step i (sh s) p;
      schedule ids (System s' (<[i := p']> (woken p (pcs s)))
        (pushed s ++ pushes p) (popped s ++ pops p p') (acted s ++ acts p))
  end.

Lemma event_schedule_steps ids : forall s s', schedule ids s = Some s' -> rtc step s s'.
Proof.
  induction ids as [|i ids IH]; intros s s' E; simpl in E; [by simplify_eq|].
  destruct (pcs s !! i) as [p|] eqn:Hi; simpl in E; [|done].
  destruct (thread_step i (sh s) p) as [[s1 p1]|] eqn:Hs; simpl in E; [|done].
  eapply rtc_l; [|by apply IH]. by apply step_move, move_thread.
Qed.

Definition no_system : system := System (Shared None ∅ None) [] [] [] [].

Definition started : system :=
  match event_init true true ∅ with
  | Some (s0, ps, _) => System s0 ps [] [] []
  | None => no_system
  end.

(** A consumer waits, and the event 7 is offered. *)
Definition offered_7 : system :=
  System (sh started) (pcs started ++ [AddLock 7]) (pushed started) (popped started) (acted started).

Definition queued : system := default no_system (schedule [0; 0; 3; 3; 3; 3]%nat offered_7).

(** Another consumer has been quicker. *)
Definition carrying : system := default no_system (schedule [1; 1; 1; 1; 0]%nat queued).

Lemma queued_reachable : reachable ∅ queued.
Proof.
  eexists (sh started), (pcs started). split; [reflexivity|].
  eapply rtc_l; [by apply (step_add started 7)|].
  apply (event_schedule_steps [0; 0; 3; 3; 3; 3]%nat). vm_compute. reflexivity.
Qed.

Lemma carrying_reachable : reachable ∅ carrying.
Proof.
  destruct queued_reachable as (s0 & ps & E & Hr). exists s0, ps. split; [done|].
  etrans; [exact Hr|]. apply (event_schedule_steps [1; 1; 1; 1; 0]%nat). vm_compute. reflexivity.
Qed.

Lemma event_loop_invariant_witness :
  pcs carrying = [Look; Act 7; Lock; Added] /\
    reachable ∅ carrying /\
    exists es, queue_is (sh carrying) es /\ pushed carrying = popped carrying ++ es /\
    0 ∉ pushed carrying /\ popped carrying ≡ₚ acted carrying ++ (pcs carrying ≫= carried) /\
    (forall i j, holder (pcs carrying) i -> holder (pcs carrying) j -> i = j) /\
    (forall i p, pcs carrying !! i = Some p -> thread_step i (sh carrying) p = None ->
       blocked (sh carrying) es p).
Proof.
  split; [vm_compute; reflexivity|]. split; [apply carrying_reachable|].
  apply (event_loop_invariant ∅ carrying carrying_reachable).
Defined.

Lemma no_event_is_stranded_witness :
  pcs queued = [Woken; Lock; Lock; Added] /\
    exists s', rtc move queued s' /\ popped s' = popped queued ++ [7].
Proof.
  split; [vm_compute; reflexivity|].
  apply (no_event_is_stranded ∅ queued 7 []); [apply queued_reachable|vm_compute; reflexivity|].
  vm_compute. reflexivity.
Defined.
