(* ===== verification/AddTwoNumbers.v ===== *)
(** The addition of two numbers given as linked lists of digits, least significant first
    (src/demo_leetcode/1_两数相加/main.c), over a store of nodes.

    A field of a node that has not been assigned is [None]; reading it gives no result. *)

From S2P Require Import Prelude Heap.

(* src/demo_leetcode/1_两数相加/main.c:24-27 ListNode *)
Record ListNode := Node { val : option Z; next : option Z }.
Notation store := (gmap Z ListNode).

Definition st_val (h : store) (p v : Z) : option store :=
  n ← h !! p; Some (<[p := Node (Some v) (next n)]> h).

Definition st_next (h : store) (p q : Z) : option store :=
  n ← h !! p; Some (<[p := Node (val n) (Some q)]> h).

Definition is_int (x : Z) : bool := (INT_MIN <=? x) && (x <=? INT_MAX).

Section Program.
Context `{Allocator ListNode}.

(** [malloc]: a node whose fields are not assigned. *)
Definition new_node (h : store) : store * Z :=
  let p := malloc h in (<[p := Node None None]> h, p).

(** The digit at [p], and 0 behind the end. *)
Definition digit_at (h : store) (p : Z) : option Z :=
  if p =? 0 then Some 0 else h !! p ≫= val.

Definition advance (h : store) (p : Z) : option Z :=
  if p =? 0 then Some p else h !! p ≫= next.

(* src/demo_leetcode/1_两数相加/main.c:35-45 addTwoNumbers *)
Fixpoint add_loop (fuel : nat) (h : store) (p1 p2 pres carry : Z) : option (store * Z * Z) :=
  match fuel with
  | O => None
  | S fuel =>
      if (p1 =? 0) && (p2 =? 0) then Some (h, pres, carry) else
      x ← digit_at h p1;
      y ← digit_at h p2;
      let (h, q) := new_node h in
      h ← st_next h pres q;
      h ← st_next h q 0;
      let s := x + y + carry in
      _ ← require (is_int (x + y) && is_int s);
      h ← st_val h q (Z.rem s 10);
      p1 ← advance h p1;
      p2 ← advance h p2;
      add_loop fuel h p1 p2 q (Z.quot s 10)
  end.

(** [if (carry) { pres->next = malloc(sizeof(struct ListNode)); pres->next->val = 1; }] *)
(* src/demo_leetcode/1_两数相加/main.c:46-49 addTwoNumbers *)
Definition add_carry (h : store) (pres carry : Z) : option store :=
  if carry =? 0 then Some h else
  let (h, q) := new_node h in
  h ← st_next h pres q;
  st_val h q 1.

(* src/demo_leetcode/1_两数相加/main.c:30-51 addTwoNumbers *)
Definition addTwoNumbers (fuel : nat) (h : store) (l1 l2 : Z) : option (store * Z) :=
  let (h, res) := new_node h in
  '(h, pres, carry) ← add_loop fuel h l1 l2 res 0;
  h ← add_carry h pres carry;
  n ← h !! res;
  r ← next n;
  Some (h, r).
End Program.

(** ** Lists of digits *)

(** The nodes from [p] hold [ds]; the link behind the last one is [e]. *)
Fixpoint nodes (h : store) (p : option Z) (ds : list Z) (e : option Z) : Prop :=
  match ds with
  | [] => p = e
  | d :: ds => exists a q, p = Some a /\ a <> 0 /\ h !! a = Some (Node (Some d) q) /\ nodes h q ds e
  end.

Definition digits (h : store) (p : Z) (ds : list Z) : Prop := nodes h (Some p) ds (Some 0).

Definition digit (d : Z) : Prop := 0 <= d < 10.

Fixpoint value (ds : list Z) : Z :=
  match ds with [] => 0 | d :: ds => d + 10 * value ds end.

Lemma nodes_frame h h' ds : forall p e,
  (forall a n, h !! a = Some n -> h' !! a = Some n) -> nodes h p ds e -> nodes h' p ds e.
Proof.
  induction ds as [|d ds IH]; intros p e Hf; [done|]. simpl.
  intros (a & q & -> & Ha & Hl & Hn). exists a, q. auto.
Qed.

Section correctness.
Context `{AllocatorOk ListNode}.
Implicit Types h : store.

(** What a list of digits lets the loop read. *)
Lemma digits_read h p ds :
  digits h p ds -> Forall digit ds ->
  exists p' ds', digit_at h p = Some (hd 0 ds) /\ advance h p = Some p' /\ ds' = tl ds /\
    digits h p' ds' /\ digit (hd 0 ds) /\ Forall digit ds' /\
    value ds = hd 0 ds + 10 * value ds' /\ (p = 0 <-> ds = []).
Proof.
  unfold digits, digit_at, advance. destruct ds as [|d ds]; simpl.
  - intros [= ->] _. exists 0, []. split_and!; done || by unfold digit; lia.
  - intros (a & q & [= <-] & Ha & Hl & Hn) [Hd Hds]%Forall_cons.
    rewrite (proj2 (Z.eqb_neq _ _) Ha), Hl. simpl.
    assert (exists p', q = Some p') as [p' ->].
    { destruct ds; simpl in Hn; [by exists 0|]. destruct Hn as (b & _ & -> & _). by exists b. }
    exists p', ds. split_and!; done || by unfold digit; lia.
Qed.

Lemma read_frame h h' p x :
  (forall a n, h !! a = Some n -> h' !! a = Some n) ->
  (digit_at h p = Some x -> digit_at h' p = Some x) /\ (advance h p = Some x -> advance h' p = Some x).
Proof.
  intros Hf. unfold digit_at, advance. destruct (p =? 0); [done|].
  destruct (h !! p) as [n|] eqn:E; [|done]. by rewrite (Hf _ _ E).
Qed.

Lemma link_ok h p q n : h !! p = Some n -> st_next h p q = Some (<[p := Node (val n) (Some q)]> h).
Proof. unfold st_next. by intros ->. Qed.

Lemma st_val_ok h p v n : h !! p = Some n -> st_val h p v = Some (<[p := Node (Some v) (next n)]> h).
Proof. unfold st_val. by intros ->. Qed.

(** The store after one round: [pres] leads to a new last node that holds [v]. *)
Definition appended h pres v : store :=
  let q := malloc h in
  <[q := Node (Some v) (Some 0)]>
    (<[pres := Node (from_option val None (h !! pres)) (Some q)]> (<[q := Node None None]> h)).

Lemma append_round h pres n v :
  h !! pres = Some n ->
  let q := malloc h in
  (h1 ← st_next (<[q := Node None None]> h) pres q;
   h2 ← st_next h1 q 0; st_val h2 q v) = Some (appended h pres v) /\
  appended h pres v !! pres = Some (Node (val n) (Some q)) /\
  appended h pres v !! q = Some (Node (Some v) (Some 0)) /\
  (forall a, a <> pres -> a <> q -> appended h pres v !! a = h !! a) /\ q <> pres /\ q <> 0.
Proof.
  intros Hn q. pose proof (malloc_fresh h) as Hq. fold q in Hq.
  assert (q <> pres) as Hne by congruence. unfold appended. fold q. rewrite Hn. cbn [from_option].
  rewrite (link_ok _ _ q n) by (by rewrite lookup_insert_ne). bind_simpl.
  rewrite (link_ok _ _ 0 (Node None None)) by (by rewrite lookup_insert_ne, lookup_insert_eq).
  bind_simpl. erewrite st_val_ok by apply lookup_insert_eq. cbn [val next].
  split_and!.
  - by rewrite insert_insert_eq.
  - by rewrite lookup_insert_ne, lookup_insert_eq.
  - by rewrite lookup_insert_eq.
  - intros a Ha Hq'. by rewrite !lookup_insert_ne by done.
  - done.
  - apply malloc_not_null.
Qed.

(** One column of the sum. *)
Lemma column x y c :
  digit x -> digit y -> 0 <= c <= 1 ->
  is_int (x + y) && is_int (x + y + c) = true /\ digit (Z.rem (x + y + c) 10) /\
  0 <= Z.quot (x + y + c) 10 <= 1 /\
  x + y + c = Z.rem (x + y + c) 10 + 10 * Z.quot (x + y + c) 10.
Proof.
  unfold digit, is_int, INT_MIN, INT_MAX. intros.
  pose proof (Z.quot_rem' (x + y + c) 10). pose proof (Z.rem_bound_pos (x + y + c) 10).
  split_and!; lia.
Qed.

Definition add_rest (fuel : nat) (h : store) (p1 p2 pres c : Z) : option store :=
  '(h, pres, c) ← add_loop fuel h p1 p2 pres c; add_carry h pres c.

(** The loop and the carry behind it: [pres] gets the digits of the sum behind it, and nodes
    other than [pres] stay as they are. [m] digits end with a null link; one more, the carry,
    has none. *)
Lemma add_rest_spec h0 fuel : forall a b h p1 p2 pres v nx c,
  let m := Nat.max (length a) (length b) in
  digits h0 p1 a -> digits h0 p2 b -> Forall digit a -> Forall digit b -> 0 <= c <= 1 ->
  (forall x n, h0 !! x = Some n -> h !! x = Some n) -> h0 !! pres = None ->
  h !! pres = Some (Node v nx) -> (m < fuel)%nat ->
  exists h' ds nx',
    add_rest fuel h p1 p2 pres c = Some h' /\ h' !! pres = Some (Node v nx') /\
    (forall x n, x <> pres -> h !! x = Some n -> h' !! x = Some n) /\
    nodes h' nx' ds (if decide (length ds = m) then (if decide (m = 0)%nat then nx else Some 0) else None) /\
    value ds = value a + value b + c /\ Forall digit ds /\
    (length ds = m \/ length ds = S m /\ 10 ^ Z.of_nat m <= value ds).
Proof.
  induction fuel as [|fuel IH]; intros a b h p1 p2 pres v nx c m Ha Hb Da Db Hc Hf Hp0 Hp Hm; [lia|].
  destruct (digits_read _ _ _ Ha Da) as (p1' & a' & X & A1 & Ea & Ha' & Dx & Da' & Va & Za).
  destruct (digits_read _ _ _ Hb Db) as (p2' & b' & Y & A2 & Eb & Hb' & Dy & Db' & Vb & Zb).
  unfold add_rest. cbn [add_loop].
  destruct ((p1 =? 0) && (p2 =? 0)) eqn:E0.
  - apply andb_true_iff in E0 as [->%Z.eqb_eq%Za ->%Z.eqb_eq%Zb]. subst m. bind_simpl.
    unfold add_carry. destruct (Z.eqb_spec c 0) as [->|Hc0].
    + exists h, [], nx. by split_and!; [..|left].
    + assert (c = 1) as -> by lia. pose proof (malloc_fresh h) as Hq. unfold new_node.
      set (q := malloc h) in *. assert (q <> pres) by congruence.
      rewrite (link_ok _ _ q (Node v nx)) by (by rewrite lookup_insert_ne). bind_simpl.
      rewrite (st_val_ok _ _ 1 (Node None None)) by (by rewrite lookup_insert_ne, lookup_insert_eq).
      eexists _, [1], (Some q). split; [done|]. cbn [val next].
      split; [by rewrite lookup_insert_ne, lookup_insert_eq|].
      split; [intros x n Hx Hxn; rewrite !lookup_insert_ne; congruence|].
      split_and!; [|done|by repeat constructor|by right].
      exists q, None. rewrite lookup_insert_eq. by split_and!; [|apply malloc_not_null| |].
  - destruct (column (hd 0 a) (hd 0 b) c Dx Dy Hc) as (Hi & Hd & Hc' & Hs).
    rewrite (proj1 (read_frame h0 h p1 _ Hf) X), (proj1 (read_frame h0 h p2 _ Hf) Y).
    bind_simpl. unfold new_node.
    set (r := Z.rem (hd 0 a + hd 0 b + c) 10) in *. set (c' := Z.quot (hd 0 a + hd 0 b + c) 10) in *.
    pose proof (append_round h pres (Node v nx) r Hp) as Hr. cbv zeta in Hr.
    set (q := malloc h) in *. pose proof (malloc_fresh h) as Hq. fold q in Hq.
    destruct Hr as (E & Lp & Lq & Lo & Hne & Hq0).
    destruct (st_next (<[q := Node None None]> h) pres q) as [h1|] eqn:E1; [|done]. bind_simpl.
    cbn [mbind option_bind] in E. destruct (st_next h1 q 0) as [h2|]; [|done]. bind_simpl.
    unfold require. rewrite Hi. bind_simpl. cbn [mbind option_bind] in E. rewrite E. bind_simpl.
    set (h3 := appended h pres r) in *.
    assert (forall x n, h0 !! x = Some n -> h3 !! x = Some n) as Hf3.
    { intros x n Hx. rewrite Lo; [by apply Hf|congruence|]. intros ->. apply Hf in Hx. congruence. }
    rewrite (proj2 (read_frame h0 h3 p1 _ Hf3) A1), (proj2 (read_frame h0 h3 p2 _ Hf3) A2). bind_simpl.
    assert (h0 !! q = None) as Hq'.
    { destruct (h0 !! q) eqn:Eq; [|done]. apply Hf in Eq. congruence. }
    assert (S (Nat.max (length a') (length b')) = m) as Hm'.
    { subst a' b' m. rewrite !length_tl. apply andb_false_iff in E0.
      rewrite !Z.eqb_neq in E0. destruct a, b; simpl; try lia. tauto. }
    destruct (IH a' b' h3 p1' p2' q (Some r) (Some 0) c') as
      (h' & ds & nx' & E' & Lq' & Lo' & Hn & Hv & Hds & Hlen); try done; [lia|].
    exists h', (r :: ds), (Some q). split; [exact E'|].
    split; [apply Lo'; [congruence|exact Lp]|].
    split; [intros x n Hx Hxn; apply Lo'; [congruence|rewrite Lo; congruence]|].
    split.
    + exists q, nx'. split_and!; try done. cbn [length].
      destruct (decide (length ds = _)), (decide (S (length ds) = m)); try lia; [|done].
      destruct (decide (m = 0)%nat); [lia|]. by destruct (decide (_ = 0)%nat).
    + cbn [value length]. split_and!; [lia|by constructor|].
      rewrite <- Hm', Nat2Z.inj_succ, Z.pow_succ_r by lia. unfold digit in Hd.
      destruct Hlen as [Hlen|[Hlen Hge]]; [left|right]; lia.
Qed.

Lemma value_bounds ds : Forall digit ds -> 0 <= value ds < 10 ^ Z.of_nat (length ds).
Proof.
  induction 1 as [|d ds Hd _ IH]; [by vm_compute|]. unfold digit in Hd. cbn [value length].
  rewrite Nat2Z.inj_succ, Z.pow_succ_r by lia. lia.
Qed.

(** C39. [addTwoNumbers] adds: of two lists of digits, not both empty, it returns a list of
    digits that denotes the sum of the two numbers, and the operands stay as they are. Its
    length is that of the longer operand, or one more for a carry; the list ends with a null
    link except after a carry, where the link of the last node is not initialised. *)
Theorem addTwoNumbers_spec fuel h l1 l2 a b :
  digits h l1 a -> digits h l2 b -> Forall digit a -> Forall digit b -> a ++ b <> [] ->
  (Nat.max (length a) (length b) < fuel)%nat ->
  exists h' r ds,
    addTwoNumbers fuel h l1 l2 = Some (h', r) /\
    value ds = value a + value b /\ Forall digit ds /\
    digits h' l1 a /\ digits h' l2 b /\
    if decide (value ds < 10 ^ Z.of_nat (Nat.max (length a) (length b)))
    then digits h' r ds /\ length ds = Nat.max (length a) (length b)
    else nodes h' (Some r) ds None /\ length ds = S (Nat.max (length a) (length b)).
Proof.
  intros Ha Hb Da Db Hne Hf. unfold addTwoNumbers, new_node.
  pose proof (malloc_fresh h) as Hq. set (q := malloc h) in *. set (h1 := <[q := _]> h).
  assert (forall x n, h !! x = Some n -> h1 !! x = Some n) as Hsub.
  { intros x n Hx. unfold h1. rewrite lookup_insert_ne; [done|congruence]. }
  set (m := Nat.max (length a) (length b)) in *.
  assert (m <> 0%nat) as Hm by (destruct a, b; simpl in *; done || lia).
  destruct (add_rest_spec h fuel a b h1 l1 l2 q None None 0) as
    (h' & ds & nx & E & Lq & Lo & Hn & Hv & Hd & Hlen); try done; [apply lookup_insert_eq|].
  fold m in Hn, Hlen. unfold add_rest in E.
  destruct (add_loop fuel h1 l1 l2 q 0) as [[[h2 pres] c]|]; [|done]. cbn [mbind option_bind] in *.
  rewrite E. cbn [mbind option_bind]. rewrite Lq. cbn [mbind option_bind next].
  destruct ds as [|d ds]; [by simpl in Hlen; lia|]. pose proof Hn as (r & nx' & -> & _).
  bind_simpl. exists h', r, (d :: ds).
  pose proof (value_bounds _ Hd) as Hb'.
  rewrite (decide_False (P := m = 0%nat)) in Hn by done.
  split; [done|]. split; [lia|]. split; [done|].
  assert (forall x n, h !! x = Some n -> h' !! x = Some n) as Hsub'.
  { intros x n Hx. apply Lo; [congruence|by apply Hsub]. }
  split; [by eapply nodes_frame|]. split; [by eapply nodes_frame|].
  destruct Hlen as [Hlen|[Hlen Hge]]; rewrite Hlen in *.
  - rewrite decide_True in Hn by done. rewrite decide_True by lia. done.
  - rewrite decide_False in Hn by lia. rewrite decide_False by lia. done.
Qed.
End correctness.

(** ** Witness: 342 + 465 *)

Import BumpAllocator.

Definition operands : store :=
  list_to_map [(1, Node (Some 2) (Some 2)); (2, Node (Some 4) (Some 3)); (3, Node (Some 3) (Some 0));
               (4, Node (Some 5) (Some 5)); (5, Node (Some 6) (Some 6)); (6, Node (Some 4) (Some 0))].

Lemma addTwoNumbers_spec_witness :
  digits operands 1 [2; 4; 3] /\ digits operands 4 [5; 6; 4] /\
    (exists h' r ds,
    addTwoNumbers 4 operands 1 4 = Some (h', r) /\
    value ds = value [2; 4; 3] + value [5; 6; 4] /\ Forall digit ds /\
    digits h' 1 [2; 4; 3] /\ digits h' 4 [5; 6; 4] /\
    if decide (value ds < 10 ^ Z.of_nat (Nat.max 3 3))
    then digits h' r ds /\ length ds = 3%nat else nodes h' (Some r) ds None /\ length ds = 4%nat) /\
    value [2; 4; 3] + value [5; 6; 4] = 807.
Proof.
  assert (digits operands 1 [2; 4; 3]) as H1 by (repeat (eexists _, _; split; [done|]; split; [done|]; split; [reflexivity|]); done).
  assert (digits operands 4 [5; 6; 4]) as H2 by (repeat (eexists _, _; split; [done|]; split; [done|]; split; [reflexivity|]); done).
  split; [exact H1|]. split; [exact H2|]. split; [|reflexivity].
  apply (addTwoNumbers_spec 4 operands 1 4 [2; 4; 3] [5; 6; 4]); try done.
  - by repeat (apply Forall_cons_2; [unfold digit; lia|]).
  - by repeat (apply Forall_cons_2; [unfold digit; lia|]).
  - simpl. lia.
Defined.
