(* ===== verification/MpHash.v ===== *)
(** The hash table of src/demo_mempool/mphash.c: a fixed array of bucket lists whose entries
    come from a fixed array of nodes threaded on a free list.

    A pointer to [bucket_nodes[i]] is [i], and [-1] is the null pointer; the nodes are a
    store from these pointers. Data are the pointers the caller hands in, 0 is the null one. *)

From stdpp Require Import sorting.
From S2P Require Import Prelude Linked.

(* src/demo_mempool/mphash.h:12-18 mp_hash_entry_s *)
Record mp_hash_entry := MpEntry {
  eprev : Z; enext : Z; data : Z; key : Z; reversed : Z;
}.

Abbreviation nodes := (gmap Z mp_hash_entry).

(* src/demo_mempool/mphash.h:20-33 mp_hash_table_s *)
Record mp_hash_table := MpTable {
  num_buckets : Z;
  num_elements : Z;
  mask : Z;
  table_buckets : list Z;
  bucket_nodes : nodes;
  free_buckets : Z;
  hash : Z -> Z;
  cmp : option (Z -> Z -> Z);
  has_free : bool;
}.

Definition MP_NULL : Z := -1.

#[export] Instance mp_next : Next Z mp_hash_entry := {|
  null := MP_NULL; next_of := enext;
  set_next v n := MpEntry (eprev n) v (data n) (key n) (reversed n) |}.
#[export] Instance mp_prev : Prev Z mp_hash_entry := {|
  prev_of := eprev;
  set_prev v n := MpEntry v (enext n) (data n) (key n) (reversed n) |}.
#[export] Instance mp_links : LinksOk Z mp_hash_entry.
Proof. by split; intros ? []. Qed.

(** ** Bit reversal *)

(* src/demo_mempool/mphash.c:5-41 reversed_byte *)
Definition reversed_byte : list Z := [
  0;  128; 64; 192; 32; 160; 96;  224; 16; 144; 80; 208; 48; 176; 112; 240;
  8;  136; 72; 200; 40; 168; 104; 232; 24; 152; 88; 216; 56; 184; 120; 248;
  4;  132; 68; 196; 36; 164; 100; 228; 20; 148; 84; 212; 52; 180; 116; 244;
  12; 140; 76; 204; 44; 172; 108; 236; 28; 156; 92; 220; 60; 188; 124; 252;
  2;  130; 66; 194; 34; 162; 98;  226; 18; 146; 82; 210; 50; 178; 114; 242;
  10; 138; 74; 202; 42; 170; 106; 234; 26; 154; 90; 218; 58; 186; 122; 250;
  6;  134; 70; 198; 38; 166; 102; 230; 22; 150; 86; 214; 54; 182; 118; 246;
  14; 142; 78; 206; 46; 174; 110; 238; 30; 158; 94; 222; 62; 190; 126; 254;
  1;  129; 65; 193; 33; 161; 97;  225; 17; 145; 81; 209; 49; 177; 113; 241;
  9;  137; 73; 201; 41; 169; 105; 233; 25; 153; 89; 217; 57; 185; 121; 249;
  5;  133; 69; 197; 37; 165; 101; 229; 21; 149; 85; 213; 53; 181; 117; 245;
  13; 141; 77; 205; 45; 173; 109; 237; 29; 157; 93; 221; 61; 189; 125; 253;
  3;  131; 67; 195; 35; 163; 99;  227; 19; 147; 83; 211; 51; 179; 115; 243;
  11; 139; 75; 203; 43; 171; 107; 235; 27; 155; 91; 219; 59; 187; 123; 251;
  7;  135; 71; 199; 39; 167; 103; 231; 23; 151; 87; 215; 55; 183; 119; 247;
  15; 143; 79; 207; 47; 175; 111; 239; 31; 159; 95; 223; 63; 191; 127; 255].

Definition rev8 (b : Z) : Z := nth (Z.to_nat b) reversed_byte 0.

(** The bytes are promoted to [int]: the shift by 24 of a byte above 127 is taken as compilers
    do, the bits of the word, although C leaves it undefined. *)
(* src/demo_mempool/mphash.c:43-49 reverse *)
Definition reverse (k : Z) : Z :=
  Z.lor (Z.shiftl (rev8 (Z.land k 0xff)) 24)
    (Z.lor (Z.shiftl (rev8 (Z.land (Z.shiftr k 8) 0xff)) 16)
      (Z.lor (Z.shiftl (rev8 (Z.land (Z.shiftr k 16) 0xff)) 8)
        (rev8 (Z.land (Z.shiftr k 24) 0xff)))).

(** ** Creation *)

(* src/demo_mempool/mphash.c:51-54 is_power_of_2 *)
Definition is_power_of_2 (n : Z) : bool := negb (n =? 0) && (Z.land n (u32 (n - 1)) =? 0).

(** [while (size < buckets_size) size = size << 1;] with the 32-bit wrap-around. *)
(* src/demo_mempool/mphash.c:93-96 mp_hash_table_create *)
Fixpoint double_until (fuel : nat) (size buckets_size : Z) : option Z :=
  match fuel with
  | O => None
  | S fuel =>
      if size <? buckets_size then double_until fuel (u32 (Z.shiftl size 1)) buckets_size
      else Some size
  end.

(** The body of the loop threads node [i + 1] behind node [i]. *)
(* src/demo_mempool/mphash.c:122-126 mp_hash_table_create *)
Fixpoint thread_nodes (count : nat) (i : Z) (ns : nodes) : option nodes :=
  match count with
  | O => Some ns
  | S count =>
      ns ← st_next ns i (i + 1);
      ns ← st_prev ns (i + 1) i;
      thread_nodes count (i + 1) ns
  end.

(** [calloc] of the node array: all fields zero, all pointers null. *)
Fixpoint calloc_nodes (n : nat) : nodes :=
  match n with
  | O => ∅
  | S n => <[Z.of_nat n := MpEntry MP_NULL MP_NULL 0 0 0]> (calloc_nodes n)
  end.

(** [allocs] says which of the three [calloc]s succeed. [None]: the call does not return;
    [Some None]: it returns the null pointer. *)
(* src/demo_mempool/mphash.c:84-135 mp_hash_table_create *)
Definition mp_hash_table_create (allocs : bool * bool * bool) (hashfunc : Z -> Z)
    (cmpfunc : option (Z -> Z -> Z)) (freefunc : bool) (buckets_size : Z)
    : option (option mp_hash_table) :=
  if buckets_size =? 0 then Some None else
  buckets_size ← (if is_power_of_2 buckets_size then Some buckets_size
                  else double_until 33 1 buckets_size);
  match allocs with
  | (true, true, true) =>
      ns ← thread_nodes (Z.to_nat (buckets_size - 1)) 0 (calloc_nodes (Z.to_nat buckets_size));
      Some (Some (MpTable buckets_size 0 (buckets_size - 1)
        (replicate (Z.to_nat buckets_size) MP_NULL) ns 0 hashfunc cmpfunc freefunc))
  | _ => Some None
  end.

(** ** The free list *)

Definition with_free (ht : mp_hash_table) (ns : nodes) (fb : Z) : mp_hash_table :=
  MpTable (num_buckets ht) (num_elements ht) (mask ht) (table_buckets ht) ns fb
    (hash ht) (cmp ht) (has_free ht).

(* src/demo_mempool/mphash.c:166-182 mp_get_free_entry *)
Definition mp_get_free_entry (ht : mp_hash_table) : option (mp_hash_table * Z) :=
  let entry := free_buckets ht in
  if entry =? MP_NULL then Some (ht, MP_NULL) else
  n ← bucket_nodes ht !! entry;
  let fb := enext n in
  ns ← st_prev_opt (bucket_nodes ht) fb MP_NULL;
  n ← ns !! entry;
  let ns := <[entry := MpEntry MP_NULL MP_NULL 0 0 (reversed n)]> ns in
  Some (with_free ht ns fb, entry).

(* src/demo_mempool/mphash.c:184-194 mp_put_free_entry *)
Definition mp_put_free_entry (ht : mp_hash_table) (entry : Z) : option mp_hash_table :=
  _ ← bucket_nodes ht !! entry;
  let ns := <[entry := MpEntry MP_NULL (free_buckets ht) 0 0 0]> (bucket_nodes ht) in
  ns ← st_prev_opt ns (free_buckets ht) entry;
  Some (with_free ht ns entry).

(** ** The sorted bucket lists *)

(** [ht->cmp && ht->cmp(a, b)] *)
(* src/demo_mempool/mphash.c:213-213 mp_list_insert *)
Definition differ (ht : mp_hash_table) (a b : Z) : bool :=
  match cmp ht with Some c => negb (c a b =? 0) | None => false end.

(** The search of [mp_list_insert]: [Some (Some last)] when the loop ends, [Some None] when
    it returns -1 because the datum is there already. *)
(* src/demo_mempool/mphash.c:206-222 mp_list_insert *)
Fixpoint mp_insert_loop (fuel : nat) (ht : mp_hash_table) (d rev last cur : Z)
    : option (option Z) :=
  match fuel with
  | O => None
  | S fuel =>
      if cur =? MP_NULL then Some (Some last) else
      c ← bucket_nodes ht !! cur;
      if reversed c >? rev then Some (Some last) else
      if reversed c =? rev then
        if differ ht d (data c) then mp_insert_loop fuel ht d rev cur (enext c)
        else Some None
      else mp_insert_loop fuel ht d rev cur (enext c)
  end.

(** Every traversal visits each node at most once. *)
Definition chain_fuel (ns : nodes) : nat := S (S (base.size ns)).
Arguments chain_fuel : simpl never.

(** [(nodes, head, return value)] *)
(* src/demo_mempool/mphash.c:196-238 mp_list_insert *)
Definition mp_list_insert (ht : mp_hash_table) (head entry : Z) : option (nodes * Z * Z) :=
  let ns := bucket_nodes ht in
  if head =? MP_NULL then Some (ns, entry, 0) else
  e ← ns !! entry;
  r ← mp_insert_loop (chain_fuel ns) ht (data e) (reversed e) MP_NULL head;
  match r with
  | None => Some (ns, head, -1)
  | Some last =>
      if last =? MP_NULL then
        ns ← st_next ns entry head;
        ns ← st_prev ns head entry;
        Some (ns, entry, 0)
      else
        ns ← st_prev ns entry last;
        l ← ns !! last;
        let z := enext l in
        ns ← (if z =? MP_NULL then Some ns
              else ns ← st_prev ns z entry; st_next ns entry z);
        ns ← st_next ns last entry;
        Some (ns, head, 0)
  end.

(* src/demo_mempool/mphash.c:240-263 mp_list_find *)
Fixpoint mp_list_find (fuel : nat) (ht : mp_hash_table) (cur d rev : Z) : option Z :=
  match fuel with
  | O => None
  | S fuel =>
      if cur =? MP_NULL then Some MP_NULL else
      c ← bucket_nodes ht !! cur;
      if reversed c >? rev then Some MP_NULL else
      if reversed c =? rev then
        if differ ht d (data c) then mp_list_find fuel ht (enext c) d rev
        else Some cur
      else mp_list_find fuel ht (enext c) d rev
  end.

(* src/demo_mempool/mphash.c:265-287 mp_list_delete *)
Definition mp_list_delete (ht : mp_hash_table) (head d rev : Z) : option (nodes * Z * Z) :=
  let ns := bucket_nodes ht in
  cur ← mp_list_find (chain_fuel ns) ht head d rev;
  if cur =? MP_NULL then Some (ns, head, MP_NULL) else
  c ← ns !! cur;
  '(ns, head) ←
    (if eprev c =? MP_NULL then
       ns ← st_prev_opt ns (enext c) MP_NULL; Some (ns, enext c)
     else ns ← st_next ns (eprev c) (enext c); Some (ns, head));
  ns ← st_prev_opt ns (enext c) (eprev c);
  ns ← st_prev ns cur MP_NULL;
  ns ← st_next ns cur MP_NULL;
  Some (ns, head, cur).

(** ** The table *)

(** [key % ht->mask]: undefined for a table of one bucket, whose mask is 0. *)
(* src/demo_mempool/mphash.c:300-300 mp_hash_table_insert *)
Definition bucket_pos (ht : mp_hash_table) (k : Z) : option Z :=
  require (negb (mask ht =? 0)) ≫= fun _ => Some (k mod mask ht).

Definition with_bucket (ht : mp_hash_table) (tb : list Z) (ns : nodes) (n : Z) : mp_hash_table :=
  MpTable (num_buckets ht) n (mask ht) tb ns (free_buckets ht) (hash ht) (cmp ht) (has_free ht).

(* src/demo_mempool/mphash.c:289-320 mp_hash_table_insert *)
Definition mp_hash_table_insert (ht : option mp_hash_table) (d : Z)
    : option (option mp_hash_table * Z) :=
  match ht with
  | None => Some (None, -1)
  | Some ht =>
      if d =? 0 then Some (Some ht, -1) else
      if num_elements ht >=? num_buckets ht then Some (Some ht, -1) else
      let k := hash ht d in
      pos ← bucket_pos ht k;
      let rev := reverse k in
      '(ht, entry) ← mp_get_free_entry ht;
      if entry =? MP_NULL then Some (Some ht, -1) else
      n ← bucket_nodes ht !! entry;
      let ht := with_bucket ht (table_buckets ht)
        (<[entry := MpEntry (eprev n) (enext n) d k rev]> (bucket_nodes ht))
        (num_elements ht) in
      head ← znth (table_buckets ht) pos;
      '(ns, head, rc) ← mp_list_insert ht head entry;
      tb ← zset (table_buckets ht) pos head;
      let ht := with_bucket ht tb ns (num_elements ht) in
      if negb (rc =? 0) then
        ht ← mp_put_free_entry ht entry;
        Some (Some ht, -1)
      else
        Some (Some (with_bucket ht (table_buckets ht) (bucket_nodes ht)
                      (u32 (num_elements ht + 1))), 0)
  end.

(** The third component lists the data handed to [ht->free]. *)
(* src/demo_mempool/mphash.c:322-345 mp_hash_table_delete *)
Definition mp_hash_table_delete (ht : option mp_hash_table) (d : Z)
    : option (option mp_hash_table * Z * list Z) :=
  match ht with
  | None => Some (None, -1, [])
  | Some ht =>
      if d =? 0 then Some (Some ht, -1, []) else
      let k := hash ht d in
      pos ← bucket_pos ht k;
      let rev := reverse k in
      head ← znth (table_buckets ht) pos;
      '(ns, head, entry) ← mp_list_delete ht head d rev;
      tb ← zset (table_buckets ht) pos head;
      let ht := with_bucket ht tb ns (num_elements ht) in
      if entry =? MP_NULL then Some (Some ht, -1, []) else
      n ← bucket_nodes ht !! entry;
      let freed := if has_free ht then [data n] else [] in
      ht ← mp_put_free_entry ht entry;
      Some (Some (with_bucket ht (table_buckets ht) (bucket_nodes ht)
                    (u32 (num_elements ht - 1))), 0, freed)
  end.

(* src/demo_mempool/mphash.c:347-363 mp_hash_table_find *)
Definition mp_hash_table_find (ht : option mp_hash_table) (d : Z) : option Z :=
  match ht with
  | None => Some 0
  | Some ht =>
      if d =? 0 then Some 0 else
      let k := hash ht d in
      pos ← bucket_pos ht k;
      let rev := reverse k in
      head ← znth (table_buckets ht) pos;
      entry ← mp_list_find (chain_fuel (bucket_nodes ht)) ht head d rev;
      if entry =? MP_NULL then Some 0 else
      n ← bucket_nodes ht !! entry;
      Some (data n)
  end.

(** The entries of one bucket list, first to last. *)
Fixpoint chain_data (fuel : nat) (ns : nodes) (cur : Z) : option (list Z) :=
  match fuel with
  | O => None
  | S fuel =>
      if cur =? MP_NULL then Some [] else
      c ← ns !! cur;
      ds ← chain_data fuel ns (enext c);
      Some (data c :: ds)
  end.

(** The data handed to [ht->free], in order; the table itself is released. *)
(* src/demo_mempool/mphash.c:137-164 mp_hash_table_free *)
Definition mp_hash_table_free (ht : option mp_hash_table) : option (list Z) :=
  match ht with
  | None => Some []
  | Some ht =>
      if has_free ht then
        dss ← mapM (chain_data (chain_fuel (bucket_nodes ht)) (bucket_nodes ht))
                (table_buckets ht);
        Some (concat dss)
      else Some []
  end.

Section walk.
Context {C : Type} (walkfunc : C -> Z -> C * Z).

Fixpoint walk_chain (fuel : nat) (ns : nodes) (ctx : C) (cur : Z) : option (C * Z) :=
  match fuel with
  | O => None
  | S fuel =>
      if cur =? MP_NULL then Some (ctx, 0) else
      c ← ns !! cur;
      let (ctx, iret) := walkfunc ctx (data c) in
      if negb (iret =? 0) then Some (ctx, iret)
      else walk_chain fuel ns ctx (enext c)
  end.

Fixpoint walk_buckets (ns : nodes) (ctx : C) (tb : list Z) : option (C * Z) :=
  match tb with
  | [] => Some (ctx, 0)
  | head :: tb =>
      '(ctx, iret) ← walk_chain (chain_fuel ns) ns ctx head;
      if negb (iret =? 0) then Some (ctx, iret) else walk_buckets ns ctx tb
  end.

(** The callback is a function of the context it is given; the walk stops at the first
    non-zero result. *)
(* src/demo_mempool/mphash.c:365-385 mp_hash_table_walk *)
Definition mp_hash_table_walk (ht : option mp_hash_table) (ctx : C) : option (C * Z) :=
  match ht with
  | None => Some (ctx, -1)
  | Some ht => walk_buckets (bucket_nodes ht) ctx (table_buckets ht)
  end.
End walk.

(** * Bit reversal and powers of two *)

Lemma rev8_table :
  forallb (fun b => forallb (fun i =>
      Bool.eqb (Z.testbit (rev8 b) (Z.of_nat i)) (Z.testbit b (7 - Z.of_nat i)))
    (seq 0 8) && (0 <=? rev8 b) && (rev8 b <? 256)) (Z.of_nat <$> seq 0 256) = true.
Proof. vm_compute. reflexivity. Qed.

Lemma rev8_spec b :
  0 <= b < 256 ->
  0 <= rev8 b < 256 /\ forall i, 0 <= i < 8 -> Z.testbit (rev8 b) i = Z.testbit b (7 - i).
Proof.
  intros Hb. pose proof rev8_table as T. rewrite forallb_forall in T.
  specialize (T b). rewrite !andb_true_iff, forallb_forall, Z.leb_le, Z.ltb_lt in T.
  destruct T as [[Ti ?] ?].
  { apply list_elem_of_In, list_elem_of_fmap. exists (Z.to_nat b).
    split; [lia|]. apply elem_of_seq. lia. }
  split; [lia|]. intros i Hi. specialize (Ti (Z.to_nat i)).
  rewrite Z2Nat.id in Ti by lia. apply eqb_prop, Ti. apply in_seq. lia.
Qed.

Lemma byte_of_bounds k n : 0 <= Z.land (Z.shiftr k n) 0xff < 256.
Proof. change 0xff with (Z.ones 8). rewrite Z.land_ones by lia. by apply Z.mod_pos_bound. Qed.

Lemma testbit_rev8_byte k n i :
  0 <= n ->
  Z.testbit (rev8 (Z.land (Z.shiftr k n) 0xff)) i =
  (0 <=? i) && (i <? 8) && Z.testbit k (7 - i + n).
Proof.
  intros Hn. destruct (rev8_spec _ (byte_of_bounds k n)) as [Hb Hr].
  destruct (Z.leb_spec 0 i); simpl; [|by rewrite Z.testbit_neg_r].
  destruct (Z.ltb_spec i 8); simpl.
  - rewrite Hr by lia. rewrite Z.land_spec, Z.shiftr_spec by lia.
    change 0xff with (Z.ones 8). rewrite Z.ones_spec_low by lia. by rewrite andb_true_r.
  - apply (testbit_high 8); lia.
Qed.

(** Bit [i] of the reversed word is bit [31 - i] of the word. *)
Lemma reverse_spec k i :
  Z.testbit (reverse k) i = (0 <=? i) && (i <? 32) && Z.testbit k (31 - i).
Proof.
  unfold reverse. rewrite <- (Z.shiftr_0_r k) at 1.
  rewrite !Z.lor_spec, !testbit_shiftl, !testbit_rev8_byte by lia.
  split_positions; simpl; rewrite ?orb_false_r; try done; f_equal; lia.
Qed.

Lemma reverse_bounds k : 0 <= reverse k < 2 ^ 32.
Proof.
  apply bits_bounded; [lia|]. intros i Hi. rewrite reverse_spec.
  destruct (Z.ltb_spec i 32); [lia|]. by rewrite andb_false_r.
Qed.

Lemma reverse_involutive k : 0 <= k < 2 ^ 32 -> reverse (reverse k) = k.
Proof.
  intros Hk. apply Z.bits_inj'. intros i Hi. rewrite !reverse_spec.
  destruct (Z.ltb_spec i 32); split_positions; simpl.
  - f_equal. lia.
  - symmetry. apply (testbit_high 32); lia.
Qed.

Lemma reverse_inj j k :
  0 <= j < 2 ^ 32 -> 0 <= k < 2 ^ 32 -> reverse j = reverse k -> j = k.
Proof. intros Hj Hk E. by rewrite <- (reverse_involutive j), E, reverse_involutive. Qed.

Lemma is_power_of_2_pow k : 0 <= k < 32 -> is_power_of_2 (2 ^ k) = true.
Proof.
  intros Hk. unfold is_power_of_2. apply andb_true_iff.
  assert (2 ^ k < 2 ^ 32) by (apply Z.pow_lt_mono_r; lia).
  split; [apply negb_true_iff, Z.eqb_neq; lia|]. apply Z.eqb_eq.
  rewrite wrap_small by lia. apply Z.bits_inj'. intros i Hi.
  rewrite Z.land_spec, Z.testbit_0_l, Z.pow2_bits_eqb by lia.
  destruct (Z.eqb_spec k i) as [->|]; [|done]. simpl.
  rewrite Z.sub_1_r, <- Z.ones_equiv. apply Z.ones_spec_high. lia.
Qed.

(** A nonzero word that shares no bit with its predecessor is a power of two. *)
Lemma is_power_of_2_true n :
  0 <= n < 2 ^ 32 -> is_power_of_2 n = true -> exists k, 0 <= k < 32 /\ n = 2 ^ k.
Proof.
  intros Hn [H0%negb_true_iff%Z.eqb_neq Hl%Z.eqb_eq]%andb_true_iff.
  rewrite wrap_small in Hl by lia. exists (Z.log2 n).
  assert (0 < n) as Hpos by lia. pose proof (Z.log2_spec n Hpos) as [Hlo Hhi].
  assert (Z.log2 n < 32) by (apply Z.log2_lt_pow2; lia).
  pose proof (Z.log2_nonneg n). split; [lia|].
  destruct (Z.eq_dec n (2 ^ Z.log2 n)) as [|Hne]; [done|exfalso].
  assert (Z.testbit (Z.land n (n - 1)) (Z.log2 n) = true) as Ht.
  { rewrite Z.land_spec, Z.bit_log2 by lia. simpl.
    replace (Z.log2 n) with (Z.log2 (n - 1)).
    - apply Z.bit_log2. lia.
    - apply Z.log2_unique; lia. }
  by rewrite Hl, Z.testbit_0_l in Ht.
Qed.

(** [reverse] reverses the order of the 32 bits of its argument (the table it looks the
    bytes up in is right at all 256 entries), so it is its own inverse on words: sorting a
    bucket by reversed hash loses no information about the hash. *)
Theorem reverse_reverses_bits k :
  (forall i, Z.testbit (reverse k) i = (0 <=? i) && (i <? 32) && Z.testbit k (31 - i)) /\
  reverse (reverse k) = u32 k.
Proof.
  split; [intros i; apply reverse_spec|].
  apply Z.bits_inj'. intros i Hi. rewrite !reverse_spec, testbit_wrap by lia.
  split_positions; simpl; try done. f_equal. lia.
Qed.

(** ** Creation *)

Lemma double_until_spec b : forall fuel k,
  0 <= k -> k + Z.of_nat fuel = 33 -> 1 < b <= 2 ^ 31 -> 2 ^ k < 2 * b ->
  exists j, 0 <= j < 32 /\ double_until fuel (2 ^ k) b = Some (2 ^ j) /\
    b <= 2 ^ j < 2 * b.
Proof.
  induction fuel as [|fuel IH]; intros k Hk Hf Hb Hlt.
  { replace k with 33 in * by lia. lia. }
  simpl. destruct (Z.ltb_spec (2 ^ k) b) as [Hs|Hs].
  - rewrite Z.shiftl_mul_pow2 by lia. change (2 ^ 1) with 2.
    assert (k < 31) by (apply (Z.pow_lt_mono_r_iff 2); lia).
    assert (2 ^ k * 2 = 2 ^ (k + 1)) as E by (rewrite Z.pow_add_r by lia; lia).
    assert (2 ^ (k + 1) < 2 ^ 32) by (apply Z.pow_lt_mono_r; lia).
    rewrite E, wrap_small by lia. apply IH; lia.
  - exists k. assert (k < 33) as Hk33; [|split; [|done]].
    + apply (Z.pow_lt_mono_r_iff 2); [lia..|]. change (2 ^ 33) with (2 * 2 ^ 32). lia.
    + split; [lia|]. enough (k < 32 + 0) by lia. apply (Z.pow_lt_mono_r_iff 2); lia.
Qed.

(** Above 2^31 the doubling wraps around to 0 and the loop never ends. *)
Lemma double_until_diverges b fuel :
  2 ^ 31 < b < 2 ^ 32 -> double_until fuel 1 b = None.
Proof.
  intros Hb.
  assert (forall k, double_until k 0 b = None) as H0.
  { induction k as [|k IH]; [done|]. simpl. destruct (Z.ltb_spec 0 b); [done|lia]. }
  assert (forall f n, (n <= 32)%nat -> double_until f (u32 (2 ^ Z.of_nat n)) b = None) as H.
  { induction f as [|f IH]; intros n Hn; [done|]. simpl.
    destruct (decide (n = 32%nat)) as [->|Hne].
    { change (u32 (2 ^ Z.of_nat 32)) with 0. destruct (Z.ltb_spec 0 b); [|lia]. apply H0. }
    assert (2 ^ Z.of_nat n <= 2 ^ 31) by (apply Z.pow_le_mono_r; lia).
    rewrite wrap_small by lia.
    destruct (Z.ltb_spec (2 ^ Z.of_nat n) b); [|lia].
    rewrite Z.shiftl_mul_pow2 by lia. specialize (IH (S n) ltac:(lia)).
    rewrite Nat2Z.inj_succ, Z.pow_succ_r in IH by lia. by rewrite Z.mul_comm. }
  apply (H fuel 0%nat). lia.
Qed.

(** * The table as a finite set of keyed data

    [kf] is the key of a datum: the comparison callback is 0 exactly on data with the same
    key, and the hash callback depends on the key only. mempool.c uses the address itself
    ([kf] is the identity), the file's own test the integer pointed to. *)

Definition data_at (ns : nodes) (a : Z) : Z := from_option data 0 (ns !! a).
Definition rev_at (ns : nodes) (a : Z) : Z := from_option reversed 0 (ns !! a).

Record keyed {K} (kf : Z -> K) (t : mp_hash_table) : Prop := Keyed {
  keyed_cmp : exists c, cmp t = Some c /\ forall a b, c a b = 0 <-> kf a = kf b;
  keyed_hash a b : kf a = kf b -> hash t a = hash t b;
  keyed_range a : 0 <= hash t a < 2 ^ 32;
}.

(** One bucket: a doubly linked list, sorted by reversed hash, of entries that belong there. *)
Record chain_ok (t : mp_hash_table) (ns : nodes) (i : nat) (hd : Z) (l : list Z) : Prop := ChainOk {
  chain_list : dlist ns hd l;
  chain_entry a n : a ∈ l -> ns !! a = Some n ->
    data n <> 0 /\ key n = hash t (data n) /\ reversed n = reverse (key n) /\
    key n mod mask t = Z.of_nat i;
  chain_sorted : StronglySorted (fun a b => rev_at ns a <= rev_at ns b) l;
}.

Record table_ok {K} (kf : Z -> K) (t : mp_hash_table) (chains : list (list Z)) (fl : list Z)
    : Prop := TableOk {
  ok_keyed : keyed kf t;
  ok_pow : exists k, 0 < k < 32 /\ num_buckets t = 2 ^ k;
  ok_mask : mask t = num_buckets t - 1;
  ok_heads : Z.of_nat (length (table_buckets t)) = num_buckets t;
  ok_chains_length : length chains = length (table_buckets t);
  ok_chain i hd l : table_buckets t !! i = Some hd -> chains !! i = Some l ->
    chain_ok t (bucket_nodes t) i hd l;
  ok_free : lseg (bucket_nodes t) (free_buckets t) fl MP_NULL;
  ok_nodup : NoDup (concat chains ++ fl);
  ok_count : Z.of_nat (length (concat chains ++ fl)) = num_buckets t;
  ok_elements : num_elements t = Z.of_nat (length (concat chains));
  ok_distinct : NoDup (kf <$> (data_at (bucket_nodes t) <$> concat chains));
}.

(** The table holds the data [es], in some order. *)
Definition table_rep {K} (kf : Z -> K) (t : mp_hash_table) (es : list Z) : Prop :=
  exists chains fl, table_ok kf t chains fl /\
    es ≡ₚ data_at (bucket_nodes t) <$> concat chains.

#[export] Instance table_rep_proper {K} (kf : Z -> K) t :
  Proper ((≡ₚ) ==> iff) (table_rep kf t).
Proof.
  intros es es' Hp. unfold table_rep.
  split; intros (chains & fl & Hok & He); exists chains, fl; (split; [done|]).
  - by rewrite <- Hp.
  - by rewrite Hp.
Qed.

(** ** Traversals *)

Section chains.
Context {K : Type} (kf : Z -> K) (t : mp_hash_table) (Hk : keyed kf t).

Lemma differ_spec a b : differ t a b = false <-> kf a = kf b.
Proof using Hk.
  destruct Hk as [(c & Hc & Hkf) _ _]. unfold differ. rewrite Hc, <- Hkf.
  rewrite negb_false_iff, Z.eqb_eq. done.
Qed.

(** An entry with the datum's key would be found by the search for the datum's hash. *)
Definition same_entry (ns : nodes) (d rev a : Z) : Prop :=
  rev_at ns a = rev /\ kf d = kf (data_at ns a).

Lemma mp_list_find_absent d rev : forall l cur fuel,
  lseg (bucket_nodes t) cur l MP_NULL -> (length l < fuel)%nat ->
  (forall a, a ∈ l -> ~ same_entry (bucket_nodes t) d rev a) ->
  mp_list_find fuel t cur d rev = Some MP_NULL.
Proof using Hk.
  induction l as [|a l IH]; intros cur fuel Hl Hf Hno;
    (destruct fuel as [|fuel]; [simpl in Hf; lia|]); simpl in *.
  { by rewrite Hl, Z.eqb_refl. }
  destruct Hl as (-> & Ha & n & Hn & Hl).
  destruct (Z.eqb_spec a MP_NULL) as [|_]; [done|]. rewrite Hn. simpl.
  assert (mp_list_find fuel t (enext n) d rev = Some MP_NULL) as IH'.
  { apply IH; [done|lia|]. intros b Hb. by apply Hno, list_elem_of_further. }
  destruct (reversed n >? rev); [done|].
  destruct (Z.eqb_spec (reversed n) rev) as [E|_]; [|done].
  destruct (differ t d (data n)) eqn:Hd; [done|].
  apply differ_spec in Hd. destruct (Hno a (list_elem_of_here _ _)).
  unfold same_entry, rev_at, data_at. by rewrite Hn.
Qed.

Lemma mp_list_find_present d rev : forall l1 a l2 cur fuel,
  lseg (bucket_nodes t) cur (l1 ++ a :: l2) MP_NULL -> (length (l1 ++ a :: l2) < fuel)%nat ->
  same_entry (bucket_nodes t) d rev a ->
  (forall b, b ∈ l1 -> rev_at (bucket_nodes t) b <= rev /\ ~ same_entry (bucket_nodes t) d rev b) ->
  mp_list_find fuel t cur d rev = Some a.
Proof using Hk.
  induction l1 as [|b l1 IH]; intros a l2 cur fuel Hl Hf [Hr Hd] Hno;
    (destruct fuel as [|fuel]; [simpl in Hf; lia|]); simpl in *;
    destruct Hl as (-> & Ha & n & Hn & Hl);
    rewrite (proj2 (Z.eqb_neq _ MP_NULL)) by done; rewrite Hn; simpl.
  - unfold rev_at, data_at in Hr, Hd. rewrite Hn in Hr, Hd. simpl in Hr, Hd.
    destruct (Z.gtb_spec (reversed n) rev); [lia|].
    destruct (Z.eqb_spec (reversed n) rev); [|done].
    by rewrite (proj2 (differ_spec d (data n))).
  - destruct (Hno b (list_elem_of_here _ _)) as [Hb Hne].
    assert (mp_list_find fuel t (enext n) d rev = Some a) as IH'.
    { apply (IH a l2); [done|lia|done|]. intros c Hc. by apply Hno, list_elem_of_further. }
    unfold same_entry, rev_at, data_at in Hb, Hne. rewrite Hn in Hb, Hne. simpl in Hb, Hne.
    destruct (Z.gtb_spec (reversed n) rev); [lia|].
    destruct (Z.eqb_spec (reversed n) rev); [|done].
    destruct (differ t d (data n)) eqn:Hd'; [done|]. apply differ_spec in Hd'. by destruct Hne.
Qed.

(** The insertion point: everything up to it has a hash not above the new one. *)
Lemma mp_insert_loop_absent d rev : forall l last cur fuel,
  lseg (bucket_nodes t) cur l MP_NULL -> (length l < fuel)%nat ->
  (forall a, a ∈ l -> ~ same_entry (bucket_nodes t) d rev a) ->
  exists l1 l2, l = l1 ++ l2 /\
    mp_insert_loop fuel t d rev last cur = Some (Some (List.last l1 last)) /\
    (forall a, a ∈ l1 -> rev_at (bucket_nodes t) a <= rev) /\
    (match l2 with [] => True | b :: _ => rev < rev_at (bucket_nodes t) b end).
Proof using Hk.
  induction l as [|a l IH]; intros last cur fuel Hl Hf Hno;
    (destruct fuel as [|fuel]; [simpl in Hf; lia|]); simpl in *.
  { rewrite Hl, Z.eqb_refl. exists [], []. split; [done|]. split; [done|].
    split; [|done]. intros a []%elem_of_nil. }
  destruct Hl as (-> & Ha & n & Hn & Hl).
  destruct (Z.eqb_spec a MP_NULL) as [|_]; [done|]. rewrite Hn. simpl.
  assert (rev_at (bucket_nodes t) a = reversed n) as Hra by (unfold rev_at; by rewrite Hn).
  destruct (Z.gtb_spec (reversed n) rev).
  { exists [], (a :: l). split; [done|]. split; [done|]. split; [|lia].
    intros b []%elem_of_nil. }
  destruct (IH a (enext n) fuel Hl ltac:(lia)) as (l1 & l2 & -> & E & H1 & H2).
  { intros b Hb. by apply Hno, list_elem_of_further. }
  exists (a :: l1), l2. split; [done|]. rewrite E. split; [|split; [|done]].
  - rewrite last_default_cons.
    destruct (Z.eqb_spec (reversed n) rev) as [Er|_]; [|done].
    destruct (differ t d (data n)) eqn:Hd; [done|].
    apply differ_spec in Hd. destruct (Hno a (list_elem_of_here _ _)).
    unfold same_entry, data_at. rewrite Hra, Hn. done.
  - intros b [->|Hb]%elem_of_cons; [lia|auto].
Qed.

Lemma mp_insert_loop_present d rev : forall l1 a l2 last cur fuel,
  lseg (bucket_nodes t) cur (l1 ++ a :: l2) MP_NULL -> (length (l1 ++ a :: l2) < fuel)%nat ->
  same_entry (bucket_nodes t) d rev a ->
  (forall b, b ∈ l1 -> rev_at (bucket_nodes t) b <= rev /\ ~ same_entry (bucket_nodes t) d rev b) ->
  mp_insert_loop fuel t d rev last cur = Some None.
Proof using Hk.
  induction l1 as [|b l1 IH]; intros a l2 last cur fuel Hl Hf [Hr Hd] Hno;
    (destruct fuel as [|fuel]; [simpl in Hf; lia|]); simpl in *;
    destruct Hl as (-> & Ha & n & Hn & Hl);
    rewrite (proj2 (Z.eqb_neq _ MP_NULL)) by done; rewrite Hn; simpl.
  - unfold rev_at, data_at in Hr, Hd. rewrite Hn in Hr, Hd. simpl in Hr, Hd.
    destruct (Z.gtb_spec (reversed n) rev); [lia|].
    destruct (Z.eqb_spec (reversed n) rev); [|done].
    by rewrite (proj2 (differ_spec d (data n))).
  - destruct (Hno b (list_elem_of_here _ _)) as [Hb Hne].
    assert (mp_insert_loop fuel t d rev b (enext n) = Some None) as IH'.
    { apply (IH a l2); [done|lia|done|]. intros c Hc. by apply Hno, list_elem_of_further. }
    unfold same_entry, rev_at, data_at in Hb, Hne. rewrite Hn in Hb, Hne. simpl in Hb, Hne.
    destruct (Z.gtb_spec (reversed n) rev); [lia|].
    destruct (Z.eqb_spec (reversed n) rev); [|done].
    destruct (differ t d (data n)) eqn:Hd'; [done|]. apply differ_spec in Hd'. by destruct Hne.
Qed.
End chains.

(** ** The operations on one bucket list *)

Lemma core_fields (n n' : mp_hash_entry) :
  core n' = core n -> data n' = data n /\ key n' = key n /\ reversed n' = reversed n.
Proof. destruct n, n'. unfold core. simpl. intros. by simplify_eq. Qed.

Lemma at_core (ns ns' : nodes) a :
  core <$> ns' = core <$> ns -> data_at ns' a = data_at ns a /\ rev_at ns' a = rev_at ns a.
Proof.
  intros Hc. apply (f_equal (lookup a)) in Hc. rewrite !lookup_fmap in Hc.
  unfold data_at, rev_at. destruct (ns' !! a), (ns !! a); try discriminate Hc; [|done].
  injection Hc as E1 E2 E3. done.
Qed.

Lemma dlist_fuel (ns : nodes) hd l : dlist ns hd l -> (length l < chain_fuel ns)%nat.
Proof. intros Hd%dlist_lseg%lseg_length. unfold chain_fuel. lia. Qed.

(** Three assignments to distinct nodes, in the order the code makes them. *)
Lemma splice_order (ns : nodes) (e p z : Z) (x x' y w : mp_hash_entry) :
  e <> p -> e <> z -> p <> z ->
  <[p := y]> (<[e := x]> (<[z := w]> (<[e := x']> ns))) = <[z := w]> (<[p := y]> (<[e := x]> ns)).
Proof.
  intros. apply map_eq. intros a. rewrite !lookup_insert. repeat case_decide; congruence.
Qed.

(** The last branch of [mp_list_insert]: [e] goes behind [p], the last node of [l1]. *)
Lemma insert_behind (ns : nodes) hd e l1 l2 n :
  dlist ns hd (l1 ++ l2) -> NoDup (l1 ++ e :: l2) -> l1 <> [] -> e <> MP_NULL ->
  ns !! e = Some n -> enext n = MP_NULL ->
  exists ns',
    (if List.last l1 MP_NULL =? MP_NULL then
       ns ← st_next ns e hd; ns ← st_prev ns hd e; Some (ns, e, 0)
     else
       ns ← st_prev ns e (List.last l1 MP_NULL);
       l ← ns !! List.last l1 MP_NULL;
       ns ← (if enext l =? MP_NULL then Some ns
             else ns ← st_prev ns (enext l) e; st_next ns e (enext l));
       ns ← st_next ns (List.last l1 MP_NULL) e;
       Some (ns, hd, 0)) = Some (ns', hd, 0) /\
    dlist ns' hd (l1 ++ e :: l2) /\ links_only ns ns' (e :: l1 ++ l2).
Proof.
  intros Hd Hnd Hl1 Hne Hn Hx.
  destruct (exists_last Hl1) as (k & p & ->). rewrite List.last_last.
  pose proof (dlist_NoDup _ _ _ Hd) as Hnd0.
  pose proof Hd as [q (m & z & D1 & D2)%dseg_app].
  pose proof D1 as (m' & z' & _ & (-> & Hp0 & np & Hnp & _ & (Hz & ->)))%dseg_app.
  assert (e ∉ (k ++ [p]) ++ l2) as He.
  { rewrite <- Permutation_middle in Hnd. by apply NoDup_cons in Hnd as [? _]. }
  assert (e <> p) as Hep by (intros ->; apply He; rewrite !elem_of_app, list_elem_of_singleton; auto).
  pose (n1 := MpEntry p (enext np) (data n) (key n) (reversed n)).
  assert (links_only ns (<[e := n1]> ns) (e :: (k ++ [p]) ++ l2)) as L1
    by (eapply links_only_insert; [done|by destruct n|apply list_elem_of_here]).
  destruct (dlist_splice (<[e := n1]> ns) hd (k ++ [p]) l2 e n1 z) as (h1 & h2 & E1 & E2 & L2 & D);
    [|exists p, q; simpl in Hz |- *; rewrite Hz| | |by apply lookup_insert_eq|]; try done.
  1, 2: (eapply dseg_frame; [|done]; intros a Ha; apply lookup_insert_ne; intros ->;
         apply He; rewrite elem_of_app; auto).
  exists h2. split; [|split].
  - rewrite (proj2 (Z.eqb_neq p MP_NULL)) by done. rewrite (st_prev_ok ns e p n) by done.
    simpl. rewrite lookup_insert_ne, Hnp by done. simpl.
    unfold st_next_opt in E1. rewrite decide_False in E1 by done.
    rewrite (st_next_ok _ _ _ np) in E1 by (by rewrite lookup_insert_ne). simplify_eq.
    rewrite Hx. unfold st_prev_opt, n1 in E2. simpl in E2.
    destruct (Z.eqb_spec (enext np) MP_NULL) as [Ez|Ez].
    + rewrite decide_True, Ez in E2 by done. injection E2 as <-.
      simpl. erewrite st_next_ok by (by rewrite lookup_insert_ne). done.
    + rewrite decide_False in E2 by done. destruct l2 as [|b l2]; [by destruct D2|].
      pose proof D2 as (Hzb & _ & nb & Hnb & _). simpl in Hzb.
      rewrite Hzb in *.
      assert (p <> b /\ e <> b) as [Hpb Heb].
      { apply NoDup_app in Hnd0 as (_ & Hd0 & _). split; intros <-.
        - eapply (Hd0 p); [by apply elem_of_app; right; left|left].
        - apply He, elem_of_app. right. left. }
      rewrite (st_prev_ok _ _ _ nb) in E2 by (by rewrite !lookup_insert_ne). simplify_eq.
      rewrite (st_prev_ok _ _ _ nb) by (by rewrite lookup_insert_ne). bind_simpl.
      erewrite st_next_ok by (rewrite lookup_insert_ne by done; apply lookup_insert_eq).
      bind_simpl. erewrite st_next_ok by (by rewrite !lookup_insert_ne). bind_simpl.
      do 3 f_equal. by apply splice_order.
  - by destruct k.
  - eapply links_only_trans; [done|]. eapply links_only_mono; [|done].
    intros a Ha. by apply list_elem_of_further.
Qed.

(** [mp_list_insert] puts the entry where its search says. *)
Lemma mp_list_insert_splice t hd e l1 l2 n :
  dlist (bucket_nodes t) hd (l1 ++ l2) -> e ∉ l1 ++ l2 -> e <> MP_NULL ->
  bucket_nodes t !! e = Some n -> eprev n = MP_NULL -> enext n = MP_NULL ->
  mp_insert_loop (chain_fuel (bucket_nodes t)) t (data n) (reversed n) MP_NULL hd
    = Some (Some (List.last l1 MP_NULL)) ->
  exists ns' hd', mp_list_insert t hd e = Some (ns', hd', 0) /\
    dlist ns' hd' (l1 ++ e :: l2) /\ links_only (bucket_nodes t) ns' (e :: l1 ++ l2).
Proof.
  intros Hd He Hne Hn Hp Hx Hloop. unfold mp_list_insert.
  pose proof (dlist_NoDup _ _ _ Hd) as Hnd.
  assert (NoDup (l1 ++ e :: l2)) as Hnd' by (rewrite <- Permutation_middle; by constructor).
  destruct (Z.eqb_spec hd MP_NULL) as [->|Hhd].
  { pose proof (proj1 (dlist_null _ _ _ Hd) eq_refl) as E.
    apply app_eq_nil in E as [-> ->]. eexists _, _. split; [done|]. split; [|done].
    exists e. simpl. split; [done|]. split; [done|]. exists n. by rewrite Hp, Hx. }
  rewrite Hn. bind_simpl. rewrite Hloop. bind_simpl. destruct (decide (l1 = [])) as [->|Hl1].
  - simpl in *. destruct l2 as [|b l2]; [by apply dlist_null in Hd; destruct Hhd; apply Hd|].
    pose proof (dlist_head _ _ _ _ Hd) as ->. destruct Hd as [q Hd].
    pose proof Hd as (_ & Hb & nb & Hnb & _). apply not_elem_of_cons in He as [Heb He].
    erewrite st_next_ok by done. simpl. erewrite st_prev_ok by (by rewrite lookup_insert_ne).
    eexists _, _. split; [done|]. split.
    + exists q. eapply (dseg_cons _ _ _ _ _ _ (set_next b n)); [done| |done|].
      * by rewrite lookup_insert_ne, lookup_insert_eq.
      * rewrite next_set_next. eapply dseg_set_first_prev; [|done|by rewrite lookup_insert_ne].
        eapply dseg_frame; [|done]. intros a Ha. rewrite lookup_insert_ne; [done|set_solver].
    + split; [same_core|]. intros a Ha. rewrite !lookup_insert_ne; set_solver.
  - destruct (insert_behind (bucket_nodes t) hd e l1 l2 n) as (ns' & ? & ? & ?); eauto.
Qed.

(** [mp_list_delete] unlinks the entry its search found. *)
Lemma mp_list_delete_unlink t hd l1 a l2 n d rev :
  dlist (bucket_nodes t) hd (l1 ++ a :: l2) -> bucket_nodes t !! a = Some n ->
  mp_list_find (chain_fuel (bucket_nodes t)) t hd d rev = Some a ->
  exists ns' hd', mp_list_delete t hd d rev = Some (ns', hd', a) /\
    dlist ns' hd' (l1 ++ l2) /\ links_only (bucket_nodes t) ns' (l1 ++ a :: l2).
Proof.
  intros Hd Hn Hfind. unfold mp_list_delete. rewrite Hfind. bind_simpl.
  pose proof (dlist_prev_null _ _ _ _ _ _ Hd Hn) as Hp.
  destruct (dlist_unlink _ _ _ _ _ _ Hd Hn) as (h1 & h2 & E1 & E2 & L & D).
  destruct (dlist_split _ _ _ _ _ _ Hd Hn) as (Ha & _).
  pose proof (dlist_NoDup _ _ _ Hd) as Hnd. rewrite <- Permutation_middle in Hnd.
  apply NoDup_cons in Hnd as [Hal Hnd].
  rewrite (proj2 (Z.eqb_neq a MP_NULL)), Hn by done. bind_simpl. simpl in E1, E2, Hp, D.
  assert (exists hd', (if eprev n =? MP_NULL then
       ns ← st_prev_opt (bucket_nodes t) (enext n) MP_NULL; Some (ns, enext n)
     else ns ← st_next (bucket_nodes t) (eprev n) (enext n); Some (ns, hd)) ≫=
     (fun '(ns, head) => ns ← st_prev_opt ns (enext n) (eprev n); Some (ns, head))
     = Some (h2, hd') /\ dlist h2 hd' (l1 ++ l2)) as (hd' & E & D').
  { unfold st_next_opt in E1. destruct (Z.eqb_spec (eprev n) MP_NULL) as [Ez|Ez].
    - rewrite decide_True in E1 by done. injection E1 as <-.
      rewrite (proj1 Hp Ez) in *. rewrite Ez in *. rewrite E2. bind_simpl.
      erewrite st_prev_opt_twice; [|by intros []|done]. bind_simpl. eauto.
    - rewrite decide_False in E1 by done. rewrite E1. bind_simpl. rewrite E2. bind_simpl.
      exists hd. split; [done|]. destruct l1; [by destruct Ez; apply Hp|done]. }
  destruct (if eprev n =? MP_NULL then _ else _) as [[ns1 hd1]|] eqn:E0; [|done].
  bind_simpl. cbn [mbind option_bind] in E.
  destruct (st_prev_opt ns1 (enext n) (eprev n)) as [ns2|] eqn:E3; [|done].
  cbn [mbind option_bind] in E |- *. simplify_eq.
  destruct L as [Lc Lf]. assert (h2 !! a = Some n) as Hn2 by (by rewrite Lf).
  rewrite (st_prev_ok _ _ _ n) by done. bind_simpl.
  erewrite st_next_ok by apply lookup_insert_eq. rewrite insert_insert_eq.
  eexists _, _. split; [done|]. split.
  - eapply dlist_frame; [|done]. intros b Hb. rewrite lookup_insert_ne; [done|congruence].
  - eapply links_only_trans.
    + eapply links_only_mono; [|split; [exact Lc|exact Lf]].
      intros b. rewrite !elem_of_app, elem_of_cons. tauto.
    + eapply links_only_insert; [done|by destruct n|]. rewrite elem_of_app, elem_of_cons. auto.
Qed.

(** ** The free list *)

Lemma mp_get_free_entry_cons t e fl :
  lseg (bucket_nodes t) (free_buckets t) (e :: fl) MP_NULL ->
  exists ns' fb r, mp_get_free_entry t = Some (with_free t ns' fb, e) /\ e <> MP_NULL /\
    ns' !! e = Some (MpEntry MP_NULL MP_NULL 0 0 r) /\ lseg ns' fb fl MP_NULL /\
    forall a, a ∉ e :: fl -> ns' !! a = bucket_nodes t !! a.
Proof.
  intros Hl. pose proof (lseg_NoDup _ _ _ Hl) as [He Hnd]%NoDup_cons.
  destruct Hl as (Hf & Hne & n & Hn & Hl). unfold mp_get_free_entry. rewrite Hf.
  rewrite (proj2 (Z.eqb_neq e MP_NULL)), Hn by done. bind_simpl. simpl in Hl.
  unfold st_prev_opt. destruct fl as [|b fl]; simpl.
  - simpl in Hl. rewrite decide_True by done. bind_simpl. rewrite Hn. bind_simpl.
    eexists _, _, _. split; [done|]. split; [done|]. split; [apply lookup_insert_eq|].
    split; [done|]. intros a Ha. rewrite lookup_insert_ne; [done|set_solver].
  - destruct Hl as (Hb & Hb0 & nb & Hnb & Hl). rewrite decide_False by (rewrite Hb; exact Hb0).
    apply not_elem_of_cons in He as [Heb He]. apply NoDup_cons in Hnd as [Hbl Hnd].
    rewrite Hb. rewrite (st_prev_ok _ _ _ nb) by done. bind_simpl.
    rewrite lookup_insert_ne, Hn by done. bind_simpl.
    eexists _, _, _. split; [done|]. split; [done|]. split; [apply lookup_insert_eq|]. split.
    + split; [done|]. split; [done|]. exists (set_prev MP_NULL nb).
      rewrite lookup_insert_ne, lookup_insert_eq by done. split; [done|].
      eapply lseg_frame; [|exact Hl]. intros a Ha. rewrite !lookup_insert_ne; congruence.
    + intros a Ha. rewrite !lookup_insert_ne; set_solver.
Qed.

Lemma mp_get_free_entry_nil t :
  free_buckets t = MP_NULL -> mp_get_free_entry t = Some (t, MP_NULL).
Proof. unfold mp_get_free_entry. by intros ->. Qed.

Lemma mp_put_free_entry_ok t e n fl :
  lseg (bucket_nodes t) (free_buckets t) fl MP_NULL -> e ∉ fl -> e <> MP_NULL ->
  bucket_nodes t !! e = Some n ->
  exists ns', mp_put_free_entry t e = Some (with_free t ns' e) /\
    lseg ns' e (e :: fl) MP_NULL /\
    forall a, a ∉ e :: fl -> ns' !! a = bucket_nodes t !! a.
Proof.
  intros Hl He Hne Hn. unfold mp_put_free_entry. rewrite Hn. bind_simpl. unfold st_prev_opt.
  destruct fl as [|b fl]; simpl in Hl.
  - rewrite decide_True by done. bind_simpl. eexists. split; [done|]. split.
    + split; [done|]. split; [done|]. eexists. by rewrite lookup_insert_eq.
    + intros a Ha. rewrite lookup_insert_ne; set_solver.
  - destruct Hl as (Hb & Hb0 & nb & Hnb & Hl). rewrite decide_False by (rewrite Hb; exact Hb0).
    apply not_elem_of_cons in He as [Heb He].
    rewrite (st_prev_ok _ _ _ nb) by (rewrite lookup_insert_ne by congruence; congruence).
    bind_simpl. eexists. split; [done|]. split.
    + split; [done|]. split; [done|]. eexists.
      rewrite lookup_insert_ne, lookup_insert_eq by congruence. split; [done|].
      rewrite Hb. eapply (lseg_next_frame (bucket_nodes t)); [|simpl; eauto 10].
      intros a Ha. rewrite !lookup_insert. repeat case_decide; subst; try done.
      * by rewrite Hnb.
      * set_solver.
    + intros a Ha. rewrite !lookup_insert_ne; set_solver.
Qed.

(** ** The table *)

Section table.
Context {K : Type} (kf : Z -> K).

Lemma chain_ok_frame t t' i hd l :
  hash t' = hash t -> mask t' = mask t ->
  (forall a, a ∈ l -> bucket_nodes t' !! a = bucket_nodes t !! a) ->
  chain_ok t (bucket_nodes t) i hd l -> chain_ok t' (bucket_nodes t') i hd l.
Proof using Type.
  intros Hh Hm Hf [Hl He Hs]. split.
  - by eapply dlist_frame.
  - intros a n Ha. rewrite Hf, Hh, Hm by done. by apply He.
  - clear He Hl. induction Hs as [|a l Hs IH Ha]; constructor.
    + apply IH. intros b Hb. by apply Hf, list_elem_of_further.
    + rewrite Forall_forall in *. intros b Hb. specialize (Ha b Hb). unfold rev_at in *.
      rewrite !Hf; [done|by apply list_elem_of_further|apply list_elem_of_here].
Qed.

(** One bucket and the free list change, in a way that keeps the nodes accounted for. *)
Lemma chain_table_ok_update t t' c1 l l' c2 fl fl' hd' :
  table_ok kf t (c1 ++ l :: c2) fl ->
  hash t' = hash t -> cmp t' = cmp t -> mask t' = mask t -> num_buckets t' = num_buckets t ->
  table_buckets t' = <[length c1 := hd']> (table_buckets t) ->
  chain_ok t' (bucket_nodes t') (length c1) hd' l' ->
  (forall a, a ∈ concat c1 ++ concat c2 -> bucket_nodes t' !! a = bucket_nodes t !! a) ->
  lseg (bucket_nodes t') (free_buckets t') fl' MP_NULL ->
  l' ++ fl' ≡ₚ l ++ fl ->
  num_elements t' + Z.of_nat (length l) = num_elements t + Z.of_nat (length l') ->
  NoDup (kf <$> (data_at (bucket_nodes t') <$> l' ++ concat c1 ++ concat c2)) ->
  table_ok kf t' (c1 ++ l' :: c2) fl'.
Proof using Type.
  intros [[Hkc Hkh Hkr] Hpow Hmask Hheads Hlen Hchain Hfree Hnd Hcount Hels Hdist]
    Hh Hc Hm Hn Htb Hch Hoth Hfl Hperm Hnum Hdist'.
  assert (concat (c1 ++ l' :: c2) ++ fl' ≡ₚ concat (c1 ++ l :: c2) ++ fl) as HP.
  { rewrite !concat_middle. rewrite <- !(assoc_L app).
    rewrite (Permutation_app_comm l'), (Permutation_app_comm l), <- !(assoc_L app).
    do 2 f_equiv. by rewrite (Permutation_app_comm fl'), (Permutation_app_comm fl). }
  split.
  - split; rewrite ?Hh, ?Hc; auto.
  - by rewrite Hn.
  - by rewrite Hm, Hn.
  - by rewrite Htb, length_insert, Hn.
  - rewrite Htb, length_insert, <- Hlen, !length_app. done.
  - intros i hd m Hi Hmi. destruct (decide (i = length c1)) as [->|Hne].
    + rewrite Htb, list_lookup_insert_eq in Hi
        by (rewrite <- Hlen, length_app; simpl; lia).
      rewrite list_lookup_middle in Hmi by done. by simplify_eq.
    + rewrite Htb, list_lookup_insert_ne in Hi by done.
      rewrite (lookup_middle_ne _ _ l l') in Hmi by done.
      eapply chain_ok_frame; eauto. intros a Ha. by eapply Hoth, lookup_middle_others.
  - done.
  - by rewrite HP.
  - by rewrite HP, Hn.
  - rewrite concat_middle, length_app in Hels |- *. lia.
  - by rewrite concat_middle.
Qed.

(** The bucket the code computes for [d], and where in [chains] it is. *)
Record bucket_at (t : mp_hash_table) (chains : list (list Z)) (d : Z)
    (c1 : list (list Z)) (l : list Z) (c2 : list (list Z)) (hd : Z) : Prop := BucketAt {
  at_pos : bucket_pos t (hash t d) = Some (Z.of_nat (length c1));
  at_mod : hash t d mod mask t = Z.of_nat (length c1);
  at_split : chains = c1 ++ l :: c2;
  at_head : znth (table_buckets t) (Z.of_nat (length c1)) = Some hd;
  at_set x : zset (table_buckets t) (Z.of_nat (length c1)) x
    = Some (<[length c1 := x]> (table_buckets t));
  at_chain : chain_ok t (bucket_nodes t) (length c1) hd l;
}.

Lemma chain_bucket_at_exists t chains fl d :
  table_ok kf t chains fl -> exists c1 l c2 hd, bucket_at t chains d c1 l c2 hd.
Proof using Type.
  intros [[_ _ Hkr] (k & Hk & Hpow) Hmask Hheads Hlen Hchain _ _ _ _ _].
  assert (2 ^ 1 <= num_buckets t) by (rewrite Hpow; apply Z.pow_le_mono_r; lia).
  change (2 ^ 1) with 2 in *.
  assert (0 <= hash t d mod mask t < mask t) as Hb by (apply Z.mod_pos_bound; lia).
  destruct (lookup_lt_is_Some_2 chains (Z.to_nat (hash t d mod mask t))) as [l Hl]; [lia|].
  destruct (lookup_lt_is_Some_2 (table_buckets t) (Z.to_nat (hash t d mod mask t)))
    as [hd Hhd]; [lia|].
  pose proof (Hchain _ _ _ Hhd Hl) as Hch.
  apply list_elem_of_split_length in Hl as (c1 & c2 & E & Hc1).
  assert (hash t d mod mask t = Z.of_nat (length c1)) as Hm by lia.
  exists c1, l, c2, hd. rewrite Hc1 in *. split; try done.
  - unfold bucket_pos. destruct (Z.eqb_spec (mask t) 0); [lia|]. simpl. by rewrite Hm.
  - unfold znth. destruct (Z.ltb_spec (Z.of_nat (length c1)) 0); [lia|]. by rewrite Nat2Z.id.
  - intros x. unfold zset. rewrite Nat2Z.id.
    destruct (Z.leb_spec 0 (Z.of_nat (length c1))); [|lia].
    by destruct (Z.ltb_spec (Z.of_nat (length c1)) (Z.of_nat (length (table_buckets t)))); [|lia].
Qed.

(** Every entry with the key of [d] is in that bucket, under the hash of [d]. *)
Lemma same_key_bucket t chains fl d c1 l c2 hd a :
  table_ok kf t chains fl -> bucket_at t chains d c1 l c2 hd ->
  a ∈ concat chains -> kf d = kf (data_at (bucket_nodes t) a) ->
  a ∈ l /\ same_entry kf (bucket_nodes t) d (reverse (hash t d)) a.
Proof using Type.
  intros Hok Hat Ha Hkf. apply list_elem_of_In, in_concat in Ha as (m & Hm & Ha).
  apply list_elem_of_In in Hm, Ha. apply list_elem_of_lookup in Hm as [i Hi].
  destruct (lookup_lt_is_Some_2 (table_buckets t) i) as [hd' Hhd'].
  { rewrite <- (ok_chains_length _ _ _ _ Hok). by eapply lookup_lt_Some. }
  pose proof (ok_chain _ _ _ _ Hok _ _ _ Hhd' Hi) as [Hl He _].
  destruct (lseg_lookup _ _ _ _ _ (dlist_lseg _ _ _ Hl) Ha) as [n Hn].
  destruct (He a n Ha Hn) as (_ & Hk & Hr & Hp).
  assert (data_at (bucket_nodes t) a = data n) as Hda by (unfold data_at; by rewrite Hn).
  rewrite Hda in Hkf. rewrite <- (keyed_hash _ _ (ok_keyed _ _ _ _ Hok) _ _ Hkf) in Hk.
  rewrite Hk in Hp, Hr. destruct Hat as [_ Hmod Hsplit _ _ _].
  assert (i = length c1) as -> by lia.
  rewrite Hsplit, list_lookup_middle in Hi by done. simplify_eq. split; [done|].
  split; [unfold rev_at; by rewrite Hn|]. by rewrite Hda.
Qed.

Lemma sorted_app_le (ns : nodes) k1 a k2 b :
  StronglySorted (fun x y => rev_at ns x <= rev_at ns y) (k1 ++ a :: k2) -> b ∈ k1 ->
  rev_at ns b <= rev_at ns a.
Proof using Type.
  induction k1 as [|c k1 IH]; [by intros _ ?%elem_of_nil|]. simpl.
  intros [Hs Hc]%StronglySorted_inv [->|Hb]%elem_of_cons; [|auto].
  rewrite Forall_forall in Hc. apply Hc, elem_of_app. right. left.
Qed.

(** What a search of the bucket of [d] finds: nothing, or the one entry with its key. *)
Lemma chain_search_cases t chains fl d c1 l c2 hd `{EqDecision K} :
  table_ok kf t chains fl -> bucket_at t chains d c1 l c2 hd ->
  (forall a, a ∈ l -> ~ same_entry kf (bucket_nodes t) d (reverse (hash t d)) a) /\
    (forall a, a ∈ concat chains -> kf d <> kf (data_at (bucket_nodes t) a)) \/
  exists k1 a k2, l = k1 ++ a :: k2 /\
    same_entry kf (bucket_nodes t) d (reverse (hash t d)) a /\
    (forall b, b ∈ k1 -> rev_at (bucket_nodes t) b <= reverse (hash t d) /\
       ~ same_entry kf (bucket_nodes t) d (reverse (hash t d)) b).
Proof using Type.
  intros Hok Hat.
  destruct (decide (Exists (fun a => kf d = kf (data_at (bucket_nodes t) a)) l)) as [Hex|Hno].
  - right. apply Exists_exists in Hex as (a & Ha & Hkf).
    pose proof (at_split _ _ _ _ _ _ _ Hat) as Hs.
    destruct (same_key_bucket _ _ _ _ _ _ _ _ a Hok Hat) as [_ Hse]; [|done|].
    { rewrite Hs, concat_middle. apply elem_of_app. by left. }
    apply list_elem_of_split in Ha as (k1 & k2 & ->). exists k1, a, k2.
    split; [done|]. split; [done|]. intros b Hb. split.
    + rewrite <- (proj1 Hse). eapply sorted_app_le; [|done].
      apply (chain_sorted _ _ _ _ _ (at_chain _ _ _ _ _ _ _ Hat)).
    + intros [_ Hkb]. pose proof (ok_distinct _ _ _ _ Hok) as Hd.
      rewrite Hs, concat_middle, !fmap_app in Hd.
      apply NoDup_app in Hd as (Hd & _). apply NoDup_app in Hd as (_ & Hd & _).
      apply (Hd (kf (data_at (bucket_nodes t) b))).
      * by do 2 apply list_elem_of_fmap_2.
      * rewrite <- Hkb, Hkf. do 2 apply list_elem_of_fmap_2. left.
  - left. rewrite <- Forall_Exists_neg, Forall_forall in Hno. split.
    + intros a Ha [_ Hkf]. by apply (Hno a).
    + intros a Ha Hkf. destruct (same_key_bucket _ _ _ _ _ _ _ _ a Hok Hat) as [Hal _]; try done.
      by apply (Hno a).
Qed.
End table.

(** * The operations of the table *)

Definition same_config (t t' : mp_hash_table) : Prop :=
  num_buckets t' = num_buckets t /\ has_free t' = has_free t.

Lemma get_free_config t t' e : mp_get_free_entry t = Some (t', e) -> same_config t t'.
Proof.
  unfold mp_get_free_entry. case_match; intros; invert_binds; by simplify_eq.
Qed.

Lemma put_free_config t t' e : mp_put_free_entry t e = Some t' -> same_config t t'.
Proof. unfold mp_put_free_entry. intros. invert_binds. done. Qed.

(** Run the binds of a hypothesis, taking pairs apart. *)
Ltac invert_pairs :=
  repeat (invert_binds; match goal with
    | H : match ?x with (_, _) => _ end = Some _ |- _ => is_var x; destruct x
    end); invert_binds.

Lemma insert_config t t' d r :
  mp_hash_table_insert (Some t) d = Some (Some t', r) -> same_config t t'.
Proof.
  unfold mp_hash_table_insert. repeat (case_match; [by intros; simplify_eq|]).
  intros E. invert_pairs.
  match goal with H : mp_get_free_entry _ = Some _ |- _ => apply get_free_config in H as Hc end.
  case_match; [by simplify_eq|]. invert_pairs. case_match; invert_binds; [|done].
  match goal with H : mp_put_free_entry _ _ = Some _ |- _ => apply put_free_config in H end.
  unfold same_config in *. simpl in *. by intuition congruence.
Qed.

Lemma delete_config t t' d r fr :
  mp_hash_table_delete (Some t) d = Some (Some t', r, fr) -> same_config t t'.
Proof.
  unfold mp_hash_table_delete. case_match; [by intros; simplify_eq|].
  intros E. invert_pairs. case_match; [by simplify_eq|]. invert_binds.
  match goal with H : mp_put_free_entry _ _ = Some _ |- _ => apply put_free_config in H end.
  done.
Qed.

Section operations.
Context {K : Type} `{EqDecision K} (kf : Z -> K).

(** The set of data the table implements, as a list without two data of the same key. *)
Definition same_key (d e : Z) : Prop := kf d = kf e.
#[local] Instance same_key_dec d e : Decision (same_key d e).
Proof using EqDecision0. unfold same_key. apply _. Defined.

Definition set_find (es : list Z) (d : Z) : Z := default 0 (list.head (filter (same_key d) es)).

Definition set_insert (cap : Z) (es : list Z) (d : Z) : list Z * Z :=
  if decide (d = 0 \/ cap <= Z.of_nat (length es) \/ Exists (same_key d) es) then (es, -1)
  else (d :: es, 0).

Definition set_delete (es : list Z) (d : Z) : list Z * Z * list Z :=
  if decide (d = 0 \/ Forall (fun e => ~ same_key d e) es) then (es, -1, [])
  else (filter (fun e => ~ same_key d e) es, 0, filter (same_key d) es).

Lemma data_at_member t chains fl a :
  table_ok kf t chains fl -> a ∈ concat chains ->
  exists n, bucket_nodes t !! a = Some n /\ data_at (bucket_nodes t) a = data n /\ data n <> 0 /\
    a <> MP_NULL.
Proof using Type.
  intros Hok Ha. apply list_elem_of_In, in_concat in Ha as (m & Hm & Ha).
  apply list_elem_of_In in Hm, Ha. apply list_elem_of_lookup in Hm as [i Hi].
  destruct (lookup_lt_is_Some_2 (table_buckets t) i) as [hd' Hhd'].
  { rewrite <- (ok_chains_length _ _ _ _ Hok). by eapply lookup_lt_Some. }
  pose proof (ok_chain _ _ _ _ Hok _ _ _ Hhd' Hi) as [Hl%dlist_lseg He _].
  destruct (lseg_lookup _ _ _ _ _ Hl Ha) as [n Hn].
  pose proof (lseg_not_null _ _ _ _ _ Hl Ha).
  destruct (He a n Ha Hn) as (Hd & _). exists n. unfold data_at. by rewrite Hn.
Qed.

Lemma present_unique (es : list Z) d e :
  NoDup (kf <$> es) -> e ∈ es -> same_key d e -> filter (same_key d) es = [e].
Proof using Type.
  induction es as [|x es IH]; [by intros _ ?%elem_of_nil|]. simpl.
  intros [Hx Hnd]%NoDup_cons He Hk. rewrite filter_cons. case_decide as Hd.
  - apply elem_of_cons in He as [->|He].
    + f_equal. destruct (filter (same_key d) es) as [|y ys] eqn:E; [done|].
      assert (y ∈ filter (same_key d) es) as Hy by (rewrite E; left).
      apply list_elem_of_filter in Hy as [Hy1 Hy2]. destruct Hx.
      unfold same_key in *. rewrite <- Hk, Hy1. by apply list_elem_of_fmap_2.
    + destruct Hx. unfold same_key in *. rewrite <- Hd, Hk. by apply list_elem_of_fmap_2.
  - apply elem_of_cons in He as [->|He]; [done|]. auto.
Qed.

Lemma absent_filter (es : list Z) d :
  (forall e, e ∈ es -> ~ same_key d e) -> filter (same_key d) es = [].
Proof using Type.
  intros Hno. destruct (filter (same_key d) es) as [|y ys] eqn:E; [done|].
  assert (y ∈ filter (same_key d) es) as Hy by (rewrite E; left).
  apply list_elem_of_filter in Hy as [Hy1 Hy2]. by destruct (Hno y).
Qed.

Lemma table_rep_distinct t es : table_rep kf t es -> NoDup (kf <$> es).
Proof using Type. intros (chains & fl & Hok & ->). apply (ok_distinct _ _ _ _ Hok). Qed.

(** [mp_hash_table_find] returns the datum with the key asked for, or null. *)
Lemma mp_hash_table_find_spec t es d :
  table_rep kf t es ->
  mp_hash_table_find (Some t) d = Some (if d =? 0 then 0 else set_find es d).
Proof using EqDecision0.
  intros Hrep. pose proof (table_rep_distinct _ _ Hrep) as Hnd.
  destruct Hrep as (chains & fl & Hok & Hes).
  unfold mp_hash_table_find. destruct (Z.eqb_spec d 0) as [_|Hd0]; [done|].
  destruct (chain_bucket_at_exists kf t chains fl d Hok) as (c1 & l & c2 & hd & Hat).
  rewrite (at_pos _ _ _ _ _ _ _ Hat). bind_simpl. rewrite (at_head _ _ _ _ _ _ _ Hat).
  bind_simpl. pose proof (chain_list _ _ _ _ _ (at_chain _ _ _ _ _ _ _ Hat)) as Hl.
  pose proof (dlist_fuel _ _ _ Hl) as Hfuel. apply dlist_lseg in Hl.
  pose proof (ok_keyed _ _ _ _ Hok) as Hk. unfold set_find.
  destruct (chain_search_cases kf _ _ _ d _ _ _ _ Hok Hat)
    as [[Habs Hno]|(k1 & a & k2 & -> & Hse & Hb)].
  - rewrite (mp_list_find_absent kf t Hk d (reverse (hash t d)) l hd) by done. simpl.
    rewrite absent_filter; [done|]. intros e. rewrite Hes.
    intros (a & -> & Ha)%list_elem_of_fmap. by apply Hno.
  - erewrite (mp_list_find_present kf t Hk d (reverse (hash t d)) k1 a k2 hd) by eauto.
    bind_simpl.
    assert (a ∈ concat chains) as Ha.
    { rewrite (at_split _ _ _ _ _ _ _ Hat), concat_middle, !elem_of_app. left. right. left. }
    destruct (data_at_member _ _ _ a Hok Ha) as (n & Hn & Hda & _ & Hne).
    rewrite (proj2 (Z.eqb_neq a MP_NULL)), Hn by done. bind_simpl.
    rewrite (present_unique es d (data n)); [done|done| |].
    + rewrite Hes, <- Hda. by apply list_elem_of_fmap_2.
    + unfold same_key. by rewrite <- Hda, (proj2 Hse).
Qed.

Lemma take_entry t chains e fl d k rev :
  table_ok kf t chains (e :: fl) ->
  exists ns1 fb n, mp_get_free_entry t = Some (with_free t ns1 fb, e) /\ e <> MP_NULL /\
    ns1 !! e = Some n /\ eprev n = MP_NULL /\ enext n = MP_NULL /\
    lseg (<[e := MpEntry (eprev n) (enext n) d k rev]> ns1) fb fl MP_NULL /\
    (forall a, a ∈ concat chains ->
      <[e := MpEntry (eprev n) (enext n) d k rev]> ns1 !! a = bucket_nodes t !! a) /\
    e ∉ concat chains /\ e ∉ fl.
Proof using Type.
  intros Hok. pose proof (ok_free _ _ _ _ Hok) as Hl.
  pose proof (ok_nodup _ _ _ _ Hok) as (_ & Hdis & [He Hnd]%NoDup_cons)%NoDup_app.
  destruct (mp_get_free_entry_cons t e fl Hl) as (ns1 & fb & r & E & Hne & Hn & Hfl & Hf).
  exists ns1, fb, (MpEntry MP_NULL MP_NULL 0 0 r). split; [done|]. repeat (split; [done|]).
  split; [|split; [|split; [|done]]].
  - eapply lseg_frame; [|done]. intros a Ha. rewrite lookup_insert_ne; [done|congruence].
  - intros a Ha. pose proof (Hdis a Ha) as Hna. rewrite lookup_insert_ne.
    + by apply Hf.
    + intros ->. apply Hna. left.
  - intros Ha. apply (Hdis e Ha). left.
Qed.

Lemma sorted_insert (ns : nodes) l1 e l2 :
  StronglySorted (fun x y => rev_at ns x <= rev_at ns y) (l1 ++ l2) ->
  (forall a, a ∈ l1 -> rev_at ns a <= rev_at ns e) ->
  match l2 with [] => True | b :: _ => rev_at ns e < rev_at ns b end ->
  StronglySorted (fun x y => rev_at ns x <= rev_at ns y) (l1 ++ e :: l2).
Proof using Type.
  induction l1 as [|a l1 IH]; simpl; intros Hs H1 H2.
  - constructor; [done|]. destruct l2 as [|b l2]; [constructor|].
    apply StronglySorted_inv in Hs as [_ Hb]. constructor; [lia|].
    eapply Forall_impl; [done|]. simpl. lia.
  - apply StronglySorted_inv in Hs as [Hs Ha]. constructor.
    + apply IH; [done| |done]. intros b Hb. by apply H1, list_elem_of_further.
    + apply Forall_app in Ha as [Ha1 Ha2]. apply Forall_app. split; [done|].
      constructor; [|done]. apply H1. left.
Qed.

Lemma sorted_frame (ns ns' : nodes) l :
  (forall a, a ∈ l -> rev_at ns' a = rev_at ns a) ->
  StronglySorted (fun x y => rev_at ns x <= rev_at ns y) l ->
  StronglySorted (fun x y => rev_at ns' x <= rev_at ns' y) l.
Proof using Type.
  intros Hf Hs. induction Hs as [|a l Hs IH Ha]; constructor.
  - apply IH. intros b Hb. by apply Hf, list_elem_of_further.
  - rewrite Forall_forall in *. intros b Hb. rewrite !Hf; auto; [by apply list_elem_of_further|left].
Qed.

(** The bucket [l1 ++ l2] after [e] with datum [d] was spliced in. *)
Lemma chain_ok_splice t t' i l1 l2 e hd hd' (n : mp_hash_entry) d :
  chain_ok t (bucket_nodes t) i hd (l1 ++ l2) ->
  hash t' = hash t -> mask t' = mask t ->
  dlist (bucket_nodes t') hd' (l1 ++ e :: l2) ->
  core <$> bucket_nodes t' !! e = Some (core (MpEntry MP_NULL MP_NULL d (hash t d) (reverse (hash t d)))) ->
  (forall a, a ∈ l1 ++ l2 -> core <$> bucket_nodes t' !! a = core <$> bucket_nodes t !! a) ->
  d <> 0 -> hash t d mod mask t = Z.of_nat i ->
  (forall a, a ∈ l1 -> rev_at (bucket_nodes t) a <= reverse (hash t d)) ->
  match l2 with [] => True | b :: _ => reverse (hash t d) < rev_at (bucket_nodes t) b end ->
  chain_ok t' (bucket_nodes t') i hd' (l1 ++ e :: l2).
Proof using Type.
  intros [Hl He Hs] Hh Hm Hl' Hne Hf Hd Hmod H1 H2.
  assert (forall a, a ∈ l1 ++ l2 -> rev_at (bucket_nodes t') a = rev_at (bucket_nodes t) a) as Hr.
  { intros a Ha. specialize (Hf a Ha). unfold rev_at.
    destruct (bucket_nodes t' !! a), (bucket_nodes t !! a); try discriminate Hf; [|done].
    by injection Hf. }
  assert (rev_at (bucket_nodes t') e = reverse (hash t d)) as Hre.
  { unfold rev_at. destruct (bucket_nodes t' !! e); [|done]. by injection Hne. }
  split; [done| |].
  - intros a n' Ha Hn'. rewrite Hh, Hm. rewrite <- Permutation_middle in Ha.
    apply elem_of_cons in Ha as [->|Ha].
    + rewrite Hn' in Hne. injection Hne as -> -> ->. done.
    + specialize (Hf a Ha). rewrite Hn' in Hf.
      destruct (bucket_nodes t !! a) as [n''|] eqn:Hn''; [|done].
      injection Hf as -> -> ->. by apply (He a).
  - apply sorted_insert.
    + eapply sorted_frame; [done|done].
    + intros a Ha. rewrite Hre, Hr by (apply elem_of_app; by left). auto.
    + destruct l2 as [|b l2]; [done|]. rewrite Hre, Hr; [done|]. apply elem_of_app. right. left.
Qed.

Lemma at_frame (ns ns' : nodes) a :
  ns' !! a = ns !! a -> data_at ns' a = data_at ns a /\ rev_at ns' a = rev_at ns a.
Proof using Type. unfold data_at, rev_at. by intros ->. Qed.

Lemma insert_present t chains e fl d c1 l c2 hd k1 a k2 :
  table_ok kf t chains (e :: fl) -> bucket_at t chains d c1 l c2 hd ->
  d <> 0 -> num_elements t < num_buckets t -> l = k1 ++ a :: k2 ->
  same_entry kf (bucket_nodes t) d (reverse (hash t d)) a ->
  (forall b, b ∈ k1 -> rev_at (bucket_nodes t) b <= reverse (hash t d) /\
     ~ same_entry kf (bucket_nodes t) d (reverse (hash t d)) b) ->
  exists t', mp_hash_table_insert (Some t) d = Some (Some t', -1) /\
    table_ok kf t' chains (e :: fl) /\
    forall b, b ∈ concat chains -> bucket_nodes t' !! b = bucket_nodes t !! b.
Proof using Type.
  intros Hok Hat Hd0 Hnum Hl Hse Hb. unfold mp_hash_table_insert.
  rewrite (proj2 (Z.eqb_neq d 0)) by done.
  destruct (Z.geb_spec (num_elements t) (num_buckets t)) as [|_]; [lia|].
  rewrite (at_pos _ _ _ _ _ _ _ Hat). bind_simpl.
  destruct (take_entry t chains e fl d (hash t d) (reverse (hash t d)) Hok)
    as (ns1 & fb & n & E & Hne & Hn & Hp & Hx & Hfl & Hf & Hec & Hefl).
  rewrite E. bind_simpl. rewrite (proj2 (Z.eqb_neq e MP_NULL)) by done.
  cbn [bucket_nodes with_free]. rewrite Hn. bind_simpl.
  set (ns2 := <[e := _]> ns1) in *. cbn [table_buckets with_free with_bucket].
  rewrite (at_head _ _ _ _ _ _ _ Hat). bind_simpl.
  set (t2 := with_bucket _ _ _ _).
  pose proof (at_chain _ _ _ _ _ _ _ Hat) as Hch.
  pose proof (at_split _ _ _ _ _ _ _ Hat) as Hs.
  assert (forall b, b ∈ l -> ns2 !! b = bucket_nodes t !! b) as Hfl2.
  { intros b Hbl. apply Hf. rewrite Hs, concat_middle. apply elem_of_app. by left. }
  assert (keyed kf t2) as Hk2 by (by destruct (ok_keyed _ _ _ _ Hok)).
  assert (dlist ns2 hd l) as Hl2 by (eapply dlist_frame; [|apply (chain_list _ _ _ _ _ Hch)]; done).
  assert (ns2 !! e = Some (MpEntry (eprev n) (enext n) d (hash t d) (reverse (hash t d))))
    as He2 by apply lookup_insert_eq.
  assert (mp_list_insert t2 hd e = Some (ns2, hd, -1)) as ->.
  { unfold mp_list_insert. rewrite (proj2 (Z.eqb_neq hd MP_NULL))
      by (intros E0; apply (dlist_null _ _ _ Hl2) in E0; subst; by destruct k1).
    cbn [bucket_nodes t2 with_bucket]. rewrite He2. bind_simpl. cbn [data reversed].
    subst l. erewrite (mp_insert_loop_present kf t2 Hk2 d _ k1 a k2); [done| | | |].
    - exact (dlist_lseg _ _ _ Hl2).
    - exact (dlist_fuel _ _ _ Hl2).
    - destruct (at_frame (bucket_nodes t) ns2 a) as [Ed Er].
      { apply Hfl2, elem_of_app. right. left. }
      unfold same_entry in *. cbn [bucket_nodes t2 with_bucket]. by rewrite Ed, Er.
    - intros b Hbk. destruct (at_frame (bucket_nodes t) ns2 b) as [Ed Er].
      { apply Hfl2, elem_of_app. by left. }
      unfold same_entry in *. cbn [bucket_nodes t2 with_bucket]. rewrite Ed, Er. by apply Hb. }
  bind_simpl. rewrite (at_set _ _ _ _ _ _ _ Hat). bind_simpl.
  set (t3 := with_bucket _ _ _ _).
  destruct (mp_put_free_entry_ok t3 e _ fl Hfl Hefl Hne He2) as (ns4 & E4 & Hl4 & Hf4).
  simpl (negb _). cbn iota. rewrite E4. bind_simpl.
  assert (forall b, b ∈ concat chains -> ns4 !! b = bucket_nodes t !! b) as Hf5.
  { intros b Hbc. rewrite Hf4; [by apply Hf|]. intros Hbe.
    pose proof (ok_nodup _ _ _ _ Hok) as (_ & Hdis & _)%NoDup_app. by apply (Hdis b). }
  eexists. split; [done|]. split; [|done].
  rewrite Hs in Hok |- *. eapply (chain_table_ok_update kf t _ c1 l l c2); try done.
  - apply (chain_ok_frame t); [done|done| |exact Hch].
    intros b Hbl. apply Hf5. rewrite Hs, concat_middle. apply elem_of_app. by left.
  - intros b Hbc. apply Hf5. rewrite Hs, concat_middle. apply elem_of_app. by right.
  - pose proof (ok_distinct _ _ _ _ Hok) as Hdd. rewrite concat_middle in Hdd.
    erewrite (list_fmap_ext (data_at _)); [exact Hdd|]. intros i b Hbi. simpl.
    apply at_frame, Hf5. rewrite Hs, concat_middle. by eapply list_elem_of_lookup_2.
Qed.

Lemma insert_absent t chains e fl d c1 l c2 hd :
  table_ok kf t chains (e :: fl) -> bucket_at t chains d c1 l c2 hd ->
  d <> 0 -> 0 <= num_elements t < num_buckets t ->
  (forall a, a ∈ l -> ~ same_entry kf (bucket_nodes t) d (reverse (hash t d)) a) ->
  (forall a, a ∈ concat chains -> kf d <> kf (data_at (bucket_nodes t) a)) ->
  exists t' l', mp_hash_table_insert (Some t) d = Some (Some t', 0) /\
    table_ok kf t' (c1 ++ l' :: c2) fl /\ l' ≡ₚ e :: l /\
    data_at (bucket_nodes t') e = d /\
    forall b, b ∈ concat chains -> data_at (bucket_nodes t') b = data_at (bucket_nodes t) b.
Proof using Type.
  intros Hok Hat Hd0 Hnum Habs Hno. unfold mp_hash_table_insert.
  rewrite (proj2 (Z.eqb_neq d 0)) by done.
  destruct (Z.geb_spec (num_elements t) (num_buckets t)) as [|_]; [lia|].
  rewrite (at_pos _ _ _ _ _ _ _ Hat). bind_simpl.
  destruct (take_entry t chains e fl d (hash t d) (reverse (hash t d)) Hok)
    as (ns1 & fb & n & E & Hne & Hn & Hp & Hx & Hfl & Hf & Hec & Hefl).
  rewrite E. bind_simpl. rewrite (proj2 (Z.eqb_neq e MP_NULL)) by done.
  cbn [bucket_nodes with_free]. rewrite Hn. bind_simpl.
  set (ns2 := <[e := _]> ns1) in *. cbn [table_buckets with_free with_bucket].
  rewrite (at_head _ _ _ _ _ _ _ Hat). bind_simpl.
  set (t2 := with_bucket _ _ _ _).
  pose proof (at_chain _ _ _ _ _ _ _ Hat) as Hch.
  pose proof (at_split _ _ _ _ _ _ _ Hat) as Hs.
  assert (forall b, b ∈ l -> ns2 !! b = bucket_nodes t !! b) as Hfl2.
  { intros b Hbl. apply Hf. rewrite Hs, concat_middle. apply elem_of_app. by left. }
  assert (keyed kf t2) as Hk2 by (by destruct (ok_keyed _ _ _ _ Hok)).
  assert (dlist ns2 hd l) as Hl2 by (eapply dlist_frame; [|apply (chain_list _ _ _ _ _ Hch)]; done).
  assert (ns2 !! e = Some (MpEntry (eprev n) (enext n) d (hash t d) (reverse (hash t d))))
    as He2 by apply lookup_insert_eq.
  assert (forall b, b ∈ l -> data_at ns2 b = data_at (bucket_nodes t) b /\
            rev_at ns2 b = rev_at (bucket_nodes t) b) as Hat2
    by (intros b Hbl; by apply at_frame, Hfl2).
  destruct (mp_insert_loop_absent kf t2 Hk2 d (reverse (hash t d)) l MP_NULL hd
    (chain_fuel ns2)) as (l1 & l2 & El & Hloop & H1 & H2);
    [exact (dlist_lseg _ _ _ Hl2)|exact (dlist_fuel _ _ _ Hl2)| |].
  { intros a Ha. specialize (Habs a Ha). unfold same_entry in *.
    cbn [bucket_nodes t2 with_bucket]. destruct (Hat2 a Ha) as [-> ->]. done. }
  destruct (mp_list_insert_splice t2 hd e l1 l2
    (MpEntry (eprev n) (enext n) d (hash t d) (reverse (hash t d))))
    as (ns' & hd' & EI & Hdl & Hlo); try done.
  { by rewrite <- El. }
  { intros Hin. rewrite <- El in Hin. apply Hec. rewrite Hs, concat_middle.
    apply elem_of_app. by left. }
  rewrite EI. bind_simpl. rewrite (at_set _ _ _ _ _ _ _ Hat). bind_simpl.
  cbn [negb Z.eqb]. cbn iota.
  assert (forall b, b ∈ concat chains -> data_at ns' b = data_at (bucket_nodes t) b) as Hda.
  { intros b Hb. destruct Hlo as [Hc _]. destruct (at_core _ _ b Hc) as [-> _].
    by apply at_frame, Hf. }
  assert (data_at ns' e = d) as Hde.
  { destruct Hlo as [Hc _]. destruct (at_core _ _ e Hc) as [-> _].
    unfold data_at. cbn [bucket_nodes t2 with_bucket]. by rewrite He2. }
  eexists _, (l1 ++ e :: l2). split; [done|].
  split; [|split; [by rewrite <- Permutation_middle, <- El|split; [done|]]].
  - assert (forall b, b ∈ fl \/ b ∈ concat c1 ++ concat c2 -> b ∉ e :: l1 ++ l2) as Hout.
    { pose proof (ok_nodup _ _ _ _ Hok) as Hnd.
      rewrite Hs, concat_middle, <- Permutation_middle, El in Hnd.
      apply NoDup_cons in Hnd as [He Hnd].
      apply NoDup_app in Hnd as ([_ [Hd1 _]]%NoDup_app & Hd2 & _).
      intros b Hb [->|Hbl]%elem_of_cons.
      - apply He. rewrite !elem_of_app in *. tauto.
      - specialize (Hd1 b Hbl). specialize (Hd2 b). rewrite !elem_of_app in *. tauto. }
    rewrite Hs in Hok. eapply (chain_table_ok_update kf t _ c1 l (l1 ++ e :: l2) c2 (e :: fl));
      try done; cbn [bucket_nodes with_bucket num_elements with_free t2].
    + subst l. eapply (chain_ok_splice t); try done.
      * destruct Hlo as [Hc _]. apply (f_equal (lookup e)) in Hc.
        rewrite !lookup_fmap in Hc. cbn [bucket_nodes t2 with_bucket] in Hc.
        etrans; [exact Hc|]. by rewrite He2.
      * intros a Ha. destruct Hlo as [Hc _]. apply (f_equal (lookup a)) in Hc.
        rewrite !lookup_fmap in Hc. cbn [bucket_nodes with_bucket t2] in Hc.
        etrans; [exact Hc|]. by rewrite Hfl2.
      * apply (at_mod _ _ _ _ _ _ _ Hat).
      * intros a Ha. destruct (Hat2 a) as [_ <-]; [apply elem_of_app; by left|]. by apply H1.
      * destruct l2 as [|b l2]; [done|].
        destruct (Hat2 b) as [_ <-]; [apply elem_of_app; right; left|]. done.
    + intros a Ha. destruct Hlo as [_ Hlf]. rewrite Hlf by (apply Hout; by right).
      apply Hf. rewrite Hs, concat_middle. apply elem_of_app. by right.
    + eapply lseg_frame; [|exact Hfl]. intros a Ha. apply Hlo, Hout. by left.
    + rewrite <- !Permutation_middle. by rewrite El.
    + destruct (ok_pow _ _ _ _ Hok) as (k & Hk & Hpow).
      assert (num_buckets t <= 2 ^ 31) by (rewrite Hpow; apply Z.pow_le_mono_r; lia).
      rewrite wrap_small by (change (2 ^ 32) with (2 * 2 ^ 31); lia).
      rewrite El, !length_app. simpl. lia.
    + rewrite <- Permutation_middle. simpl. apply NoDup_cons. split.
      * rewrite Hde. intros (x & Hx1 & Hx2)%list_elem_of_fmap.
        apply list_elem_of_fmap in Hx2 as (a & -> & Ha).
        rewrite <- El, <- concat_middle, <- Hs in Ha. rewrite Hda in Hx1 by done.
        by apply (Hno a).
      * rewrite <- El, <- concat_middle.
        erewrite (list_fmap_ext (data_at _)); [exact (ok_distinct _ _ _ _ Hok)|].
        intros i b Hbi. apply Hda. rewrite Hs. by eapply list_elem_of_lookup_2.
  - done.
Qed.

Lemma delete_absent t chains fl d c1 l c2 hd :
  table_ok kf t chains fl -> bucket_at t chains d c1 l c2 hd -> d <> 0 ->
  (forall a, a ∈ l -> ~ same_entry kf (bucket_nodes t) d (reverse (hash t d)) a) ->
  mp_hash_table_delete (Some t) d = Some (Some t, -1, []).
Proof using Type.
  intros Hok Hat Hd0 Habs. unfold mp_hash_table_delete, mp_list_delete.
  rewrite (proj2 (Z.eqb_neq d 0)) by done.
  rewrite (at_pos _ _ _ _ _ _ _ Hat). bind_simpl. rewrite (at_head _ _ _ _ _ _ _ Hat).
  bind_simpl. pose proof (chain_list _ _ _ _ _ (at_chain _ _ _ _ _ _ _ Hat)) as Hl.
  rewrite (mp_list_find_absent kf t (ok_keyed _ _ _ _ Hok) d (reverse (hash t d)) l hd);
    [|exact (dlist_lseg _ _ _ Hl)|exact (dlist_fuel _ _ _ Hl)|done].
  bind_simpl. rewrite Z.eqb_refl. bind_simpl. rewrite (at_set _ _ _ _ _ _ _ Hat). bind_simpl.
  rewrite list_insert_id; [by destruct t|].
  pose proof (at_head _ _ _ _ _ _ _ Hat) as Hh. unfold znth in Hh.
  destruct (Z.ltb_spec (Z.of_nat (length c1)) 0); [done|]. by rewrite Nat2Z.id in Hh.
Qed.

Lemma sorted_remove (ns : nodes) l1 a l2 :
  StronglySorted (fun x y => rev_at ns x <= rev_at ns y) (l1 ++ a :: l2) ->
  StronglySorted (fun x y => rev_at ns x <= rev_at ns y) (l1 ++ l2).
Proof using Type.
  induction l1 as [|c l1 IH]; simpl; intros Hs.
  - by apply StronglySorted_inv in Hs as [? _].
  - apply StronglySorted_inv in Hs as [Hs Hc]. constructor; [auto|].
    apply Forall_app in Hc as [? [_ ?]%Forall_cons]. by apply Forall_app.
Qed.

Lemma chain_ok_unsplice t t' i l1 a l2 hd hd' :
  chain_ok t (bucket_nodes t) i hd (l1 ++ a :: l2) ->
  hash t' = hash t -> mask t' = mask t ->
  dlist (bucket_nodes t') hd' (l1 ++ l2) ->
  (forall b, b ∈ l1 ++ l2 -> core <$> bucket_nodes t' !! b = core <$> bucket_nodes t !! b) ->
  chain_ok t' (bucket_nodes t') i hd' (l1 ++ l2).
Proof using K kf.
  intros [Hl He Hs] Hh Hm Hl' Hf.
  assert (forall b, b ∈ l1 ++ l2 -> b ∈ l1 ++ a :: l2) as Hin
    by (intros b; rewrite !elem_of_app, elem_of_cons; tauto).
  split; [done| |].
  - intros b n' Hb Hn'. rewrite Hh, Hm. specialize (Hf b Hb). rewrite Hn' in Hf.
    destruct (bucket_nodes t !! b) as [n''|] eqn:Hn''; [|done].
    injection Hf as -> -> ->. apply (He b); auto.
  - apply (sorted_frame (bucket_nodes t)).
    + intros b Hb. specialize (Hf b Hb). unfold rev_at.
      destruct (bucket_nodes t' !! b), (bucket_nodes t !! b); try discriminate Hf; [|done].
      by injection Hf.
    + by eapply sorted_remove.
Qed.

Lemma chain_delete_present t chains fl d c1 l c2 hd k1 a k2 :
  table_ok kf t chains fl -> bucket_at t chains d c1 l c2 hd ->
  d <> 0 -> l = k1 ++ a :: k2 ->
  same_entry kf (bucket_nodes t) d (reverse (hash t d)) a ->
  (forall b, b ∈ k1 -> rev_at (bucket_nodes t) b <= reverse (hash t d) /\
     ~ same_entry kf (bucket_nodes t) d (reverse (hash t d)) b) ->
  exists t', mp_hash_table_delete (Some t) d =
      Some (Some t', 0, if has_free t then [data_at (bucket_nodes t) a] else []) /\
    table_ok kf t' (c1 ++ (k1 ++ k2) :: c2) (a :: fl) /\
    forall b, b ∈ concat (c1 ++ (k1 ++ k2) :: c2) ->
      data_at (bucket_nodes t') b = data_at (bucket_nodes t) b.
Proof using Type.
  intros Hok Hat Hd0 -> Hse Hb. unfold mp_hash_table_delete.
  rewrite (proj2 (Z.eqb_neq d 0)) by done.
  rewrite (at_pos _ _ _ _ _ _ _ Hat). bind_simpl. rewrite (at_head _ _ _ _ _ _ _ Hat).
  bind_simpl. pose proof (at_chain _ _ _ _ _ _ _ Hat) as Hch.
  pose proof (chain_list _ _ _ _ _ Hch) as Hl. pose proof (dlist_lseg _ _ _ Hl) as Hls.
  pose proof (at_split _ _ _ _ _ _ _ Hat) as Hs.
  destruct (data_at_member t chains fl a Hok) as (n & Hn & Hda & _ & Hane).
  { rewrite Hs, concat_middle, !elem_of_app. left. right. left. }
  destruct (mp_list_delete_unlink t hd k1 a k2 n d (reverse (hash t d)))
    as (ns' & hd' & E & Hdl & Hlo); try done.
  { eapply (mp_list_find_present kf t (ok_keyed _ _ _ _ Hok)); eauto.
    exact (dlist_fuel _ _ _ Hl). }
  rewrite E. bind_simpl. rewrite (at_set _ _ _ _ _ _ _ Hat). bind_simpl.
  rewrite (proj2 (Z.eqb_neq a MP_NULL)) by done.
  cbn [bucket_nodes with_bucket has_free].
  pose proof Hlo as [Hc Hlf].
  destruct (ns' !! a) as [n'|] eqn:Hn';
    [|by apply (f_equal (lookup a)) in Hc; rewrite !lookup_fmap, Hn, Hn' in Hc].
  bind_simpl.
  assert (data n' = data n) as Hdn by (pose proof (at_core _ _ a Hc) as [Ed _];
    unfold data_at in Ed; by rewrite Hn, Hn' in Ed).
  pose proof (ok_nodup _ _ _ _ Hok) as Hnd.
  rewrite Hs, concat_middle, <- (Permutation_middle k1) in Hnd.
  simpl in Hnd. apply NoDup_cons in Hnd as [Ha Hnd]. rewrite !elem_of_app in Ha.
  apply NoDup_app in Hnd as ([_ [Hd1 _]]%NoDup_app & Hd2 & Hnfl).
  set (t2 := with_bucket _ _ _ _).
  assert (forall b, b ∈ fl \/ b ∈ concat c1 ++ concat c2 -> b ∉ k1 ++ a :: k2) as Hout.
  { intros b Hb' Hbk. rewrite <- Permutation_middle in Hbk.
    apply elem_of_cons in Hbk as [->|Hbk].
    - rewrite !elem_of_app in Hb'. tauto.
    - specialize (Hd1 b Hbk). specialize (Hd2 b). rewrite !elem_of_app in *. tauto. }
  destruct (mp_put_free_entry_ok t2 a n' fl) as (ns3 & E3 & Hl3 & Hf3); try done.
  { eapply lseg_frame; [|exact (ok_free _ _ _ _ Hok)]. intros b Hbf. apply Hlf, Hout. by left. }
  { tauto. }
  rewrite E3. bind_simpl. rewrite Hdn, <- Hda.
  assert (forall b, b ∈ concat (c1 ++ (k1 ++ k2) :: c2) -> ns3 !! b = ns' !! b) as Hf4.
  { intros b. rewrite concat_middle. intros Hbk. apply Hf3. intros [->|Hbf]%elem_of_cons.
    - rewrite !elem_of_app in Hbk. tauto.
    - apply (Hd2 b Hbk Hbf). }
  eexists. split; [done|]. split.
  - rewrite Hs in Hok. eapply (chain_table_ok_update kf t _ c1 (k1 ++ a :: k2)); try done;
      cbn [bucket_nodes with_bucket num_elements with_free t2].
    + match goal with |- chain_ok ?t' _ _ _ _ =>
        apply (chain_ok_unsplice t t' _ k1 a k2 hd) end; try done;
        cbn [bucket_nodes with_bucket num_elements with_free t2].
      * eapply dlist_frame; [|exact Hdl]. intros b Hbk. apply Hf4.
        rewrite concat_middle. apply elem_of_app. by left.
      * intros b Hbk. rewrite Hf4 by (rewrite concat_middle; apply elem_of_app; by left).
        apply (f_equal (lookup b)) in Hc. by rewrite !lookup_fmap in Hc.
    + intros b Hbk. rewrite Hf4 by (rewrite concat_middle; apply elem_of_app; by right).
      apply Hlf, Hout. by right.
    + by rewrite <- !Permutation_middle.
    + pose proof (ok_elements _ _ _ _ Hok) as He. pose proof (ok_count _ _ _ _ Hok) as Hcount.
      destruct (ok_pow _ _ _ _ Hok) as (k & Hk & Hpow).
      assert (num_buckets t <= 2 ^ 31) by (rewrite Hpow; apply Z.pow_le_mono_r; lia).
      rewrite concat_middle, !length_app in He. rewrite concat_middle, !length_app in Hcount.
      simpl in *.
      rewrite wrap_small by (change (2 ^ 32) with (2 * 2 ^ 31); lia).
      rewrite !length_app. simpl. lia.
    + pose proof (ok_distinct _ _ _ _ Hok) as Hdd.
      rewrite concat_middle, <- (Permutation_middle k1) in Hdd. simpl in Hdd.
      apply NoDup_cons in Hdd as [_ Hdd].
      erewrite (list_fmap_ext (data_at _)); [exact Hdd|]. intros i b Hbi.
      apply list_elem_of_lookup_2 in Hbi. rewrite <- concat_middle in Hbi.
      unfold data_at. rewrite Hf4 by done. apply (at_core _ _ b Hc).
  - intros b Hbk. cbn [bucket_nodes with_bucket with_free t2].
    unfold data_at. rewrite Hf4 by done. apply (at_core _ _ b Hc).
Qed.

(** ** Each operation against the set *)

Lemma table_rep_length t es :
  table_rep kf t es -> num_elements t = Z.of_nat (length es) /\ num_buckets t < 2 ^ 32.
Proof using Type.
  intros (chains & fl & Hok & ->). rewrite length_fmap. split; [apply (ok_elements _ _ _ _ Hok)|].
  destruct (ok_pow _ _ _ _ Hok) as (k & Hk & ->). apply Z.pow_lt_mono_r; lia.
Qed.

Lemma mp_hash_table_insert_spec t es d :
  table_rep kf t es ->
  exists t', mp_hash_table_insert (Some t) d = Some (Some t', (set_insert (num_buckets t) es d).2) /\
    table_rep kf t' (set_insert (num_buckets t) es d).1.
Proof using Type.
  intros Hrep. pose proof (table_rep_length _ _ Hrep) as [Hlen Hb32].
  unfold set_insert. destruct (decide (d = 0)) as [->|Hd0].
  { exists t. rewrite decide_True by auto. done. }
  destruct (decide (num_buckets t <= Z.of_nat (length es))) as [Hfull|Hroom].
  { exists t. rewrite decide_True by auto. unfold mp_hash_table_insert.
    rewrite (proj2 (Z.eqb_neq d 0)) by done.
    destruct (Z.geb_spec (num_elements t) (num_buckets t)); [done|lia]. }
  destruct Hrep as (chains & fl & Hok & Hes).
  destruct (chain_bucket_at_exists kf t chains fl d Hok) as (c1 & l & c2 & hd & Hat).
  pose proof (ok_elements _ _ _ _ Hok) as Hel. pose proof (ok_count _ _ _ _ Hok) as Hcount.
  rewrite length_app in Hcount. destruct fl as [|e fl]; [simpl in *; lia|].
  destruct (chain_search_cases kf _ _ _ d _ _ _ _ Hok Hat)
    as [[Habs Hno]|(k1 & a & k2 & Hl & Hse & Hb)].
  - rewrite decide_False.
    2:{ intros [?|[?|(x & Hx & Hk)%Exists_exists]]; [done..|].
        rewrite Hes in Hx. apply list_elem_of_fmap in Hx as (a & -> & Ha). by apply (Hno a). }
    destruct (insert_absent t chains e fl d c1 l c2 hd)
      as (t' & l' & E & Hok' & Hl' & Hde & Hda); try done; [lia|].
    exists t'. split; [done|]. exists (c1 ++ l' :: c2), fl. split; [done|]. simpl.
    rewrite concat_middle, Hl'. simpl. rewrite Hde. f_equiv.
    rewrite Hes, (at_split _ _ _ _ _ _ _ Hat), concat_middle.
    erewrite (list_fmap_ext (data_at (bucket_nodes t'))); [done|]. intros i b Hbi.
    apply Hda. rewrite (at_split _ _ _ _ _ _ _ Hat), concat_middle.
    by eapply list_elem_of_lookup_2.
  - assert (a ∈ concat chains) as Ha.
    { rewrite (at_split _ _ _ _ _ _ _ Hat), concat_middle, Hl, !elem_of_app. left. right. left. }
    rewrite decide_True.
    2:{ right. right. apply Exists_exists. exists (data_at (bucket_nodes t) a). split.
        - rewrite Hes. by apply list_elem_of_fmap_2.
        - apply Hse. }
    destruct (insert_present t chains e fl d c1 l c2 hd k1 a k2)
      as (t' & E & Hok' & Hda); try done; [lia|].
    exists t'. split; [done|]. exists chains, (e :: fl). split; [done|]. simpl. rewrite Hes.
    erewrite (list_fmap_ext (data_at (bucket_nodes t'))); [done|]. intros i b Hbi.
    apply at_frame, Hda. by eapply list_elem_of_lookup_2.
Qed.

Lemma mp_hash_table_delete_spec t es d :
  table_rep kf t es ->
  exists t', mp_hash_table_delete (Some t) d =
      Some (Some t', (set_delete es d).1.2, if has_free t then (set_delete es d).2 else []) /\
    table_rep kf t' (set_delete es d).1.1.
Proof using Type.
  intros Hrep. pose proof (table_rep_distinct _ _ Hrep) as Hnd.
  unfold set_delete. destruct (decide (d = 0)) as [->|Hd0].
  { exists t. rewrite decide_True by auto. by destruct (has_free t). }
  pose proof Hrep as (chains & fl & Hok & Hes).
  destruct (chain_bucket_at_exists kf t chains fl d Hok) as (c1 & l & c2 & hd & Hat).
  destruct (chain_search_cases kf _ _ _ d _ _ _ _ Hok Hat)
    as [[Habs Hno]|(k1 & a & k2 & Hl & Hse & Hb)].
  - rewrite decide_True.
    2:{ right. apply Forall_forall. intros x Hx. rewrite Hes in Hx.
        apply list_elem_of_fmap in Hx as (a & -> & Ha). by apply Hno. }
    exists t. erewrite (delete_absent t) by done. by destruct (has_free t).
  - assert (a ∈ concat chains) as Ha.
    { rewrite (at_split _ _ _ _ _ _ _ Hat), concat_middle, Hl, !elem_of_app. left. right. left. }
    pose proof Hse as [_ Hkf].
    assert (data_at (bucket_nodes t) a ∈ es) as Hin by (rewrite Hes; by apply list_elem_of_fmap_2).
    rewrite decide_False.
    2:{ intros [?|Hf]; [done|]. rewrite Forall_forall in Hf. by apply (Hf _ Hin). }
    destruct (chain_delete_present t chains fl d c1 l c2 hd k1 a k2)
      as (t' & E & Hok' & Hda); try done.
    exists t'. simpl. rewrite (present_unique es d (data_at (bucket_nodes t) a)) by done.
    split; [done|]. eexists _, _. split; [done|].
    erewrite (list_fmap_ext (data_at (bucket_nodes t')));
      [|intros i b Hbi; apply Hda; by eapply list_elem_of_lookup_2].
    assert (es ≡ₚ data_at (bucket_nodes t) a :: (data_at (bucket_nodes t) <$>
      concat (c1 ++ (k1 ++ k2) :: c2))) as HP.
    { rewrite Hes, (at_split _ _ _ _ _ _ _ Hat), Hl, !concat_middle, <- (Permutation_middle k1).
      done. }
    rewrite HP. rewrite filter_cons_False by (intros Hn; by apply Hn).
    rewrite HP in Hnd. simpl in Hnd. apply NoDup_cons in Hnd as [Hna _].
    rewrite filter_all; [done|]. apply Forall_forall. intros x Hx Hk.
    apply Hna. rewrite <- Hkf. unfold same_key in Hk. rewrite Hk. by apply list_elem_of_fmap_2.
Qed.
End operations.

(** * Creation *)

Lemma calloc_nodes_lookup n i :
  0 <= i < Z.of_nat n -> calloc_nodes n !! i = Some (MpEntry MP_NULL MP_NULL 0 0 0).
Proof.
  induction n as [|n IH]; [lia|]. intros Hi. cbn [calloc_nodes].
  destruct (decide (Z.of_nat n = i)) as [->|Hne]; [apply lookup_insert_eq|].
  rewrite lookup_insert_ne by done. apply IH. lia.
Qed.

Lemma thread_nodes_spec count : forall i ns,
  (forall j, i <= j <= i + Z.of_nat count -> is_Some (ns !! j)) ->
  exists ns', thread_nodes count i ns = Some ns' /\
    forall j, enext <$> ns' !! j =
      if decide (i <= j < i + Z.of_nat count) then Some (j + 1) else enext <$> ns !! j.
Proof.
  induction count as [|count IH]; intros i ns Hns.
  { exists ns. split; [done|]. intros j. rewrite decide_False by lia. done. }
  destruct (Hns i) as [n Hn]; [lia|]. destruct (Hns (i + 1)) as [m Hm]; [lia|].
  cbn [thread_nodes]. rewrite (st_next_ok _ _ _ n) by done. bind_simpl.
  rewrite (st_prev_ok _ _ _ m) by (by rewrite lookup_insert_ne by lia). bind_simpl.
  destruct (IH (i + 1) (<[i + 1 := set_prev i m]> (<[i := set_next (i + 1) n]> ns)))
    as (ns' & E & Hns').
  { intros j Hj. rewrite !lookup_insert. repeat case_decide; eauto. apply Hns. lia. }
  exists ns'. split; [done|]. intros j. rewrite Hns', !lookup_insert.
  repeat case_decide; subst; try lia; simpl; rewrite ?Hn, ?Hm; try done; f_equal; lia.
Qed.

Lemma lseg_range (ns : nodes) : forall count i,
  0 <= i ->
  (forall j, i <= j < i + Z.of_nat count -> enext <$> ns !! j = Some (j + 1)) ->
  enext <$> ns !! (i + Z.of_nat count) = Some MP_NULL ->
  lseg ns i (seqZ i (Z.of_nat (S count))) MP_NULL.
Proof.
  induction count as [|count IH]; intros i Hi Hns Hlast.
  - rewrite Z.add_0_r in Hlast. destruct (ns !! i) as [n|] eqn:Hn; [|done].
    rewrite seqZ_cons by lia. rewrite seqZ_nil by lia. split; [done|].
    split; [simpl; unfold MP_NULL; lia|]. exists n. by injection Hlast as Hlast.
  - pose proof (Hns i ltac:(lia)) as Hi'. destruct (ns !! i) as [n|] eqn:Hn; [|done].
    rewrite seqZ_cons by lia. split; [done|]. split; [simpl; unfold MP_NULL; lia|].
    exists n. split; [done|]. injection Hi' as Hi'. simpl (next_of n). rewrite Hi'.
    replace (Z.pred (Z.of_nat (S (S count)))) with (Z.of_nat (S count)) by lia.
    replace (Z.succ i) with (i + 1) by lia. apply IH; [lia| |].
    + intros j Hj. apply Hns. lia.
    + rewrite <- Hlast. do 2 f_equal. lia.
Qed.

Definition call_ok {K} (kf : Z -> K) (h : Z -> Z) (c : Z -> Z -> Z) : Prop :=
  (forall a b, c a b = 0 <-> kf a = kf b) /\ (forall a b, kf a = kf b -> h a = h b) /\
  (forall a, 0 <= h a < 2 ^ 32).

(** [mp_hash_table_create] makes an empty table whose number of buckets is the least power
    of two that is at least the size asked for. *)
Lemma mp_hash_table_create_spec {K} (kf : Z -> K) h c f size :
  call_ok kf h c -> 2 <= size <= 2 ^ 31 ->
  exists t, mp_hash_table_create (true, true, true) h (Some c) f size = Some (Some t) /\
    table_rep kf t [] /\ has_free t = f /\ size <= num_buckets t < 2 * size.
Proof.
  intros (Hc & Hh & Hr) Hsize. unfold mp_hash_table_create.
  rewrite (proj2 (Z.eqb_neq size 0)) by lia.
  assert (exists k, 0 < k < 32 /\ size <= 2 ^ k < 2 * size /\
    (if is_power_of_2 size then Some size else double_until 33 1 size) = Some (2 ^ k))
    as (k & Hk & Hb & E).
  { destruct (is_power_of_2 size) eqn:Ep.
    - apply is_power_of_2_true in Ep as (k & Hk & ->); [|lia]. exists k.
      split; [|split; [lia|done]]. assert (k <> 0); [|lia]. intros ->. change (2 ^ 0) with 1 in *. lia.
    - destruct (double_until_spec size 33 0) as (k & Hk & E & Hb); try lia. exists k.
      split; [|split; [lia|done]]. assert (k <> 0); [|lia]. intros ->. change (2 ^ 0) with 1 in *. lia. }
  rewrite E. bind_simpl.
  assert (2 ^ k <= 2 ^ 31) by (apply Z.pow_le_mono_r; lia).
  set (n := 2 ^ k) in *.
  destruct (thread_nodes_spec (Z.to_nat (n - 1)) 0 (calloc_nodes (Z.to_nat n)))
    as (ns & En & Hns).
  { intros j Hj. rewrite calloc_nodes_lookup by lia. done. }
  rewrite En. bind_simpl. eexists. split; [done|].
  split; [|split; [done|simpl; lia]].
  exists (replicate (Z.to_nat n) []), (seqZ 0 n).
  pose proof (concat_replicate_nil (A := Z) (Z.to_nat n)) as Hcat.
  split; [|rewrite Hcat; constructor].
  split; simpl; rewrite ?Hcat; try done.
  - split; simpl; eauto.
  - eauto.
  - rewrite length_replicate. lia.
  - by rewrite !length_replicate.
  - intros i hd l [-> _]%lookup_replicate_1 [-> _]%lookup_replicate_1. split.
    + by exists MP_NULL.
    + intros a m []%elem_of_nil.
    + constructor.
  - replace n with (Z.of_nat (S (Z.to_nat (n - 1)))) by lia. apply lseg_range; [lia| |].
    + intros j Hj. rewrite Hns, decide_True by lia. done.
    + rewrite Hns, decide_False, calloc_nodes_lookup by lia. done.
  - apply NoDup_seqZ.
  - rewrite app_nil_l, length_seqZ. lia.
  - constructor.
Qed.

(** A table of one bucket has mask 0: its first use divides by zero. *)
Lemma mp_hash_table_one_bucket allocs h c f t d :
  mp_hash_table_create allocs h c f 1 = Some (Some t) -> d <> 0 ->
  mp_hash_table_insert (Some t) d = None /\ mp_hash_table_find (Some t) d = None /\
  mp_hash_table_delete (Some t) d = None.
Proof.
  intros E Hd. unfold mp_hash_table_create in E. change (is_power_of_2 1) with true in E.
  simpl in E. repeat case_match; try discriminate E. injection E as <-.
  unfold mp_hash_table_insert, mp_hash_table_find, mp_hash_table_delete. simpl.
  by rewrite (proj2 (Z.eqb_neq d 0)).
Qed.

(** * Any sequence of calls *)

Inductive mp_call := Insert (d : Z) | Delete (d : Z) | Find (d : Z).

(** Each call's result, and the data [ht->free] was called on. *)
Fixpoint run (ht : option mp_hash_table) (cs : list mp_call)
    : option (option mp_hash_table * list Z * list Z) :=
  match cs with
  | [] => Some (ht, [], [])
  | Insert d :: cs =>
      '(ht, r) ← mp_hash_table_insert ht d;
      '(ht, rs, fs) ← run ht cs; Some (ht, r :: rs, fs)
  | Delete d :: cs =>
      '(ht, r, fs) ← mp_hash_table_delete ht d;
      '(ht, rs, fs') ← run ht cs; Some (ht, r :: rs, fs ++ fs')
  | Find d :: cs =>
      r ← mp_hash_table_find ht d;
      '(ht, rs, fs) ← run ht cs; Some (ht, r :: rs, fs)
  end.

Section runs.
Context {K : Type} `{EqDecision K} (kf : Z -> K).

(** The same calls on the set of at most [cap] data. *)
Fixpoint set_run (cap : Z) (es : list Z) (cs : list mp_call) : list Z * list Z * list Z :=
  match cs with
  | [] => (es, [], [])
  | Insert d :: cs =>
      let '(es, r) := set_insert kf cap es d in
      let '(es, rs, fs) := set_run cap es cs in (es, r :: rs, fs)
  | Delete d :: cs =>
      let '(es, r, fs) := set_delete kf es d in
      let '(es, rs, fs') := set_run cap es cs in (es, r :: rs, fs ++ fs')
  | Find d :: cs =>
      let '(es', rs, fs) := set_run cap es cs in
      (es', (if d =? 0 then 0 else set_find kf es d) :: rs, fs)
  end.

Lemma run_refines cs : forall t es,
  table_rep kf t es ->
  exists t', run (Some t) cs = Some (Some t', (set_run (num_buckets t) es cs).1.2,
      if has_free t then (set_run (num_buckets t) es cs).2 else []) /\
    table_rep kf t' (set_run (num_buckets t) es cs).1.1.
Proof using Type.
  induction cs as [|[d|d|d] cs IH]; intros t es Hrep; cbn [run set_run].
  - exists t. by destruct (has_free t).
  - destruct (mp_hash_table_insert_spec kf t es d Hrep) as (t1 & E & Hrep1). rewrite E. bind_simpl.
    destruct (insert_config _ _ _ _ E) as [Hn Hf]. destruct (set_insert _ _ _ _) as [es1 r].
    destruct (IH t1 es1 Hrep1) as (t' & E' & Hrep'). rewrite E', Hf, Hn in *. bind_simpl.
    exists t'. by destruct (set_run _ es1 cs) as [[? ?] ?].
  - destruct (mp_hash_table_delete_spec kf t es d Hrep) as (t1 & E & Hrep1). rewrite E. bind_simpl.
    destruct (delete_config _ _ _ _ _ E) as [Hn Hf]. destruct (set_delete _ _ _) as [[es1 r] fr].
    destruct (IH t1 es1 Hrep1) as (t' & E' & Hrep'). rewrite E', Hf, Hn in *. bind_simpl.
    exists t'. destruct (set_run _ es1 cs) as [[? ?] ?]. by destruct (has_free t).
  - rewrite (mp_hash_table_find_spec kf t es d Hrep). bind_simpl.
    destruct (IH t es Hrep) as (t' & E' & Hrep'). rewrite E'. bind_simpl.
    exists t'. by destruct (set_run _ es cs) as [[? ?] ?].
Qed.

(** C9. The hash table refines a bounded set: from a table made for [size] data, at least two
    (with one bucket inserting crashes, see below), with callbacks that agree on what a key is, every sequence of insertions, deletions and
    searches runs to its end without a bad pointer access, each call returns what the set
    returns, and [ht->free] is called on exactly the data deleted. Insertion fails only on
    a null datum, a duplicate key or a table already holding as many data as buckets. *)
Theorem mp_hash_table_refines_set h c f size cs :
  call_ok kf h c -> 2 <= size <= 2 ^ 31 ->
  exists t t',
    mp_hash_table_create (true, true, true) h (Some c) f size = Some (Some t) /\
    size <= num_buckets t < 2 * size /\
    run (Some t) cs = Some (Some t', (set_run (num_buckets t) [] cs).1.2,
      if f then (set_run (num_buckets t) [] cs).2 else []) /\
    table_rep kf t' (set_run (num_buckets t) [] cs).1.1.
Proof using Type.
  intros Hcall Hsize.
  destruct (mp_hash_table_create_spec kf h c f size Hcall Hsize) as (t & E & Hrep & <- & Hb).
  destruct (run_refines cs t [] Hrep) as (t' & E' & Hrep'). by exists t, t'.
Qed.
End runs.

(** The table with one bucket, which [mp_hash_table_create] makes when asked for size
    1, is unusable: its mask is 0 and every operation on a datum divides by it. *)
Theorem one_bucket_divides_by_zero h c f d :
  d <> 0 ->
  exists t, mp_hash_table_create (true, true, true) h c f 1 = Some (Some t) /\
    mp_hash_table_insert (Some t) d = None /\ mp_hash_table_find (Some t) d = None /\
    mp_hash_table_delete (Some t) d = None.
Proof.
  intros Hd. eexists. split; [reflexivity|].
  by apply (mp_hash_table_one_bucket (true, true, true) h c f).
Qed.

(** Asked for more than 2^31 buckets (and not for a power of two),
    [mp_hash_table_create] never returns: the 32-bit size it doubles wraps around to 0. *)
Theorem create_diverges allocs h c f size :
  2 ^ 31 < size < 2 ^ 32 -> mp_hash_table_create allocs h c f size = None.
Proof.
  intros Hs. unfold mp_hash_table_create. rewrite (proj2 (Z.eqb_neq size 0)) by lia.
  destruct (is_power_of_2 size) eqn:E.
  - apply is_power_of_2_true in E as (k & Hk & ->); [|lia].
    assert (2 ^ k <= 2 ^ 31) by (apply Z.pow_le_mono_r; lia). lia.
  - by rewrite double_until_diverges.
Qed.

(** ** Witnesses *)

Lemma test_callbacks_ok : call_ok (fun a => a) (fun a => a mod 2 ^ 32) Z.sub.
Proof.
  split; [|split]; intros; try lia; [congruence|]. by apply Z.mod_pos_bound.
Qed.

Lemma mp_hash_table_refines_set_witness :
  exists t t',
    mp_hash_table_create (true, true, true) (fun a => a mod 2 ^ 32) (Some Z.sub) true 3
      = Some (Some t) /\
    3 <= num_buckets t < 2 * 3 /\
    run (Some t) [Insert 8; Insert 5; Insert 8; Find 5; Delete 8; Find 8; Delete 9] =
      Some (Some t', (set_run (fun a => a) (num_buckets t) []
        [Insert 8; Insert 5; Insert 8; Find 5; Delete 8; Find 8; Delete 9]).1.2,
        (set_run (fun a => a) (num_buckets t) []
        [Insert 8; Insert 5; Insert 8; Find 5; Delete 8; Find 8; Delete 9]).2) /\
    table_rep (fun a => a) t' (set_run (fun a => a) (num_buckets t) []
        [Insert 8; Insert 5; Insert 8; Find 5; Delete 8; Find 8; Delete 9]).1.1.
Proof.
  exact (mp_hash_table_refines_set (fun a => a) (fun a => a mod 2 ^ 32) Z.sub true 3
    [Insert 8; Insert 5; Insert 8; Find 5; Delete 8; Find 8; Delete 9]
    test_callbacks_ok ltac:(lia)).
Defined.

Lemma one_bucket_divides_by_zero_witness :
  exists t, mp_hash_table_create (true, true, true) (fun a => a) None false 1 = Some (Some t) /\
    mp_hash_table_insert (Some t) 7 = None /\ mp_hash_table_find (Some t) 7 = None /\
    mp_hash_table_delete (Some t) 7 = None.
Proof. exact (one_bucket_divides_by_zero (fun a => a) None false 7 ltac:(lia)). Defined.

Lemma create_diverges_witness :
  mp_hash_table_create (true, true, true) (fun a => a) None false (2 ^ 31 + 1) = None.
Proof. exact (create_diverges (true, true, true) (fun a => a) None false (2 ^ 31 + 1) ltac:(lia)). Defined.

Example set_run_example :
  set_run (fun a => a) 4 []
    [Insert 8; Insert 5; Insert 8; Find 5; Delete 8; Find 8; Delete 9]
  = ([5], [0; 0; -1; 5; 0; 0; -1], [8]).
Proof. reflexivity. Qed.
