(* ===== verification/Dict.v ===== *)
(** The dictionary of src/demo_dict/dict.c and dict.h: buckets of singly linked entries.

    Entries live in a store from addresses ([0] is the null pointer); keys, values and the
    private datum are the words the caller hands in. The function pointers of [dictType]
    are a record of functions, [None] where the pointer may be null; a destructor only
    leaves a trace in the log of events. [malloc] and [calloc] succeed (their result is
    never tested). *)

From S2P Require Import Prelude Linked Heap.

(* src/demo_dict/dict.h:47-56 dictEntry *)
Record dictEntry := DictEntry { ekey : Z; val : Z; enext : Z }.

Abbreviation store := (gmap Z dictEntry).

#[export] Instance dict_next : Next Z dictEntry := {|
  null := 0; next_of := enext; set_next v n := DictEntry (ekey n) (val n) v |}.

(* src/demo_dict/dict.h:58-65 dictType *)
Record dictType := DictType {
  hashFunction : Z -> Z;
  keyDup : option (Z -> Z -> Z);
  valDup : option (Z -> Z -> Z);
  keyCompare : option (Z -> Z -> Z -> Z);
  keyDestructor : bool;
  valDestructor : bool;
}.

(** [table] is [None] for the null pointer. *)
(* src/demo_dict/dict.h:69-74 dictht *)
Record dictht := Dictht { table : option (list Z); size : Z; sizemask : Z; used : Z }.

(* src/demo_dict/dict.h:76-80 dict *)
Record dict := Dict { type : dictType; privdata : Z; ht : dictht }.

(* src/demo_dict/dict.h:86-93 dictIterator *)
Record dictIterator := DictIterator { index : Z; entry : Z; nextEntry : Z }.

(** The calls to destructors and to the callback of [_dictClear]. *)
Inductive event := FreeKey (p k : Z) | FreeVal (p v : Z) | Callback (p : Z).

Definition DICT_OK : Z := 0.
Definition DICT_ERR : Z := 1.
(* src/demo_dict/dict.h:98-98 DICT_HT_INITIAL_SIZE *)
Definition DICT_HT_INITIAL_SIZE : Z := 4.
(* src/demo_dict/dict.c:59-59 dict_force_resize_ratio *)
Definition dict_force_resize_ratio : Z := 5.

(** ** The macros of dict.h *)

(* src/demo_dict/dict.h:101-103 dictFreeVal *)
Definition dictFreeVal (d : dict) (e : dictEntry) : list event :=
  if valDestructor (type d) then [FreeVal (privdata d) (val e)] else [].

(* src/demo_dict/dict.h:105-110 dictSetVal *)
Definition dictSetVal (d : dict) (h : store) (a v : Z) : option store :=
  e ← h !! a;
  let v := match valDup (type d) with Some f => f (privdata d) v | None => v end in
  Some (<[a := DictEntry (ekey e) v (enext e)]> h).

(* src/demo_dict/dict.h:121-123 dictFreeKey *)
Definition dictFreeKey (d : dict) (e : dictEntry) : list event :=
  if keyDestructor (type d) then [FreeKey (privdata d) (ekey e)] else [].

(* src/demo_dict/dict.h:125-130 dictSetKey *)
Definition dictSetKey (d : dict) (h : store) (a k : Z) : option store :=
  e ← h !! a;
  let k := match keyDup (type d) with Some f => f (privdata d) k | None => k end in
  Some (<[a := DictEntry k (val e) (enext e)]> h).

(* src/demo_dict/dict.h:132-135 dictCompareKeys *)
Definition dictCompareKeys (d : dict) (k1 k2 : Z) : bool :=
  match keyCompare (type d) with
  | Some f => negb (f (privdata d) k1 k2 =? 0)
  | None => k1 =? k2
  end.

(* src/demo_dict/dict.h:137-137 dictHashKey *)
Definition dictHashKey (d : dict) (k : Z) : Z := hashFunction (type d) k.

(** ** Creation and sizing *)

(* src/demo_dict/dict.c:159-165 _dictReset *)
Definition _dictReset : dictht := Dictht None 0 0 0.

(* src/demo_dict/dict.c:178-185 _dictInit *)
Definition _dictInit (t : dictType) (privDataPtr : Z) : dict := Dict t privDataPtr _dictReset.

(* src/demo_dict/dict.c:168-175 dictCreate *)
Definition dictCreate (t : dictType) (privDataPtr : Z) : dict := _dictInit t privDataPtr.

(** [while(1) { if (i >= size) return i; i *= 2; }] *)
(* src/demo_dict/dict.c:475-479 _dictNextPower *)
Fixpoint next_power (fuel : nat) (i sz : Z) : option Z :=
  match fuel with
  | O => None
  | S fuel => if i >=? sz then Some i else next_power fuel (u64 (i * 2)) sz
  end.

(* src/demo_dict/dict.c:470-480 _dictNextPower *)
Definition _dictNextPower (sz : Z) : option Z :=
  if sz >=? LONG_MAX then Some LONG_MAX else next_power 64 DICT_HT_INITIAL_SIZE sz.

(** The new table [n] is stored only if the dictionary has none. *)
(* src/demo_dict/dict.c:200-223 dictExpand *)
Definition dictExpand (d : dict) (sz : Z) : option (dict * Z) :=
  realsize ← _dictNextPower sz;
  if used (ht d) >? sz then Some (d, DICT_ERR) else
  let n := Dictht (Some (replicate (Z.to_nat realsize) 0)) realsize (u64 (realsize - 1)) 0 in
  match table (ht d) with
  | None => Some (Dict (type d) (privdata d) n, DICT_OK)
  | Some _ => Some (d, DICT_OK)
  end.

(* src/demo_dict/dict.c:189-197 dictResize *)
Definition dictResize (d : dict) : option (dict * Z) :=
  let minimal := i32 (used (ht d)) in
  let minimal := if minimal <? DICT_HT_INITIAL_SIZE then DICT_HT_INITIAL_SIZE else minimal in
  dictExpand d (u64 minimal).

(* src/demo_dict/dict.c:452-467 _dictExpandIfNeeded *)
Definition _dictExpandIfNeeded (d : dict) : option (dict * Z) :=
  if size (ht d) =? 0 then dictExpand d DICT_HT_INITIAL_SIZE else
  if (used (ht d) >=? size (ht d)) && (used (ht d) / size (ht d) >? dict_force_resize_ratio)
  then dictExpand d (u64 (used (ht d) * 2))
  else Some (d, DICT_OK).

(** ** Lookup *)

Definition chain_fuel (h : store) : nat := S (base.size h).

(** [while (he) { if (dictCompareKeys(d, key, he->key)) return he; he = he->next; }] *)
(* src/demo_dict/dict.c:394-398 dictFind *)
Fixpoint search (fuel : nat) (h : store) (d : dict) (k he : Z) : option Z :=
  match fuel with
  | O => None
  | S fuel =>
      if he =? 0 then Some 0 else
      e ← h !! he;
      if dictCompareKeys d k (ekey e) then Some he else search fuel h d k (enext e)
  end.

Definition bucket (d : dict) (idx : Z) : option Z := t ← table (ht d); znth t idx.

(* src/demo_dict/dict.c:385-400 dictFind *)
Definition dictFind (h : store) (d : dict) (k : Z) : option Z :=
  if size (ht d) =? 0 then Some 0 else
  let idx := Z.land (dictHashKey d k) (sizemask (ht d)) in
  he ← bucket d idx;
  search (chain_fuel h) h d k he.

(* src/demo_dict/dict.c:402-407 dictFetchValue *)
Definition dictFetchValue (h : store) (d : dict) (k : Z) : option Z :=
  he ← dictFind h d k;
  if he =? 0 then Some 0 else e ← h !! he; Some (val e).

(** The index is an [int]: -1 also stands for "already there". *)
(* src/demo_dict/dict.c:488-507 _dictKeyIndex *)
Definition _dictKeyIndex (h : store) (d : dict) (k : Z) : option (dict * Z) :=
  '(d, rc) ← _dictExpandIfNeeded d;
  if rc =? DICT_ERR then Some (d, -1) else
  let idx := Z.land (dictHashKey d k) (sizemask (ht d)) in
  he ← bucket d idx;
  found ← search (chain_fuel h) h d k he;
  if found =? 0 then Some (d, i32 idx) else Some (d, -1).

(** ** Insertion *)

(** [d->ht.table[idx] = a] and [d->ht.used = u] *)
Definition set_bucket (d : dict) (idx a : Z) : option dict :=
  t ← table (ht d);
  t ← zset t idx a;
  Some (Dict (type d) (privdata d) (Dictht (Some t) (size (ht d)) (sizemask (ht d)) (used (ht d)))).

Definition set_used (d : dict) (u : Z) : dict :=
  Dict (type d) (privdata d) (Dictht (table (ht d)) (size (ht d)) (sizemask (ht d)) u).

Section insertion.
Context `{Allocator dictEntry}.

(** The value of the new entry is what [malloc] left there. *)
(* src/demo_dict/dict.c:250-270 dictAddRaw *)
Definition dictAddRaw (h : store) (d : dict) (k : Z) : option (store * dict * Z) :=
  '(d, idx) ← _dictKeyIndex h d k;
  if idx =? -1 then Some (h, d, 0) else
  let entry := malloc h in
  hd ← bucket d idx;
  let h := <[entry := DictEntry 0 0 hd]> h in
  d ← set_bucket d idx entry;
  let d := set_used d (u64 (used (ht d) + 1)) in
  h ← dictSetKey d h entry k;
  Some (h, d, entry).

(* src/demo_dict/dict.c:226-233 dictAdd *)
Definition dictAdd (h : store) (d : dict) (k v : Z) : option (store * dict * Z) :=
  '(h, d, entry) ← dictAddRaw h d k;
  if entry =? 0 then Some (h, d, DICT_ERR) else
  h ← dictSetVal d h entry v;
  Some (h, d, DICT_OK).

(* src/demo_dict/dict.c:276-295 dictReplace *)
Definition dictReplace (h : store) (d : dict) (k v : Z) : option (store * dict * Z * list event) :=
  '(h, d, rc) ← dictAdd h d k v;
  if rc =? DICT_OK then Some (h, d, 1, []) else
  entry ← dictFind h d k;
  auxentry ← h !! entry;
  h ← dictSetVal d h entry v;
  Some (h, d, 0, dictFreeVal d auxentry).

(* src/demo_dict/dict.c:303-307 dictReplaceRaw *)
Definition dictReplaceRaw (h : store) (d : dict) (k : Z) : option (store * dict * Z) :=
  entry ← dictFind h d k;
  if negb (entry =? 0) then Some (h, d, entry) else dictAddRaw h d k.
End insertion.

(** ** Deletion *)

(** The loop of [dictGenericDelete]: the entry found and the one before it. *)
(* src/demo_dict/dict.c:321-338 dictGenericDelete *)
Fixpoint search_prev (fuel : nat) (h : store) (d : dict) (k prevHe he : Z) : option (Z * Z) :=
  match fuel with
  | O => None
  | S fuel =>
      if he =? 0 then Some (prevHe, 0) else
      e ← h !! he;
      if dictCompareKeys d k (ekey e) then Some (prevHe, he)
      else search_prev fuel h d k he (enext e)
  end.

(* src/demo_dict/dict.c:310-341 dictGenericDelete *)
Definition dictGenericDelete (h : store) (d : dict) (k : Z) (nofree : bool)
    : option (store * dict * Z * list event) :=
  if size (ht d) =? 0 then Some (h, d, DICT_ERR, []) else
  let idx := Z.land (dictHashKey d k) (sizemask (ht d)) in
  hd ← bucket d idx;
  '(prevHe, he) ← search_prev (chain_fuel h) h d k 0 hd;
  if he =? 0 then Some (h, d, DICT_ERR, []) else
  e ← h !! he;
  '(h, d) ←
    (if negb (prevHe =? 0) then
       h ← st_next h prevHe (enext e); Some (h, d)
     else d ← set_bucket d idx (enext e); Some (h, d));
  let ev := if nofree then [] else dictFreeKey d e ++ dictFreeVal d e in
  let h := delete he h in
  Some (h, set_used d (u64 (used (ht d) - 1)), DICT_OK, ev).

(* src/demo_dict/dict.c:343-345 dictDelete *)
Definition dictDelete (h : store) (d : dict) (k : Z) := dictGenericDelete h d k false.

(* src/demo_dict/dict.c:347-349 dictDeleteNoFree *)
Definition dictDeleteNoFree (h : store) (d : dict) (k : Z) := dictGenericDelete h d k true.

(** ** Emptying *)

(** The inner loop of [_dictClear] over one bucket. *)
(* src/demo_dict/dict.c:362-369 _dictClear *)
Fixpoint clear_chain (fuel : nat) (h : store) (d : dict) (he us : Z)
    : option (store * Z * list event) :=
  match fuel with
  | O => None
  | S fuel =>
      if he =? 0 then Some (h, us, []) else
      e ← h !! he;
      '(h, us, ev) ← clear_chain fuel (delete he h) d (enext e) (u64 (us - 1));
      Some (h, us, dictFreeKey d e ++ dictFreeVal d e ++ ev)
  end.

(** [for (i = 0; i < ht->size && ht->used > 0; i++)] over the buckets from the [i]-th on;
    the count of buckets left stands for the test against the size. *)
(* src/demo_dict/dict.c:356-370 _dictClear *)
Fixpoint clear_buckets (h : store) (d : dict) (callback : bool) (i : Z) (t : list Z) (us : Z)
    : option (store * list event) :=
  match t with
  | [] => Some (h, [])
  | he :: t =>
      if us >? 0 then
        let cb := if callback && (Z.land i 65535 =? 0) then [Callback (privdata d)] else [] in
        '(h, us, ev) ← clear_chain (chain_fuel h) h d he us;
        '(h, ev') ← clear_buckets h d callback (i + 1) t us;
        Some (h, cb ++ ev ++ ev')
      else Some (h, [])
  end.

(* src/demo_dict/dict.c:352-376 _dictClear *)
Definition _dictClear (h : store) (d : dict) (callback : bool) : option (store * dict * list event) :=
  '(h, ev) ← (match table (ht d) with
              | Some t => clear_buckets h d callback 0 t (used (ht d))
              | None => Some (h, [])
              end);
  Some (h, Dict (type d) (privdata d) _dictReset, ev).

(** The dictionary itself is freed. *)
(* src/demo_dict/dict.c:379-383 dictRelease *)
Definition dictRelease (h : store) (d : dict) : option (store * list event) :=
  '(h, _, ev) ← _dictClear h d false; Some (h, ev).

(* src/demo_dict/dict.c:509-511 dictEmpty *)
Definition dictEmpty (h : store) (d : dict) (callback : bool) := _dictClear h d callback.

(** ** Iteration *)

(* src/demo_dict/dict.c:409-419 dictGetIterator *)
Definition dictGetIterator : dictIterator := DictIterator (-1) 0 0.

(** One turn of the loop per bucket at most, and one for the entry. *)
(* src/demo_dict/dict.c:423-440 dictNext *)
Fixpoint next_loop (fuel : nat) (h : store) (d : dict) (iter : dictIterator)
    : option (dictIterator * Z) :=
  match fuel with
  | O => None
  | S fuel =>
      if entry iter =? 0 then
        let i := index iter + 1 in
        if i >=? size (ht d) then Some (DictIterator i (entry iter) (nextEntry iter), 0) else
        a ← bucket d i;
        if a =? 0 then next_loop fuel h d (DictIterator i a (nextEntry iter)) else
        e ← h !! a;
        Some (DictIterator i a (enext e), a)
      else
        let a := nextEntry iter in
        if a =? 0 then next_loop fuel h d (DictIterator (index iter) a (nextEntry iter)) else
        e ← h !! a;
        Some (DictIterator (index iter) a (enext e), a)
  end.

(* src/demo_dict/dict.c:421-442 dictNext *)
Definition dictNext (h : store) (d : dict) (iter : dictIterator) : option (dictIterator * Z) :=
  next_loop (S (S (Z.to_nat (size (ht d))))) h d iter.

(** * The dictionary as a finite map

    [kf] is what identifies a key: two pointers are the same key when [kf] maps them to the
    same thing. *)

Record type_ok {K} (kf : Z -> K) (d : dict) : Prop := TypeOk {
  compare_ok k1 k2 : dictCompareKeys d k1 k2 = true <-> kf k1 = kf k2;
  hash_ok k1 k2 : kf k1 = kf k2 -> dictHashKey d k1 = dictHashKey d k2;
  hash_range k : 0 <= dictHashKey d k < 2 ^ 32;
  dup_ok f p k : keyDup (type d) = Some f -> kf (f p k) = kf k;
}.

(** The key and value at an address. *)
Definition entry_at {K} (kf : Z -> K) (h : store) (a : Z) : K * (Z * Z) :=
  match h !! a with
  | Some n => (kf (ekey n), (ekey n, val n))
  | None => (kf 0, (0, 0))
  end.

(** A dictionary that has a table; [chains] are the addresses in its buckets. *)
Record table_ok {K} (kf : Z -> K) (h : store) (d : dict) (t : list Z) (chains : list (list Z))
    : Prop := TableOk {
  ok_type : type_ok kf d;
  ok_table : table (ht d) = Some t;
  ok_size : exists n, 2 <= n <= 31 /\ size (ht d) = 2 ^ n /\ sizemask (ht d) = Z.ones n;
  ok_length : Z.of_nat (length t) = size (ht d);
  ok_chains : length chains = length t;
  ok_chain i hd l : t !! i = Some hd -> chains !! i = Some l -> lseg h hd l null;
  ok_place i l a n : chains !! i = Some l -> a ∈ l -> h !! a = Some n ->
    Z.land (dictHashKey d (ekey n)) (sizemask (ht d)) = Z.of_nat i;
  ok_nodup : NoDup (concat chains);
  ok_keys : NoDup (entry_at kf h <$> concat chains).*1;
  ok_used : used (ht d) = Z.of_nat (length (concat chains));
  ok_fits : Z.of_nat (length (concat chains)) < 2 ^ 63;
}.

Definition dict_on {K} `{Countable K} (kf : Z -> K) (h : store) (d : dict)
    (chains : list (list Z)) (m : gmap K (Z * Z)) : Prop :=
  (type_ok kf d /\ ht d = _dictReset /\ chains = [] /\ m = ∅) \/
  exists t, table_ok kf h d t chains /\ m = list_to_map (entry_at kf h <$> concat chains).

(** The dictionary holds exactly the keys of [m], each with the key pointer and the value
    stored for it. *)
Definition dict_rep {K} `{Countable K} (kf : Z -> K) (h : store) (d : dict)
    (m : gmap K (Z * Z)) : Prop := exists chains, dict_on kf h d chains m.

Section dict.
Context {K : Type} `{Countable K} (kf : Z -> K).
Implicit Types (h : store) (d : dict) (k v a : Z) (m : gmap K (Z * Z)).

Lemma entry_at_frame h h' a : h' !! a = h !! a -> entry_at kf h' a = entry_at kf h a.
Proof. unfold entry_at. by intros ->. Qed.

Lemma entries_frame h h' (l : list Z) :
  (forall a, a ∈ l -> h' !! a = h !! a) -> entry_at kf h' <$> l = entry_at kf h <$> l.
Proof.
  intros Hf. apply list_fmap_ext. intros i a Ha. apply entry_at_frame, Hf.
  by eapply list_elem_of_lookup_2.
Qed.

Lemma lookup_entries (l : list (K * (Z * Z))) x kv :
  NoDup l.*1 -> (list_to_map l : gmap K (Z * Z)) !! x = Some kv <-> (x, kv) ∈ l.
Proof. intros Hnd. split; [apply elem_of_list_to_map_2|by apply elem_of_list_to_map_1]. Qed.

(** ** The bucket of a key *)

Record bucket_at h d t chains k c1 l c2 hd : Prop := BucketAt {
  at_index : Z.land (dictHashKey d k) (sizemask (ht d)) = Z.of_nat (length c1);
  at_split : chains = c1 ++ l :: c2;
  at_bucket : bucket d (Z.of_nat (length c1)) = Some hd;
  at_head : t !! length c1 = Some hd;
  at_set a : set_bucket d (Z.of_nat (length c1)) a = Some (Dict (type d) (privdata d)
    (Dictht (Some (<[length c1 := a]> t)) (size (ht d)) (sizemask (ht d)) (used (ht d))));
  at_chain : lseg h hd l null;
  at_int : Z.of_nat (length c1) < 2 ^ 31;
}.

Lemma bucket_at_exists h d t chains k :
  table_ok kf h d t chains -> exists c1 l c2 hd, bucket_at h d t chains k c1 l c2 hd.
Proof.
  intros [Hty Ht (n & Hn & Hsz & Hm) Hlen Hch Hchain _ _ _ _ _].
  assert (0 <= Z.land (dictHashKey d k) (sizemask (ht d)) < 2 ^ n) as Hidx.
  { apply land_bounds_r; [lia|]. rewrite Hm, Z.ones_equiv. lia. }
  assert (2 ^ n <= 2 ^ 31) by (apply Z.pow_le_mono_r; lia).
  set (idx := Z.land _ _) in *.
  destruct (lookup_lt_is_Some_2 chains (Z.to_nat idx)) as [l Hl]; [lia|].
  destruct (lookup_lt_is_Some_2 t (Z.to_nat idx)) as [hd Hhd]; [lia|].
  pose proof (Hchain _ _ _ Hhd Hl) as Hls.
  apply list_elem_of_split_length in Hl as (c1 & c2 & E & Hc1).
  assert (idx = Z.of_nat (length c1)) as Ei by lia.
  exists c1, l, c2, hd. rewrite Hc1 in *. split; try done; try lia.
  - unfold bucket. rewrite Ht. simpl. by rewrite znth_nat.
  - intros a. unfold set_bucket, zset. rewrite Ht. simpl. rewrite Nat2Z.id.
    destruct (Z.leb_spec 0 (Z.of_nat (length c1))); [|lia].
    by destruct (Z.ltb_spec (Z.of_nat (length c1)) (Z.of_nat (length t))); [|lia].
Qed.

Lemma chain_member h d t chains a :
  table_ok kf h d t chains -> a ∈ concat chains ->
  exists i l n, chains !! i = Some l /\ a ∈ l /\ h !! a = Some n /\ a <> 0.
Proof.
  intros Hok Ha. apply list_elem_of_In, in_concat in Ha as (l & Hl & Ha).
  apply list_elem_of_In in Hl, Ha. apply list_elem_of_lookup in Hl as [i Hi].
  destruct (lookup_lt_is_Some_2 t i) as [hd Hhd].
  { rewrite <- (ok_chains _ _ _ _ _ Hok). by eapply lookup_lt_Some. }
  pose proof (ok_chain _ _ _ _ _ Hok _ _ _ Hhd Hi) as Hls.
  destruct (lseg_lookup _ _ _ _ _ Hls Ha) as [n Hn].
  exists i, l, n. split; [done|]. split; [done|]. split; [done|].
  exact (lseg_not_null _ _ _ _ _ Hls Ha).
Qed.

(** What the search for [k] can find: nothing anywhere, or one entry, in its bucket. *)
Lemma search_cases h d t chains k c1 l c2 hd :
  table_ok kf h d t chains -> bucket_at h d t chains k c1 l c2 hd ->
  (forall a, a ∈ concat chains -> (entry_at kf h a).1 <> kf k) \/
  exists l1 a l2 n, l = l1 ++ a :: l2 /\ h !! a = Some n /\ kf (ekey n) = kf k /\ a <> 0 /\
    a ∈ concat chains /\
    forall b nb, b ∈ l1 -> h !! b = Some nb -> kf (ekey nb) <> kf k.
Proof.
  intros Hok Hat.
  destruct (decide (Exists (fun a => (entry_at kf h a).1 = kf k) (concat chains))) as [He|Hne].
  - right. apply Exists_exists in He as (a & Ha & Ek).
    destruct (chain_member _ _ _ _ _ Hok Ha) as (i & l' & n & Hi & Hal & Hn & Ha0).
    unfold entry_at in Ek. rewrite Hn in Ek. simpl in Ek.
    pose proof (ok_place _ _ _ _ _ Hok _ _ _ _ Hi Hal Hn) as Hp.
    rewrite (hash_ok _ _ (ok_type _ _ _ _ _ Hok) _ _ Ek), (at_index _ _ _ _ _ _ _ _ _ Hat) in Hp.
    assert (i = length c1) as -> by lia.
    rewrite (at_split _ _ _ _ _ _ _ _ _ Hat), list_lookup_middle in Hi by done. simplify_eq.
    apply list_elem_of_split in Hal as (l1 & l2 & ->). exists l1, a, l2, n.
    split; [done|]. split; [done|]. split; [done|]. split; [done|]. split; [done|].
    intros b nb Hb Hnb Ekb.
    pose proof (ok_keys _ _ _ _ _ Hok) as Hk.
    rewrite (at_split _ _ _ _ _ _ _ _ _ Hat), concat_middle, fmap_app, fmap_app in Hk.
    apply NoDup_app in Hk as (Hk & _). rewrite fmap_app, fmap_app in Hk.
    apply NoDup_app in Hk as (_ & Hk & _). apply (Hk (kf k)).
    + apply list_elem_of_fmap. exists (entry_at kf h b).
      split; [unfold entry_at; by rewrite Hnb|]. by apply list_elem_of_fmap_2.
    + rewrite !fmap_cons. unfold entry_at at 1. rewrite Hn, <- Ek. left.
  - left. rewrite <- Forall_Exists_neg, Forall_forall in Hne. done.
Qed.

Section search.
Context (d : dict) (Hty : type_ok kf d).

Lemma search_absent h k : forall l he fuel,
  lseg h he l null -> (length l < fuel)%nat ->
  (forall a n, a ∈ l -> h !! a = Some n -> kf (ekey n) <> kf k) ->
  search fuel h d k he = Some 0 /\
  forall prev, exists p, search_prev fuel h d k prev he = Some (p, 0).
Proof.
  induction l as [|a l IH]; intros he [|fuel] Hl Hf Hno; try (simpl in Hf; lia); simpl in Hl.
  { subst. simpl. eauto. }
  destruct Hl as (-> & Ha & n & Hn & Hl). cbn [search search_prev].
  rewrite (proj2 (Z.eqb_neq a 0)), Hn by done. bind_simpl.
  destruct (dictCompareKeys d k (ekey n)) eqn:E.
  { apply (compare_ok _ _ Hty) in E. destruct (Hno a n (list_elem_of_here _ _) Hn). done. }
  destruct (IH (enext n) fuel) as [IH1 IH2]; [done|simpl in Hf; lia| |].
  { intros b nb Hb. by apply Hno, list_elem_of_further. }
  split; [done|]. intros prev. apply IH2.
Qed.

Lemma search_present h k : forall l1 a l2 n he fuel prev,
  lseg h he (l1 ++ a :: l2) null -> (length (l1 ++ a :: l2) < fuel)%nat ->
  h !! a = Some n -> kf (ekey n) = kf k ->
  (forall b nb, b ∈ l1 -> h !! b = Some nb -> kf (ekey nb) <> kf k) ->
  search fuel h d k he = Some a /\ search_prev fuel h d k prev he = Some (List.last l1 prev, a).
Proof.
  induction l1 as [|b l1 IH]; intros a l2 n he [|fuel] prev Hl Hf Hn Ek Hno;
    try (simpl in Hf; lia); simpl in Hl; destruct Hl as (-> & Ha & n' & Hn' & Hl);
    cbn [search search_prev]; rewrite (proj2 (Z.eqb_neq _ 0)), Hn' by done; bind_simpl.
  - simplify_eq. by rewrite (proj2 (compare_ok _ _ Hty k (ekey n'))).
  - destruct (dictCompareKeys d k (ekey n')) eqn:E.
    { apply (compare_ok _ _ Hty) in E. by destruct (Hno b n' (list_elem_of_here _ _) Hn'). }
    rewrite last_default_cons. apply (IH a l2 n); try done; [simpl in Hf; lia|].
    intros c nc Hc. by apply Hno, list_elem_of_further.
Qed.
End search.

Lemma chain_fuel_enough h hd l : lseg h hd l null -> (length l < chain_fuel h)%nat.
Proof. intros Hl%lseg_length. unfold chain_fuel. lia. Qed.

Lemma lookup_absent h d t chains k :
  table_ok kf h d t chains ->
  (forall a, a ∈ concat chains -> (entry_at kf h a).1 <> kf k) ->
  (list_to_map (entry_at kf h <$> concat chains) : gmap K (Z * Z)) !! kf k = None.
Proof.
  intros Hok Hno. apply not_elem_of_list_to_map_1.
  intros (e & Ee & He)%list_elem_of_fmap. apply list_elem_of_fmap in He as (a & -> & Ha).
  by apply (Hno a).
Qed.

Lemma lookup_present h d t chains k a n :
  table_ok kf h d t chains -> a ∈ concat chains -> h !! a = Some n -> kf (ekey n) = kf k ->
  (list_to_map (entry_at kf h <$> concat chains) : gmap K (Z * Z)) !! kf k
    = Some (ekey n, val n).
Proof.
  intros Hok Ha Hn Ek. apply elem_of_list_to_map_1; [apply (ok_keys _ _ _ _ _ Hok)|].
  apply list_elem_of_fmap. exists a. split; [|done]. unfold entry_at. by rewrite Hn, Ek.
Qed.

(** ** [dictFind] and [dictFetchValue] *)

Lemma dictFind_spec h d chains m k :
  dict_on kf h d chains m ->
  exists a, dictFind h d k = Some a /\
    match m !! kf k with
    | None => a = 0
    | Some kv => a <> 0 /\ a ∈ concat chains /\
        exists n, h !! a = Some n /\ kf (ekey n) = kf k /\ (ekey n, val n) = kv
    end.
Proof.
  intros [(Hty & Hht & _ & ->)|(t & Hok & ->)].
  { exists 0. rewrite lookup_empty. unfold dictFind. by rewrite Hht. }
  destruct (bucket_at_exists h d t chains k Hok) as (c1 & l & c2 & hd & Hat).
  unfold dictFind. destruct (ok_size _ _ _ _ _ Hok) as (n & Hn & Hsz & _).
  rewrite (proj2 (Z.eqb_neq (size (ht d)) 0)) by lia.
  rewrite (at_index _ _ _ _ _ _ _ _ _ Hat), (at_bucket _ _ _ _ _ _ _ _ _ Hat). bind_simpl.
  pose proof (at_chain _ _ _ _ _ _ _ _ _ Hat) as Hl.
  pose proof (chain_fuel_enough _ _ _ Hl) as Hf.
  pose proof (ok_type _ _ _ _ _ Hok) as Hty.
  destruct (search_cases _ _ _ _ _ _ _ _ _ Hok Hat)
    as [Hno|(l1 & a & l2 & e & -> & He & Ek & Ha0 & Ha & Hl1)].
  - exists 0. rewrite (lookup_absent _ _ _ _ _ Hok Hno). split; [|done].
    apply (search_absent d Hty h k l hd _ Hl Hf). intros a e Ha He Ek.
    apply (Hno a); [|unfold entry_at; by rewrite He].
    rewrite (at_split _ _ _ _ _ _ _ _ _ Hat), concat_middle. apply elem_of_app. by left.
  - exists a. rewrite (lookup_present _ _ _ _ _ _ _ Hok Ha He Ek). split; [|eauto 10].
    by apply (search_present d Hty h k l1 a l2 e hd _ 0).
Qed.

Lemma dictFetchValue_spec h d chains m k :
  dict_on kf h d chains m -> dictFetchValue h d k = Some (default 0 (snd <$> m !! kf k)).
Proof.
  intros Hrep. destruct (dictFind_spec h d chains m k Hrep) as (a & E & Hm).
  unfold dictFetchValue. rewrite E. bind_simpl. destruct (m !! kf k) as [[k' v']|].
  - destruct Hm as (Ha & _ & n & Hn & _ & Ev). rewrite (proj2 (Z.eqb_neq a 0)), Hn by done.
    simpl. by injection Ev as _ ->.
  - by subst.
Qed.

(** ** One bucket changes *)

Lemma table_ok_update h h' d d' t c1 l l' c2 hd' :
  table_ok kf h d t (c1 ++ l :: c2) ->
  type d' = type d -> privdata d' = privdata d ->
  table (ht d') = Some (<[length c1 := hd']> t) ->
  size (ht d') = size (ht d) -> sizemask (ht d') = sizemask (ht d) ->
  (forall a, a ∈ concat c1 ++ concat c2 -> h' !! a = h !! a) ->
  lseg h' hd' l' null ->
  (forall a n, a ∈ l' -> h' !! a = Some n ->
     Z.land (dictHashKey d (ekey n)) (sizemask (ht d)) = Z.of_nat (length c1)) ->
  NoDup (l' ++ concat c1 ++ concat c2) ->
  NoDup (entry_at kf h' <$> l' ++ concat c1 ++ concat c2).*1 ->
  used (ht d') = Z.of_nat (length (l' ++ concat c1 ++ concat c2)) ->
  Z.of_nat (length (l' ++ concat c1 ++ concat c2)) < 2 ^ 63 ->
  table_ok kf h' d' (<[length c1 := hd']> t) (c1 ++ l' :: c2).
Proof.
  intros [[Tc Th Tr Td] Ht (n & Hn & Hsz & Hm) Hlen Hch Hchain Hplace _ _ _ _]
    Ety Epd Etb Esz Em Hf Hl' Hpl Hnd Hk Hu Hfit.
  split; try done.
  - by split; unfold dictCompareKeys, dictHashKey in *; rewrite ?Ety, ?Epd.
  - exists n. by rewrite Esz, Em.
  - by rewrite length_insert, Esz.
  - rewrite length_insert, <- Hch, !length_app. done.
  - intros i hd m Hi Hmi. destruct (decide (i = length c1)) as [->|Hne].
    + rewrite list_lookup_middle in Hmi by done.
      rewrite list_lookup_insert_eq in Hi by (rewrite <- Hch, length_app; simpl; lia).
      by simplify_eq.
    + rewrite list_lookup_insert_ne in Hi by done.
      rewrite (lookup_middle_ne _ _ l l') in Hmi by done.
      eapply lseg_frame; [|by eapply Hchain]. intros a Ha. by eapply Hf, lookup_middle_others.
  - unfold dictHashKey. rewrite Ety, Em. intros i m a e Hi Ha He.
    destruct (decide (i = length c1)) as [->|Hne].
    + rewrite list_lookup_middle in Hi by done. simplify_eq. by eapply Hpl.
    + rewrite (lookup_middle_ne _ _ l l') in Hi by done. eapply Hplace; [done..|].
      rewrite <- Hf; [done|]. by eapply lookup_middle_others.
  - by rewrite concat_middle.
  - by rewrite concat_middle.
  - by rewrite concat_middle.
  - by rewrite concat_middle.
Qed.

Lemma entries_middle h c1 l c2 :
  NoDup (entry_at kf h <$> concat (c1 ++ l :: c2)).*1 ->
  (list_to_map (entry_at kf h <$> concat (c1 ++ l :: c2)) : gmap K (Z * Z)) =
  list_to_map (entry_at kf h <$> l ++ concat c1 ++ concat c2).
Proof. intros Hnd. apply list_to_map_proper; [done|]. by rewrite concat_middle. Qed.

(** The map of a list of addresses, one of them apart. *)
Lemma map_cons h (l rest : list Z) a :
  NoDup (entry_at kf h <$> l).*1 -> l ≡ₚ a :: rest ->
  (list_to_map (entry_at kf h <$> l) : gmap K (Z * Z)) =
    <[(entry_at kf h a).1 := (entry_at kf h a).2]> (list_to_map (entry_at kf h <$> rest)) /\
  (list_to_map (entry_at kf h <$> rest) : gmap K (Z * Z)) !! (entry_at kf h a).1 = None.
Proof.
  intros Hnd HP. assert (entry_at kf h <$> l ≡ₚ entry_at kf h <$> a :: rest) as HP'
    by (by rewrite HP).
  split.
  - rewrite (list_to_map_proper _ _ Hnd HP'). rewrite fmap_cons.
    by destruct (entry_at kf h a) as [x kv].
  - rewrite HP' in Hnd. rewrite !fmap_cons in Hnd. apply NoDup_cons in Hnd as [Hn _].
    by apply not_elem_of_list_to_map_1.
Qed.

Definition new_val d v : Z := match valDup (type d) with Some f => f (privdata d) v | None => v end.
Definition new_key d k : Z := match keyDup (type d) with Some f => f (privdata d) k | None => k end.

Lemma new_key_same d k : type_ok kf d -> kf (new_key d k) = kf k.
Proof. intros [_ _ _ Hd]. unfold new_key. case_match eqn:E; [by apply Hd|done]. Qed.

(** [dictSetVal] on an entry of the dictionary. *)
Lemma dictSetVal_spec h d chains m a n v :
  dict_on kf h d chains m -> a ∈ concat chains -> h !! a = Some n ->
  dictSetVal d h a v = Some (<[a := DictEntry (ekey n) (new_val d v) (enext n)]> h) /\
  dict_on kf (<[a := DictEntry (ekey n) (new_val d v) (enext n)]> h) d chains
    (<[kf (ekey n) := (ekey n, new_val d v)]> m).
Proof.
  intros [(_ & _ & -> & _)|(t & Hok & ->)] Ha Hn; [by apply elem_of_nil in Ha|].
  split; [unfold dictSetVal; by rewrite Hn|]. right. exists t.
  set (h' := <[a := _]> h).
  assert (forall b, b <> a -> h' !! b = h !! b) as Hf by (intros; by apply lookup_insert_ne).
  assert (h' !! a = Some (DictEntry (ekey n) (new_val d v) (enext n))) as Ha' by apply lookup_insert_eq.
  assert (forall b, (entry_at kf h' b).1 = (entry_at kf h b).1) as H1.
  { intros b. unfold entry_at. destruct (decide (b = a)) as [->|Hne]; [by rewrite Ha', Hn|].
    by rewrite Hf. }
  assert ((entry_at kf h' <$> concat chains).*1 = (entry_at kf h <$> concat chains).*1) as Hkeys.
  { rewrite <- !list_fmap_compose. apply list_fmap_ext. intros i b _. apply H1. }
  pose proof Hok as [Tty Ht Hsz Hlen Hch Hchain Hplace Hnd Hk Hu Hfit].
  assert (table_ok kf h' d t chains) as Hok'.
  { split; try done.
    - intros i hd l Hi Hl. eapply (lseg_next_frame h); [|by eapply Hchain].
      intros b Hb. destruct (decide (b = a)) as [->|Hne]; [by rewrite Ha', Hn|by rewrite Hf].
    - intros i l b nb Hi Hb Hnb. destruct (decide (b = a)) as [->|Hne].
      + rewrite Ha' in Hnb. injection Hnb as <-. simpl. by eapply Hplace.
      + rewrite Hf in Hnb by done. by eapply Hplace.
    - by rewrite Hkeys. }
  split; [done|]. apply elem_of_Permutation in Ha as [rest HP].
  destruct (map_cons h _ rest a Hk HP) as [E1 _]. rewrite <- Hkeys in Hk.
  destruct (map_cons h' _ rest a Hk HP) as [E2 _].
  assert (entry_at kf h a = (kf (ekey n), (ekey n, val n))) as Ea by (unfold entry_at; by rewrite Hn).
  assert (entry_at kf h' a = (kf (ekey n), (ekey n, new_val d v))) as Ea'
    by (unfold entry_at; by rewrite Ha').
  rewrite Ea in E1. rewrite Ea' in E2. cbn [fst snd] in E1, E2. rewrite E1, E2.
  rewrite (entries_frame h h' rest).
  - by rewrite insert_insert_eq.
  - intros b Hb. apply Hf. intros ->. rewrite HP in Hnd. by apply NoDup_cons in Hnd as [? _].
Qed.

(** ** Sizing *)

Lemma next_power_spec sz : sz < LONG_MAX -> forall fuel n,
  2 <= n -> n + Z.of_nat fuel = 66 -> (2 < n -> 2 ^ (n - 1) < sz) ->
  exists k, next_power fuel (2 ^ n) sz = Some (2 ^ k) /\ n <= k <= 63 /\ sz <= 2 ^ k /\
    (2 < k -> 2 ^ (k - 1) < sz).
Proof.
  intros Hsz. induction fuel as [|fuel IH]; intros n Hn Hf Hlo; cbn [next_power].
  - replace n with 66 in * by lia. unfold LONG_MAX in *. lia.
  - assert (n <= 63) as Hn63.
    { destruct (decide (2 < n)); [|lia]. assert (n - 1 < 63); [|lia].
      apply (Z.pow_lt_mono_r_iff 2); [lia..|]. unfold LONG_MAX in *. lia. }
    destruct (Z.geb_spec (2 ^ n) sz) as [Hge|Hlt].
    + exists n. split; [done|]. split; [lia|]. split; [lia|done].
    + assert (n < 63) as Hn' by (apply (Z.pow_lt_mono_r_iff 2); [lia..|]; unfold LONG_MAX in *; lia).
      assert (2 ^ n * 2 = 2 ^ (n + 1)) as E by (rewrite Z.pow_add_r by lia; lia).
      assert (2 ^ (n + 1) <= 2 ^ 63) by (apply Z.pow_le_mono_r; lia).
      rewrite E, wrap_small by lia.
      destruct (IH (n + 1)) as (k & ? & ? & ? & ?); [lia|lia| |].
      { intros _. by replace (n + 1 - 1) with n by lia. }
      exists k. repeat split; try done; lia.
Qed.

(** [_dictNextPower] is the least power of two that is at least the size and at least 4. *)
Lemma dictNextPower_spec sz :
  sz < LONG_MAX -> exists k, _dictNextPower sz = Some (2 ^ k) /\ 2 <= k <= 63 /\ sz <= 2 ^ k /\
    (2 < k -> 2 ^ (k - 1) < sz).
Proof.
  intros Hsz. unfold _dictNextPower. destruct (Z.geb_spec sz LONG_MAX); [lia|].
  by apply (next_power_spec sz Hsz 64 2).
Qed.

Lemma dictExpand_nop d sz t :
  table (ht d) = Some t -> used (ht d) <= sz -> sz < LONG_MAX -> dictExpand d sz = Some (d, DICT_OK).
Proof.
  intros Ht Hu Hsz. destruct (dictNextPower_spec sz Hsz) as (k & E & _).
  unfold dictExpand. rewrite E. bind_simpl. destruct (Z.gtb_spec (used (ht d)) sz); [lia|].
  by rewrite Ht.
Qed.

Lemma concat_nils (n : nat) : concat (replicate n []) =@{list Z} [].
Proof. apply concat_replicate_nil. Qed.

Lemma dictExpand_first h d sz chains m :
  dict_on kf h d chains m -> table (ht d) = None -> 0 <= sz <= 2 ^ 31 ->
  exists d' k t, dictExpand d sz = Some (d', DICT_OK) /\ size (ht d') = 2 ^ k /\ sz <= 2 ^ k /\
    m = ∅ /\ table_ok kf h d' t (replicate (Z.to_nat (2 ^ k)) []) /\
    type d' = type d /\ privdata d' = privdata d.
Proof.
  intros [(Hty & Hht & _ & ->)|(t & Hok & _)] Ht Hsz;
    [|rewrite (ok_table _ _ _ _ _ Hok) in Ht; done].
  destruct (dictNextPower_spec sz ltac:(unfold LONG_MAX; lia)) as (k & E & Hk & Hle & Hlo).
  assert (k <= 31) as Hk31.
  { destruct (decide (2 < k)); [|lia]. assert (k - 1 < 31); [|lia].
    apply (Z.pow_lt_mono_r_iff 2); lia. }
  assert (2 ^ k <= 2 ^ 31) by (apply Z.pow_le_mono_r; lia).
  unfold dictExpand. rewrite E, Hht. bind_simpl. simpl.
  destruct (Z.gtb_spec 0 sz); [lia|]. eexists _, k, _. split; [done|]. split; [done|].
  split; [done|]. split; [done|]. split; [|done].
  split; simpl; rewrite ?concat_nils; try done; try apply NoDup_nil_2.
  - destruct Hty as [T1 T2 T3 T4]. exact (@TypeOk K kf (Dict (type d) (privdata d) _) T1 T2 T3 T4).
  - exists k. split; [lia|]. split; [done|]. rewrite Z.ones_equiv, wrap_small by lia. lia.
  - rewrite length_replicate. lia.
  - by rewrite !length_replicate.
  - by intros i hd l [-> _]%lookup_replicate_1 [-> _]%lookup_replicate_1.
  - by intros i l a n [-> _]%lookup_replicate_1 ?%elem_of_nil.
Qed.

Lemma map_size h d t chains :
  table_ok kf h d t chains ->
  base.size (list_to_map (entry_at kf h <$> concat chains) : gmap K (Z * Z)) = length (concat chains).
Proof.
  intros Hok. rewrite map_size_list_to_map by apply (ok_keys _ _ _ _ _ Hok).
  by rewrite length_fmap.
Qed.

(** [_dictExpandIfNeeded] makes the first table and never changes one that exists. *)
Lemma dictExpandIfNeeded_spec h d chains m :
  dict_on kf h d chains m -> Z.of_nat (base.size m) < 2 ^ 62 ->
  exists d' chains' t, _dictExpandIfNeeded d = Some (d', DICT_OK) /\
    table_ok kf h d' t chains' /\ m = list_to_map (entry_at kf h <$> concat chains') /\
    type d' = type d /\ privdata d' = privdata d.
Proof.
  intros Hrep Hm. unfold _dictExpandIfNeeded.
  destruct Hrep as [Hrep|(t & Hok & ->)].
  - pose proof Hrep as (_ & Hht & _ & _).
    destruct (dictExpand_first h d DICT_HT_INITIAL_SIZE chains m)
      as (d' & k & t & E & _ & _ & -> & Hok & Ety & Epd); [by left|by rewrite Hht|done|].
    assert (size (ht d) = 0) as -> by (by rewrite Hht). cbn [Z.eqb]. rewrite E. eexists d', _, t.
    split; [done|]. split; [done|]. by rewrite concat_nils.
  - destruct (ok_size _ _ _ _ _ Hok) as (n & Hn & Hsz & _).
    rewrite (map_size _ _ _ _ Hok) in Hm. pose proof (ok_used _ _ _ _ _ Hok) as Hu.
    rewrite (proj2 (Z.eqb_neq (size (ht d)) 0)) by lia. exists d, chains, t.
    split; [|done]. destruct ((used (ht d) >=? size (ht d)) && _); [|done].
    rewrite wrap_small by lia. eapply dictExpand_nop; [apply (ok_table _ _ _ _ _ Hok)|lia|].
    unfold LONG_MAX. lia.
Qed.

Context `{AllocatorOk dictEntry}.

Lemma dictSetKey_eq h d a k e :
  h !! a = Some e -> dictSetKey d h a k = Some (<[a := DictEntry (new_key d k) (val e) (enext e)]> h).
Proof. unfold dictSetKey. by intros ->. Qed.

(** A new entry at the head of its bucket. *)
Lemma table_ok_push h d t c1 l c2 hd k (a := malloc h) h'
  (d' := set_used (Dict (type d) (privdata d) (Dictht (Some (<[length c1 := a]> t))
     (size (ht d)) (sizemask (ht d)) (used (ht d)))) (u64 (used (ht d) + 1))) :
  table_ok kf h d t (c1 ++ l :: c2) -> bucket_at h d t (c1 ++ l :: c2) k c1 l c2 hd ->
  Z.of_nat (length (concat (c1 ++ l :: c2))) < 2 ^ 62 ->
  (forall b, b ∈ concat (c1 ++ l :: c2) -> (entry_at kf h b).1 <> kf k) ->
  h' = <[a := DictEntry (new_key d k) 0 hd]> h ->
  table_ok kf h' d' (<[length c1 := a]> t) (c1 ++ (a :: l) :: c2) /\
  (list_to_map (entry_at kf h' <$> concat (c1 ++ (a :: l) :: c2)) : gmap K (Z * Z)) =
    <[kf k := (new_key d k, 0)]> (list_to_map (entry_at kf h <$> concat (c1 ++ l :: c2))).
Proof.
  intros Hok Hat Hlen Hno Eh'.
  pose proof (malloc_fresh h) as Hfr. pose proof (malloc_not_null h) as Ha0. fold a in Hfr, Ha0.
  assert (forall b, b ∈ concat (c1 ++ l :: c2) -> b <> a) as Hba.
  { intros b Hb ->. destruct (chain_member _ _ _ _ _ Hok Hb) as (_ & _ & nb & _ & _ & Hnb & _).
    congruence. }
  assert (forall b, b ∈ concat (c1 ++ l :: c2) -> h' !! b = h !! b) as Hf.
  { intros b Hb. rewrite Eh', lookup_insert_ne; [done|]. intros E. by apply (Hba b). }
  pose proof (new_key_same d k (ok_type _ _ _ _ _ Hok)) as Ek.
  assert (entry_at kf h' a = (kf k, (new_key d k, 0))) as Ea
    by (unfold entry_at; by rewrite Eh', lookup_insert_eq, <- Ek).
  assert (forall b, b ∈ l \/ b ∈ concat c1 ++ concat c2 -> b ∈ concat (c1 ++ l :: c2)) as Hin.
  { intros b Hb. rewrite concat_middle, elem_of_app. tauto. }
  pose proof (ok_keys _ _ _ _ _ Hok) as Hk.
  assert (NoDup (entry_at kf h' <$> (a :: l) ++ concat c1 ++ concat c2).*1) as Hk'.
  { simpl. rewrite Ea. apply NoDup_cons. split.
    - intros (e & Ee & He)%list_elem_of_fmap. apply list_elem_of_fmap in He as (b & -> & Hb).
      rewrite <- concat_middle in Hb. rewrite (entry_at_frame h) in Ee by auto.
      by destruct (Hno b Hb).
    - rewrite <- concat_middle. rewrite (entries_frame h) by auto. by rewrite concat_middle in Hk |- *. }
  assert (table_ok kf h' d' (<[length c1 := a]> t) (c1 ++ (a :: l) :: c2)) as Hok'.
  { eapply (table_ok_update h h' d d' t c1 l (a :: l) c2 a); try done.
    - intros b Hb. apply Hf, Hin. by right.
    - split; [done|]. split; [done|]. eexists. rewrite Eh', lookup_insert_eq.
      split; [done|]. simpl. rewrite <- Eh'. eapply lseg_frame;
        [|apply (at_chain _ _ _ _ _ _ _ _ _ Hat)]. intros b Hb. apply Hf, Hin. by left.
    - intros b nb [->|Hb]%elem_of_cons Hnb.
      + rewrite Eh', lookup_insert_eq in Hnb. injection Hnb as <-. simpl.
        rewrite (hash_ok _ _ (ok_type _ _ _ _ _ Hok) _ k) by done.
        apply (at_index _ _ _ _ _ _ _ _ _ Hat).
      + rewrite Hf in Hnb by (apply Hin; by left).
        eapply (ok_place _ _ _ _ _ Hok); [|exact Hb|done]. by rewrite list_lookup_middle.
    - simpl. apply NoDup_cons. rewrite <- concat_middle. split; [|apply (ok_nodup _ _ _ _ _ Hok)].
      intros Hb. by apply (Hba a Hb).
    - simpl. rewrite (ok_used _ _ _ _ _ Hok), wrap_small by lia. rewrite concat_middle. lia.
    - rewrite concat_middle in Hlen. simpl. lia. }
  split; [done|]. rewrite entries_middle by apply (ok_keys _ _ _ _ _ Hok').
  simpl. rewrite Ea. simpl. f_equal. rewrite <- entries_middle; [|].
  - by rewrite (entries_frame h) by auto.
  - by rewrite (entries_frame h) by auto.
Qed.

(** [dictAddRaw]: a new entry for a new key, nothing for one that exists. *)
Lemma dictAddRaw_spec h d chains m k :
  dict_on kf h d chains m -> Z.of_nat (base.size m) < 2 ^ 62 ->
  match m !! kf k with
  | Some _ => exists d' chains', dictAddRaw h d k = Some (h, d', 0) /\
      dict_on kf h d' chains' m /\ type d' = type d /\ privdata d' = privdata d
  | None => exists h' d' chains' a nx, dictAddRaw h d k = Some (h', d', a) /\ a <> 0 /\
      dict_on kf h' d' chains' (<[kf k := (new_key d k, 0)]> m) /\ a ∈ concat chains' /\
      h' !! a = Some (DictEntry (new_key d k) 0 nx) /\ type d' = type d /\ privdata d' = privdata d
  end.
Proof.
  intros Hrep Hm.
  destruct (dictExpandIfNeeded_spec h d chains m Hrep Hm) as (d1 & ch & t & E & Hok & -> & Ety & Epd).
  destruct (bucket_at_exists h d1 t ch k Hok) as (c1 & l & c2 & hd & Hat).
  unfold dictAddRaw, _dictKeyIndex. rewrite E. bind_simpl. change (DICT_OK =? DICT_ERR) with false.
  cbn iota. rewrite (at_index _ _ _ _ _ _ _ _ _ Hat), (at_bucket _ _ _ _ _ _ _ _ _ Hat). bind_simpl.
  pose proof (at_chain _ _ _ _ _ _ _ _ _ Hat) as Hl.
  pose proof (chain_fuel_enough _ _ _ Hl) as Hf. pose proof (ok_type _ _ _ _ _ Hok) as Hty.
  pose proof (at_split _ _ _ _ _ _ _ _ _ Hat) as Hs. pose proof (at_int _ _ _ _ _ _ _ _ _ Hat) as Hi.
  rewrite (map_size _ _ _ _ Hok) in Hm.
  destruct (search_cases _ _ _ _ _ _ _ _ _ Hok Hat)
    as [Hno|(l1 & a & l2 & e & -> & He & Ek & Ha0 & Ha & Hl1)].
  - rewrite (lookup_absent _ _ _ _ _ Hok Hno).
    destruct (search_absent d1 Hty h k l hd _ Hl Hf) as [-> _].
    { intros a e Ha He Ek. apply (Hno a); [|unfold entry_at; by rewrite He].
      rewrite Hs, concat_middle. apply elem_of_app. by left. }
    bind_simpl. rewrite Z.eqb_refl. bind_simpl.
    assert (i32 (Z.of_nat (length c1)) = Z.of_nat (length c1)) as ->
      by (unfold sint; rewrite Z.mod_small; lia).
    rewrite (proj2 (Z.eqb_neq _ (-1))) by lia. rewrite (at_bucket _ _ _ _ _ _ _ _ _ Hat). bind_simpl.
    rewrite (at_set _ _ _ _ _ _ _ _ _ Hat). bind_simpl. subst ch.
    destruct (table_ok_push h d1 t c1 l c2 hd k _ Hok Hat Hm Hno eq_refl) as [Hok' Em].
    assert (new_key d1 k = new_key d k) as Enk by (unfold new_key; by rewrite Ety, Epd).
    erewrite dictSetKey_eq by apply lookup_insert_eq. bind_simpl. rewrite insert_insert_eq.
    cbn [ekey val enext].
    match goal with |- context [new_key ?d' k] => change (new_key d' k) with (new_key d1 k) end.
    rewrite Enk in *.
    eexists _, _, _, (malloc h), hd. split; [reflexivity|].
    split; [apply malloc_not_null|].
    split; [right; eexists; split; [exact Hok'|by rewrite Em]|].
    split; [rewrite concat_middle; left|]. split; [by rewrite lookup_insert_eq|done].
  - rewrite (lookup_present _ _ _ _ _ _ _ Hok Ha He Ek).
    destruct (search_present d1 Hty h k l1 a l2 e hd _ 0 Hl Hf He Ek Hl1) as [-> _]. bind_simpl.
    rewrite (proj2 (Z.eqb_neq a 0)) by done. bind_simpl. exists d1, ch.
    split; [done|]. split; [right; eauto|]. done.
Qed.

Definition same_owner (d d' : dict) : Prop := type d' = type d /\ privdata d' = privdata d.

Lemma new_val_owner d d' v : same_owner d d' -> new_val d' v = new_val d v.
Proof. unfold new_val. by intros [-> ->]. Qed.
Lemma new_key_owner d d' v : same_owner d d' -> new_key d' v = new_key d v.
Proof. unfold new_key. by intros [-> ->]. Qed.

(** [dictAdd] binds a new key, and refuses one that exists. *)
Lemma dictAdd_spec h d m k v :
  dict_rep kf h d m -> Z.of_nat (base.size m) < 2 ^ 62 ->
  exists h' d', dictAdd h d k v = Some (h', d', if m !! kf k then DICT_ERR else DICT_OK) /\
    dict_rep kf h' d' (if m !! kf k then m else <[kf k := (new_key d k, new_val d v)]> m) /\
    same_owner d d'.
Proof.
  intros (chains & Hrep) Hm. pose proof (dictAddRaw_spec h d chains m k Hrep Hm) as Hadd.
  assert (type_ok kf d) as Hty by (destruct Hrep as [(? & _)|(t & Hok & _)]; [done|apply Hok]).
  unfold dictAdd. destruct (m !! kf k).
  - destruct Hadd as (d' & ch & E & Hon & Ho). rewrite E. bind_simpl.
    exists h, d'. split; [done|]. split; [by exists ch|done].
  - destruct Hadd as (h1 & d' & ch & a & nx & E & Ha0 & Hon & Ha & Hn & Ho). rewrite E. bind_simpl.
    rewrite (proj2 (Z.eqb_neq a 0)) by done.
    destruct (dictSetVal_spec h1 d' ch _ a _ v Hon Ha Hn) as [E2 Hon2].
    rewrite (new_val_owner d) in E2, Hon2 by done. rewrite E2. bind_simpl.
    eexists _, _. split; [done|]. split; [|done]. exists ch.
    cbn [ekey] in Hon2. rewrite (new_key_same d k Hty), insert_insert_eq in Hon2.
    exact Hon2.
Qed.

(** [dictReplace] binds the key either way; the value it replaces is released. *)
Lemma dictReplace_spec h d m k v :
  dict_rep kf h d m -> Z.of_nat (base.size m) < 2 ^ 62 ->
  exists h' d', dictReplace h d k v = Some (h', d', if m !! kf k then 0 else 1,
      match m !! kf k with
      | Some (k', v') => if valDestructor (type d) then [FreeVal (privdata d) v'] else []
      | None => []
      end) /\
    dict_rep kf h' d' (<[kf k := (match m !! kf k with Some (k', _) => k' | None => new_key d k end,
                              new_val d v)]> m) /\
    same_owner d d'.
Proof.
  intros (chains & Hrep) Hm. pose proof (dictAddRaw_spec h d chains m k Hrep Hm) as Hadd.
  assert (type_ok kf d) as Hty by (destruct Hrep as [(? & _)|(t & Hok & _)]; [done|apply Hok]).
  unfold dictReplace, dictAdd. destruct (m !! kf k) as [[k' v']|] eqn:Ek.
  - destruct Hadd as (d' & ch & E & Hon & Ho). rewrite E. bind_simpl. simpl (0 =? 0). cbn iota.
    bind_simpl. change (DICT_ERR =? DICT_OK) with false. cbn iota.
    destruct (dictFind_spec h d' ch m k Hon) as (a & Ea & Hf). rewrite Ea, Ek in *. bind_simpl.
    destruct Hf as (Ha0 & Ha & n & Hn & Hkn & En). injection En as <- <-. rewrite Hn. bind_simpl.
    destruct (dictSetVal_spec h d' ch m a n v Hon Ha Hn) as [E2 Hon2].
    rewrite (new_val_owner d) in E2, Hon2 by done. rewrite E2. bind_simpl.
    eexists _, d'. split.
    { unfold dictFreeVal. destruct Ho as [-> ->]. reflexivity. }
    split; [|done]. exists ch. by rewrite Hkn in Hon2.
  - destruct Hadd as (h1 & d' & ch & a & nx & E & Ha0 & Hon & Ha & Hn & Ho). rewrite E. bind_simpl.
    rewrite (proj2 (Z.eqb_neq a 0)) by done.
    destruct (dictSetVal_spec h1 d' ch _ a _ v Hon Ha Hn) as [E2 Hon2].
    rewrite (new_val_owner d) in E2, Hon2 by done. rewrite E2. bind_simpl.
    eexists _, _. split; [done|]. split; [|done]. exists ch.
    cbn [ekey] in Hon2. rewrite (new_key_same d k Hty), insert_insert_eq in Hon2.
    exact Hon2.
Qed.

(** [dictReplaceRaw] returns the entry of the key, old or new. *)
Lemma dictReplaceRaw_spec h d chains m k :
  dict_on kf h d chains m -> Z.of_nat (base.size m) < 2 ^ 62 ->
  exists h' d' a n, dictReplaceRaw h d k = Some (h', d', a) /\ a <> 0 /\ h' !! a = Some n /\
    kf (ekey n) = kf k /\
    dict_rep kf h' d' (if m !! kf k then m else <[kf k := (new_key d k, 0)]> m).
Proof.
  intros Hrep Hm. pose proof (dictAddRaw_spec h d chains m k Hrep Hm) as Hadd.
  assert (type_ok kf d) as Hty by (destruct Hrep as [(? & _)|(t & Hok & _)]; [done|apply Hok]).
  destruct (dictFind_spec h d chains m k Hrep) as (a & Ea & Hf).
  unfold dictReplaceRaw. rewrite Ea. bind_simpl. destruct (m !! kf k) as [[k' v']|].
  - destruct Hf as (Ha0 & _ & n & Hn & Hk & _). rewrite (proj2 (Z.eqb_neq a 0)) by done.
    exists h, d, a, n. repeat (split; [done|]). by exists chains.
  - subst a. cbn [negb Z.eqb]. destruct Hadd as (h1 & d' & ch & a & nx & E & Ha0 & Hon & Ha & Hn & Ho).
    rewrite E. eexists h1, d', a, _. repeat (split; [done|]).
    split; [by apply new_key_same|]. by exists ch.
Qed.

(** ** Deletion *)

(** The store without [a], unlinked from the bucket [l1 ++ a :: l2]. *)
Lemma unlink_store h d idx t hd l1 a l2 n :
  table (ht d) = Some t -> t !! idx = Some hd ->
  (forall b, set_bucket d (Z.of_nat idx) b = Some (Dict (type d) (privdata d)
    (Dictht (Some (<[idx := b]> t)) (size (ht d)) (sizemask (ht d)) (used (ht d))))) ->
  lseg h hd (l1 ++ a :: l2) null -> h !! a = Some n ->
  exists h' hd',
    (if negb (List.last l1 0 =? 0) then
       h ← st_next h (List.last l1 0) (enext n); Some (h, d)
     else d ← set_bucket d (Z.of_nat idx) (enext n); Some (h, d)) =
      Some (h', Dict (type d) (privdata d)
        (Dictht (Some (<[idx := hd']> t)) (size (ht d)) (sizemask (ht d)) (used (ht d)))) /\
    lseg (delete a h') hd' (l1 ++ l2) null /\
    (forall b, b ∉ l1 -> h' !! b = h !! b) /\
    (forall b, (entry_at kf h' b) = (entry_at kf h b)) /\ (forall b, is_Some (h' !! b) <-> is_Some (h !! b)).
Proof.
  intros Ht Hhd Hset Hl Hn. destruct (decide (l1 = [])) as [->|Hne].
  - cbn [List.last Z.eqb negb]. rewrite Hset. bind_simpl. exists h, (enext n).
    split; [done|]. split; [|done]. exact (lseg_remove_head h hd a l2 n Hl Hn).
  - destruct (exists_last Hne) as (l' & p & ->). rewrite List.last_last.
    assert (p ∈ (l' ++ [p]) ++ a :: l2) as Hp by (rewrite !elem_of_app; left; right; left).
    destruct (lseg_lookup _ _ _ _ _ Hl Hp) as [np Hnp].
    pose proof (lseg_not_null _ _ _ _ _ Hl Hp) as Hp0. change (p <> 0) in Hp0.
    rewrite (proj2 (Z.eqb_neq p 0)) by done. cbn [negb].
    rewrite (st_next_ok _ _ _ np) by done. bind_simpl. exists (<[p := set_next (enext n) np]> h), hd.
    assert (<[idx := hd]> t = t) as -> by (by apply list_insert_id).
    split; [destruct d as [ty pd [tb sz sm us]]; simpl in *; by subst|]. split; [|split; [|split]].
    + exact (lseg_remove_inner (fun v n => eq_refl) h hd l' p a l2 np n Hl Hnp Hn).
    + intros b Hb. rewrite lookup_insert_ne; [done|]. intros <-. apply Hb, elem_of_app. right. left.
    + intros b. unfold entry_at. destruct (decide (b = p)) as [->|Hbp].
      * by rewrite lookup_insert_eq, Hnp.
      * by rewrite lookup_insert_ne.
    + intros b. destruct (decide (b = p)) as [->|Hbp].
      * rewrite lookup_insert_eq, Hnp. split; intros _; eauto.
      * by rewrite lookup_insert_ne.
Qed.

Lemma delete_present h d t chains k c1 l1 a l2 c2 hd n nofree :
  table_ok kf h d t chains -> bucket_at h d t chains k c1 (l1 ++ a :: l2) c2 hd ->
  h !! a = Some n -> kf (ekey n) = kf k -> a <> 0 ->
  (forall b nb, b ∈ l1 -> h !! b = Some nb -> kf (ekey nb) <> kf k) ->
  exists h' d' t', dictGenericDelete h d k nofree =
      Some (h', d', DICT_OK, if nofree then [] else dictFreeKey d n ++ dictFreeVal d n) /\
    table_ok kf h' d' t' (c1 ++ (l1 ++ l2) :: c2) /\ same_owner d d' /\
    size (ht d') = size (ht d) /\
    (forall b, b ∉ a :: l1 -> h' !! b = h !! b) /\
    (list_to_map (entry_at kf h' <$> concat (c1 ++ (l1 ++ l2) :: c2)) : gmap K (Z * Z)) =
      delete (kf k) (list_to_map (entry_at kf h <$> concat chains)).
Proof.
  intros Hok Hat Hn Ek Ha0 Hl1. unfold dictGenericDelete.
  destruct (ok_size _ _ _ _ _ Hok) as (n0 & Hn0 & Hsz & _).
  rewrite (proj2 (Z.eqb_neq (size (ht d)) 0)) by lia.
  rewrite (at_index _ _ _ _ _ _ _ _ _ Hat), (at_bucket _ _ _ _ _ _ _ _ _ Hat). bind_simpl.
  pose proof (at_chain _ _ _ _ _ _ _ _ _ Hat) as Hl. pose proof (ok_type _ _ _ _ _ Hok) as Hty.
  destruct (search_present d Hty h k l1 a l2 n hd (chain_fuel h) 0 Hl (chain_fuel_enough _ _ _ Hl)
    Hn Ek Hl1) as [_ ->]. bind_simpl.
  rewrite (proj2 (Z.eqb_neq a 0)), Hn by done. bind_simpl.
  destruct (unlink_store h d (length c1) t hd l1 a l2 n (ok_table _ _ _ _ _ Hok)
    (at_head _ _ _ _ _ _ _ _ _ Hat) (at_set _ _ _ _ _ _ _ _ _ Hat) Hl Hn)
    as (h1 & hd' & E & Hl' & Hf & He & Hs). rewrite E. bind_simpl.
  pose proof (at_split _ _ _ _ _ _ _ _ _ Hat) as Hsp.
  pose proof (ok_nodup _ _ _ _ _ Hok) as Hnd. pose proof (ok_keys _ _ _ _ _ Hok) as Hk.
  assert (concat chains ≡ₚ a :: (l1 ++ l2) ++ concat c1 ++ concat c2) as HP.
  { by rewrite Hsp, concat_middle, <- (Permutation_middle l1). }
  rewrite HP in Hnd. apply NoDup_cons in Hnd as [Ha Hnd].
  assert (forall b, b ∈ (l1 ++ l2) ++ concat c1 ++ concat c2 ->
    entry_at kf (delete a h1) b = entry_at kf h b) as Hent.
  { intros b Hb. rewrite <- He. apply entry_at_frame, lookup_delete_ne. intros ->. done. }
  assert (entry_at kf (delete a h1) <$> ((l1 ++ l2) ++ concat c1 ++ concat c2) =
    entry_at kf h <$> ((l1 ++ l2) ++ concat c1 ++ concat c2)) as Hents.
  { apply list_fmap_ext. intros i b Hb. apply Hent. by eapply list_elem_of_lookup_2. }
  destruct (map_cons h _ _ a Hk HP) as [Em Emn].
  assert (NoDup (entry_at kf (delete a h1) <$> (l1 ++ l2) ++ concat c1 ++ concat c2).*1) as Hk'.
  { rewrite Hents. rewrite HP in Hk. rewrite !fmap_cons in Hk. by apply NoDup_cons in Hk as [_ ?]. }
  pose proof (Permutation_length HP) as HPl. pose proof (ok_fits _ _ _ _ _ Hok) as Hfit.
  rewrite Hsp in Hok.
  assert (table_ok kf (delete a h1) (set_used (Dict (type d) (privdata d)
    (Dictht (Some (<[length c1 := hd']> t)) (size (ht d)) (sizemask (ht d)) (used (ht d))))
    (u64 (used (ht d) - 1))) (<[length c1 := hd']> t) (c1 ++ (l1 ++ l2) :: c2)) as Hok'.
  { eapply (table_ok_update h _ d _ t c1 (l1 ++ a :: l2) (l1 ++ l2) c2 hd'); try done.
    - intros b Hb. rewrite lookup_delete_ne.
      + apply Hf. intros Hbl. apply NoDup_app in Hnd as (_ & Hd & _).
        apply (Hd b); [apply elem_of_app; by left|done].
      + intros ->. apply Ha, elem_of_app. by right.
    - intros b nb Hb Hnb. rewrite lookup_delete_ne in Hnb
        by (intros ->; apply Ha, elem_of_app; by left).
      assert (is_Some (h !! b)) as [nb0 Hnb0] by (apply Hs; by exists nb).
      specialize (He b). unfold entry_at in He. rewrite Hnb, Hnb0 in He. injection He as _ -> _.
      eapply (ok_place _ _ _ _ _ Hok); [by rewrite list_lookup_middle| |done].
      rewrite !elem_of_app, elem_of_cons in *. tauto.
    - simpl. rewrite (ok_used _ _ _ _ _ Hok), <- Hsp, HPl.
      rewrite wrap_small; simpl in *; lia.
    - simpl in HPl. lia. }
  eexists _, _, _. split; [reflexivity|]. split; [exact Hok'|]. split; [done|]. split; [done|].
  split.
  - intros b Hb. apply not_elem_of_cons in Hb as [Hba Hb].
    rewrite lookup_delete_ne by congruence. by apply Hf.
  - rewrite entries_middle by apply (ok_keys _ _ _ _ _ Hok'). rewrite Hents, Em.
    assert ((entry_at kf h a).1 = kf k) as Eka by (unfold entry_at; by rewrite Hn).
    rewrite Eka in *. by rewrite delete_insert_id.
Qed.

(** [dictDelete] and [dictDeleteNoFree] unbind the key. *)
Lemma dictGenericDelete_spec h d m k nofree :
  dict_rep kf h d m ->
  exists h' d', dictGenericDelete h d k nofree = Some (h', d',
      if m !! kf k then DICT_OK else DICT_ERR,
      match m !! kf k with
      | Some (k', v') =>
          if nofree then [] else
          (if keyDestructor (type d) then [FreeKey (privdata d) k'] else []) ++
          (if valDestructor (type d) then [FreeVal (privdata d) v'] else [])
      | None => []
      end) /\
    dict_rep kf h' d' (delete (kf k) m) /\ same_owner d d'.
Proof.
  intros (chains & [(Hty & Hht & Hch & ->)|(t & Hok & ->)]).
  { exists h, d. rewrite lookup_empty, delete_empty. unfold dictGenericDelete.
    assert (size (ht d) = 0) as -> by (by rewrite Hht). split; [done|]. split; [|done].
    exists chains. by left. }
  destruct (bucket_at_exists h d t chains k Hok) as (c1 & l & c2 & hd & Hat).
  destruct (search_cases _ _ _ _ _ _ _ _ _ Hok Hat)
    as [Hno|(l1 & a & l2 & n & -> & Hn & Ek & Ha0 & Ha & Hl1)].
  - rewrite (lookup_absent _ _ _ _ _ Hok Hno). exists h, d.
    rewrite delete_id by (by apply (lookup_absent _ _ _ _ _ Hok)).
    split; [|split; [exists chains; right; eauto|done]].
    unfold dictGenericDelete. destruct (ok_size _ _ _ _ _ Hok) as (n & Hn & Hsz & _).
    rewrite (proj2 (Z.eqb_neq (size (ht d)) 0)) by lia.
    rewrite (at_index _ _ _ _ _ _ _ _ _ Hat), (at_bucket _ _ _ _ _ _ _ _ _ Hat). bind_simpl.
    pose proof (at_chain _ _ _ _ _ _ _ _ _ Hat) as Hl.
    destruct (search_absent d (ok_type _ _ _ _ _ Hok) h k l hd _ Hl (chain_fuel_enough _ _ _ Hl))
      as [_ Hs].
    { intros a e Ha He Ek. apply (Hno a); [|unfold entry_at; by rewrite He].
      rewrite (at_split _ _ _ _ _ _ _ _ _ Hat), concat_middle. apply elem_of_app. by left. }
    destruct (Hs 0) as [p ->]. bind_simpl. by rewrite Z.eqb_refl.
  - rewrite (lookup_present _ _ _ _ _ _ _ Hok Ha Hn Ek).
    destruct (delete_present h d t chains k c1 l1 a l2 c2 hd n nofree Hok Hat Hn Ek Ha0 Hl1)
      as (h' & d' & t' & E & Hok' & Ho & _ & _ & Em).
    exists h', d'. split; [exact E|]. split; [|done]. eexists. right. exists t'. by rewrite Em.
Qed.

(** ** Emptying *)

Definition released h d (l : list Z) : list event :=
  flat_map (fun a => match h !! a with
                     | Some n => dictFreeKey d n ++ dictFreeVal d n
                     | None => []
                     end) l.

Lemma released_frame h h' d l :
  (forall a, a ∈ l -> h' !! a = h !! a) -> released h' d l = released h d l.
Proof.
  intros Hf. induction l as [|a l IH]; [done|]. simpl. rewrite Hf by left. f_equal.
  apply IH. intros. by apply Hf, list_elem_of_further.
Qed.

Lemma clear_chain_spec d : forall l h he us fuel,
  lseg h he l null -> (length l < fuel)%nat -> Z.of_nat (length l) <= us < 2 ^ 64 ->
  exists h', clear_chain fuel h d he us = Some (h', us - Z.of_nat (length l), released h d l) /\
    forall b, h' !! b = if decide (b ∈ l) then None else h !! b.
Proof.
  induction l as [|a l IH]; intros h he us [|fuel] Hl Hf Hus; try (simpl in Hf; lia); simpl in Hl;
    cbn [clear_chain].
  - subst he. cbn [Z.eqb]. exists h. split; [simpl; do 3 f_equal; lia|]. intros b.
    rewrite decide_False; [done|]. by intros ?%elem_of_nil.
  - pose proof (lseg_NoDup h he (a :: l) Hl) as [Hal _]%NoDup_cons.
    destruct Hl as (-> & Ha & n & Hn & Hl). change (a <> 0) in Ha.
    rewrite (proj2 (Z.eqb_neq a 0)), Hn by done. bind_simpl.
    assert (forall b, b ∈ l -> delete a h !! b = h !! b) as Hfr
      by (intros b Hb; apply lookup_delete_ne; congruence).
    simpl length in *.
    destruct (IH (delete a h) (enext n) (u64 (us - 1)) fuel) as (h' & E & Hd).
    { eapply lseg_frame; [|exact Hl]. done. }
    { lia. }
    { rewrite wrap_small by lia. lia. }
    rewrite E. bind_simpl. exists h'. split.
    { rewrite (released_frame h), (wrap_small 64) by (done || lia). simpl. rewrite Hn.
      rewrite <- (assoc_L app). do 3 f_equal. lia. }
    intros b. rewrite Hd, lookup_delete. destruct (decide (b ∈ l)) as [Hb|Hb].
    { by rewrite decide_True by (by apply list_elem_of_further). }
    destruct (decide (a = b)) as [->|Hab]; [by rewrite decide_True by left|].
    rewrite decide_False; [done|]. by intros [->|?]%elem_of_cons.
Qed.

Definition is_release (e : event) : bool := match e with Callback _ => false | _ => true end.

Lemma released_app h d l1 l2 : released h d (l1 ++ l2) = released h d l1 ++ released h d l2.
Proof. apply flat_map_app. Qed.

Lemma filter_released h d l : List.filter is_release (released h d l) = released h d l.
Proof.
  unfold released. induction l as [|a l IH]; [done|]. cbn [flat_map].
  rewrite List.filter_app, IH. f_equal. destruct (h !! a) as [n|]; [|done].
  unfold dictFreeKey, dictFreeVal. by repeat case_match.
Qed.

Lemma clear_buckets_spec d cb t : forall h i us chains,
  length chains = length t -> (forall j hd l, t !! j = Some hd -> chains !! j = Some l -> lseg h hd l null) ->
  NoDup (concat chains) -> us = Z.of_nat (length (concat chains)) -> us < 2 ^ 64 ->
  exists h' ev, clear_buckets h d cb i t us = Some (h', ev) /\
    List.filter is_release ev = released h d (concat chains) /\
    forall b, h' !! b = if decide (b ∈ concat chains) then None else h !! b.
Proof.
  induction t as [|he t IH]; intros h i us [|l chains] Hlen Hl Hnd Hus Hmax; try done;
    cbn [clear_buckets concat].
  - exists h, []. split; [done|]. split; [done|]. intros b. rewrite decide_False; [done|].
    by intros ?%elem_of_nil.
  - destruct (Z.gtb_spec us 0) as [Hpos|Hz].
    + pose proof (Hl 0%nat he l eq_refl eq_refl) as Hl0.
      cbn [concat] in Hnd, Hus. rewrite length_app in Hus.
      apply NoDup_app in Hnd as (_ & Hd & Hnd).
      destruct (clear_chain_spec d l h he us (chain_fuel h) Hl0 (chain_fuel_enough _ _ _ Hl0))
        as (h1 & E1 & Hd1); [lia|]. rewrite E1. bind_simpl.
      assert (forall b, b ∈ concat chains -> h1 !! b = h !! b) as Hf1.
      { intros b Hb. rewrite Hd1, decide_False; [done|]. intros Hbl. by apply (Hd b). }
      destruct (IH h1 (i + 1) (us - Z.of_nat (length l)) chains) as (h2 & ev & E2 & Hev & Hd2);
        [by injection Hlen| |done|lia|lia|].
      { intros j hd m Hj Hm. eapply lseg_frame; [|by apply (Hl (S j))]. intros b Hb.
        by apply Hf1, (elem_of_concat_lookup chains j m). }
      rewrite E2. bind_simpl. exists h2. eexists. split; [done|]. split.
      * rewrite !List.filter_app, Hev, filter_released, released_app.
        rewrite (released_frame h h1) by done. by destruct (cb && _).
      * intros b. rewrite Hd2, Hd1. destruct (decide (b ∈ concat chains)) as [Hb|Hb].
        { rewrite decide_True; [done|]. apply elem_of_app. by right. }
        destruct (decide (b ∈ l)) as [Hb'|Hb'].
        { rewrite decide_True; [done|]. apply elem_of_app. by left. }
        rewrite decide_False; [done|]. by intros [?|?]%elem_of_app.
    + assert (l ++ concat chains = []) as Hnil by (apply nil_length_inv; simpl in Hus; lia).
      exists h, []. rewrite Hnil. split; [done|]. split; [done|]. intros b.
      rewrite decide_False; [done|]. by intros ?%elem_of_nil.
Qed.

Lemma release_only_app ev1 ev2 :
  List.filter is_release ev1 = ev1 -> List.filter is_release ev2 = ev2 ->
  List.filter is_release (ev1 ++ ev2) = ev1 ++ ev2.
Proof. rewrite List.filter_app. by intros -> ->. Qed.

Lemma release_only_entry d e : List.filter is_release (dictFreeKey d e ++ dictFreeVal d e) = dictFreeKey d e ++ dictFreeVal d e.
Proof. unfold dictFreeKey, dictFreeVal. by repeat case_match. Qed.

Lemma clear_chain_releases d fuel : forall h he us h' us' ev,
  clear_chain fuel h d he us = Some (h', us', ev) -> List.filter is_release ev = ev.
Proof.
  induction fuel as [|fuel IH]; intros h he us h' us' ev; cbn [clear_chain]; [done|].
  case_match; [by intros [= <- <- <-]|]. destruct (h !! he) as [e|]; [|done]. bind_simpl.
  destruct (clear_chain _ _ _ _ _) as [[[h1 us1] ev1]|] eqn:E; [|done]. bind_simpl. intros [= <- <- <-].
  rewrite (assoc_L app). apply release_only_app; [apply release_only_entry|by eapply IH].
Qed.

(** Without a callback there is nothing else to call. *)
Lemma clear_buckets_releases d t : forall h i us h' ev,
  clear_buckets h d false i t us = Some (h', ev) -> List.filter is_release ev = ev.
Proof.
  induction t as [|he t IH]; intros h i us h' ev; cbn [clear_buckets andb app]; [by intros [= <- <-]|].
  case_match; [|by intros [= <- <-]].
  destruct (clear_chain _ _ _ _ _) as [[[h1 us1] ev1]|] eqn:E1; [|done]. bind_simpl.
  destruct (clear_buckets _ _ _ _ _ _) as [[h2 ev2]|] eqn:E2; [|done]. bind_simpl. intros [= <- <-].
  apply release_only_app; [by eapply clear_chain_releases|by eapply IH].
Qed.

(** [dictEmpty]: every entry is released, once, and the dictionary is as [dictCreate] made
    it. *)
Lemma dictClear_spec h d m cb :
  dict_rep kf h d m ->
  exists h' d' ev chains, _dictClear h d cb = Some (h', d', ev) /\
    dict_on kf h d chains m /\ List.filter is_release ev = released h d (concat chains) /\
    (cb = false -> ev = released h d (concat chains)) /\
    (forall b, h' !! b = if decide (b ∈ concat chains) then None else h !! b) /\
    dict_rep kf h' d' ∅ /\ same_owner d d'.
Proof.
  intros (chains & Hon). unfold _dictClear. pose proof Hon as [(Hty & Hht & -> & ->)|(t & Hok & ->)].
  - rewrite Hht. simpl. eexists h, _, [], []. split; [reflexivity|]. split; [done|].
    split; [done|]. split; [done|]. split; [intros b; rewrite decide_False; [done|by intros ?%elem_of_nil]|].
    split; [|done]. exists []. left. destruct Hty as [T1 T2 T3 T4].
    split; [|done]. exact (@TypeOk K kf (Dict (type d) (privdata d) _) T1 T2 T3 T4).
  - rewrite (ok_table _ _ _ _ _ Hok).
    destruct (clear_buckets_spec d cb t h 0 (used (ht d)) chains) as (h' & ev & E & Hev & Hd);
      [apply (ok_chains _ _ _ _ _ Hok)|intros; by eapply (ok_chain _ _ _ _ _ Hok)
      |apply (ok_nodup _ _ _ _ _ Hok)|apply (ok_used _ _ _ _ _ Hok)| |].
    { rewrite (ok_used _ _ _ _ _ Hok). pose proof (ok_fits _ _ _ _ _ Hok). lia. }
    rewrite E. bind_simpl. eexists h', _, ev, chains. split; [reflexivity|]. split; [done|].
    split; [done|]. split; [intros ->; by rewrite <- Hev, (clear_buckets_releases _ _ _ _ _ _ _ E)|].
    split; [done|]. split; [|done]. exists []. left.
    destruct (ok_type _ _ _ _ _ Hok) as [T1 T2 T3 T4].
    split; [|done]. exact (@TypeOk K kf (Dict (type d) (privdata d) _) T1 T2 T3 T4).
Qed.

(** ** Iteration *)

(** The addresses an iterator has still to return. *)
Definition it_at h (chains : list (list Z)) (it : dictIterator) (rest : list Z) : Prop :=
  (entry it = 0 /\ -1 <= index it /\ rest = concat (drop (Z.to_nat (index it + 1)) chains)) \/
  (entry it <> 0 /\ 0 <= index it /\ exists l1 l2,
    chains !! Z.to_nat (index it) = Some (l1 ++ l2) /\ lseg h (nextEntry it) l2 null /\
    rest = l2 ++ concat (drop (Z.to_nat (index it + 1)) chains)).

(** What [dictNext] does with an address left. *)
Definition next_result h (chains : list (list Z)) (rest : list Z)
    (r : option (dictIterator * Z)) : Prop :=
  match rest with
  | [] => exists it', r = Some (it', 0)
  | a :: rest => exists it' l1 l2 n, r = Some (it', a) /\ a <> 0 /\ h !! a = Some n /\
      entry it' <> 0 /\ 0 <= index it' /\ chains !! Z.to_nat (index it') = Some (l1 ++ a :: l2) /\
      lseg h (nextEntry it') l2 null /\
      rest = l2 ++ concat (drop (Z.to_nat (index it' + 1)) chains)
  end.

Lemma next_loop_outer h d t chains : table_ok kf h d t chains -> forall fuel idx nx,
  -1 <= idx -> size (ht d) - idx < Z.of_nat fuel + 1 -> (0 < fuel)%nat ->
  next_result h chains (concat (drop (Z.to_nat (idx + 1)) chains))
    (next_loop fuel h d (DictIterator idx 0 nx)).
Proof.
  intros Hok. pose proof (ok_length _ _ _ _ _ Hok) as Hlen. pose proof (ok_chains _ _ _ _ _ Hok) as Hch.
  induction fuel as [|fuel IH]; intros idx nx Hidx Hf Hpos; [lia|]. cbn [next_loop].
  cbn [entry index nextEntry Z.eqb]. destruct (Z.geb_spec (idx + 1) (size (ht d))) as [Hge|Hlt].
  { rewrite drop_ge by lia. simpl. eauto. }
  destruct (lookup_lt_is_Some_2 t (Z.to_nat (idx + 1))) as [a Ha]; [lia|].
  destruct (lookup_lt_is_Some_2 chains (Z.to_nat (idx + 1))) as [l Hl]; [lia|].
  assert (bucket d (idx + 1) = Some a) as ->.
  { unfold bucket. rewrite (ok_table _ _ _ _ _ Hok). simpl. rewrite <- Ha.
    rewrite <- znth_nat. f_equal. lia. }
  bind_simpl. pose proof (ok_chain _ _ _ _ _ Hok _ _ _ Ha Hl) as Hls.
  rewrite (drop_S _ _ _ Hl). cbn [concat].
  replace (S (Z.to_nat (idx + 1))) with (Z.to_nat (idx + 1 + 1)) by lia.
  destruct l as [|b l]; simpl in Hls.
  - subst a. rewrite Z.eqb_refl. apply IH; lia.
  - destruct Hls as (-> & Hb & n & Hn & Hls). change (b <> 0) in Hb.
    rewrite (proj2 (Z.eqb_neq b 0)), Hn by done. bind_simpl.
    eexists _, [], l, n. split; [done|]. split; [done|]. split; [done|]. split; [done|].
    cbn [index nextEntry]. split; [lia|]. split; [done|]. split; [done|]. done.
Qed.

Lemma dictNext_spec h d t chains it rest :
  table_ok kf h d t chains -> it_at h chains it rest ->
  next_result h chains rest (dictNext h d it).
Proof.
  intros Hok Hit. unfold dictNext. pose proof (ok_length _ _ _ _ _ Hok) as Hlen.
  destruct it as [idx e nx]. destruct Hit as [(He & Hi & ->)|(He & Hi & l1 & l2 & Hl & Hls & ->)];
    cbn [entry index nextEntry] in *.
  - subst e. apply (next_loop_outer h d t); try done; lia.
  - set (fuel := S (Z.to_nat (size (ht d)))). cbn [next_loop entry index nextEntry].
    rewrite (proj2 (Z.eqb_neq e 0)) by done. destruct l2 as [|b l2]; simpl in Hls.
    + subst nx. rewrite Z.eqb_refl. apply (next_loop_outer h d t); try done; lia.
    + destruct Hls as (-> & Hb & n & Hn & Hls). change (b <> 0) in Hb.
      rewrite (proj2 (Z.eqb_neq b 0)), Hn by done. bind_simpl.
      eexists _, l1, l2, n. split; [done|]. split; [done|]. split; [done|]. split; [done|].
      cbn [index nextEntry]. done.
Qed.

(** A loop over the dictionary that may delete the entry it was just given: what the
    iterator saves the next entry for. *)
Fixpoint iterate (fuel : nat) (del : Z -> bool) h d (it : dictIterator)
    : option (store * dict * list (Z * Z)) :=
  match fuel with
  | O => None
  | S fuel =>
      '(it, a) ← dictNext h d it;
      if a =? 0 then Some (h, d, []) else
      e ← h !! a;
      '(h, d) ← (if del (ekey e) then '(h, d, _, _) ← dictDelete h d (ekey e); Some (h, d)
                 else Some (h, d));
      '(h, d, es) ← iterate fuel del h d it;
      Some (h, d, (ekey e, val e) :: es)
  end.

Lemma delete_given h d t chains it a l1 l2 n :
  table_ok kf h d t chains -> chains !! Z.to_nat (index it) = Some (l1 ++ a :: l2) ->
  0 <= index it -> h !! a = Some n -> a <> 0 ->
  lseg h (nextEntry it) l2 null -> entry it <> 0 ->
  exists h' d' t' chains' ev, dictDelete h d (ekey n) = Some (h', d', DICT_OK, ev) /\
    table_ok kf h' d' t' chains' /\
    (list_to_map (entry_at kf h' <$> concat chains') : gmap K (Z * Z)) =
      delete (kf (ekey n)) (list_to_map (entry_at kf h <$> concat chains)) /\
    it_at h' chains' it (l2 ++ concat (drop (Z.to_nat (index it + 1)) chains)) /\
    (forall b, b ∈ l2 ++ concat (drop (Z.to_nat (index it + 1)) chains) -> h' !! b = h !! b).
Proof.
  intros Hok Hc Hi Hn Ha Hl2 He.
  destruct (bucket_at_exists h d t chains (ekey n) Hok) as (c1 & l & c2 & hd & Hat).
  assert (length c1 = Z.to_nat (index it)) as Ec.
  { pose proof (at_index _ _ _ _ _ _ _ _ _ Hat) as Hidx.
    rewrite (ok_place _ _ _ _ _ Hok _ _ a n Hc) in Hidx;
      [lia|rewrite elem_of_app, elem_of_cons; auto|done]. }
  pose proof (at_split _ _ _ _ _ _ _ _ _ Hat) as Hs.
  assert (l = l1 ++ a :: l2) as ->.
  { rewrite Hs, <- Ec, list_lookup_middle in Hc by done. congruence. }
  pose proof (ok_keys _ _ _ _ _ Hok) as Hk. pose proof (ok_nodup _ _ _ _ _ Hok) as Hnd.
  assert (concat chains ≡ₚ a :: (l1 ++ l2) ++ concat c1 ++ concat c2) as HP.
  { by rewrite Hs, concat_middle, <- (Permutation_middle l1). }
  destruct (delete_present h d t chains (ekey n) c1 l1 a l2 c2 hd n false Hok Hat Hn eq_refl Ha)
    as (h' & d' & t' & E & Hok' & _ & _ & Hf & Em).
  { intros b nb Hb Hnb Ekb. rewrite HP in Hk. rewrite !fmap_cons in Hk.
    apply NoDup_cons in Hk as [Hk _]. apply Hk. apply list_elem_of_fmap.
    exists (entry_at kf h b). split; [unfold entry_at; by rewrite Hn, Hnb|].
    apply list_elem_of_fmap_2. rewrite !elem_of_app. auto. }
  assert (Z.to_nat (index it + 1) = S (length c1)) as Ei by lia.
  assert (drop (Z.to_nat (index it + 1)) chains = c2) as Ed by (by rewrite Hs, Ei, drop_middle).
  assert (drop (Z.to_nat (index it + 1)) (c1 ++ (l1 ++ l2) :: c2) = c2) as Ed'
    by (by rewrite Ei, drop_middle).
  assert (forall b, b ∈ l2 ++ concat c2 -> h' !! b = h !! b) as Hfr.
  { rewrite HP in Hnd. apply NoDup_cons in Hnd as [Han Hnd].
    intros b Hb. apply Hf. rewrite elem_of_cons. intros [->|Hb1].
    - apply Han. rewrite !elem_of_app in *. tauto.
    - rewrite <- (assoc_L app) in Hnd. apply NoDup_app in Hnd as (_ & Hd & _).
      apply (Hd b Hb1). rewrite !elem_of_app in *. tauto. }
  exists h', d', t', (c1 ++ (l1 ++ l2) :: c2). eexists. split; [exact E|]. split; [done|].
  split; [done|]. rewrite Ed. split; [|done]. right. split; [done|]. split; [done|].
  exists l1, l2. split; [by rewrite <- Ec, list_lookup_middle|]. split; [|by rewrite Ed'].
  eapply lseg_frame; [|exact Hl2]. intros b Hb. apply Hfr, elem_of_app. by left.
Qed.

(** The keys a loop deletes. *)
Definition drop_keys (del : Z -> bool) (m : gmap K (Z * Z)) (es : list (Z * Z)) : gmap K (Z * Z) :=
  fold_left (fun m kv => if del kv.1 then delete (kf kv.1) m else m) es m.

Lemma drop_keys_lookup del es : forall m x,
  drop_keys del m es !! x =
    if decide (Exists (fun kv => del kv.1 = true /\ kf kv.1 = x) es) then None else m !! x.
Proof.
  unfold drop_keys. induction es as [|kv es IH]; intros m x; cbn [fold_left].
  - rewrite decide_False; [done|]. by intros ?%Exists_nil.
  - rewrite IH. destruct (decide (Exists _ es)) as [He|He].
    { rewrite decide_True; [done|]. by right. }
    destruct (del kv.1) eqn:Ed.
    + destruct (decide (kf kv.1 = x)) as [<-|Hne].
      * rewrite lookup_delete_eq, decide_True; [done|]. by left.
      * rewrite lookup_delete_ne by done. rewrite decide_False; [done|].
        by intros [[_ ?]|?]%Exists_cons.
    + rewrite decide_False; [done|]. intros [[? _]|?]%Exists_cons; [congruence|done].
Qed.

Lemma iterate_spec del : forall rest fuel h d t chains it,
  table_ok kf h d t chains -> it_at h chains it rest -> (length rest < fuel)%nat ->
  exists h' d', iterate fuel del h d it = Some (h', d', (fun a => (entry_at kf h a).2) <$> rest) /\
    dict_rep kf h' d' (drop_keys del (list_to_map (entry_at kf h <$> concat chains))
      ((fun a => (entry_at kf h a).2) <$> rest)).
Proof.
  induction rest as [|a rest IH]; intros [|fuel] h d t chains it Hok Hit Hf; try (simpl in Hf; lia);
    pose proof (dictNext_spec h d t chains it _ Hok Hit) as Hnx; cbn [iterate].
  - destruct Hnx as (it' & E). rewrite E. bind_simpl. cbn [Z.eqb]. exists h, d.
    split; [done|]. exists chains. right. eauto.
  - destruct Hnx as (it' & l1 & l2 & n & E & Ha & Hn & He & Hi & Hc & Hl2 & ->).
    rewrite E. bind_simpl. rewrite (proj2 (Z.eqb_neq a 0)), Hn by done. bind_simpl.
    assert ((entry_at kf h a).2 = (ekey n, val n)) as Ea by (unfold entry_at; by rewrite Hn).
    cbn [fmap list_fmap]. rewrite Ea. unfold drop_keys. cbn [fold_left fst].
    simpl in Hf. destruct (del (ekey n)) eqn:Ed.
    + destruct (delete_given h d t chains it' a l1 l2 n Hok Hc Hi Hn Ha Hl2 He)
        as (h1 & d1 & t1 & ch1 & ev & E1 & Hok1 & Em & Hit1 & Hfr).
      rewrite E1. bind_simpl.
      destruct (IH fuel h1 d1 t1 ch1 it' Hok1 Hit1) as (h' & d' & E' & Hrep); [lia|].
      rewrite E'. bind_simpl. exists h', d'. rewrite Em in Hrep.
      assert (forall l : list Z, (forall b, b ∈ l -> h1 !! b = h !! b) ->
        (fun a => (entry_at kf h1 a).2) <$> l = (fun a => (entry_at kf h a).2) <$> l) as Hext.
      { intros l Hl. apply list_fmap_ext. intros i b Hb. f_equal. apply entry_at_frame, Hl.
        by eapply list_elem_of_lookup_2. }
      rewrite Hext in Hrep |- * by done. done.
    + bind_simpl. destruct (IH fuel h d t chains it' Hok) as (h' & d' & E' & Hrep); [|lia|].
      { right. split; [done|]. split; [done|]. exists (l1 ++ [a]), l2.
        rewrite <- (assoc_L app). done. }
      rewrite E'. bind_simpl. exists h', d'. done.
Qed.

Lemma iterate_all del h d m :
  dict_rep kf h d m ->
  exists h' d' es, iterate (S (base.size m)) del h d dictGetIterator = Some (h', d', es) /\
    es ≡ₚ (map_to_list m).*2 /\ dict_rep kf h' d' (filter (fun x => del x.2.1 = false) m).
Proof.
  intros (chains & [(Hty & Hht & Hch & ->)|(t & Hok & ->)]).
  - exists h, d, []. rewrite map_filter_empty, map_to_list_empty. split; [|split; [done|]].
    + cbn [iterate]. unfold dictNext. assert (size (ht d) = 0) as Es by (by rewrite Hht).
      rewrite Es. cbn [next_loop]. rewrite Es. done.
    + exists chains. by left.
  - rewrite (map_size _ _ _ _ Hok).
    destruct (iterate_spec del (concat chains) (S (length (concat chains))) h d t chains
      dictGetIterator Hok) as (h' & d' & E & Hrep); [left; done|lia|].
    exists h', d'. eexists. split; [exact E|]. pose proof (ok_keys _ _ _ _ _ Hok) as Hk. split.
    + rewrite (map_to_list_to_map _ Hk), <- list_fmap_compose. done.
    + assert (filter (fun x : K * (Z * Z) => del x.2.1 = false)
        (list_to_map (entry_at kf h <$> concat chains) : gmap K (Z * Z)) =
        drop_keys del (list_to_map (entry_at kf h <$> concat chains))
          ((fun a => (entry_at kf h a).2) <$> concat chains)) as ->; [|done].
      apply map_eq. intros x. rewrite drop_keys_lookup, map_lookup_filter.
      destruct (list_to_map _ !! x) as [kv|] eqn:Ex; simpl; [|by case_decide].
      apply (lookup_entries _ _ _ Hk) in Ex as Hin.
      apply list_elem_of_fmap in Hin as (a & Ea & Ha).
      destruct (chain_member _ _ _ _ _ Hok Ha) as (_ & _ & n & _ & _ & Hn & _).
      unfold entry_at in Ea. rewrite Hn in Ea. injection Ea as -> ->. cbn [fst].
      destruct (decide (Exists _ _)) as [He|He].
      * apply Exists_exists in He as (kv & Hkv & Hd & Hkf).
        apply list_elem_of_fmap in Hkv as (b & -> & Hb).
        destruct (chain_member _ _ _ _ _ Hok Hb) as (_ & _ & nb & _ & _ & Hnb & _).
        unfold entry_at in Hd, Hkf. rewrite Hnb in Hd, Hkf. cbn [snd fst] in Hd, Hkf.
        pose proof (lookup_present h d t chains (ekey n) b nb Hok Hb Hnb Hkf) as Eb.
        rewrite Ex in Eb. injection Eb as Ekk _. by rewrite Ekk, Hd.
      * destruct (del (ekey n)) eqn:Ed; [|done]. destruct He. apply Exists_exists.
        exists (ekey n, val n). split; [|done]. apply list_elem_of_fmap. exists a.
        split; [|done]. unfold entry_at. by rewrite Hn.
Qed.
End dict.

(** * Any sequence of calls *)

Inductive dict_call :=
| Add (k v : Z) | Replace (k v : Z) | Delete (k : Z) (nofree : bool) | Fetch (k : Z) | Empty (callback : bool).

Section runs.
Context {K : Type} `{Countable K} (kf : Z -> K) `{AllocatorOk dictEntry}.

(** One call: its result and the calls it made to the destructors and to the callback. *)
Definition step (h : store) (d : dict) (c : dict_call) : option (store * dict * (Z * list event)) :=
  match c with
  | Add k v => '(h, d, r) ← dictAdd h d k v; Some (h, d, (r, []))
  | Replace k v => '(h, d, r, ev) ← dictReplace h d k v; Some (h, d, (r, ev))
  | Delete k nofree => '(h, d, r, ev) ← dictGenericDelete h d k nofree; Some (h, d, (r, ev))
  | Fetch k => r ← dictFetchValue h d k; Some (h, d, (r, []))
  | Empty callback => '(h, d, ev) ← dictEmpty h d callback; Some (h, d, (0, ev))
  end.

Fixpoint run (h : store) (d : dict) (cs : list dict_call)
    : option (store * dict * list (Z * list event)) :=
  match cs with
  | [] => Some (h, d, [])
  | c :: cs =>
      '(h, d, r) ← step h d c;
      '(h, d, rs) ← run h d cs;
      Some (h, d, r :: rs)
  end.

(** The calls to the destructors for a key and a value that leave the dictionary together. *)
Definition release (d : dict) (kv : Z * Z) : list event :=
  (if keyDestructor (type d) then [FreeKey (privdata d) kv.1] else []) ++
  (if valDestructor (type d) then [FreeVal (privdata d) kv.2] else []).

(** The same call on a finite map from keys to the key pointer kept and the value. *)
Definition map_step (d : dict) (m : gmap K (Z * Z)) (c : dict_call) : gmap K (Z * Z) * (Z * list event) :=
  match c with
  | Add k v =>
      if m !! kf k then (m, (DICT_ERR, [])) else (<[kf k := (new_key d k, new_val d v)]> m, (DICT_OK, []))
  | Replace k v =>
      match m !! kf k with
      | Some (k', v') =>
          (<[kf k := (k', new_val d v)]> m,
           (0, if valDestructor (type d) then [FreeVal (privdata d) v'] else []))
      | None => (<[kf k := (new_key d k, new_val d v)]> m, (1, []))
      end
  | Delete k nofree =>
      match m !! kf k with
      | Some kv => (delete (kf k) m, (DICT_OK, if nofree then [] else release d kv))
      | None => (m, (DICT_ERR, []))
      end
  | Fetch k => (m, (default 0 (snd <$> m !! kf k), []))
  | Empty _ => (∅, (0, flat_map (release d) (map_to_list m).*2))
  end.

(** A map has no order: the entries of a dictionary that is emptied are released one after the
    other in some order, with calls to the callback between them only if there is one. All other
    results are equal. *)
Definition same_result (d : dict) (m : gmap K (Z * Z)) (c : dict_call) (r : Z * list event) : Prop :=
  match c with
  | Empty callback => exists kvs, kvs ≡ₚ (map_to_list m).*2 /\ r.1 = 0 /\
      List.filter is_release r.2 = flat_map (release d) kvs /\
      (callback = false -> r.2 = flat_map (release d) kvs)
  | _ => r = (map_step d m c).2
  end.

Fixpoint same_results (d : dict) (m : gmap K (Z * Z)) (cs : list dict_call) (rs : list (Z * list event))
    : Prop :=
  match cs, rs with
  | [], [] => True
  | c :: cs, r :: rs => same_result d m c r /\ same_results d (map_step d m c).1 cs rs
  | _, _ => False
  end.

Fixpoint map_run (d : dict) (m : gmap K (Z * Z)) (cs : list dict_call) : gmap K (Z * Z) :=
  match cs with [] => m | c :: cs => map_run d (map_step d m c).1 cs end.

Lemma release_owner d d' : same_owner d d' -> release d' = release d.
Proof. intros [Et Ep]. unfold release. by rewrite Et, Ep. Qed.

Lemma map_step_owner d d' m c : same_owner d d' -> map_step d' m c = map_step d m c.
Proof.
  intros Ho. destruct c; simpl; rewrite ?(new_val_owner d d'), ?(new_key_owner d d'), ?(release_owner d d')
    by done; destruct Ho as [Et Ep]; rewrite ?Et, ?Ep; done.
Qed.

Lemma map_run_owner d d' cs : forall m, same_owner d d' -> map_run d' m cs = map_run d m cs.
Proof.
  induction cs as [|c cs IH]; intros m Ho; [done|]. cbn [map_run].
  rewrite (map_step_owner d d') by done. by rewrite IH.
Qed.

(** What is released when a dictionary is emptied, in terms of its map. *)
Lemma released_entries h d chains m :
  dict_on kf h d chains m ->
  exists kvs, kvs ≡ₚ (map_to_list m).*2 /\ released h d (concat chains) = flat_map (release d) kvs.
Proof.
  intros [(_ & _ & -> & ->)|(t & Hok & ->)].
  - exists []. by rewrite map_to_list_empty.
  - exists ((fun a => (entry_at kf h a).2) <$> concat chains). split.
    + rewrite (map_to_list_to_map _ (ok_keys _ _ _ _ _ Hok)), <- list_fmap_compose. done.
    + assert (forall a, a ∈ concat chains -> is_Some (h !! a)) as Hin.
      { intros a Ha. destruct (chain_member kf _ _ _ _ _ Hok Ha) as (_ & _ & n & _ & _ & Hn & _). by exists n. }
      clear Hok. induction (concat chains) as [|a l IH]; [done|].
      cbn [released flat_map fmap list_fmap]. f_equal.
      * destruct (Hin a) as [n Hn]; [by left|]. unfold entry_at. by rewrite Hn.
      * apply IH. intros b Hb. by apply Hin, list_elem_of_further.
Qed.

Lemma step_spec h d m c :
  dict_rep kf h d m -> Z.of_nat (base.size m) < 2 ^ 62 ->
  exists h' d' r, step h d c = Some (h', d', r) /\ same_result d m c r /\
    dict_rep kf h' d' (map_step d m c).1 /\ same_owner d d' /\
    (base.size (map_step d m c).1 <= S (base.size m))%nat.
Proof.
  assert (forall x kv, (base.size (<[x := kv]> m) <= S (base.size m))%nat) as Hins.
  { intros x kv. rewrite map_size_insert. case_match; simpl; lia. }
  intros Hrep Hm. destruct c as [k v|k v|k nofree|k|cb]; cbn [step map_step same_result].
  - destruct (dictAdd_spec kf h d m k v Hrep Hm) as (h' & d' & E & Hrep' & Ho). rewrite E.
    bind_simpl. eexists h', d', _. split; [done|]. destruct (m !! kf k); cbn [fst snd]; auto.
  - destruct (dictReplace_spec kf h d m k v Hrep Hm) as (h' & d' & E & Hrep' & Ho). rewrite E.
    bind_simpl. eexists h', d', _. split; [done|].
    destruct (m !! kf k) as [[k' v']|]; cbn [fst snd]; auto.
  - destruct (dictGenericDelete_spec kf h d m k nofree Hrep) as (h' & d' & E & Hrep' & Ho).
    rewrite E. bind_simpl. eexists h', d', _. split; [done|].
    destruct (m !! kf k) as [[k' v']|] eqn:Ek; cbn [fst snd]; (split; [done|]).
    + split; [done|]. split; [done|]. rewrite map_size_delete, Ek. lia.
    + rewrite delete_id in Hrep' by done. auto.
  - destruct Hrep as (chains & Hon). rewrite (dictFetchValue_spec kf h d chains m k Hon).
    bind_simpl. eexists h, d, _. split; [done|]. split; [done|]. split; [by exists chains|].
    split; [done|]. simpl. lia.
  - destruct (dictClear_spec kf h d m cb Hrep)
      as (h' & d' & ev & chains & E & Hon & Hev & Hall & _ & Hrep' & Ho).
    destruct (released_entries _ _ _ _ Hon) as (kvs & Hp & Er). rewrite Er in Hev, Hall.
    unfold dictEmpty. rewrite E. bind_simpl. eexists h', d', _. split; [done|].
    split; [by exists kvs|]. split; [done|]. split; [done|]. simpl. rewrite map_size_empty. lia.
Qed.

Lemma same_result_owner d d' m c r : same_owner d d' -> same_result d' m c r -> same_result d m c r.
Proof.
  intros Ho. unfold same_result. rewrite (map_step_owner d d') by done.
  by rewrite (release_owner d d').
Qed.

Lemma same_results_owner d d' cs : same_owner d d' ->
  forall m rs, same_results d' m cs rs -> same_results d m cs rs.
Proof.
  intros Ho. induction cs as [|c cs IH]; intros m [|r rs]; try done. cbn [same_results].
  rewrite (map_step_owner d d') by done. intros [Hr Hrs]. split; [by eapply same_result_owner|by apply IH].
Qed.

Lemma run_spec cs : forall h d m,
  dict_rep kf h d m -> Z.of_nat (base.size m + length cs) < 2 ^ 62 ->
  exists h' d' rs, run h d cs = Some (h', d', rs) /\ same_results d m cs rs /\
    dict_rep kf h' d' (map_run d m cs).
Proof.
  induction cs as [|c cs IH]; intros h d m Hrep Hm; cbn [run map_run].
  - by exists h, d, [].
  - simpl length in Hm.
    destruct (step_spec h d m c Hrep) as (h1 & d1 & r & E & Hr & Hrep1 & Ho & Hsz); [lia|]. rewrite E.
    bind_simpl. destruct (IH h1 d1 _ Hrep1) as (h' & d' & rs & E' & Hrs & Hrep'); [lia|].
    rewrite E'. bind_simpl. rewrite (map_run_owner d d1) in Hrep' by done.
    exists h', d', (r :: rs). split; [done|]. split; [split; [done|by eapply same_results_owner]|done].
Qed.

(** C3. The dictionary refines a finite map. From [dictCreate] with callbacks that agree on
    what a key is, every sequence of additions, replacements, deletions, fetches and
    clearings runs to its end without a bad pointer access, returns what the map returns
    (an addition of a key that exists fails, a replacement says which case it was), keeps
    the key pointer first stored and the value last stored, and calls the destructors on
    exactly the keys and values that leave the map: a clearing releases every entry once. *)
Theorem dict_refines_map t pd h cs :
  type_ok kf (dictCreate t pd) -> Z.of_nat (length cs) < 2 ^ 62 ->
  exists h' d' rs, run h (dictCreate t pd) cs = Some (h', d', rs) /\
    same_results (dictCreate t pd) ∅ cs rs /\
    dict_rep kf h' d' (map_run (dictCreate t pd) ∅ cs).
Proof.
  intros Hty Hlen. apply run_spec; [|by rewrite map_size_empty].
  exists []. by left.
Qed.

(** C28. An iterator returns every binding exactly once and then null, even when the loop
    deletes some of the entries it was just given: [dictNext] has already saved the next
    entry when it returns one. What is left are the bindings the loop kept. *)
Theorem dictNext_visits_all h d m del :
  dict_rep kf h d m ->
  exists h' d' es, iterate (S (base.size m)) del h d dictGetIterator = Some (h', d', es) /\
    es ≡ₚ (map_to_list m).*2 /\ dict_rep kf h' d' (filter (fun x => del x.2.1 = false) m).
Proof. apply iterate_all. Qed.
End runs.

(** The table never grows: once there is one, [dictExpand], [dictResize] and the
    automatic expansion return [DICT_OK] and leave the dictionary as it is (the array
    [dictExpand] allocates is lost), although the comments say that they resize it. The
    first table has the least power of two of buckets that holds the size asked for. *)
Theorem dictExpand_never_grows d t sz :
  table (ht d) = Some t -> size (ht d) <> 0 -> 0 <= used (ht d) < 2 ^ 31 ->
  used (ht d) <= sz < LONG_MAX ->
  dictExpand d sz = Some (d, DICT_OK) /\ dictResize d = Some (d, DICT_OK) /\
  _dictExpandIfNeeded d = Some (d, DICT_OK).
Proof.
  intros Ht Hz Hu Hsz. unfold LONG_MAX in *.
  assert (forall x, used (ht d) <= x < LONG_MAX -> dictExpand d x = Some (d, DICT_OK)) as Hnop
    by (intros x Hx; eapply dictExpand_nop; [done|lia|lia]).
  unfold LONG_MAX in *. split; [by apply Hnop|]. split.
  - unfold dictResize. assert (i32 (used (ht d)) = used (ht d)) as ->
      by (unfold sint; rewrite Z.mod_small; lia).
    unfold DICT_HT_INITIAL_SIZE. destruct (Z.ltb_spec (used (ht d)) 4);
      rewrite wrap_small by lia; apply Hnop; lia.
  - unfold _dictExpandIfNeeded. rewrite (proj2 (Z.eqb_neq _ 0)) by done. case_match; [|done].
    rewrite wrap_small by lia. apply Hnop. lia.
Qed.

(** ** Witnesses *)

Import BumpAllocator.

(** Keys are their residues modulo 10. *)
Definition mod_type : dictType :=
  DictType (fun k => k mod 10) None (Some (fun _ v => v + 1))
    (Some (fun _ a b => Z.b2z (a mod 10 =? b mod 10))) true true.

Lemma mod_type_ok : type_ok (fun k => k mod 10) (dictCreate mod_type 7).
Proof.
  split; try done.
  - intros k1 k2. unfold dictCompareKeys. simpl. by destruct (Z.eqb_spec (k1 mod 10) (k2 mod 10)).
  - intros k. unfold dictHashKey. simpl. pose proof (Z.mod_pos_bound k 10). lia.
Qed.

Definition sample_calls : list dict_call :=
  [Fetch 1; Add 1 5; Add 11 6; Replace 21 7; Add 4 1; Delete 1 false; Fetch 4; Empty false; Fetch 4].

Example sample_results :
  snd <$> run ∅ (dictCreate mod_type 7) sample_calls =
    Some [(0, []); (DICT_OK, []); (DICT_ERR, []); (0, [FreeVal 7 6]); (DICT_OK, []);
      (DICT_OK, [FreeKey 7 1; FreeVal 7 8]); (2, []); (0, [FreeKey 7 4; FreeVal 7 2]); (0, [])].
Proof. vm_compute. reflexivity. Qed.

Lemma dict_refines_map_witness :
  exists h' d' rs, run ∅ (dictCreate mod_type 7) sample_calls = Some (h', d', rs) /\
    same_results (fun k => k mod 10) (dictCreate mod_type 7) ∅ sample_calls rs /\
    dict_rep (fun k => k mod 10) h' d'
      (map_run (fun k => k mod 10) (dictCreate mod_type 7) ∅ sample_calls).
Proof.
  apply (dict_refines_map (fun k => k mod 10) mod_type 7 ∅ sample_calls mod_type_ok).
  vm_compute. reflexivity.
Defined.

Definition one_bucket_each : dict :=
  Dict mod_type 7 (Dictht (Some [0; 2; 0; 1]) 4 3 2).

Definition two_entries : store := <[2 := DictEntry 21 8 0]> {[1 := DictEntry 3 9 0]}.

Lemma two_entries_rep :
  dict_rep (fun k => k mod 10) two_entries one_bucket_each (<[1 := (21, 8)]> {[3 := (3, 9)]}).
Proof.
  exists [[]; [2]; []; [1]]. right. exists [0; 2; 0; 1]. split; [|vm_compute; reflexivity].
  split; try done.
  - destruct mod_type_ok as [T1 T2 T3 T4]. by split.
  - exists 2. done.
  - intros i hd l Hi Hl. destruct i as [|[|[|[|i]]]]; simplify_eq/=; try done;
      (split; [done|]; split; [done|]; eexists; split; [reflexivity|done]).
  - intros i l a n Hi Ha Hn. destruct i as [|[|[|[|i]]]]; simplify_eq/=;
      try (by apply elem_of_nil in Ha); apply list_elem_of_singleton in Ha as ->; by injection Hn as <-.
  - apply (bool_decide_unpack _). vm_compute. done.
  - apply (bool_decide_unpack _). vm_compute. done.
Qed.

Lemma dictNext_visits_all_witness :
  exists h' d' es, iterate (S (base.size (<[1 := (21, 8)]> {[3 := (3, 9)]} : gmap Z (Z * Z))))
      (Z.eqb 21) two_entries one_bucket_each dictGetIterator = Some (h', d', es) /\
    es ≡ₚ (map_to_list (<[1 := (21, 8)]> {[3 := (3, 9)]} : gmap Z (Z * Z))).*2 /\
    dict_rep (fun k => k mod 10) h' d'
      (filter (fun x => (Z.eqb 21) x.2.1 = false) (<[1 := (21, 8)]> {[3 := (3, 9)]})).
Proof.
  exact (dictNext_visits_all (fun k => k mod 10) two_entries one_bucket_each _ (Z.eqb 21)
    two_entries_rep).
Defined.

Lemma dictExpand_never_grows_witness :
  dictExpand one_bucket_each 1000 = Some (one_bucket_each, DICT_OK) /\
  dictResize one_bucket_each = Some (one_bucket_each, DICT_OK) /\
  _dictExpandIfNeeded one_bucket_each = Some (one_bucket_each, DICT_OK).
Proof.
  apply (dictExpand_never_grows one_bucket_each [0; 2; 0; 1] 1000); simpl;
    [reflexivity|discriminate|lia|split; [lia|reflexivity]].
Defined.
