(* ===== verification/DictDemo.v ===== *)
(** The program of src/demo_dict/demo_dict.c: a dictionary of strings. Its callbacks put the hash
    function of dict.c and [strcmp] together; what Dict.v proves of any callbacks then says that
    the dictionary refines a map from texts. *)

From Stdlib Require Import Ascii String.
From S2P Require Import Prelude Heap Hashes Dict.
Import Murmur WangFacts.

Section callbacks.
Context (text : Z -> list Z).

(** [text p] is the string at the pointer [p]; the seed is the one dict.c starts with. *)
(* src/demo_dict/demo_dict.c:20-24 hashFunction *)
Definition string_hash (key : Z) : Z := dictGenHashFunction 5381 (text key).

(* src/demo_dict/demo_dict.c:38-41 keyCompare *)
Definition string_compare (privdata key1 key2 : Z) : Z := Z.b2z (bool_decide (text key1 = text key2)).

(* src/demo_dict/demo_dict.c:48-55 myDictType *)
Definition myDictType : dictType := DictType string_hash None None (Some string_compare) false false.

Lemma final_mix_range h : 0 <= final_mix h < 2 ^ 32.
Proof using Type.
  unfold final_mix. apply (xorshift_bounds 15); [lia|]. by apply wrap_bounds.
Qed.

(** The callbacks agree on what a key is: its text. *)
Lemma myDictType_ok pd : type_ok text (dictCreate myDictType pd).
Proof using Type.
  split.
  - intros k1 k2. unfold dictCompareKeys. cbn. unfold string_compare.
    case_bool_decide; cbn; intuition done.
  - intros k1 k2 E. cbn. unfold string_hash. by rewrite E.
  - intros k. cbn. unfold string_hash, dictGenHashFunction.
    destruct (_ <? 0); apply final_mix_range.
  - done.
Qed.

Context `{AllocatorOk dictEntry}.

(** Any sequence of calls on a dictionary of strings runs without a bad pointer access and returns
    what the map from texts returns; its callbacks never release anything. *)
Theorem string_dict_refines pd h cs :
  Z.of_nat (length cs) < 2 ^ 62 ->
  let d := dictCreate myDictType pd in
  exists h' d' rs, run h d cs = Some (h', d', rs) /\ same_results text d ∅ cs rs /\
    dict_rep text h' d' (map_run text d ∅ cs) /\
    Forall (fun r => List.filter is_release r.2 = []) rs.
Proof using All.
  intros Hlen d.
  destruct (run_spec text cs h d ∅) as (h' & d' & rs & E & Hrs & R).
  - exists []. left. split_and!; try done. apply myDictType_ok.
  - rewrite map_size_empty. lia.
  - exists h', d', rs. split_and!; [done|done|done|]. clear E R Hlen. revert rs Hrs.
    assert (forall kvs, flat_map (release d) kvs = []) as Hnone by (induction kvs; done).
    generalize (∅ : gmap (list Z) (Z * Z)).
    induction cs as [|c cs IH]; intros m [|r rs]; try done.
    cbn [same_results]. intros [Hr Hrs]. constructor; [|by eapply IH].
    destruct c; cbn [same_result map_step] in Hr; try (subst r; by repeat case_match).
    destruct Hr as (kvs & _ & _ & -> & _). apply Hnone.
Qed.
End callbacks.

(** ** The program *)

Section program.
Context `{Allocator dictEntry} (text : Z -> list Z) (lit : String.string -> Z).

(** What is printed of the first entry that is found, the value fetched, the entries in the order
    of the iterator, and the three numbers of the table. Strings are where [lit] says. *)
(* src/demo_dict/demo_dict.c:57-86 main *)
Definition dict_main (h : store) : option (list Z * list Z * list (list Z * list Z) * (Z * Z * Z)) :=
  let d := dictCreate (myDictType text) (lit "dict-name") in
  '(h, d, rc) ← dictAdd h d (lit "hello") (lit "world");
  a ← dictFind h d (lit "hello");
  first ← h !! a;
  '(h, d, rc) ← dictAdd h d (lit "a") (lit "2");
  '(h, d, rc) ← dictAdd h d (lit "b") (lit "world3");
  '(h, d, rc) ← dictAdd h d (lit "c") (lit "world4");
  '(h, d, rc) ← dictAdd h d (lit "d") (lit "world5");
  '(h, d, rc) ← dictAdd h d (lit "e") (lit "world5");
  '(h, d, rc) ← dictAdd h d (lit "f") (lit "world5");
  '(h, d, rc, ev) ← dictDelete h d (lit "e");
  v ← dictFetchValue h d (lit "b");
  '(h, d, entries) ← iterate (chain_fuel h) (fun _ => false) h d dictGetIterator;
  let numbers := (size (ht d), sizemask (ht d), used (ht d)) in
  '(h, ev) ← dictRelease h d;
  Some (text (val first), text v, map (prod_map text text) entries, numbers).
End program.

(** ** What it prints *)

Import BumpAllocator.

Definition chars (s : String.string) : list Z := map (fun c => Z.of_N (N_of_ascii c)) (list_ascii_of_string s).

(** The strings of the program, from the address 1 on. *)
Definition strings : list String.string :=
  ["dict-name"; "hello"; "world"; "a"; "2"; "b"; "world3"; "c"; "world4"; "d"; "world5"; "e"; "f"]%string.

Definition string_text (p : Z) : list Z :=
  match strings !! Z.to_nat (p - 1) with Some s => chars s | None => [] end.

Fixpoint string_at (s : String.string) (p : Z) (l : list String.string) : Z :=
  match l with [] => 0 | s' :: l => if String.eqb s s' then p else string_at s (p + 1) l end.

(** The first entry and the value under b are found; every entry but the one deleted is visited;
    the table still has the four buckets it started with. *)
Theorem dict_main_prints :
  exists entries, dict_main string_text (fun s => string_at s 1 strings) ∅ =
    Some (chars "world", chars "world3", entries, (4, 3, 6)) /\
  entries ≡ₚ [(chars "hello", chars "world"); (chars "a", chars "2"); (chars "b", chars "world3");
    (chars "c", chars "world4"); (chars "d", chars "world5"); (chars "f", chars "world5")].
Proof.
  eexists. split; [vm_compute; reflexivity|]. apply (bool_decide_unpack _). vm_compute. done.
Qed.

Lemma string_dict_refines_witness :
  let d := dictCreate (myDictType string_text) 1 in
  exists h' d' rs, run ∅ d [Add 2 3; Fetch 2] = Some (h', d', rs) /\
    same_results string_text d ∅ [Add 2 3; Fetch 2] rs /\
    dict_rep string_text h' d' (map_run string_text d ∅ [Add 2 3; Fetch 2]) /\
    Forall (fun r => List.filter is_release r.2 = []) rs.
Proof. apply (string_dict_refines string_text 1 ∅ [Add 2 3; Fetch 2]). cbn. lia. Defined.
