(* ===== verification/Md5.v ===== *)
(** MD5: src/demo_openssl/demo_md5/md5.c and md5.h.

    Bytes are integers in [0, 256), an [unsigned int] is an integer in [0, 2^32). The
    context is a record; [memcpy] into its buffer is [blit]. The second half of the file
    states RFC 1321 on whole messages ([rfc_md5]) and proves that the streaming code
    computes it, whatever the pieces the message is fed in. *)

From S2P Require Import Prelude.

(** ** The context and the round macros *)

(* src/demo_openssl/demo_md5/md5.h:5-10 MD5_CTX *)
Record MD5_CTX := Ctx {
  count : Z * Z;
  state : Z * Z * Z * Z;
  buffer : list Z;
}.

(* src/demo_openssl/demo_md5/md5.h:13-13 F *)
Definition F (x y z : Z) : Z := Z.lor (Z.land x y) (Z.land (notw 32 x) z).
(* src/demo_openssl/demo_md5/md5.h:14-14 G *)
Definition G (x y z : Z) : Z := Z.lor (Z.land x z) (Z.land y (notw 32 z)).
(* src/demo_openssl/demo_md5/md5.h:15-15 H *)
Definition H (x y z : Z) : Z := Z.lxor (Z.lxor x y) z.
(* src/demo_openssl/demo_md5/md5.h:16-16 I *)
Definition I (x y z : Z) : Z := Z.lxor y (Z.lor x (notw 32 z)).
(* src/demo_openssl/demo_md5/md5.h:17-17 ROTATE_LEFT *)
Definition ROTATE_LEFT (x n : Z) : Z := Z.lor (u32 (Z.shiftl x n)) (Z.shiftr x (32 - n)).

(* src/demo_openssl/demo_md5/md5.h:22-27 FF *)
Definition FF (a b c d x s ac : Z) : Z :=
  let a := u32 (a + (F b c d + x + ac)) in
  let a := ROTATE_LEFT a s in
  u32 (a + b).

(* src/demo_openssl/demo_md5/md5.h:28-33 GG *)
Definition GG (a b c d x s ac : Z) : Z :=
  let a := u32 (a + (G b c d + x + ac)) in
  let a := ROTATE_LEFT a s in
  u32 (a + b).

(* src/demo_openssl/demo_md5/md5.h:34-39 HH *)
Definition HH (a b c d x s ac : Z) : Z :=
  let a := u32 (a + (H b c d + x + ac)) in
  let a := ROTATE_LEFT a s in
  u32 (a + b).

(* src/demo_openssl/demo_md5/md5.h:40-45 II *)
Definition II (a b c d x s ac : Z) : Z :=
  let a := u32 (a + (I b c d + x + ac)) in
  let a := ROTATE_LEFT a s in
  u32 (a + b).

(** ** Words and bytes *)

(* src/demo_openssl/demo_md5/md5.c:57-68 MD5Encode *)
Fixpoint MD5Encode (fuel : nat) (input : list Z) (i j len : Z) : option (list Z) :=
  match fuel with
  | O => None
  | S fuel =>
      if j <? len then
        w ← znth input i;
        rest ← MD5Encode fuel input (i + 1) (j + 4) len;
        Some (Z.land w 0xFF :: Z.land (Z.shiftr w 8) 0xFF :: Z.land (Z.shiftr w 16) 0xFF ::
              Z.land (Z.shiftr w 24) 0xFF :: rest)
      else Some []
  end.

(** The bytes are promoted to [int]: the shift by 24 of a byte above 127 is taken as compilers
    do, the bits of the word, although C leaves it undefined. *)
(* src/demo_openssl/demo_md5/md5.c:70-81 MD5Decode *)
Fixpoint MD5Decode (fuel : nat) (input : list Z) (i j len : Z) : option (list Z) :=
  match fuel with
  | O => None
  | S fuel =>
      if j <? len then
        b0 ← znth input j; b1 ← znth input (j + 1);
        b2 ← znth input (j + 2); b3 ← znth input (j + 3);
        rest ← MD5Decode fuel input (i + 1) (j + 4) len;
        Some (Z.lor (Z.lor (Z.lor b0 (Z.shiftl b1 8)) (Z.shiftl b2 16)) (Z.shiftl b3 24) :: rest)
      else Some []
  end.

(** ** The compression function *)

(** [a ::= e ;; k] assigns [e] to the local variable [a]. *)
Definition assign {A B} (e : A) (k : A -> B) : B := k e.
Notation "a ::= e ;; k" := (assign e (fun a => k))
  (at level 100, e at level 99, k at level 200, right associativity).

Lemma assign_intro {A B} (e : A) (k : A -> B) r :
  (forall v, v = e -> k v = r) -> assign e k = r.
Proof. intros Hk. by apply Hk. Qed.

(* src/demo_openssl/demo_md5/md5.c:91-164 MD5Transform *)
Definition transform_rounds (x : nat -> Z) (st : Z * Z * Z * Z) : Z * Z * Z * Z :=
  let '(a0, b0, c0, d0) := st in
  a ::= a0 ;; b ::= b0 ;; c ::= c0 ;; d ::= d0 ;;
  a ::= FF a b c d (x 0%nat) 7 0xd76aa478 ;;
  d ::= FF d a b c (x 1%nat) 12 0xe8c7b756 ;;
  c ::= FF c d a b (x 2%nat) 17 0x242070db ;;
  b ::= FF b c d a (x 3%nat) 22 0xc1bdceee ;;
  a ::= FF a b c d (x 4%nat) 7 0xf57c0faf ;;
  d ::= FF d a b c (x 5%nat) 12 0x4787c62a ;;
  c ::= FF c d a b (x 6%nat) 17 0xa8304613 ;;
  b ::= FF b c d a (x 7%nat) 22 0xfd469501 ;;
  a ::= FF a b c d (x 8%nat) 7 0x698098d8 ;;
  d ::= FF d a b c (x 9%nat) 12 0x8b44f7af ;;
  c ::= FF c d a b (x 10%nat) 17 0xffff5bb1 ;;
  b ::= FF b c d a (x 11%nat) 22 0x895cd7be ;;
  a ::= FF a b c d (x 12%nat) 7 0x6b901122 ;;
  d ::= FF d a b c (x 13%nat) 12 0xfd987193 ;;
  c ::= FF c d a b (x 14%nat) 17 0xa679438e ;;
  b ::= FF b c d a (x 15%nat) 22 0x49b40821 ;;
  a ::= GG a b c d (x 1%nat) 5 0xf61e2562 ;;
  d ::= GG d a b c (x 6%nat) 9 0xc040b340 ;;
  c ::= GG c d a b (x 11%nat) 14 0x265e5a51 ;;
  b ::= GG b c d a (x 0%nat) 20 0xe9b6c7aa ;;
  a ::= GG a b c d (x 5%nat) 5 0xd62f105d ;;
  d ::= GG d a b c (x 10%nat) 9 0x2441453 ;;
  c ::= GG c d a b (x 15%nat) 14 0xd8a1e681 ;;
  b ::= GG b c d a (x 4%nat) 20 0xe7d3fbc8 ;;
  a ::= GG a b c d (x 9%nat) 5 0x21e1cde6 ;;
  d ::= GG d a b c (x 14%nat) 9 0xc33707d6 ;;
  c ::= GG c d a b (x 3%nat) 14 0xf4d50d87 ;;
  b ::= GG b c d a (x 8%nat) 20 0x455a14ed ;;
  a ::= GG a b c d (x 13%nat) 5 0xa9e3e905 ;;
  d ::= GG d a b c (x 2%nat) 9 0xfcefa3f8 ;;
  c ::= GG c d a b (x 7%nat) 14 0x676f02d9 ;;
  b ::= GG b c d a (x 12%nat) 20 0x8d2a4c8a ;;
  a ::= HH a b c d (x 5%nat) 4 0xfffa3942 ;;
  d ::= HH d a b c (x 8%nat) 11 0x8771f681 ;;
  c ::= HH c d a b (x 11%nat) 16 0x6d9d6122 ;;
  b ::= HH b c d a (x 14%nat) 23 0xfde5380c ;;
  a ::= HH a b c d (x 1%nat) 4 0xa4beea44 ;;
  d ::= HH d a b c (x 4%nat) 11 0x4bdecfa9 ;;
  c ::= HH c d a b (x 7%nat) 16 0xf6bb4b60 ;;
  b ::= HH b c d a (x 10%nat) 23 0xbebfbc70 ;;
  a ::= HH a b c d (x 13%nat) 4 0x289b7ec6 ;;
  d ::= HH d a b c (x 0%nat) 11 0xeaa127fa ;;
  c ::= HH c d a b (x 3%nat) 16 0xd4ef3085 ;;
  b ::= HH b c d a (x 6%nat) 23 0x4881d05 ;;
  a ::= HH a b c d (x 9%nat) 4 0xd9d4d039 ;;
  d ::= HH d a b c (x 12%nat) 11 0xe6db99e5 ;;
  c ::= HH c d a b (x 15%nat) 16 0x1fa27cf8 ;;
  b ::= HH b c d a (x 2%nat) 23 0xc4ac5665 ;;
  a ::= II a b c d (x 0%nat) 6 0xf4292244 ;;
  d ::= II d a b c (x 7%nat) 10 0x432aff97 ;;
  c ::= II c d a b (x 14%nat) 15 0xab9423a7 ;;
  b ::= II b c d a (x 5%nat) 21 0xfc93a039 ;;
  a ::= II a b c d (x 12%nat) 6 0x655b59c3 ;;
  d ::= II d a b c (x 3%nat) 10 0x8f0ccc92 ;;
  c ::= II c d a b (x 10%nat) 15 0xffeff47d ;;
  b ::= II b c d a (x 1%nat) 21 0x85845dd1 ;;
  a ::= II a b c d (x 8%nat) 6 0x6fa87e4f ;;
  d ::= II d a b c (x 15%nat) 10 0xfe2ce6e0 ;;
  c ::= II c d a b (x 6%nat) 15 0xa3014314 ;;
  b ::= II b c d a (x 13%nat) 21 0x4e0811a1 ;;
  a ::= II a b c d (x 4%nat) 6 0xf7537e82 ;;
  d ::= II d a b c (x 11%nat) 10 0xbd3af235 ;;
  c ::= II c d a b (x 2%nat) 15 0x2ad7d2bb ;;
  b ::= II b c d a (x 9%nat) 21 0xeb86d391 ;;
  (u32 (a0 + a), u32 (b0 + b), u32 (c0 + c), u32 (d0 + d)).

(* src/demo_openssl/demo_md5/md5.c:83-90 MD5Transform *)
Definition MD5Transform (st : Z * Z * Z * Z) (block : list Z) : option (Z * Z * Z * Z) :=
  xs ← MD5Decode 17 block 0 0 64;
  Some (transform_rounds (fun i => nth i xs 0) st).

(** ** Streaming *)

(* src/demo_openssl/demo_md5/md5.c:8-11 PADDING *)
Definition PADDING : list Z := 0x80 :: replicate 63 0.

(* src/demo_openssl/demo_md5/md5.c:13-21 MD5Init *)
Definition MD5Init (context : MD5_CTX) : MD5_CTX :=
  Ctx (0, 0) (0x67452301, 0xEFCDAB89, 0x98BADCFE, 0x10325476) (buffer context).

(** [memcpy(&buf[index], src, n)]: undefined when it leaves the buffer or the source. *)
Definition blit (buf : list Z) (index : Z) (src : list Z) (n : Z) : option (list Z) :=
  if (0 <=? index) && (0 <=? n) && (index + n <=? Z.of_nat (length buf)) &&
     (n <=? Z.of_nat (length src))
  then Some (take (Z.to_nat index) buf ++ take (Z.to_nat n) src ++
             drop (Z.to_nat (index + n)) buf)
  else None.

(** [for (i = partlen; i + 64 <= inputlen; i += 64)]; the result is the final [i]. *)
(* src/demo_openssl/demo_md5/md5.c:36-37 MD5Update *)
Fixpoint update_loop (fuel : nat) (st : Z * Z * Z * Z) (input : list Z) (i inputlen : Z)
    : option (Z * Z * Z * Z * Z) :=
  match fuel with
  | O => None
  | S fuel =>
      if u32 (i + 64) <=? inputlen then
        _ ← require (i + 64 <=? Z.of_nat (length input));
        st ← MD5Transform st (take 64 (drop (Z.to_nat i) input));
        update_loop fuel st input (u32 (i + 64)) inputlen
      else Some (st, i)
  end.

(** [input] is what the pointer leads to; the code reads its first [inputlen] bytes. *)
(* src/demo_openssl/demo_md5/md5.c:23-43 MD5Update *)
Definition MD5Update (context : MD5_CTX) (input : list Z) (inputlen : Z) : option MD5_CTX :=
  let index := Z.land (Z.shiftr (count context).1 3) 0x3F in
  let partlen := u32 (64 - index) in
  let count0 := u32 ((count context).1 + u32 (Z.shiftl inputlen 3)) in
  let count1 := if count0 <? u32 (Z.shiftl inputlen 3) then u32 ((count context).2 + 1)
                else (count context).2 in
  let count1 := u32 (count1 + Z.shiftr inputlen 29) in
  '(st, buf, index, i) ←
    (if partlen <=? inputlen then
       buf ← blit (buffer context) index input partlen;
       st ← MD5Transform (state context) buf;
       '(st, i) ← update_loop (S (length input)) st input partlen inputlen;
       Some (st, buf, 0, i)
     else Some (state context, buffer context, index, 0));
  buf ← blit buf index (drop (Z.to_nat i) input) (u32 (inputlen - i));
  Some (Ctx (count0, count1) st buf).

Definition words_of (st : Z * Z * Z * Z) : list Z := let '(a, b, c, d) := st in [a; b; c; d].

(** The digest. *)
(* src/demo_openssl/demo_md5/md5.c:45-55 MD5Final *)
Definition MD5Final (context : MD5_CTX) : option (list Z) :=
  let index := Z.land (Z.shiftr (count context).1 3) 0x3F in
  let padlen := if index <? 56 then u32 (56 - index) else u32 (120 - index) in
  bits ← MD5Encode 3 [(count context).1; (count context).2] 0 0 8;
  context ← MD5Update context PADDING padlen;
  context ← MD5Update context bits 8;
  MD5Encode 5 (words_of (state context)) 0 0 16.

(** ** Hexadecimal *)

(* src/demo_openssl/demo_md5/md5.c:167-167 hex_chars *)
Definition hex_chars : list Z := [48; 49; 50; 51; 52; 53; 54; 55; 56; 57; 97; 98; 99; 100; 101; 102].

(* src/demo_openssl/demo_md5/md5.c:169-172 _int2hex *)
Definition _int2hex (c : Z) : Z := nth (Z.to_nat (Z.land c 0x0F)) hex_chars 0.

(** The characters of [md5] are signed. *)
(* src/demo_openssl/demo_md5/md5.c:174-183 _cvthex *)
Definition _cvthex (md5 : list Z) : list Z :=
  flat_map (fun c => [_int2hex (i8 (Z.land (Z.shiftr (i8 c) 4) 0xf)); _int2hex (i8 (Z.land (i8 c) 0xf))])
    (take 16 md5) ++ [0].

(** [sprintf(p, "%02x", b)] and [sprintf(p, "%02X", b)] for a byte. *)
Definition hex_digit (lower : bool) (v : Z) : Z :=
  if v <? 10 then 48 + v else if lower then 87 + v else 55 + v.
Definition sprintf_02x (lower : bool) (b : Z) : list Z := [hex_digit lower (b / 16); hex_digit lower (b mod 16)].

(* src/demo_openssl/demo_md5/md5.h:20-20 MD5_LOWER *)
Definition MD5_LOWER : Z := Z.shiftl 1 1.

(** [buf0] is what the uninitialised buffer of the context holds. *)
(* src/demo_openssl/demo_md5/md5.c:187-204 get_md5 *)
Definition get_md5 (buf0 data : list Z) (data_len flag : Z) : option (list Z) :=
  let md5 := MD5Init (Ctx (0, 0) (0, 0, 0, 0) buf0) in
  md5 ← MD5Update md5 data (u32 data_len);
  decrypt ← MD5Final md5;
  Some (flat_map (sprintf_02x (negb (Z.land flag MD5_LOWER =? 0))) (take 16 decrypt) ++ [0]).

(** The vector in the comment of the file's own test: the digest of "admin". *)
Example get_md5_admin :
  get_md5 (replicate 64 0) [97; 100; 109; 105; 110] 5 MD5_LOWER =
    Some [50; 49; 50; 51; 50; 102; 50; 57; 55; 97; 53; 55; 97; 53; 97; 55; 52; 51; 56; 57; 52;
          97; 48; 101; 52; 97; 56; 48; 49; 102; 99; 51; 0].
Proof. vm_compute. reflexivity. Qed.

(** * RFC 1321 *)

Definition rfc_K : list Z := [
  0xd76aa478; 0xe8c7b756; 0x242070db; 0xc1bdceee; 0xf57c0faf; 0x4787c62a; 0xa8304613; 0xfd469501;
  0x698098d8; 0x8b44f7af; 0xffff5bb1; 0x895cd7be; 0x6b901122; 0xfd987193; 0xa679438e; 0x49b40821;
  0xf61e2562; 0xc040b340; 0x265e5a51; 0xe9b6c7aa; 0xd62f105d; 0x2441453; 0xd8a1e681; 0xe7d3fbc8;
  0x21e1cde6; 0xc33707d6; 0xf4d50d87; 0x455a14ed; 0xa9e3e905; 0xfcefa3f8; 0x676f02d9; 0x8d2a4c8a;
  0xfffa3942; 0x8771f681; 0x6d9d6122; 0xfde5380c; 0xa4beea44; 0x4bdecfa9; 0xf6bb4b60; 0xbebfbc70;
  0x289b7ec6; 0xeaa127fa; 0xd4ef3085; 0x4881d05; 0xd9d4d039; 0xe6db99e5; 0x1fa27cf8; 0xc4ac5665;
  0xf4292244; 0x432aff97; 0xab9423a7; 0xfc93a039; 0x655b59c3; 0x8f0ccc92; 0xffeff47d; 0x85845dd1;
  0x6fa87e4f; 0xfe2ce6e0; 0xa3014314; 0x4e0811a1; 0xf7537e82; 0xbd3af235; 0x2ad7d2bb; 0xeb86d391].
Definition rfc_S : list Z := [7; 12; 17; 22; 5; 9; 14; 20; 4; 11; 16; 23; 6; 10; 15; 21].

(** The functions of its section 3.4 and the rotation, on 32-bit words. *)
Definition rfc_not (x : Z) : Z := Z.lnot x mod 2 ^ 32.
Definition rfc_f (i : nat) (x y z : Z) : Z :=
  match (i / 16)%nat with
  | 0%nat => Z.lor (Z.land x y) (Z.land (rfc_not x) z)
  | 1%nat => Z.lor (Z.land x z) (Z.land y (rfc_not z))
  | 2%nat => Z.lxor (Z.lxor x y) z
  | _ => Z.lxor y (Z.lor x (rfc_not z))
  end.
Definition rfc_rotate (x s : Z) : Z := Z.lor (Z.shiftl x s mod 2 ^ 32) (Z.shiftr x (32 - s)).
Definition rfc_g (i : nat) : nat :=
  match (i / 16)%nat with
  | 0%nat => i | 1%nat => (5 * i + 1) mod 16 | 2%nat => (3 * i + 5) mod 16 | _ => (7 * i) mod 16
  end.

Definition rfc_step (x : nat -> Z) (st : Z * Z * Z * Z) (i : nat) : Z * Z * Z * Z :=
  let '(a, b, c, d) := st in
  let r := rfc_rotate (u32 (a + (rfc_f i b c d + x (rfc_g i) + nth i rfc_K 0)))
             (nth (4 * (i / 16) + i mod 4) rfc_S 0) in
  (d, u32 (r + b), b, c).

Definition rfc_words (block : list Z) (i : nat) : Z :=
  nth (4 * i) block 0 + nth (4 * i + 1) block 0 * 2 ^ 8 +
  nth (4 * i + 2) block 0 * 2 ^ 16 + nth (4 * i + 3) block 0 * 2 ^ 24.

Definition rfc_compress (st : Z * Z * Z * Z) (block : list Z) : Z * Z * Z * Z :=
  let '(a, b, c, d) := fold_left (rfc_step (rfc_words block)) (seq 0 64) st in
  let '(a0, b0, c0, d0) := st in
  (u32 (a0 + a), u32 (b0 + b), u32 (c0 + c), u32 (d0 + d)).

Fixpoint rfc_blocks (n : nat) (st : Z * Z * Z * Z) (m : list Z) : Z * Z * Z * Z :=
  match n with
  | O => st
  | S n => rfc_blocks n (rfc_compress st (take 64 m)) (drop 64 m)
  end.

Definition rfc_init : Z * Z * Z * Z := (0x67452301, 0xEFCDAB89, 0x98BADCFE, 0x10325476).

(** One bit, then zeros up to 56 bytes modulo 64, then the length in bits modulo 2^64. *)
Definition rfc_pad (len : Z) : list Z :=
  0x80 :: replicate (Z.to_nat ((55 - len) mod 64)) 0 ++ le_bytes 8 (8 * len).

Definition rfc_md5 (m : list Z) : list Z :=
  let p := m ++ rfc_pad (Z.of_nat (length m)) in
  flat_map (le_bytes 4) (words_of (rfc_blocks (length p / 64) rfc_init p)).

(** * The unrolled rounds are the RFC's *)

Definition add_state (st0 st : Z * Z * Z * Z) : Z * Z * Z * Z :=
  let '(a0, b0, c0, d0) := st0 in let '(a, b, c, d) := st in
  (u32 (a0 + a), u32 (b0 + b), u32 (c0 + c), u32 (d0 + d)).

Lemma fold_step x i l st :
  fold_left (rfc_step x) (i :: l) st = fold_left (rfc_step x) l (rfc_step x st i).
Proof. done. Qed.

(** One macro call against one step of the RFC. *)
Ltac one_round :=
  apply assign_intro;
  lazymatch goal with
  | |- forall v, v = _ -> _ = add_state _ (fold_left _ (?i :: _) (?a, ?b, ?c, ?d)) =>
      let v := fresh "v" in let Hv := fresh "Hv" in
      intros v Hv; rewrite fold_step;
      lazymatch goal with
      | |- context [rfc_step ?x (a, b, c, d) i] =>
          replace (rfc_step x (a, b, c, d) i) with (d, v, b, c) by (rewrite Hv; reflexivity)
      end; clear Hv
  end.

Lemma transform_rounds_rfc x st :
  transform_rounds x st = add_state st (fold_left (rfc_step x) (seq 0 64) st).
Proof.
  destruct st as [[[a0 b0] c0] d0]. unfold transform_rounds.
  let l := eval cbv in (seq 0 64) in change (seq 0 64) with l.
  do 4 (apply assign_intro; intros ? ->). do 64 one_round. reflexivity.
Qed.

Lemma rfc_g_lt i : (rfc_g i < 16)%nat.
Proof.
  unfold rfc_g. destruct (i / 16)%nat as [|[|[|k]]] eqn:E; try (apply Nat.mod_upper_bound; lia).
  apply Nat.div_small_iff in E; lia.
Qed.

Lemma fold_step_ext x x' l : forall st,
  (forall i, (i < 16)%nat -> x i = x' i) ->
  fold_left (rfc_step x) l st = fold_left (rfc_step x') l st.
Proof.
  induction l as [|i l IH]; intros st Hx; [done|]. rewrite !fold_step, IH by done. f_equal.
  destruct st as [[[a b] c] d]. unfold rfc_step. by rewrite (Hx _ (rfc_g_lt i)).
Qed.

(** * Words and bytes *)

Lemma word_lor b0 b1 b2 b3 :
  is_byte b0 -> is_byte b1 -> is_byte b2 -> is_byte b3 ->
  Z.lor (Z.lor (Z.lor b0 (Z.shiftl b1 8)) (Z.shiftl b2 16)) (Z.shiftl b3 24) =
  b0 + b1 * 2 ^ 8 + b2 * 2 ^ 16 + b3 * 2 ^ 24.
Proof.
  unfold is_byte. intros.
  rewrite (lor_shiftl_add b0 b1 8), (lor_shiftl_add _ b2 16), (lor_shiftl_add _ b3 24); lia.
Qed.

Lemma bytes_ok_nth bs i : bytes_ok bs -> is_byte (nth i bs 0).
Proof.
  intros Hb. destruct (decide (i < length bs)%nat) as [Hi|Hi].
  - unfold bytes_ok in Hb. rewrite List.Forall_forall in Hb. by apply Hb, nth_In.
  - rewrite nth_overflow by lia. unfold is_byte. lia.
Qed.

Lemma znth_nth (l : list Z) i : (i < length l)%nat -> znth l (Z.of_nat i) = Some (nth i l 0).
Proof.
  intros Hi. unfold znth. destruct (Z.ltb_spec (Z.of_nat i) 0); [lia|]. rewrite Nat2Z.id.
  destruct (lookup_lt_is_Some_2 l i Hi) as [x Hx]. rewrite Hx. f_equal.
  symmetry. by apply nth_lookup_Some.
Qed.

Lemma MD5Decode_spec input : bytes_ok input -> forall k fuel n i,
  (k < fuel)%nat -> (4 * (n + k) <= length input)%nat ->
  MD5Decode fuel input i (Z.of_nat (4 * n)) (Z.of_nat (4 * (n + k)))
    = Some (rfc_words input <$> seq n k).
Proof.
  intros Hb. induction k as [|k IH]; intros [|fuel] n i Hf Hl; try lia; cbn [MD5Decode].
  - destruct (Z.ltb_spec (Z.of_nat (4 * n)) (Z.of_nat (4 * (n + 0)))); [lia|done].
  - destruct (Z.ltb_spec (Z.of_nat (4 * n)) (Z.of_nat (4 * (n + S k)))); [|lia].
    replace (Z.of_nat (4 * n) + 1) with (Z.of_nat (4 * n + 1)) by lia.
    replace (Z.of_nat (4 * n) + 2) with (Z.of_nat (4 * n + 2)) by lia.
    replace (Z.of_nat (4 * n) + 3) with (Z.of_nat (4 * n + 3)) by lia.
    replace (Z.of_nat (4 * n) + 4) with (Z.of_nat (4 * S n)) by lia.
    replace (n + S k)%nat with (S n + k)%nat by lia.
    rewrite !znth_nth by lia. bind_simpl. rewrite IH by lia. bind_simpl.
    rewrite word_lor by (by apply bytes_ok_nth). done.
Qed.

Lemma MD5Transform_rfc st block :
  bytes_ok block -> length block = 64%nat -> MD5Transform st block = Some (rfc_compress st block).
Proof.
  intros Hb Hl. unfold MD5Transform.
  pose proof (MD5Decode_spec block Hb 16 17 0 0 ltac:(lia) ltac:(lia)) as E.
  change (MD5Decode 17 block 0 0 64 = Some (rfc_words block <$> seq 0 16)) in E.
  rewrite E. bind_simpl.
  rewrite transform_rounds_rfc. unfold rfc_compress.
  erewrite (fold_step_ext _ (rfc_words block)); [by destruct st as [[[? ?] ?] ?], (fold_left _ _ _) as [[[? ?] ?] ?]|].
  intros i Hi. do 16 (destruct i as [|i]; [reflexivity|]). lia.
Qed.

Lemma land_byte w n : 0 <= n -> Z.land (Z.shiftr w n) 0xFF = (w / 2 ^ n) mod 256.
Proof.
  intros Hn. change 0xFF with (Z.ones 8). rewrite Z.land_ones, Z.shiftr_div_pow2 by lia. done.
Qed.

Lemma MD5Encode_spec input : forall k fuel n j len,
  (k < fuel)%nat -> (n + k <= length input)%nat -> j + 4 * Z.of_nat k = len ->
  MD5Encode fuel input (Z.of_nat n) j len = Some (flat_map (le_bytes 4) (take k (drop n input))).
Proof.
  induction k as [|k IH]; intros [|fuel] n j len Hf Hl Hj; try lia; cbn [MD5Encode].
  - destruct (Z.ltb_spec j len); [lia|done].
  - destruct (Z.ltb_spec j len); [|lia]. rewrite znth_nth by lia. bind_simpl.
    replace (Z.of_nat n + 1) with (Z.of_nat (S n)) by lia. rewrite IH by lia. bind_simpl.
    destruct (lookup_lt_is_Some_2 input n) as [w Hw]; [lia|].
    rewrite (drop_S _ _ _ Hw). rewrite (nth_lookup_Some _ _ _ _ Hw). cbn [take flat_map].
    rewrite <- (Z.shiftr_0_r w) at 1. rewrite !land_byte by lia. done.
Qed.

(** * Blocks *)

Lemma rfc_blocks_app a : forall b st m1 m2,
  length m1 = (64 * a)%nat -> rfc_blocks (a + b) st (m1 ++ m2) = rfc_blocks b (rfc_blocks a st m1) m2.
Proof.
  induction a as [|a IH]; intros b st m1 m2 Hl; cbn [rfc_blocks Nat.add].
  - destruct m1; [done|simpl in Hl; lia].
  - rewrite take_app_le, drop_app_le by lia. rewrite IH; [done|]. rewrite length_drop. lia.
Qed.

Lemma rfc_blocks_prefix a st m1 m2 :
  (64 * a <= length m1)%nat -> rfc_blocks a st (m1 ++ m2) = rfc_blocks a st m1.
Proof.
  intros Hl. rewrite <- (take_drop (64 * a) m1), <- (assoc_L app).
  rewrite <- (Nat.add_0_r a) at 1 4. rewrite !rfc_blocks_app; [done|..]; rewrite length_take; lia.
Qed.

Lemma update_loop_spec input : bytes_ok input -> forall k fuel st i n,
  (k < fuel)%nat -> Z.of_nat n + 64 < 2 ^ 32 -> (n <= length input)%nat ->
  (i + 64 * k <= n < i + 64 * k + 64)%nat ->
  update_loop fuel st input (Z.of_nat i) (Z.of_nat n) =
    Some (rfc_blocks k st (drop i input), Z.of_nat (i + 64 * k)).
Proof.
  intros Hb. induction k as [|k IH]; intros [|fuel] st i n Hf Hn Hl Hi; try lia;
    cbn [update_loop]; rewrite wrap_small by lia.
  - destruct (Z.leb_spec (Z.of_nat i + 64) (Z.of_nat n)); [lia|]. do 2 f_equal. lia.
  - destruct (Z.leb_spec (Z.of_nat i + 64) (Z.of_nat n)); [|lia].
    destruct (Z.leb_spec (Z.of_nat i + 64) (Z.of_nat (length input))); [|lia].
    simpl require. bind_simpl. rewrite Nat2Z.id.
    rewrite MD5Transform_rfc;
      [|by apply Forall_take, Forall_drop|rewrite length_take, length_drop; lia].
    bind_simpl. replace (Z.of_nat i + 64) with (Z.of_nat (i + 64)) by lia.
    rewrite (IH fuel _ (i + 64)%nat n) by lia. cbn [rfc_blocks].
    rewrite drop_drop. do 3 f_equal. lia.
Qed.

(** * Streaming *)

(** The context after the message [m] was fed in. *)
Record ctx_rep (ctx : MD5_CTX) (m : list Z) : Prop := CtxRep {
  rep_bytes : bytes_ok m;
  rep_count : count ctx = (u32 (8 * Z.of_nat (length m)), u32 (8 * Z.of_nat (length m) / 2 ^ 32));
  rep_length : length (buffer ctx) = 64%nat;
  rep_state : exists done rest,
    m = done ++ rest /\ length done = (64 * (length m / 64))%nat /\
    length rest = (length m mod 64)%nat /\
    state ctx = rfc_blocks (length m / 64) rfc_init done /\
    take (length rest) (buffer ctx) = rest;
}.

Lemma MD5Init_rep ctx : length (buffer ctx) = 64%nat -> ctx_rep (MD5Init ctx) [].
Proof. intros Hb. split; [constructor|done|done|]. by exists [], []. Qed.

(** The two-word counter with its carry is the 64-bit count. *)
Lemma count_add L n :
  0 <= L -> 0 <= n < 2 ^ 32 ->
  let x := u32 (Z.shiftl n 3) in
  let c0 := u32 (u32 L + x) in
  let c1 := if c0 <? x then u32 (u32 (L / 2 ^ 32) + 1) else u32 (L / 2 ^ 32) in
  c0 = u32 (L + 8 * n) /\ u32 (c1 + Z.shiftr n 29) = u32 ((L + 8 * n) / 2 ^ 32).
Proof.
  intros HL Hn x c0 c1. unfold c1, c0, x.
  rewrite Z.shiftl_mul_pow2, Z.shiftr_div_pow2 by lia. change (2 ^ 3) with 8.
  rewrite wrap_add_l, wrap_add_r. split; [f_equal; lia|].
  assert (u32 (n * 8) = n * 8 - 2 ^ 32 * (n / 2 ^ 29)) as Ex.
  { unfold wrap. rewrite Z.mod_eq by lia. do 2 f_equal.
    change (2 ^ 32) with (2 ^ 29 * 8). rewrite Z.div_mul_cancel_r by lia. done. }
  set (l := L mod 2 ^ 32). set (h := L / 2 ^ 32).
  assert (L = 2 ^ 32 * h + l) as EL by (apply Z.div_mod; lia).
  assert (0 <= l < 2 ^ 32) as Hl by (apply Z.mod_pos_bound; lia).
  set (y := u32 (n * 8)) in *. set (k := n / 2 ^ 29) in *.
  assert (0 <= y < 2 ^ 32) as Hy by (apply wrap_bounds; lia).
  assert ((L + 8 * n) / 2 ^ 32 = h + k + (l + y) / 2 ^ 32) as E1.
  { replace (L + 8 * n) with (l + y + (h + k) * 2 ^ 32) by lia. rewrite Z.div_add by lia. lia. }
  assert (u32 (L + n * 8) = (l + y) - 2 ^ 32 * ((l + y) / 2 ^ 32)) as E2.
  { unfold wrap. replace (L + n * 8) with (l + y + (h + k) * 2 ^ 32) by lia.
    rewrite Z.mod_add, Z.mod_eq by lia. lia. }
  assert ((l + y) / 2 ^ 32 = 0 /\ l + y < 2 ^ 32 \/ (l + y) / 2 ^ 32 = 1 /\ 2 ^ 32 <= l + y) as E3
    by (Z.div_mod_to_equations; lia).
  rewrite E1, E2. destruct E3 as [[-> ?]|[-> ?]];
    (match goal with |- context [?a <? y] => destruct (Z.ltb_spec a y); try lia end);
    rewrite ?wrap_add_l, <- ?Z.add_assoc, ?wrap_add_l; f_equal; lia.
Qed.

Lemma index_of ctx m :
  ctx_rep ctx m -> Z.land (Z.shiftr (count ctx).1 3) 0x3F = Z.of_nat (length m mod 64).
Proof.
  intros [_ -> _ _]. cbn [fst]. change 0x3F with (Z.ones 6).
  rewrite Z.land_ones, Z.shiftr_div_pow2 by lia. unfold wrap.
  rewrite Nat2Z.inj_mod. change (2 ^ 6) with 64. change (2 ^ 3) with 8. change (Z.of_nat 64) with 64.
  change (2 ^ 32) with (8 * 2 ^ 29). rewrite Zmult_mod_distr_l.
  rewrite (Z.mul_comm 8), Z.div_mul by lia.
  change (2 ^ 29) with (64 * 2 ^ 23). rewrite Z.rem_mul_r by lia.
  by rewrite (Z.mul_comm 64), Z.mod_add, Z.mod_mod by lia.
Qed.

Lemma quot_rem a q r : (a = 64 * q + r -> r < 64 -> a / 64 = q /\ a mod 64 = r)%nat.
Proof.
  intros Ha Hr. split; symmetry; [by apply (Nat.div_unique _ _ _ r)|by apply (Nat.mod_unique _ _ q)].
Qed.

Lemma blit_ok (buf src : list Z) i n :
  (i + n <= length buf)%nat -> (n <= length src)%nat ->
  blit buf (Z.of_nat i) src (Z.of_nat n) = Some (take i buf ++ take n src ++ drop (i + n) buf).
Proof.
  intros Hi Hn. unfold blit. rewrite <- Nat2Z.inj_add, !Nat2Z.id.
  destruct (Z.leb_spec 0 (Z.of_nat i)), (Z.leb_spec 0 (Z.of_nat n)),
    (Z.leb_spec (Z.of_nat (i + n)) (Z.of_nat (length buf))),
    (Z.leb_spec (Z.of_nat n) (Z.of_nat (length src))); try lia; done.
Qed.

(** [MD5Update] appends the first [n] bytes the pointer leads to. *)
Lemma MD5Update_spec ctx m input n :
  ctx_rep ctx m -> bytes_ok input -> (n <= length input)%nat -> Z.of_nat n + 64 < 2 ^ 32 ->
  exists ctx', MD5Update ctx input (Z.of_nat n) = Some ctx' /\ ctx_rep ctx' (m ++ take n input).
Proof.
  intros Hrep Hb Hl Hn. unfold MD5Update. rewrite (index_of ctx m Hrep).
  destruct Hrep as [Hm Hc Hlen (dn & rest & Em & Hd & Hr & Hst & Hbuf)]. rewrite Hc.
  pose proof (count_add (8 * Z.of_nat (length m)) (Z.of_nat n) ltac:(lia) ltac:(lia)) as [E0 E1].
  cbn zeta in E0, E1. simpl fst. simpl snd.
  replace (8 * Z.of_nat (length m) + 8 * Z.of_nat n)
    with (8 * Z.of_nat (length (m ++ take n input))) in E0, E1
    by (rewrite length_app, length_take; lia).
  rewrite E1, E0. clear E0 E1 Hc.
  set (q := (length m / 64)%nat) in *. set (r := (length m mod 64)%nat) in *.
  assert (length m = 64 * q + r /\ r < 64)%nat as [Hqr Hr64].
  { split; [apply Nat.div_mod; lia|apply Nat.mod_upper_bound; lia]. }
  rewrite (wrap_small 32 (64 - Z.of_nat r)) by lia.
  replace (64 - Z.of_nat r) with (Z.of_nat (64 - r)) by lia.
  rewrite Hr in Hbuf.
  destruct (Z.leb_spec (Z.of_nat (64 - r)) (Z.of_nat n)) as [Hfull|Hpart].
  - rewrite blit_ok by lia. bind_simpl.
    rewrite Hbuf, drop_ge, app_nil_r by lia.
    rewrite MD5Transform_rfc;
      [|apply Forall_app; split; [|by apply Forall_take];
        rewrite Em in Hm; by apply Forall_app in Hm as [_ ?]
       |rewrite length_app, length_take; lia].
    bind_simpl. set (k := ((n - (64 - r)) / 64)%nat).
    assert (64 - r + 64 * k <= n < 64 - r + 64 * k + 64)%nat as Hk.
    { pose proof (Nat.div_mod (n - (64 - r)) 64). pose proof (Nat.mod_upper_bound (n - (64 - r)) 64).
      fold k in H0. lia. }
    rewrite (update_loop_spec input Hb k) by lia. bind_simpl.
    set (i' := (64 - r + 64 * k)%nat) in *.
    replace (Z.of_nat n - Z.of_nat i') with (Z.of_nat (n - i')) by lia.
    rewrite Nat2Z.id, (wrap_small 32 (Z.of_nat (n - i'))) by lia.
    change 0 with (Z.of_nat 0) at 1.
    rewrite blit_ok; [|rewrite length_app, length_take; lia|rewrite length_drop; lia].
    bind_simpl. eexists. split; [done|].
    assert (take n input = take (64 - r) input ++ take (64 * k) (drop (64 - r) input) ++
      take (n - i') (drop i' input)) as Esplit.
    { unfold i'. rewrite <- drop_drop, take_take_drop, take_take_drop. f_equal. lia. }
    assert (length (m ++ take n input) = 64 * (q + S k) + (n - i'))%nat as Hlm
      by (rewrite length_app, length_take; lia).
    destruct (quot_rem _ (q + S k) (n - i') Hlm ltac:(lia)) as [Hq' Hr'].
    split; cbn [count buffer state].
    + by apply Forall_app; split; [|apply Forall_take].
    + done.
    + rewrite !length_app, !length_take, !length_drop, length_app, length_take. lia.
    + exists (dn ++ (rest ++ take (64 - r) input) ++ take (64 * k) (drop (64 - r) input)),
        (take (n - i') (drop i' input)).
      rewrite Hq', Hr'. split; [by rewrite Esplit, Em, <- !(assoc_L app)|].
      split; [rewrite !length_app, !length_take, length_drop; lia|].
      split; [rewrite length_take, length_drop; lia|]. split.
      * rewrite rfc_blocks_app by done. rewrite <- Hst. cbn [rfc_blocks].
        rewrite take_app_length', drop_app_length' by (rewrite length_app, length_take; lia).
        rewrite <- (take_drop (64 * k) (drop (64 - r) input)) at 1.
        apply rfc_blocks_prefix. rewrite length_take, length_drop. lia.
      * rewrite take_0. simpl. rewrite take_app_length'; [done|]. rewrite length_take. lia.
  - bind_simpl. rewrite Z.sub_0_r, (wrap_small 32 (Z.of_nat n)) by lia. simpl (Z.to_nat 0). rewrite drop_0.
    rewrite blit_ok by lia. bind_simpl. eexists. split; [done|].
    assert (length (m ++ take n input) = 64 * q + (r + n))%nat as Hlm
      by (rewrite length_app, length_take; lia).
    assert (length (m ++ take n input) / 64 = q /\ length (m ++ take n input) mod 64 = r + n)%nat
      as [Hq' Hr'] by (apply quot_rem; lia).
    split; cbn [count buffer state].
    + by apply Forall_app; split; [|apply Forall_take].
    + done.
    + rewrite !length_app, !length_take, length_drop. lia.
    + exists dn, (rest ++ take n input). rewrite Hq', Hr', length_app, length_take, Em, Hr.
      split; [by rewrite (assoc_L app)|]. split; [done|]. split; [lia|]. split; [done|].
      rewrite Hbuf, (assoc_L app).
      rewrite take_app_length'; [done|]. rewrite length_app, length_take. lia.
Qed.

(** * The digest *)

Lemma byte_of_word y j :
  (j < 4)%nat -> (u32 y / 2 ^ (8 * Z.of_nat j)) mod 256 = (y / 2 ^ (8 * Z.of_nat j)) mod 256.
Proof.
  intros Hj. unfold wrap.
  replace 32 with (8 * Z.of_nat j + (32 - 8 * Z.of_nat j)) by lia.
  rewrite Z.pow_add_r, Z.rem_mul_r by lia.
  rewrite (Z.mul_comm (2 ^ _)), Z.div_add, Z.mod_div, Z.add_0_l by lia.
  replace (32 - 8 * Z.of_nat j) with (8 + (24 - 8 * Z.of_nat j)) by lia.
  rewrite Z.pow_add_r, Z.rem_mul_r by lia. change (2 ^ 8) with 256.
  by rewrite (Z.mul_comm 256), Z.mod_add, Z.mod_mod by lia.
Qed.

Lemma le_bytes_halves x :
  0 <= x -> flat_map (le_bytes 4) [u32 x; u32 (x / 2 ^ 32)] = le_bytes 8 x.
Proof.
  intros Hx. cbn [flat_map]. unfold le_bytes. rewrite app_nil_r.
  change (seq 0 8) with (seq 0 4 ++ (Nat.add 4 <$> seq 0 4)). rewrite fmap_app. f_equal.
  - apply list_fmap_ext. intros i j Hj. apply list_elem_of_lookup_2, elem_of_seq in Hj.
    apply byte_of_word. lia.
  - rewrite <- list_fmap_compose. apply list_fmap_ext.
    intros i j Hj. apply list_elem_of_lookup_2, elem_of_seq in Hj. simpl.
    rewrite byte_of_word by lia.
    replace (8 * Z.of_nat (S (S (S (S j))))) with (32 + 8 * Z.of_nat j) by lia.
    by rewrite Z.pow_add_r, <- Z.div_div by lia.
Qed.

Lemma le_bytes_ok n x : bytes_ok (le_bytes n x).
Proof.
  apply Forall_fmap, Forall_forall. intros i _. unfold is_byte. simpl. by apply Z.mod_pos_bound.
Qed.

Lemma PADDING_ok : bytes_ok PADDING.
Proof. constructor; [done|]. by apply Forall_replicate. Qed.

Lemma length_words_of st : length (words_of st) = 4%nat.
Proof. by destruct st as [[[? ?] ?] ?]. Qed.

(** [MD5Final] pads the message as the RFC says and returns the RFC's digest. *)
Lemma MD5Final_spec ctx m : ctx_rep ctx m -> MD5Final ctx = Some (rfc_md5 m).
Proof.
  intros Hrep. unfold MD5Final. rewrite (index_of ctx m Hrep).
  set (r := (length m mod 64)%nat).
  assert (r < 64)%nat as Hr by (apply Nat.mod_upper_bound; lia).
  pose proof (rep_count _ _ Hrep) as Hc. rewrite Hc. cbn [fst snd].
  pose proof (MD5Encode_spec [u32 (8 * Z.of_nat (length m)); u32 (8 * Z.of_nat (length m) / 2 ^ 32)]
    2 3 0 0 8 ltac:(lia) ltac:(simpl; lia) ltac:(lia)) as E.
  change (Z.of_nat 0) with 0 in E. rewrite E. bind_simpl. rewrite drop_0. cbn [take].
  rewrite le_bytes_halves by lia. set (bits := le_bytes 8 _).
  remember (if (r <? 56)%nat then 56 - r else 120 - r)%nat as p eqn:Ep.
  assert ((if Z.of_nat r <? 56 then u32 (56 - Z.of_nat r) else u32 (120 - Z.of_nat r))
    = Z.of_nat p) as ->.
  { rewrite Ep. destruct (Z.ltb_spec (Z.of_nat r) 56), (Nat.ltb_spec r 56); try lia;
      rewrite wrap_small by lia; lia. }
  assert (1 <= p <= 64)%nat as Hp by (rewrite Ep; destruct (Nat.ltb_spec r 56); lia).
  destruct (MD5Update_spec ctx m PADDING p Hrep PADDING_ok) as (c1 & E1 & R1); [simpl; lia..|].
  rewrite E1. bind_simpl.
  destruct (MD5Update_spec c1 _ bits 8 R1) as (c2 & E2 & R2);
    [apply le_bytes_ok|unfold bits; by rewrite length_le_bytes|lia|].
  change 8 with (Z.of_nat 8) at 1. rewrite E2. bind_simpl.
  assert ((m ++ take p PADDING) ++ take 8 bits = m ++ rfc_pad (Z.of_nat (length m))) as Epad.
  { rewrite <- (assoc_L app). f_equal. unfold rfc_pad. fold bits.
    rewrite (take_ge bits) by (unfold bits; by rewrite length_le_bytes).
    destruct p as [|p']; [lia|]. unfold PADDING. cbn [take app]. f_equal.
    rewrite take_replicate. do 2 f_equal.
    assert ((55 - Z.of_nat (length m)) mod 64 = Z.of_nat p') as ->; [|lia].
    assert (length m = 64 * (length m / 64) + r)%nat as Hlm by (apply Nat.div_mod; lia).
    symmetry. destruct (Nat.ltb_spec r 56).
    - apply (Z.mod_unique_pos _ _ (- Z.of_nat (length m / 64))); lia.
    - apply (Z.mod_unique_pos _ _ (- Z.of_nat (length m / 64) - 1)); lia. }
  assert (length ((m ++ take p PADDING) ++ take 8 bits) mod 64 = 0)%nat as Hfull.
  { rewrite !length_app, !length_take. unfold bits. rewrite length_le_bytes.
    replace (length PADDING) with 64%nat by done.
    assert (length m = 64 * (length m / 64) + r)%nat as Hlm by (apply Nat.div_mod; lia).
    apply (quot_rem _ (length m / 64 + (if (r <? 56)%nat then 1 else 2))%nat); [|lia].
    destruct (Nat.ltb_spec r 56); lia. }
  rewrite Epad in R2, Hfull. destruct R2 as [_ _ _ (dn & rest & Em & Hd & Hrest & Hst & _)].
  rewrite Hfull in Hrest. apply nil_length_inv in Hrest as ->. rewrite app_nil_r in Em.
  pose proof (MD5Encode_spec (words_of (state c2)) 4 5 0 0 16 ltac:(lia)) as Ee.
  change (Z.of_nat 0) with 0 in Ee.
  rewrite Ee; [|by rewrite length_words_of|lia].
  unfold rfc_md5. cbn zeta. rewrite Hst, Em, drop_0. do 2 f_equal.
  apply take_ge. by rewrite length_words_of.
Qed.

(** Feeding a message in pieces. *)
Fixpoint MD5Updates (context : MD5_CTX) (pieces : list (list Z)) : option MD5_CTX :=
  match pieces with
  | [] => Some context
  | p :: pieces =>
      context ← MD5Update context p (Z.of_nat (length p)); MD5Updates context pieces
  end.

Definition piece_ok (p : list Z) : Prop := bytes_ok p /\ Z.of_nat (length p) + 64 < 2 ^ 32.

Lemma MD5Updates_spec pieces : forall ctx m,
  ctx_rep ctx m -> Forall piece_ok pieces ->
  exists ctx', MD5Updates ctx pieces = Some ctx' /\ ctx_rep ctx' (m ++ concat pieces).
Proof.
  induction pieces as [|p pieces IH]; intros ctx m Hrep Hok; cbn [MD5Updates concat].
  - rewrite app_nil_r. eauto.
  - apply Forall_cons in Hok as [[Hb Hl] Hok].
    destruct (MD5Update_spec ctx m p (length p) Hrep Hb) as (c1 & -> & R1); [lia..|].
    rewrite firstn_all in R1. bind_simpl. rewrite (assoc_L app). by apply IH.
Qed.

(** C15. The streaming digest is RFC 1321's: from any context whose buffer has 64 bytes,
    whatever they are, [MD5Init], any sequence of [MD5Update] calls and [MD5Final] access no
    memory outside their arguments and return the RFC's digest of the concatenation of the
    pieces, however the message was cut (the bit count is kept modulo 2^64, a single piece
    has less than 2^32 - 64 bytes). *)
Theorem MD5_is_RFC1321 ctx pieces :
  length (buffer ctx) = 64%nat -> Forall piece_ok pieces ->
  exists ctx', MD5Updates (MD5Init ctx) pieces = Some ctx' /\
    MD5Final ctx' = Some (rfc_md5 (concat pieces)).
Proof.
  intros Hb Hok.
  destruct (MD5Updates_spec pieces (MD5Init ctx) [] (MD5Init_rep ctx Hb) Hok) as (c & E & R).
  exists c. split; [done|]. by apply MD5Final_spec.
Qed.

(** ** Hexadecimal *)

Lemma int2hex_spec b :
  is_byte b ->
  [_int2hex (i8 (Z.land (Z.shiftr (i8 b) 4) 0xf)); _int2hex (i8 (Z.land (i8 b) 0xf))]
    = sprintf_02x true b.
Proof.
  intros Hb. assert (forallb (fun b => bool_decide
    ([_int2hex (i8 (Z.land (Z.shiftr (i8 b) 4) 0xf)); _int2hex (i8 (Z.land (i8 b) 0xf))]
      = sprintf_02x true b)) (Z.of_nat <$> seq 0 256) = true) as E by (vm_compute; reflexivity).
  rewrite forallb_forall in E. eapply bool_decide_eq_true_1, E, list_elem_of_In, list_elem_of_fmap.
  exists (Z.to_nat b). unfold is_byte in Hb. split; [lia|]. apply elem_of_seq. lia.
Qed.

Lemma rfc_md5_ok m : bytes_ok (rfc_md5 m) /\ length (rfc_md5 m) = 16%nat.
Proof.
  unfold rfc_md5. destruct (rfc_blocks _ _ _) as [[[a b] c] d]. cbn [words_of flat_map].
  split; [|by rewrite !length_app, !length_le_bytes].
  repeat (apply Forall_app; split); try apply le_bytes_ok. constructor.
Qed.

(** [get_md5] writes the 32 hexadecimal digits of the RFC digest of its data and a NUL,
    in lower case exactly when [MD5_LOWER] is set; the lower-case text is what [_cvthex]
    makes of the digest, although its bytes are signed characters there. *)
Theorem get_md5_spec buf0 data flag :
  length buf0 = 64%nat -> bytes_ok data -> Z.of_nat (length data) < 2 ^ 31 ->
  get_md5 buf0 data (Z.of_nat (length data)) flag =
    Some (flat_map (sprintf_02x (Z.testbit flag 1)) (rfc_md5 data) ++ [0]) /\
  _cvthex (rfc_md5 data) = flat_map (sprintf_02x true) (rfc_md5 data) ++ [0].
Proof.
  intros Hb0 Hd Hl. destruct (rfc_md5_ok data) as [Hok H16]. split.
  - unfold get_md5. rewrite (wrap_small 32) by lia.
    destruct (MD5Update_spec (MD5Init (Ctx (0, 0) (0, 0, 0, 0) buf0)) [] data (length data))
      as (c & E & R); [by apply MD5Init_rep|done|lia|lia|].
    cbn zeta. rewrite E. bind_simpl. rewrite firstn_all in R. rewrite (MD5Final_spec _ _ R).
    bind_simpl. rewrite take_ge by (simpl; lia). do 5 f_equal.
    unfold MD5_LOWER. apply eq_true_iff_eq. rewrite negb_true_iff, Z.eqb_neq.
    split; intros Hf.
    + destruct (Z.testbit flag 1) eqn:E1; [done|]. destruct Hf.
      apply Z.bits_inj'. intros i Hi. rewrite Z.land_spec, Z.testbit_0_l.
      change (Z.shiftl 1 1) with (2 ^ 1). rewrite Z.pow2_bits_eqb by lia.
      destruct (Z.eqb_spec 1 i) as [<-|]; [by rewrite E1|apply andb_false_r].
    + intros E0. apply (f_equal (fun x => Z.testbit x 1)) in E0.
      rewrite Z.land_spec, Hf, Z.testbit_0_l in E0. done.
  - unfold _cvthex. rewrite take_ge by (simpl in *; lia). f_equal.
    clear H16. induction Hok as [|b bs Hb Hbs IH]; [done|]. cbn [flat_map].
    by rewrite int2hex_spec, IH.
Qed.

(** ** Witnesses *)

Lemma MD5_is_RFC1321_witness :
  exists ctx', MD5Updates (MD5Init (Ctx (0, 0) (0, 0, 0, 0) (replicate 64 7)))
      [[97; 100]; replicate 70 109; [105; 110]] = Some ctx' /\
    MD5Final ctx' = Some (rfc_md5 (concat [[97; 100]; replicate 70 109; [105; 110]])).
Proof.
  apply (MD5_is_RFC1321 (Ctx (0, 0) (0, 0, 0, 0) (replicate 64 7))); [reflexivity|].
  repeat constructor; unfold is_byte; lia.
Defined.

Lemma get_md5_spec_witness :
  get_md5 (replicate 64 0) [97; 100; 109; 105; 110] 5 2 =
    Some (flat_map (sprintf_02x (Z.testbit 2 1)) (rfc_md5 [97; 100; 109; 105; 110]) ++ [0]) /\
  _cvthex (rfc_md5 [97; 100; 109; 105; 110]) =
    flat_map (sprintf_02x true) (rfc_md5 [97; 100; 109; 105; 110]) ++ [0].
Proof.
  apply (get_md5_spec (replicate 64 0) [97; 100; 109; 105; 110] 2); [reflexivity| |reflexivity].
  repeat constructor; unfold is_byte; lia.
Defined.
