(* ===== verification/Base64.v ===== *)
(** Base64: src/demo_base64/base64.c.

    Bytes are integers in [0, 256). A source pointer is the list of the bytes it leads to
    (reading past its end is undefined, [None]); a destination is the list of the bytes
    stored through it. [_BASE64_CHECKDATA] is not defined by the build, so the unchecked
    branches are the ones modelled. *)

From S2P Require Import Prelude.

(* src/demo_base64/base64.c:4-13 base64_enc_map *)
Definition base64_enc_map : list Z := [
  65; 66; 67; 68; 69; 70; 71; 72; 73; 74; 75; 76; 77; 78; 79; 80;
  81; 82; 83; 84; 85; 86; 87; 88; 89; 90; 97; 98; 99; 100; 101; 102;
  103; 104; 105; 106; 107; 108; 109; 110; 111; 112; 113; 114; 115; 116; 117; 118;
  119; 120; 121; 122; 48; 49; 50; 51; 52; 53; 54; 55; 56; 57; 43; 47].

(* src/demo_base64/base64.c:15-30 base64_dec_map *)
Definition base64_dec_map : list Z := [
  127; 127; 127; 127; 127; 127; 127; 127; 127; 127; 127; 127; 127; 127; 127; 127;
  127; 127; 127; 127; 127; 127; 127; 127; 127; 127; 127; 127; 127; 127; 127; 127;
  127; 127; 127; 127; 127; 127; 127; 127; 127; 127; 127; 62; 127; 127; 127; 63;
  52; 53; 54; 55; 56; 57; 58; 59; 60; 61; 127; 127; 127; 64; 127; 127;
  127; 0; 1; 2; 3; 4; 5; 6; 7; 8; 9; 10; 11; 12; 13; 14;
  15; 16; 17; 18; 19; 20; 21; 22; 23; 24; 25; 127; 127; 127; 127; 127;
  127; 26; 27; 28; 29; 30; 31; 32; 33; 34; 35; 36; 37; 38; 39; 40;
  41; 42; 43; 44; 45; 46; 47; 48; 49; 50; 51; 127; 127; 127; 127; 127].

(* src/demo_base64/base64.h:5-5 XYSSL_ERR_BASE64_BUFFER_TOO_SMALL *)
Definition XYSSL_ERR_BASE64_BUFFER_TOO_SMALL : Z := -0x10.

Definition enc (v : Z) : option Z := znth base64_enc_map v.
Definition dec (c : Z) : option Z := znth base64_dec_map c.
Arguments enc : simpl never.
Arguments dec : simpl never.

(** ** Encoding *)

(** The bytes stored and what is left of the source. *)
(* src/demo_base64/base64.c:59-69 base64_encode *)
Fixpoint encode_loop (fuel : nat) (i n : Z) (src : list Z) : option (list Z * Z * list Z) :=
  match fuel with
  | O => None
  | S fuel =>
      if i <? n then
        match src with
        | C1 :: C2 :: C3 :: src =>
            a ← enc (Z.land (Z.shiftr C1 2) 0x3F);
            b ← enc (Z.land (Z.shiftl (Z.land C1 3) 4 + Z.shiftr C2 4) 0x3F);
            c ← enc (Z.land (Z.shiftl (Z.land C2 15) 2 + Z.shiftr C3 6) 0x3F);
            d ← enc (Z.land C3 0x3F);
            '(out, i, src) ← encode_loop fuel (i + 3) n src;
            Some (a :: b :: c :: d :: out, i, src)
        | _ => None
        end
      else Some ([], i, src)
  end.

(** The last one or two bytes. *)
(* src/demo_base64/base64.c:71-84 base64_encode *)
Definition encode_tail (i slen : Z) (src : list Z) : option (list Z) :=
  if i <? slen then
    C1 ← src !! 0%nat;
    C2 ← (if i + 1 <? slen then src !! 1%nat else Some 0);
    a ← enc (Z.land (Z.shiftr C1 2) 0x3F);
    b ← enc (Z.land (Z.shiftl (Z.land C1 3) 4 + Z.shiftr C2 4) 0x3F);
    c ← (if i + 1 <? slen then enc (Z.land (Z.shiftl (Z.land C2 15) 2) 0x3F) else Some 61);
    Some [a; b; c; 61]
  else Some [].

(** [(return value, *dlen, bytes stored)]; a length whose number of bits is not an [int] is
    undefined. *)
(* src/demo_base64/base64.c:32-90 base64_encode *)
Definition base64_encode (dlen : Z) (src : list Z) (slen : Z) : option (Z * Z * list Z) :=
  if slen =? 0 then Some (0, dlen, []) else
  _ ← require ((0 <=? slen) && (slen * 8 <=? INT_MAX));
  let n := slen * 8 / 6 in
  let n := match slen * 8 - n * 6 with 2 => n + 3 | 4 => n + 2 | _ => n end in
  if dlen <? n + 1 then Some (XYSSL_ERR_BASE64_BUFFER_TOO_SMALL, n + 1, []) else
  let n := slen / 3 * 3 in
  '(out, i, src) ← encode_loop (S (length src)) 0 n src;
  tail ← encode_tail i slen src;
  Some (0, Z.of_nat (length (out ++ tail)), (out ++ tail) ++ [0]).

(** ** Decoding *)

Definition is_blank (c : Z) : bool := (c =? 32) || (c =? 13) || (c =? 10).

(** [while (i >= 0 && blank(src[i])) --i;] *)
(* src/demo_base64/base64.c:104-108 base64_decode *)
Fixpoint skip_blanks (fuel : nat) (src : list Z) (i : Z) : option Z :=
  match fuel with
  | O => None
  | S fuel =>
      if i <? 0 then Some i else
      c ← znth src i;
      if is_blank c then skip_blanks fuel src (i - 1) else Some i
  end.

(** [tmp[k] == 64] as an [int] *)
Definition eq64 (v : Z) : Z := Z.b2z (v =? 64).

(** The bytes of one group of four characters, [j] of them; [j] is unsigned. *)
(* src/demo_base64/base64.c:158-160 base64_decode *)
Definition quad_bytes (t0 t1 t2 t3 j : Z) : list Z :=
  (if j >? 0 then [u8 (Z.lor (Z.shiftl (Z.land t0 0x3F) 2) (Z.land (Z.shiftr t1 4) 0x3F))] else []) ++
  (if j >? 1 then [u8 (Z.lor (Z.shiftl (Z.land t1 0xF) 4) (Z.land (Z.shiftr t2 2) 0xF))] else []) ++
  (if j >? 2 then [u8 (Z.lor (Z.shiftl (Z.land t2 0x3) 6) (Z.land t3 0x3F))] else []).

(** [inr]: the early return; [inl]: the bytes stored. [src] is the advancing pointer. *)
(* src/demo_base64/base64.c:118-162 base64_decode *)
Fixpoint decode_loop (fuel : nat) (dlen slen i j count : Z) (src : list Z)
    : option (list Z + list Z * Z) :=
  match fuel with
  | O => None
  | S fuel =>
      if i <? slen then
        c ← src !! 0%nat;
        if (c =? 13) || (c =? 10) then decode_loop fuel dlen slen (i + 1) j count (drop 1 src) else
        t0 ← dec c;
        t1 ← src !! 1%nat ≫= dec; t2 ← src !! 2%nat ≫= dec; t3 ← src !! 3%nat ≫= dec;
        let j := u32 (j - (eq64 t0 + eq64 t1 + eq64 t2 + eq64 t3)) in
        let count := i32 (count + j) in
        if dlen <? count then Some (inr ([], XYSSL_ERR_BASE64_BUFFER_TOO_SMALL)) else
        r ← decode_loop fuel dlen slen (i + 4) j count (drop 4 src);
        Some (match r with
              | inl out => inl (quad_bytes t0 t1 t2 t3 j ++ out)
              | inr (out, e) => inr (quad_bytes t0 t1 t2 t3 j ++ out, e)
              end)
      else Some (inl [])
  end.

(** [(return value, *dlen, bytes stored)]. A null [src], [dst] or [dlen] is [None] or
    [false]. *)
(* src/demo_base64/base64.c:92-167 base64_decode *)
Definition base64_decode (dst : bool) (dlen : option Z) (src : option (list Z)) (slen : Z)
    : option (Z * option Z * list Z) :=
  match src, dlen with
  | Some src, Some dl =>
      if negb dst || (dl <=? 0) || (slen <=? 3) then Some (-1, dlen, []) else
      i ← skip_blanks (S (length src)) src (slen - 1);
      if i =? 0 then Some (0, Some 0, []) else
      r ← decode_loop (S (length src)) dl (i + 1) 0 3 0 src;
      Some (match r with
            | inl out => (0, Some (Z.of_nat (length out)), out)
            | inr (out, e) => (e, dlen, out)
            end)
  | _, _ => Some (-1, dlen, [])
  end.

(** ** The older decoder *)

(** The counting loop; [j] only guards branches whose bodies are commented out, but its
    reads of the table are kept. *)
(* src/demo_base64/base64.c:175-197 base64_decode_old *)
Fixpoint old_count (fuel : nat) (src : list Z) (slen i j n : Z) : option Z :=
  match fuel with
  | O => None
  | S fuel =>
      if i <? slen then
        c ← znth src i;
        crlf ← (if (slen - i >=? 2) && (c =? 13) then c' ← znth src (i + 1); Some (c' =? 10)
                else Some false);
        if crlf : bool then old_count fuel src slen (i + 1) j n else
        if c =? 10 then old_count fuel src slen (i + 1) j n else
        let j := if c =? 61 then j + 1 else j in
        _ ← dec c;
        old_count fuel src slen (i + 1) j (n + 1)
      else Some n
  end.

(** [x = (x << 6) | (v & 0x3F)] *)
Definition push (x v : Z) : Z := u64 (Z.lor (Z.shiftl x 6) (Z.land v 0x3F)).

(** [i] counts the characters left, [x] is an [unsigned long]. *)
(* src/demo_base64/base64.c:210-225 base64_decode_old *)
Fixpoint old_loop (i : nat) (src : list Z) (j n x : Z) : option (list Z) :=
  match i with
  | O => Some []
  | S i =>
      c ← src !! 0%nat;
      if (c =? 13) || (c =? 10) then old_loop i (drop 1 src) j n x else
      v ← dec c;
      let j := j - eq64 v in
      let x := push x v in
      if n + 1 =? 4 then
        out ← old_loop i (drop 1 src) j 0 x;
        Some ((if j >? 0 then [u8 (Z.shiftr x 16)] else []) ++
              (if j >? 1 then [u8 (Z.shiftr x 8)] else []) ++
              (if j >? 2 then [u8 x] else []) ++ out)
      else old_loop i (drop 1 src) j (n + 1) x
  end.

(* src/demo_base64/base64.c:169-230 base64_decode_old *)
Definition base64_decode_old (dlen : Z) (src : list Z) (slen : Z) : option (Z * Z * list Z) :=
  n ← old_count (S (length src)) src slen 0 0 0;
  if n =? 0 then Some (0, dlen, []) else
  _ ← require (n * 6 + 7 <=? INT_MAX);
  let n := Z.shiftr (n * 6 + 7) 3 in
  if dlen <? n then Some (XYSSL_ERR_BASE64_BUFFER_TOO_SMALL, n, []) else
  out ← old_loop (Z.to_nat slen) src 3 0 0;
  Some (0, Z.of_nat (length out), out).

(** * The code *)

(** The RFC 4648 text of a byte string. *)
Definition sextets (a b c : Z) : Z * Z * Z * Z :=
  (a / 4, a mod 4 * 16 + b / 16, b mod 16 * 4 + c / 64, c mod 64).

(** The alphabet of its table 1: the capital letters, the small ones, the digits, + and /. *)
Definition chr (v : Z) : Z :=
  if v <? 26 then 65 + v else if v <? 52 then 97 + (v - 26) else if v <? 62 then 48 + (v - 52)
  else if v =? 62 then 43 else 47.

Fixpoint rfc_text (bs : list Z) : list Z :=
  match bs with
  | a :: b :: c :: bs =>
      let '(s0, s1, s2, s3) := sextets a b c in
      chr s0 :: chr s1 :: chr s2 :: chr s3 :: rfc_text bs
  | [a; b] => let '(s0, s1, s2, _) := sextets a b 0 in [chr s0; chr s1; chr s2; 61]
  | [a] => let '(s0, s1, _, _) := sextets a 0 0 in [chr s0; chr s1; 61; 61]
  | [] => []
  end.

Example encode_any_carnal :
  base64_encode 9 [65; 66; 67; 68] 4 = Some (0, 8, [81; 85; 74; 68; 82; 65; 61; 61; 0]).
Proof. reflexivity. Qed.

Example decode_any_carnal :
  base64_decode true (Some 4) (Some [81; 85; 74; 68; 13; 10; 82; 65; 61; 61; 10; 32]) 12
    = Some (0, Some 4, [65; 66; 67; 68]).
Proof. reflexivity. Qed.

Example decode_old_any_carnal :
  base64_decode_old 6 [81; 85; 74; 68; 13; 10; 82; 65; 61; 61; 10] 11
    = Some (0, 4, [65; 66; 67; 68]).
Proof. reflexivity. Qed.

Lemma triples_ind (P : list Z -> Prop) :
  P [] -> (forall a, P [a]) -> (forall a b, P [a; b]) ->
  (forall a b c l, P l -> P (a :: b :: c :: l)) -> forall l, P l.
Proof.
  intros H0 H1 H2 H3. fix IH 1. intros [|a [|b [|c l]]];
    [exact H0|apply H1|apply H2|apply H3, IH].
Qed.

Lemma forallb_range (f : Z -> bool) n v :
  forallb f (Z.of_nat <$> seq 0 n) = true -> 0 <= v < Z.of_nat n -> f v = true.
Proof.
  rewrite forallb_forall. intros E Hv. apply E, list_elem_of_In, list_elem_of_fmap.
  exists (Z.to_nat v). split; [lia|]. apply elem_of_seq. lia.
Qed.

Definition chr_ok (v : Z) : bool :=
  bool_decide (enc v = Some (chr v) /\ dec (chr v) = Some v /\ is_blank (chr v) = false /\
    32 < chr v < 128).

Lemma chr_spec v :
  0 <= v < 64 -> enc v = Some (chr v) /\ dec (chr v) = Some v /\ is_blank (chr v) = false /\
    32 < chr v < 128.
Proof.
  intros Hv. assert (forallb chr_ok (Z.of_nat <$> seq 0 64) = true) as E by reflexivity.
  by apply (forallb_range _ _ v), bool_decide_eq_true in E.
Qed.

Lemma enc_chr v : 0 <= v < 64 -> enc v = Some (chr v).
Proof. apply chr_spec. Qed.

(** The masks and shifts of the code are divisions and remainders. *)
Lemma land_ones_63 x : Z.land x 0x3F = x mod 64.
Proof. change 0x3F with (Z.ones 6). by rewrite Z.land_ones. Qed.
Lemma land_ones_15 x : Z.land x 0xF = x mod 16.
Proof. change 0xF with (Z.ones 4). by rewrite Z.land_ones. Qed.
Lemma land_ones_3 x : Z.land x 0x3 = x mod 4.
Proof. change 0x3 with (Z.ones 2). by rewrite Z.land_ones. Qed.
Lemma shiftr_div x n : 0 <= n -> Z.shiftr x n = x / 2 ^ n.
Proof. apply Z.shiftr_div_pow2. Qed.
Lemma shiftl_mul x n : 0 <= n -> Z.shiftl x n = x * 2 ^ n.
Proof. apply Z.shiftl_mul_pow2. Qed.

Lemma lor_add x y n : 0 <= n -> 0 <= x < 2 ^ n -> Z.lor (Z.shiftl y n) x = x + y * 2 ^ n.
Proof. intros. rewrite Z.lor_comm. by apply lor_shiftl_add. Qed.

Ltac arith :=
  change (2 ^ 2) with 4 in *; change (2 ^ 4) with 16 in *; change (2 ^ 6) with 64 in *;
  unfold is_byte, wrap in *; change (2 ^ 8) with 256 in *; Z.div_mod_to_equations; lia.

Lemma sextets_range a b c :
  is_byte a -> is_byte b -> is_byte c ->
  let '(s0, s1, s2, s3) := sextets a b c in
  0 <= s0 < 64 /\ 0 <= s1 < 64 /\ 0 <= s2 < 64 /\ 0 <= s3 < 64.
Proof. unfold sextets. intros. repeat split; arith. Qed.

(** What the encoder computes from three bytes. *)
Lemma enc_sextets a b c :
  is_byte a -> is_byte b -> is_byte c ->
  let '(s0, s1, s2, s3) := sextets a b c in
  enc (Z.land (Z.shiftr a 2) 0x3F) = Some (chr s0) /\
  enc (Z.land (Z.shiftl (Z.land a 3) 4 + Z.shiftr b 4) 0x3F) = Some (chr s1) /\
  enc (Z.land (Z.shiftl (Z.land b 15) 2 + Z.shiftr c 6) 0x3F) = Some (chr s2) /\
  enc (Z.land c 0x3F) = Some (chr s3).
Proof.
  intros Ha Hb Hc. pose proof (sextets_range a b c Ha Hb Hc) as Hr. unfold sextets in *.
  rewrite !land_ones_63, land_ones_3, land_ones_15, !shiftr_div, !shiftl_mul by lia.
  repeat split; rewrite enc_chr; try (do 2 f_equal); arith.
Qed.

Lemma first_byte t0 t1 :
  0 <= t0 < 64 -> 0 <= t1 < 64 ->
  u8 (Z.lor (Z.shiftl (Z.land t0 0x3F) 2) (Z.land (Z.shiftr t1 4) 0x3F)) = t0 * 4 + t1 / 16.
Proof.
  intros. rewrite !land_ones_63, shiftr_div by lia. rewrite lor_add by arith. arith.
Qed.

Lemma second_byte t1 t2 :
  0 <= t1 < 64 -> 0 <= t2 < 64 ->
  u8 (Z.lor (Z.shiftl (Z.land t1 0xF) 4) (Z.land (Z.shiftr t2 2) 0xF)) = t1 mod 16 * 16 + t2 / 4.
Proof.
  intros. rewrite !land_ones_15, shiftr_div by lia. rewrite lor_add by arith. arith.
Qed.

Lemma third_byte t2 t3 :
  0 <= t2 < 64 -> 0 <= t3 < 64 ->
  u8 (Z.lor (Z.shiftl (Z.land t2 0x3) 6) (Z.land t3 0x3F)) = t2 mod 4 * 64 + t3.
Proof.
  intros. rewrite land_ones_63, land_ones_3. rewrite lor_add by arith. arith.
Qed.

(** A group decodes to the bytes it encodes. *)
Lemma quad_sextets a b c j :
  is_byte a -> is_byte b -> is_byte c ->
  let '(s0, s1, s2, s3) := sextets a b c in
  (j = 3 -> quad_bytes s0 s1 s2 s3 j = [a; b; c]) /\
  (j = 2 -> forall t3, quad_bytes s0 s1 s2 t3 j = [a; b]) /\
  (j = 1 -> forall t2 t3, quad_bytes s0 s1 t2 t3 j = [a]).
Proof.
  intros Ha Hb Hc. pose proof (sextets_range a b c Ha Hb Hc) as Hr.
  unfold sextets in *. destruct Hr as (? & ? & ? & ?). unfold quad_bytes.
  split; [|split]; intros ->; intros; simpl;
    rewrite first_byte, ?second_byte, ?third_byte by done; repeat f_equal; arith.
Qed.

(** * Encoding *)

Lemma encode_loop_spec : forall k fuel i src,
  (k < fuel)%nat -> (3 * k <= length src)%nat -> bytes_ok src ->
  encode_loop fuel i (i + 3 * Z.of_nat k) src =
    Some (rfc_text (take (3 * k) src), i + 3 * Z.of_nat k, drop (3 * k) src).
Proof.
  induction k as [|k IH]; intros [|fuel] i src Hf Hl Hb; try lia; cbn [encode_loop].
  - destruct (Z.ltb_spec i (i + 3 * Z.of_nat 0)); [lia|]. do 2 f_equal. f_equal. lia.
  - destruct (Z.ltb_spec i (i + 3 * Z.of_nat (S k))); [|lia].
    destruct src as [|a [|b [|c src]]]; try (simpl in Hl; lia).
    apply Forall_cons in Hb as [Ha [Hb [Hc Hs]%Forall_cons]%Forall_cons].
    destruct (enc_sextets a b c Ha Hb Hc) as (-> & -> & -> & ->). bind_simpl.
    replace (i + 3 * Z.of_nat (S k)) with (i + 3 + 3 * Z.of_nat k) by lia.
    rewrite IH by (simpl in *; lia || done). bind_simpl.
    by replace (3 * S k)%nat with (S (S (S (3 * k)))) by lia.
Qed.

Lemma encode_tail_spec i src :
  (length src < 3)%nat -> bytes_ok src -> encode_tail i (i + Z.of_nat (length src)) src
    = Some (rfc_text src).
Proof.
  intros Hl Hb. unfold encode_tail.
  assert (is_byte 0) as H0 by (unfold is_byte; lia).
  destruct src as [|a [|b [|c src]]]; simpl in Hl; try lia; simpl length.
  - destruct (Z.ltb_spec i (i + Z.of_nat 0)); [lia|done].
  - destruct (Z.ltb_spec i (i + Z.of_nat 1)); [|lia].
    destruct (Z.ltb_spec (i + 1) (i + Z.of_nat 1)); [lia|]. apply Forall_cons in Hb as [Ha _].
    destruct (enc_sextets a 0 0 Ha H0 H0) as (E1 & E2 & _). cbn [lookup list_lookup]. bind_simpl.
    rewrite E1. bind_simpl. by rewrite E2.
  - destruct (Z.ltb_spec i (i + Z.of_nat 2)); [|lia].
    destruct (Z.ltb_spec (i + 1) (i + Z.of_nat 2)); [|lia].
    apply Forall_cons in Hb as [Ha [Hb _]%Forall_cons].
    destruct (enc_sextets a b 0 Ha Hb H0) as (E1 & E2 & E3 & _). cbn [lookup list_lookup].
    bind_simpl. rewrite E1. bind_simpl. rewrite E2. bind_simpl.
    change (Z.shiftr 0 6) with 0 in E3. rewrite Z.add_0_r in E3. by rewrite E3.
Qed.

Lemma rfc_text_app k : forall l1 l2,
  length l1 = (3 * k)%nat -> rfc_text (l1 ++ l2) = rfc_text l1 ++ rfc_text l2.
Proof.
  induction k as [|k IH]; intros l1 l2 Hl.
  - by destruct l1.
  - destruct l1 as [|a [|b [|c l1]]]; simpl in Hl; try lia. simpl.
    rewrite IH by lia. done.
Qed.

(** Four characters for every three bytes begun. *)
Definition text_length (slen : Z) : Z := 4 * ((slen + 2) / 3).

Lemma length_rfc_text bs : Z.of_nat (length (rfc_text bs)) = text_length (Z.of_nat (length bs)).
Proof.
  unfold text_length. induction bs as [|a|a b|a b c l IH] using triples_ind; try done.
  cbn [rfc_text sextets length]. rewrite !Nat2Z.inj_succ, IH.
  replace (Z.succ (Z.succ (Z.succ (Z.of_nat (length l)))) + 2)
    with (Z.of_nat (length l) + 2 + 1 * 3) by lia.
  rewrite Z.div_add by lia. lia.
Qed.

(** [base64_encode] writes the RFC 4648 text of the whole source and a NUL when the
    destination has room for them, and otherwise says how much room it needs. *)
Lemma base64_encode_eq dlen src :
  bytes_ok src -> src <> [] -> Z.of_nat (length src) * 8 <= INT_MAX ->
  let n := text_length (Z.of_nat (length src)) in
  base64_encode dlen src (Z.of_nat (length src)) =
    Some (if dlen <? n + 1 then (XYSSL_ERR_BASE64_BUFFER_TOO_SMALL, n + 1, [])
          else (0, n, rfc_text src ++ [0])) /\
  Z.of_nat (length (rfc_text src ++ [0])) = n + 1.
Proof.
  intros Hb Hne Hmax n.
  split; [|unfold n; rewrite <- length_rfc_text, length_app; simpl; lia].
  assert (0 < Z.of_nat (length src)) as Hpos by (destruct src; [done|simpl; lia]).
  unfold base64_encode. set (s := Z.of_nat (length src)) in *.
  rewrite (proj2 (Z.eqb_neq s 0)) by lia.
  destruct (Z.leb_spec 0 s), (Z.leb_spec (s * 8) INT_MAX); try lia. simpl require. bind_simpl.
  assert (match s * 8 - s * 8 / 6 * 6 with 2 => s * 8 / 6 + 3 | 4 => s * 8 / 6 + 2
    | _ => s * 8 / 6 end = n) as ->.
  { unfold n, text_length.
    assert (s mod 3 = 0 \/ s mod 3 = 1 \/ s mod 3 = 2) as Hm by (Z.div_mod_to_equations; lia).
    pose proof (Z.div_mod s 3 ltac:(lia)) as Es. set (q := s / 3) in *.
    destruct Hm as [Hm|[Hm|Hm]]; rewrite Hm in Es.
    - replace (s * 8 / 6) with (4 * q) by (Z.div_mod_to_equations; lia).
      replace (s * 8 - 4 * q * 6) with 0 by lia. Z.div_mod_to_equations; lia.
    - replace (s * 8 / 6) with (4 * q + 1) by (Z.div_mod_to_equations; lia).
      replace (s * 8 - (4 * q + 1) * 6) with 2 by lia. Z.div_mod_to_equations; lia.
    - replace (s * 8 / 6) with (4 * q + 2) by (Z.div_mod_to_equations; lia).
      replace (s * 8 - (4 * q + 2) * 6) with 4 by lia. Z.div_mod_to_equations; lia. }
  destruct (Z.ltb_spec dlen (n + 1)) as [|Hroom]; [done|].
  set (k := (length src / 3)%nat).
  assert (length src = 3 * k + length src mod 3 /\ length src mod 3 < 3)%nat as [Hk Hm]
    by (split; [apply Nat.div_mod; lia|apply Nat.mod_upper_bound; lia]).
  replace (s / 3 * 3) with (0 + 3 * Z.of_nat k)
    by (unfold s, k; rewrite Nat2Z.inj_div; lia).
  rewrite encode_loop_spec by (lia || done). bind_simpl.
  replace s with (0 + 3 * Z.of_nat k + Z.of_nat (length (drop (3 * k) src)))
    by (rewrite length_drop; lia).
  rewrite encode_tail_spec; [|rewrite length_drop; lia|by apply Forall_drop].
  bind_simpl. rewrite <- (rfc_text_app k), take_drop by (rewrite length_take; lia).
  by rewrite length_rfc_text.
Qed.

(** * Decoding *)

Definition group3 (a b c : Z) : list Z :=
  let '(s0, s1, s2, s3) := sextets a b c in [chr s0; chr s1; chr s2; chr s3].
Definition group2 (a b : Z) : list Z :=
  let '(s0, s1, s2, _) := sextets a b 0 in [chr s0; chr s1; chr s2; 61].
Definition group1 (a : Z) : list Z :=
  let '(s0, s1, _, _) := sextets a 0 0 in [chr s0; chr s1; 61; 61].

(** The texts of a byte string: its groups, with line ends between them. *)
Inductive wrapped : list Z -> list Z -> Prop :=
| wrapped_nil : wrapped [] []
| wrapped_eol c bs t : c = 13 \/ c = 10 -> wrapped bs t -> wrapped bs (c :: t)
| wrapped_3 a b c bs t : is_byte a -> is_byte b -> is_byte c -> wrapped bs t ->
    wrapped (a :: b :: c :: bs) (group3 a b c ++ t)
| wrapped_2 a b t : is_byte a -> is_byte b -> wrapped [] t -> wrapped [a; b] (group2 a b ++ t)
| wrapped_1 a t : is_byte a -> wrapped [] t -> wrapped [a] (group1 a ++ t).

Lemma wrapped_rfc_text bs : bytes_ok bs -> wrapped bs (rfc_text bs).
Proof.
  induction bs as [|a|a b|a b c l IH] using triples_ind; intros Hb.
  - constructor.
  - apply Forall_cons in Hb as [Ha _]. apply (wrapped_1 a []); [done|constructor].
  - apply Forall_cons in Hb as [Ha [Hb _]%Forall_cons].
    apply (wrapped_2 a b []); [done..|constructor].
  - apply Forall_cons in Hb as [Ha [Hb [Hc Hl]%Forall_cons]%Forall_cons].
    apply (wrapped_3 a b c l); auto.
Qed.

Lemma eq64_sextet v : 0 <= v < 64 -> eq64 v = 0.
Proof. unfold eq64. intros. by destruct (Z.eqb_spec v 64); [lia|]. Qed.

(** One turn of the loop on four characters. *)
Lemma decode_group fuel dlen slen i j count c0 c1 c2 c3 t0 t1 t2 t3 rest :
  i < slen -> c0 <> 13 -> c0 <> 10 ->
  dec c0 = Some t0 -> dec c1 = Some t1 -> dec c2 = Some t2 -> dec c3 = Some t3 ->
  let j' := j - (eq64 t0 + eq64 t1 + eq64 t2 + eq64 t3) in
  0 <= j' <= 3 -> 0 <= count -> count + j' <= dlen -> dlen <= INT_MAX ->
  decode_loop (S fuel) dlen slen i j count (c0 :: c1 :: c2 :: c3 :: rest) =
  (r ← decode_loop fuel dlen slen (i + 4) j' (count + j') rest;
   Some (match r with
         | inl out => inl (quad_bytes t0 t1 t2 t3 j' ++ out)
         | inr (out, e) => inr (quad_bytes t0 t1 t2 t3 j' ++ out, e)
         end)).
Proof.
  intros Hi H13 H10 E0 E1 E2 E3 j' Hj Hc Hd Hm. cbn [decode_loop].
  destruct (Z.ltb_spec i slen); [|lia]. cbn [lookup list_lookup]. bind_simpl.
  rewrite (proj2 (Z.eqb_neq c0 13)), (proj2 (Z.eqb_neq c0 10)) by done. cbn [orb].
  rewrite E0. bind_simpl. rewrite E1. bind_simpl. rewrite E2. bind_simpl. rewrite E3. bind_simpl.
  fold j'. unfold INT_MAX in *. rewrite (wrap_small 32 j') by lia.
  assert (i32 (count + j') = count + j') as -> by (unfold sint; rewrite Z.mod_small; lia).
  destruct (Z.ltb_spec dlen (count + j')); [lia|]. done.
Qed.

Lemma decode_eols t : forall bs, wrapped bs t -> bs = [] -> forall fuel dlen i j count rest,
  (length t < fuel)%nat ->
  decode_loop fuel dlen (i + Z.of_nat (length t)) i j count (t ++ rest) = Some (inl []).
Proof.
  induction 1 as [|c bs t Hc Hw IH| | |]; intros E; try discriminate E; intros fuel dlen i j count rest Hf;
    destruct fuel as [|fuel]; try (simpl in Hf; lia); cbn [decode_loop length].
  - destruct (Z.ltb_spec i (i + Z.of_nat 0)); [lia|done].
  - destruct (Z.ltb_spec i (i + Z.of_nat (S (length t)))); [|lia].
    cbn [app lookup list_lookup]. bind_simpl.
    replace ((c =? 13) || (c =? 10)) with true by (destruct Hc as [->| ->]; done).
    replace (i + Z.of_nat (S (length t))) with (i + 1 + Z.of_nat (length t)) by lia.
    apply IH; [done|simpl in Hf; lia].
Qed.

Lemma dec_eq : dec 61 = Some 64.
Proof. reflexivity. Qed.

Ltac group_side :=
  first [done | lia | (apply chr_spec; lia) |
         (match goal with |- chr ?v <> _ => pose proof (chr_spec v ltac:(lia)); lia end)].

Lemma decode_loop_wrapped bs t :
  wrapped bs t -> forall fuel dlen i count rest,
  (length t < fuel)%nat -> 0 <= count -> count + Z.of_nat (length bs) <= dlen -> dlen <= INT_MAX ->
  decode_loop fuel dlen (i + Z.of_nat (length t)) i 3 count (t ++ rest) = Some (inl bs).
Proof.
  assert (is_byte 0) as H0 by (unfold is_byte; lia).
  induction 1 as [|c bs t Hc Hw IH|a b c bs t Ha Hb Hc Hw IH|a b t Ha Hb Hw _|a t Ha Hw _];
    intros fuel dlen i count rest Hf Hcount Hd Hm.
  - apply (decode_eols [] []); [constructor|done|done].
  - destruct fuel as [|fuel]; [simpl in Hf; lia|]. cbn [decode_loop length].
    destruct (Z.ltb_spec i (i + Z.of_nat (S (length t)))); [|lia].
    cbn [app lookup list_lookup]. bind_simpl.
    replace ((c =? 13) || (c =? 10)) with true by (destruct Hc as [->| ->]; done).
    replace (i + Z.of_nat (S (length t))) with (i + 1 + Z.of_nat (length t)) by lia.
    apply IH; simpl in *; lia.
  - pose proof (sextets_range a b c Ha Hb Hc) as Hr. pose proof (quad_sextets a b c 3 Ha Hb Hc) as Hq.
    unfold group3 in *. destruct (sextets a b c) as [[[s0 s1] s2] s3].
    destruct Hr as (R0 & R1 & R2 & R3), Hq as (Hq & _).
    destruct fuel as [|fuel]; [simpl in Hf; lia|]. cbn [app length] in *.
    rewrite (decode_group _ _ _ _ _ _ _ _ _ _ s0 s1 s2 s3); rewrite ?eq64_sextet by lia; try group_side.
    change (3 - (0 + 0 + 0 + 0)) with 3. rewrite Hq by done.
    replace (i + Z.of_nat (S (S (S (S (length t)))))) with (i + 4 + Z.of_nat (length t)) by lia.
    rewrite IH by (simpl in *; lia). done.
  - pose proof (sextets_range a b 0 Ha Hb H0) as Hr. pose proof (quad_sextets a b 0 2 Ha Hb H0) as Hq.
    unfold group2 in *. destruct (sextets a b 0) as [[[s0 s1] s2] s3].
    destruct Hr as (R0 & R1 & R2 & R3), Hq as (_ & Hq & _).
    destruct fuel as [|fuel]; [simpl in Hf; lia|]. cbn [app length] in *.
    rewrite (decode_group _ _ _ _ _ _ _ _ _ _ s0 s1 s2 64); rewrite ?eq64_sextet by lia; try group_side.
    change (3 - (0 + 0 + 0 + eq64 64)) with 2. rewrite Hq by done.
    replace (i + Z.of_nat (S (S (S (S (length t)))))) with (i + 4 + Z.of_nat (length t)) by lia.
    by rewrite (decode_eols t []) by (done || lia).
  - pose proof (sextets_range a 0 0 Ha H0 H0) as Hr. pose proof (quad_sextets a 0 0 1 Ha H0 H0) as Hq.
    unfold group1 in *. destruct (sextets a 0 0) as [[[s0 s1] s2] s3].
    destruct Hr as (R0 & R1 & R2 & R3), Hq as (_ & _ & Hq).
    destruct fuel as [|fuel]; [simpl in Hf; lia|]. cbn [app length] in *.
    rewrite (decode_group _ _ _ _ _ _ _ _ _ _ s0 s1 64 64); rewrite ?eq64_sextet by lia; try group_side.
    change (3 - (0 + 0 + eq64 64 + eq64 64)) with 1. rewrite Hq by done.
    replace (i + Z.of_nat (S (S (S (S (length t)))))) with (i + 4 + Z.of_nat (length t)) by lia.
    by rewrite (decode_eols t []) by (done || lia).
Qed.

Lemma skip_blanks_spec t ws rest : forall n fuel,
  Forall (fun c => is_blank c = true) ws -> t <> [] -> is_blank (List.last t 0) = false ->
  (n <= length ws)%nat -> (n < fuel)%nat ->
  skip_blanks fuel (t ++ ws ++ rest) (Z.of_nat (length t + n) - 1) = Some (Z.of_nat (length t) - 1).
Proof.
  intros n fuel Hws Hne Hlast. revert fuel.
  assert (0 < length t)%nat as Hpos by (destruct t; [done|simpl; lia]).
  induction n as [|n IH]; intros [|fuel] Hn Hf; try lia; cbn [skip_blanks].
  - destruct (Z.ltb_spec (Z.of_nat (length t + 0) - 1) 0); [lia|].
    destruct (exists_last Hne) as (t' & c & ->). rewrite List.last_last in Hlast.
    rewrite length_app in *. simpl length in *.
    unfold znth. destruct (Z.ltb_spec (Z.of_nat (length t' + 1 + 0) - 1) 0); [lia|].
    rewrite <- (assoc_L app). simpl app.
    rewrite list_lookup_middle by lia. bind_simpl. rewrite Hlast. f_equal. lia.
  - destruct (Z.ltb_spec (Z.of_nat (length t + S n) - 1) 0); [lia|].
    unfold znth. destruct (Z.ltb_spec (Z.of_nat (length t + S n) - 1) 0); [lia|].
    replace (Z.to_nat (Z.of_nat (length t + S n) - 1)) with (length t + n)%nat by lia.
    destruct (lookup_lt_is_Some_2 ws n) as [c Hc]; [lia|].
    rewrite lookup_app_r by lia. replace (length t + n - length t)%nat with n by lia.
    rewrite lookup_app_l, Hc by lia. bind_simpl. rewrite Forall_lookup in Hws.
    rewrite (Hws n c Hc).
    replace (Z.of_nat (length t + S n) - 1 - 1) with (Z.of_nat (length t + n) - 1) by lia.
    apply IH; lia.
Qed.

Lemma wrapped_length bs t : wrapped bs t -> bs <> [] -> (4 <= length t)%nat.
Proof.
  induction 1; intros Hne; [done| |..]; try (unfold group3, group2, group1;
    destruct (sextets _ _ _) as [[[? ?] ?] ?]; rewrite length_app; simpl; lia).
  simpl. by apply le_S, IHwrapped.
Qed.

(** [base64_decode] of a text with line ends between its groups and blanks after it; what
    follows in memory does not matter. *)
Lemma decode_text bs t ws rest dlen :
  wrapped bs t -> bs <> [] -> is_blank (List.last t 0) = false ->
  Forall (fun c => is_blank c = true) ws -> Z.of_nat (length bs) <= dlen <= INT_MAX ->
  base64_decode true (Some dlen) (Some (t ++ ws ++ rest)) (Z.of_nat (length (t ++ ws))) =
    Some (0, Some (Z.of_nat (length bs)), bs).
Proof.
  intros Hw Hne Hlast Hws Hd. pose proof (wrapped_length _ _ Hw Hne) as Hl.
  assert (0 < length bs)%nat by (destruct bs; [done|simpl; lia]).
  unfold base64_decode. rewrite length_app. cbn [negb orb].
  destruct (Z.leb_spec dlen 0), (Z.leb_spec (Z.of_nat (length t + length ws)) 3); try lia.
  cbn [orb].
  rewrite skip_blanks_spec
    by (done || (by intros ->; simpl in Hl; lia) || (rewrite ?length_app; lia)).
  bind_simpl. rewrite (proj2 (Z.eqb_neq _ 0)) by lia.
  replace (Z.of_nat (length t) - 1 + 1) with (0 + Z.of_nat (length t)) by lia.
  rewrite (decode_loop_wrapped bs t Hw) by (rewrite ?length_app; lia). done.
Qed.

Lemma rfc_text_last bs : bytes_ok bs -> bs <> [] -> is_blank (List.last (rfc_text bs) 0) = false.
Proof.
  assert (is_byte 0) as H0 by (unfold is_byte; lia).
  induction bs as [|a|a b|a b c l IH] using triples_ind; intros Hb Hne; try done.
  apply Forall_cons in Hb as [Ha [Hb [Hc Hl]%Forall_cons]%Forall_cons].
  pose proof (sextets_range a b c Ha Hb Hc) as Hr. cbn [rfc_text].
  destruct (sextets a b c) as [[[s0 s1] s2] s3]. destruct Hr as (_ & _ & _ & R3).
  destruct l as [|x l]; [by apply chr_spec|]. rewrite !last_default_cons.
  specialize (IH Hl ltac:(done)). destruct (rfc_text (x :: l)) eqn:E; [|by rewrite last_default_cons in *].
  apply (f_equal length) in E. simpl in E. by destruct l as [|? [|? ?]].
Qed.

(** C17. Round trip. Given too little room [base64_encode] stores nothing and says how much
    it needs; otherwise it stores the text of RFC 4648, 4 characters for every 3 bytes begun, and
    a NUL, within the *dlen bytes it was offered, and [base64_decode] of that text gives the bytes
    back. So does every other text of the same bytes, with line ends between its groups of
    four and blanks at its end, through every buffer that holds them. *)
Theorem base64_roundtrip src dlen dlen' :
  bytes_ok src -> src <> [] -> Z.of_nat (length src) * 8 <= INT_MAX ->
  Z.of_nat (length src) <= dlen' <= INT_MAX ->
  let n := text_length (Z.of_nat (length src)) in
  let decoded := Some (0, Some (Z.of_nat (length src)), src) in
  (if dlen <? n + 1
   then base64_encode dlen src (Z.of_nat (length src)) =
          Some (XYSSL_ERR_BASE64_BUFFER_TOO_SMALL, n + 1, [])
   else Z.of_nat (length (rfc_text src)) = n /\
          base64_encode dlen src (Z.of_nat (length src)) = Some (0, n, rfc_text src ++ [0]) /\
          base64_decode true (Some dlen') (Some (rfc_text src ++ [0])) n = decoded) /\
  (forall t ws, wrapped src t -> is_blank (List.last t 0) = false ->
     Forall (fun c => is_blank c = true) ws ->
     base64_decode true (Some dlen') (Some (t ++ ws)) (Z.of_nat (length (t ++ ws))) = decoded).
Proof.
  intros Hb Hne Hmax Hd n decoded. split.
  - destruct (base64_encode_eq dlen src Hb Hne Hmax) as [E _]. fold n in E.
    destruct (dlen <? n + 1); [done|].
    split; [apply length_rfc_text|]. split; [done|].
    pose proof (decode_text src (rfc_text src) [] [0] dlen') as D.
    rewrite app_nil_r, length_rfc_text in D. apply D; try done.
    + by apply wrapped_rfc_text.
    + by apply rfc_text_last.
  - intros t ws Hw Hl Hws. pose proof (decode_text src t ws [] dlen') as D.
    rewrite (app_nil_r ws) in D. by apply D.
Qed.

(** * Unpadded texts *)

Lemma decode_partial dlen : dlen <= INT_MAX -> forall vs fuel i slen count,
  Forall (fun v => 0 <= v < 64) vs -> (length vs mod 4 <> 0)%nat ->
  slen = i + Z.of_nat (length vs) -> 0 <= count -> count + Z.of_nat (length vs) <= dlen ->
  decode_loop fuel dlen slen i 3 count (chr <$> vs) = None.
Proof.
  intros Hm vs. remember (length vs) as n eqn:Hn. revert vs Hn.
  induction n as [n IH] using lt_wf_ind. intros vs Hn fuel i slen count Hv Hmod Hs Hc Hd.
  destruct fuel as [|fuel]; [done|].
  destruct vs as [|v0 vs]; [by subst|].
  apply Forall_cons in Hv as [H0 Hv]. destruct (chr_spec v0 H0) as (_ & E0 & Hb0 & R0).
  destruct vs as [|v1 [|v2 [|v3 vs]]].
  1-3: cbn [decode_loop fmap list_fmap]; simpl in Hn;
    (destruct (Z.ltb_spec i slen); [|lia]); cbn [lookup list_lookup]; bind_simpl;
    rewrite (proj2 (Z.eqb_neq _ 13)), (proj2 (Z.eqb_neq _ 10)) by lia; cbn [orb];
    rewrite E0; bind_simpl; simpl; by repeat (destruct (dec _); simpl).
  apply Forall_cons in Hv as [H1 [H2 [H3 Hv]%Forall_cons]%Forall_cons].
  cbn [fmap list_fmap]. simpl in Hn.
  rewrite (decode_group _ _ _ _ _ _ _ _ _ _ v0 v1 v2 v3); rewrite ?eq64_sextet by lia;
    try group_side.
  change (3 - (0 + 0 + 0 + 0)) with 3.
  rewrite (IH (length vs)); try done; try lia.
  intros E. apply Hmod. rewrite Hn.
  replace (S (S (S (S (length vs))))) with (length vs + 1 * 4)%nat by lia.
  by rewrite Nat.Div0.mod_add.
Qed.

(** [base64_decode] does not check that the number of characters is a multiple of 4:
    given a text of at least 4 alphabet characters whose padding is missing, it reads past
    the end of the source. *)
Theorem base64_decode_overreads vs dlen :
  Forall (fun v => 0 <= v < 64) vs -> (3 < length vs)%nat -> (length vs mod 4 <> 0)%nat ->
  Z.of_nat (length vs) <= dlen <= INT_MAX ->
  base64_decode true (Some dlen) (Some (chr <$> vs)) (Z.of_nat (length vs)) = None.
Proof.
  intros Hv Hl Hmod Hd. unfold base64_decode. cbn [negb orb].
  destruct (Z.leb_spec dlen 0), (Z.leb_spec (Z.of_nat (length vs)) 3); try lia. cbn [orb].
  assert (is_blank (List.last (chr <$> vs) 0) = false) as Hlast.
  { destruct (exists_last (l := vs)) as (vs' & v & ->); [by intros ->; simpl in Hl; lia|].
    rewrite fmap_app. simpl. rewrite List.last_last.
    apply Forall_app in Hv as [_ [Hv _]%Forall_cons]. by apply chr_spec. }
  pose proof (skip_blanks_spec (chr <$> vs) [] [] 0 (S (length (chr <$> vs)))) as S.
  rewrite app_nil_r, Nat.add_0_r, length_fmap in S. rewrite length_fmap. rewrite S;
    [|constructor|intros E; apply (f_equal length) in E; rewrite length_fmap in E; simpl in E; lia
     |done|simpl; lia|lia].
  bind_simpl. rewrite (proj2 (Z.eqb_neq _ 0)) by lia.
  rewrite decode_partial; [done|lia|done|done|lia|lia|lia].
Qed.

(** * The older decoder *)

Definition plain (c : Z) : Prop := c <> 13 /\ c <> 10 /\ exists v, dec c = Some v.

Lemma plain_chr v : 0 <= v < 64 -> plain (chr v).
Proof. intros Hv. destruct (chr_spec v Hv) as (_ & E & _ & ?). split; [lia|]. split; [lia|eauto]. Qed.

Lemma plain_rfc_text bs : bytes_ok bs -> Forall plain (rfc_text bs).
Proof.
  assert (is_byte 0) as H0 by (unfold is_byte; lia).
  assert (plain 61) as He by (split; [lia|split; [lia|by exists 64]]).
  induction bs as [|a|a b|a b c l IH] using triples_ind; intros Hb; cbn [rfc_text];
    [constructor|apply Forall_cons in Hb as [Ha _]
    |apply Forall_cons in Hb as [Ha [Hb _]%Forall_cons]
    |apply Forall_cons in Hb as [Ha [Hb [Hc Hl]%Forall_cons]%Forall_cons]].
  - pose proof (sextets_range a 0 0 Ha H0 H0) as Hr. destruct (sextets a 0 0) as [[[s0 s1] s2] s3].
    destruct Hr as (R0 & R1 & R2 & R3). repeat (constructor; [by try apply plain_chr|]). constructor.
  - pose proof (sextets_range a b 0 Ha Hb H0) as Hr. destruct (sextets a b 0) as [[[s0 s1] s2] s3].
    destruct Hr as (R0 & R1 & R2 & R3). repeat (constructor; [by try apply plain_chr|]). constructor.
  - pose proof (sextets_range a b c Ha Hb Hc) as Hr. destruct (sextets a b c) as [[[s0 s1] s2] s3].
    destruct Hr as (R0 & R1 & R2 & R3). repeat (constructor; [by apply plain_chr|]). auto.
Qed.

Lemma old_count_plain src rest : Forall plain src -> forall k fuel j n,
  (k <= length src)%nat -> (k < fuel)%nat ->
  old_count fuel (src ++ rest) (Z.of_nat (length src)) (Z.of_nat (length src - k)) j n =
    Some (n + Z.of_nat k).
Proof.
  intros Hp. induction k as [|k IH]; intros [|fuel] j n Hk Hf; try lia; cbn [old_count].
  - destruct (Z.ltb_spec (Z.of_nat (length src - 0)) (Z.of_nat (length src))); [lia|].
    f_equal. lia.
  - destruct (Z.ltb_spec (Z.of_nat (length src - S k)) (Z.of_nat (length src))); [|lia].
    rewrite znth_nat. destruct (lookup_lt_is_Some_2 src (length src - S k)) as [c Hc]; [lia|].
    rewrite lookup_app_l, Hc by lia. bind_simpl.
    rewrite Forall_lookup in Hp. destruct (Hp _ _ Hc) as (H13 & H10 & v & Hv).
    rewrite (proj2 (Z.eqb_neq c 13)), (proj2 (Z.eqb_neq c 10)), andb_false_r by done.
    bind_simpl. rewrite Hv. bind_simpl.
    replace (Z.of_nat (length src - S k) + 1) with (Z.of_nat (length src - k)) by lia.
    rewrite IH by lia. f_equal. lia.
Qed.

Lemma push_spec x v : exists y, push x v = x * 64 + v mod 64 + y * 2 ^ 64.
Proof.
  unfold push. rewrite land_ones_63, lor_add by arith. unfold wrap.
  exists (- ((v mod 64 + x * 2 ^ 6) / 2 ^ 64)). rewrite Z.mod_eq by lia. lia.
Qed.

(** Only the last four characters matter to the low 24 bits. *)
Lemma push4 x t0 t1 t2 t3 :
  0 <= t0 < 64 -> 0 <= t1 < 64 ->
  let x4 := push (push (push (push x t0) t1) t2) t3 in
  u8 (Z.shiftr x4 16) = t0 * 4 + t1 / 16 /\
  u8 (Z.shiftr x4 8) = t1 mod 16 * 16 + t2 mod 64 / 4 /\
  u8 x4 = t2 mod 4 * 64 + t3 mod 64.
Proof.
  intros R0 R1 x4. rewrite !shiftr_div by lia.
  assert (exists y, x4 = t0 * 2 ^ 18 + t1 * 2 ^ 12 + (t2 mod 64) * 64 + t3 mod 64 + y * 2 ^ 24)
    as [y ->].
  { unfold x4. destruct (push_spec x t0) as [y0 ->]. destruct (push_spec (x * 64 + t0 mod 64 + y0 * 2 ^ 64) t1) as [y1 ->].
    match goal with |- context [push (push ?x t2) t3] => destruct (push_spec x t2) as [y2 ->] end.
    match goal with |- context [push ?x t3] => destruct (push_spec x t3) as [y3 ->] end.
    rewrite !(Z.mod_small t0), !(Z.mod_small t1) by lia.
    exists (x + y0 * 2 ^ 58 + y1 * 2 ^ 52 + y2 * 2 ^ 46 + y3 * 2 ^ 40). lia. }
  unfold wrap. change (2 ^ 8) with 256 in *. change (2 ^ 16) with 65536. change (2 ^ 24) with 16777216.
  change (2 ^ 18) with 262144. change (2 ^ 12) with 4096.
  repeat split; Z.div_mod_to_equations; lia.
Qed.

Lemma old_loop_group i c0 c1 c2 c3 t0 t1 t2 t3 rest j x :
  plain c0 -> plain c1 -> plain c2 -> plain c3 ->
  dec c0 = Some t0 -> dec c1 = Some t1 -> dec c2 = Some t2 -> dec c3 = Some t3 ->
  0 <= t0 < 64 -> 0 <= t1 < 64 ->
  let j' := j - (eq64 t0 + eq64 t1 + eq64 t2 + eq64 t3) in
  exists x', old_loop (S (S (S (S i)))) (c0 :: c1 :: c2 :: c3 :: rest) j 0 x =
    (out ← old_loop i rest j' 0 x';
     Some ((if j' >? 0 then [t0 * 4 + t1 / 16] else []) ++
           (if j' >? 1 then [t1 mod 16 * 16 + t2 mod 64 / 4] else []) ++
           (if j' >? 2 then [t2 mod 4 * 64 + t3 mod 64] else []) ++ out)).
Proof.
  intros (P0 & Q0 & _) (P1 & Q1 & _) (P2 & Q2 & _) (P3 & Q3 & _) E0 E1 E2 E3 R0 R1 j'.
  destruct (push4 x t0 t1 t2 t3 R0 R1) as (<- & <- & <-).
  exists (push (push (push (push x t0) t1) t2) t3).
  cbn [old_loop lookup list_lookup drop mbind option_bind].
  rewrite (proj2 (Z.eqb_neq c0 13)), (proj2 (Z.eqb_neq c0 10)) by done.
  rewrite (proj2 (Z.eqb_neq c1 13)), (proj2 (Z.eqb_neq c1 10)) by done.
  rewrite (proj2 (Z.eqb_neq c2 13)), (proj2 (Z.eqb_neq c2 10)) by done.
  rewrite (proj2 (Z.eqb_neq c3 13)), (proj2 (Z.eqb_neq c3 10)) by done. cbn [orb].
  rewrite E0. bind_simpl. rewrite E1. bind_simpl. rewrite E2. bind_simpl. rewrite E3. bind_simpl.
  change (0 + 1 =? 4) with false. change (0 + 1 + 1 =? 4) with false.
  change (0 + 1 + 1 + 1 =? 4) with false. change (0 + 1 + 1 + 1 + 1 =? 4) with true. cbn iota.
  by replace (j - eq64 t0 - eq64 t1 - eq64 t2 - eq64 t3) with j' by lia.
Qed.

Ltac old_side := try (first [by apply plain_chr | by apply chr_spec | done]).

Lemma old_loop_text bs : bytes_ok bs -> forall rest x,
  old_loop (length (rfc_text bs)) (rfc_text bs ++ rest) 3 0 x = Some bs.
Proof.
  assert (is_byte 0) as H0 by (unfold is_byte; lia).
  assert (plain 61) as He by (split; [lia|split; [lia|by exists 64]]).
  induction bs as [|a|a b|a b c l IH] using triples_ind; intros Hb rest x; cbn [rfc_text];
    [done|apply Forall_cons in Hb as [Ha _]
    |apply Forall_cons in Hb as [Ha [Hb _]%Forall_cons]
    |apply Forall_cons in Hb as [Ha [Hb [Hc Hl]%Forall_cons]%Forall_cons]].
  - pose proof (sextets_range a 0 0 Ha H0 H0) as Hr. unfold sextets in *.
    destruct Hr as (R0 & R1 & R2 & R3). cbn [length app].
    destruct (old_loop_group 0 (chr (a / 4)) (chr (a mod 4 * 16 + 0 / 16)) 61 61
      (a / 4) (a mod 4 * 16 + 0 / 16) 64 64 rest 3 x) as (x' & ->); old_side.
    cbn [old_loop]. rewrite !(eq64_sextet (_ + _)), !(eq64_sextet (a / 4)) by done.
    simpl. do 2 f_equal. arith.
  - pose proof (sextets_range a b 0 Ha Hb H0) as Hr. unfold sextets in *.
    destruct Hr as (R0 & R1 & R2 & R3). cbn [length app].
    destruct (old_loop_group 0 (chr (a / 4)) (chr (a mod 4 * 16 + b / 16))
      (chr (b mod 16 * 4 + 0 / 64)) 61
      (a / 4) (a mod 4 * 16 + b / 16) (b mod 16 * 4 + 0 / 64) 64 rest 3 x) as (x' & ->); old_side.
    cbn [old_loop]. rewrite !(eq64_sextet (_ + _)), !(eq64_sextet (a / 4)) by done.
    simpl. repeat f_equal; arith.
  - pose proof (sextets_range a b c Ha Hb Hc) as Hr. unfold sextets in *.
    destruct Hr as (R0 & R1 & R2 & R3). cbn [length app].
    destruct (old_loop_group (length (rfc_text l)) (chr (a / 4)) (chr (a mod 4 * 16 + b / 16))
      (chr (b mod 16 * 4 + c / 64)) (chr (c mod 64))
      (a / 4) (a mod 4 * 16 + b / 16) (b mod 16 * 4 + c / 64) (c mod 64) (rfc_text l ++ rest) 3 x)
      as (x' & ->); old_side.
    rewrite !eq64_sextet by done.
    change (3 - (0 + 0 + 0 + 0)) with 3. rewrite IH by done. simpl. repeat f_equal; arith.
Qed.

(** The older decoder agrees on plain texts: it asks for room for 3 bytes per group
    (more than [base64_decode] needs when the text is padded) and then stores exactly the
    bytes encoded. *)
Theorem base64_decode_old_spec src rest dlen :
  bytes_ok src -> src <> [] -> text_length (Z.of_nat (length src)) * 6 + 7 <= INT_MAX ->
  let n := text_length (Z.of_nat (length src)) in
  base64_decode_old dlen (rfc_text src ++ rest) n =
    Some (if dlen <? n / 4 * 3 then (XYSSL_ERR_BASE64_BUFFER_TOO_SMALL, n / 4 * 3, [])
          else (0, Z.of_nat (length src), src)).
Proof.
  intros Hb Hne Hmax n. unfold base64_decode_old, n in *. rewrite <- length_rfc_text in *.
  assert (0 < Z.of_nat (length (rfc_text src))) as Hpos.
  { rewrite length_rfc_text. unfold text_length. destruct src as [|b src]; [done|].
    simpl length. Z.div_mod_to_equations; lia. }
  pose proof (old_count_plain (rfc_text src) rest (plain_rfc_text src Hb)
    (length (rfc_text src)) (S (length (rfc_text src ++ rest))) 0 0) as E.
  rewrite Nat.sub_diag in E. change (Z.of_nat 0) with 0 in E. rewrite Z.add_0_l in E.
  rewrite E; [|lia|rewrite length_app; lia]. bind_simpl.
  rewrite (proj2 (Z.eqb_neq _ 0)) by lia.
  destruct (Z.leb_spec (Z.of_nat (length (rfc_text src)) * 6 + 7) INT_MAX); [|lia].
  simpl require. bind_simpl. rewrite shiftr_div by lia. change (2 ^ 3) with 8.
  assert ((Z.of_nat (length (rfc_text src)) * 6 + 7) / 8 =
    Z.of_nat (length (rfc_text src)) / 4 * 3) as ->.
  { rewrite length_rfc_text. unfold text_length. Z.div_mod_to_equations; lia. }
  destruct (dlen <? _); [done|]. rewrite Nat2Z.id, old_loop_text by done. done.
Qed.

(** ** Witnesses *)

Lemma base64_roundtrip_witness :
  let n := text_length 4 in
  let decoded := Some (0, Some 4, [65; 66; 67; 255]) in
  (if 9 <? n + 1
   then base64_encode 9 [65; 66; 67; 255] 4 = Some (XYSSL_ERR_BASE64_BUFFER_TOO_SMALL, n + 1, [])
   else Z.of_nat (length [81; 85; 74; 68; 47; 119; 61; 61]) = n /\
          base64_encode 9 [65; 66; 67; 255] 4 = Some (0, n, [81; 85; 74; 68; 47; 119; 61; 61; 0]) /\
          base64_decode true (Some 4) (Some [81; 85; 74; 68; 47; 119; 61; 61; 0]) n = decoded) /\
  (forall t ws, wrapped [65; 66; 67; 255] t -> is_blank (List.last t 0) = false ->
     Forall (fun c => is_blank c = true) ws ->
     base64_decode true (Some 4) (Some (t ++ ws)) (Z.of_nat (length (t ++ ws))) = decoded).
Proof.
  apply (base64_roundtrip [65; 66; 67; 255] 9 4); [|done|done|done].
  repeat constructor; lia.
Defined.

Lemma base64_decode_overreads_witness :
  base64_decode true (Some 10) (Some (chr <$> [16; 20; 9; 3; 16; 20])) 6 = None.
Proof.
  apply (base64_decode_overreads [16; 20; 9; 3; 16; 20] 10); [|simpl; lia|done|done].
  repeat constructor; lia.
Defined.

Lemma base64_decode_old_spec_witness :
  base64_decode_old 6 (rfc_text [65; 66; 67; 255] ++ [10]) (text_length 4) =
    Some (if 6 <? text_length 4 / 4 * 3
          then (XYSSL_ERR_BASE64_BUFFER_TOO_SMALL, text_length 4 / 4 * 3, [])
          else (0, 4, [65; 66; 67; 255])).
Proof.
  apply (base64_decode_old_spec [65; 66; 67; 255] [10] 6); [|done|done].
  repeat constructor; lia.
Defined.
