(* ===== verification/Pool.v ===== *)
(** One memory pool of src/demo_mempool/mempool.c: the block headers, the five free lists,
    the busy list, and the operations that search, split, release and coalesce blocks.

    A pool is a region of [pool_size] bytes whose first [sizeof_mempool] bytes are the
    administration. A [realdata_t *] is represented by the offset of the header in the rest
    of the region, the null pointer by [MEMPOOL_NULL] (the code stores the same offsets in
    the headers' 16-bit fields, so [mempool_get_realdata] is the identity here). [mem] holds
    every header written so far: a header absorbed by its neighbour stays readable, as it
    does in C. *)

From S2P Require Import Prelude Linked.

Definition MEMPOOL_NULL : Z := 0xffff.
Definition MEMPOOL_FREELIST_SIZE : Z := 5.
Definition MEMPOOL_FREELIST_128B : Z := 128.
Definition MEMPOOL_FREELIST_512B : Z := 512.
Definition MEMPOOL_FREELIST_1K : Z := 1024.
Definition MEMPOOL_FREELIST_4K : Z := 4096.
Definition MEMPOOL_MAXSIZE : Z := 65536.
Definition MEMPOOL_MAX_SEARCHINPOOL : Z := 8.
Definition sizeof_mempool : Z := 192.
Definition sizeof_realdata : Z := 15.

(** ** Data *)

(* src/demo_mempool/mempool.c:17-26 realdata_t *)
Record realdata_t := Realdata {
  rd_offset : Z;
  rd_size : Z;
  rd_prev : Z;
  rd_next : Z;
  rd_realprev : Z;
  rd_realnext : Z;
  rd_used : Z;
  rd_status : Z;
}.

Definition set_offset v r :=
  Realdata v (rd_size r) (rd_prev r) (rd_next r) (rd_realprev r) (rd_realnext r) (rd_used r) (rd_status r).
Definition set_size v r :=
  Realdata (rd_offset r) v (rd_prev r) (rd_next r) (rd_realprev r) (rd_realnext r) (rd_used r) (rd_status r).
Definition set_realprev v r :=
  Realdata (rd_offset r) (rd_size r) (rd_prev r) (rd_next r) v (rd_realnext r) (rd_used r) (rd_status r).
Definition set_realnext v r :=
  Realdata (rd_offset r) (rd_size r) (rd_prev r) (rd_next r) (rd_realprev r) v (rd_used r) (rd_status r).
Definition set_used v r :=
  Realdata (rd_offset r) (rd_size r) (rd_prev r) (rd_next r) (rd_realprev r) (rd_realnext r) v (rd_status r).
Definition set_status v r :=
  Realdata (rd_offset r) (rd_size r) (rd_prev r) (rd_next r) (rd_realprev r) (rd_realnext r) (rd_used r) v.

#[export] Instance realdata_next : Next Z realdata_t := {
  null := MEMPOOL_NULL;
  next_of := rd_next;
  set_next v r := Realdata (rd_offset r) (rd_size r) (rd_prev r) v (rd_realprev r)
    (rd_realnext r) (rd_used r) (rd_status r);
}.

#[export] Instance realdata_prev : Prev Z realdata_t := {
  prev_of := rd_prev;
  set_prev v r := Realdata (rd_offset r) (rd_size r) v (rd_next r) (rd_realprev r)
    (rd_realnext r) (rd_used r) (rd_status r);
}.

#[export] Instance realdata_links : LinksOk Z realdata_t.
Proof. by split. Qed.

(** What a pool keeps for itself; the fields that only the base pool uses are in
    MemPool.v. *)
(* src/demo_mempool/mempool.c:34-46 pooldata_t *)
Record pool := Pool {
  freelist : list Z;
  busylist : Z;
  mem : gmap Z realdata_t;
  pool_size : Z;
  leftsize : Z; (* 24 bits *)
  failed : Z; (* 8 bits *)
}.

Definition with_mem (p : pool) m := Pool (freelist p) (busylist p) m (pool_size p) (leftsize p) (failed p).
Definition with_freelist (p : pool) fl := Pool fl (busylist p) (mem p) (pool_size p) (leftsize p) (failed p).
Definition with_busylist (p : pool) b := Pool (freelist p) b (mem p) (pool_size p) (leftsize p) (failed p).
Definition with_leftsize (p : pool) s := Pool (freelist p) (busylist p) (mem p) (pool_size p) s (failed p).
Definition with_failed (p : pool) f := Pool (freelist p) (busylist p) (mem p) (pool_size p) (leftsize p) f.

(** [*a = f *a], [pool->pdata.freelist[i] = v] *)
Definition update (m : gmap Z realdata_t) (a : Z) (f : realdata_t -> realdata_t)
  : option (gmap Z realdata_t) :=
  n ← m !! a; Some (<[a := f n]> m).

Definition set_head (p : pool) (i v : Z) : option pool :=
  with_freelist p <$> zset (freelist p) i v.

(** The value the [used] field of a header has before it is first written. *)
Definition stale_used (m : gmap Z realdata_t) (a : Z) : Z := from_option rd_used 0 (m !! a).

(* src/demo_mempool/mempool.c:164-182 __init_mempool *)
Definition init_mempool (p : pool) : pool :=
  let size := u16 (pool_size p - sizeof_mempool) in
  Pool [MEMPOOL_NULL; MEMPOOL_NULL; MEMPOOL_NULL; MEMPOOL_NULL; 0] MEMPOOL_NULL
    (<[0 := Realdata 0 size MEMPOOL_NULL MEMPOOL_NULL MEMPOOL_NULL MEMPOOL_NULL
              (stale_used (mem p) 0) 0]> (mem p))
    (pool_size p) size 0.

(** ** The free lists *)

(* src/demo_mempool/mempool.c:425-440 __get_freeidx *)
Definition get_freeidx (size : Z) : Z :=
  if MEMPOOL_FREELIST_4K <? size then 4
  else if MEMPOOL_FREELIST_1K <? size then 3
  else if MEMPOOL_FREELIST_512B <? size then 2
  else if MEMPOOL_FREELIST_128B <? size then 1
  else 0.

(** The [do ... while (!freelist)] loop; the index it leaves is meaningful when the list it
    returns is not null. *)
Fixpoint get_freelist_loop (fuel : nat) (p : pool) (tmp_size : Z) : option (Z * Z) :=
  match fuel with
  | O => None
  | S fuel =>
      if MEMPOOL_FREELIST_4K <? tmp_size then
        fl ← znth (freelist p) 4; Some (fl, 4)
      else if MEMPOOL_FREELIST_1K <? tmp_size then
        fl ← znth (freelist p) 3;
        if fl =? MEMPOOL_NULL then get_freelist_loop fuel p (MEMPOOL_FREELIST_4K + 1)
        else Some (fl, 3)
      else if MEMPOOL_FREELIST_512B <? tmp_size then
        fl ← znth (freelist p) 2;
        if fl =? MEMPOOL_NULL then get_freelist_loop fuel p (MEMPOOL_FREELIST_1K + 1)
        else Some (fl, 2)
      else if MEMPOOL_FREELIST_128B <? tmp_size then
        fl ← znth (freelist p) 1;
        if fl =? MEMPOOL_NULL then get_freelist_loop fuel p (MEMPOOL_FREELIST_512B + 1)
        else Some (fl, 1)
      else
        fl ← znth (freelist p) 0;
        if fl =? MEMPOOL_NULL then get_freelist_loop fuel p (MEMPOOL_FREELIST_128B + 1)
        else Some (fl, 0)
  end.

(* src/demo_mempool/mempool.c:372-423 mempool_get_freelist *)
Definition mempool_get_freelist (p : pool) (size : Z) : option (Z * Z) :=
  '(fl, i) ← get_freelist_loop 5 p size;
  Some (fl, if fl =? MEMPOOL_NULL then -1 else i).

(* src/demo_mempool/mempool.c:442-461 __remove_freenode *)
Definition remove_freenode (p : pool) (freenode freeidx : Z) : option pool :=
  n ← mem p !! freenode;
  let freeidx := if freeidx =? -1 then get_freeidx (rd_size n) else freeidx in
  head ← znth (freelist p) freeidx;
  if negb (freenode =? head) then
    m ← st_next (mem p) (rd_prev n) (rd_next n);
    m ← st_prev_opt m (rd_next n) (rd_prev n);
    Some (with_mem p m)
  else
    p ← set_head p freeidx (rd_next n);
    m ← st_prev_opt (mem p) (rd_next n) MEMPOOL_NULL;
    Some (with_mem p m).

(* src/demo_mempool/mempool.c:463-477 __add_freenode *)
Definition add_freenode (p : pool) (freenode freeidx : Z) : option pool :=
  n ← mem p !! freenode;
  let freeidx := if freeidx =? -1 then get_freeidx (rd_size n) else freeidx in
  head ← znth (freelist p) freeidx;
  m ← (if negb (head =? MEMPOOL_NULL) then
         h ← mem p !! head;
         m ← st_next (mem p) freenode (rd_offset h);
         st_prev m head (rd_offset n)
       else st_next (mem p) freenode MEMPOOL_NULL);
  p ← set_head (with_mem p m) freeidx freenode;
  m ← st_prev (mem p) freenode MEMPOOL_NULL;
  Some (with_mem p m).

(** ** Splitting a free block

    The result is the pool and the value left in [*realdata]: the rest of the block, or null
    when the block was handed out whole. *)
(* src/demo_mempool/mempool.c:479-560 __split_realdata *)
Definition split_realdata (p : pool) (rd size : Z) : option (pool * Z) :=
  n ← mem p !! rd;
  '(freelist, freeidx) ← mempool_get_freelist p (rd_size n);
  '(p, rest) ←
    (if u32 (rd_size n - size) <? Z.shiftl sizeof_realdata 1 then
       if negb (rd =? freelist) then
         m ← st_next_opt (mem p) (rd_prev n) (rd_next n);
         m ← st_prev_opt m (rd_next n) (rd_prev n);
         Some (with_mem p m, MEMPOOL_NULL)
       else
         p ← set_head p freeidx (rd_next n);
         m ← st_prev_opt (mem p) (rd_next n) MEMPOOL_NULL;
         Some (with_mem p m, MEMPOOL_NULL)
     else
       let rest := rd + size in
       let r := Realdata (u16 (rd_offset n + size)) (u16 (rd_size n - size))
         (rd_prev n) (rd_next n) (rd_offset n) (rd_realnext n) (stale_used (mem p) rest) 0 in
       let m := <[rest := r]> (mem p) in
       m ← (if negb (rd_realnext n =? MEMPOOL_NULL)
            then update m (rd_realnext n) (set_realprev (rd_offset r)) else Some m);
       m ← update m rd (fun n => set_realnext (rd_offset r) (set_size (u16 size) n));
       m ← st_prev_opt m (rd_next n) (rd_offset r);
       p ← (if negb (rd =? freelist)
            then m ← st_next m (rd_prev n) (rd_offset r); Some (with_mem p m)
            else set_head (with_mem p m) freeidx rest);
       let freeidx2 := get_freeidx (rd_size r) in
       p ← (if negb (freeidx2 =? freeidx)
            then p ← remove_freenode p rest freeidx; add_freenode p rest freeidx2
            else Some p);
       Some (p, rest));
  m ← update (mem p) rd (fun n => set_status 1 (set_prev MEMPOOL_NULL (set_next MEMPOOL_NULL n)));
  Some (with_mem p m, rest).

(** ** Searching the free lists *)

Fixpoint search_list (fuel : nat) (p : pool) (size tmp avadata search_times : Z) : option Z :=
  match fuel with
  | O => None
  | S fuel =>
      if tmp =? MEMPOOL_NULL then Some avadata else
      t ← mem p !! tmp;
      v ← mem p !! avadata;
      let avadata := if (size <=? rd_size t) && (rd_size t <? rd_size v) then tmp else avadata in
      if MEMPOOL_MAX_SEARCHINPOOL <=? search_times then Some avadata
      else search_list fuel p size (rd_next t) avadata (search_times + 1)
  end.

(** [do { tmp = freelist[++freeidx]; if (tmp) goto ...; } while (freeidx < 4)] *)
Fixpoint next_freelist (fuel : nat) (p : pool) (freeidx : Z) : option (Z * Z) :=
  match fuel with
  | O => None
  | S fuel =>
      let freeidx := freeidx + 1 in
      tmp ← znth (freelist p) freeidx;
      if negb (tmp =? MEMPOOL_NULL) then Some (tmp, freeidx)
      else if freeidx <? MEMPOOL_FREELIST_SIZE - 1 then next_freelist fuel p freeidx
      else Some (MEMPOOL_NULL, freeidx)
  end.

(** From the label [get_availdata] on. *)
Fixpoint availdata_from (fuel : nat) (p : pool) (size tmp freeidx : Z) : option Z :=
  match fuel with
  | O => None
  | S fuel =>
      avadata ← search_list 10 p size tmp tmp 0;
      result ← (if avadata =? MEMPOOL_NULL then Some MEMPOOL_NULL else
                v ← mem p !! avadata;
                Some (if size <=? rd_size v then avadata else MEMPOOL_NULL));
      if (result =? MEMPOOL_NULL) && (freeidx <? MEMPOOL_FREELIST_SIZE - 1) && (0 <=? freeidx) then
        '(tmp, freeidx) ← next_freelist 5 p freeidx;
        if tmp =? MEMPOOL_NULL then Some MEMPOOL_NULL
        else availdata_from fuel p size tmp freeidx
      else Some result
  end.

(* src/demo_mempool/mempool.c:562-596 __get_availdata *)
Definition get_availdata (p : pool) (size : Z) : option Z :=
  '(tmp, freeidx) ← mempool_get_freelist p size;
  availdata_from 5 p size tmp freeidx.

(** ** Allocating from one pool

    The body of the loop of [__alloc_realdata] once [leftsize] and the free lists have been
    tested; null when no list has a block that fits. *)
(* src/demo_mempool/mempool.c:653-704 __alloc_realdata *)
Definition alloc_in_pool (p : pool) (size : Z) : option (pool * Z) :=
  if negb (busylist p =? MEMPOOL_NULL) then
    avadata ← get_availdata p size;
    if avadata =? MEMPOOL_NULL then Some (p, MEMPOOL_NULL) else
    let p := with_failed p 0 in
    '(p, _) ← split_realdata p avadata size;
    b ← mem p !! busylist p;
    m ← st_next (mem p) avadata (rd_offset b);
    r ← m !! avadata;
    m ← st_prev m (busylist p) (rd_offset r);
    let p := with_busylist (with_mem p m) avadata in
    Some (with_leftsize p (wrap 24 (leftsize p - rd_size r)), avadata)
  else
    avadata ← znth (freelist p) (MEMPOOL_FREELIST_SIZE - 1);
    '(p, rest) ← split_realdata p avadata size;
    p ← (if negb (rest =? MEMPOOL_NULL) then
           r ← mem p !! rest;
           let freeidx := get_freeidx (rd_size r) in
           if freeidx =? MEMPOOL_FREELIST_SIZE - 1 then set_head p (MEMPOOL_FREELIST_SIZE - 1) rest
           else p ← set_head p (MEMPOOL_FREELIST_SIZE - 1) MEMPOOL_NULL; set_head p freeidx rest
         else set_head p (MEMPOOL_FREELIST_SIZE - 1) MEMPOOL_NULL);
    r ← mem p !! avadata;
    let p := with_busylist p avadata in
    Some (with_leftsize p (wrap 24 (leftsize p - rd_size r)), avadata).

(** One round of the loop of [__alloc_realdata] on a pool: skipped when the free bytes or the
    free lists cannot serve the request. *)
(* src/demo_mempool/mempool.c:629-630 __alloc_realdata *)
Definition pool_alloc (p : pool) (size : Z) : option (pool * Z) :=
  '(fl, _) ← mempool_get_freelist p size;
  if (leftsize p <? size) || (fl =? MEMPOOL_NULL) then Some (p, MEMPOOL_NULL)
  else alloc_in_pool p size.

(** ** Releasing a block of one pool *)

(** Off the busy list: the first half of [__pfree_realdata]. *)
(* src/demo_mempool/mempool.c:1017-1030 __pfree_realdata *)
Definition remove_busy (p : pool) (realdata : Z) : option pool :=
  n ← mem p !! realdata;
  p ← (if negb (rd_prev n =? MEMPOOL_NULL) then
         m ← st_next (mem p) (rd_prev n) (rd_next n); Some (with_mem p m)
       else
         let p := with_busylist p (rd_next n) in
         m ← st_prev_opt (mem p) (busylist p) MEMPOOL_NULL;
         Some (with_mem p m));
  n ← mem p !! realdata;
  m ← (if negb (rd_next n =? MEMPOOL_NULL)
       then st_prev (mem p) (rd_next n) (rd_prev n) else Some (mem p));
  m ← update m realdata (fun n => set_prev MEMPOOL_NULL (set_next MEMPOOL_NULL n));
  Some (with_mem p m).

(** Into the free lists of a pool that had no free block left. *)
(* src/demo_mempool/mempool.c:1044-1050 __pfree_realdata *)
Definition free_into_empty (p : pool) (realdata : Z) : option pool :=
  n ← mem p !! realdata;
  p ← set_head p (get_freeidx (rd_size n)) realdata;
  m ← update (mem p) realdata (set_status 0);
  Some (with_failed (with_leftsize (with_mem p m) (wrap 24 (leftsize p + rd_size n))) 0).

(** Coalescing with the left neighbour: the pool and the header of the joined block. *)
(* src/demo_mempool/mempool.c:985-991 __free_realdata *)
Definition merge_prev (p : pool) (realdata : Z) : option (pool * Z) :=
  n ← mem p !! realdata;
  let realprev := rd_realprev n in
  prevfree ← (if realprev =? MEMPOOL_NULL then Some false else
              r ← mem p !! realprev; Some (rd_status r =? 0));
  if (prevfree : bool) then
    p ← remove_freenode p realprev (-1);
    n ← mem p !! realdata;
    m ← update (mem p) realprev
          (fun r => set_realnext (rd_realnext n) (set_size (u16 (rd_size r + rd_size n)) r));
    Some (with_mem p m, realprev)
  else Some (p, realdata).

(** Coalescing with the right neighbour. *)
(* src/demo_mempool/mempool.c:992-998 __free_realdata *)
Definition merge_next (p : pool) (freeheader realnext : Z) : option pool :=
  nextfree ← (if realnext =? MEMPOOL_NULL then Some false else
              r ← mem p !! realnext; Some (rd_status r =? 0));
  if (nextfree : bool) then
    p ← remove_freenode p realnext (-1);
    r ← mem p !! realnext;
    m ← update (mem p) freeheader
          (fun f => set_realnext (rd_realnext r) (set_size (u16 (rd_size f + rd_size r)) f));
    Some (with_mem p m)
  else Some p.

(* src/demo_mempool/mempool.c:978-1013 __free_realdata *)
Definition free_realdata (p : pool) (realdata : Z) : option pool :=
  n ← mem p !! realdata;
  let realnext := rd_realnext n in
  let freesize := rd_size n in
  '(p, freeheader) ← merge_prev p realdata;
  p ← merge_next p freeheader realnext;
  f ← mem p !! freeheader;
  p ← (if negb (rd_realnext f =? MEMPOOL_NULL)
       then m ← update (mem p) (rd_realnext f) (set_realprev (rd_offset f)); Some (with_mem p m)
       else Some p);
  p ← add_freenode p freeheader (-1);
  m ← update (mem p) freeheader (set_status 0);
  Some (with_failed (with_leftsize (with_mem p m) (wrap 24 (leftsize p + freesize))) 0).

(** [__pfree_realdata] on a pool that is its own base pool and has no other pool linked to
    it; MemPool.v composes the same parts for a chain of pools. *)
Definition free_in_pool (p : pool) (realdata : Z) : option pool :=
  p ← remove_busy p realdata;
  if busylist p =? MEMPOOL_NULL then Some (init_mempool p)
  else if leftsize p =? 0 then free_into_empty p realdata
  else free_realdata p realdata.

Definition new_pool (size : Z) : pool :=
  init_mempool (Pool [] MEMPOOL_NULL ∅ size 0 0).

(** * Facts *)

(** What a header says besides its links. *)
Definition fields (n : realdata_t) : Z * Z * Z * Z * Z :=
  (rd_offset n, rd_size n, rd_status n, rd_realprev n, rd_realnext n).

Lemma fields_core n n' : core n' = core n -> fields n' = fields n.
Proof. destruct n, n'. unfold core, fields. simpl. congruence. Qed.

Lemma fields_eq (m m' : gmap Z realdata_t) : core <$> m' = core <$> m -> forall a, fields <$> m' !! a = fields <$> m !! a.
Proof.
  intros E a. apply (f_equal (lookup a)) in E. rewrite !lookup_fmap in E.
  destruct (m' !! a) as [n'|], (m !! a) as [n|]; simplify_eq/=; [|done].
  f_equal. by apply fields_core.
Qed.

Lemma fields_lookup (m m' : gmap Z realdata_t) a n :
  fields <$> m' !! a = fields <$> m !! a -> m !! a = Some n ->
  exists n', m' !! a = Some n' /\ fields n' = fields n.
Proof.
  intros E Hn. rewrite Hn in E. destruct (m' !! a) as [n'|]; [|done].
  exists n'. split; [done|]. simpl in E. congruence.
Qed.

(** ** The lists of a pool: the five free lists and, at index 5, the busy list *)

Definition heads (p : pool) : list Z := freelist p ++ [busylist p].

Record lists_ok (p : pool) (lists : list (list Z)) : Prop := ListsOk {
  lo_length : length (freelist p) = 5%nat /\ length lists = 6%nat;
  lo_list : forall i x l, heads p !! i = Some x -> lists !! i = Some l -> dlist (mem p) x l;
  lo_distinct : NoDup (concat lists);
  lo_offset : forall a, a ∈ concat lists -> rd_offset <$> mem p !! a = Some a;
}.

(** The list a header belongs to. *)
Definition home (n : realdata_t) : nat :=
  if rd_status n =? 0 then Z.to_nat (get_freeidx (rd_size n)) else 5%nat.

Definition homes (m : gmap Z realdata_t) (lists : list (list Z)) : Prop :=
  forall k a, member lists k a -> home <$> m !! a = Some k.

Lemma home_fields n n' : fields n' = fields n -> home n' = home n.
Proof. unfold fields, home. intros [= _ -> -> _ _]. done. Qed.

Lemma get_freeidx_range s : 0 <= get_freeidx s <= 4.
Proof. unfold get_freeidx. repeat case_match; lia. Qed.

Lemma heads_free p i : (i < length (freelist p))%nat -> heads p !! i = freelist p !! i.
Proof. intros. unfold heads. by apply lookup_app_l. Qed.

Lemma heads_busy p : length (freelist p) = 5%nat -> heads p !! 5%nat = Some (busylist p).
Proof. intros Hl. unfold heads. rewrite lookup_app_r, Hl by lia. done. Qed.

Lemma lists_head p lists i l :
  lists_ok p lists -> lists !! i = Some l -> exists x, heads p !! i = Some x /\ dlist (mem p) x l.
Proof.
  intros Hok Hl. destruct (lo_length _ _ Hok) as [Hf H6].
  assert (i < length (heads p))%nat as Hi.
  { unfold heads. rewrite length_app, Hf. simpl. apply lookup_lt_Some in Hl. lia. }
  destruct (lookup_lt_is_Some_2 _ _ Hi) as [x Hx]. exists x. split; [done|].
  by eapply lo_list.
Qed.

Lemma freelist_at p lists i l :
  lists_ok p lists -> lists !! i = Some l -> (i < 5)%nat ->
  exists x, znth (freelist p) (Z.of_nat i) = Some x /\ freelist p !! i = Some x /\ dlist (mem p) x l.
Proof.
  intros Hok Hl Hi. destruct (lists_head _ _ _ _ Hok Hl) as (x & Hx & Hd).
  destruct (lo_length _ _ Hok) as [Hf _]. rewrite heads_free in Hx by lia.
  exists x. by rewrite znth_nat.
Qed.

Lemma set_head_ok p i v :
  (i < length (freelist p))%nat ->
  set_head p (Z.of_nat i) v = Some (with_freelist p (<[i := v]> (freelist p))).
Proof.
  intros Hi. unfold set_head, zset.
  destruct (Z.leb_spec 0 (Z.of_nat i)); [|lia].
  destruct (Z.ltb_spec (Z.of_nat i) (Z.of_nat (length (freelist p)))); [|lia].
  simpl. by rewrite Nat2Z.id.
Qed.

(** One list and the store change: the other lists and their nodes stay. *)
Lemma lists_update p p' lists i l l' x :
  lists_ok p lists -> lists !! i = Some l ->
  length (freelist p') = 5%nat -> heads p' = <[i := x]> (heads p) ->
  dlist (mem p') x l' ->
  (forall k a, k <> i -> member lists k a -> links <$> mem p' !! a = links <$> mem p !! a) ->
  NoDup (concat (<[i := l']> lists)) ->
  (forall a, a ∈ concat (<[i := l']> lists) -> rd_offset <$> mem p' !! a = Some a) ->
  lists_ok p' (<[i := l']> lists).
Proof.
  intros Hok Hi Hf Hh Hd Hfr Hnd Hoff. split; [|intros j y m|done|done].
  - rewrite length_insert. split; [done|]. apply (lo_length _ _ Hok).
  - rewrite Hh. destruct (decide (j = i)) as [->|Hne].
    + rewrite !list_lookup_insert_eq.
      * by intros [= <-] [= <-].
      * by apply lookup_lt_Some in Hi.
      * destruct (lists_head _ _ _ _ Hok Hi) as (z & Hz & _). by apply lookup_lt_Some in Hz.
    + rewrite !list_lookup_insert_ne by done. intros Hy Hm.
      eapply dlist_same_links; [|by eapply lo_list]. intros a Ha.
      apply (Hfr j); [done|]. by exists m.
Qed.

Lemma heads_set_free p i x :
  length (freelist p) = 5%nat -> (i < 5)%nat ->
  heads (with_freelist p (<[i := x]> (freelist p))) = <[i := x]> (heads p).
Proof. intros Hl Hi. unfold heads. simpl. by rewrite insert_app_l by lia. Qed.

(** A node of another list is not one of the nodes of this one. *)
Lemma other_list (lists : list (list Z)) i l k a :
  NoDup (concat lists) -> lists !! i = Some l -> k <> i -> member lists k a -> a ∉ l.
Proof. intros Hnd Hi Hk Hm Ha. apply Hk. eapply member_unique; [done..|]. by exists l. Qed.

Lemma offset_core p p' lists lists' :
  lists_ok p lists -> core <$> mem p' = core <$> mem p ->
  (forall a, a ∈ concat lists' -> a ∈ concat lists) ->
  forall a, a ∈ concat lists' -> rd_offset <$> mem p' !! a = Some a.
Proof.
  intros Hok Hc Hs a Ha. pose proof (lo_offset _ _ Hok a (Hs a Ha)) as Ho.
  pose proof (fields_eq _ _ Hc a) as E.
  destruct (mem p !! a) as [n|]; [|done]. destruct (mem p' !! a) as [n'|]; [|done].
  simpl in *. unfold fields in E. congruence.
Qed.

(** Only links of the store and heads of free lists changed. *)
Record relinked (p p' : pool) : Prop := Relinked {
  re_core : core <$> mem p' = core <$> mem p;
  re_size : pool_size p' = pool_size p;
  re_left : leftsize p' = leftsize p;
  re_failed : failed p' = failed p;
}.

Lemma relinked_trans p1 p2 p3 : relinked p1 p2 -> relinked p2 p3 -> relinked p1 p3.
Proof. intros [] []. split; congruence. Qed.

(** The first node of a list is the one the head points to. *)
Lemma dlist_first (m : gmap Z realdata_t) x l1 a l2 :
  dlist m x (l1 ++ a :: l2) -> x = a <-> l1 = [].
Proof.
  intros D. pose proof (dlist_NoDup _ _ _ D) as Hnd. destruct l1 as [|b l1]; simpl in *.
  - apply dlist_head in D. naive_solver.
  - apply dlist_head in D as ->. split; [intros ->|done].
    apply NoDup_cons in Hnd as [Hb _]. destruct Hb. apply elem_of_app. right. left.
Qed.

Lemma null_eqb a : (a =? MEMPOOL_NULL) = bool_decide (a = null).
Proof. change (null (L := Z) (N := realdata_t)) with MEMPOOL_NULL. by case_bool_decide; destruct (Z.eqb_spec a MEMPOOL_NULL). Qed.

Lemma unlink_update p p' lists i l1 a l2 n x m1 m2 :
  lists_ok p lists -> lists !! i = Some (l1 ++ a :: l2) -> mem p !! a = Some n ->
  st_next_opt (mem p) (rd_prev n) (rd_next n) = Some m1 ->
  st_prev_opt m1 (rd_next n) (rd_prev n) = Some m2 ->
  heads p !! i = Some x ->
  length (freelist p') = 5%nat -> mem p' = m2 ->
  heads p' = <[i := match l1 with [] => rd_next n | _ => x end]> (heads p) ->
  core <$> mem p' = core <$> mem p /\
  (forall b, b ∉ l1 ++ l2 -> mem p' !! b = mem p !! b) /\
  lists_ok p' (<[i := l1 ++ l2]> lists).
Proof.
  intros Hok Hi Hn E1 E2 Hx Hf Hm Hh.
  pose proof (lo_list _ _ Hok _ _ _ Hx Hi) as D.
  destruct (dlist_unlink _ _ _ _ _ _ D Hn) as (h1 & h2 & F1 & F2 & Hlo & D').
  change (st_next_opt (mem p) (prev_of n) (next_of n)) with (st_next_opt (mem p) (rd_prev n) (rd_next n)) in F1.
  rewrite E1 in F1. injection F1 as <-.
  change (st_prev_opt m1 (next_of n) (prev_of n)) with (st_prev_opt m1 (rd_next n) (rd_prev n)) in F2.
  rewrite E2 in F2. injection F2 as <-.
  destruct (concat_hole _ _ _ Hi) as (R & HR & Hall & Hother).
  pose proof (lo_distinct _ _ Hok) as Hnd.
  assert (forall b, b ∈ concat (<[i := l1 ++ l2]> lists) -> b ∈ concat lists) as Hsub.
  { intros b. rewrite HR, Hall, !elem_of_app, elem_of_cons. tauto. }
  subst m2. split; [apply Hlo|]. split; [apply Hlo|].
  eapply lists_update; [done|done|done|exact Hh|exact D'| | |].
  - intros k b Hk Hb. eapply links_only_links; [done|].
    intros Hb'. eapply (other_list lists i); [done..|].
    rewrite elem_of_app in *. rewrite elem_of_cons. tauto.
  - rewrite HR. rewrite Hall, <- app_assoc in Hnd. simpl in Hnd.
    rewrite <- app_assoc. rewrite <- Permutation_middle in Hnd. by apply NoDup_cons in Hnd as [_ ?].
  - eapply offset_core; [done|apply Hlo|done].
Qed.

Lemma remove_freenode_spec p lists i l1 a l2 n idx :
  lists_ok p lists -> lists !! i = Some (l1 ++ a :: l2) -> (i < 5)%nat -> mem p !! a = Some n ->
  (if idx =? -1 then get_freeidx (rd_size n) else idx) = Z.of_nat i ->
  exists p', remove_freenode p a idx = Some p' /\ relinked p p' /\ busylist p' = busylist p /\
    (forall b, b ∉ l1 ++ l2 -> mem p' !! b = mem p !! b) /\
    lists_ok p' (<[i := l1 ++ l2]> lists).
Proof.
  intros Hok Hi H5 Hn Hidx.
  destruct (freelist_at _ _ _ _ Hok Hi H5) as (x & Hx & Hx' & D).
  destruct (lo_length _ _ Hok) as [Hf _].
  assert (heads p !! i = Some x) as Hhx by (rewrite heads_free by lia; done).
  destruct (dlist_unlink _ _ _ _ _ _ D Hn) as (h1 & h2 & F1 & F2 & _ & _).
  pose proof (dlist_first _ _ _ _ _ D) as Hfirst.
  pose proof (dlist_prev_null _ _ _ _ _ _ D Hn) as Hprev.
  unfold remove_freenode. rewrite Hn. bind_simpl. rewrite Hidx, Hx. bind_simpl.
  change (rd_prev n = MEMPOOL_NULL <-> l1 = []) in Hprev.
  change (st_next_opt (mem p) (rd_prev n) (rd_next n) = Some h1) in F1.
  change (st_prev_opt h1 (rd_next n) (rd_prev n) = Some h2) in F2.
  pose proof F1 as F1'. unfold st_next_opt in F1'. change null with MEMPOOL_NULL in F1'.
  destruct (Z.eqb_spec a x) as [->|Hax]; cbn [negb].
  - assert (l1 = []) as -> by tauto. rewrite decide_True in F1' by tauto. simplify_eq.
    rewrite set_head_ok by lia. bind_simpl.
    replace (rd_prev n) with MEMPOOL_NULL in F2 by (symmetry; tauto).
    cbn [mem with_freelist]. rewrite F2. bind_simpl. eexists. split; [done|].
    replace MEMPOOL_NULL with (rd_prev n) in F2 by tauto.
    edestruct (unlink_update p (with_mem (with_freelist p (<[i := rd_next n]> (freelist p))) h2))
      as (Hc & Hfr & Hok'); try done.
    + simpl. by rewrite length_insert.
    + by apply heads_set_free.
  - assert (l1 <> []) as Hl1 by (intros E; apply Hax; symmetry; tauto).
    rewrite decide_False in F1' by tauto. rewrite F1'. bind_simpl. rewrite F2. bind_simpl.
    eexists. split; [done|].
    edestruct (unlink_update p (with_mem p h2)) as (Hc & Hfr & Hok'); try done.
    destruct l1; [done|]. by rewrite list_insert_id.
Qed.

Lemma push_update p p' lists i l a n x m1 :
  lists_ok p lists -> lists !! i = Some l -> mem p !! a = Some n -> rd_offset n = a ->
  a <> MEMPOOL_NULL -> a ∉ concat lists -> heads p !! i = Some x ->
  st_prev_opt (<[a := set_prev MEMPOOL_NULL (set_next x n)]> (mem p)) x a = Some m1 ->
  length (freelist p') = 5%nat -> mem p' = m1 -> heads p' = <[i := a]> (heads p) ->
  core <$> mem p' = core <$> mem p /\
  (forall b, b <> a -> b ∉ l -> mem p' !! b = mem p !! b) /\
  lists_ok p' (<[i := a :: l]> lists).
Proof.
  intros Hok Hi Hn Ha Hnull Hin Hx E Hf Hm Hh. subst m1.
  set (m0 := <[a := set_prev MEMPOOL_NULL (set_next x n)]> (mem p)) in *.
  destruct (concat_hole _ _ _ Hi) as (R & HR & Hall & Hother).
  rewrite Hall in Hin. apply not_elem_of_app in Hin as [Hal HaR].
  assert (forall b, b <> a -> m0 !! b = mem p !! b) as Hm0.
  { intros b Hb. unfold m0. by rewrite lookup_insert_ne. }
  destruct (dlist_push m0 x l a (set_prev MEMPOOL_NULL (set_next x n)))
    as (h1 & E1 & Hlo & D).
  - eapply dlist_frame; [|by eapply lo_list]. intros b Hb. apply Hm0. congruence.
  - done.
  - done.
  - unfold m0; by rewrite lookup_insert_eq.
  - done.
  - done.
  - rewrite E in E1. injection E1 as <-. destruct Hlo as [Hc Hfr].
    assert (core <$> mem p' = core <$> mem p) as Hcore.
    { rewrite Hc. unfold m0. by erewrite core_insert. }
    pose proof (lo_distinct _ _ Hok) as Hnd. split; [done|]. split.
    { intros b Hb Hb'. by rewrite Hfr, Hm0. }
    eapply lists_update; [done|done|done|exact Hh|exact D| | |].
    + intros k b Hk Hb. pose proof (Hother k b Hk Hb).
      rewrite Hfr, Hm0; [done|congruence|by eapply (other_list lists i)].
    + rewrite HR. simpl. constructor; [by apply not_elem_of_app|by rewrite <- Hall].
    + intros b. rewrite HR. simpl. rewrite elem_of_cons. intros [->|Hb].
      * pose proof (fields_eq _ _ Hcore a) as Ef. rewrite Hn in Ef.
        destruct (mem p' !! a) as [n'|]; [|done]. simpl in *. unfold fields in Ef. congruence.
      * revert b Hb. intros b. rewrite <- Hall. by apply (offset_core p p' lists).
Qed.

Lemma add_freenode_spec p lists i l a n idx :
  lists_ok p lists -> lists !! i = Some l -> (i < 5)%nat -> mem p !! a = Some n ->
  rd_offset n = a -> a <> MEMPOOL_NULL -> a ∉ concat lists ->
  (if idx =? -1 then get_freeidx (rd_size n) else idx) = Z.of_nat i ->
  exists p', add_freenode p a idx = Some p' /\ relinked p p' /\ busylist p' = busylist p /\
    (forall b, b <> a -> b ∉ l -> mem p' !! b = mem p !! b) /\
    lists_ok p' (<[i := a :: l]> lists).
Proof.
  intros Hok Hi H5 Hn Ha Hnull Hin Hidx.
  destruct (freelist_at _ _ _ _ Hok Hi H5) as (x & Hx & Hx' & D).
  destruct (lo_length _ _ Hok) as [Hf _].
  assert (heads p !! i = Some x) as Hhx by (rewrite heads_free by lia; done).
  assert (exists m1, st_prev_opt (<[a := set_prev MEMPOOL_NULL (set_next x n)]> (mem p)) x a = Some m1 /\
    (m ← (if negb (x =? MEMPOOL_NULL) then
         h ← mem p !! x;
         m ← st_next (mem p) a (rd_offset h);
         st_prev m x (rd_offset n)
       else st_next (mem p) a MEMPOOL_NULL); st_prev m a MEMPOOL_NULL) = Some m1) as (m1 & E1 & E2).
  { unfold st_prev_opt. change null with MEMPOOL_NULL.
    destruct (Z.eqb_spec x MEMPOOL_NULL) as [->|Hxn]; cbn [negb].
    - rewrite decide_True by done. eexists. split; [done|].
      rewrite (st_next_ok _ _ _ _ Hn). bind_simpl.
      erewrite st_prev_ok by apply lookup_insert_eq. by rewrite insert_insert_eq.
    - rewrite decide_False by done. destruct l as [|y l].
      { by apply dlist_null in D as [_ D]; rewrite D in Hxn. }
      pose proof (dlist_head _ _ _ _ D) as ->.
      assert (y ∈ concat lists) as Hy by (apply member_concat; exists i, (y :: l); split; [done|left]).
      pose proof (lo_offset _ _ Hok y Hy) as Ho.
      destruct (mem p !! y) as [ny|] eqn:Hny; [|done]. simpl in Ho. injection Ho as Ho.
      assert (y <> a) by congruence. eexists.
      erewrite st_prev_ok by (rewrite lookup_insert_ne by done; done). split; [done|].
      bind_simpl. rewrite Ho, (st_next_ok _ _ _ _ Hn). bind_simpl.
      erewrite st_prev_ok by (rewrite lookup_insert_ne by done; done). bind_simpl.
      erewrite st_prev_ok by (rewrite lookup_insert_ne by done; apply lookup_insert_eq).
      rewrite Ha, insert_insert_ne by done. by rewrite insert_insert_eq. }
  unfold add_freenode. rewrite Hn. bind_simpl. rewrite Hidx, Hx. bind_simpl.
  revert E2. destruct (if negb (x =? MEMPOOL_NULL) then _ else _) as [m|]; [|done]. bind_simpl.
  intros E2. rewrite set_head_ok by (simpl; lia). bind_simpl. cbn [mem with_freelist with_mem].
  rewrite E2. bind_simpl. eexists. split; [done|].
  edestruct (push_update p (with_mem (with_freelist (with_mem p m) (<[i := a]> (freelist p))) m1)
    lists i l a n x m1) as (Hc & Hfr & Hok'); try done.
  - simpl. by rewrite length_insert.
  - by apply (heads_set_free (with_mem p m)).
Qed.

(** ** The blocks of a pool, in address order *)

Record block := Block { b_off : Z; b_size : Z; b_busy : bool }.

(** The offset of the first block, or what follows when there is none. *)
Definition first_off (bs : list block) (nx : Z) : Z :=
  match bs with [] => nx | b :: _ => b_off b end.

(** From [off], whose left neighbour is [rp], the headers [bs] tile the region up to [fin];
    [lp] is the last of them and [nx] the right neighbour of the last. *)
Fixpoint tiles (m : gmap Z realdata_t) (rp off : Z) (bs : list block) (lp fin nx : Z) : Prop :=
  match bs with
  | [] => off = fin /\ rp = lp
  | b :: bs =>
      b_off b = off /\ sizeof_realdata <= b_size b /\
      fields <$> m !! off = Some (off, b_size b, Z.b2z (b_busy b), rp, first_off bs nx) /\
      tiles m off (off + b_size b) bs lp fin nx
  end.

Lemma tiles_frame m m' : forall bs rp off lp fin nx,
  (forall b, b ∈ bs -> fields <$> m' !! b_off b = fields <$> m !! b_off b) ->
  tiles m rp off bs lp fin nx -> tiles m' rp off bs lp fin nx.
Proof.
  induction bs as [|b bs IH]; intros rp off lp fin nx Hf; simpl; [done|].
  intros (<- & Hs & Hb & Ht). split; [done|]. split; [done|].
  rewrite Hf by left. split; [done|]. apply IH; [|done].
  intros c Hc. apply Hf. by right.
Qed.

Lemma tiles_core m m' bs rp off lp fin nx :
  core <$> m' = core <$> m -> tiles m rp off bs lp fin nx -> tiles m' rp off bs lp fin nx.
Proof. intros E. apply tiles_frame. intros b _. by apply fields_eq. Qed.

Lemma tiles_app m : forall bs cs rp off lp fin nx,
  tiles m rp off (bs ++ cs) lp fin nx <->
  exists p o, tiles m rp off bs p o (first_off cs nx) /\ tiles m p o cs lp fin nx.
Proof.
  induction bs as [|b bs IH]; intros cs rp off lp fin nx; simpl.
  { split; [eauto|]. by intros (p & o & [-> ->] & ?). }
  assert (first_off (bs ++ cs) nx = first_off bs (first_off cs nx)) as -> by by destruct bs.
  split.
  - intros (-> & Hs & Hb & (p & o & H1 & H2)%IH). eauto 10.
  - intros (p & o & (-> & Hs & Hb & H1) & H2). repeat (split; [done|]). apply IH. eauto.
Qed.

Lemma tiles_bounds m : forall bs rp off lp fin nx,
  tiles m rp off bs lp fin nx ->
  off <= fin /\ forall b, b ∈ bs -> off <= b_off b /\ b_off b + b_size b <= fin /\
    sizeof_realdata <= b_size b /\
    exists n, m !! b_off b = Some n /\ rd_offset n = b_off b /\ rd_size n = b_size b /\
      rd_status n = Z.b2z (b_busy b).
Proof.
  induction bs as [|b bs IH]; intros rp off lp fin nx; simpl.
  { intros [-> _]. split; [done|]. intros b. by rewrite elem_of_nil. }
  intros (Ho & Hs & Hb & Ht). destruct (IH _ _ _ _ _ Ht) as [Hle Hin].
  unfold sizeof_realdata in *. split; [lia|]. intros c. rewrite elem_of_cons. intros [->|Hc].
  - split; [lia|]. split; [lia|]. split; [done|]. rewrite Ho.
    destruct (m !! off) as [n|]; [|done]. exists n. simpl in Hb. unfold fields in Hb.
    by injection Hb as -> -> -> _ _.
  - destruct (Hin c Hc) as (? & ? & ? & ?). split; [lia|]. done.
Qed.

(** Different blocks do not overlap. *)
Lemma tiles_disjoint m : forall bs rp off lp fin nx b c,
  tiles m rp off bs lp fin nx -> b ∈ bs -> c ∈ bs ->
  b = c \/ b_off b + b_size b <= b_off c \/ b_off c + b_size c <= b_off b.
Proof.
  induction bs as [|d bs IH]; intros rp off lp fin nx b c; [by rewrite elem_of_nil|].
  intros (Ho & Hs & _ & Ht). destruct (tiles_bounds _ _ _ _ _ _ _ Ht) as [_ Hin].
  rewrite !elem_of_cons. intros [->|Hb] [->|Hc]; [by left| | |by eapply IH].
  - destruct (Hin _ Hc). right; left. lia.
  - destruct (Hin _ Hb). right; right. lia.
Qed.

Lemma tiles_off_inj m bs rp off lp fin nx b c :
  tiles m rp off bs lp fin nx -> b ∈ bs -> c ∈ bs -> b_off b = b_off c -> b = c.
Proof.
  intros Ht Hb Hc E. pose proof (tiles_bounds _ _ _ _ _ _ _ Ht) as [_ Hin].
  destruct (Hin _ Hb) as (_ & _ & Hs & _), (Hin _ Hc) as (_ & _ & Hs' & _).
  destruct (tiles_disjoint _ _ _ _ _ _ _ _ _ Ht Hb Hc) as [?|[?|?]]; [done| |];
    unfold sizeof_realdata in *; lia.
Qed.

Lemma tiles_NoDup m : forall bs rp off lp fin nx,
  tiles m rp off bs lp fin nx -> NoDup (b_off <$> bs).
Proof.
  induction bs as [|d bs IH]; intros rp off lp fin nx Ht; simpl; [constructor|].
  pose proof Ht as (Ho & Hs & _ & Ht'). constructor; [|by eapply IH].
  intros (c & E & Hc)%list_elem_of_fmap.
  destruct (tiles_bounds _ _ _ _ _ _ _ Ht') as [_ Hin]. destruct (Hin _ Hc).
  unfold sizeof_realdata in *. lia.
Qed.

(** The first header of a segment gets a new left neighbour. *)
Lemma tiles_set_realprev m rp rp' off c cs lp fin nx n :
  tiles m rp off (c :: cs) lp fin nx -> m !! off = Some n ->
  tiles (<[off := set_realprev rp' n]> m) rp' off (c :: cs) lp fin nx.
Proof.
  intros (Ho & Hs & Hf & Ht) Hn. rewrite Hn in Hf. simpl in Hf.
  split; [done|]. split; [done|]. split.
  - rewrite lookup_insert_eq. unfold fields in *. simpl. congruence.
  - eapply tiles_frame; [|done]. intros b Hb.
    destruct (tiles_bounds _ _ _ _ _ _ _ Ht) as [_ Hin]. destruct (Hin _ Hb).
    rewrite lookup_insert_ne; [done|]. unfold sizeof_realdata in *. lia.
Qed.

(** [if (x != MEMPOOL_NULL) x->realprev = rp'] on what follows a block. *)
Definition st_realprev_opt (m : gmap Z realdata_t) (x v : Z) : option (gmap Z realdata_t) :=
  if negb (x =? MEMPOOL_NULL) then update m x (set_realprev v) else Some m.

Lemma st_realprev_tiles m rp rp' off cs lp fin :
  tiles m rp off cs lp fin MEMPOOL_NULL -> 0 <= off -> fin < MEMPOOL_NULL ->
  exists m', st_realprev_opt m (first_off cs MEMPOOL_NULL) rp' = Some m' /\
    tiles m' rp' off cs (match cs with [] => rp' | _ => lp end) fin MEMPOOL_NULL /\
    (forall a, a < off -> m' !! a = m !! a) /\
    (forall a, links <$> m' !! a = links <$> m !! a) /\
    (forall a, home <$> m' !! a = home <$> m !! a) /\
    (forall a, rd_offset <$> m' !! a = rd_offset <$> m !! a).
Proof.
  intros Ht Hoff Hfin. unfold st_realprev_opt. destruct cs as [|c cs]; simpl first_off.
  - rewrite Z.eqb_refl. destruct Ht as [-> ->]. by exists m.
  - pose proof Ht as (Ho & Hs & Hf & Ht'). destruct (tiles_bounds _ _ _ _ _ _ _ Ht') as [Hle _].
    unfold sizeof_realdata in *.
    rewrite (proj2 (Z.eqb_neq _ _)) by lia. cbn [negb]. rewrite Ho.
    destruct (m !! off) as [n|] eqn:Hn; [|done]. unfold update. rewrite Hn. bind_simpl.
    eexists. split; [done|]. split; [by eapply tiles_set_realprev|].
    split; [intros a Ha; rewrite lookup_insert_ne by lia; done|].
    split; [|split]; intros a; (destruct (decide (off = a)) as [<-|];
      [by rewrite lookup_insert_eq, Hn|by rewrite lookup_insert_ne]).
Qed.

(** ** Which list to look at *)

Lemma get_freelist_loop_spec p size :
  length (freelist p) = 5%nat ->
  exists fl i, get_freelist_loop 5 p size = Some (fl, i) /\ get_freeidx size <= i <= 4 /\
    znth (freelist p) i = Some fl /\ (fl = MEMPOOL_NULL -> i = 4) /\
    forall j, get_freeidx size <= j < i -> znth (freelist p) j = Some MEMPOOL_NULL.
Proof.
  intros Hl. destruct p as [fl b m ps ls fd]. simpl in *.
  destruct fl as [|f0 [|f1 [|f2 [|f3 [|f4 [|]]]]]]; try discriminate Hl. clear Hl.
  unfold get_freeidx.
  assert (forall j, 0 <= j <= 4 -> j = 0 \/ j = 1 \/ j = 2 \/ j = 3 \/ j = 4) as Hj by lia.
  simpl. destruct (MEMPOOL_FREELIST_4K <? size), (MEMPOOL_FREELIST_1K <? size),
    (MEMPOOL_FREELIST_512B <? size), (MEMPOOL_FREELIST_128B <? size); bind_simpl;
  cbn -[Z.le Z.lt MEMPOOL_NULL];
  destruct (Z.eqb_spec f0 MEMPOOL_NULL), (Z.eqb_spec f1 MEMPOOL_NULL),
    (Z.eqb_spec f2 MEMPOOL_NULL), (Z.eqb_spec f3 MEMPOOL_NULL); subst; cbn -[Z.le Z.lt MEMPOOL_NULL];
  do 2 eexists; (split; [reflexivity|]); (split; [lia|]); (split; [reflexivity|]);
  (split; [done|]); intros j Hr; destruct (Hj j) as [->|[->|[->|[->| ->]]]]; try lia; try reflexivity.
Qed.

Lemma get_freelist_class p size x :
  length (freelist p) = 5%nat -> znth (freelist p) (get_freeidx size) = Some x ->
  x <> MEMPOOL_NULL -> mempool_get_freelist p size = Some (x, get_freeidx size).
Proof.
  intros Hl Hx Hn. destruct (get_freelist_loop_spec p size Hl) as (fl & i & E & Hi & Hfl & H4 & Hj).
  unfold mempool_get_freelist. rewrite E. bind_simpl.
  assert (i = get_freeidx size) as ->.
  { destruct (decide (i = get_freeidx size)); [done|].
    rewrite Hj in Hx by lia. congruence. }
  rewrite Hx in Hfl. injection Hfl as <-. by rewrite (proj2 (Z.eqb_neq _ _)).
Qed.

Lemma lists_frame p p' lists :
  lists_ok p lists -> freelist p' = freelist p -> busylist p' = busylist p ->
  (forall a, a ∈ concat lists -> links <$> mem p' !! a = links <$> mem p !! a) ->
  (forall a, a ∈ concat lists -> rd_offset <$> mem p' !! a = rd_offset <$> mem p !! a) ->
  lists_ok p' lists.
Proof.
  intros Hok Hf Hb Hl Ho. split.
  - rewrite Hf. apply (lo_length _ _ Hok).
  - unfold heads. rewrite Hf, Hb. intros i x l Hx Hi.
    eapply dlist_same_links; [|by eapply lo_list]. intros a Ha. apply Hl.
    by eapply elem_of_concat_lookup.
  - apply (lo_distinct _ _ Hok).
  - intros a Ha. rewrite Ho by done. by apply (lo_offset _ _ Hok).
Qed.

Lemma member_in_concat {A} (lists : list (list A)) k a : member lists k a -> a ∈ concat lists.
Proof. intros. apply member_concat. by exists k. Qed.

(** A node takes the place of another one in its list. *)
Lemma replace_update p lists i l1 a l2 n c r x :
  lists_ok p lists -> lists !! i = Some (l1 ++ a :: l2) -> mem p !! a = Some n ->
  mem p !! c = Some r -> rd_prev r = rd_prev n -> rd_next r = rd_next n -> rd_offset r = c ->
  c ∉ concat lists -> c <> MEMPOOL_NULL -> heads p !! i = Some x ->
  exists m1 m2, st_prev_opt (mem p) (rd_next n) c = Some m1 /\
    st_next_opt m1 (rd_prev n) c = Some m2 /\
    core <$> m2 = core <$> mem p /\ (forall b, b ∉ l1 ++ l2 -> m2 !! b = mem p !! b) /\
    forall p', length (freelist p') = 5%nat -> mem p' = m2 ->
      heads p' = <[i := match l1 with [] => c | _ => x end]> (heads p) ->
      lists_ok p' (<[i := l1 ++ c :: l2]> lists).
Proof.
  intros Hok Hi Hn Hr Hrp Hrn Hro Hc Hcn Hx.
  pose proof (lo_list _ _ Hok _ _ _ Hx Hi) as D.
  destruct (concat_hole _ _ _ Hi) as (R & HR & Hall & Hother).
  pose proof (lo_distinct _ _ Hok) as Hnd.
  pose proof Hc as Hc'. rewrite Hall, !not_elem_of_app, not_elem_of_cons in Hc'.
  destruct Hc' as [(Hc1 & Hca & Hc2) HcR].
  destruct (dlist_split _ _ _ _ _ _ D Hn) as (_ & D1 & q & D2).
  destruct (dlist_splice (mem p) x l1 l2 c r a) as (h1 & h2 & E1 & E2 & Hlo & D').
  - change (prev_of r) with (rd_prev r). by rewrite Hrp.
  - change (next_of r) with (rd_next r). rewrite Hrn. eauto.
  - pose proof (dlist_NoDup _ _ _ D) as Hl. rewrite <- Permutation_middle in Hl |- *.
    apply NoDup_cons in Hl as [_ Hl]. constructor; [|done].
    by rewrite not_elem_of_app.
  - done.
  - done.
  - destruct (dlist_neighbours _ _ _ _ _ _ D Hn) as (_ & _ & Hne).
    change (prev_of r) with (rd_prev r) in *. change (next_of r) with (rd_next r) in *.
    rewrite Hrp, Hrn in *.
    destruct (st_opt_swap _ _ _ _ _ _ _ E1 E2 Hne) as (m1 & F1 & F2).
    exists m1, h2. split; [done|]. split; [done|]. split; [apply Hlo|]. split; [apply Hlo|].
    intros p' Hf Hm Hh. eapply lists_update; [done|done|done|exact Hh|by rewrite Hm| | |].
    + intros k b Hk Hb. rewrite Hm. eapply links_only_links; [done|].
      intros Hb'. eapply (other_list lists i); [done..|].
      rewrite elem_of_app in *. rewrite elem_of_cons. tauto.
    + rewrite HR. rewrite Hall, <- app_assoc in Hnd. rewrite <- app_assoc. simpl in *.
      rewrite <- Permutation_middle in Hnd |- *. apply NoDup_cons in Hnd as [_ Hnd].
      constructor; [|done]. by rewrite !not_elem_of_app.
    + intros b. rewrite HR. rewrite !elem_of_app, elem_of_cons. intros Hb.
      pose proof (fields_eq _ _ (proj1 Hlo) b) as Ef.
      assert (rd_offset <$> mem p !! b = Some b) as Ho.
      { destruct (decide (b = c)) as [->|]; [by rewrite Hr; simpl; f_equal|].
        apply (lo_offset _ _ Hok). rewrite Hall, !elem_of_app, elem_of_cons. tauto. }
      rewrite Hm. destruct (mem p !! b) as [nb|]; [|done]. destruct (h2 !! b) as [nb'|]; [|done].
      simpl in *. unfold fields in Ef. congruence.
Qed.

Lemma member_not_in (lists : list (list Z)) k a : a ∉ concat lists -> ~ member lists k a.
Proof. intros Ha Hm. by apply Ha, (member_in_concat _ k). Qed.

(** Taking [a] out of its list. *)
Lemma member_remove (lists : list (list Z)) i l1 a l2 k b :
  NoDup (concat lists) -> lists !! i = Some (l1 ++ a :: l2) ->
  member (<[i := l1 ++ l2]> lists) k b <-> b <> a /\ member lists k b.
Proof.
  intros Hnd Hi. rewrite (member_insert _ _ _ _ _ _ Hi), elem_of_app.
  assert (member lists i a) as Ha by (exists (l1 ++ a :: l2); split; [done|]; apply elem_of_app; right; left).
  destruct (concat_hole _ _ _ Hi) as (R & _ & E & _). pose proof Hnd as Hnd'. rewrite E in Hnd'.
  apply NoDup_app in Hnd' as (Hl & _ & _). rewrite <- Permutation_middle in Hl.
  apply NoDup_cons in Hl as [Hal _]. rewrite elem_of_app in Hal.
  split.
  - intros [[-> Hb]|[Hk Hb]].
    + split; [intros ->; tauto|]. exists (l1 ++ a :: l2). split; [done|].
      rewrite elem_of_app, elem_of_cons. tauto.
    + split; [|done]. intros ->. apply Hk. by eapply member_unique.
  - intros [Hb Hm]. destruct (decide (k = i)) as [->|]; [left|by right].
    split; [done|]. destruct Hm as (l & Hl' & Hin). simplify_eq.
    rewrite elem_of_app, elem_of_cons in Hin. tauto.
Qed.

(** Putting [a] in front of a list. *)
Lemma member_push (lists : list (list Z)) i l a k b :
  lists !! i = Some l ->
  member (<[i := a :: l]> lists) k b <-> (b = a /\ k = i) \/ member lists k b.
Proof.
  intros Hi. rewrite (member_insert _ _ _ _ _ _ Hi), elem_of_cons.
  destruct (decide (k = i)) as [->|Hk]; [|tauto]. unfold member. rewrite Hi. naive_solver.
Qed.

Lemma concat_notin_insert (lists : list (list Z)) i l1 a l2 :
  NoDup (concat lists) -> lists !! i = Some (l1 ++ a :: l2) ->
  a ∉ concat (<[i := l1 ++ l2]> lists).
Proof.
  intros Hnd Hi (k & Hm)%member_concat.
  by apply (member_remove _ _ _ _ _ _ _ Hnd Hi) in Hm as [? _].
Qed.

(** [if (freeidx2 != freeidx)]: a free node changes lists. *)
Lemma move_class_spec p lists i l1 c l2 n j :
  lists_ok p lists -> lists !! i = Some (l1 ++ c :: l2) -> (i < 5)%nat -> (j < 5)%nat ->
  mem p !! c = Some n -> c <> MEMPOOL_NULL ->
  exists p' lists',
    (if negb (Z.of_nat j =? Z.of_nat i)
     then p ← remove_freenode p c (Z.of_nat i); add_freenode p c (Z.of_nat j)
     else Some p) = Some p' /\
    relinked p p' /\ busylist p' = busylist p /\
    (forall b, b ∉ concat lists -> mem p' !! b = mem p !! b) /\ lists_ok p' lists' /\
    (forall k a, member lists' k a <-> (a <> c /\ member lists k a) \/ (a = c /\ k = j)).
Proof.
  intros Hok Hi Hi5 Hj5 Hn Hcn. pose proof (lo_distinct _ _ Hok) as Hnd.
  assert (member lists i c) as Hmc
    by (exists (l1 ++ c :: l2); split; [done|]; apply elem_of_app; right; left).
  destruct (Z.eqb_spec (Z.of_nat j) (Z.of_nat i)) as [E|E]; cbn [negb].
  - apply Nat2Z.inj in E as ->. exists p, lists. repeat (split; [done|]).
    intros k a. destruct (decide (a = c)) as [->|]; [|tauto]. split; [|by intros [[? _]|[_ ->]]].
    intros Hm. right. split; [done|]. by eapply member_unique.
  - destruct (remove_freenode_spec p lists i l1 c l2 n (Z.of_nat i)) as
      (p1 & E1 & R1 & B1 & F1 & O1); try done.
    { destruct (Z.eqb_spec (Z.of_nat i) (-1)); [lia|done]. }
    rewrite E1. bind_simpl. set (lists1 := <[i := l1 ++ l2]> lists) in *.
    assert (exists n1, mem p1 !! c = Some n1 /\ fields n1 = fields n) as (n1 & Hn1 & Ef).
    { eapply fields_lookup; [|done]. apply fields_eq, R1. }
    pose proof (lo_offset _ _ Hok c (member_in_concat _ _ _ Hmc)) as Ho.
    rewrite Hn in Ho. simpl in Ho.
    destruct (lookup_lt_is_Some_2 lists1 j) as [lj Hlj].
    { unfold lists1. rewrite length_insert. pose proof (lo_length _ _ Hok). lia. }
    destruct (add_freenode_spec p1 lists1 j lj c n1 (Z.of_nat j)) as
      (p2 & E2 & R2 & B2 & F2 & O2); try done.
    { unfold fields in Ef. congruence. }
    { by eapply concat_notin_insert. }
    { destruct (Z.eqb_spec (Z.of_nat j) (-1)); [lia|done]. }
    rewrite E2. exists p2, (<[j := c :: lj]> lists1). split; [done|].
    split; [by eapply relinked_trans|]. split; [congruence|].
    assert (forall k a, member (<[j := c :: lj]> lists1) k a <->
      (a <> c /\ member lists k a) \/ (a = c /\ k = j)) as Hmem.
    { intros k a. rewrite (member_push _ _ _ _ _ _ Hlj). unfold lists1.
      rewrite (member_remove _ _ _ _ _ _ _ Hnd Hi). tauto. }
    split; [|split; [done|exact Hmem]].
    intros b Hb. assert (b <> c) as Hbc by (intros ->; by apply (member_not_in lists i c)).
    rewrite F2, F1; [done| | |].
    + intros Hin. apply (member_not_in _ i _ Hb). exists (l1 ++ c :: l2). split; [done|].
      rewrite elem_of_app in *. rewrite elem_of_cons. tauto.
    + done.
    + intros Hin. assert (member lists1 j b) as Hm by by exists lj.
      apply (member_remove _ _ _ _ _ _ _ Hnd Hi) in Hm as [_ Hm]. by apply (member_not_in _ j _ Hb).
Qed.

(** ** Splitting *)

Lemma tiles_mid m rp off bs1 b bs2 lp fin nx :
  tiles m rp off (bs1 ++ b :: bs2) lp fin nx ->
  exists rp' n, m !! b_off b = Some n /\
    fields n = (b_off b, b_size b, Z.b2z (b_busy b), rp', first_off bs2 nx) /\
    tiles m rp off bs1 rp' (b_off b) (b_off b) /\
    tiles m (b_off b) (b_off b + b_size b) bs2 lp fin nx /\
    off <= b_off b /\ sizeof_realdata <= b_size b /\ b_off b + b_size b <= fin.
Proof.
  intros (rp' & o & H1 & (Ho & Hs & Hf & H2))%tiles_app. subst o.
  destruct (m !! b_off b) as [n|] eqn:Hn; [|done]. simpl in Hf.
  exists rp', n. split; [done|]. split; [congruence|]. split; [done|]. split; [done|].
  pose proof (proj1 (tiles_bounds _ _ _ _ _ _ _ H1)).
  pose proof (proj1 (tiles_bounds _ _ _ _ _ _ _ H2)). done.
Qed.

(** A header in the middle is rewritten; its size and neighbours stay. *)
Lemma tiles_set_mid m rp off bs1 a s b b' bs2 lp fin nx n n' :
  tiles m rp off (bs1 ++ Block a s b :: bs2) lp fin nx -> m !! a = Some n ->
  fields n' = (a, s, Z.b2z b', rd_realprev n, rd_realnext n) ->
  tiles (<[a := n']> m) rp off (bs1 ++ Block a s b' :: bs2) lp fin nx.
Proof.
  intros Ht Hn Hf. destruct (tiles_mid _ _ _ _ _ _ _ _ _ Ht) as
    (rp' & n0 & Hn0 & Hf0 & H1 & H2 & Hb1 & Hs & Hb2). simpl in *. simplify_eq.
  unfold sizeof_realdata in *.
  apply tiles_app. exists rp', a. split.
  - eapply tiles_frame; [|exact H1]. intros c Hc.
    destruct (tiles_bounds _ _ _ _ _ _ _ H1) as [_ Hin].
    destruct (Hin _ Hc) as (_ & ? & ? & _). unfold sizeof_realdata in *.
    rewrite lookup_insert_ne; [done|lia].
  - split; [done|]. split; [done|]. simpl. split.
    + rewrite lookup_insert_eq. simpl. rewrite Hf. unfold fields in Hf0. congruence.
    + eapply tiles_frame; [|exact H2]. intros c Hc.
      destruct (tiles_bounds _ _ _ _ _ _ _ H2) as [_ Hin].
      destruct (Hin _ Hc) as (? & _). rewrite lookup_insert_ne; [done|lia].
Qed.

(** [rd->next = rd->prev = MEMPOOL_NULL; rd->status = 1;] *)
Lemma finish_split p lists bs1 rd s bs2 lp cap :
  lists_ok p lists -> rd ∉ concat lists ->
  tiles (mem p) MEMPOOL_NULL 0 (bs1 ++ Block rd s false :: bs2) lp cap MEMPOOL_NULL ->
  exists m, update (mem p) rd (fun n => set_status 1 (set_prev MEMPOOL_NULL (set_next MEMPOOL_NULL n)))
      = Some m /\
    lists_ok (with_mem p m) lists /\
    tiles m MEMPOOL_NULL 0 (bs1 ++ Block rd s true :: bs2) lp cap MEMPOOL_NULL /\
    links <$> m !! rd = Some (MEMPOOL_NULL, MEMPOOL_NULL).
Proof.
  intros Hok Hrd Ht. destruct (tiles_mid _ _ _ _ _ _ _ _ _ Ht) as (rp' & n & Hn & Hf & _).
  simpl in *. unfold update. rewrite Hn. bind_simpl. eexists. split; [done|]. split; [|split].
  - eapply lists_frame; [done|done|done| |]; intros a Ha; simpl; rewrite lookup_insert_ne;
      try done; congruence.
  - eapply tiles_set_mid; [done..|]. unfold fields in *. simpl. congruence.
  - by rewrite lookup_insert_eq.
Qed.

(** The blocks a free block of size [s] at [rd] turns into. *)
Definition whole (s size : Z) : bool := s - size <? 2 * sizeof_realdata.
Definition taken (rd s size : Z) : block := Block rd (if whole s size then s else size) true.
Definition rest_of (rd s size : Z) : list block :=
  if whole s size then [] else [Block (rd + size) (s - size) false].

(** The list of a block. *)
Definition block_home (b : block) : nat :=
  if b_busy b then 5%nat else Z.to_nat (get_freeidx (b_size b)).

Record split_result (p p' : pool) (lists lists' : list (list Z)) (bs1 : list block)
    (rd s size : Z) (bs2 : list block) (cap : Z) : Prop := SplitResult {
  sp_tiles : exists lp, tiles (mem p') MEMPOOL_NULL 0
    (bs1 ++ taken rd s size :: rest_of rd s size ++ bs2) lp cap MEMPOOL_NULL;
  sp_lists : lists_ok p' lists';
  sp_member : forall k a, member lists' k a <-> (a <> rd /\ member lists k a) \/
    exists b, b ∈ rest_of rd s size /\ b_off b = a /\ block_home b = k;
  sp_links : links <$> mem p' !! rd = Some (MEMPOOL_NULL, MEMPOOL_NULL);
  sp_busy : busylist p' = busylist p;
  sp_size : pool_size p' = pool_size p;
  sp_left : leftsize p' = leftsize p;
  sp_failed : failed p' = failed p;
}.

Section split.
Context (p : pool) (lists : list (list Z)) (bs1 bs2 : list block) (rd s size : Z)
  (i : nat) (l1 l2 : list Z) (cap lp x : Z).
Hypotheses (Hok : lists_ok p lists) (Hi : lists !! i = Some (l1 ++ rd :: l2)) (Hi5 : (i < 5)%nat)
  (Ht : tiles (mem p) MEMPOOL_NULL 0 (bs1 ++ Block rd s false :: bs2) lp cap MEMPOOL_NULL)
  (Hcap : cap < MEMPOOL_NULL) (Hsize : sizeof_realdata <= size <= s)
  (Hin : forall a, a ∈ concat lists -> a ∈ b_off <$> bs1 ++ Block rd s false :: bs2)
  (Hget : mempool_get_freelist p s = Some (x, Z.of_nat i)) (Hx : heads p !! i = Some x).

Lemma split_whole :
  whole s size = true ->
  exists p' lists', split_realdata p rd size = Some (p', MEMPOOL_NULL) /\
    split_result p p' lists lists' bs1 rd s size bs2 cap.
Proof using Hok Hi Hi5 Ht Hcap Hsize Hget Hx.
  intros Hw. destruct (tiles_mid _ _ _ _ _ _ _ _ _ Ht) as
    (rp' & n & Hn & Hf & _ & _ & Hb1 & Hs & Hb2). simpl in *.
  injection Hf as Hno Hns Hnst Hnrp Hnrn.
  destruct (remove_freenode_spec p lists i l1 rd l2 n (Z.of_nat i)) as
    (p1 & E1 & R1 & B1 & F1 & O1); try done.
  { destruct (Z.eqb_spec (Z.of_nat i) (-1)); [lia|done]. }
  pose proof (lo_distinct _ _ Hok) as Hnd.
  pose proof (concat_notin_insert _ _ _ _ _ Hnd Hi) as Hrd.
  assert (tiles (mem p1) MEMPOOL_NULL 0 (bs1 ++ Block rd s false :: bs2) lp cap MEMPOOL_NULL) as Ht1
    by (eapply tiles_core; [apply R1|done]).
  destruct (finish_split p1 _ bs1 rd s bs2 lp cap O1 Hrd Ht1) as (m & E2 & O2 & T2 & K2).
  exists (with_mem p1 m), (<[i := l1 ++ l2]> lists). split.
  - unfold split_realdata. rewrite Hn. bind_simpl. rewrite Hns, Hget. bind_simpl.
    unfold whole, sizeof_realdata in *. apply Z.ltb_lt in Hw.
    rewrite wrap_small by (unfold MEMPOOL_NULL in *; lia).
    rewrite (proj2 (Z.ltb_lt _ (Z.shiftl _ _))) by (change (Z.shiftl 15 1) with 30; lia).
    revert E1. unfold remove_freenode. rewrite Hn. bind_simpl.
    destruct (Z.eqb_spec (Z.of_nat i) (-1)); [lia|].
    destruct (freelist_at _ _ _ _ Hok Hi Hi5) as (y & Hy & Hy' & D). rewrite Hy. bind_simpl.
    rewrite heads_free in Hx by (rewrite (proj1 (lo_length _ _ Hok)); lia).
    rewrite Hy' in Hx. injection Hx as ->.
    destruct (Z.eqb_spec rd x) as [Hrx|Hne]; cbn [negb].
    + intros E1. destruct (set_head p (Z.of_nat i) (rd_next n)) as [q|]; [|done].
      revert E1. bind_simpl. destruct (st_prev_opt _ _ _); [|done]. bind_simpl.
      intros [= <-]. by rewrite E2.
    + unfold st_next_opt. change (null (L := Z) (N := realdata_t)) with MEMPOOL_NULL.
      rewrite decide_False.
      * intros E1. destruct (st_next _ _ _) as [q|]; [|done].
        revert E1. bind_simpl. destruct (st_prev_opt _ _ _); [|done]. bind_simpl.
        intros [= <-]. by rewrite E2.
      * intros Hp. apply (dlist_prev_null _ _ _ _ _ _ D Hn) in Hp as ->.
        by apply dlist_head in D.
  - split; try done; try apply R1.
    + exists lp. unfold taken, rest_of. by rewrite Hw.
    + intros k a. unfold rest_of. rewrite Hw.
      rewrite (member_remove _ _ _ _ _ _ _ Hnd Hi).
      split; [by left|]. intros [?|(b & Hb & _)]; [done|]. by apply elem_of_nil in Hb.
Qed.

Lemma member_replace c k a :
  c ∉ concat lists ->
  member (<[i := l1 ++ c :: l2]> lists) k a <-> (a <> rd /\ member lists k a) \/ (a = c /\ k = i).
Proof using All.
  intros Hc. pose proof (lo_distinct _ _ Hok) as Hnd.
  assert (<[i := l1 ++ c :: l2]> lists = <[i := l1 ++ c :: l2]> (<[i := l1 ++ l2]> lists)) as ->
    by by rewrite list_insert_insert_eq.
  assert (<[i := l1 ++ l2]> lists !! i = Some (l1 ++ l2)) as Hi'
    by (apply list_lookup_insert_eq; by apply lookup_lt_Some in Hi).
  rewrite (member_insert _ _ _ _ _ _ Hi').
  pose proof (fun k b => member_remove lists i l1 rd l2 k b Hnd Hi) as Hrem.
  rewrite Hrem, elem_of_app, elem_of_cons. specialize (Hrem i a).
  rewrite (member_insert _ _ _ _ _ _ Hi), elem_of_app in Hrem.
  destruct (decide (k = i)) as [->|]; [|tauto].
  assert (a = c -> member lists i a -> False) by (intros -> Hm; by apply (member_not_in _ i _ Hc)).
  tauto.
Qed.

(** The address where a block is cut is not a header. *)
Lemma cut_fresh : size < s -> rd + size ∉ concat lists.
Proof using All.
  intros Hlt (b & Hb & Hin')%Hin%list_elem_of_fmap. unfold sizeof_realdata in *.
  assert (Block rd s false ∈ bs1 ++ Block rd s false :: bs2) as Hrd
    by (apply elem_of_app; right; left).
  pose proof (proj2 (tiles_bounds _ _ _ _ _ _ _ Ht) _ Hin') as (_ & _ & Hbs & _).
  unfold sizeof_realdata in *.
  destruct (tiles_disjoint _ _ _ _ _ _ _ _ _ Ht Hrd Hin') as [E|[E|E]].
  - subst b. simpl in Hb. lia.
  - simpl in E. lia.
  - simpl in E. lia.
Qed.

Lemma cut_headers n r :
  mem p !! rd = Some n -> size < s -> sizeof_realdata <= s - size ->
  fields r = (rd + size, s - size, 0, rd, rd_realnext n) ->
  exists m1 m2, st_realprev_opt (<[rd + size := r]> (mem p)) (rd_realnext n) (rd + size) = Some m1 /\
    update m1 rd (fun n => set_realnext (rd + size) (set_size size n)) = Some m2 /\
    (exists lp', tiles m2 MEMPOOL_NULL 0
      (bs1 ++ Block rd size false :: Block (rd + size) (s - size) false :: bs2) lp' cap MEMPOOL_NULL) /\
    m2 !! (rd + size) = Some r /\ links <$> m2 !! rd = Some (links n) /\
    forall a, a ∈ concat lists -> links <$> m2 !! a = links <$> mem p !! a /\
      rd_offset <$> m2 !! a = rd_offset <$> mem p !! a.
Proof using All.
  intros Hn Hlt Hrest Hr. pose proof (cut_fresh Hlt) as Hfresh.
  destruct (tiles_mid _ _ _ _ _ _ _ _ _ Ht) as (rp' & n' & Hn' & Hf & H1 & H2 & Hb1 & Hs & Hb2).
  simpl in *. rewrite Hn in Hn'. injection Hn' as <-. injection Hf as Hno Hns Hnst Hnrp Hnrn.
  unfold sizeof_realdata in *. pose proof (Hcap : cap < 65535). set (m0 := <[rd + size := r]> (mem p)) in *.
  assert (tiles m0 rd (rd + s) bs2 lp cap MEMPOOL_NULL) as T0.
  { eapply tiles_frame; [|exact H2]. intros b Hb. unfold m0.
    destruct (proj2 (tiles_bounds _ _ _ _ _ _ _ H2) _ Hb) as (? & _).
    rewrite lookup_insert_ne; [done|lia]. }
  destruct (st_realprev_tiles m0 rd (rd + size) (rd + s) bs2 lp cap T0) as
    (m1 & E1 & T1 & F1 & L1 & _ & O1); [lia|done|].
  rewrite Hnrn. exists m1. rewrite E1.
  assert (m1 !! rd = Some n) as Hm1.
  { rewrite F1 by lia. unfold m0. by rewrite lookup_insert_ne by lia. }
  unfold update. rewrite Hm1. bind_simpl. eexists. split; [done|]. split; [done|].
  assert (m1 !! (rd + size) = Some r) as Hm1r.
  { rewrite F1 by lia. unfold m0. by rewrite lookup_insert_eq. }
  split; [|split; [by rewrite lookup_insert_ne by lia|split]].
  - eexists. apply tiles_app. exists rp', rd. split.
    + eapply tiles_frame; [|exact H1]. intros b Hb.
      destruct (proj2 (tiles_bounds _ _ _ _ _ _ _ H1) _ Hb) as (_ & ? & ? & _).
      unfold sizeof_realdata in *. rewrite lookup_insert_ne by lia. rewrite F1 by lia.
      unfold m0. by rewrite lookup_insert_ne by lia.
    + simpl. split; [done|]. split; [unfold sizeof_realdata; lia|]. split.
      { rewrite lookup_insert_eq. unfold fields in *. simpl. congruence. }
      split; [done|]. split; [unfold sizeof_realdata; lia|]. split.
      { rewrite lookup_insert_ne by lia. rewrite Hm1r. simpl. unfold fields in *. congruence. }
      replace (rd + size + (s - size)) with (rd + s) by lia.
      eapply tiles_frame; [|exact T1]. intros b Hb.
      destruct (proj2 (tiles_bounds _ _ _ _ _ _ _ T1) _ Hb) as (? & _).
      rewrite lookup_insert_ne; [done|lia].
  - rewrite lookup_insert_eq. done.
  - intros a Ha. assert (a <> rd + size) by congruence.
    assert (m0 !! a = mem p !! a) as <- by (unfold m0; by rewrite lookup_insert_ne).
    destruct (decide (a = rd)) as [->|].
    + rewrite lookup_insert_eq. rewrite <- L1, <- O1, Hm1. done.
    + rewrite lookup_insert_ne by done. by rewrite L1, O1.
Qed.

Lemma split_cut :
  whole s size = false ->
  exists p' lists', split_realdata p rd size = Some (p', rd + size) /\
    split_result p p' lists lists' bs1 rd s size bs2 cap.
Proof using All.
  intros Hw. assert (size < s /\ 2 * sizeof_realdata <= s - size) as [Hlt Hrest]
    by (unfold whole, sizeof_realdata in *; lia).
  pose proof (cut_fresh Hlt) as Hfresh. pose proof (lo_distinct _ _ Hok) as Hnd.
  destruct (tiles_mid _ _ _ _ _ _ _ _ _ Ht) as (rp' & n & Hn & Hf & _ & _ & Hb1 & Hs & Hb2).
  simpl in *. injection Hf as Hno Hns Hnst Hnrp Hnrn.
  unfold sizeof_realdata in *. pose proof (Hcap : cap < 65535).
  set (r := Realdata (u16 (rd_offset n + size)) (u16 (rd_size n - size)) (rd_prev n) (rd_next n)
    (rd_offset n) (rd_realnext n) (stale_used (mem p) (rd + size)) 0).
  assert (u16 (rd_offset n + size) = rd + size) as Hoff by (rewrite wrap_small; lia).
  assert (u16 (rd_size n - size) = s - size) as Hsz by (rewrite wrap_small; lia).
  assert (u16 size = size) as Hsize16 by (rewrite wrap_small; lia).
  destruct (cut_headers n r Hn Hlt) as (m1 & m2 & E1 & E2 & (lp' & T2) & Hm2r & Hm2rd & Hfr).
  { unfold sizeof_realdata. lia. }
  { unfold fields, r. simpl. congruence. }
  destruct (m2 !! rd) as [n2|] eqn:Hn2; [|done].
  assert (rd_prev n2 = rd_prev n /\ rd_next n2 = rd_next n) as [Hp2 Hx2].
  { simpl in Hm2rd. unfold links in Hm2rd. by simplify_eq/=. }
  assert (lists_ok (with_mem p m2) lists) as O2
    by (eapply lists_frame; [done|done|done|apply Hfr|apply Hfr]).
  destruct (replace_update (with_mem p m2) lists i l1 rd l2 n2 (rd + size) r x)
    as (m3 & m4 & E3 & E4 & C4 & F4 & O4); try done.
  { unfold MEMPOOL_NULL. lia. }
  rewrite Hx2 in E3. rewrite Hp2 in E4. cbn [mem with_mem] in *.
  set (j := Z.to_nat (get_freeidx (s - size))).
  assert (Z.of_nat j = get_freeidx (s - size)) as Hj by (pose proof (get_freeidx_range (s - size)); lia).
  assert (j < 5)%nat as Hj5 by (pose proof (get_freeidx_range (s - size)); lia).
  assert (exists p3, (if negb (rd =? x)
            then m ← st_next m3 (rd_prev n) (rd + size); Some (with_mem p m)
            else set_head (with_mem p m3) (Z.of_nat i) (rd + size)) = Some p3 /\
      lists_ok p3 (<[i := l1 ++ (rd + size) :: l2]> lists) /\ mem p3 = m4 /\
      busylist p3 = busylist p /\ pool_size p3 = pool_size p /\ leftsize p3 = leftsize p /\
      failed p3 = failed p) as (p3 & E5 & O5 & M5 & B5 & S5 & L5 & A5).
  { destruct (freelist_at _ _ _ _ Hok Hi Hi5) as (y & Hy & Hy' & D).
    destruct (lo_length _ _ Hok) as [H5 _].
    rewrite heads_free in Hx by lia. rewrite Hy' in Hx. injection Hx as ->.
    pose proof (dlist_first _ _ _ _ _ D) as Hfirst.
    pose proof (dlist_prev_null _ _ _ _ _ _ D Hn) as Hprev.
    change (rd_prev n = MEMPOOL_NULL <-> l1 = []) in Hprev.
    unfold st_next_opt in E4. change (null (L := Z) (N := realdata_t)) with MEMPOOL_NULL in E4.
    destruct (Z.eqb_spec rd x) as [Hrx|Hrx]; cbn [negb].
    - assert (l1 = []) as Hl1 by (apply Hfirst; congruence).
      rewrite decide_True in E4 by tauto. injection E4 as <-.
      rewrite set_head_ok by (simpl; lia). eexists. split; [done|].
      split; [|done]. apply O4; [simpl; by rewrite length_insert|done|].
      rewrite (heads_set_free (with_mem p m3)) by done. by rewrite Hl1.
    - assert (l1 <> []) as Hl1 by (intros E; apply Hrx; symmetry; tauto).
      rewrite decide_False in E4 by tauto. rewrite E4. bind_simpl. eexists. split; [done|].
      split; [|done]. apply O4; [done|done|]. destruct l1; [done|].
      change (heads (with_mem p m4)) with (heads p). change (heads (with_mem p m2)) with (heads p).
      rewrite list_insert_id; [done|]. rewrite heads_free by lia. done. }
  assert (core <$> mem p3 = core <$> m2) as C5 by (rewrite M5; done).
  assert (exists n3, mem p3 !! (rd + size) = Some n3 /\ fields n3 = fields r) as (n3 & Hn3 & Hf3)
    by (eapply fields_lookup; [apply fields_eq, C5|done]).
  destruct (move_class_spec p3 _ i l1 (rd + size) l2 n3 j O5) as
    (p4 & lists4 & E6 & R6 & B6 & F6 & O6 & M6); try done.
  { by apply list_lookup_insert_eq, lookup_lt_Some with (l1 ++ rd :: l2). }
  { unfold MEMPOOL_NULL. lia. }
  assert (rd ∉ concat lists4) as Hrd4.
  { intros (k & Hm)%member_concat. apply M6 in Hm as [[_ Hm]|[? _]]; [|lia].
    apply (member_replace _ _ _ Hfresh) in Hm. lia. }
  destruct (finish_split p4 lists4 bs1 rd size (Block (rd + size) (s - size) false :: bs2) lp' cap)
    as (m5 & E7 & O7 & T7 & K7); [done|done| |].
  { eapply tiles_core; [|exact T2]. rewrite (re_core _ _ R6). done. }
  exists (with_mem p4 m5), lists4. split.
  - unfold split_realdata. rewrite Hn. bind_simpl. rewrite Hns, Hget. bind_simpl.
    rewrite wrap_small by lia.
    rewrite (proj2 (Z.ltb_ge _ (Z.shiftl _ _))) by (change (Z.shiftl sizeof_realdata 1) with 30; lia).
    rewrite <- Hns. fold r. change (rd_offset r) with (u16 (rd_offset n + size)).
    change (rd_size r) with (u16 (rd_size n - size)). rewrite Hoff, Hsz, Hsize16.
    unfold st_realprev_opt in E1. rewrite E1. bind_simpl. rewrite E2. bind_simpl.
    rewrite E3. bind_simpl. rewrite E5. bind_simpl. rewrite <- Hj, E6. bind_simpl.
    by rewrite E7.
  - split; try done; cbn [busylist pool_size leftsize failed with_mem].
    + exists lp'. unfold taken, rest_of. by rewrite Hw.
    + intros k a. unfold rest_of. rewrite Hw, M6, (member_replace _ _ _ Hfresh).
      setoid_rewrite list_elem_of_singleton. split.
      * intros [[Ha [?|[? _]]]|[-> ->]]; [by left|done|right]. eexists. by split.
      * intros [[Ha Hm]|(b & -> & <- & <-)]; [|by right]. left. split; [|by left].
        intros ->. by apply (member_not_in _ k _ Hfresh).
    + congruence.
    + rewrite (re_size _ _ R6). done.
    + rewrite (re_left _ _ R6). done.
    + rewrite (re_failed _ _ R6). done.
Qed.
End split.

Lemma split_spec p lists bs1 bs2 rd s size i l1 l2 cap lp x :
  lists_ok p lists -> lists !! i = Some (l1 ++ rd :: l2) -> (i < 5)%nat ->
  tiles (mem p) MEMPOOL_NULL 0 (bs1 ++ Block rd s false :: bs2) lp cap MEMPOOL_NULL ->
  cap < MEMPOOL_NULL -> sizeof_realdata <= size <= s ->
  (forall a, a ∈ concat lists -> a ∈ b_off <$> bs1 ++ Block rd s false :: bs2) ->
  mempool_get_freelist p s = Some (x, Z.of_nat i) -> heads p !! i = Some x ->
  exists p' lists', split_realdata p rd size =
      Some (p', first_off (rest_of rd s size) MEMPOOL_NULL) /\
    split_result p p' lists lists' bs1 rd s size bs2 cap.
Proof.
  intros. destruct (whole s size) eqn:Hw.
  - destruct (split_whole p lists bs1 bs2 rd s size i l1 l2 cap lp x) as (p' & lists' & E & R); try done.
    exists p', lists'. unfold rest_of. by rewrite Hw.
  - destruct (split_cut p lists bs1 bs2 rd s size i l1 l2 cap lp x) as (p' & lists' & E & R); try done.
    exists p', lists'. unfold rest_of. by rewrite Hw.
Qed.

(** ** Searching *)

Definition size_at (p : pool) (a : Z) : Z := from_option rd_size 0 (mem p !! a).

(** The choice among the blocks of a list, [v] being the first candidate: a smaller block
    that is large enough replaces it. *)
Definition best (sz : Z -> Z) (size : Z) (l : list Z) (v : Z) : Z :=
  fold_left (fun v t => if (size <=? sz t) && (sz t <? sz v) then t else v) l v.

Lemma search_list_spec p size : forall fuel l tmp v times,
  lseg (mem p) tmp l MEMPOOL_NULL -> is_Some (mem p !! v) ->
  0 <= times <= 8 -> (9 - Z.to_nat times < fuel)%nat ->
  search_list fuel p size tmp v times =
    Some (best (size_at p) size (take (9 - Z.to_nat times) l) v).
Proof.
  induction fuel as [|fuel IH]; intros l tmp v times Hl Hv Ht Hf; [lia|].
  cbn [search_list]. destruct l as [|a l].
  - cbn in Hl. subst tmp. by rewrite Z.eqb_refl, take_nil.
  - destruct Hl as (-> & Ha & n & Hn & Hl). destruct Hv as [nv Hv].
    rewrite (proj2 (Z.eqb_neq a MEMPOOL_NULL)) by done. rewrite Hn. bind_simpl. rewrite Hv. bind_simpl.
    replace (9 - Z.to_nat times)%nat with (S (8 - Z.to_nat times)) by lia. cbn [take].
    unfold best at 1. cbn [fold_left]. fold (best (size_at p) size).
    assert (size_at p a = rd_size n) as -> by (unfold size_at; by rewrite Hn).
    assert (size_at p v = rd_size nv) as -> by (unfold size_at; by rewrite Hv).
    set (v' := if _ : bool then a else v).
    change (fold_left _ ?l v') with (best (size_at p) size l v').
    assert (is_Some (mem p !! v')) as Hv' by (unfold v'; case_match; eauto).
    destruct (Z.leb_spec MEMPOOL_MAX_SEARCHINPOOL times); unfold MEMPOOL_MAX_SEARCHINPOOL in *.
    + replace (8 - Z.to_nat times)%nat with 0%nat by lia. done.
    + change (rd_next n) with (next_of n). rewrite (IH l) by (done || lia).
      by replace (9 - Z.to_nat (times + 1))%nat with (8 - Z.to_nat times)%nat by lia.
Qed.

Lemma best_in sz size l v : best sz size l v = v \/ best sz size l v ∈ l.
Proof.
  revert v. induction l as [|a l IH]; intros v; [by left|]. unfold best in *. cbn [fold_left].
  destruct (IH (if (size <=? sz a) && (sz a <? sz v) then a else v)) as [->|Hin].
  - case_match; [right; left|by left].
  - right. by right.
Qed.

(** When the first candidate is large enough, the choice is the best fit. *)
Lemma best_fit sz size l v :
  size <= sz v ->
  size <= sz (best sz size l v) /\ sz (best sz size l v) <= sz v /\
  forall a, a ∈ l -> size <= sz a -> sz (best sz size l v) <= sz a.
Proof.
  revert v. induction l as [|b l IH]; intros v Hv; unfold best in *; cbn [fold_left].
  { split; [done|]. split; [done|]. intros a Ha. by apply elem_of_nil in Ha. }
  set (v' := if _ : bool then b else v).
  assert (size <= sz v' /\ sz v' <= sz v /\ (size <= sz b -> sz v' <= sz b)) as (H1 & H2 & H3).
  { unfold v'. destruct (Z.leb_spec size (sz b)), (Z.ltb_spec (sz b) (sz v)); simpl; lia. }
  destruct (IH v' H1) as (I1 & I2 & I3). split; [done|]. split; [lia|].
  intros a [->|Ha]%elem_of_cons Hsz; [lia|by apply I3].
Qed.

(** When it is too small, no other one is chosen. *)
Lemma best_stuck sz size l v : sz v < size -> best sz size l v = v.
Proof.
  revert v. induction l as [|b l IH]; intros v Hv; unfold best in *; cbn [fold_left]; [done|].
  destruct (Z.leb_spec size (sz b)), (Z.ltb_spec (sz b) (sz v)); simpl; try lia; by apply IH.
Qed.

Lemma next_freelist_spec p : length (freelist p) = 5%nat ->
  forall fuel i, -1 <= i <= 3 -> (Z.to_nat (4 - i) <= fuel)%nat ->
  exists tmp j, next_freelist fuel p i = Some (tmp, j) /\
    (tmp = MEMPOOL_NULL \/ (i < j <= 4 /\ tmp <> MEMPOOL_NULL /\ znth (freelist p) j = Some tmp)).
Proof.
  intros Hl. induction fuel as [|fuel IH]; intros i Hi Hf; [lia|]. cbn [next_freelist].
  destruct (znth_lt (freelist p) (i + 1)) as [tmp Ht]; [lia|]. rewrite Ht. bind_simpl.
  destruct (Z.eqb_spec tmp MEMPOOL_NULL) as [->|Hn]; cbn [negb].
  - unfold MEMPOOL_FREELIST_SIZE. destruct (Z.ltb_spec (i + 1) (5 - 1)).
    + destruct (IH (i + 1)) as (tmp & j & E & Hj); [lia|lia|]. exists tmp, j. split; [done|].
      destruct Hj as [?|[? ?]]; [by left|right]. split; [lia|done].
    + eauto.
  - exists tmp, (i + 1). split; [done|]. right. split; [lia|done].
Qed.

(** A block that may be handed out for [size] bytes. *)
Definition fits (p : pool) (lists : list (list Z)) (size a : Z) : Prop :=
  (exists k, (k < 5)%nat /\ member lists k a) /\ size <= size_at p a.

Lemma availdata_from_spec p lists size : lists_ok p lists ->
  forall fuel tmp i, 0 <= i <= 4 -> (Z.to_nat (5 - i) <= fuel)%nat ->
  tmp <> MEMPOOL_NULL -> znth (freelist p) i = Some tmp ->
  exists r, availdata_from fuel p size tmp i = Some r /\
    (r = MEMPOOL_NULL \/ fits p lists size r) /\
    (size <= size_at p tmp -> r <> MEMPOOL_NULL /\ exists l, lists !! Z.to_nat i = Some l /\
      forall a, a ∈ take 9 l -> size <= size_at p a -> size_at p r <= size_at p a).
Proof.
  intros Hok. destruct (lo_length _ _ Hok) as [Hf5 Hl6].
  induction fuel as [|fuel IH]; intros tmp i Hi Hf Hn Ht; [lia|].
  destruct (lookup_lt_is_Some_2 lists (Z.to_nat i)) as [l Hl]; [lia|].
  destruct (freelist_at _ _ _ _ Hok Hl) as (y & Hy & _ & D); [lia|].
  rewrite Z2Nat.id in Hy by lia. rewrite Ht in Hy. injection Hy as <-.
  destruct l as [|a l]; [by apply dlist_null in D as [_ D]; rewrite D in Hn|].
  pose proof (dlist_head _ _ _ _ D) as ->. pose proof (dlist_lseg _ _ _ D) as L.
  pose proof L as (_ & Ha & n & Hna & _).
  cbn [availdata_from]. rewrite (search_list_spec p size 10 (a :: l) a a 0); [|done|by eexists|lia|lia].
  bind_simpl. change (9 - Z.to_nat 0)%nat with 9%nat.
  set (v := best (size_at p) size (take 9 (a :: l)) a).
  assert (v ∈ a :: l) as Hv.
  { destruct (best_in (size_at p) size (take 9 (a :: l)) a) as [E|Hin].
    - unfold v. rewrite E. left.
    - by apply elem_of_take in Hin as (j & Hin & _); apply list_elem_of_lookup; exists j. }
  pose proof (lseg_not_null _ _ _ _ _ L Hv) as Hvn.
  destruct (lseg_lookup _ _ _ _ _ L Hv) as [nv Hnv].
  rewrite (proj2 (Z.eqb_neq v MEMPOOL_NULL)) by done. rewrite Hnv. bind_simpl.
  assert (size_at p v = rd_size nv) as Hsv by (unfold size_at; by rewrite Hnv).
  destruct (Z.leb_spec size (rd_size nv)) as [Hfit|Hsmall].
  - rewrite (proj2 (Z.eqb_neq v MEMPOOL_NULL)) by done. cbn [andb].
    exists v. split; [done|]. split.
    + right. split; [|lia]. exists (Z.to_nat i). split; [lia|]. by exists (a :: l).
    + intros Hhead. split; [done|]. exists (a :: l). split; [done|].
      apply (best_fit (size_at p) size (take 9 (a :: l)) a Hhead).
  - assert (~ size <= size_at p a) as Hhead.
    { intros Hfit. destruct (best_fit (size_at p) size (take 9 (a :: l)) a Hfit) as [Hb _].
      fold v in Hb. lia. }
    rewrite Z.eqb_refl. unfold MEMPOOL_FREELIST_SIZE.
    destruct (Z.ltb_spec i (5 - 1)), (Z.leb_spec 0 i); cbn [andb]; try lia.
    + destruct (next_freelist_spec p Hf5 5 i) as (tmp' & j & E & Hj); [lia|lia|].
      rewrite E. bind_simpl. destruct (Z.eqb_spec tmp' MEMPOOL_NULL) as [->|Hn'].
      * exists MEMPOOL_NULL. split; [done|]. split; [by left|lia].
      * destruct Hj as [?|(Hj & _ & Hz)]; [done|].
        destruct (IH tmp' j) as (r & E' & Hr & _); [lia|lia|done|done|].
        exists r. split; [done|]. split; [done|lia].
    + exists MEMPOOL_NULL. split; [done|]. split; [by left|lia].
Qed.

(** ** The invariant of a pool *)

Fixpoint free_bytes (bs : list block) : Z :=
  match bs with
  | [] => 0
  | b :: bs => (if b_busy b then 0 else b_size b) + free_bytes bs
  end.

(** No two neighbours are free. *)
Fixpoint coalesced (flags : list bool) : Prop :=
  match flags with
  | b :: ((c :: _) as flags) => b || c = true /\ coalesced flags
  | _ => True
  end.

(** Every block is on the list of its kind and size, and nothing else is on a list. *)
Definition filed (lists : list (list Z)) (bs : list block) : Prop :=
  forall k a, member lists k a <-> exists b, b ∈ bs /\ b_off b = a /\ block_home b = k.

Record used_pool (p : pool) (cap : Z) (bs : list block) : Prop := UsedPool {
  up_cap : sizeof_realdata <= cap < MEMPOOL_NULL;
  up_size : pool_size p = cap + sizeof_mempool;
  up_tiles : exists lp, tiles (mem p) MEMPOOL_NULL 0 bs lp cap MEMPOOL_NULL;
  up_lists : exists lists, lists_ok p lists /\ filed lists bs;
  up_left : leftsize p = free_bytes bs;
  up_coalesced : coalesced (b_busy <$> bs);
  up_busy : exists b, b ∈ bs /\ b_busy b = true;
}.

(** A pool nothing is allocated in: its one block is on the last list whatever its size. *)
Record fresh_pool (p : pool) (cap : Z) : Prop := FreshPool {
  fp_cap : sizeof_realdata <= cap < MEMPOOL_NULL;
  fp_size : pool_size p = cap + sizeof_mempool;
  fp_freelist : freelist p = [MEMPOOL_NULL; MEMPOOL_NULL; MEMPOOL_NULL; MEMPOOL_NULL; 0];
  fp_busylist : busylist p = MEMPOOL_NULL;
  fp_left : leftsize p = cap;
  fp_block : exists u, mem p !! 0 = Some (Realdata 0 cap MEMPOOL_NULL MEMPOOL_NULL
    MEMPOOL_NULL MEMPOOL_NULL u 0);
}.

Definition pool_ok (p : pool) (cap : Z) (bs : list block) : Prop :=
  (fresh_pool p cap /\ bs = [Block 0 cap false]) \/ used_pool p cap bs.

Lemma free_bytes_app bs cs : free_bytes (bs ++ cs) = free_bytes bs + free_bytes cs.
Proof. induction bs as [|b bs IH]; simpl; [done|]. rewrite IH. lia. Qed.

Lemma tiles_free_bytes m : forall bs rp off lp fin nx,
  tiles m rp off bs lp fin nx -> 0 <= free_bytes bs <= fin - off.
Proof.
  induction bs as [|b bs IH]; intros rp off lp fin nx; simpl; [intros [-> _]; lia|].
  intros (_ & Hs & _ & Ht). apply IH in Ht. unfold sizeof_realdata in *. case_match; lia.
Qed.

Lemma coalesced_app l1 b l2 :
  coalesced (l1 ++ b :: l2) <-> coalesced (l1 ++ [b]) /\ coalesced (b :: l2).
Proof.
  induction l1 as [|a l1 IH]; [simpl; tauto|]. destruct l1 as [|c l1].
  - cbn [app] in *. simpl. tauto.
  - cbn [app] in *. change (a || c = true /\ coalesced (c :: l1 ++ b :: l2) <->
      (a || c = true /\ coalesced (c :: l1 ++ [b])) /\ coalesced (b :: l2)). tauto.
Qed.

Lemma coalesced_busy_last l b : coalesced (l ++ [b]) -> coalesced (l ++ [true]).
Proof.
  induction l as [|a l IH]; [done|]. destruct l as [|c l]; simpl.
  - intros _. by rewrite orb_true_r.
  - intros [? ?]. split; [done|]. by apply IH.
Qed.

Lemma coalesced_busy_first l b : coalesced (b :: l) -> coalesced (true :: l).
Proof. destruct l; simpl; [done|]. tauto. Qed.

Lemma coalesced_carve l1 rd s size l2 :
  coalesced ((b_busy <$> l1) ++ false :: (b_busy <$> l2)) ->
  coalesced (b_busy <$> l1 ++ taken rd s size :: rest_of rd s size ++ l2).
Proof.
  intros [H1 H2]%coalesced_app. rewrite fmap_app, fmap_cons, fmap_app. simpl.
  apply coalesced_app. split; [by eapply coalesced_busy_last|].
  unfold rest_of. case_match; simpl; [by eapply coalesced_busy_first|done].
Qed.

Lemma free_bytes_carve l1 rd s size l2 :
  free_bytes (l1 ++ taken rd s size :: rest_of rd s size ++ l2) =
    free_bytes (l1 ++ Block rd s false :: l2) - b_size (taken rd s size).
Proof.
  unfold taken, rest_of. rewrite !free_bytes_app. cbn [free_bytes b_busy b_size].
  rewrite free_bytes_app. case_match; simpl; lia.
Qed.

Lemma used_head_busy p lists bs :
  lists_ok p lists -> filed lists bs -> (exists b, b ∈ bs /\ b_busy b = true) ->
  busylist p <> MEMPOOL_NULL.
Proof.
  intros Hok Hf (b & Hb & Hbb).
  assert (member lists 5 (b_off b)) as (l & Hl & Hin).
  { apply Hf. exists b. unfold block_home. by rewrite Hbb. }
  destruct (lists_head _ _ _ _ Hok Hl) as (x & Hx & D).
  rewrite heads_busy in Hx by apply (lo_length _ _ Hok). injection Hx as <-.
  intros E. apply (dlist_null _ _ _ D) in E as ->. by apply elem_of_nil in Hin.
Qed.

(** The blocks a fitting free header belongs to. *)
Lemma fits_block p lists bs cap lp size a :
  tiles (mem p) MEMPOOL_NULL 0 bs lp cap MEMPOOL_NULL -> filed lists bs -> fits p lists size a ->
  exists bs1 s bs2, bs = bs1 ++ Block a s false :: bs2 /\ size <= s /\
    member lists (Z.to_nat (get_freeidx s)) a.
Proof.
  intros Ht Hf [(k & Hk & Hm) Hs]. pose proof Hm as (b & Hb & <- & Hh)%Hf.
  destruct (proj2 (tiles_bounds _ _ _ _ _ _ _ Ht) _ Hb) as (_ & _ & _ & n & Hn & _ & Hsz & _).
  unfold size_at in Hs. rewrite Hn in Hs. simpl in Hs. unfold block_home in Hh.
  destruct b as [o s f]. simpl in *. destruct f; [lia|].
  apply list_elem_of_split in Hb as (bs1 & bs2 & ->). exists bs1, s, bs2.
  split; [done|]. split; [lia|]. by rewrite Hh.
Qed.

Lemma filed_carve lists lists' l5 rd s size bs1 bs2 :
  NoDup (b_off <$> bs1 ++ Block rd s false :: bs2) ->
  (forall k a, a <> rd -> member lists k a <->
    exists b, b ∈ bs1 ++ bs2 /\ b_off b = a /\ block_home b = k) ->
  (forall k a, member lists' k a <-> (a <> rd /\ member lists k a) \/
    exists b, b ∈ rest_of rd s size /\ b_off b = a /\ block_home b = k) ->
  lists' !! 5%nat = Some l5 ->
  filed (<[5%nat := rd :: l5]> lists') (bs1 ++ taken rd s size :: rest_of rd s size ++ bs2).
Proof.
  intros Hnd Hf Hm H5 k a. rewrite (member_push _ _ _ _ _ _ H5), Hm.
  rewrite fmap_app, fmap_cons, <- Permutation_middle, <- fmap_app in Hnd.
  apply NoDup_cons in Hnd as [Hrd _]. simpl in Hrd.
  setoid_rewrite elem_of_app. setoid_rewrite elem_of_cons. setoid_rewrite elem_of_app.
  split.
  - intros [[-> ->]|[[Ha Hl]|(b & Hb & ? & ?)]].
    + exists (taken rd s size). split; [tauto|done].
    + apply Hf in Hl as (b & Hb & ? & ?); [|done]. exists b. rewrite elem_of_app in Hb. tauto.
    + exists b. tauto.
  - intros (b & Hb & Hba & Hbk).
    assert (b ∈ bs1 ++ bs2 -> (a <> rd /\ member lists k a)) as Hold.
    { intros Hin. assert (a <> rd) as Ha.
      { intros ->. apply Hrd. rewrite <- Hba. by apply list_elem_of_fmap_2. }
      split; [done|]. apply Hf; [done|]. by exists b. }
    rewrite elem_of_app in Hold. destruct Hb as [Hb|[->|[Hb|Hb]]].
    + right; left; tauto.
    + left. by subst.
    + right; right. by exists b.
    + right; left; tauto.
Qed.

Lemma heads_set_busy p x :
  length (freelist p) = 5%nat -> heads (with_busylist p x) = <[5%nat := x]> (heads p).
Proof. intros Hl. unfold heads. rewrite insert_app_r_alt by lia. by rewrite Hl. Qed.

(** [realdata->next = busylist->offset; busylist->prev = realdata->offset; busylist = realdata] *)
Lemma push_busy_spec p lists l5 rd n :
  lists_ok p lists -> lists !! 5%nat = Some l5 -> mem p !! rd = Some n ->
  rd_prev n = MEMPOOL_NULL -> rd_next n = MEMPOOL_NULL -> rd_offset n = rd ->
  rd <> MEMPOOL_NULL -> rd ∉ concat lists ->
  exists m, (if busylist p =? MEMPOOL_NULL then Some (mem p) else
      b ← mem p !! busylist p;
      m ← st_next (mem p) rd (rd_offset b);
      r ← m !! rd;
      st_prev m (busylist p) (rd_offset r)) = Some m /\
    core <$> m = core <$> mem p /\
    lists_ok (with_busylist (with_mem p m) rd) (<[5%nat := rd :: l5]> lists).
Proof.
  intros Hok H5 Hn Hnp Hnn Hno Hrd Hin. destruct (lo_length _ _ Hok) as [Hf _].
  set (x := busylist p). pose proof (heads_busy p Hf) as Hx. fold x in Hx.
  pose proof (lo_list _ _ Hok _ _ _ Hx H5) as D.
  assert (set_prev MEMPOOL_NULL (set_next x n) = set_next x n) as Esp
    by (destruct n; simpl in *; subst; done).
  assert (exists m, (if x =? MEMPOOL_NULL then Some (mem p) else
      b ← mem p !! x; m ← st_next (mem p) rd (rd_offset b); r ← m !! rd;
      st_prev m x (rd_offset r)) = Some m /\
    st_prev_opt (<[rd := set_prev MEMPOOL_NULL (set_next x n)]> (mem p)) x rd = Some m) as (m & E1 & E2).
  { unfold st_prev_opt. change (null (L := Z) (N := realdata_t)) with MEMPOOL_NULL. rewrite Esp.
    destruct (Z.eqb_spec x MEMPOOL_NULL) as [Ex|Ex].
    - exists (mem p). rewrite decide_True by done. split; [done|]. f_equal.
      apply insert_id. rewrite Hn, Ex. destruct n; simpl in *; subst; done.
    - rewrite decide_False by done. destruct l5 as [|y l5].
      { by apply dlist_null in D as [_ D]; rewrite D in Ex. }
      pose proof (dlist_head _ _ _ _ D) as Exy. rewrite Exy in *.
      assert (y ∈ concat lists) as Hy
        by (apply (member_in_concat _ 5); exists (y :: l5); split; [done|left]).
      pose proof (lo_offset _ _ Hok y Hy) as Ho.
      destruct (mem p !! y) as [ny|] eqn:Hny; [|done]. simpl in Ho. injection Ho as Ho.
      assert (rd <> y) by congruence. bind_simpl. rewrite Ho, (st_next_ok _ _ _ _ Hn). bind_simpl.
      rewrite lookup_insert_eq. bind_simpl. change (rd_offset (set_next y n)) with (rd_offset n).
      rewrite Hno. erewrite st_prev_ok by (rewrite lookup_insert_ne by done; done). eauto. }
  exists m. split; [done|].
  edestruct (push_update p (with_busylist (with_mem p m) rd) lists 5 l5 rd n x m)
    as (Hc & _ & Hok'); try done.
  by apply (heads_set_busy (with_mem p m)).
Qed.

(** What an allocation does to the blocks. *)
Lemma carved_used p p' lists lists' l5 lp bs1 rd s size bs2 cap m :
  sizeof_realdata <= cap < MEMPOOL_NULL -> pool_size p = cap + sizeof_mempool ->
  tiles (mem p) MEMPOOL_NULL 0 (bs1 ++ Block rd s false :: bs2) lp cap MEMPOOL_NULL ->
  leftsize p = free_bytes (bs1 ++ Block rd s false :: bs2) ->
  coalesced (b_busy <$> bs1 ++ Block rd s false :: bs2) ->
  (forall k a, a <> rd -> member lists k a <->
    exists b, b ∈ bs1 ++ bs2 /\ b_off b = a /\ block_home b = k) ->
  split_result p p' lists lists' bs1 rd s size bs2 cap ->
  lists' !! 5%nat = Some l5 -> core <$> m = core <$> mem p' ->
  lists_ok (with_busylist (with_mem p' m) rd) (<[5%nat := rd :: l5]> lists') ->
  exists r, m !! rd = Some r /\ rd_size r = b_size (taken rd s size) /\
    used_pool (with_leftsize (with_busylist (with_mem p' m) rd)
                 (wrap 24 (leftsize p' - rd_size r)))
      cap (bs1 ++ taken rd s size :: rest_of rd s size ++ bs2).
Proof.
  intros Hcap Hps Ht Hleft Hco Hfile R H5 Hm Hok'.
  destruct (sp_tiles _ _ _ _ _ _ _ _ _ _ R) as [lp' T1].
  assert (tiles m MEMPOOL_NULL 0 (bs1 ++ taken rd s size :: rest_of rd s size ++ bs2) lp' cap MEMPOOL_NULL)
    as T2 by by eapply tiles_core.
  destruct (tiles_mid _ _ _ _ _ _ _ _ _ T2) as (rp & r & Hr & Hf & _ & _ & Hb0 & Hbs & Hb1).
  change (b_off (taken rd s size)) with rd in Hr, Hf, Hb0.
  exists r. split; [done|]. split; [by injection Hf|].
  injection Hf as _ Hrs _ _ _.
  change (rd_size r = b_size (taken rd s size)) in Hrs. rewrite Hrs.
  pose proof (tiles_free_bytes _ _ _ _ _ _ _ Ht) as Hfb.
  pose proof (tiles_free_bytes _ _ _ _ _ _ _ T2) as Hfb'.
  rewrite free_bytes_carve in Hfb'.
  split; try done; cbn [pool_size leftsize mem busylist with_leftsize with_busylist with_mem].
  - by rewrite (sp_size _ _ _ _ _ _ _ _ _ _ R).
  - by exists lp'.
  - exists (<[5%nat := rd :: l5]> lists'). split.
    + by eapply lists_frame.
    + eapply filed_carve; [|done|apply R|done]. by eapply tiles_NoDup.
  - rewrite (sp_left _ _ _ _ _ _ _ _ _ _ R), Hleft, free_bytes_carve, wrap_small; [done|].
    unfold MEMPOOL_NULL, sizeof_realdata in *. lia.
  - apply coalesced_carve. by rewrite fmap_app in Hco.
  - exists (taken rd s size). split; [|done]. apply elem_of_app. right. left.
Qed.

(** The end of an allocation: the block goes on the busy list. *)
Lemma finish_alloc p p' lists lists' lp bs1 rd s size bs2 cap :
  sizeof_realdata <= cap < MEMPOOL_NULL -> pool_size p = cap + sizeof_mempool ->
  sizeof_realdata <= size <= s ->
  tiles (mem p) MEMPOOL_NULL 0 (bs1 ++ Block rd s false :: bs2) lp cap MEMPOOL_NULL ->
  leftsize p = free_bytes (bs1 ++ Block rd s false :: bs2) ->
  coalesced (b_busy <$> bs1 ++ Block rd s false :: bs2) ->
  (forall k a, a <> rd -> member lists k a <->
    exists b, b ∈ bs1 ++ bs2 /\ b_off b = a /\ block_home b = k) ->
  split_result p p' lists lists' bs1 rd s size bs2 cap ->
  exists m r, (if busylist p' =? MEMPOOL_NULL then Some (mem p') else
      b ← mem p' !! busylist p';
      m ← st_next (mem p') rd (rd_offset b);
      r ← m !! rd;
      st_prev m (busylist p') (rd_offset r)) = Some m /\
    m !! rd = Some r /\
    used_pool (with_leftsize (with_busylist (with_mem p' m) rd)
                 (wrap 24 (leftsize p' - rd_size r)))
      cap (bs1 ++ taken rd s size :: rest_of rd s size ++ bs2).
Proof.
  intros Hcap Hps Hsize Ht Hleft Hco Hfile R.
  pose proof (sp_lists _ _ _ _ _ _ _ _ _ _ R) as O1. pose proof (sp_member _ _ _ _ _ _ _ _ _ _ R) as M1.
  pose proof (sp_links _ _ _ _ _ _ _ _ _ _ R) as K1.
  destruct (lookup_lt_is_Some_2 lists' 5) as [l5 Hl5]; [rewrite (proj2 (lo_length _ _ O1)); lia|].
  destruct (sp_tiles _ _ _ _ _ _ _ _ _ _ R) as [lp' T1].
  destruct (tiles_mid _ _ _ _ _ _ _ _ _ T1) as (rp' & r & Hr & Hfr & _ & _ & Hb0 & Hbs & Hb1).
  unfold sizeof_realdata in *.
  change (b_off (taken rd s size)) with rd in *.
  rewrite Hr in K1. simpl in K1.
  unfold links in K1. injection K1 as Kp Kn. injection Hfr as Hro _ _ _ _.
  destruct (push_busy_spec p' lists' l5 rd r O1 Hl5 Hr) as (m & Em & Cm & Om); try done.
  { unfold MEMPOOL_NULL in *. lia. }
  { intros (j & [[? _]|(b & Hb' & Hba & _)]%M1)%member_concat; [done|].
    unfold rest_of in Hb'. case_match; [by apply elem_of_nil in Hb'|].
    apply list_elem_of_singleton in Hb' as ->. simpl in Hba. lia. }
  destruct (carved_used p p' lists lists' l5 lp bs1 rd s size bs2 cap m) as (r' & Hr' & _ & U);
    try done.
  by exists m, r'.
Qed.

(** Allocation from a pool in use: the search fails, or a free block that is large enough is
    cut and its first part becomes busy. *)
Lemma alloc_used p cap bs size :
  used_pool p cap bs -> sizeof_realdata <= size ->
  alloc_in_pool p size = Some (p, MEMPOOL_NULL) \/
  exists p' bs1 s bs2 a, alloc_in_pool p size = Some (p', a) /\ a <> MEMPOOL_NULL /\
    bs = bs1 ++ Block a s false :: bs2 /\ size <= s /\
    used_pool p' cap (bs1 ++ taken a s size :: rest_of a s size ++ bs2).
Proof.
  intros U Hsize. pose proof U as [Hcap Hps [lp Ht] (lists & Hok & Hfile) Hleft Hco Hbusy].
  pose proof (proj2 Hcap) as Hcap1. destruct (lo_length _ _ Hok) as [Hf5 Hl6].
  pose proof (used_head_busy _ _ _ Hok Hfile Hbusy) as Hb.
  unfold alloc_in_pool. rewrite (proj2 (Z.eqb_neq _ _) Hb). cbn [negb].
  unfold get_availdata. destruct (get_freelist_loop_spec p size Hf5) as (fl & i & E & Hi & Hz & H4 & _).
  assert (0 <= i <= 4) as Hi' by (pose proof (get_freeidx_range size); lia).
  unfold mempool_get_freelist. rewrite E. bind_simpl.
  destruct (Z.eqb_spec fl MEMPOOL_NULL) as [->|Hfl].
  { left. cbn [availdata_from search_list]. rewrite Z.eqb_refl. bind_simpl.
    rewrite Z.eqb_refl. bind_simpl. rewrite Z.eqb_refl. by rewrite andb_false_r. }
  destruct (availdata_from_spec p lists size Hok 5 fl i) as (a & Ea & Ha & _); [lia|lia|done|done|].
  rewrite Ea. bind_simpl. destruct Ha as [->|Ha]; [left; by rewrite Z.eqb_refl|].
  right. destruct (fits_block _ _ _ _ _ _ _ Ht Hfile Ha) as (bs1 & s & bs2 & -> & Hs & Hm).
  destruct (tiles_mid _ _ _ _ _ _ _ _ _ Ht) as (rp & n & Hn & Hf & _ & _ & Hb1 & Hbs & Hb2).
  simpl in Hn, Hf, Hb1, Hbs, Hb2.
  assert (a <> MEMPOOL_NULL) as Han by (unfold sizeof_realdata in *; lia).
  rewrite (proj2 (Z.eqb_neq _ _) Han).
  destruct Hm as (l & Hl & (l1 & l2 & ->)%list_elem_of_split).
  set (k := Z.to_nat (get_freeidx s)) in *.
  assert (Z.of_nat k = get_freeidx s) as Hk by (pose proof (get_freeidx_range s); lia).
  assert (k < 5)%nat as Hk5 by (pose proof (get_freeidx_range s); lia).
  set (p0 := with_failed p 0).
  assert (lists_ok p0 lists) as Hok0 by by eapply lists_frame.
  destruct (freelist_at _ _ _ _ Hok Hl Hk5) as (x & Hxz & Hx & D).
  assert (x <> MEMPOOL_NULL) as Hxn.
  { intros Ex. apply (dlist_null _ _ _ D) in Ex. by destruct l1. }
  destruct (split_spec p0 lists bs1 bs2 a s size k l1 l2 cap lp x) as (p1 & lists1 & E1 & R); try done.
  - intros c [j Hj]%member_concat. apply (Hfile j c) in Hj as (b & Hb' & <- & _).
    by apply list_elem_of_fmap_2.
  - rewrite Hk. apply get_freelist_class; [done| |done]. by rewrite <- Hk.
  - by rewrite heads_free by (simpl; lia).
  - rewrite E1. bind_simpl.
    destruct (finish_alloc p0 p1 lists lists1 lp bs1 a s size bs2 cap) as (m & r & Em & Hr & U'); try done.
    { intros j c Hc. rewrite (Hfile j c). split; intros (b & Hb' & Hba & Hbh); exists b;
        rewrite elem_of_app, ?elem_of_cons in *; (split; [|done]).
      - destruct Hb' as [?|[->|?]]; [tauto| |tauto]. done.
      - tauto. }
    pose proof (sp_busy _ _ _ _ _ _ _ _ _ _ R) as Hb1'. change (busylist p0) with (busylist p) in Hb1'.
    rewrite Hb1' in *. rewrite (proj2 (Z.eqb_neq _ _) Hb) in Em. revert Em.
    destruct (mem p1 !! busylist p) as [b|]; [|done]. bind_simpl.
    destruct (st_next (mem p1) a (rd_offset b)) as [m1|]; [|done]. bind_simpl.
    destruct (m1 !! a) as [r1|] eqn:Hr1; [|done]. bind_simpl. intros Em. rewrite Em. bind_simpl.
    assert (rd_size r1 = rd_size r) as Hrr.
    { apply st_prev_Some in Em as (nb & Hnb & ->). revert Hr.
      destruct (decide (busylist p = a)) as [Eba|].
      - rewrite Eba in *. rewrite lookup_insert_eq. rewrite Hr1 in Hnb.
        injection Hnb as <-. by intros [= <-].
      - rewrite lookup_insert_ne by done. rewrite Hr1. by intros [= <-]. }
    exists (with_leftsize (with_busylist (with_mem p1 m) a) (wrap 24 (leftsize p1 - rd_size r))), bs1, s, bs2, a.
    by rewrite Hrr.
Qed.

(** ** The first allocation of a pool *)

Definition fresh_lists : list (list Z) := [[]; []; []; []; [0]; []].

Lemma member_fresh k a : member fresh_lists k a <-> k = 4%nat /\ a = 0.
Proof.
  unfold member, fresh_lists. split.
  - intros (l & Hl & Ha). destruct k as [|[|[|[|[|[|]]]]]]; simplify_eq/=;
      rewrite ?elem_of_nil, ?list_elem_of_singleton in Ha; try done.
  - intros [-> ->]. exists [0]. split; [done|left].
Qed.

Lemma fresh_lists_ok p cap : fresh_pool p cap -> lists_ok p fresh_lists.
Proof.
  intros [Hcap Hps Hf Hb Hl [u H0]]. split.
  - by rewrite Hf.
  - unfold heads. rewrite Hf, Hb. intros i x l Hx Hi.
    destruct i as [|[|[|[|[|[|]]]]]]; simplify_eq/=; try exact (dlist_nil (mem p)).
    exists 0. simpl. split; [done|]. split; [by change (0 <> MEMPOOL_NULL)|]. eexists. split; [exact H0|]. done.
  - simpl. apply NoDup_singleton.
  - simpl. intros a ->%list_elem_of_singleton. by rewrite H0.
Qed.

Lemma fresh_tiles p cap : fresh_pool p cap ->
  tiles (mem p) MEMPOOL_NULL 0 ([] ++ Block 0 cap false :: []) 0 cap MEMPOOL_NULL.
Proof.
  intros [Hcap Hps Hf Hb Hl [u H0]]. simpl. split; [done|]. split; [lia|]. rewrite H0. done.
Qed.

Lemma fresh_get p cap size : fresh_pool p cap -> mempool_get_freelist p size = Some (0, 4).
Proof.
  intros F. assert (length (freelist p) = 5%nat) as Hl by by rewrite (fp_freelist _ _ F).
  destruct (get_freelist_loop_spec p size Hl) as (fl & i & E & Hi & Hz & H4 & _).
  unfold mempool_get_freelist. rewrite E. bind_simpl. rewrite (fp_freelist _ _ F) in Hz.
  pose proof (get_freeidx_range size).
  assert (i = 0 \/ i = 1 \/ i = 2 \/ i = 3 \/ i = 4) as Hc by lia.
  destruct Hc as [->|[->|[->|[->| ->]]]]; injection Hz as <-; try (by specialize (H4 eq_refl)); done.
Qed.

(** The head of a list with the only member [a]. *)
Lemma single_head p lists k a :
  lists_ok p lists -> (k < 6)%nat -> (forall b, member lists k b <-> b = a) ->
  heads p !! k = Some a.
Proof.
  intros Hok Hk Hm. destruct (lookup_lt_is_Some_2 lists k) as [l Hl];
    [rewrite (proj2 (lo_length _ _ Hok)); lia|].
  destruct (lists_head _ _ _ _ Hok Hl) as (x & Hx & D). rewrite Hx. f_equal.
  destruct l as [|y l].
  - destruct (proj2 (Hm a) eq_refl) as (l & Hl' & Ha). simplify_eq. by apply elem_of_nil in Ha.
  - rewrite (dlist_head _ _ _ _ D). apply Hm. exists (y :: l). split; [done|left].
Qed.

Lemma empty_head p lists k :
  lists_ok p lists -> (k < 6)%nat -> (forall b, ~ member lists k b) ->
  heads p !! k = Some MEMPOOL_NULL.
Proof.
  intros Hok Hk Hm. destruct (lookup_lt_is_Some_2 lists k) as [l Hl];
    [rewrite (proj2 (lo_length _ _ Hok)); lia|].
  destruct (lists_head _ _ _ _ Hok Hl) as (x & Hx & D). rewrite Hx. f_equal.
  apply (dlist_null _ _ _ D). destruct l as [|y l]; [done|].
  destruct (Hm y). exists (y :: l). split; [done|left].
Qed.

Lemma set_head_same p i x :
  length (freelist p) = 5%nat -> (i < 5)%nat -> heads p !! i = Some x ->
  set_head p (Z.of_nat i) x = Some p.
Proof.
  intros Hl Hi Hx. rewrite set_head_ok by lia. rewrite heads_free in Hx by lia.
  rewrite list_insert_id by done. by destruct p.
Qed.

Lemma alloc_fresh p cap size :
  fresh_pool p cap -> sizeof_realdata <= size <= cap ->
  exists p', alloc_in_pool p size = Some (p', 0) /\
    used_pool p' cap (taken 0 cap size :: rest_of 0 cap size).
Proof.
  intros F Hsize. pose proof F as [Hcap Hps Hf Hb Hl _]. pose proof (fresh_lists_ok _ _ F) as Hok.
  pose proof (fresh_tiles _ _ F) as Ht. pose proof (proj2 Hcap) as Hcap1.
  destruct (split_spec p fresh_lists [] [] 0 cap size 4 [] [] cap 0 0) as (p1 & lists1 & E1 & R);
    try done; try lia.
  { by apply (fresh_get p cap). }
  { unfold heads. by rewrite Hf. }
  pose proof (sp_lists _ _ _ _ _ _ _ _ _ _ R) as O1. pose proof (proj1 (lo_length _ _ O1)) as Hf1.
  assert (forall k a, member lists1 k a <->
    exists b, b ∈ rest_of 0 cap size /\ b_off b = a /\ block_home b = k) as M1.
  { intros k a. rewrite (sp_member _ _ _ _ _ _ _ _ _ _ R), member_fresh. tauto. }
  destruct (finish_alloc p p1 fresh_lists lists1 0 [] 0 cap size [] cap) as (m & r & Em & Hr & U);
    try done.
  { simpl. lia. }
  { intros k a Ha. rewrite member_fresh. setoid_rewrite elem_of_nil. naive_solver. }
  rewrite app_nil_l, app_nil_r in U.
  pose proof (sp_busy _ _ _ _ _ _ _ _ _ _ R) as Hb1. rewrite Hb in Hb1.
  rewrite Hb1, Z.eqb_refl in Em. injection Em as <-.
  eexists. split; [|exact U].
  unfold alloc_in_pool. rewrite Hb, Z.eqb_refl. cbn [negb]. rewrite Hf.
  change (znth _ (MEMPOOL_FREELIST_SIZE - 1)) with (Some 0). bind_simpl. rewrite E1. bind_simpl.
  assert ((if negb (first_off (rest_of 0 cap size) MEMPOOL_NULL =? MEMPOOL_NULL) then
           r ← mem p1 !! first_off (rest_of 0 cap size) MEMPOOL_NULL;
           if get_freeidx (rd_size r) =? MEMPOOL_FREELIST_SIZE - 1
           then set_head p1 (MEMPOOL_FREELIST_SIZE - 1) (first_off (rest_of 0 cap size) MEMPOOL_NULL)
           else p ← set_head p1 (MEMPOOL_FREELIST_SIZE - 1) MEMPOOL_NULL;
                set_head p (get_freeidx (rd_size r)) (first_off (rest_of 0 cap size) MEMPOOL_NULL)
         else set_head p1 (MEMPOOL_FREELIST_SIZE - 1) MEMPOOL_NULL) = Some p1) as ->.
  { change (MEMPOOL_FREELIST_SIZE - 1) with (Z.of_nat 4).
    unfold rest_of in *. destruct (whole cap size) eqn:Hw; cbn [first_off b_off].
    - rewrite Z.eqb_refl. cbn [negb]. apply set_head_same; [done|lia|].
      eapply empty_head; [done|lia|]. intros b (c & Hc & _)%M1. by apply elem_of_nil in Hc.
    - assert (0 + size <> MEMPOOL_NULL) as Hsn by (unfold MEMPOOL_NULL in *; lia).
      rewrite (proj2 (Z.eqb_neq _ _) Hsn). cbn [negb].
      set (j := Z.to_nat (get_freeidx (cap - size))).
      pose proof (get_freeidx_range (cap - size)) as Hj.
      assert (forall k b, member lists1 k b <-> b = 0 + size /\ k = j) as M2.
      { intros k b. rewrite M1. setoid_rewrite list_elem_of_singleton. naive_solver. }
      destruct (sp_tiles _ _ _ _ _ _ _ _ _ _ R) as [lp' T1]. unfold taken, rest_of in T1.
      rewrite Hw in T1. destruct T1 as (_ & _ & _ & (_ & _ & Hf2 & _)).
      cbn [b_off b_size app] in Hf2.
      destruct (mem p1 !! (0 + size)) as [n|]; [|done]. bind_simpl.
      simpl in Hf2. injection Hf2 as _ Hns _ _ _. rewrite Hns.
      assert (Z.of_nat j = get_freeidx (cap - size)) as <- by lia.
      assert (heads p1 !! j = Some (0 + size)) as Hhj.
      { eapply single_head; [done|lia|]. intros b. rewrite M2. tauto. }
      destruct (Z.eqb_spec (Z.of_nat j) (Z.of_nat 4)) as [Ej|Ej].
      + rewrite <- Ej. apply set_head_same; [done|lia|done].
      + rewrite set_head_same; [|done|lia|].
        * bind_simpl. apply set_head_same; [done|lia|done].
        * eapply empty_head; [done|lia|]. intros b [_ E]%M2. lia. }
  bind_simpl. rewrite Hr. bind_simpl. by destruct p1.
Qed.

(** ** Releasing *)

Lemma filed_remove lists lists' bs1 b bs2 :
  filed lists (bs1 ++ b :: bs2) -> NoDup (b_off <$> bs1 ++ b :: bs2) ->
  (forall k a, member lists' k a <-> a <> b_off b /\ member lists k a) ->
  filed lists' (bs1 ++ bs2).
Proof.
  intros Hf Hnd Hm k a. rewrite Hm, (Hf k a).
  rewrite fmap_app, fmap_cons, <- Permutation_middle, <- fmap_app in Hnd.
  apply NoDup_cons in Hnd as [Hb _].
  split.
  - intros [Ha (c & Hc & Hca & Hk)]. exists c. split; [|done].
    rewrite elem_of_app, elem_of_cons in Hc. rewrite elem_of_app.
    destruct Hc as [?|[->|?]]; [tauto|congruence|tauto].
  - intros (c & Hc & Hca & Hk). split.
    + intros ->. apply Hb. rewrite <- Hca. by apply list_elem_of_fmap_2.
    + exists c. split; [|done]. rewrite elem_of_app in Hc. rewrite elem_of_app, elem_of_cons. tauto.
Qed.

Lemma filed_add lists lists' bs1 b bs2 :
  filed lists (bs1 ++ bs2) ->
  (forall k a, member lists' k a <-> (a = b_off b /\ k = block_home b) \/ member lists k a) ->
  filed lists' (bs1 ++ b :: bs2).
Proof.
  intros Hf Hm k a. rewrite Hm, (Hf k a). setoid_rewrite elem_of_app. setoid_rewrite elem_of_cons.
  split.
  - intros [[-> ->]|(c & Hc & ?)]; [exists b; tauto|exists c; tauto].
  - intros (c & [Hc|[->|Hc]] & <- & <-); [right; exists c; tauto|by left|right; exists c; tauto].
Qed.

(** A block without neighbours in order: [h] has size [t] and status [f], the blocks [L]
    lead up to it and the blocks [R] follow it, but the first of [R] may still point to a
    header that was absorbed. *)
Record gap (m : gmap Z realdata_t) (L : list block) (h t : Z) (f : bool) (R : list block)
    (cap : Z) : Prop := Gap {
  gap_header : exists rp n, m !! h = Some n /\
    fields n = (h, t, Z.b2z f, rp, first_off R MEMPOOL_NULL) /\
    tiles m MEMPOOL_NULL 0 L rp h h;
  gap_right : exists q lp, tiles m q (h + t) R lp cap MEMPOOL_NULL;
  gap_size : 0 <= h /\ sizeof_realdata <= t;
}.

Lemma gap_core m m' L h t f R cap : core <$> m' = core <$> m -> gap m L h t f R cap -> gap m' L h t f R cap.
Proof.
  intros Hc [(rp & n & Hn & Hf & HL) (q & lp & HR) Hs].
  destruct (fields_lookup m m' h n) as (n' & Hn' & Hf'); [by apply fields_eq|done|].
  split; [|exists q, lp; by eapply tiles_core|done].
  exists rp, n'. split; [done|]. split; [congruence|]. by eapply tiles_core.
Qed.

Lemma gap_start m a s f bs1 bs2 lp cap :
  tiles m MEMPOOL_NULL 0 (bs1 ++ Block a s f :: bs2) lp cap MEMPOOL_NULL -> gap m bs1 a s f bs2 cap.
Proof.
  intros (rp & n & Hn & Hf & H1 & H2 & Hb & Hs & _)%tiles_mid. split; eauto 10.
Qed.

Lemma gap_above m L h t f R cap b :
  gap m L h t f R cap -> b ∈ R -> h < b_off b.
Proof.
  intros [_ (q & lp & HR) [? ?]] Hb. destruct (proj2 (tiles_bounds _ _ _ _ _ _ _ HR) _ Hb) as [? _].
  unfold sizeof_realdata in *. lia.
Qed.

Lemma gap_below m L h t f R cap b :
  gap m L h t f R cap -> b ∈ L -> b_off b < h.
Proof.
  intros [(rp & n & _ & _ & HL) _ _] Hb.
  destruct (proj2 (tiles_bounds _ _ _ _ _ _ _ HL) _ Hb) as (_ & ? & ? & _).
  unfold sizeof_realdata in *. lia.
Qed.

(** [freeheader = realprev; freeheader->size += size; freeheader->realnext = realnext] *)
Lemma gap_merge_left m L o so g a s f R cap n r :
  gap m (L ++ [Block o so g]) a s f R cap -> m !! a = Some n -> m !! o = Some r ->
  gap (<[o := set_realnext (rd_realnext n) (set_size (rd_size r + rd_size n) r)]> m)
    L o (so + s) g R cap.
Proof.
  intros [(rp & n' & Hn' & Hf & HL) (q & lp & HR) [Ha Hs]] Hn Hr. simplify_eq.
  apply tiles_app in HL as (p & o' & HL & HO). destruct HO as (Ho & Hso & Hfo & HO).
  simpl in Ho, Hso, Hfo, HO. rewrite <- Ho in *. clear o' Ho. destruct HO as [Hoa <-].
  rewrite Hr in Hfo. simpl in Hfo. unfold fields in Hf, Hfo. injection Hf as Hno Hns Hnst Hnrp Hnrn.
  injection Hfo as Hro Hrs Hrst Hrrp Hrrn. unfold sizeof_realdata in *.
  assert (0 <= o) as Ho0 by apply (tiles_bounds _ _ _ _ _ _ _ HL).
  split.
  - eexists p, _. split; [apply lookup_insert_eq|]. split.
    + unfold fields. simpl. rewrite Hro, Hrs, Hns, Hrst, Hrrp, Hnrn. done.
    + eapply tiles_frame; [|exact HL]. intros b Hb.
      destruct (proj2 (tiles_bounds _ _ _ _ _ _ _ HL) _ Hb) as (_ & ? & ? & _).
      unfold sizeof_realdata in *. rewrite lookup_insert_ne; [done|lia].
  - exists q, lp. replace (o + (so + s)) with (a + s) by lia.
    eapply tiles_frame; [|exact HR]. intros b Hb.
    destruct (proj2 (tiles_bounds _ _ _ _ _ _ _ HR) _ Hb) as (? & _).
    rewrite lookup_insert_ne; [done|lia].
  - unfold sizeof_realdata. lia.
Qed.

(** [freeheader->size += realnext->size; freeheader->realnext = realnext->realnext] *)
Lemma gap_merge_right m L h t f o so g R cap n r :
  gap m L h t f (Block o so g :: R) cap -> m !! h = Some n -> m !! o = Some r ->
  gap (<[h := set_realnext (rd_realnext r) (set_size (rd_size n + rd_size r) n)]> m)
    L h (t + so) f R cap.
Proof.
  intros [(rp & n' & Hn' & Hf & HL) (q & lp & HR) [Ha Hs]] Hn Hr. simplify_eq.
  destruct HR as (Ho & Hso & Hfo & HR). simpl in Ho, Hso, Hfo, HR. rewrite <- Ho in Hfo, HR.
  rewrite Hr in Hfo. simpl in Hfo. unfold fields in Hf, Hfo. injection Hf as Hno Hns Hnst Hnrp Hnrn.
  injection Hfo as Hro Hrs Hrst Hrrp Hrrn. unfold sizeof_realdata in *. split.
  - eexists rp, _. split; [apply lookup_insert_eq|]. split.
    + unfold fields. simpl. rewrite Hno, Hns, Hrs, Hnst, Hnrp, Hrrn. done.
    + eapply tiles_frame; [|exact HL]. intros b Hb.
      destruct (proj2 (tiles_bounds _ _ _ _ _ _ _ HL) _ Hb) as (_ & ? & ? & _).
      unfold sizeof_realdata in *. rewrite lookup_insert_ne; [done|lia].
  - exists o, lp. replace (h + (t + so)) with (o + so) by lia.
    eapply tiles_frame; [|exact HR]. intros b Hb.
    destruct (proj2 (tiles_bounds _ _ _ _ _ _ _ HR) _ Hb) as (? & _).
    rewrite lookup_insert_ne; [done|lia].
  - unfold sizeof_realdata. lia.
Qed.

(** [if (freeheader->realnext != MEMPOOL_NULL) realnext->realprev = freeheader->offset] *)
Lemma gap_close m L h t f R cap :
  gap m L h t f R cap -> cap < MEMPOOL_NULL ->
  exists m' lp, st_realprev_opt m (first_off R MEMPOOL_NULL) h = Some m' /\
    tiles m' MEMPOOL_NULL 0 (L ++ Block h t f :: R) lp cap MEMPOOL_NULL /\
    (forall a, links <$> m' !! a = links <$> m !! a) /\
    (forall a, rd_offset <$> m' !! a = rd_offset <$> m !! a) /\ m' !! h = m !! h.
Proof.
  intros [(rp & n & Hn & Hf & HL) (q & lp & HR) [Hh Hs]] Hcap. unfold sizeof_realdata in *.
  destruct (st_realprev_tiles m q h (h + t) R lp cap HR) as (m' & E & T & F & K & _ & O);
    [lia|done|].
  exists m', (match R with [] => h | _ => lp end). split; [done|]. split; [|split; [done|split; [done|]]].
  - apply tiles_app. exists rp, h. split.
    + eapply tiles_frame; [|exact HL]. intros b Hb.
      destruct (proj2 (tiles_bounds _ _ _ _ _ _ _ HL) _ Hb) as (_ & ? & ? & _).
      unfold sizeof_realdata in *. rewrite F by lia. done.
    + split; [done|]. split; [done|]. cbn [b_off b_size b_busy]. split; [|done].
      rewrite F, Hn by lia. simpl. by rewrite Hf.
  - apply F. lia.
Qed.

(** The blocks after the busy block of size [s] at [a] has been released: it joins the free
    neighbours it has. *)
Definition join_left (bs1 : list block) (a s : Z) : list block * Z * Z :=
  match reverse bs1 with
  | Block o so false :: r => (reverse r, o, so + s)
  | _ => (bs1, a, s)
  end.

Definition join_right (t : Z) (bs2 : list block) : Z * list block :=
  match bs2 with
  | Block _ so false :: r => (t + so, r)
  | _ => (t, bs2)
  end.

Definition coalesce (bs1 : list block) (a s : Z) (bs2 : list block) : list block :=
  let '(L, h, t) := join_left bs1 a s in
  let '(t, R) := join_right t bs2 in
  L ++ Block h t false :: R.

Definition ends_busy (bs : list block) : Prop :=
  bs = [] \/ exists L o so, bs = L ++ [Block o so true].
Definition starts_busy (bs : list block) : Prop :=
  bs = [] \/ exists o so R, bs = Block o so true :: R.

Lemma join_left_cases bs1 a s :
  (exists L o so, bs1 = L ++ [Block o so false] /\ join_left bs1 a s = (L, o, so + s)) \/
  (ends_busy bs1 /\ join_left bs1 a s = (bs1, a, s)).
Proof.
  unfold join_left, ends_busy. destruct bs1 as [|b L _] using rev_ind; [right; split; [by left|done]|].
  rewrite reverse_snoc. destruct b as [o so []].
  - right. split; [right; eauto|done].
  - left. exists L, o, so. by rewrite reverse_involutive.
Qed.

Lemma join_right_cases t bs2 :
  (exists o so R, bs2 = Block o so false :: R /\ join_right t bs2 = (t + so, R)) \/
  (starts_busy bs2 /\ join_right t bs2 = (t, bs2)).
Proof.
  unfold join_right, starts_busy. destruct bs2 as [|[o so []] R].
  - right. split; [by left|done].
  - right. split; [right; eauto|done].
  - left. eauto.
Qed.

Definition same_admin (p p' : pool) : Prop :=
  busylist p' = busylist p /\ pool_size p' = pool_size p /\ leftsize p' = leftsize p.

Lemma same_admin_trans p1 p2 p3 : same_admin p1 p2 -> same_admin p2 p3 -> same_admin p1 p3.
Proof. unfold same_admin. intros (? & ? & ?) (? & ? & ?). split_and!; congruence. Qed.

(** A free block that is on its list is taken off it. *)
Lemma unfile_spec p lists bs1 b bs2 n :
  lists_ok p lists -> filed lists (bs1 ++ b :: bs2) -> NoDup (b_off <$> bs1 ++ b :: bs2) ->
  b_busy b = false -> mem p !! b_off b = Some n -> rd_size n = b_size b ->
  exists p' lists', remove_freenode p (b_off b) (-1) = Some p' /\ relinked p p' /\
    same_admin p p' /\ lists_ok p' lists' /\ filed lists' (bs1 ++ bs2).
Proof.
  intros Hok Hf Hnd Hb Hn Hs. set (k := block_home b).
  assert (k = Z.to_nat (get_freeidx (b_size b))) as Hk by (unfold k, block_home; by rewrite Hb).
  pose proof (get_freeidx_range (b_size b)) as Hr.
  assert (member lists k (b_off b)) as (l & Hl & (l1 & l2 & ->)%list_elem_of_split).
  { apply Hf. exists b. split; [|done]. apply elem_of_app. right. left. }
  destruct (remove_freenode_spec p lists k l1 (b_off b) l2 n (-1)) as (p' & E & R & B & _ & O);
    [done|done|lia|done| |].
  { rewrite Z.eqb_refl, Hs. lia. }
  exists p', (<[k := l1 ++ l2]> lists). split; [done|]. split; [done|].
  split; [split; [done|split; [apply R|apply R]]|]. split; [done|].
  eapply filed_remove; [done..|]. intros j a.
  by apply (member_remove lists k l1 (b_off b) l2 j a (lo_distinct _ _ Hok)).
Qed.

Lemma gap_NoDup m L h t f R cap : gap m L h t f R cap -> NoDup (b_off <$> L ++ R).
Proof.
  intros G. pose proof G as [(rp & n & _ & _ & HL) (q & lp & HR) _]. rewrite fmap_app.
  apply NoDup_app. split; [by eapply tiles_NoDup|]. split; [|by eapply tiles_NoDup].
  intros x (b & -> & Hb)%list_elem_of_fmap (c & E & Hc)%list_elem_of_fmap.
  pose proof (gap_below _ _ _ _ _ _ _ _ G Hb). pose proof (gap_above _ _ _ _ _ _ _ _ G Hc). lia.
Qed.

Lemma NoDup_middle {A} (l1 : list A) x l2 : NoDup (l1 ++ x :: l2) -> NoDup (l1 ++ l2).
Proof. rewrite <- Permutation_middle. by intros [_ ?]%NoDup_cons. Qed.

(** The header at an unlisted offset may change anything but its own offset. *)
Lemma lists_ok_unlisted p lists a n n' :
  lists_ok p lists -> mem p !! a = Some n -> links n' = links n -> rd_offset n' = rd_offset n ->
  lists_ok (with_mem p (<[a := n']> (mem p))) lists.
Proof.
  intros Hok Hn Hl Ho. eapply lists_frame; [done|done|done| |]; intros b _; simpl;
    (destruct (decide (a = b)) as [<-|]; [by rewrite lookup_insert_eq, Hn; simpl; f_equal|
     by rewrite lookup_insert_ne]).
Qed.

Lemma merge_prev_spec p lists bs1 a s bs2 lp cap :
  lists_ok p lists -> filed lists (bs1 ++ bs2) -> cap < MEMPOOL_NULL ->
  tiles (mem p) MEMPOOL_NULL 0 (bs1 ++ Block a s true :: bs2) lp cap MEMPOOL_NULL ->
  exists p1 L h t f lists1, merge_prev p a = Some (p1, h) /\ join_left bs1 a s = (L, h, t) /\
    gap (mem p1) L h t f bs2 cap /\ h + t = a + s /\ lists_ok p1 lists1 /\
    filed lists1 (L ++ bs2) /\ same_admin p p1.
Proof.
  intros Hok Hf Hcap Ht. pose proof (gap_start _ _ _ _ _ _ _ _ Ht) as G.
  pose proof G as [(rp & n & Hn & Hfn & HL) _ _].
  destruct (tiles_mid _ _ _ _ _ _ _ _ _ Ht) as (_ & _ & _ & _ & _ & _ & Ha & Has & Hab).
  simpl in Ha, Has, Hab. unfold merge_prev. rewrite Hn. bind_simpl.
  assert (rd_realprev n = rp) as -> by by injection Hfn.
  destruct (join_left_cases bs1 a s) as [(L & o & so & -> & Ej)|[Hend Ej]].
  - pose proof HL as (p' & o' & HL1 & (Ho & Hso & Hfo & (Hoe & <-)))%tiles_app.
    simpl in Ho, Hso, Hfo, Hoe. rewrite <- Ho in *. clear o' Ho.
    pose proof (proj1 (tiles_bounds _ _ _ _ _ _ _ HL1)) as Hob.
    unfold sizeof_realdata in *.
    rewrite (proj2 (Z.eqb_neq _ _)) by (unfold MEMPOOL_NULL in *; lia).
    destruct (mem p !! o) as [r|] eqn:Hr; [|done]. simpl in Hfo. unfold fields in Hfo.
    injection Hfo as Hro Hrs Hrst _ _. bind_simpl. rewrite Hrst, Z.eqb_refl.
    rewrite <- app_assoc in Hf. simpl in Hf.
    pose proof (gap_NoDup _ _ _ _ _ _ _ G) as Hnd. rewrite <- app_assoc in Hnd. simpl in Hnd.
    destruct (unfile_spec p lists L (Block o so false) bs2 r) as
      (p1 & lists1 & E1 & R1 & A1 & O1 & F1); try done.
    simpl in E1. rewrite E1. bind_simpl.
    destruct (fields_lookup (mem p) (mem p1) a n) as (n1 & Hn1 & Hfn1);
      [by apply fields_eq, R1|done|].
    destruct (fields_lookup (mem p) (mem p1) o r) as (r1 & Hr1 & Hfr1);
      [by apply fields_eq, R1|done|].
    rewrite Hn1. bind_simpl. unfold update. rewrite Hr1. bind_simpl.
    assert (rd_size r1 = so) as Hr1s by (unfold fields in Hfr1; congruence).
    assert (rd_size n1 = s) as Hn1s by (unfold fields in *; congruence).
    rewrite (wrap_small 16 (rd_size r1 + rd_size n1)) by (unfold MEMPOOL_NULL in *; lia).
    eexists _, L, o, (so + s), false, lists1. split; [done|]. split; [done|].
    split; [eapply gap_merge_left; [eapply gap_core; [apply R1|exact G]|done|done]|].
    split; [lia|]. split; [|done]. by eapply lists_ok_unlisted.
  - exists p, bs1, a, s, true, lists. split; [|done].
    destruct Hend as [->|(L & o & so & ->)].
    + destruct HL as [_ <-]. by rewrite Z.eqb_refl.
    + apply tiles_app in HL as (p' & o' & HL1 & (Ho & Hso & Hfo & (Hoe & <-))).
      simpl in Ho, Hso, Hfo, Hoe. pose proof (proj1 (tiles_bounds _ _ _ _ _ _ _ HL1)) as Hob.
      unfold sizeof_realdata in *.
      rewrite (proj2 (Z.eqb_neq _ _)) by (unfold MEMPOOL_NULL in *; lia).
      destruct (mem p !! o') as [r|] eqn:Hr; [|done]. simpl in Hfo. unfold fields in Hfo.
      injection Hfo as Hro Hrs Hrst _ _. bind_simpl. by rewrite Hrst.
Qed.

Lemma merge_next_spec p lists L h t f bs2 cap :
  lists_ok p lists -> filed lists (L ++ bs2) -> cap < MEMPOOL_NULL ->
  gap (mem p) L h t f bs2 cap ->
  exists p1 t' R lists1, merge_next p h (first_off bs2 MEMPOOL_NULL) = Some p1 /\
    join_right t bs2 = (t', R) /\ gap (mem p1) L h t' f R cap /\ lists_ok p1 lists1 /\
    filed lists1 (L ++ R) /\ same_admin p p1.
Proof.
  intros Hok Hf Hcap G. pose proof G as [(rp & n & Hn & Hfn & HL) (q & lp & HR) [Hh Hs]].
  unfold merge_next, sizeof_realdata in *.
  destruct (join_right_cases t bs2) as [(o & so & R & -> & Ej)|[Hend Ej]].
  - pose proof HR as (Ho & Hso & Hfo & HR1). simpl in Ho, Hso, Hfo, HR1 |- *.
    pose proof (proj1 (tiles_bounds _ _ _ _ _ _ _ HR1)) as Hob. unfold sizeof_realdata in *.
    rewrite (proj2 (Z.eqb_neq o _)) by (unfold MEMPOOL_NULL in *; lia).
    rewrite <- Ho in Hfo.
    destruct (mem p !! o) as [r|] eqn:Hr; [|done]. simpl in Hfo. unfold fields in Hfo.
    injection Hfo as Hro Hrs Hrst _ _. bind_simpl. rewrite Hrst, Z.eqb_refl.
    destruct (unfile_spec p lists L (Block o so false) R r) as
      (p1 & lists1 & E1 & R1 & A1 & O1 & F1); try done.
    { by eapply gap_NoDup. }
    simpl in E1. rewrite E1. bind_simpl.
    destruct (fields_lookup (mem p) (mem p1) h n) as (n1 & Hn1 & Hfn1);
      [by apply fields_eq, R1|done|].
    destruct (fields_lookup (mem p) (mem p1) o r) as (r1 & Hr1 & Hfr1);
      [by apply fields_eq, R1|done|].
    rewrite Hr1. bind_simpl. unfold update. rewrite Hn1. bind_simpl.
    assert (rd_size r1 = so) as Hr1s by (unfold fields in Hfr1; congruence).
    assert (rd_size n1 = t) as Hn1s by (unfold fields in *; congruence).
    rewrite (wrap_small 16 (rd_size n1 + rd_size r1)) by (unfold MEMPOOL_NULL in *; lia).
    eexists _, (t + so), R, lists1. split; [done|]. split; [done|].
    split; [eapply gap_merge_right; [eapply gap_core; [apply R1|exact G]|done|done]|].
    split; [|done]. by eapply lists_ok_unlisted.
  - exists p, t, bs2, lists. split; [|done].
    destruct Hend as [->|(o & so & R & ->)].
    + by rewrite Z.eqb_refl.
    + destruct HR as (Ho & Hso & Hfo & HR1). simpl in Ho, Hso, Hfo, HR1 |- *.
      pose proof (proj1 (tiles_bounds _ _ _ _ _ _ _ HR1)) as Hob.
      unfold sizeof_realdata in *.
      rewrite (proj2 (Z.eqb_neq o _)) by (unfold MEMPOOL_NULL in *; lia).
      rewrite <- Ho in Hfo. destruct (mem p !! o) as [r|] eqn:Hr; [|done]. simpl in Hfo.
      unfold fields in Hfo. injection Hfo as Hro Hrs Hrst _ _. bind_simpl. by rewrite Hrst.
Qed.

Lemma free_realdata_spec p lists bs1 a s bs2 lp cap :
  lists_ok p lists -> filed lists (bs1 ++ bs2) -> cap < MEMPOOL_NULL ->
  tiles (mem p) MEMPOOL_NULL 0 (bs1 ++ Block a s true :: bs2) lp cap MEMPOOL_NULL ->
  exists p' lists' lp', free_realdata p a = Some p' /\
    tiles (mem p') MEMPOOL_NULL 0 (coalesce bs1 a s bs2) lp' cap MEMPOOL_NULL /\
    lists_ok p' lists' /\ filed lists' (coalesce bs1 a s bs2) /\
    busylist p' = busylist p /\ pool_size p' = pool_size p /\
    leftsize p' = wrap 24 (leftsize p + s).
Proof.
  intros Hok Hf Hcap Ht.
  destruct (tiles_mid _ _ _ _ _ _ _ _ _ Ht) as (rp & n & Hn & Hfn & _). simpl in Hn, Hfn.
  assert (rd_size n = s) as Hns by by injection Hfn.
  assert (rd_realnext n = first_off bs2 MEMPOOL_NULL) as Hnrn by by injection Hfn.
  destruct (merge_prev_spec p lists bs1 a s bs2 lp cap) as
    (p1 & L & h & t & f & lists1 & E1 & J1 & G1 & _ & O1 & F1 & A1); try done.
  destruct (merge_next_spec p1 lists1 L h t f bs2 cap) as
    (p2 & t' & R & lists2 & E2 & J2 & G2 & O2 & F2 & A2); try done.
  pose proof G2 as [(rp2 & n2 & Hn2 & Hfn2 & _) _ [Hh Ht']].
  destruct (gap_close _ _ _ _ _ _ _ G2 Hcap) as (m3 & lp3 & E3 & T3 & K3 & Of3 & S3).
  assert (lists_ok (with_mem p2 m3) lists2) as O3 by by eapply lists_frame.
  assert (rd_offset n2 = h /\ rd_size n2 = t' /\ rd_realnext n2 = first_off R MEMPOOL_NULL)
    as (Hn2o & Hn2s & Hn2n) by (unfold fields in Hfn2; by simplify_eq/=).
  set (k := Z.to_nat (get_freeidx t')). pose proof (get_freeidx_range t') as Hr.
  destruct (lookup_lt_is_Some_2 lists2 k) as [l Hl];
    [rewrite (proj2 (lo_length _ _ O2)); unfold k; lia|].
  assert (forall b, b ∈ L ++ R -> b_off b <> h) as Hne.
  { intros b [Hb|Hb]%elem_of_app; [pose proof (gap_below _ _ _ _ _ _ _ _ G2 Hb)|
      pose proof (gap_above _ _ _ _ _ _ _ _ G2 Hb)]; lia. }
  destruct (add_freenode_spec (with_mem p2 m3) lists2 k l h n2 (-1)) as
    (p4 & E4 & R4 & B4 & _ & O4); try done; [unfold k; lia|simpl; by rewrite S3| | | |].
  { destruct (tiles_mid _ _ _ _ _ _ _ _ _ T3) as (_ & _ & _ & _ & _ & _ & _ & _ & Hle).
    simpl in Hle. unfold sizeof_realdata in *. lia. }
  { intros (j & Hj)%member_concat. apply (F2 j h) in Hj as (b & Hb & E & _). by apply (Hne b Hb). }
  { rewrite Z.eqb_refl, Hn2s. unfold k. lia. }
  assert (tiles (mem p4) MEMPOOL_NULL 0 (L ++ Block h t' f :: R) lp3 cap MEMPOOL_NULL) as T4
    by (eapply tiles_core; [apply R4|done]).
  destruct (tiles_mid _ _ _ _ _ _ _ _ _ T4) as (rp4 & n4 & Hn4 & Hf4 & _). simpl in Hn4, Hf4.
  assert (coalesce bs1 a s bs2 = L ++ Block h t' false :: R) as ->
    by (unfold coalesce; by rewrite J1, J2).
  eexists _, (<[k := h :: l]> lists2), lp3. split; [|split; [|split; [|split; [|split; [|split]]]]].
  - unfold free_realdata. rewrite Hn. bind_simpl. rewrite E1. bind_simpl.
    rewrite Hnrn, E2. bind_simpl. rewrite Hn2. bind_simpl. rewrite Hn2o, Hn2n.
    unfold st_realprev_opt in E3.
    assert ((if negb (first_off R MEMPOOL_NULL =? MEMPOOL_NULL)
       then m ← update (mem p2) (first_off R MEMPOOL_NULL) (set_realprev h); Some (with_mem p2 m)
       else Some p2) = Some (with_mem p2 m3)) as ->.
    { destruct (negb _); [by rewrite E3|]. injection E3 as <-. by destruct p2. }
    bind_simpl. rewrite E4. bind_simpl. unfold update. rewrite Hn4. bind_simpl. reflexivity.
  - simpl. eapply tiles_set_mid; [exact T4|done|]. unfold fields in *. simpl. congruence.
  - eapply lists_frame; [by apply (lists_ok_unlisted p4 _ h n4 (set_status 0 n4) O4)|done..].
  - eapply filed_add; [exact F2|]. intros j b. by rewrite (member_push _ _ _ _ _ _ Hl).
  - simpl. rewrite B4. simpl. destruct A1 as (? & _), A2 as (? & _). congruence.
  - simpl. rewrite (re_size _ _ R4). simpl. destruct A1 as (_ & ? & _), A2 as (_ & ? & _). congruence.
  - simpl. rewrite (re_left _ _ R4), Hns. simpl. destruct A1 as (_ & _ & ?), A2 as (_ & _ & ?).
    congruence.
Qed.

Lemma remove_busy_spec p lists l1 a l2 n :
  lists_ok p lists -> lists !! 5%nat = Some (l1 ++ a :: l2) -> mem p !! a = Some n ->
  exists p', remove_busy p a = Some p' /\ lists_ok p' (<[5%nat := l1 ++ l2]> lists) /\
    (forall b, fields <$> mem p' !! b = fields <$> mem p !! b) /\
    links <$> mem p' !! a = Some (MEMPOOL_NULL, MEMPOOL_NULL) /\
    pool_size p' = pool_size p /\ leftsize p' = leftsize p.
Proof.
  intros Hok H5 Hn. destruct (lo_length _ _ Hok) as [Hf _].
  pose proof (heads_busy p Hf) as Hx. pose proof (lo_list _ _ Hok _ _ _ Hx H5) as D.
  destruct (dlist_unlink _ _ _ _ _ _ D Hn) as (m1 & m2 & E1 & E2 & Hlo & _).
  change (st_next_opt (mem p) (rd_prev n) (rd_next n) = Some m1) in E1.
  change (st_prev_opt m1 (rd_next n) (rd_prev n) = Some m2) in E2.
  pose proof (dlist_NoDup _ _ _ D) as Hnd. pose proof (dlist_prev_null _ _ _ _ _ _ D Hn) as Hp.
  change (rd_prev n = MEMPOOL_NULL <-> l1 = []) in Hp.
  assert (a ∉ l1 ++ l2) as Ha.
  { rewrite <- Permutation_middle in Hnd. by apply NoDup_cons in Hnd as [? _]. }
  assert (m2 !! a = Some n) as Hn2 by (rewrite (proj2 Hlo); done).
  set (p1 := with_busylist (with_mem p m2) (match l1 with [] => rd_next n | _ => busylist p end)).
  assert (exists p0 n0, (if negb (rd_prev n =? MEMPOOL_NULL) then
         m ← st_next (mem p) (rd_prev n) (rd_next n); Some (with_mem p m)
       else
         let p := with_busylist p (rd_next n) in
         m ← st_prev_opt (mem p) (busylist p) MEMPOOL_NULL;
         Some (with_mem p m)) = Some p0 /\ mem p0 !! a = Some n0 /\ rd_next n0 = rd_next n /\
      rd_prev n0 = rd_prev n /\
      (if negb (rd_next n =? MEMPOOL_NULL)
       then st_prev (mem p0) (rd_next n) (rd_prev n) else Some (mem p0)) = Some m2 /\
      with_mem p0 m2 = p1) as (p0 & n0 & F0 & Hn0 & Hn0n & Hn0p & F1 & Ep).
  { unfold st_next_opt, st_prev_opt in *.
    change (null (L := Z) (N := realdata_t)) with MEMPOOL_NULL in *.
    destruct (Z.eqb_spec (rd_prev n) MEMPOOL_NULL) as [Epn|Epn]; cbn [negb busylist with_busylist mem].
    - rewrite decide_True in E1 by done. injection E1 as <-.
      assert (l1 = []) as -> by tauto.
      destruct (Z.eqb_spec (rd_next n) MEMPOOL_NULL) as [Enn|Enn]; cbn [negb].
      + rewrite decide_True in E2 by done. injection E2 as <-. rewrite decide_True by done.
        bind_simpl. exists (with_mem (with_busylist p (rd_next n)) (mem p)), n. done.
      + rewrite decide_False in E2 by done. rewrite decide_False by done. rewrite Epn in E2.
        rewrite E2. bind_simpl. eexists _, n. split; [done|]. split; [done|]. split; [done|].
        split; [done|]. split; [|done]. cbn [mem with_mem]. rewrite Epn.
        apply st_prev_Some in E2 as (nx & Hnx & ->).
        erewrite st_prev_ok by apply lookup_insert_eq. by rewrite insert_insert_eq.
    - rewrite decide_False in E1 by done. rewrite E1. bind_simpl.
      assert (l1 <> []) as Hl1 by tauto. destruct l1 as [|c l1]; [done|].
      assert (m1 !! a = Some n) as Hn1.
      { apply st_next_Some in E1 as (np & Hnp & ->). rewrite lookup_insert_ne; [done|].
        destruct (dlist_neighbours _ _ _ _ _ _ D Hn) as ([?|Hin] & _ & _); [done|].
        change (prev_of n) with (rd_prev n) in Hin. intros E. rewrite E in Hin.
        apply Ha, elem_of_app. by left. }
      eexists (with_mem p m1), n. split; [done|]. split; [done|]. split; [done|]. split; [done|].
      split; [|done]. cbn [mem with_mem].
      destruct (Z.eqb_spec (rd_next n) MEMPOOL_NULL) as [Enn|Enn]; cbn [negb].
      + by rewrite decide_True in E2.
      + by rewrite decide_False in E2. }
  destruct (unlink_update p p1 lists 5 l1 a l2 n (busylist p) m1 m2) as (Hc & Hfr & O1); try done.
  { unfold p1. by rewrite (heads_set_busy (with_mem p m2)). }
  set (n' := set_prev MEMPOOL_NULL (set_next MEMPOOL_NULL n)).
  exists (with_mem p1 (<[a := n']> m2)). split; [|split; [|split; [|split; [|done]]]].
  - unfold remove_busy. rewrite Hn. cbv zeta in F0 |- *. bind_simpl.
    cbn [mbind option_bind] in F0. rewrite F0. bind_simpl. rewrite Hn0. bind_simpl.
    rewrite Hn0n, Hn0p, F1. bind_simpl. unfold update. rewrite Hn2. bind_simpl.
    f_equal. rewrite <- Ep. by destruct p0.
  - eapply lists_frame; [exact O1|done|done| |]; intros b Hb; simpl;
      (rewrite lookup_insert_ne; [done|]; intros <-;
       by apply (concat_notin_insert _ _ _ _ _ (lo_distinct _ _ Hok) H5)).
  - intros b. simpl. rewrite <- (fields_eq _ _ Hc b). simpl.
    destruct (decide (a = b)) as [<-|]; [by rewrite lookup_insert_eq, Hn2|by rewrite lookup_insert_ne].
  - simpl. by rewrite lookup_insert_eq.
Qed.

Lemma coalesce_shape bs1 a s bs2 :
  exists L h t R, coalesce bs1 a s bs2 = L ++ Block h t false :: R /\
    t + free_bytes L + free_bytes R = s + free_bytes bs1 + free_bytes bs2 /\
    (forall b, b_busy b = true -> b ∈ L ++ R <-> b ∈ bs1 ++ bs2) /\
    (bs1 = L /\ ends_busy L \/ exists b, bs1 = L ++ [b] /\ b_busy b = false /\ h = b_off b) /\
    (bs2 = R /\ starts_busy R \/ exists b, bs2 = b :: R /\ b_busy b = false) /\
    (bs1 = L -> h = a).
Proof.
  unfold coalesce. destruct (join_left_cases bs1 a s) as [(L & o & so & -> & ->)|[HL ->]].
  all: match goal with |- context [join_right ?t ?r] =>
    destruct (join_right_cases t r) as [(o2 & so2 & R & -> & ->)|[HR ->]] end.
  all: do 4 eexists; split; [reflexivity|].
  all: rewrite ?free_bytes_app; cbn [free_bytes b_busy b_size].
  all: split; [lia|]; split; [intros b Hb; set_unfold; naive_solver|].
  all: split; [eauto 10|]; split; [eauto 10|].
  all: intros E; try done; apply (f_equal length) in E; rewrite length_app in E; simpl in E; lia.
Qed.

Lemma coalesced_coalesce bs1 a s bs2 :
  coalesced (b_busy <$> bs1 ++ Block a s true :: bs2) -> coalesced (b_busy <$> coalesce bs1 a s bs2).
Proof.
  intros Hc. destruct (coalesce_shape bs1 a s bs2) as (L & h & t & R & -> & _ & _ & HL & HR & _).
  rewrite fmap_app, fmap_cons in Hc |- *. apply coalesced_app in Hc as [H1 H2].
  apply coalesced_app. cbn [b_busy] in *. split.
  - destruct HL as [[-> [->|(L' & o & so & ->)]]|(b & -> & Hb & _)].
    + done.
    + rewrite fmap_app in *. simpl in *. rewrite <- app_assoc in *. simpl in *.
      apply coalesced_app in H1 as [H1 _]. apply coalesced_app. done.
    + rewrite fmap_app in H1. simpl in H1. rewrite Hb, <- app_assoc in H1. simpl in H1.
      by apply coalesced_app in H1 as [H1 _].
  - destruct HR as [[-> [->|(o & so & R' & ->)]]|(b & -> & Hb)].
    + done.
    + simpl in *. tauto.
    + simpl in H2. rewrite Hb in H2. destruct R as [|c R]; [done|]. simpl in *.
      destruct H2 as [_ [? ?]]. done.
Qed.

(** When no other block is busy, what is left is the one block of a fresh pool. *)
Lemma coalesce_all m bs1 a s bs2 lp cap :
  tiles m MEMPOOL_NULL 0 (bs1 ++ Block a s true :: bs2) lp cap MEMPOOL_NULL ->
  coalesced (b_busy <$> bs1 ++ Block a s true :: bs2) ->
  (forall b, b ∈ bs1 ++ bs2 -> b_busy b = false) ->
  coalesce bs1 a s bs2 = [Block 0 cap false].
Proof.
  intros Ht Hc Hfree.
  rewrite fmap_app, fmap_cons in Hc. apply coalesced_app in Hc as [H1 H2].
  assert (forall b, b ∈ bs1 -> b_busy b = false) as F1 by (intros b Hb; apply Hfree, elem_of_app; by left).
  assert (forall b, b ∈ bs2 -> b_busy b = false) as F2 by (intros b Hb; apply Hfree, elem_of_app; by right).
  assert (bs1 = [] \/ exists o so, bs1 = [Block o so false]) as E1.
  { destruct bs1 as [|[o so []] bs1]; [by left|by specialize (F1 _ (list_elem_of_here _ _))|].
    destruct bs1 as [|[o1 so1 []] bs1]; [right; eauto|
      by specialize (F1 _ (list_elem_of_further _ _ _ (list_elem_of_here _ _)))|].
    by destruct H1. }
  assert (bs2 = [] \/ exists o so, bs2 = [Block o so false]) as E2.
  { destruct bs2 as [|[o so []] bs2]; [by left|by specialize (F2 _ (list_elem_of_here _ _))|].
    destruct bs2 as [|[o1 so1 []] bs2]; [right; eauto|
      by specialize (F2 _ (list_elem_of_further _ _ _ (list_elem_of_here _ _)))|].
    by destruct H2 as [_ [? _]]. }
  destruct E1 as [->|(o & so & ->)], E2 as [->|(o2 & so2 & ->)]; cbn in Ht |- *;
    repeat match goal with H : _ /\ _ |- _ => destruct H end;
    subst; repeat f_equal; lia.
Qed.

Lemma busylist_empty p lists bs :
  lists_ok p lists -> filed lists bs ->
  busylist p = MEMPOOL_NULL <-> (forall b, b ∈ bs -> b_busy b = false).
Proof.
  intros Hok Hf. split.
  - intros Hb b Hin. destruct (b_busy b) eqn:E; [|done].
    by destruct (used_head_busy _ _ _ Hok Hf (ex_intro _ b (conj Hin E))).
  - intros Hall. pose proof (empty_head p lists 5 Hok) as He.
    rewrite heads_busy in He by apply (lo_length _ _ Hok).
    assert (Some (busylist p) = Some MEMPOOL_NULL) as [= ->]; [|done]. apply He; [lia|].
    intros a (b & Hb & _ & Hh)%(Hf 5%nat a). unfold block_home in Hh. rewrite (Hall b Hb) in Hh.
    pose proof (get_freeidx_range (b_size b)). lia.
Qed.

Lemma free_bytes_zero m : forall bs rp off lp fin nx,
  tiles m rp off bs lp fin nx -> free_bytes bs = 0 -> forall b, b ∈ bs -> b_busy b = true.
Proof.
  induction bs as [|c bs IH]; intros rp off lp fin nx; simpl; [by intros _ _ b ?%elem_of_nil|].
  intros (_ & Hs & _ & Ht) Hz b. pose proof (tiles_free_bytes _ _ _ _ _ _ _ Ht).
  unfold sizeof_realdata in *. rewrite elem_of_cons. destruct (b_busy c) eqn:E; [|lia].
  intros [->|Hb]; [done|]. eapply IH; [done|lia|done].
Qed.

Lemma free_into_empty_spec p lists bs1 a s bs2 lp cap :
  lists_ok p lists -> filed lists (bs1 ++ bs2) -> cap < MEMPOOL_NULL ->
  tiles (mem p) MEMPOOL_NULL 0 (bs1 ++ Block a s true :: bs2) lp cap MEMPOOL_NULL ->
  links <$> mem p !! a = Some (MEMPOOL_NULL, MEMPOOL_NULL) ->
  (forall b, b ∈ bs1 ++ bs2 -> b_busy b = true) ->
  exists p' lists', free_into_empty p a = Some p' /\
    tiles (mem p') MEMPOOL_NULL 0 (bs1 ++ Block a s false :: bs2) lp cap MEMPOOL_NULL /\
    lists_ok p' lists' /\ filed lists' (bs1 ++ Block a s false :: bs2) /\
    busylist p' = busylist p /\ pool_size p' = pool_size p /\
    leftsize p' = wrap 24 (leftsize p + s).
Proof.
  intros Hok Hf Hcap Ht Hlinks Hall. destruct (lo_length _ _ Hok) as [Hf5 Hl6].
  destruct (tiles_mid _ _ _ _ _ _ _ _ _ Ht) as (rp & n & Hn & Hfn & _ & _ & Ha & Hs & Hab).
  simpl in Hn, Hfn, Ha, Hs, Hab. unfold sizeof_realdata in *.
  rewrite Hn in Hlinks. simpl in Hlinks. unfold links in Hlinks. injection Hlinks as Hnp Hnn.
  change (prev_of n) with (rd_prev n) in Hnp. change (next_of n) with (rd_next n) in Hnn.
  assert (rd_offset n = a /\ rd_size n = s) as [Hno Hns] by (by injection Hfn).
  set (k := Z.to_nat (get_freeidx s)). pose proof (get_freeidx_range s) as Hr.
  destruct (lookup_lt_is_Some_2 lists k) as [l Hl]; [unfold k; lia|].
  assert (l = []) as ->.
  { destruct l as [|b l]; [done|]. assert (member lists k b) as Hm by (exists (b :: l); split; [done|left]).
    apply (Hf k b) in Hm as (c & Hc & _ & Hh). unfold block_home in Hh. rewrite (Hall c Hc) in Hh.
    unfold k in Hh. lia. }
  destruct (freelist_at _ _ _ _ Hok Hl) as (x & _ & Hx & D); [unfold k; lia|].
  assert (x = MEMPOOL_NULL) as -> by exact (proj2 (dlist_null _ _ _ D) eq_refl).
  assert (set_prev MEMPOOL_NULL (set_next MEMPOOL_NULL n) = n) as En
    by (destruct n; simpl in *; subst; done).
  set (p1 := with_freelist p (<[k := a]> (freelist p))).
  destruct (push_update p p1 lists k [] a n MEMPOOL_NULL (mem p)) as (_ & _ & O1); try done.
  { unfold MEMPOOL_NULL in *. lia. }
  { intros (j & Hj)%member_concat. apply (Hf j a) in Hj as (b & Hb & E & _).
    pose proof (tiles_NoDup _ _ _ _ _ _ _ Ht) as Hnd.
    rewrite fmap_app, fmap_cons, <- Permutation_middle, <- fmap_app in Hnd.
    apply NoDup_cons in Hnd as [Hnd _]. apply Hnd. simpl. rewrite <- E.
    by apply list_elem_of_fmap_2. }
  { rewrite heads_free; [done|unfold k; lia]. }
  { rewrite En, insert_id by done. unfold st_prev_opt.
    change (null (L := Z) (N := realdata_t)) with MEMPOOL_NULL. by rewrite decide_True by done. }
  { simpl. by rewrite length_insert. }
  { apply heads_set_free; [done|unfold k; lia]. }
  eexists _, (<[k := [a]]> lists). split; [|split; [|split; [|split]]].
  - unfold free_into_empty. rewrite Hn. bind_simpl. rewrite Hns.
    replace (get_freeidx s) with (Z.of_nat k) by (unfold k; lia).
    rewrite set_head_ok by (unfold k; lia). bind_simpl. unfold update.
    cbn [mem with_freelist]. rewrite Hn. bind_simpl. reflexivity.
  - simpl. eapply tiles_set_mid; [exact Ht|done|]. unfold fields in *. simpl. congruence.
  - eapply lists_frame; [by apply (lists_ok_unlisted p1 _ a n (set_status 0 n) O1)|done..].
  - eapply filed_add; [exact Hf|]. intros j b. by rewrite (member_push _ _ _ _ _ _ Hl).
  - done.
Qed.

Lemma init_fresh p cap :
  sizeof_realdata <= cap < MEMPOOL_NULL -> pool_size p = cap + sizeof_mempool ->
  fresh_pool (init_mempool p) cap.
Proof.
  intros Hcap Hps. assert (u16 (pool_size p - sizeof_mempool) = cap) as E.
  { rewrite Hps. rewrite wrap_small; unfold MEMPOOL_NULL, sizeof_realdata in *; lia. }
  split; try done; cbn [init_mempool leftsize mem]; rewrite ?E; try done.
  eexists. rewrite lookup_insert_eq. reflexivity.
Qed.

(** A release of any busy block succeeds and joins it with its free neighbours. *)
Lemma free_in_pool_spec p cap bs1 a s bs2 :
  used_pool p cap (bs1 ++ Block a s true :: bs2) ->
  exists p', free_in_pool p a = Some p' /\ pool_ok p' cap (coalesce bs1 a s bs2).
Proof.
  intros [Hcap Hps [lp Ht] (lists & Hok & Hfile) Hleft Hco _].
  pose proof (proj2 Hcap) as Hcap1.
  destruct (tiles_mid _ _ _ _ _ _ _ _ _ Ht) as (rp & n & Hn & _). simpl in Hn.
  assert (member lists 5 a) as (l & H5 & (l1 & l2 & ->)%list_elem_of_split).
  { apply (Hfile 5%nat a). exists (Block a s true). split; [|done]. apply elem_of_app. right. left. }
  destruct (remove_busy_spec p lists l1 a l2 n Hok H5 Hn) as (p1 & E1 & O1 & Hf1 & K1 & S1 & L1).
  pose proof (tiles_NoDup _ _ _ _ _ _ _ Ht) as Hnd.
  assert (filed (<[5%nat := l1 ++ l2]> lists) (bs1 ++ bs2)) as F1.
  { eapply filed_remove; [done|done|]. intros k b.
    by apply (member_remove lists 5 l1 a l2 k b (lo_distinct _ _ Hok)). }
  assert (tiles (mem p1) MEMPOOL_NULL 0 (bs1 ++ Block a s true :: bs2) lp cap MEMPOOL_NULL) as T1.
  { eapply tiles_frame; [|exact Ht]. intros b _. apply Hf1. }
  unfold free_in_pool. rewrite E1. bind_simpl.
  destruct (Z.eqb_spec (busylist p1) MEMPOOL_NULL) as [Hb|Hb].
  - eexists. split; [done|]. left. split; [by apply init_fresh; rewrite ?S1|].
    eapply coalesce_all; [exact Ht|done|]. by apply (busylist_empty _ _ _ O1 F1).
  - assert (exists b, b ∈ bs1 ++ bs2 /\ b_busy b = true) as (b & Hb1 & Hb2).
    { destruct (decide (Exists (fun b => b_busy b = true) (bs1 ++ bs2))) as [He|Hno];
        [by apply Exists_exists in He|].
      destruct Hb. apply (busylist_empty _ _ _ O1 F1). intros b Hin.
      destruct (b_busy b) eqn:E; [|done]. destruct Hno. apply Exists_exists. eauto. }
    destruct (coalesce_shape bs1 a s bs2) as (L & h & t & R & Ec & Hsum & Hbusy & _).
    assert (exists p', (if leftsize p1 =? 0 then free_into_empty p1 a else free_realdata p1 a) = Some p' /\
      (exists lp', tiles (mem p') MEMPOOL_NULL 0 (coalesce bs1 a s bs2) lp' cap MEMPOOL_NULL) /\
      (exists lists', lists_ok p' lists' /\ filed lists' (coalesce bs1 a s bs2)) /\
      pool_size p' = pool_size p1 /\ leftsize p' = wrap 24 (leftsize p1 + s))
      as (p' & E' & [lp' T'] & F' & S' & L').
    { destruct (Z.eqb_spec (leftsize p1) 0) as [Hz|Hz].
      - assert (forall c, c ∈ bs1 ++ bs2 -> b_busy c = true) as Hall.
        { intros c Hc. eapply free_bytes_zero; [exact Ht|congruence|].
          rewrite elem_of_app in Hc. rewrite elem_of_app, elem_of_cons. tauto. }
        destruct (free_into_empty_spec p1 _ bs1 a s bs2 lp cap O1 F1 Hcap1 T1 K1 Hall) as
          (p' & lists' & E' & T' & O' & F' & _ & S' & L').
        assert (coalesce bs1 a s bs2 = bs1 ++ Block a s false :: bs2) as ->.
        { unfold coalesce. destruct (join_left_cases bs1 a s) as [(Ll & o & so & -> & _)|[_ ->]].
          { specialize (Hall (Block o so false)). rewrite !elem_of_app, list_elem_of_singleton in Hall.
            simpl in Hall. intuition discriminate. }
          destruct (join_right_cases s bs2) as [(o & so & R' & -> & _)|[_ ->]]; [|done].
          specialize (Hall (Block o so false)). rewrite elem_of_app, elem_of_cons in Hall.
          simpl in Hall. intuition discriminate. }
        eauto 15.
      - destruct (free_realdata_spec p1 _ bs1 a s bs2 lp cap O1 F1 Hcap1 T1) as
          (p' & lists' & lp' & E' & T' & O' & F' & _ & S' & L'). eauto 15. }
    exists p'. split; [done|]. right. split; try done.
    + congruence.
    + by exists lp'.
    + rewrite L', L1, Hleft, wrap_small.
      * rewrite Ec, !free_bytes_app. cbn [free_bytes b_busy b_size]. lia.
      * pose proof (tiles_free_bytes _ _ _ _ _ _ _ T') as Hfb.
        rewrite Ec, free_bytes_app in Hfb. rewrite !free_bytes_app.
        cbn [free_bytes b_busy b_size] in *. unfold MEMPOOL_NULL in *. lia.
    + by apply coalesced_coalesce.
    + exists b. split; [|done]. rewrite Ec. apply (Hbusy b Hb2) in Hb1.
      rewrite elem_of_app in Hb1. rewrite elem_of_app, elem_of_cons. tauto.
Qed.

(** ** Any sequence of requests *)

Inductive pool_call := Alloc (size : Z) | Free (a : Z).

(** What the user of a pool knows: the blocks it holds and how many bytes it asked for. A
    request to release an address it does not hold is not made. *)
Fixpoint pool_run (p : pool) (live : gmap Z Z) (cs : list pool_call) : option (pool * gmap Z Z) :=
  match cs with
  | [] => Some (p, live)
  | Alloc size :: cs =>
      '(p, a) ← pool_alloc p size;
      pool_run p (if a =? MEMPOOL_NULL then live else <[a := size]> live) cs
  | Free a :: cs =>
      match live !! a with
      | None => pool_run p live cs
      | Some _ => p ← free_in_pool p a; pool_run p (delete a live) cs
      end
  end.

(** The user's view agrees with the busy blocks. *)
Definition view_ok (live : gmap Z Z) (bs : list block) : Prop :=
  (forall b, b ∈ bs -> b_busy b = true -> exists s, live !! b_off b = Some s /\ s <= b_size b) /\
  (forall a s, live !! a = Some s -> exists b, b ∈ bs /\ b_off b = a /\ b_busy b = true /\ s <= b_size b).

Lemma pool_alloc_spec p cap bs size :
  pool_ok p cap bs -> sizeof_realdata <= size ->
  pool_alloc p size = Some (p, MEMPOOL_NULL) \/
  exists p' bs1 s bs2 a, pool_alloc p size = Some (p', a) /\ a <> MEMPOOL_NULL /\
    bs = bs1 ++ Block a s false :: bs2 /\ size <= s /\
    used_pool p' cap (bs1 ++ taken a s size :: rest_of a s size ++ bs2).
Proof.
  intros Hp Hsize. unfold pool_alloc.
  assert (length (freelist p) = 5%nat) as Hf5.
  { destruct Hp as [[F _]|[_ _ _ (lists & Hok & _) _ _ _]].
    - by rewrite (fp_freelist _ _ F).
    - apply (lo_length _ _ Hok). }
  destruct (get_freelist_loop_spec p size Hf5) as (fl & i & E & _).
  unfold mempool_get_freelist. rewrite E. bind_simpl.
  destruct ((leftsize p <? size) || (fl =? MEMPOOL_NULL)) eqn:Eg; [by left|].
  apply orb_false_iff in Eg as [Hl _]. apply Z.ltb_ge in Hl.
  destruct Hp as [[F ->]|U].
  - right. rewrite (fp_left _ _ F) in Hl. pose proof (fp_cap _ _ F) as Hcap.
    destruct (alloc_fresh p cap size F) as (p' & E' & U); [lia|].
    exists p', [], cap, [], 0. split; [done|]. split; [done|]. split; [done|]. split; [done|].
    by rewrite app_nil_r.
  - by apply alloc_used.
Qed.

Lemma view_alloc live bs1 a s size bs2 :
  NoDup (b_off <$> bs1 ++ Block a s false :: bs2) -> size <= s ->
  view_ok live (bs1 ++ Block a s false :: bs2) ->
  view_ok (<[a := size]> live) (bs1 ++ taken a s size :: rest_of a s size ++ bs2).
Proof.
  intros Hnd Hs [V1 V2]. rewrite fmap_app, fmap_cons, <- Permutation_middle, <- fmap_app in Hnd.
  apply NoDup_cons in Hnd as [Ha _]. simpl in Ha.
  assert (forall b, b ∈ bs1 ++ bs2 -> b_off b <> a) as Hne.
  { intros b Hb <-. apply Ha. by apply list_elem_of_fmap_2. }
  assert (forall b, b ∈ rest_of a s size -> b_busy b = false) as Hr.
  { intros b Hb. unfold rest_of in Hb. case_match; [by apply elem_of_nil in Hb|].
    by apply list_elem_of_singleton in Hb as ->. }
  split.
  - intros b Hb Hbb. rewrite elem_of_app, elem_of_cons, elem_of_app in Hb.
    destruct Hb as [Hb|[->|[Hb|Hb]]].
    + rewrite lookup_insert_ne by (symmetry; apply Hne, elem_of_app; by left).
      apply V1; [|done]. apply elem_of_app. by left.
    + exists size. simpl. rewrite lookup_insert_eq. split; [done|]. case_match; lia.
    + by rewrite (Hr b Hb) in Hbb.
    + rewrite lookup_insert_ne by (symmetry; apply Hne, elem_of_app; by right).
      apply V1; [|done]. rewrite elem_of_app, elem_of_cons. tauto.
  - intros c s' Hc. destruct (decide (a = c)) as [<-|Hac].
    + rewrite lookup_insert_eq in Hc. injection Hc as <-. exists (taken a s size).
      split; [apply elem_of_app; right; left|]. split; [done|]. split; [done|]. simpl. case_match; lia.
    + rewrite lookup_insert_ne in Hc by done. destruct (V2 c s' Hc) as (b & Hb & Hbo & Hbb & Hbs).
      exists b. split; [|done]. rewrite elem_of_app, elem_of_cons in Hb.
      rewrite elem_of_app, elem_of_cons, elem_of_app. destruct Hb as [?|[->|?]]; [tauto|done|tauto].
Qed.

Lemma view_free live bs1 a s bs2 :
  NoDup (b_off <$> bs1 ++ Block a s true :: bs2) ->
  view_ok live (bs1 ++ Block a s true :: bs2) -> view_ok (delete a live) (coalesce bs1 a s bs2).
Proof.
  intros Hnd [V1 V2]. rewrite fmap_app, fmap_cons, <- Permutation_middle, <- fmap_app in Hnd.
  apply NoDup_cons in Hnd as [Ha _]. simpl in Ha.
  assert (forall b, b ∈ bs1 ++ bs2 -> b_off b <> a) as Hne.
  { intros b Hb <-. apply Ha. by apply list_elem_of_fmap_2. }
  destruct (coalesce_shape bs1 a s bs2) as (L & h & t & R & -> & _ & Hbusy & _). split.
  - intros b Hb Hbb. assert (b ∈ bs1 ++ bs2) as Hb'.
    { apply Hbusy; [done|]. rewrite elem_of_app, elem_of_cons in Hb. rewrite elem_of_app.
      destruct Hb as [?|[->|?]]; [tauto|done|tauto]. }
    rewrite lookup_delete_ne by (symmetry; by apply Hne). apply V1; [|done].
    rewrite elem_of_app in Hb'. rewrite elem_of_app, elem_of_cons. tauto.
  - intros c s' [Hac Hc]%lookup_delete_Some. destruct (V2 c s' Hc) as (b & Hb & Hbo & Hbb & Hbs).
    exists b. split; [|done]. rewrite elem_of_app, elem_of_cons in Hb.
    assert (b ∈ bs1 ++ bs2) as Hb'.
    { rewrite elem_of_app. destruct Hb as [?|[->|?]]; [tauto| |tauto]. simpl in Hbo. congruence. }
    apply (Hbusy b Hbb) in Hb'. rewrite elem_of_app in Hb'. rewrite elem_of_app, elem_of_cons. tauto.
Qed.

Lemma pool_ok_tiles p cap bs :
  pool_ok p cap bs -> exists lp, tiles (mem p) MEMPOOL_NULL 0 bs lp cap MEMPOOL_NULL.
Proof.
  intros [[F ->]|U]; [|apply U]. exists 0. by apply (fresh_tiles p cap) in F.
Qed.

Definition call_size_ok (c : pool_call) : Prop :=
  match c with Alloc size => sizeof_realdata < size | Free _ => True end.

Lemma pool_run_spec cap cs : forall p live bs,
  Forall call_size_ok cs -> pool_ok p cap bs -> view_ok live bs ->
  exists p' live' bs', pool_run p live cs = Some (p', live') /\ pool_ok p' cap bs' /\
    view_ok live' bs'.
Proof.
  induction cs as [|[size|a] cs IH]; intros p live bs Hcs Hp Hv; cbn [pool_run].
  - eauto 10.
  - apply Forall_cons in Hcs as [Hc Hcs]. simpl in Hc.
    destruct (pool_ok_tiles _ _ _ Hp) as [lp Ht].
    destruct (pool_alloc_spec p cap bs size Hp) as [E|(p' & bs1 & s & bs2 & a & E & Ha & -> & Hs & U)];
      [lia| |]; rewrite E; bind_simpl.
    + rewrite Z.eqb_refl. eauto.
    + rewrite (proj2 (Z.eqb_neq _ _) Ha). eapply IH; [done|right; exact U|].
      apply view_alloc; [by eapply tiles_NoDup|lia|done].
  - apply Forall_cons in Hcs as [_ Hcs]. destruct (live !! a) as [s0|] eqn:Ha; [|eauto].
    destruct (pool_ok_tiles _ _ _ Hp) as [lp Ht].
    destruct (proj2 Hv a s0 Ha) as ([o s f] & Hb & Ho & Hbb & _). simpl in Ho, Hbb. subst o f.
    destruct Hp as [[F ->]|U]; [by apply list_elem_of_singleton in Hb|].
    apply list_elem_of_split in Hb as (bs1 & bs2 & ->).
    destruct (free_in_pool_spec p cap bs1 a s bs2 U) as (p' & E & Hp'). rewrite E. bind_simpl.
    eapply IH; [done|exact Hp'|]. apply view_free; [by eapply tiles_NoDup|done].
Qed.

Lemma new_pool_ok cap :
  sizeof_realdata <= cap < MEMPOOL_NULL ->
  pool_ok (new_pool (cap + sizeof_mempool)) cap [Block 0 cap false].
Proof. intros Hcap. left. split; [by apply init_fresh|done]. Qed.

(** A free block that was cut is whole again when its first part is released. *)
Lemma coalesce_carve bs1 a s size bs2 :
  coalesced (b_busy <$> bs1 ++ Block a s false :: bs2) ->
  coalesce bs1 a (b_size (taken a s size)) (rest_of a s size ++ bs2) = bs1 ++ Block a s false :: bs2.
Proof.
  rewrite fmap_app, fmap_cons. cbn [b_busy]. intros [H1 H2]%coalesced_app. unfold coalesce.
  destruct (join_left_cases bs1 a (b_size (taken a s size))) as [(L & o & so & -> & _)|[_ ->]].
  { rewrite fmap_app, <- app_assoc in H1. simpl in H1. apply coalesced_app in H1 as [_ [? _]]. done. }
  assert (starts_busy bs2) as HR.
  { destruct bs2 as [|[o so []] R]; [by left|right; eauto|]. by destruct H2. }
  unfold taken, rest_of. destruct (whole s size); cbn [b_size app].
  - destruct (join_right_cases s bs2) as [(o & so & R & -> & _)|[_ ->]]; [|done].
    destruct HR as [?|(? & ? & ? & ?)]; done.
  - cbn [join_right]. repeat f_equal. lia.
Qed.

(** * Properties *)

(** C1. Whatever a user asks of a pool of [cap] usable bytes, as long as it releases only
    blocks it holds, every request is served without touching memory outside the pool's
    headers; the blocks it holds lie inside the pool and do not overlap, header included; and
    once it has released all of them the pool is as new, every byte free in one block. *)
Theorem pool_run_safe cap cs :
  sizeof_realdata <= cap < MEMPOOL_NULL -> Forall call_size_ok cs ->
  exists p live, pool_run (new_pool (cap + sizeof_mempool)) ∅ cs = Some (p, live) /\
    (forall a s, live !! a = Some s -> 0 <= a /\ a + s <= cap) /\
    (forall a s b t, live !! a = Some s -> live !! b = Some t -> a <> b -> a + s <= b \/ b + t <= a) /\
    (live = ∅ -> fresh_pool p cap).
Proof.
  intros Hcap Hcs.
  destruct (pool_run_spec cap cs (new_pool (cap + sizeof_mempool)) ∅ [Block 0 cap false])
    as (p & live & bs & E & Hp & [V1 V2]); [done|by apply new_pool_ok| |].
  { split; [|done]. intros b ->%list_elem_of_singleton. done. }
  exists p, live. split; [done|]. destruct (pool_ok_tiles _ _ _ Hp) as [lp Ht].
  destruct (tiles_bounds _ _ _ _ _ _ _ Ht) as [_ Hin]. split; [|split].
  - intros a s (b & Hb & <- & _ & Hs)%V2. destruct (Hin b Hb) as (? & ? & _). lia.
  - intros a s b t (x & Hx & <- & _ & Hs)%V2 (y & Hy & <- & _ & Ht')%V2 Hne.
    destruct (tiles_disjoint _ _ _ _ _ _ _ _ _ Ht Hx Hy) as [->|[?|?]]; [done|left; lia|right; lia].
  - intros ->. destruct Hp as [[F _]|U]; [done|]. destruct (up_busy _ _ _ U) as (b & Hb & Hbb).
    by destruct (V1 b Hb Hbb) as (s & ? & _).
Qed.

(** C21. An allocation followed by the release of the block it returned leaves the pool with
    the same blocks, in the same order and of the same sizes, and the same number of free
    bytes. *)
Theorem alloc_free_roundtrip p cap bs size p' a :
  pool_ok p cap bs -> sizeof_realdata <= size -> pool_alloc p size = Some (p', a) ->
  a <> MEMPOOL_NULL ->
  exists p'', free_in_pool p' a = Some p'' /\ pool_ok p'' cap bs /\ leftsize p'' = leftsize p.
Proof.
  intros Hp Hsize E Ha.
  destruct (pool_alloc_spec p cap bs size Hp Hsize) as
    [E'|(p1 & bs1 & s & bs2 & a' & E' & _ & -> & Hs & U)]; rewrite E in E'; injection E' as -> ->;
    [done|].
  assert (coalesced (b_busy <$> bs1 ++ Block a' s false :: bs2)) as Hco.
  { destruct Hp as [[_ ->]|U']; [done|apply U']. }
  destruct (free_in_pool_spec p1 cap bs1 a' (b_size (taken a' s size)) (rest_of a' s size ++ bs2) U)
    as (p'' & E'' & Hp'').
  rewrite (coalesce_carve _ _ _ _ _ Hco) in Hp''. exists p''. split; [done|]. split; [done|].
  assert (forall q, pool_ok q cap (bs1 ++ Block a' s false :: bs2) ->
    leftsize q = free_bytes (bs1 ++ Block a' s false :: bs2)) as Hl.
  { intros q [[F ->]|U']; [|apply U']. rewrite (fp_left _ _ F). simpl. lia. }
  by rewrite !Hl.
Qed.

(** When the first block of the list of a size class is large enough for the request,
    the search returns the smallest block that is large enough among the first nine of that
    list. *)
Theorem get_availdata_best_fit p cap bs lists size h l :
  used_pool p cap bs -> lists_ok p lists ->
  lists !! Z.to_nat (get_freeidx size) = Some (h :: l) -> size <= size_at p h ->
  exists r, get_availdata p size = Some r /\ r ∈ h :: l /\ size <= size_at p r /\
    forall a, a ∈ take 9 (h :: l) -> size <= size_at p a -> size_at p r <= size_at p a.
Proof.
  intros U Hok Hl Hs. pose proof (get_freeidx_range size) as Hr.
  destruct (lo_length _ _ Hok) as [Hf5 _].
  destruct (freelist_at _ _ _ _ Hok Hl) as (x & Hx & _ & D); [lia|].
  rewrite Z2Nat.id in Hx by lia. pose proof (dlist_head _ _ _ _ D) as ->.
  pose proof (dlist_lseg _ _ _ D) as L. pose proof L as (_ & Hh & n & Hn & _).
  change null with MEMPOOL_NULL in Hh.
  unfold get_availdata. rewrite (get_freelist_class p size h Hf5 Hx Hh). bind_simpl.
  destruct (best_fit (size_at p) size (take 9 (h :: l)) h Hs) as (B1 & B2 & B3).
  set (v := best (size_at p) size (take 9 (h :: l)) h) in *.
  assert (v ∈ h :: l) as Hv.
  { destruct (best_in (size_at p) size (take 9 (h :: l)) h) as [E|Hin].
    - unfold v. rewrite E. left.
    - by apply elem_of_take in Hin as (j & Hin & _); apply list_elem_of_lookup; exists j. }
  destruct (lseg_lookup _ _ _ _ _ L Hv) as [nv Hnv].
  pose proof (lseg_not_null _ _ _ _ _ L Hv) as Hvn. change null with MEMPOOL_NULL in Hvn.
  exists v. split; [|done]. cbn [availdata_from].
  rewrite (search_list_spec p size 10 (h :: l) h h 0); [|done|by eexists|lia|lia].
  bind_simpl. change (9 - Z.to_nat 0)%nat with 9%nat. fold v.
  rewrite (proj2 (Z.eqb_neq _ _) Hvn), Hnv. bind_simpl.
  unfold size_at in B1. rewrite Hnv in B1. simpl in B1. rewrite (proj2 (Z.leb_le _ _) B1).
  by rewrite (proj2 (Z.eqb_neq _ _) Hvn).
Qed.

(** The search compares every candidate with the head of its list first, so a head that
    is too small hides the blocks behind it: in this pool a free block of 9000 bytes exists
    and a request for 8000 bytes is refused. *)
Theorem get_availdata_misses_block :
  exists p live n, pool_run (new_pool 65536) ∅
      [Alloc 5000; Alloc 100; Alloc 9000; Alloc 100; Alloc 51144; Free 5100; Free 0] = Some (p, live) /\
    mem p !! 5100 = Some n /\ rd_status n = 0 /\ rd_size n = 9000 /\
    8000 <= leftsize p /\ pool_alloc p 8000 = Some (p, MEMPOOL_NULL).
Proof.
  set (cs := [Alloc 5000; Alloc 100; Alloc 9000; Alloc 100; Alloc 51144; Free 5100; Free 0]).
  destruct (pool_run (new_pool 65536) ∅ cs) as [[p live]|] eqn:E; [|by vm_compute in E].
  vm_compute in E. injection E as <- <-.
  eexists _, _, _. split; [reflexivity|]. split; [reflexivity|].
  split; [reflexivity|]. split; [reflexivity|]. split; [vm_compute; discriminate|].
  vm_compute. reflexivity.
Qed.

(** A header that its left neighbour absorbed keeps the status of a busy block, so
    releasing the block a second time is not recognised: the pool forgets every block, and
    the next allocation returns memory that overlaps the block at 300 which is still held. *)
Theorem double_free_resets_pool :
  exists p live p' p'', pool_run (new_pool 4096) ∅ [Alloc 100; Alloc 200; Alloc 300; Free 0; Free 100]
      = Some (p, live) /\
    live !! 300 = Some 300 /\ live !! 100 = None /\ rd_status <$> mem p !! 100 = Some 1 /\
    free_in_pool p 100 = Some p' /\ busylist p' = MEMPOOL_NULL /\
    pool_alloc p' 400 = Some (p'', 0).
Proof.
  set (cs := [Alloc 100; Alloc 200; Alloc 300; Free 0; Free 100]).
  destruct (pool_run (new_pool 4096) ∅ cs) as [[p live]|] eqn:E; [|by vm_compute in E].
  vm_compute in E. injection E as <- <-.
  do 4 eexists. split; [reflexivity|]. split; [reflexivity|]. split; [reflexivity|].
  split; [reflexivity|]. split; [vm_compute; reflexivity|]. split; [reflexivity|].
  vm_compute. reflexivity.
Qed.

(** * Witnesses *)

Lemma pool_run_safe_witness :
  exists p live, pool_run (new_pool (3904 + sizeof_mempool)) ∅
    [Alloc 115; Alloc 515; Free 0; Alloc 2000; Free 115; Free 630] = Some (p, live) /\
    (forall a s, live !! a = Some s -> 0 <= a /\ a + s <= 3904) /\
    (forall a s b t, live !! a = Some s -> live !! b = Some t -> a <> b -> a + s <= b \/ b + t <= a) /\
    (live = ∅ -> fresh_pool p 3904).
Proof.
  apply (pool_run_safe 3904); [unfold sizeof_realdata, MEMPOOL_NULL; lia|].
  repeat constructor.
Defined.

Lemma alloc_free_roundtrip_witness :
  exists p', pool_alloc (new_pool 4096) 115 = Some (p', 0) /\
    exists p'', free_in_pool p' 0 = Some p'' /\ pool_ok p'' 3904 [Block 0 3904 false] /\
      leftsize p'' = leftsize (new_pool 4096).
Proof.
  assert (exists p', pool_alloc (new_pool 4096) 115 = Some (p', 0)) as [p' E]
    by (eexists; vm_compute; reflexivity).
  exists p'. split; [exact E|].
  apply (alloc_free_roundtrip (new_pool 4096) 3904 [Block 0 3904 false] 115 p' 0).
  - apply (new_pool_ok 3904). unfold sizeof_realdata, MEMPOOL_NULL. lia.
  - unfold sizeof_realdata. lia.
  - exact E.
  - discriminate.
Defined.

Lemma one_block_used :
  exists p lists l, used_pool p 3904 [Block 0 115 true; Block 115 3789 false] /\ lists_ok p lists /\
    lists !! Z.to_nat (get_freeidx 2000) = Some (115 :: l) /\ 2000 <= size_at p 115.
Proof.
  destruct (alloc_fresh (new_pool 4096) 3904 115) as (p & _ & U).
  - apply init_fresh; [unfold sizeof_realdata, MEMPOOL_NULL; lia|done].
  - unfold sizeof_realdata. lia.
  - change (taken 0 3904 115 :: rest_of 0 3904 115) with [Block 0 115 true; Block 115 3789 false] in U.
    pose proof (up_lists _ _ _ U) as (lists & Hok & Hf).
    change (Z.to_nat (get_freeidx 2000)) with 3%nat.
    assert (member lists 3 115) as (l & Hl & Hin).
    { apply (Hf 3%nat 115). exists (Block 115 3789 false). split; [right; left|done]. }
    destruct l as [|h l]; [by apply elem_of_nil in Hin|].
    assert (h = 115) as ->.
    { assert (member lists 3 h) as (b & Hb & <- & Hh)%(Hf 3%nat h) by (exists (h :: l); split; [done|left]).
      rewrite !elem_of_cons, elem_of_nil in Hb. by destruct Hb as [->|[->|[]]]. }
    exists p, lists, l. split; [done|]. split; [done|]. split; [done|].
    destruct (up_tiles _ _ _ U) as [lp Ht]. destruct (tiles_bounds _ _ _ _ _ _ _ Ht) as [_ Hb].
    destruct (Hb (Block 115 3789 false)) as (_ & _ & _ & n & Hn & _ & Hs & _); [right; left|].
    simpl in Hn, Hs. unfold size_at. rewrite Hn. simpl. lia.
Qed.

Lemma get_availdata_best_fit_witness :
  exists p r, get_availdata p 2000 = Some r /\ 2000 <= size_at p r.
Proof.
  destruct one_block_used as (p & lists & l & U & Hok & Hl & Hs).
  destruct (get_availdata_best_fit p 3904 [Block 0 115 true; Block 115 3789 false] lists 2000 115 l
    U Hok Hl Hs) as (r & E & _ & Hr & _).
  exists p, r. split; [exact E|exact Hr].
Defined.
