(* ===== verification/MemPool.v ===== *)
(** The allocator of src/demo_mempool/mempool.c over chains of pools: a base pool, the pools
    linked behind it, its free pools, the blocks too large for a pool, and the two hash
    tables (mphash.c, MpHash.v) that say which addresses belong to it.

    Addresses are integers and 0 is the null pointer. The world holds the pools and the
    large blocks by address; the block headers inside a pool are those of Pool.v, and
    [load_realdata] reads the header at an absolute address. The payload is [bytes]. *)

From S2P Require Import Prelude Linked Hashes MpHash Pool.

Definition MEMPOOL_DEFAULT_POOLSIZE : Z := 4096.
Definition MEMPOOL_ALIGN_SIZE : Z := 8.
Definition MEMPOOL_FAILED_SKIP : Z := 8.
Definition MEMPOOL_MAX_TOTAL : Z := 34359738368.
Definition MEMPOOL_SINGLE_MAX : Z := 268435456.
Definition MEMPOOL_FREE_POOLCNT : Z := 32.
Definition MEMPOOL_FREEPOOL_MAX : Z := 256.
Definition MEMPOOL_MAX_SEARCHPOOL : Z := -1.
Definition MEMPOOL_REALLOC_MAXCHKS : Z := 8.
Definition MEMPOOL_INPOOL_SIZE : Z := 268435456.
Definition MEMPOOL_INPOOL_ALLOC_PERCENT : Z := 20.
Definition MEMPOOL_ALLOC_PERCENT : Z := 10.
Definition MEMPOOL_LARGEFLAG : Z := 0xffffffff.
Definition sizeof_large : Z := 12.

(** [MEMPOOL_MEMALIGN] before the result is stored. *)
(* src/demo_mempool/mempool.h:15-15 MEMPOOL_MEMALIGN *)
Definition MEMPOOL_MEMALIGN (size align : Z) : Z := Z.land (size + (align - 1)) (Z.lnot (align - 1)).

(** [HAS_GETPAGESIZE] is not defined by any build file. *)
(* src/demo_mempool/mempool.h:131-134 mempool_getpagesize *)
Definition mempool_getpagesize : Z := MEMPOOL_DEFAULT_POOLSIZE.

(** ** Data *)

(* src/demo_mempool/mempool.c:28-32 mempool_large_t *)
Record mempool_large_t := Large { large_flag : Z; large_size : Z; large_used : Z }.

(* src/demo_mempool/mempool.c:51-65 mempool_s *)
Record config_t := Config {
  ht : option mp_hash_table;
  largeht : option mp_hash_table;
  max_memsize : Z; (* 56 bits *)
  max_freepool : Z; (* 8 bits *)
  single_max : Z;
  max_searchpool : Z;
  failed_memsize : Z;
  judge_alloc : option (Z -> Z);
}.

(* src/demo_mempool/mempool.c:67-75 mempool_s *)
Record property_t := Property {
  freepool : Z;
  pooltail : Z;
  total_alloced : Z;
  total_leftsize : Z;
  pfree_count : Z;
}.

(* src/demo_mempool/mempool.c:48-76 mempool_s *)
Record mempool := Mempool {
  pdata : pool;
  pool_prev : Z;
  pool_next : Z;
  config : config_t;
  property : property_t;
}.

Record world := World {
  pools : gmap Z mempool;
  larges : gmap Z mempool_large_t;
  bytes : gmap Z Z;
}.

Definition with_pools (w : world) ps := World ps (larges w) (bytes w).
Definition with_larges (w : world) ls := World (pools w) ls (bytes w).
Definition with_bytes (w : world) bs := World (pools w) (larges w) bs.

Definition set_pdata v (p : mempool) := Mempool v (pool_prev p) (pool_next p) (config p) (property p).
Definition set_pool_prev v (p : mempool) := Mempool (pdata p) v (pool_next p) (config p) (property p).
Definition set_pool_next v (p : mempool) := Mempool (pdata p) (pool_prev p) v (config p) (property p).
Definition set_config v (p : mempool) := Mempool (pdata p) (pool_prev p) (pool_next p) v (property p).
Definition set_property v (p : mempool) := Mempool (pdata p) (pool_prev p) (pool_next p) (config p) v.

Definition set_ht v c := Config v (largeht c) (max_memsize c) (max_freepool c) (single_max c)
  (max_searchpool c) (failed_memsize c) (judge_alloc c).
Definition set_largeht v c := Config (ht c) v (max_memsize c) (max_freepool c) (single_max c)
  (max_searchpool c) (failed_memsize c) (judge_alloc c).
Definition set_max_memsize v c := Config (ht c) (largeht c) v (max_freepool c) (single_max c)
  (max_searchpool c) (failed_memsize c) (judge_alloc c).
Definition set_max_freepool v c := Config (ht c) (largeht c) (max_memsize c) v (single_max c)
  (max_searchpool c) (failed_memsize c) (judge_alloc c).
Definition set_single_max v c := Config (ht c) (largeht c) (max_memsize c) (max_freepool c) v
  (max_searchpool c) (failed_memsize c) (judge_alloc c).
Definition set_max_searchpool v c := Config (ht c) (largeht c) (max_memsize c) (max_freepool c)
  (single_max c) v (failed_memsize c) (judge_alloc c).
Definition set_failed_memsize v c := Config (ht c) (largeht c) (max_memsize c) (max_freepool c)
  (single_max c) (max_searchpool c) v (judge_alloc c).
Definition set_judge v c := Config (ht c) (largeht c) (max_memsize c) (max_freepool c)
  (single_max c) (max_searchpool c) (failed_memsize c) v.

Definition set_freepool v q :=
  Property v (pooltail q) (total_alloced q) (total_leftsize q) (pfree_count q).
Definition set_pooltail v q :=
  Property (freepool q) v (total_alloced q) (total_leftsize q) (pfree_count q).
Definition add_alloced v q :=
  Property (freepool q) (pooltail q) (u64 (total_alloced q + v)) (total_leftsize q) (pfree_count q).
Definition add_leftsize v q :=
  Property (freepool q) (pooltail q) (total_alloced q) (u64 (total_leftsize q + v)) (pfree_count q).
Definition add_pfree v q :=
  Property (freepool q) (pooltail q) (total_alloced q) (total_leftsize q) (u32 (pfree_count q + v)).

(** [*pool = f *pool] *)
Definition on_pool (w : world) (a : Z) (f : mempool -> mempool) : option world :=
  p ← pools w !! a; Some (with_pools w (<[a := f p]> (pools w))).
Definition on_config (w : world) (a : Z) (f : config_t -> config_t) : option world :=
  on_pool w a (fun p => set_config (f (config p)) p).
Definition on_property (w : world) (a : Z) (f : property_t -> property_t) : option world :=
  on_pool w a (fun p => set_property (f (property p)) p).
Definition on_pool_opt (w : world) (a : Z) (f : mempool -> mempool) : option world :=
  if a =? 0 then Some w else on_pool w a f.

(** [free(large)], [free(pool)] *)
Definition free_larges (w : world) (ls : list Z) : world :=
  with_larges w (foldr delete (larges w) ls).
Definition free_pool (w : world) (a : Z) : world := with_pools w (delete a (pools w)).

(** The eight bytes of a pointer, least significant first. *)
Definition addr_bytes (a : Z) : list Z :=
  (fun i => Z.land (Z.shiftr a (8 * Z.of_nat i)) 0xff) <$> seq 0 8.

(* src/demo_mempool/mempool.c:146-150 hash_memaddr *)
Definition hash_memaddr (addr : Z) : Z := Fnv.mp_hash (addr_bytes addr).

(* src/demo_mempool/mempool.c:152-162 hash_memcmp *)
Definition hash_memcmp (p1 p2 : Z) : Z :=
  let result := sint 64 (p1 - p2) in
  if 0 <? result then 1 else if result <? 0 then -1 else 0.

(** ** Headers as bytes

    [prealloc] reads and writes the header in front of a block as a [realdata_t] or as a
    [mempool_large_t] whichever kind the block is; the two views overlap. *)

Definition le16 (x : Z) : list Z := [Z.land x 0xff; Z.land (Z.shiftr x 8) 0xff].
Definition le32 (x : Z) : list Z := le16 (Z.land x 0xffff) ++ le16 (Z.land (Z.shiftr x 16) 0xffff).
Definition of_le (bs : list Z) : Z := foldr (fun b acc => b + 256 * acc) 0 bs.
Definition slice (bs : list Z) (i n : nat) : list Z := take n (drop i bs).
Definition poke (bs : list Z) (i : nat) (vs : list Z) : list Z :=
  take i bs ++ vs ++ drop (i + length vs) bs.

Definition realdata_bytes (r : realdata_t) : list Z :=
  le16 (rd_offset r) ++ le16 (rd_size r) ++ le16 (rd_prev r) ++ le16 (rd_next r) ++
  le16 (rd_realprev r) ++ le16 (rd_realnext r) ++ le16 (rd_used r) ++ [rd_status r].
Definition realdata_of (bs : list Z) : realdata_t :=
  Realdata (of_le (slice bs 0 2)) (of_le (slice bs 2 2)) (of_le (slice bs 4 2))
    (of_le (slice bs 6 2)) (of_le (slice bs 8 2)) (of_le (slice bs 10 2))
    (of_le (slice bs 12 2)) (of_le (slice bs 14 1)).
Definition large_bytes (l : mempool_large_t) : list Z :=
  le32 (large_flag l) ++ le32 (large_size l) ++ le32 (large_used l).
Definition large_of (bs : list Z) : mempool_large_t :=
  Large (of_le (slice bs 0 4)) (of_le (slice bs 4 4)) (of_le (slice bs 8 4)).

(** The pool whose data region contains an address. *)
Definition owner (w : world) (a : Z) : option (Z * mempool) :=
  list.head (filter (fun ap : Z * mempool => ap.1 + sizeof_mempool <= a /\
    a < ap.1 + sizeof_mempool + MEMPOOL_MAXSIZE /\
    is_Some (mem (pdata ap.2) !! (a - ap.1 - sizeof_mempool))) (map_to_list (pools w))).

Definition load_realdata (w : world) (a : Z) : option realdata_t :=
  '(b, p) ← owner w a; mem (pdata p) !! (a - b - sizeof_mempool).

Definition store_realdata (w : world) (a : Z) (r : realdata_t) : option world :=
  '(b, p) ← owner w a;
  on_pool w b (fun p => set_pdata
    (with_mem (pdata p) (<[a - b - sizeof_mempool := r]> (mem (pdata p)))) p).

(** [*(mempool_large_t * ) a]: a large block's header, or three bytes into a [realdata_t]. *)
Definition load_large (w : world) (a : Z) : option mempool_large_t :=
  match larges w !! a with
  | Some l => Some l
  | None => r ← load_realdata w (a - 3); Some (large_of (drop 3 (realdata_bytes r)))
  end.

(** [((mempool_large_t * ) (data - 12))->used = v] *)
Definition store_large_used (w : world) (addr v : Z) : option world :=
  match larges w !! (addr - sizeof_large) with
  | Some l => Some (with_larges w (<[addr - sizeof_large := Large (large_flag l) (large_size l) (u32 v)]> (larges w)))
  | None =>
      r ← load_realdata w (addr - sizeof_realdata);
      store_realdata w (addr - sizeof_realdata) (realdata_of (poke (realdata_bytes r) 11 (le32 v)))
  end.

(** [((realdata_t * ) (data - 15))->used = v] *)
Definition store_realdata_used (w : world) (addr v : Z) : option world :=
  match larges w !! (addr - sizeof_large) with
  | Some l => Some (with_larges w
      (<[addr - sizeof_large := large_of (poke (large_bytes l) 9 (le16 v))]> (larges w)))
  | None =>
      r ← load_realdata w (addr - sizeof_realdata);
      store_realdata w (addr - sizeof_realdata) (set_used (u16 v) r)
  end.

(** ** The operations

    [malloc w n] is the address the C library returns for [n] bytes in the world [w], 0 when
    it fails; [junk] is what a fresh block contains before it is written; [callocs] says
    which allocations of [mp_hash_table_create] succeed; [fuel] bounds the walks along chains
    of pools, and running out of it means that the call does not return. *)

Section operations.
Context (malloc : world -> Z -> Z) (junk : mempool) (callocs : bool * bool * bool) (fuel : nat).

(* src/demo_mempool/mempool.c:247-278 mempool_set_maxmem *)
Definition mempool_set_maxmem (w : world) (pool maxmem : Z) : option world :=
  if pool =? 0 then Some w else
  p ← pools w !! pool;
  let c := config p in
  let old_maxmem := max_memsize c in
  let c := set_max_memsize (wrap 56 maxmem) c in
  let c := if max_memsize c >? MEMPOOL_MAX_TOTAL then set_max_memsize MEMPOOL_MAX_TOTAL c else c in
  let c := if max_memsize c <? pool_size (pdata p)
           then set_max_memsize (pool_size (pdata p)) c else c in
  let c := if single_max c >? max_memsize c then set_single_max (u32 (max_memsize c)) c else c in
  if (0 <? maxmem) && negb (maxmem =? old_maxmem) then
    freed ← mp_hash_table_free (largeht c);
    let w := free_larges w freed in
    let hash_size := u32 (max_memsize c / pool_size (pdata p) + 1) in
    t ← mp_hash_table_create callocs hash_memaddr (Some hash_memcmp) false hash_size;
    '(t, _) ← mp_hash_table_insert t pool;
    lt ← mp_hash_table_create callocs hash_memaddr (Some hash_memcmp) true hash_size;
    on_config w pool (fun _ => set_largeht lt (set_ht t c))
  else on_config w pool (fun _ => c).

(* src/demo_mempool/mempool.c:280-290 mempool_set_single_max *)
Definition mempool_set_single_max (w : world) (pool m : Z) : option world :=
  if pool =? 0 then Some w else
  on_config w pool (fun c =>
    let c := set_single_max m c in
    if single_max c >? max_memsize c then set_single_max (u32 (max_memsize c)) c else c).

(* src/demo_mempool/mempool.c:292-300 mempool_set_max_searchpool *)
Definition mempool_set_max_searchpool (w : world) (pool m : Z) : option world :=
  if pool =? 0 then Some w else
  on_config w pool (set_max_searchpool (if 0 <? m then m else MEMPOOL_MAX_SEARCHPOOL)).

(* src/demo_mempool/mempool.c:232-240 mempool_set_judge_alloc *)
Definition mempool_set_judge_alloc (w : world) (pool : Z) (j : option (Z -> Z)) : option world :=
  if pool =? 0 then Some w else on_config w pool (set_judge j).

(* src/demo_mempool/mempool.c:242-245 mempool_get_maxmem *)
Definition mempool_get_maxmem (w : world) (pool : Z) : option Z :=
  if pool =? 0 then Some 0 else p ← pools w !! pool; Some (max_memsize (config p)).

(* src/demo_mempool/mempool.c:335-342 mempool_alloced *)
Definition mempool_alloced (w : world) (pool : Z) : option Z :=
  if pool =? 0 then Some 0 else
  p ← pools w !! pool; Some (u64 (total_alloced (property p) + pool_size (pdata p))).

(* src/demo_mempool/mempool.c:344-347 mempool_poolsize *)
Definition mempool_poolsize (w : world) (pool : Z) : option Z :=
  if pool =? 0 then Some 0 else p ← pools w !! pool; Some (pool_size (pdata p)).

(** The size of a pool: rounded up to a multiple of 8, or a page when it is 0 or too big. *)
(* src/demo_mempool/mempool.c:188-193 mempool_init_extra *)
Definition round_pool_size (size : Z) : Z :=
  let size := if 0 <? size then u32 (MEMPOOL_MEMALIGN size MEMPOOL_ALIGN_SIZE) else size in
  if (size =? 0) || (size >? MEMPOOL_MAXSIZE) then mempool_getpagesize else size.

(** The pool's name is only kept when [__USE_POOLNAME] is defined. *)
(* src/demo_mempool/mempool.c:184-230 mempool_init_extra *)
Definition mempool_init_extra (w : world) (size maxmem smax maxfree maxsearch : Z)
    (judge : option (Z -> Z)) : option (world * Z) :=
  let size := round_pool_size size in
  let pool := malloc w size in
  if pool =? 0 then Some (w, 0) else
  let d := pdata junk in
  let p := set_pdata (Pool (freelist d) (busylist d) (mem d) size (leftsize d) (failed d)) junk in
  let p := set_config (set_largeht None (set_ht None
             (set_failed_memsize (Z.shiftr size 2) (config junk)))) p in
  let w := with_pools w (<[pool := p]> (pools w)) in
  w ← mempool_set_maxmem w pool maxmem;
  w ← mempool_set_single_max w pool smax;
  w ← on_config w pool (fun c => set_judge judge (set_max_searchpool maxsearch
        (set_max_freepool (wrap 8 (if maxfree <? MEMPOOL_FREEPOOL_MAX then maxfree
                                   else MEMPOOL_FREEPOOL_MAX)) c)));
  w ← on_pool w pool (fun p =>
        let d := init_mempool (pdata p) in
        set_pool_prev 0 (set_pool_next 0 (set_property (Property 0 0 0 (leftsize d) 0)
          (set_pdata d p))));
  Some (w, pool).

(* src/demo_mempool/mempool.h:71-72 mempool_init *)
Definition mempool_init (w : world) (size : Z) : option (world * Z) :=
  mempool_init_extra w size MEMPOOL_MAX_TOTAL MEMPOOL_SINGLE_MAX MEMPOOL_FREE_POOLCNT
    MEMPOOL_MAX_SEARCHPOOL None.

(** ** Destroying a pool: [while (p) { n = p->next; free(p); p = n; }] *)

Fixpoint free_chain (n : nat) (check_idle : bool) (w : world) (p : Z) : option world :=
  match n with
  | O => None
  | S n =>
      if p =? 0 then Some w else
      q ← pools w !! p;
      _ ← require (negb check_idle || (busylist (pdata q) =? MEMPOOL_NULL));
      free_chain n check_idle (free_pool w p) (pool_next q)
  end.

(* src/demo_mempool/mempool.c:302-333 mempool_destroy *)
Definition mempool_destroy (w : world) (pool : Z) : option world :=
  if pool =? 0 then Some w else
  p ← pools w !! pool;
  freed ← mp_hash_table_free (largeht (config p));
  let w := free_larges w freed in
  w ← on_config w pool (set_largeht None);
  w ← free_chain fuel true w (freepool (property p));
  p ← pools w !! pool;
  _ ← mp_hash_table_free (ht (config p));
  w ← on_config w pool (set_ht None);
  free_chain fuel false w pool.

(** ** Large blocks *)

(* src/demo_mempool/mempool.c:349-370 __alloc_large *)
Definition alloc_large (w : world) (pool size : Z) : option (world * Z) :=
  let size := u32 (MEMPOOL_MEMALIGN (size + sizeof_large) MEMPOOL_ALIGN_SIZE) in
  let large := malloc w size in
  if large =? 0 then Some (w, 0) else
  let w := with_larges w (<[large := Large MEMPOOL_LARGEFLAG size 0]> (larges w)) in
  p ← pools w !! pool;
  '(t, r) ← mp_hash_table_insert (largeht (config p)) large;
  w ← on_config w pool (set_largeht t);
  if r =? 0 then
    w ← on_property w pool (add_alloced size);
    Some (w, large + sizeof_large)
  else Some (free_larges w [large], 0).

(* src/demo_mempool/mempool.c:834-844 __check_large_in_pool *)
Definition check_large_in_pool (w : world) (pool large : Z) : option Z :=
  if pool =? 0 then
    l ← load_large w large;
    Some (if (large_flag l =? MEMPOOL_LARGEFLAG) && (large_used l <=? large_size l)
          then large else 0)
  else
    p ← pools w !! pool;
    ptmp ← mp_hash_table_find (largeht (config p)) large;
    Some (if ptmp =? large then large else 0).

(* src/demo_mempool/mempool.c:891-903 __free_large *)
Definition free_large (w : world) (pool large : Z) : option (world * Z) :=
  ltmp ← check_large_in_pool w pool large;
  if ltmp =? 0 then Some (w, -1) else
  l ← load_large w large;
  w ← on_property w pool (add_alloced (- large_size l));
  p ← pools w !! pool;
  '(t, _, freed) ← mp_hash_table_delete (largeht (config p)) large;
  w ← on_config w pool (set_largeht t);
  Some (free_larges w freed, 0).

(* src/demo_mempool/mempool.c:826-832 __check_realdata_in_pool *)
Definition check_realdata_in_pool (w : world) (pool realdata : Z) : option Z :=
  r ← load_realdata w realdata;
  let realpool := realdata - rd_offset r - sizeof_mempool in
  p ← pools w !! pool;
  mp_hash_table_find (ht (config p)) realpool.

(** ** The chain of pools *)

(* src/demo_mempool/mempool.c:598-615 __mempool_move2tail *)
Definition mempool_move2tail (w : world) (basepool pool : Z) : option world :=
  b ← pools w !! basepool;
  if (pool =? basepool) || (pool =? pooltail (property b)) then Some w else
  p ← pools w !! pool;
  w ← on_pool w (pool_prev p) (set_pool_next (pool_next p));
  w ← on_pool w (pool_next p) (set_pool_prev (pool_prev p));
  w ← on_pool w pool (fun p => set_pool_prev 0 (set_pool_next 0 p));
  w ← on_pool w (pooltail (property b)) (set_pool_next pool);
  w ← on_pool w pool (set_pool_prev (pooltail (property b)));
  on_property w basepool (set_pooltail pool).

(** One round of the loop of [__alloc_realdata]. *)
Inductive visit :=
  | Continue (tmp search_failed : Z)
  | Break
  | Found (realdata : Z).

(** [if (max_searchpool > 0) { search_failed++; if (...) break; } tmp = next; continue;] *)
Definition search_on (c : config_t) (tmp search_failed : Z) : visit :=
  if 0 <? max_searchpool c then
    let search_failed := search_failed + 1 in
    if max_searchpool c <=? search_failed then Break else Continue tmp search_failed
  else Continue tmp search_failed.

Definition incr_failed (p : pool) : pool := with_failed p (u8 (failed p + 1)).

(* src/demo_mempool/mempool.c:628-709 __alloc_realdata *)
Definition alloc_visit (w : world) (basepool tmp size search_failed : Z)
    : option (world * visit) :=
  b ← pools w !! basepool;
  t ← pools w !! tmp;
  '(fl, _) ← mempool_get_freelist (pdata t) size;
  if (leftsize (pdata t) <? size) || (fl =? MEMPOOL_NULL) then
    let tmp2 := pool_next t in
    w ← (if failed (pdata t) <? MEMPOOL_FAILED_SKIP then
           if leftsize (pdata t) <? failed_memsize (config b)
           then on_pool w tmp (fun p => set_pdata (incr_failed (pdata p)) p)
           else Some w
         else mempool_move2tail w basepool tmp);
    Some (w, search_on (config b) tmp2 search_failed)
  else
    '(d, realdata) ← alloc_in_pool (pdata t) size;
    if realdata =? MEMPOOL_NULL then
      w ← (if (failed (pdata t) <? MEMPOOL_FAILED_SKIP) &&
              (leftsize (pdata t) <? failed_memsize (config b))
           then on_pool w tmp (fun p => set_pdata (incr_failed (pdata p)) p)
           else Some w);
      Some (w, search_on (config b) (pool_next t) search_failed)
    else
      w ← on_pool w tmp (set_pdata d);
      Some (w, Found realdata).

(** The loop: the world, the pool it stopped at and the block found there. *)
Fixpoint alloc_walk (n : nat) (w : world) (basepool tmp size search_failed : Z)
    : option (world * Z * option Z) :=
  match n with
  | O => None
  | S n =>
      if tmp =? 0 then Some (w, 0, None) else
      '(w, v) ← alloc_visit w basepool tmp size search_failed;
      match v with
      | Found realdata => Some (w, tmp, Some realdata)
      | Break => Some (w, tmp, None)
      | Continue tmp sf => alloc_walk n w basepool tmp size sf
      end
  end.

(** From the label [alloc_realdata_again] on. [percent >= n] is decided on the exact
    quotient: the sizes are below 2^36, so the quotient the code computes in double
    precision is on the same side of the integer [n]. The result is the pool and the offset
    of the block. *)
Fixpoint alloc_again (n : nat) (w : world) (basepool tmp size checked_times : Z)
    : option (world * option (Z * Z)) :=
  match n with
  | O => None
  | S n =>
      '(w, tmp, r) ← alloc_walk fuel w basepool tmp size 0;
      match r with
      | Some realdata =>
          t ← pools w !! tmp;
          rd ← mem (pdata t) !! realdata;
          w ← on_property w basepool (add_leftsize (- rd_size rd));
          Some (w, Some (tmp, realdata))
      | None =>
          if (checked_times <? MEMPOOL_REALLOC_MAXCHKS) && negb (tmp =? 0) then
            b ← pools w !! basepool;
            t ← pools w !! tmp;
            let left := total_leftsize (property b) in
            let total := u64 (total_alloced (property b) + pool_size (pdata b)) in
            if (MEMPOOL_INPOOL_ALLOC_PERCENT * total <=? left * 100) ||
               (MEMPOOL_INPOOL_SIZE <=? left)
            then alloc_again n w basepool (pool_next t) size 0
            else if MEMPOOL_ALLOC_PERCENT * total <=? left * 100
            then alloc_again n w basepool (pool_next t) size (checked_times + 1)
            else Some (w, None)
          else Some (w, None)
      end
  end.

(* src/demo_mempool/mempool.c:617-730 __alloc_realdata *)
Definition alloc_realdata (w : world) (basepool pool size : Z) : option (world * option (Z * Z)) :=
  alloc_again fuel w basepool pool size 0.

(** The [None] after a failed [malloc] is the dereference of the null [newpool]. *)
(* src/demo_mempool/mempool.c:732-758 __get_mempool *)
Definition get_mempool (w : world) (pool : Z) : option (world * Z) :=
  p ← pools w !! pool;
  '(w, newpool) ←
    (if negb (freepool (property p) =? 0) then
       let newpool := freepool (property p) in
       n ← pools w !! newpool;
       w ← on_property w pool (set_freepool (pool_next n));
       w ← on_pool_opt w (pool_next n) (set_pool_prev 0);
       w ← on_property w pool (add_pfree (-1));
       Some (w, newpool)
     else mempool_init_extra w (pool_size (pdata p)) 0 0 0 (max_searchpool (config p)) None);
  p ← pools w !! pool;
  '(w, r) ←
    (if negb (newpool =? 0) then
       '(t, r) ← mp_hash_table_insert (ht (config p)) newpool;
       w ← on_config w pool (set_ht t);
       Some (w, r)
     else Some (w, 0));
  if negb (r =? 0) then Some (free_pool w newpool, 0) else
  w ← on_property w pool (add_alloced (pool_size (pdata p)));
  n ← pools w !! newpool;
  w ← on_property w pool (add_leftsize (leftsize (pdata n)));
  Some (w, newpool).

(** ** Allocation *)

(** From the label [ALLOC_AGAIN] on: the address of the block's payload. *)
Fixpoint palloc_again (n : nat) (w : world) (pool tmp realsize : Z) : option (world * Z) :=
  match n with
  | O => None
  | S n =>
      '(w, r) ← alloc_realdata w pool tmp realsize;
      match r with
      | Some (b, realdata) =>
          t ← pools w !! b;
          m ← update (mem (pdata t)) realdata (set_used 0);
          w ← on_pool w b (fun t => set_pdata (with_mem (pdata t) m) t);
          Some (w, b + sizeof_mempool + realdata + sizeof_realdata)
      | None =>
          p ← pools w !! pool;
          if max_memsize (config p) <=?
             u64 (total_alloced (property p) + u32 (Z.shiftl (pool_size (pdata p)) 1))
          then Some (w, 0) else
          '(w, newpool) ← get_mempool w pool;
          if newpool =? 0 then Some (w, 0) else
          p ← pools w !! pool;
          w ← on_pool w newpool (set_pool_next (pool_next p));
          w ← on_pool_opt w (pool_next p) (set_pool_prev newpool);
          w ← on_pool w newpool (set_pool_prev pool);
          w ← on_pool w pool (set_pool_next newpool);
          w ← (if pooltail (property p) =? 0
               then on_property w pool (set_pooltail newpool) else Some w);
          palloc_again n w pool newpool realsize
      end
  end.

(* src/demo_mempool/mempool.c:760-813 palloc *)
Definition palloc (w : world) (pool size : Z) : option (world * Z) :=
  if pool =? 0 then Some (w, 0) else
  p ← pools w !! pool;
  let c := config p in
  if (max_memsize c <=? u64 (total_alloced (property p) + pool_size (pdata p))) ||
     (single_max c <? size) || (size =? 0)
  then Some (w, 0) else
  if match judge_alloc c with Some j => negb (j size =? 1) | None => false end
  then Some (w, 0) else
  if u64 (pool_size (pdata p) - sizeof_mempool - sizeof_realdata) <? size
  then alloc_large w pool size else
  let realsize := u32 (size + sizeof_realdata) in
  let tmp := if realsize <? leftsize (pdata p) then pool else pool_next p in
  palloc_again fuel w pool tmp realsize.

(** [memset], [memcpy]: byte by byte, a byte that was never written stays so. *)
Fixpoint fill_bytes (bs : gmap Z Z) (dest v : Z) (n : nat) : gmap Z Z :=
  match n with
  | O => bs
  | S n => fill_bytes (<[dest := v]> bs) (dest + 1) v n
  end.

Definition write_bytes (bs : gmap Z Z) (dest : Z) (vs : list (option Z)) : gmap Z Z :=
  (fix go vs dest bs :=
     match vs with
     | [] => bs
     | v :: vs => go vs (dest + 1) (partial_alter (fun _ => v) dest bs)
     end) vs dest bs.

Definition read_bytes (bs : gmap Z Z) (src n : Z) : list (option Z) :=
  (fun i => bs !! (src + Z.of_nat i)) <$> seq 0 (Z.to_nat n).

(* src/demo_mempool/mempool.c:815-824 pcalloc *)
Definition pcalloc (w : world) (pool size : Z) : option (world * Z) :=
  '(w, data) ← palloc w pool size;
  if negb (data =? 0)
  then Some (with_bytes w (fill_bytes (bytes w) data 0 (Z.to_nat size)), data)
  else Some (w, data).

(** ** Copying into a block *)

(** The result: the bytes copied, or -1 (no room) or -2 (overlap). *)
(* src/demo_mempool/mempool.c:1108-1122 __pmemcpy *)
Definition pmemcpy_internal (w : world) (dest dsize used src n : Z) : world * Z :=
  let left := u32 (dsize - used) in
  if left <? n then (w, -1) else
  if ((src <=? dest) && (dest <=? src + n)) || ((dest <=? src) && (src <=? dest + dsize))
  then (w, -2) else
  (with_bytes w (write_bytes (bytes w) (dest + used) (read_bytes (bytes w) src n)), i32 n).

(* src/demo_mempool/mempool.c:1124-1150 pmemcpy_extra *)
Definition pmemcpy_extra (w : world) (pool dest src n : Z) : option (world * Z) :=
  let large := dest - sizeof_large in
  l ← (if large =? 0 then Some 0 else check_large_in_pool w pool large);
  if negb (l =? 0) then
    l ← load_large w large;
    let '(w, cpylen) := pmemcpy_internal w dest (u32 (large_size l - sizeof_large)) (large_used l) src n in
    w ← (if 0 <? cpylen then store_large_used w dest (large_used l + cpylen) else Some w);
    Some (w, dest)
  else
    let realdata := dest - sizeof_realdata in
    if realdata =? 0 then Some (w, 0) else
    known ← (if pool =? 0 then Some 1 else check_realdata_in_pool w pool realdata);
    if known =? 0 then Some (w, 0) else
    r ← load_realdata w realdata;
    let '(w, cpylen) := pmemcpy_internal w dest (u32 (rd_size r - sizeof_realdata)) (rd_used r) src n in
    w ← (if 0 <? cpylen then store_realdata_used w dest (rd_used r + cpylen) else Some w);
    Some (w, dest).

(** [vsnprintf(dest, room, ...)] when the complete text is [text]: as much of it as fits
    with a terminating zero, and the length of the complete text. *)
Definition vsnprintf (bs : gmap Z Z) (dest room : Z) (text : list Z) : gmap Z Z :=
  write_bytes bs dest (Some <$> take (Z.to_nat (room - 1)) text ++ [0]).

Definition printed (text : list Z) : Z := Z.of_nat (length text).

(** [text] is what the format and its arguments print. *)
(* src/demo_mempool/mempool.c:1152-1195 psprintf_extra *)
Definition psprintf_extra (w : world) (pool data : Z) (text : list Z) : option (world * Z) :=
  if data =? 0 then Some (w, -1) else
  let large := data - sizeof_large in
  l ← (if large =? 0 then Some 0 else check_large_in_pool w pool large);
  if negb (l =? 0) then
    l ← load_large w large;
    let leftlen := i32 (large_size l - sizeof_large - large_used l) in
    if 0 <? leftlen then
      let cpylen := printed text in
      let w := with_bytes w (vsnprintf (bytes w) (data + large_used l) leftlen text) in
      w ← (if 0 <? cpylen then
             store_large_used w data (large_used l + (if leftlen <? cpylen then leftlen else cpylen))
           else Some w);
      Some (w, cpylen)
    else Some (w, 0)
  else
    let realdata := data - sizeof_realdata in
    if realdata =? 0 then Some (w, -1) else
    known ← (if pool =? 0 then Some 1 else check_realdata_in_pool w pool realdata);
    if known =? 0 then Some (w, -1) else
    r ← load_realdata w realdata;
    let leftlen := i32 (rd_size r - sizeof_realdata - rd_used r) in
    if 0 <? leftlen then
      let cpylen := printed text in
      let w := with_bytes w (vsnprintf (bytes w) (data + rd_used r) leftlen text) in
      w ← (if 0 <? cpylen then
             store_realdata_used w data (rd_used r + (if leftlen <? cpylen then leftlen else cpylen))
           else Some w);
      Some (w, cpylen)
    else Some (w, 0).

(* src/demo_mempool/mempool.c:1197-1213 pzero_extra *)
Definition pzero_extra (w : world) (pool data : Z) : option world :=
  let large := data - sizeof_large in
  l ← (if large =? 0 then Some 0 else check_large_in_pool w pool large);
  if negb (l =? 0) then store_large_used w data 0
  else
    let realdata := data - sizeof_realdata in
    if realdata =? 0 then Some w else
    known ← (if pool =? 0 then Some 1 else check_realdata_in_pool w pool realdata);
    if known =? 0 then Some w else store_realdata_used w data 0.

(* src/demo_mempool/mempool.c:1215-1234 pdatasize *)
Definition pdatasize (w : world) (pool data : Z) : option Z :=
  if (pool =? 0) || (data =? 0) then Some (-1) else
  let large := data - sizeof_large in
  l ← (if large =? 0 then Some 0 else check_large_in_pool w pool large);
  if negb (l =? 0) then
    l ← load_large w large; Some (i32 (large_size l - sizeof_large))
  else
    let realdata := data - sizeof_realdata in
    if realdata =? 0 then Some (-1) else
    known ← check_realdata_in_pool w pool realdata;
    if known =? 0 then Some (-1) else
    r ← load_realdata w realdata;
    Some (i32 (rd_size r - sizeof_realdata)).

(** ** Release *)

(* src/demo_mempool/mempool.c:905-938 __mempool_internal_destroy *)
Definition mempool_internal_destroy (w : world) (basepool pool : Z) : option world :=
  b ← pools w !! basepool;
  p ← pools w !! pool;
  w ← (if pool =? pooltail (property b) then
         on_property w basepool
           (set_pooltail (if pool_prev p =? basepool then 0 else pool_prev p))
       else Some w);
  w ← on_pool_opt w (pool_prev p) (set_pool_next (pool_next p));
  w ← on_pool_opt w (pool_next p) (set_pool_prev (pool_prev p));
  b ← pools w !! basepool;
  '(t, _, _) ← mp_hash_table_delete (ht (config b)) pool;
  w ← on_config w basepool (set_ht t);
  w ← on_property w basepool (add_leftsize (- leftsize (pdata p)));
  b ← pools w !! basepool;
  w ← (if pfree_count (property b) <? max_freepool (config b) then
         w ← on_pool w pool (fun p =>
               set_pool_next (freepool (property b)) (set_pdata (init_mempool (pdata p)) p));
         w ← on_pool_opt w (freepool (property b)) (set_pool_prev pool);
         w ← on_property w basepool (set_freepool pool);
         w ← on_pool w pool (set_pool_prev 0);
         on_property w basepool (add_pfree 1)
       else Some (free_pool w pool));
  on_property w basepool (add_alloced (- pool_size (pdata b))).

(** The search of [__mempool_move2header]: how many pools stand to be overtaken. *)
Fixpoint count_failed (n : nat) (w : world) (pool pnext moveflag : Z) : option Z :=
  match n with
  | O => None
  | S n =>
      p ← pools w !! pool;
      q ← pools w !! pnext;
      if (Z.shiftr MEMPOOL_FAILED_SKIP 1 <? failed (pdata q)) &&
         (leftsize (pdata q) <? leftsize (pdata p)) &&
         (Z.shiftr (pool_size (pdata p)) 1 <=? leftsize (pdata p))
      then
        let moveflag := moveflag + 1 in
        if (Z.shiftr MEMPOOL_FAILED_SKIP 1 <? moveflag) || (pool_next q =? 0)
        then Some moveflag
        else count_failed n w pool (pool_next q) moveflag
      else Some moveflag
  end.

(* src/demo_mempool/mempool.c:940-976 __mempool_move2header *)
Definition mempool_move2header (w : world) (basepool pool : Z) : option world :=
  b ← pools w !! basepool;
  if negb (pool =? basepool) && negb (pool =? pool_next b) then
    moveflag ← count_failed 6 w pool (pool_next b) 0;
    if Z.shiftr MEMPOOL_FAILED_SKIP 1 <? moveflag then
      p ← pools w !! pool;
      w ← (if pool =? pooltail (property b)
           then on_property w basepool (set_pooltail (pool_prev p)) else Some w);
      w ← on_pool w (pool_prev p) (set_pool_next (pool_next p));
      w ← on_pool_opt w (pool_next p) (set_pool_prev (pool_prev p));
      b ← pools w !! basepool;
      w ← on_pool w pool (set_pool_next (pool_next b));
      w ← on_pool w (pool_next b) (set_pool_prev pool);
      w ← on_pool w basepool (set_pool_next pool);
      on_pool w pool (set_pool_prev basepool)
    else Some w
  else Some w.

(* src/demo_mempool/mempool.c:1015-1058 __pfree_realdata *)
Definition pfree_realdata (w : world) (basepool pool realdata : Z) : option world :=
  p ← pools w !! pool;
  d ← remove_busy (pdata p) realdata;
  w ← on_pool w pool (set_pdata d);
  r ← mem d !! realdata;
  w ← on_property w basepool (add_leftsize (rd_size r));
  if busylist d =? MEMPOOL_NULL then
    if negb (pool =? basepool) then
      w ← on_property w basepool (add_leftsize (- rd_size r));
      mempool_internal_destroy w basepool pool
    else on_pool w pool (fun p => set_pdata (init_mempool (pdata p)) p)
  else if leftsize d =? 0 then
    d ← free_into_empty d realdata;
    w ← on_pool w pool (set_pdata d);
    mempool_move2header w basepool pool
  else
    d ← free_realdata d realdata;
    on_pool w pool (set_pdata d).

(* src/demo_mempool/mempool.c:1060-1103 pfree *)
Definition pfree (w : world) (pool data : Z) : option (world * Z) :=
  if (pool =? 0) || (data =? 0) then Some (w, -1) else
  let large := data - sizeof_large in
  l ← (if large =? 0 then Some 0 else check_large_in_pool w pool large);
  '(w, done) ←
    (if negb (l =? 0) then '(w, r) ← free_large w pool large; Some (w, r =? 0)
     else Some (w, false));
  if (done : bool) then Some (w, 0) else
  let realdata := data - sizeof_realdata in
  if realdata =? 0 then Some (w, -1) else
  realpool ← check_realdata_in_pool w pool realdata;
  if realpool =? 0 then Some (w, -1) else
  r ← load_realdata w realdata;
  if rd_status r =? 0 then Some (w, 0) else
  w ← pfree_realdata w pool realpool (rd_offset r);
  Some (w, 0).

(* src/demo_mempool/mempool.c:846-889 prealloc *)
Definition prealloc (w : world) (pool addr newsize : Z) : option (world * Z) :=
  if pool =? 0 then Some (w, 0) else
  if addr =? 0 then palloc w pool newsize else
  let large := addr - sizeof_large in
  l ← (if large =? 0 then Some 0 else check_large_in_pool w pool large);
  if negb (l =? 0) then
    l ← load_large w large;
    if negb (large_size l =? newsize) then
      '(w, newaddr) ← palloc w pool newsize;
      if negb (newaddr =? 0) then
        l ← load_large w large;
        let size := u32 (large_size l - sizeof_large) in
        '(w, _) ← pmemcpy_extra w pool newaddr addr (if newsize <? size then newsize else size);
        l ← load_large w large;
        w ← store_large_used w newaddr (large_used l);
        '(w, _) ← pfree w pool addr;
        Some (w, newaddr)
      else Some (w, 0)
    else Some (w, 0)
  else
    let realdata := addr - sizeof_realdata in
    known ← (if realdata =? 0 then Some 0 else check_realdata_in_pool w pool realdata);
    if known =? 0 then Some (w, 0) else
    r ← load_realdata w realdata;
    if rd_size r <? newsize then
      '(w, newaddr) ← palloc w pool newsize;
      if negb (newaddr =? 0) then
        r ← load_realdata w realdata;
        let size := u32 (rd_size r - sizeof_realdata) in
        '(w, _) ← pmemcpy_extra w pool newaddr addr (if newsize <? size then newsize else size);
        r ← load_realdata w realdata;
        w ← store_realdata_used w newaddr (rd_used r);
        '(w, _) ← pfree w pool addr;
        Some (w, newaddr)
      else Some (w, 0)
    else Some (w, 0).

End operations.

(** * Facts *)

(** ** Copying *)

Lemma write_bytes_lookup vs : forall bs dest x,
  write_bytes bs dest vs !! x =
    if (dest <=? x) && (x <? dest + Z.of_nat (length vs))
    then default None (vs !! Z.to_nat (x - dest)) else bs !! x.
Proof.
  unfold write_bytes. induction vs as [|v vs IH]; intros bs dest x; simpl length.
  - destruct (Z.leb_spec dest x), (Z.ltb_spec x (dest + Z.of_nat 0)); simpl; try done; lia.
  - rewrite IH. destruct (decide (x = dest)) as [->|Hx].
    + rewrite lookup_partial_alter_eq.
      destruct (Z.leb_spec (dest + 1) dest), (Z.leb_spec dest dest),
        (Z.ltb_spec dest (dest + Z.of_nat (S (length vs)))); simpl; try lia.
      by replace (Z.to_nat (dest - dest)) with 0%nat by lia.
    + rewrite lookup_partial_alter_ne by done.
      destruct (Z.leb_spec (dest + 1) x), (Z.leb_spec dest x),
        (Z.ltb_spec x (dest + 1 + Z.of_nat (length vs))),
        (Z.ltb_spec x (dest + Z.of_nat (S (length vs)))); simpl; try lia; try done.
      by replace (Z.to_nat (x - dest)) with (S (Z.to_nat (x - (dest + 1)))) by lia.
Qed.

Lemma length_read_bytes bs src n : length (read_bytes bs src n) = Z.to_nat n.
Proof. unfold read_bytes. by rewrite length_fmap, length_seq. Qed.

Lemma read_bytes_lookup bs src n i :
  (i < Z.to_nat n)%nat -> read_bytes bs src n !! i = Some (bs !! (src + Z.of_nat i)).
Proof.
  intros Hi. unfold read_bytes. rewrite list_lookup_fmap, lookup_seq_lt by done. done.
Qed.

(** ** A walk that comes back to where it was *)

Section cycle.
Context (basepool size : Z).

(** [k] rounds of the loop of [__alloc_realdata], none of which ends it. *)
Fixpoint walk_iter (k : nat) (w : world) (tmp : Z) : option (world * Z) :=
  match k with
  | O => Some (w, tmp)
  | S k =>
      if tmp =? 0 then None else
      match alloc_visit w basepool tmp size 0 with
      | Some (w, Continue tmp 0) => walk_iter k w tmp
      | _ => None
      end
  end.

Lemma alloc_walk_iter k : forall n w tmp w' tmp',
  walk_iter k w tmp = Some (w', tmp') ->
  alloc_walk n w basepool tmp size 0 =
    if (n <? k)%nat then None else alloc_walk (n - k) w' basepool tmp' size 0.
Proof.
  induction k as [|k IH]; intros n w tmp w' tmp' Hk; cbn [walk_iter] in Hk.
  - injection Hk as -> ->. by rewrite Nat.sub_0_r.
  - destruct n as [|n]; [done|]. cbn [alloc_walk]. destruct (tmp =? 0); [done|].
    destruct (alloc_visit w basepool tmp size 0) as [[w1 v]|]; [|done]. bind_simpl.
    destruct v as [tmp1 sf| |]; [|done|done]. destruct sf; [|done|done]. by apply IH.
Qed.

(** Why the loop passes over a pool and moves it behind the others. *)
Definition blocked (t : mempool) : bool :=
  match mempool_get_freelist (pdata t) size with
  | Some (fl, _) => (leftsize (pdata t) <? size) || (fl =? MEMPOOL_NULL)
  | None => false
  end && (MEMPOOL_FAILED_SKIP <=? failed (pdata t)).

(** The walk is at [a], the next pool is the last one, [b]; both are to be moved, and no limit is
    set for the search. *)
Definition crossing (w : world) (a b : Z) : Prop :=
  (a <> 0 /\ b <> 0) /\ (a <> basepool /\ b <> basepool /\ a <> b) /\
  match pools w !! basepool, pools w !! a, pools w !! b with
  | Some p, Some ta, Some tb =>
      pooltail (property p) = b /\ max_searchpool (config p) <= 0 /\
      pool_next ta = b /\ (pool_prev ta <> a /\ pool_prev ta <> b) /\ is_Some (pools w !! pool_prev ta) /\
      blocked ta = true /\ blocked tb = true
  | _, _, _ => False
  end.

Definition crossing_test (w : world) (a b : Z) : bool :=
  negb (a =? 0) && negb (b =? 0) && negb (a =? basepool) && negb (b =? basepool) && negb (a =? b) &&
  match pools w !! basepool, pools w !! a, pools w !! b with
  | Some p, Some ta, Some tb =>
      (pooltail (property p) =? b) && (max_searchpool (config p) <=? 0) &&
      (pool_next ta =? b) && negb (pool_prev ta =? a) && negb (pool_prev ta =? b) &&
      (if pools w !! pool_prev ta then true else false) && blocked ta && blocked tb
  | _, _, _ => false
  end.

Lemma crossing_test_ok w a b : crossing_test w a b = true -> crossing w a b.
Proof using Type.
  unfold crossing_test, crossing.
  destruct (pools w !! basepool) as [p|], (pools w !! a) as [ta|], (pools w !! b) as [tb|];
    rewrite ?andb_false_r; try done.
  rewrite !andb_true_iff, !negb_true_iff, !Z.eqb_neq, !Z.eqb_eq, Z.leb_le.
  destruct (pools w !! pool_prev ta) eqn:E; [|naive_solver].
  intros H. split_and!; try apply H. by eexists.
Qed.

(** Moved behind the last pool, the pool is the last one; the one before it is where the walk goes
    on, and its predecessor is the one the moved pool had. *)
Lemma crossing_move w a b :
  crossing w a b ->
  exists w', mempool_move2tail w basepool a = Some w' /\ crossing w' b a.
Proof using Type.
  intros ([Ha Hb] & (Hab & Hbb & Hne) & Hm).
  destruct (pools w !! basepool) as [p|] eqn:Ep; [|done].
  destruct (pools w !! a) as [ta|] eqn:Ea; [|done]. destruct (pools w !! b) as [tb|] eqn:Eb; [|done].
  destruct Hm as (Ht & Hs & Hn & [Hxa Hxb] & [tx Ex] & Hba & Hbl).
  unfold mempool_move2tail. rewrite Ep. bind_simpl. rewrite Ht.
  rewrite (proj2 (Z.eqb_neq a basepool)), (proj2 (Z.eqb_neq a b)) by done. cbn [orb].
  rewrite Ea. bind_simpl. rewrite Hn. set (x := pool_prev ta) in *. unfold on_property.
  destruct (decide (x = basepool)) as [Hxbase|Hxbase].
  - assert (tx = p) as -> by congruence. rewrite Hxbase in *. clear Ex.
    unfold on_pool. repeat progress (simplify_map_eq; cbn [pools with_pools]; bind_simpl).
    eexists. split; [reflexivity|]. split; [done|]. split; [done|]. cbn [pools with_pools]. simplify_map_eq.
    split_and!; by eauto.
  - unfold on_pool. repeat progress (simplify_map_eq; cbn [pools with_pools]; bind_simpl).
    eexists. split; [reflexivity|]. split; [done|]. split; [done|]. cbn [pools with_pools]. simplify_map_eq.
    split_and!; by eauto.
Qed.

Lemma crossing_visit w a b :
  crossing w a b ->
  exists w', alloc_visit w basepool a size 0 = Some (w', Continue b 0) /\ crossing w' b a.
Proof using Type.
  intros Hc. destruct (crossing_move w a b Hc) as (w' & Em & Hc'). exists w'. split; [|done].
  destruct Hc as (_ & _ & Hm). unfold alloc_visit.
  destruct (pools w !! basepool) as [p|]; [|done]. destruct (pools w !! a) as [ta|]; [|done].
  destruct (pools w !! b) as [tb|]; [|done]. destruct Hm as (_ & Hs & Hn & _ & _ & Hba & _).
  bind_simpl. unfold blocked in Hba. destruct (mempool_get_freelist (pdata ta) size) as [[fl i]|]; [|done].
  bind_simpl. apply andb_true_iff in Hba as [-> Hf]. apply Z.leb_le in Hf.
  rewrite (proj2 (Z.ltb_ge _ _)) by done. rewrite Em. bind_simpl. rewrite Hn. unfold search_on.
  by rewrite (proj2 (Z.ltb_ge 0 _)) by done.
Qed.

(** From a crossing the walk goes to and fro between the two pools. *)
Lemma crossing_walks k : forall w a b,
  crossing w a b -> exists w', walk_iter k w a = Some (w', if Nat.even k then a else b).
Proof using Type.
  induction k as [|k IH]; intros w a b Hc; [by exists w|].
  destruct (crossing_visit w a b Hc) as (w1 & E & Hc1). cbn [walk_iter].
  rewrite (proj2 (Z.eqb_neq a 0)) by apply Hc. rewrite E. destruct (IH w1 b a Hc1) as [w' ->].
  exists w'. rewrite Nat.even_succ, <- Nat.negb_even. by destruct (Nat.even k).
Qed.

Lemma walk_iter_prefix n k w tmp w' tmp' :
  walk_iter (n + k) w tmp = Some (w', tmp') -> is_Some (walk_iter n w tmp).
Proof using Type.
  revert w tmp. induction n as [|n IH]; intros w tmp; cbn [walk_iter Nat.add]; [done|].
  destruct (tmp =? 0); [done|]. destruct (alloc_visit _ _ _ _ _) as [[w1 [t [| |]| |]]|]; try done; apply IH.
Qed.

Lemma walk_iter_app j k w tmp w' tmp' :
  walk_iter j w tmp = Some (w', tmp') -> walk_iter (j + k) w tmp = walk_iter k w' tmp'.
Proof using Type.
  revert w tmp. induction j as [|j IH]; intros w tmp; cbn [walk_iter Nat.add]; [by intros [= -> ->]|].
  destruct (tmp =? 0); [done|]. destruct (alloc_visit _ _ _ _ _) as [[w1 [t [| |]| |]]|]; try done; apply IH.
Qed.

(** A walk that reaches a crossing has a next round after any number of rounds, and so no end. *)
Lemma walk_into_crossing j k w tmp w' a b :
  walk_iter j w tmp = Some (w', a) -> crossing w' a b ->
  exists wk, walk_iter (j + k) w tmp = Some (wk, if Nat.even k then a else b).
Proof using Type.
  intros Hj Hc. rewrite (walk_iter_app _ _ _ _ _ _ Hj). by apply crossing_walks.
Qed.

Lemma endless_walk w tmp :
  (forall n, is_Some (walk_iter n w tmp)) -> forall n, alloc_walk n w basepool tmp size 0 = None.
Proof using Type.
  intros Hall n. destruct (Hall (S n)) as [[w' tmp'] E].
  rewrite (alloc_walk_iter _ _ _ _ _ _ E). by rewrite (proj2 (Nat.ltb_lt _ _)) by lia.
Qed.
End cycle.

(** ** The walk does not look at the hash tables

    [strip] drops them, which leaves a world without functions in it. *)

Definition strip_pool (p : mempool) : mempool :=
  set_config (set_ht None (set_largeht None (config p))) p.

Definition strip (w : world) : world := with_pools w (strip_pool <$> pools w).

Lemma strip_lookup w a : pools (strip w) !! a = strip_pool <$> pools w !! a.
Proof. apply lookup_fmap. Qed.

Lemma strip_on_pool w a f :
  (forall p, f (strip_pool p) = strip_pool (f p)) ->
  on_pool (strip w) a f = strip <$> on_pool w a f.
Proof.
  intros Hf. unfold on_pool. rewrite strip_lookup.
  destruct (pools w !! a) as [p|]; [|done]. simpl. f_equal. rewrite Hf.
  unfold strip, with_pools. simpl. by rewrite fmap_insert.
Qed.

Lemma bind_fmap {A B C} (f : A -> B) (m : option A) (k : B -> option C) :
  ((f <$> m) ≫= k) = (m ≫= fun x => k (f x)).
Proof. by destruct m. Qed.

Lemma fmap_bind {A B C} (f : B -> C) (m : option A) (k : A -> option B) :
  f <$> (m ≫= k) = (m ≫= fun x => f <$> k x).
Proof. by destruct m. Qed.

Lemma bind_ext {A B} (m : option A) (k k' : A -> option B) :
  (forall x, k x = k' x) -> (m ≫= k) = (m ≫= k').
Proof. intros H. destruct m; simpl; auto. Qed.

Lemma strip_move2tail w b t : mempool_move2tail (strip w) b t = strip <$> mempool_move2tail w b t.
Proof.
  unfold mempool_move2tail, on_property. rewrite (strip_lookup w b), bind_fmap, fmap_bind.
  apply bind_ext. intros p. change (pooltail (property (strip_pool p))) with (pooltail (property p)).
  destruct (_ || _); [done|]. rewrite (strip_lookup w t), bind_fmap, fmap_bind.
  apply bind_ext. intros q.
  change (pool_prev (strip_pool q)) with (pool_prev q).
  change (pool_next (strip_pool q)) with (pool_next q).
  repeat (rewrite strip_on_pool by done; rewrite ?bind_fmap, ?fmap_bind; try done;
          apply bind_ext; intros ?).
Qed.

Lemma strip_alloc_visit w b t size sf :
  alloc_visit (strip w) b t size sf =
    (fun wv : world * visit => (strip wv.1, wv.2)) <$> alloc_visit w b t size sf.
Proof.
  unfold alloc_visit. rewrite (strip_lookup w b), bind_fmap, fmap_bind. apply bind_ext. intros p.
  rewrite (strip_lookup w t), bind_fmap, fmap_bind. apply bind_ext. intros q.
  change (pdata (strip_pool q)) with (pdata q). change (pool_next (strip_pool q)) with (pool_next q).
  change (failed_memsize (config (strip_pool p))) with (failed_memsize (config p)).
  change (search_on (config (strip_pool p))) with (search_on (config p)).
  rewrite fmap_bind. apply bind_ext. intros [fl i].
  destruct ((leftsize (pdata q) <? size) || (fl =? MEMPOOL_NULL)).
  - rewrite fmap_bind. destruct (failed (pdata q) <? MEMPOOL_FAILED_SKIP).
    + destruct (leftsize (pdata q) <? failed_memsize (config p)); [|done].
      rewrite strip_on_pool by done. rewrite bind_fmap. by apply bind_ext.
    + rewrite strip_move2tail, bind_fmap. by apply bind_ext.
  - rewrite fmap_bind. apply bind_ext. intros [d rd].
    destruct (rd =? MEMPOOL_NULL); rewrite fmap_bind.
    + destruct (_ && _); [|done].
      rewrite strip_on_pool by done. rewrite bind_fmap. by apply bind_ext.
    + rewrite strip_on_pool by done. rewrite bind_fmap. by apply bind_ext.
Qed.

Lemma strip_walk_iter b size k : forall w t,
  walk_iter b size k (strip w) t = (fun wt : world * Z => (strip wt.1, wt.2)) <$> walk_iter b size k w t.
Proof.
  induction k as [|k IH]; intros w t; [done|]. cbn [walk_iter]. destruct (t =? 0); [done|].
  rewrite strip_alloc_visit. destruct (alloc_visit w b t size 0) as [[w' v]|]; [|done].
  cbn [fmap option_fmap option_map fst snd]. by destruct v as [t' [| |]| |].
Qed.

Lemma strip_crossing base size w a b : crossing base size (strip w) a b -> crossing base size w a b.
Proof.
  unfold crossing. rewrite !strip_lookup. intros (H1 & H2 & Hm). split; [done|]. split; [done|].
  destruct (pools w !! base) as [p|]; [|done]. destruct (pools w !! a) as [ta|]; [|done].
  destruct (pools w !! b) as [tb|]; [|done]. cbn [fmap option_fmap option_map] in Hm.
  rewrite strip_lookup in Hm. destruct Hm as (? & ? & ? & H4 & [? Hx] & ? & ?).
  apply fmap_Some in Hx as (tx & Hx & _). split_and!; try done; apply H4.
Qed.

(** * A concrete C library

    Blocks are spaced so far apart that no two overlap, fresh memory is zero, and no
    allocation fails. *)

Module Concrete.
Definition bump_malloc (w : world) (n : Z) : Z :=
  0x100000 + 0x20000 * (Z.of_nat (base.size (pools w)) + Z.of_nat (base.size (larges w))).

Definition zeroes : mempool :=
  Mempool (Pool [] 0 ∅ 0 0 0) 0 0 (Config None None 0 0 0 0 0 None) (Property 0 0 0 0 0).

Definition no_pools : world := World ∅ ∅ ∅.

Definition base_pool : Z := 0x100000.

(** [mempool_init_extra(NULL, 4096, 64K, 60000, 4, -1, NULL, NULL)]: everything but the two
    memory limits is the default. *)
Definition small_pool : option world :=
  fst <$> mempool_init_extra bump_malloc zeroes (true, true, true) no_pools 4096 65536 60000 4
    MEMPOOL_MAX_SEARCHPOOL None.

Definition alloc (fuel : nat) (w : world) (size : Z) : option (world * Z) :=
  palloc bump_malloc zeroes (true, true, true) fuel w base_pool size.

(** [n] allocations of the same size, each of which returns a block. *)
Fixpoint alloc_many (n : nat) (w : world) (size : Z) : option world :=
  match n with
  | O => Some w
  | S n => '(w, a) ← alloc 40 w size; if a =? 0 then None else alloc_many n w size
  end.

Definition crowded : option world := w ← small_pool; alloc_many 11 w 3000.

Definition realloc (w : world) (addr size : Z) : option (world * Z) :=
  prealloc bump_malloc zeroes (true, true, true) 40 w base_pool addr size.

(** A block of 5000 bytes shrinks to 100; two more blocks are allocated, the one behind it is
    released, and another 100 bytes are asked for. The result: the block that was kept, what
    [pfree] returned, and the new block. *)
Definition shrunk : option (Z * Z * Z) :=
  w ← small_pool;
  '(w, a) ← alloc 40 w 5000;
  '(w, b) ← realloc w a 100;
  '(w, c) ← alloc 40 w 100;
  '(w, _) ← alloc 40 w 100;
  '(w, r) ← pfree w base_pool c;
  '(w, d) ← alloc 40 w 100;
  Some (b, r, d).

(** Ten bytes are written to a block of 200 that grows to 5000: the number of used bytes the
    new block records. *)
Definition grown : option Z :=
  w ← small_pool;
  '(w, a) ← alloc 40 w 200;
  '(w, _) ← pmemcpy_extra w base_pool a 4096 10;
  '(w, b) ← realloc w a 5000;
  l ← load_large w (b - sizeof_large);
  Some (large_used l).

Lemma crowded_reached : exists w, crowded = Some w.
Proof.
  assert ((if crowded then true else false) = true) as H by (vm_compute; reflexivity).
  destruct crowded as [w|]; [eauto|done].
Qed.
End Concrete.

(** * Properties *)

(** What [palloc] tests before it walks along the pools, and where the walk starts. *)
Definition palloc_walks (p : mempool) (pool size : Z) : option Z :=
  let c := config p in
  if (max_memsize c <=? u64 (total_alloced (property p) + pool_size (pdata p))) ||
     (single_max c <? size) || (size =? 0) then None else
  if match judge_alloc c with Some j => negb (j size =? 1) | None => false end then None else
  if u64 (pool_size (pdata p) - sizeof_mempool - sizeof_realdata) <? size then None else
  Some (if u32 (size + sizeof_realdata) <? leftsize (pdata p) then pool else pool_next p).

Lemma palloc_stuck malloc junk callocs fuel w pool size p tmp :
  pool <> 0 -> pools w !! pool = Some p -> palloc_walks p pool size = Some tmp ->
  (forall n, alloc_walk n w pool tmp (u32 (size + sizeof_realdata)) 0 = None) ->
  palloc malloc junk callocs fuel w pool size = None.
Proof.
  intros Hpool Hp Hw Hloop. unfold palloc. rewrite (proj2 (Z.eqb_neq _ _) Hpool), Hp. bind_simpl.
  unfold palloc_walks in Hw. repeat (case_match; [discriminate Hw|]). injection Hw as Hw.
  rewrite Hw. destruct fuel as [|fuel]; [done|]. cbn [palloc_again]. unfold alloc_realdata.
  cbn [alloc_again]. by rewrite Hloop.
Qed.

(** C29. [__mempool_move2tail] moves a pool that has failed eight times behind all the others
    while the loop of [__alloc_realdata] is walking towards it. Whenever the walk of an allocation
    reaches a pool that is to be moved and behind which only one pool is left, also to be moved
    ([crossing]), it never ends: after every number of rounds the loop stands at one of the two
    pools, in turn, without an access to memory that is at fault, and the call does not return
    whatever fuel it is given. *)
Theorem palloc_diverges malloc junk callocs w pool size p tmp j w' a b :
  pool <> 0 -> pools w !! pool = Some p -> palloc_walks p pool size = Some tmp ->
  walk_iter pool (u32 (size + sizeof_realdata)) j w tmp = Some (w', a) ->
  crossing pool (u32 (size + sizeof_realdata)) w' a b ->
  (forall k, exists wk,
    walk_iter pool (u32 (size + sizeof_realdata)) (j + k) w tmp = Some (wk, if Nat.even k then a else b)) /\
  (forall fuel, palloc malloc junk callocs fuel w pool size = None).
Proof.
  intros Hpool Hp Hw Hj Hc.
  assert (forall k, exists wk, walk_iter pool (u32 (size + sizeof_realdata)) (j + k) w tmp =
    Some (wk, if Nat.even k then a else b)) as Hall by (intros k; by eapply walk_into_crossing).
  split; [exact Hall|]. intros fuel. eapply palloc_stuck; [done|exact Hp|exact Hw|].
  apply endless_walk. intros n. destruct (decide (j <= n)%nat) as [Hle|Hlt].
  - destruct (Hall (n - j)%nat) as [wk E]. replace (j + (n - j))%nat with n in E by lia. by rewrite E.
  - by apply (walk_iter_prefix _ _ n (j - n) w tmp w' a); replace (n + (j - n))%nat with j by lia.
Qed.

(** A request just below 4 GiB, allowed when [single_max] is that large, wraps around
    when the header of a large block is added: the block that is registered and returned has
    at most 16 bytes. *)
Theorem alloc_large_overflows malloc w pool size p t addr :
  2 ^ 32 - 19 <= size < 2 ^ 32 -> pools w !! pool = Some p -> addr <> 0 ->
  malloc w (u32 (MEMPOOL_MEMALIGN (size + sizeof_large) MEMPOOL_ALIGN_SIZE)) = addr ->
  mp_hash_table_insert (largeht (config p)) addr = Some (t, 0) ->
  exists w' n, alloc_large malloc w pool size = Some (w', addr + sizeof_large) /\
    larges w' !! addr = Some (Large MEMPOOL_LARGEFLAG n 0) /\ n <= 16.
Proof.
  intros Hsize Hp Haddr Hm Ht. unfold alloc_large. rewrite Hm, (proj2 (Z.eqb_neq _ _) Haddr).
  cbn [pools with_larges]. rewrite Hp. bind_simpl. rewrite Ht. bind_simpl.
  unfold on_config, on_property, on_pool. cbn [pools with_larges]. rewrite Hp. bind_simpl.
  cbn [pools with_pools]. rewrite lookup_insert_eq. bind_simpl. rewrite Z.eqb_refl.
  do 2 eexists. split; [reflexivity|]. cbn [larges with_pools with_larges].
  split; [apply lookup_insert_eq|].
  unfold MEMPOOL_MEMALIGN, MEMPOOL_ALIGN_SIZE, sizeof_large, wrap.
  replace (Z.lnot (8 - 1)) with (Z.lnot (Z.ones 3)) by reflexivity.
  rewrite <- Z.ldiff_land, Z.ldiff_ones_r, Z.shiftl_mul_pow2, Z.shiftr_div_pow2 by lia.
  change (2 ^ 3) with 8. change (2 ^ 32) with 4294967296 in *.
  pose proof (Z.div_mod (size + 12 + (8 - 1)) 8 ltac:(lia)).
  pose proof (Z.mod_pos_bound (size + 12 + (8 - 1)) 8 ltac:(lia)).
  rewrite <- (Z.mod_add _ (-1)) by lia. rewrite Z.mod_small; lia.
Qed.

(** A pool smaller than its own administration is accepted, and its free size wraps
    around: the pool believes to own more bytes than were allocated for it. *)
Theorem tiny_pool_overflows p :
  0 < pool_size p < sizeof_mempool ->
  leftsize (init_mempool p) = 2 ^ 16 - (sizeof_mempool - pool_size p) /\
  pool_size p < leftsize (init_mempool p).
Proof.
  intros Hp. unfold sizeof_mempool in *. cbn [init_mempool leftsize].
  assert (u16 (pool_size p - 192) = 2 ^ 16 - (192 - pool_size p)) as E.
  { unfold wrap. rewrite <- (Z.mod_add _ 1) by lia. rewrite Z.mod_small; lia. }
  unfold sizeof_mempool. rewrite E. lia.
Qed.

(** [__pmemcpy] copies all of the source behind the used part of the destination block
    or nothing: it changes no byte outside the block, and when it reports a positive count
    the bytes there are those of the source and the count fits into what was left. *)
Theorem pmemcpy_in_bounds w dest dsize used src n w' r :
  0 <= used <= dsize -> dsize < 2 ^ 31 -> 0 <= n ->
  pmemcpy_internal w dest dsize used src n = (w', r) ->
  pools w' = pools w /\ larges w' = larges w /\
  (forall x, ~ (dest + used <= x < dest + dsize) -> bytes w' !! x = bytes w !! x) /\
  (0 < r -> r = n /\ used + n <= dsize /\
    forall i, 0 <= i < n -> bytes w' !! (dest + used + i) = bytes w !! (src + i)) /\
  (r <= 0 -> n = 0 \/ w' = w).
Proof.
  intros Hu Hd Hn. unfold pmemcpy_internal. rewrite wrap_small by lia.
  destruct (Z.ltb_spec (dsize - used) n) as [|Hfit].
  { intros [= <- <-]. split_and!; try done; lia || by right. }
  destruct (_ || _).
  { intros [= <- <-]. split_and!; try done; lia || by right. }
  intros [= <- <-]. cbn [pools larges bytes with_bytes].
  assert (i32 n = n) as Hi by (unfold sint; change (2 ^ (32 - 1)) with 2147483648;
    change (2 ^ 32) with 4294967296; rewrite Z.mod_small; lia).
  split; [done|]. split; [done|]. split; [|split].
  - intros x Hx. rewrite write_bytes_lookup, length_read_bytes.
    destruct (Z.leb_spec (dest + used) x), (Z.ltb_spec x (dest + used + Z.of_nat (Z.to_nat n)));
      simpl; try done. lia.
  - rewrite Hi. intros Hpos. split; [done|]. split; [lia|]. intros i Hr.
    rewrite write_bytes_lookup, length_read_bytes.
    rewrite (proj2 (Z.leb_le _ _)), (proj2 (Z.ltb_lt _ _)) by lia. cbn [andb].
    replace (Z.to_nat (dest + used + i - (dest + used))) with (Z.to_nat i) by lia.
    rewrite read_bytes_lookup by lia. cbn [default].
    by replace (src + Z.of_nat (Z.to_nat i)) with (src + i) by lia.
  - rewrite Hi. intros. left. lia.
Qed.

(** [prealloc] stores the number of used bytes through the header type of the old block.
    When a large block shrinks into a pool this overwrites the status of the new block with
    "free": after its neighbour has been released the block is handed out a second time. *)
Theorem prealloc_shrink_hands_out_twice :
  exists b, Concrete.shrunk = Some (b, 0, b) /\ b <> 0.
Proof. eexists. split; [vm_compute; reflexivity|done]. Qed.

(** When a block of a pool grows into a large one the same store hits the middle of the
    new header: ten used bytes become 200 + 256 * 10. *)
Theorem prealloc_grow_corrupts_used : Concrete.grown = Some (200 + 256 * 10).
Proof. vm_compute. reflexivity. Qed.

(** * Witnesses *)

(** Eleven allocations of 3000 bytes from a pool with pages of 4096 bytes succeed. The twelfth
    reaches two pools that have failed eight times, and does not return. *)
Lemma palloc_diverges_witness :
  exists w tmp a b, Concrete.crowded = Some w /\
    (forall k, exists wk, walk_iter Concrete.base_pool 3015 (8 + k) w tmp = Some (wk, if Nat.even k then a else b)) /\
    (forall fuel, Concrete.alloc fuel w 3000 = None).
Proof.
  destruct Concrete.crowded_reached as [w E].
  assert (exists tmp w1 a b,
    (s ← strip <$> Concrete.crowded; p ← pools s !! Concrete.base_pool;
     palloc_walks p Concrete.base_pool 3000) = Some tmp /\
    (s ← strip <$> Concrete.crowded; walk_iter Concrete.base_pool 3015 8 s tmp) = Some (w1, a) /\
    crossing Concrete.base_pool 3015 w1 a b) as (tmp & w1 & a & b & F1 & F2 & F3).
  { do 2 eexists. exists 1310720, 1179648. split; [vm_compute; reflexivity|].
    split; [vm_compute; reflexivity|]. apply crossing_test_ok. vm_compute. reflexivity. }
  rewrite E in F1, F2. cbn [fmap option_fmap option_map mbind option_bind] in F1, F2.
  rewrite strip_lookup in F1. destruct (pools w !! Concrete.base_pool) as [p|] eqn:Hp; [|done].
  rewrite strip_walk_iter in F2.
  destruct (walk_iter Concrete.base_pool 3015 8 w tmp) as [[w' a']|] eqn:Hw; [|done].
  injection F2 as <- <-. cbn [fst snd] in F3. apply strip_crossing in F3.
  exists w, tmp, a', b. split; [exact E|].
  exact (palloc_diverges Concrete.bump_malloc Concrete.zeroes (true, true, true) w Concrete.base_pool 3000
    p tmp 8 w' a' b ltac:(done) Hp F1 Hw F3).
Defined.

Lemma tiny_pool_overflows_witness :
  leftsize (init_mempool (Pool [] 0 ∅ 8 0 0)) = 2 ^ 16 - (sizeof_mempool - 8) /\
  8 < leftsize (init_mempool (Pool [] 0 ∅ 8 0 0)).
Proof. apply (tiny_pool_overflows (Pool [] 0 ∅ 8 0 0)). unfold sizeof_mempool. simpl. lia. Defined.

Lemma alloc_large_overflows_witness :
  exists w p t w' n, pools w !! Concrete.base_pool = Some p /\
    mp_hash_table_insert (largeht (config p)) 0x120000 = Some (t, 0) /\
    alloc_large Concrete.bump_malloc w Concrete.base_pool (2 ^ 32 - 8) =
      Some (w', 0x120000 + sizeof_large) /\
    larges w' !! 0x120000 = Some (Large MEMPOOL_LARGEFLAG n 0) /\ n <= 16.
Proof.
  destruct (mp_hash_table_create_spec (fun a => a) (fun a => a mod 2 ^ 32) Z.sub true 2)
    as (lt & _ & Hrep & _ & Hb); [exact test_callbacks_ok|lia|].
  destruct (mp_hash_table_insert_spec (fun a => a) lt [] 0x120000 Hrep) as (t & Ht & _).
  unfold set_insert in Ht. rewrite decide_False in Ht.
  2: { rewrite Exists_nil. simpl. lia. }
  set (p := set_config (set_largeht (Some lt) (config Concrete.zeroes)) Concrete.zeroes).
  set (w := World {[ Concrete.base_pool := p ]} ∅ ∅).
  destruct (alloc_large_overflows Concrete.bump_malloc w Concrete.base_pool (2 ^ 32 - 8) p (Some t)
    0x120000) as (w' & n & E & Hl & Hn).
  - lia.
  - reflexivity.
  - discriminate.
  - reflexivity.
  - exact Ht.
  - exists w, p, (Some t), w', n. split; [reflexivity|]. split; [exact Ht|].
    split; [exact E|]. split; [exact Hl|exact Hn].
Defined.

Lemma pmemcpy_in_bounds_witness :
  let w := World ∅ ∅ {[ 4096 := 7 ]} in
  exists w' r, pmemcpy_internal w 100 200 10 4096 1 = (w', r) /\ 0 < r /\ bytes w' !! 110 = Some 7.
Proof.
  intros w. destruct (pmemcpy_internal w 100 200 10 4096 1) as [w' r] eqn:E.
  destruct (pmemcpy_in_bounds w 100 200 10 4096 1 w' r) as (_ & _ & _ & Hok & _);
    [lia|lia|lia|exact E|].
  exists w', r. split; [reflexivity|].
  assert (r = 1) as -> by (vm_compute in E; congruence).
  split; [reflexivity|]. destruct (Hok ltac:(lia)) as (_ & _ & Hc).
  exact (Hc 0 ltac:(lia)).
Defined.
