(* ===== verification/MemPoolClient.v ===== *)
(** Clients of a memory pool that may not grow beyond its base pool
    (src/demo_mempool/mempool.c with [max_memsize] at most twice the size of a pool).

    [client_run] is what a client does: it allocates, asks for sizes, and releases blocks it
    holds. Blocks come from the base pool (Pool.v) or, when they are too large for it, from
    [malloc], of which [malloc_ok] is all that is relied on ([Fresh.malloc] keeps it); the two
    hash tables (MpHash.v) say which is which. [serving] relates the state of the allocator to
    the blocks the client holds. Nothing here is code of the repository: the operations are
    those of MemPool.v. *)

From S2P Require Import Prelude Linked Hashes MpHash Pool MemPool.

(** ** Addresses as keys of the hash tables *)

Definition key (a : Z) : Z := wrap 64 a.

Definition address (a : Z) : Prop := 0 < a < 2 ^ 64.

Lemma key_inj a b : address a -> address b -> key a = key b -> a = b.
Proof. unfold key, address. intros Ha Hb. by rewrite !wrap_small by lia. Qed.

Lemma addr_bytes_key a b : key a = key b -> addr_bytes a = addr_bytes b.
Proof.
  intros Hk. unfold addr_bytes. apply list_fmap_ext. intros i x Hi.
  apply lookup_seq in Hi as [-> Hi]. cbn [Nat.add].
  apply Z.bits_inj'. intros j Hj. rewrite !Z.land_spec, !Z.shiftr_spec by done.
  destruct (Z.ltb_spec j 8) as [Hj8|Hj8].
  - f_equal. assert (forall x, Z.testbit (key x) (j + 8 * Z.of_nat i) = Z.testbit x (j + 8 * Z.of_nat i)) as Ht.
    { intros x. unfold key. rewrite testbit_wrap by lia.
      destruct (Z.ltb_spec (j + 8 * Z.of_nat i) 64); [done|lia]. }
    by rewrite <- (Ht a), <- (Ht b), Hk.
  - by rewrite (testbit_high 8 ltac:(lia) 0xff) by lia; rewrite !andb_false_r.
Qed.

Lemma hash_memcmp_key a b : hash_memcmp a b = 0 <-> key a = key b.
Proof.
  unfold hash_memcmp, key, sint, wrap.
  set (r := (a - b + 2 ^ (64 - 1)) mod 2 ^ 64 - 2 ^ (64 - 1)).
  transitivity (r = 0).
  { destruct (Z.ltb_spec 0 r), (Z.ltb_spec r 0); lia. }
  unfold r. change (2 ^ (64 - 1)) with 9223372036854775808. change (2 ^ 64) with 18446744073709551616.
  Z.to_euclidean_division_equations. lia.
Qed.

Lemma address_call_ok : call_ok key hash_memaddr hash_memcmp.
Proof.
  split; [apply hash_memcmp_key|]. split.
  - intros a b Hk. unfold hash_memaddr. by rewrite (addr_bytes_key _ _ Hk).
  - intros a. apply FnvFacts.mp_hash_bounds. unfold addr_bytes. apply Forall_fmap, Forall_forall.
    intros i _. simpl. change 255 with (Z.ones 8). rewrite Z.land_ones by done.
    by apply Z.mod_pos_bound.
Qed.

(** ** The hash tables as sets of addresses *)

Section tables.
#[local] Existing Instance same_key_dec.
Implicit Types (t : mp_hash_table) (es : list Z).

Lemma same_key_address es d e :
  Forall address es -> address d -> e ∈ es -> same_key key d e <-> e = d.
Proof.
  intros Hes Hd He. rewrite Forall_forall in Hes. unfold same_key. split; [|by intros ->].
  intros Hk. symmetry. apply key_inj; auto.
Qed.

Lemma find_address t es d :
  table_rep key t es -> Forall address es -> address d ->
  mp_hash_table_find (Some t) d = Some (if decide (d ∈ es) then d else 0).
Proof.
  intros Hrep Hes Hd. rewrite (mp_hash_table_find_spec key t es d Hrep).
  rewrite (proj2 (Z.eqb_neq d 0)) by (unfold address in Hd; lia). unfold set_find.
  pose proof (table_rep_distinct key t es Hrep) as Hnd. destruct (decide (d ∈ es)) as [Hin|Hin].
  - by rewrite (present_unique key es d d Hnd Hin eq_refl).
  - rewrite (absent_filter key es d); [done|]. intros e He Hk. apply Hin.
    apply (same_key_address es d e) in Hk; [by rewrite <- Hk|done..].
Qed.

Lemma insert_address t es d :
  table_rep key t es -> Forall address es -> address d -> d ∉ es ->
  exists t' r, mp_hash_table_insert (Some t) d = Some (Some t', r) /\ same_config t t' /\
    (r = 0 /\ table_rep key t' (d :: es) \/
     r = -1 /\ table_rep key t' es /\ num_buckets t <= Z.of_nat (length es)).
Proof.
  intros Hrep Hes Hd Hin. destruct (mp_hash_table_insert_spec key t es d Hrep) as (t' & E & Hrep').
  exists t', (set_insert key (num_buckets t) es d).2. split; [done|].
  split; [by eapply insert_config|]. revert Hrep'. unfold set_insert.
  case_decide as Hc; [right; split_and!; try done|by left].
  destruct Hc as [?|[?|Hex]]; [unfold address in Hd; lia|done|].
  apply Exists_exists in Hex as (e & He & Hk). apply (same_key_address es d e) in Hk; [|done..]. congruence.
Qed.

Lemma delete_address t es d :
  table_rep key t es -> Forall address es -> address d -> d ∈ es ->
  exists t' es', mp_hash_table_delete (Some t) d = Some (Some t', 0, if has_free t then [d] else []) /\
    same_config t t' /\ table_rep key t' es' /\ es ≡ₚ d :: es'.
Proof.
  intros Hrep Hes Hd Hin. destruct (mp_hash_table_delete_spec key t es d Hrep) as (t' & E & Hrep').
  pose proof (table_rep_distinct key t es Hrep) as Hnd. revert E Hrep'. unfold set_delete.
  rewrite decide_False.
  2: { intros [?|Hall]; [unfold address in Hd; lia|]. rewrite Forall_forall in Hall. by apply (Hall d). }
  cbn [fst snd]. rewrite (present_unique key es d d Hnd Hin eq_refl). intros E Hrep'.
  exists t', (filter (fun e => ~ same_key key d e) es). split; [done|].
  split; [by eapply delete_config|]. split; [done|].
  apply list_elem_of_split in Hin as (l1 & l2 & ->).
  assert (forall l : list Z, (forall e, e ∈ l -> e ∈ l1 ++ d :: l2) -> d ∉ l ->
    filter (fun e => ~ same_key key d e) l = l) as Hf.
  { intros l Hsub Hl. apply filter_all, Forall_forall. intros e He Hk.
    apply (same_key_address (l1 ++ d :: l2) d e) in Hk; [congruence|done|done|by apply Hsub]. }
  apply NoDup_fmap_1 in Hnd. apply NoDup_app in Hnd as (_ & H12 & [H2 _]%NoDup_cons).
  rewrite filter_app, filter_cons_False by by intros [].
  rewrite !Hf; [symmetry; apply Permutation_middle|set_solver..|].
  intros Hl. by apply (H12 d Hl); left.
Qed.
End tables.

(** ** What does not matter to a pool *)

Record same_blocks (p p' : pool) : Prop := SameBlocks {
  sb_freelist : freelist p' = freelist p;
  sb_admin : same_admin p p';
  sb_fields : forall a, fields <$> mem p' !! a = fields <$> mem p !! a;
  sb_links : forall a, links <$> mem p' !! a = links <$> mem p !! a;
}.

Lemma same_blocks_ok p p' cap bs : same_blocks p p' -> pool_ok p cap bs -> pool_ok p' cap bs.
Proof.
  intros [Hf (Hb & Hs & Hl) Hx Hk] [[[F1 F2 F3 F4 F5 [u Hu]] ->]|[U1 U2 [lp U3] (lists & U4 & U5) U6 U7 U8]].
  - left. split; [|done]. split; try congruence.
    specialize (Hx 0). specialize (Hk 0). rewrite Hu in Hx, Hk.
    destruct (mem p' !! 0) as [[]|]; [|done]. unfold fields, links in *. simplify_eq/=. by eexists.
  - right. split; try congruence; try done.
    + exists lp. eapply tiles_frame; [|exact U3]. auto.
    + exists lists. split; [|done]. eapply lists_frame; [exact U4|done..|].
      intros a _. specialize (Hx a).
      destruct (mem p' !! a), (mem p !! a); try done. unfold fields in Hx. simplify_eq/=. congruence.
Qed.

Lemma with_failed_same p f : same_blocks p (with_failed p f).
Proof. by split. Qed.

Lemma set_used_same p a v m : update (mem p) a (set_used v) = Some m -> same_blocks p (with_mem p m).
Proof.
  unfold update. destruct (mem p !! a) as [n|] eqn:Hn; [|done]. intros [= <-].
  split; [done|done|..]; intros b; cbn [mem with_mem]; rewrite lookup_insert; case_decide; subst;
    rewrite ?Hn; done.
Qed.

(** ** What the C library promises *)

(** Two regions, each an address and a length, have no byte in common. *)
Definition apart (a n b m : Z) : Prop := a + n <= b \/ b + m <= a.

Lemma apart_sym a n b m : apart a n b m -> apart b m a n.
Proof. unfold apart. tauto. Qed.

(** A block is null or lies inside the address space, apart from all that is in use. *)
Definition malloc_ok (malloc : world -> Z -> Z) : Prop := forall w n,
  0 < n -> malloc w n = 0 \/ (0 < malloc w n /\ malloc w n + n < 2 ^ 64 /\
    (forall b p, pools w !! b = Some p -> apart (malloc w n) n b (pool_size (pdata p))) /\
    (forall l L, larges w !! l = Some L -> apart (malloc w n) n l (large_size L))).

(** ** The state of an allocator that has only its base pool *)

Definition total (ls : gmap Z mempool_large_t) : Z :=
  map_fold (fun _ L n => large_size L + n) 0 ls.

Lemma total_insert ls l L : ls !! l = None -> total (<[l := L]> ls) = large_size L + total ls.
Proof. intros Hl. unfold total. rewrite map_fold_insert_L; [done| |done]. intros. lia. Qed.

Lemma total_delete ls l L : ls !! l = Some L -> total ls = large_size L + total (delete l ls).
Proof. intros Hl. unfold total. rewrite (map_fold_delete_L _ _ l L ls); [done| |done]. intros. lia. Qed.

Lemma total_nonneg ls : (forall l L, ls !! l = Some L -> 0 <= large_size L) -> 0 <= total ls.
Proof.
  induction ls as [|l L ls Hl IH] using map_ind; [done|]. intros H. rewrite total_insert by done.
  pose proof (H l L (lookup_insert_eq _ _ _)). assert (0 <= total ls); [|lia]. apply IH.
  intros k K HK. apply (H k). rewrite lookup_insert_ne; [done|congruence].
Qed.

Section one_pool.
Context (base ps : Z).

Abbreviation cap := (ps - sizeof_mempool).

Definition at_base (p : mempool) (ls : gmap Z mempool_large_t) (bt : gmap Z Z) : world :=
  World {[ base := p ]} ls bt.

(** The address of the payload of the block whose header is at an offset. *)
Definition payload (off : Z) : Z := base + sizeof_mempool + off + sizeof_realdata.

Record admin_ok (p : mempool) : Prop := AdminOk {
  ao_alone : pool_next p = 0;
  ao_size : pool_size (pdata p) = ps;
  ao_max : ps < max_memsize (config p) <= 2 * ps;
  ao_single : single_max (config p) <= max_memsize (config p);
  ao_ht : exists t, ht (config p) = Some t /\ table_rep key t [base];
}.

Record larges_ok (p : mempool) (ls : gmap Z mempool_large_t) : Prop := LargesOk {
  la_table : exists t es, largeht (config p) = Some t /\ table_rep key t es /\
    has_free t = true /\ forall l, l ∈ es <-> is_Some (ls !! l);
  la_alloced : total_alloced (property p) = total ls;
  la_bound : 0 <= total ls < 2 ^ 20;
  la_region : forall l L, ls !! l = Some L -> 0 < l /\ sizeof_large < large_size L /\
    l + large_size L < 2 ^ 64 /\ apart l (large_size L) base ps;
  la_apart : forall l L k K, ls !! l = Some L -> ls !! k = Some K -> l <> k ->
    apart l (large_size L) k (large_size K);
}.

(** What the client holds, and how many bytes it asked for, against the headers in the pool
    and the large blocks. *)
Record held_ok (ls : gmap Z mempool_large_t) (live held : gmap Z Z) : Prop := HeldOk {
  ho_small : forall off s, live !! off = Some s -> held !! payload off = Some (s - sizeof_realdata);
  ho_large : forall l L, ls !! l = Some L ->
    exists n, held !! (l + sizeof_large) = Some n /\ n + sizeof_large <= large_size L;
  ho_held : forall a n, held !! a = Some n -> 0 < n /\
    (live !! (a - payload 0) = Some (n + sizeof_realdata) \/ is_Some (ls !! (a - sizeof_large)));
}.

Record serving (p : mempool) (ls : gmap Z mempool_large_t) (bs : list block)
    (live held : gmap Z Z) : Prop := Serving {
  sv_admin : admin_ok p;
  sv_larges : larges_ok p ls;
  sv_pool : pool_ok (pdata p) cap bs;
  sv_view : view_ok live bs;
  sv_held : held_ok ls live held;
}.

Lemma lookup_base p ls bt : pools (at_base p ls bt) !! base = Some p.
Proof. apply lookup_singleton_eq. Qed.

Lemma on_pool_base p ls bt f : on_pool (at_base p ls bt) base f = Some (at_base (f p) ls bt).
Proof. unfold on_pool. rewrite lookup_base. bind_simpl. unfold with_pools, at_base. cbn. by rewrite insert_singleton_eq. Qed.

Lemma on_config_base p ls bt f :
  on_config (at_base p ls bt) base f = Some (at_base (set_config (f (config p)) p) ls bt).
Proof. unfold on_config. by rewrite on_pool_base. Qed.

Lemma on_property_base p ls bt f :
  on_property (at_base p ls bt) base f = Some (at_base (set_property (f (property p)) p) ls bt).
Proof. unfold on_property. by rewrite on_pool_base. Qed.
Context (Hbase : 0 < base) (Hend : base + ps < 2 ^ 64).

Ltac sizes := unfold payload, apart, address, sizeof_realdata, sizeof_large, sizeof_mempool, MEMPOOL_NULL in *.

Lemma pool_ok_size p bs : pool_ok p cap bs ->
  pool_size p = ps /\ sizeof_realdata <= cap < MEMPOOL_NULL.
Proof. intros [[[H1 H2] _]|[H1 H2]]; sizes; lia. Qed.

Lemma busy_header p bs live off s : pool_ok p cap bs -> view_ok live bs -> live !! off = Some s ->
  0 <= off /\ off + s <= cap /\ exists n, mem p !! off = Some n /\ rd_offset n = off /\
    s <= rd_size n /\ off + rd_size n <= cap /\ rd_status n = 1.
Proof.
  intros Hp [_ V] (b & Hb & <- & Hbb & Hs)%V. destruct (pool_ok_tiles _ _ _ Hp) as [lp Ht].
  destruct (tiles_bounds _ _ _ _ _ _ _ Ht) as [_ Hin].
  destruct (Hin b Hb) as (? & ? & ? & n & ? & ? & ? & Hst). rewrite Hbb in Hst.
  split_and!; [lia|lia|]. exists n. split_and!; [done|done|lia|lia|done].
Qed.

(** *** Where the blocks are *)

Lemma held_place p ls bs live held a n :
  serving p ls bs live held -> held !! a = Some n -> 0 < n /\
  ((exists off, a = payload off /\ live !! off = Some (n + sizeof_realdata) /\ 0 <= off /\
      off + n + sizeof_realdata <= cap /\ ls !! (a - sizeof_large) = None) \/
   (exists L, ls !! (a - sizeof_large) = Some L /\ n + sizeof_large <= large_size L)).
Proof.
  intros [_ Hl Hp V Hh] Ha. destruct (ho_held _ _ _ Hh a n Ha) as [Hn [Hs|[L HL]]]; (split; [done|]).
  - left. exists (a - payload 0). destruct (busy_header _ _ _ _ _ Hp V Hs) as (? & ? & _).
    split_and!; [sizes; lia|done|lia|lia|].
    destruct (ls !! _) as [L|] eqn:HL; [|done]. destruct (la_region _ _ Hl _ _ HL) as (_ & ? & _ & ?).
    sizes. lia.
  - right. exists L. split; [done|]. destruct (ho_large _ _ _ Hh _ _ HL) as (n' & Hn' & ?).
    replace (a - sizeof_large + sizeof_large) with a in Hn' by lia. congruence.
Qed.

(** *** The table of large blocks *)

Lemma larges_address p ls es :
  larges_ok p ls -> (forall l, l ∈ es <-> is_Some (ls !! l)) -> Forall address es.
Proof.
  intros Hl Hes. apply Forall_forall. intros l [L HL]%Hes.
  destruct (la_region _ _ Hl _ _ HL) as (? & ? & ? & _). sizes. lia.
Qed.
Lemma check_large_spec p ls bs live held bt l :
  serving p ls bs live held -> address l ->
  check_large_in_pool (at_base p ls bt) base l = Some (if decide (is_Some (ls !! l)) then l else 0).
Proof.
  intros S Ha. destruct (la_table _ _ (sv_larges _ _ _ _ _ S)) as (t & es & Ht & Hrep & _ & Hes).
  unfold check_large_in_pool. rewrite (proj2 (Z.eqb_neq base 0)) by lia.
  rewrite lookup_base. bind_simpl. rewrite Ht, (find_address t es l Hrep); [|by eapply larges_address; [apply S|]|done].
  bind_simpl. destruct (decide (l ∈ es)) as [Hin|Hin], (decide (is_Some (ls !! l))) as [Hs|Hs];
    try (exfalso; by apply Hin, Hes || by apply Hs, Hes).
  - by rewrite Z.eqb_refl.
  - by destruct (Z.eqb_spec 0 l) as [<-|].
Qed.

(** *** One round at the base pool *)

Lemma with_same_failed p : set_pdata (with_failed (pdata p) (failed (pdata p))) p = p.
Proof. by destruct p as [[] ? ? ? ?]. Qed.

Lemma alloc_visit_base p ls bt size sf d rd :
  pool_next p = 0 -> pool_alloc (pdata p) size = Some (d, rd) ->
  (rd = MEMPOOL_NULL -> exists f, alloc_visit (at_base p ls bt) base base size sf =
     Some (at_base (set_pdata (with_failed (pdata p) f) p) ls bt, search_on (config p) 0 sf)) /\
  (rd <> MEMPOOL_NULL -> alloc_visit (at_base p ls bt) base base size sf =
     Some (at_base (set_pdata d p) ls bt, Found rd)).
Proof.
  intros Hn. unfold pool_alloc, alloc_visit. rewrite lookup_base. bind_simpl. rewrite Hn.
  destruct (mempool_get_freelist (pdata p) size) as [[fl i]|]; [|done]. bind_simpl.
  destruct (_ || _).
  - intros [= <- <-]. split; [intros _|done].
    destruct (failed (pdata p) <? MEMPOOL_FAILED_SKIP).
    + destruct (leftsize (pdata p) <? failed_memsize (config p)).
      * rewrite on_pool_base. bind_simpl. by eexists.
      * bind_simpl. exists (failed (pdata p)). by rewrite with_same_failed.
    + unfold mempool_move2tail. rewrite lookup_base. bind_simpl. rewrite Z.eqb_refl. bind_simpl.
      exists (failed (pdata p)). by rewrite with_same_failed.
  - intros ->. bind_simpl. destruct (Z.eqb_spec rd MEMPOOL_NULL) as [->|Hrd].
    + split; [intros _|done]. destruct (_ && _).
      * rewrite on_pool_base. bind_simpl. by eexists.
      * bind_simpl. exists (failed (pdata p)). by rewrite with_same_failed.
    + split; [done|intros _]. rewrite on_pool_base. by bind_simpl.
Qed.

Lemma alloc_realdata_base fuel p ls bt size d rd :
  (3 <= fuel)%nat -> pool_next p = 0 -> pool_alloc (pdata p) size = Some (d, rd) ->
  (rd = MEMPOOL_NULL -> exists f, alloc_realdata fuel (at_base p ls bt) base base size =
     Some (at_base (set_pdata (with_failed (pdata p) f) p) ls bt, None)) /\
  (forall r, rd <> MEMPOOL_NULL -> mem d !! rd = Some r ->
     alloc_realdata fuel (at_base p ls bt) base base size =
     Some (at_base (set_property (add_leftsize (- rd_size r) (property p)) (set_pdata d p)) ls bt,
           Some (base, rd))).
Proof.
  intros Hf Hn E. destruct (alloc_visit_base p ls bt size 0 d rd Hn E) as [V1 V2].
  destruct fuel as [|[|fuel]]; [lia|lia|]. unfold alloc_realdata.
  cbn [alloc_again]. cbn [alloc_walk]. rewrite (proj2 (Z.eqb_neq base 0)) by lia. split.
  - intros Hrd. destruct (V1 Hrd) as [f ->]. bind_simpl. exists f. unfold search_on.
    destruct (0 <? max_searchpool (config p)); [destruct (max_searchpool (config p) <=? 0 + 1)|].
    + bind_simpl. rewrite (proj2 (Z.eqb_neq base 0)) by lia. cbn [negb andb].
      change (0 <? MEMPOOL_REALLOC_MAXCHKS) with true. rewrite lookup_base. bind_simpl. cbn [andb pool_next set_pdata]. rewrite Hn.
      destruct (_ || _); [reflexivity|]. by destruct (_ <=? _).
    + done.
    + done.
  - intros r Hrd Hr. rewrite (V2 Hrd). bind_simpl. rewrite lookup_base. bind_simpl.
    cbn [pdata set_pdata]. rewrite Hr. bind_simpl. by rewrite on_property_base.
Qed.

(** *** What the client holds after each operation *)

Lemma held_insert_small p ls bs live held off n :
  serving p ls bs live held -> 0 <= off -> off + sizeof_realdata <= cap -> 0 < n ->
  held_ok ls (<[off := n + sizeof_realdata]> live) (<[payload off := n]> held).
Proof.
  intros [_ Hl _ _ [H1 H2 H3]] Hoff Hcap Hn. split.
  - intros o s. rewrite !lookup_insert. repeat case_decide; sizes; try lia.
    + intros [= <-]. f_equal. lia.
    + by apply H1.
  - intros l L HL. destruct (la_region _ _ Hl _ _ HL) as (? & ? & _ & ?).
    rewrite lookup_insert_ne by (sizes; lia). by apply H2.
  - intros a m. rewrite !lookup_insert. repeat case_decide; sizes; try lia.
    + intros [= <-]. auto.
    + by apply H3.
Qed.

Lemma held_delete_small p ls bs live held off :
  serving p ls bs live held -> 0 <= off -> off + sizeof_realdata <= cap ->
  held_ok ls (delete off live) (delete (payload off) held).
Proof.
  intros [_ Hl _ _ [H1 H2 H3]] Hoff Hcap. split.
  - intros o s. rewrite !lookup_delete. repeat case_decide; sizes; try lia; [done|]. by apply H1.
  - intros l L HL. destruct (la_region _ _ Hl _ _ HL) as (? & ? & _ & ?).
    rewrite lookup_delete_ne by (sizes; lia). by apply H2.
  - intros a m. rewrite !lookup_delete. repeat case_decide; sizes; try lia; [done|]. by apply H3.
Qed.

Lemma held_insert_large p ls bs live held l L n :
  serving p ls bs live held -> apart l (large_size L) base ps -> 0 < n ->
  n + sizeof_large <= large_size L ->
  held_ok (<[l := L]> ls) live (<[l + sizeof_large := n]> held).
Proof.
  intros [_ _ Hp V [H1 H2 H3]] Hr Hn Hs. split.
  - intros o s Ho. destruct (busy_header _ _ _ _ _ Hp V Ho) as (? & ? & _).
    assert (sizeof_realdata <= s).
    { destruct (H3 _ _ (H1 _ _ Ho)) as [? _]. lia. }
    rewrite lookup_insert_ne by (sizes; lia). by apply H1.
  - intros k K. rewrite !lookup_insert. repeat case_decide; sizes; try lia.
    + intros [= <-]. eauto.
    + by apply H2.
  - intros a m. rewrite !lookup_insert. repeat case_decide; sizes; try lia.
    + intros [= <-]. eauto.
    + by apply H3.
Qed.

Lemma held_delete_large p ls bs live held l L :
  serving p ls bs live held -> ls !! l = Some L ->
  held_ok (delete l ls) live (delete (l + sizeof_large) held).
Proof.
  intros [_ Hl Hp V [H1 H2 H3]] HL. destruct (la_region _ _ Hl _ _ HL) as (? & ? & _ & ?). split.
  - intros o s Ho. destruct (busy_header _ _ _ _ _ Hp V Ho) as (? & ? & _).
    assert (sizeof_realdata <= s).
    { destruct (H3 _ _ (H1 _ _ Ho)) as [? _]. lia. }
    rewrite lookup_delete_ne by (sizes; lia). by apply H1.
  - intros k K. rewrite !lookup_delete. repeat case_decide; sizes; try lia; [done|]. by apply H2.
  - intros a m. rewrite !lookup_delete. repeat case_decide; sizes; try lia; [done|]. by apply H3.
Qed.

(** The pool of a serving allocator changes, and nothing else. *)
Lemma serving_pool p ls bs live held p' bs' live' held' :
  serving p ls bs live held -> config p' = config p -> pool_next p' = pool_next p ->
  total_alloced (property p') = total_alloced (property p) ->
  pool_ok (pdata p') cap bs' -> view_ok live' bs' -> held_ok ls live' held' ->
  serving p' ls bs' live' held'.
Proof.
  intros [[A1 A2 A3 A4 A5] [L1 L2 L3 L4 L5] _ _ _] Hc Hn Ht Hp Hv Hh. split; try done.
  - split; rewrite ?Hc; try done; [congruence|]. apply (pool_ok_size _ _ Hp).
  - split; rewrite ?Hc; try done. congruence.
Qed.

(** The world of an allocator whose client holds [held]. *)
Definition serves (held bt : gmap Z Z) (w : world) : Prop :=
  exists p ls bs live, w = at_base p ls bt /\ serving p ls bs live held.

(** An allocation of [n] bytes returns null, or a block the client does not hold yet. *)
Definition allocated (held bt : gmap Z Z) (n : Z) (r : world * Z) : Prop :=
  (r.2 = 0 /\ serves held bt r.1) \/
  (address r.2 /\ held !! r.2 = None /\ serves (<[r.2 := n]> held) bt r.1).

Lemma alloc_header p bs1 a s size bs2 :
  used_pool p cap (bs1 ++ taken a s size :: rest_of a s size ++ bs2) ->
  0 <= a /\ a + sizeof_realdata <= cap /\ exists r, mem p !! a = Some r.
Proof.
  intros U. destruct (up_tiles _ _ _ U) as [lp Ht].
  destruct (tiles_bounds _ _ _ _ _ _ _ Ht) as [_ Hin].
  destruct (Hin (taken a s size)) as (? & ? & ? & r & ? & _); [apply elem_of_app; right; left|].
  simpl in *. split; [done|]. split; [lia|]. by exists r.
Qed.

Lemma free_offset_not_held p ls bs1 off s bs2 live held :
  serving p ls (bs1 ++ Block off s false :: bs2) live held -> 0 <= off ->
  off + sizeof_realdata <= cap -> held !! payload off = None.
Proof.
  intros S Hoff Hcap. destruct (held !! payload off) as [n|] eqn:Hn; [|done].
  destruct (held_place _ _ _ _ _ _ _ S Hn) as [H0 [(o & Ho & Hlive & _)|(L & HL & _)]].
  - assert (o = off) as -> by (sizes; lia).
    destruct (pool_ok_tiles _ _ _ (sv_pool _ _ _ _ _ S)) as [lp Ht].
    destruct (proj2 (sv_view _ _ _ _ _ S) _ _ Hlive) as (b & Hb & Hbo & Hbb & _).
    assert (b = Block off s false) as ->; [|done].
    eapply tiles_off_inj; [exact Ht|done| |done]. apply elem_of_app. right. left.
  - destruct (la_region _ _ (sv_larges _ _ _ _ _ S) _ _ HL) as (? & ? & _ & ?). sizes. lia.
Qed.

Section alloc.
Context (malloc : world -> Z -> Z) (junk : mempool) (callocs : bool * bool * bool) (fuel : nat).
Context (Hmalloc : malloc_ok malloc) (Hfuel : (3 <= fuel)%nat).

(** The pool is full and may not get a second one. *)
Lemma no_second_pool p ls bs live held :
  serving p ls bs live held ->
  (max_memsize (config p) <=?
   u64 (total_alloced (property p) + u32 (Z.shiftl (pool_size (pdata p)) 1))) = true.
Proof.
  intros [A L Hp _ _]. destruct (pool_ok_size _ _ Hp) as [_ Hcap]. rewrite (ao_size _ A).
  rewrite (la_alloced _ _ L). pose proof (la_bound _ _ L). pose proof (ao_max _ A).
  rewrite Z.shiftl_mul_pow2 by lia. sizes. change (2 ^ 20) with 1048576 in *.
  rewrite (wrap_small 32) by lia. rewrite wrap_small by lia. lia.
Qed.

Lemma palloc_pool_spec k p ls bs live held bt n tmp :
  serving p ls bs live held -> tmp = base \/ tmp = 0 -> 0 < n -> (0 < k)%nat ->
  exists r, palloc_again malloc junk callocs fuel k (at_base p ls bt) base tmp (n + sizeof_realdata) =
    Some r /\ allocated held bt n r.
Proof.
  intros Hsv Htmp Hn Hk. pose proof (ao_alone _ (sv_admin _ _ _ _ _ Hsv)) as Halone.
  destruct k as [|k]; [lia|]. clear Hk.
  assert (exists f, fuel = S f) as [f Hf] by (destruct fuel; [lia|eauto]).
  assert (forall q, serving q ls bs live held ->
    alloc_realdata fuel (at_base p ls bt) base tmp (n + sizeof_realdata) = Some (at_base q ls bt, None) ->
    exists r, palloc_again malloc junk callocs fuel (S k) (at_base p ls bt) base tmp (n + sizeof_realdata) =
      Some r /\ allocated held bt n r) as Hnone.
  { intros q Sq E. cbn [palloc_again]. rewrite E. bind_simpl.
    rewrite lookup_base. bind_simpl. rewrite (no_second_pool _ _ _ _ _ Sq).
    eexists. split; [done|]. left. split; [done|]. by exists q, ls, bs, live. }
  destruct Htmp as [->| ->].
  2: { apply (Hnone p Hsv). unfold alloc_realdata. rewrite Hf. cbn [alloc_again alloc_walk Z.eqb].
       bind_simpl. by rewrite andb_false_r. }
  destruct (pool_alloc_spec _ _ _ (n + sizeof_realdata) (sv_pool _ _ _ _ _ Hsv)) as
    [E|(d & bs1 & s & bs2 & a & E & Ha & -> & Hs & U)]; [sizes; lia| |];
    destruct (alloc_realdata_base fuel p ls bt _ _ _ Hfuel Halone E) as [N1 N2].
  - destruct (N1 eq_refl) as [g Hg]. apply (Hnone _) in Hg; [done|].
    eapply serving_pool; [exact Hsv|done..| |apply Hsv|apply Hsv].
    eapply same_blocks_ok; [apply with_failed_same|apply Hsv].
  - destruct (alloc_header _ _ _ _ _ _ U) as (Ha0 & Hac & r & Hr).
    specialize (N2 r Ha Hr). cbn [palloc_again]. rewrite N2. bind_simpl.
    rewrite lookup_base. bind_simpl. cbn [pdata set_property set_pdata].
    destruct (update (mem d) a (set_used 0)) as [m|] eqn:Em; [|by unfold update in Em; rewrite Hr in Em].
    bind_simpl. rewrite on_pool_base. bind_simpl. eexists. split; [done|]. right. cbn [fst snd].
    change (base + sizeof_mempool + a + sizeof_realdata) with (payload a).
    split; [sizes; lia|]. split; [by eapply free_offset_not_held|].
    eexists _, ls, _, _. split; [done|].
    eapply serving_pool; [exact Hsv|done..| | |by apply (held_insert_small _ _ _ _ _ _ _ Hsv)].
    + eapply same_blocks_ok; [by eapply set_used_same|right; exact U].
    + destruct (pool_ok_tiles _ _ _ (sv_pool _ _ _ _ _ Hsv)) as [lp Ht].
      apply view_alloc; [by eapply tiles_NoDup|done|apply Hsv].
Qed.
(** The table of large blocks is replaced by one for the given large blocks. *)
Lemma serving_larges p ls bs live held t es v ls' held' :
  serving p ls bs live held -> table_rep key t es -> has_free t = true ->
  (forall l, l ∈ es <-> is_Some (ls' !! l)) ->
  v = total ls' -> 0 <= total ls' < 2 ^ 20 ->
  (forall l L, ls' !! l = Some L -> 0 < l /\ sizeof_large < large_size L /\
    l + large_size L < 2 ^ 64 /\ apart l (large_size L) base ps) ->
  (forall l L k K, ls' !! l = Some L -> ls' !! k = Some K -> l <> k ->
    apart l (large_size L) k (large_size K)) ->
  held_ok ls' live held' ->
  serving (set_property (Property (freepool (property p)) (pooltail (property p)) v
      (total_leftsize (property p)) (pfree_count (property p)))
    (set_config (set_largeht (Some t) (config p)) p)) ls' bs live held'.
Proof.
  intros [[A1 A2 A3 A4 A5] _ Hp Hv _] Ht Hf Hes -> Hb Hr Ha Hh. split; [by split| |done..].
  split; [|done..]. by exists t, es.
Qed.

Lemma memalign_bounds n : n <= MEMPOOL_MEMALIGN n MEMPOOL_ALIGN_SIZE < n + 8.
Proof.
  unfold MEMPOOL_MEMALIGN, MEMPOOL_ALIGN_SIZE. change (Z.lnot (8 - 1)) with (Z.lnot (Z.ones 3)).
  rewrite <- Z.ldiff_land, Z.ldiff_ones_r, Z.shiftl_mul_pow2, Z.shiftr_div_pow2 by lia.
  change (2 ^ 3) with 8. pose proof (Z.div_mod (n + (8 - 1)) 8 ltac:(lia)).
  pose proof (Z.mod_pos_bound (n + (8 - 1)) 8 ltac:(lia)). lia.
Qed.

Lemma total_room p ls bs live held s :
  serving p ls bs live held -> total ls < ps -> 0 < s < 2 ^ 18 -> 0 <= s + total ls < 2 ^ 20.
Proof.
  intros S Ht Hs. pose proof (la_bound _ _ (sv_larges _ _ _ _ _ S)).
  destruct (pool_ok_size _ _ (sv_pool _ _ _ _ _ S)) as [_ Hcap]. sizes.
  change (2 ^ 18) with 262144 in *. change (2 ^ 20) with 1048576 in *. lia.
Qed.

Lemma alloc_large_spec p ls bs live held bt n :
  serving p ls bs live held -> total ls < ps -> 0 < n <= 2 * ps ->
  exists r, alloc_large malloc (at_base p ls bt) base n = Some r /\ allocated held bt n r.
Proof.
  intros Sv Htot Hn. pose proof (sv_larges _ _ _ _ _ Sv) as L.
  destruct (pool_ok_size _ _ (sv_pool _ _ _ _ _ Sv)) as [Hps Hcap].
  pose proof (memalign_bounds (n + sizeof_large)) as Hal. unfold alloc_large.
  rewrite wrap_small by (sizes; lia). set (s := MEMPOOL_MEMALIGN _ _) in *.
  pose proof (total_room _ _ _ _ _ s Sv Htot ltac:(sizes; lia)) as Hroom.
  destruct (Hmalloc (at_base p ls bt) s ltac:(sizes; lia)) as [->|(Ha & Ha' & Hmp & Hml)].
  { eexists. split; [done|]. left. split; [done|]. by exists p, ls, bs, live. }
  set (a := malloc _ s) in *. rewrite (proj2 (Z.eqb_neq a 0)) by lia.
  change (with_larges (at_base p ls bt) (<[a := Large MEMPOOL_LARGEFLAG s 0]> (larges (at_base p ls bt))))
    with (at_base p (<[a := Large MEMPOOL_LARGEFLAG s 0]> ls) bt).
  rewrite lookup_base. bind_simpl. destruct (la_table _ _ L) as (t & es & Ht & Hrep & Hfree & Hes).
  specialize (Hmp base p (lookup_base _ _ _)). rewrite Hps in Hmp.
  assert (ls !! a = None) as Hnew.
  { destruct (ls !! a) as [K|] eqn:HK; [|done]. destruct (la_region _ _ L _ _ HK) as (? & ? & _).
    specialize (Hml a K HK). sizes. lia. }
  assert (a ∉ es) as Hnin by (rewrite Hes, Hnew; by intros [? ?]).
  assert (address a) as Haddr by (sizes; lia).
  rewrite Ht. destruct (insert_address t es a Hrep) as (t' & r & E & [Hnb Hf] & Hr); try done;
    [by eapply larges_address|].
  rewrite E. bind_simpl. rewrite on_config_base. bind_simpl.
  assert (held_ok (<[a := Large MEMPOOL_LARGEFLAG s 0]> ls) live (<[a + sizeof_large := n]> held)) as Hheld
    by (eapply held_insert_large; [exact Sv|done|lia|simpl; lia]).
  destruct Hr as [[-> Hrep']|(-> & Hrep' & _)]; cbn [Z.eqb].
  - rewrite on_property_base. bind_simpl. eexists. split; [done|]. right. cbn [fst snd].
    split; [sizes; lia|]. split.
    { destruct (held !! _) as [m|] eqn:Hm; [|done]. exfalso.
      destruct (held_place _ _ _ _ _ _ _ Sv Hm) as [? [(o & Ho & _ & ? & ? & _)|(K & HK & _)]].
      - simpl in *. sizes. lia.
      - replace (a + sizeof_large - sizeof_large) with a in HK by lia. congruence. }
    eexists _, _, bs, live. split; [done|].
    eapply (serving_larges p _ _ _ _ t' (a :: es)); try done.
    + congruence.
    + intros l. rewrite elem_of_cons, lookup_insert_is_Some, Hes.
      destruct (decide (l = a)) as [->|]; naive_solver.
    + rewrite total_insert by done. cbn [property set_config]. rewrite (la_alloced _ _ L). cbn [large_size].
      rewrite wrap_small; [lia|]. sizes. change (2 ^ 20) with 1048576 in *. lia.
    + rewrite total_insert by done. done.
    + intros l K [[<- <-]|[_ HK]]%lookup_insert_Some; [simpl; sizes; lia|]. by apply (la_region _ _ L).
    + intros l K k M [[<- <-]|[_ HK]]%lookup_insert_Some [[<- <-]|[_ HM]]%lookup_insert_Some Hlk;
        [done|by apply Hml|by apply apart_sym, Hml|by eapply (la_apart _ _ L)].
  - eexists. split; [done|]. left. split; [done|]. cbn [fst].
    unfold free_larges, with_larges, at_base. cbn [larges foldr pools bytes]. rewrite delete_insert_id by done.
    eexists _, ls, bs, live. split; [done|].
    pose proof (serving_larges _ _ _ _ _ t' es (total_alloced (property p)) ls held Sv Hrep') as Hs.
    replace (Property _ _ _ _ _) with (property p) in Hs by by destruct (property p).
    apply Hs; try done; [congruence|apply L..|apply Sv].
Qed.

Lemma refused p ls bs live held bt n :
  serving p ls bs live held -> allocated held bt n (at_base p ls bt, 0).
Proof. intros Sv. left. split; [done|]. by exists p, ls, bs, live. Qed.

Lemma palloc_spec held bt w n :
  serves held bt w -> 0 <= n ->
  exists r, palloc malloc junk callocs fuel w base n = Some r /\ allocated held bt n r.
Proof.
  intros (p & ls & bs & live & -> & Sv) Hn. pose proof (sv_admin _ _ _ _ _ Sv) as A.
  destruct (pool_ok_size _ _ (sv_pool _ _ _ _ _ Sv)) as [Hps Hcap].
  pose proof (la_bound _ _ (sv_larges _ _ _ _ _ Sv)) as Hb. pose proof (ao_max _ A) as Hmax.
  pose proof (ao_single _ A) as Hsingle. unfold palloc.
  rewrite (proj2 (Z.eqb_neq base 0)) by lia. rewrite lookup_base. bind_simpl.
  rewrite Hps, (la_alloced _ _ (sv_larges _ _ _ _ _ Sv)), (ao_alone _ A).
  change (2 ^ 20) with 1048576 in *. rewrite !wrap_small by (sizes; lia).
  destruct (_ || _ || _) eqn:Eg; [eexists; by split; [|eapply refused]|].
  rewrite !orb_false_iff, Z.leb_gt, Z.ltb_ge, Z.eqb_neq in Eg. destruct Eg as [[Htot Hmaxn] Hn0].
  case_match; [eexists; by split; [|eapply refused]|].
  destruct (Z.ltb_spec (ps - sizeof_mempool - sizeof_realdata) n) as [Hl|Hl].
  - eapply alloc_large_spec; [exact Sv|lia|lia].
  - rewrite wrap_small by (sizes; lia). eapply palloc_pool_spec; [exact Sv| |lia|lia].
    destruct (_ <? _); auto.
Qed.

Lemma serves_bytes held bt w bt' : serves held bt w -> serves held bt' (with_bytes w bt').
Proof. intros (p & ls & bs & live & -> & Sv). by exists p, ls, bs, live. Qed.

Lemma pcalloc_spec held bt w n :
  serves held bt w -> 0 <= n ->
  exists r bt', pcalloc malloc junk callocs fuel w base n = Some r /\ allocated held bt' n r.
Proof.
  intros Hs Hn. destruct (palloc_spec held bt w n Hs Hn) as ([w' a] & E & Ha).
  unfold pcalloc. rewrite E. bind_simpl. destruct (Z.eqb_spec a 0) as [->|Hnz]; cbn [negb].
  - eauto.
  - eexists _, _. split; [done|]. destruct Ha as [[? _]|(? & ? & Hs')]; [done|]. right.
    split_and!; [done..|]. cbn [fst snd] in *. by eapply serves_bytes.
Qed.
End alloc.

(** *** Releasing a block *)

Lemma load_base p ls bt off n :
  mem (pdata p) !! off = Some n -> 0 <= off < MEMPOOL_MAXSIZE ->
  load_realdata (at_base p ls bt) (base + sizeof_mempool + off) = Some n.
Proof.
  intros Hn Hoff. unfold load_realdata, owner, at_base. cbn [pools]. rewrite map_to_list_singleton.
  assert (base + sizeof_mempool + off - base - sizeof_mempool = off) as E by lia.
  rewrite filter_cons_True.
  - simpl. bind_simpl. by rewrite E.
  - cbn [fst snd]. rewrite E, Hn. split_and!; [lia|lia|done].
Qed.

Lemma check_base p ls bt off n :
  admin_ok p -> mem (pdata p) !! off = Some n -> rd_offset n = off -> 0 <= off < MEMPOOL_MAXSIZE ->
  0 < ps -> check_realdata_in_pool (at_base p ls bt) base (base + sizeof_mempool + off) = Some base.
Proof.
  intros A Hn Ho Hoff Hps. unfold check_realdata_in_pool. rewrite (load_base p ls bt off n) by done.
  bind_simpl. rewrite lookup_base. bind_simpl. destruct (ao_ht _ A) as (t & -> & Hrep).
  rewrite Ho. replace (base + sizeof_mempool + off - off - sizeof_mempool) with base by lia.
  assert (address base) by (sizes; lia). rewrite (find_address t [base] base Hrep); [|by apply Forall_singleton|done].
  rewrite decide_True; [done|left].
Qed.

Lemma remove_busy_header p off d : remove_busy p off = Some d -> is_Some (mem d !! off).
Proof.
  unfold remove_busy. intros E. invert_binds. cbn [mem with_mem].
  match goal with H : update _ off _ = Some _ |- _ => unfold update in H; revert H end.
  intros. invert_binds. by rewrite lookup_insert_eq.
Qed.

Lemma pfree_realdata_base p ls bt off d :
  free_in_pool (pdata p) off = Some d ->
  exists p', pfree_realdata (at_base p ls bt) base base off = Some (at_base p' ls bt) /\
    pdata p' = d /\ config p' = config p /\ pool_next p' = pool_next p /\
    total_alloced (property p') = total_alloced (property p).
Proof.
  unfold free_in_pool, pfree_realdata. rewrite lookup_base. bind_simpl.
  destruct (remove_busy (pdata p) off) as [d1|] eqn:E1; [|done]. bind_simpl.
  rewrite on_pool_base. bind_simpl. destruct (remove_busy_header _ _ _ E1) as [r Hr].
  rewrite Hr. bind_simpl. rewrite on_property_base. bind_simpl.
  destruct (busylist d1 =? MEMPOOL_NULL).
  - intros [= <-]. rewrite Z.eqb_refl. cbn [negb]. rewrite on_pool_base. by eexists.
  - destruct (leftsize d1 =? 0); intros ->; bind_simpl; rewrite on_pool_base; bind_simpl; [|by eexists].
    unfold mempool_move2header. rewrite lookup_base. bind_simpl. rewrite Z.eqb_refl. cbn [negb andb].
    by eexists.
Qed.

(** The block at [a] is known: as a large block, or by its header in the pool. *)
Lemma block_address p ls bs live held a n :
  serving p ls bs live held -> held !! a = Some n -> address a /\ address (a - sizeof_large).
Proof.
  intros Sv Ha. destruct (held_place _ _ _ _ _ _ _ Sv Ha) as [Hn [(o & -> & _ & ? & ? & _)|(L & HL & _)]].
  - sizes. lia.
  - destruct (la_region _ _ (sv_larges _ _ _ _ _ Sv) _ _ HL) as (? & ? & ? & _). sizes. lia.
Qed.

Lemma pfree_small p ls bs live held bt off s :
  serving p ls bs live held -> live !! off = Some s -> sizeof_realdata <= s ->
  ls !! (payload off - sizeof_large) = None ->
  exists w, pfree (at_base p ls bt) base (payload off) = Some (w, 0) /\
    serves (delete (payload off) held) bt w.
Proof.
  intros Sv Hlive Hs Hnl. pose proof Sv as [A _ Hp V _].
  destruct (pool_ok_size _ _ Hp) as [_ Hcap].
  destruct (busy_header _ _ _ _ _ Hp V Hlive) as (Ho & Hc & r & Hr & Hro & _ & _ & Hst).
  assert (address (payload off - sizeof_large)) as Haddr by (sizes; lia).
  assert (0 <= off < MEMPOOL_MAXSIZE) as Hmax by (unfold MEMPOOL_MAXSIZE; sizes; lia).
  assert (0 < ps) as Hps0 by (sizes; lia).
  unfold pfree. rewrite (proj2 (Z.eqb_neq base 0)), (proj2 (Z.eqb_neq (payload off) 0)) by (sizes; lia).
  cbn [orb]. rewrite (proj2 (Z.eqb_neq (payload off - sizeof_large) 0)) by (unfold address in Haddr; lia).
  erewrite check_large_spec by done. rewrite Hnl, decide_False by by intros [? ?]. bind_simpl.
  cbn [Z.eqb negb]. replace (payload off - sizeof_realdata) with (base + sizeof_mempool + off)
    by (sizes; lia).
  rewrite (proj2 (Z.eqb_neq (base + sizeof_mempool + off) 0)) by (sizes; lia).
  bind_simpl. rewrite (check_base p ls bt off r) by done. bind_simpl.
  rewrite (proj2 (Z.eqb_neq base 0)) by lia. rewrite (load_base p ls bt off r) by done. bind_simpl.
  rewrite Hst, Hro. cbn [Z.eqb].
  destruct (proj2 V off s Hlive) as ([o bsz []] & Hb & Hbo & Hbb & _); [|done]. simpl in Hbo. subst o.
  apply list_elem_of_split in Hb as (bs1 & bs2 & ->).
  destruct Hp as [[_ Hf]|U]; [by destruct bs1 as [|? []]|].
  destruct (free_in_pool_spec _ _ _ _ _ _ U) as (d & Ed & Hd).
  destruct (pfree_realdata_base p ls bt off d Ed) as (p' & -> & Hpd & Hc' & Hn' & Ht'). bind_simpl.
  eexists. split; [done|]. eexists _, ls, _, _. split; [done|].
  eapply serving_pool; [exact Sv|done..| | |by eapply held_delete_small; [exact Sv|lia|lia]].
  - rewrite Hpd. exact Hd.
  - destruct (up_tiles _ _ _ U) as [lp Ht]. apply view_free; [by eapply tiles_NoDup|done].
Qed.

Lemma pfree_large p ls bs live held bt l L :
  serving p ls bs live held -> ls !! l = Some L ->
  exists w, pfree (at_base p ls bt) base (l + sizeof_large) = Some (w, 0) /\
    serves (delete (l + sizeof_large) held) bt w.
Proof.
  intros Sv HL. pose proof (sv_larges _ _ _ _ _ Sv) as La.
  destruct (la_region _ _ La _ _ HL) as (Hl & Hs & He & Hr).
  assert (address l) as Haddr by (sizes; lia).
  destruct (la_table _ _ La) as (t & es & Ht & Hrep & Hfree & Hes).
  unfold pfree. rewrite (proj2 (Z.eqb_neq base 0)), (proj2 (Z.eqb_neq (l + sizeof_large) 0)) by (sizes; lia).
  cbn [orb]. replace (l + sizeof_large - sizeof_large) with l by lia.
  rewrite (proj2 (Z.eqb_neq l 0)) by lia. erewrite check_large_spec by done.
  rewrite decide_True by by exists L. bind_simpl. rewrite (proj2 (Z.eqb_neq l 0)) by lia. cbn [negb].
  unfold free_large. erewrite check_large_spec by done. rewrite decide_True by by exists L. bind_simpl.
  rewrite (proj2 (Z.eqb_neq l 0)) by lia. unfold load_large. cbn [larges at_base]. rewrite HL. bind_simpl.
  change (World {[base := p]} ls bt) with (at_base p ls bt). rewrite on_property_base. bind_simpl.
  rewrite lookup_base. bind_simpl. cbn [config set_property]. rewrite Ht.
  assert (l ∈ es) as Hin by (apply Hes; by exists L).
  pose proof (table_rep_distinct _ _ _ Hrep) as Hnd. apply NoDup_fmap_1 in Hnd.
  destruct (delete_address t es l Hrep) as (t' & es' & -> & [_ Hf] & Hrep' & HP); try done;
    [by eapply larges_address|].
  rewrite Hfree in Hf |- *. bind_simpl. rewrite on_config_base. bind_simpl. cbn [Z.eqb].
  rewrite HP in Hnd. apply NoDup_cons in Hnd as [Hnin _].
  eexists. split; [done|]. unfold free_larges, with_larges, at_base. cbn [larges pools bytes foldr].
  eexists _, (delete l ls), bs, live. split; [done|].
  pose proof (total_delete _ _ _ HL) as Htot. pose proof (la_bound _ _ La) as Hb.
  assert (0 <= total (delete l ls)) as Hpos.
  { apply total_nonneg. intros k K [_ HK]%lookup_delete_Some.
    destruct (la_region _ _ La _ _ HK) as (_ & ? & _). sizes. lia. }
  eapply (serving_larges p _ _ _ _ t' es'); try done.
  - intros k. rewrite lookup_delete. case_decide as Hk.
    + subst k. by split; [|intros [? ?]].
    + rewrite <- Hes, HP, elem_of_cons. naive_solver.
  - cbn [property set_config set_property add_alloced total_alloced].
    rewrite (la_alloced _ _ La), wrap_small; change (2 ^ 20) with 1048576 in *; sizes; lia.
  - sizes. lia.
  - intros k K [_ HK]%lookup_delete_Some. by apply (la_region _ _ La).
  - intros k K m M [_ HK]%lookup_delete_Some [_ HM]%lookup_delete_Some. by apply (la_apart _ _ La).
  - by eapply held_delete_large.
Qed.

Lemma pfree_spec held bt w a n :
  serves held bt w -> held !! a = Some n ->
  exists w', pfree w base a = Some (w', 0) /\ serves (delete a held) bt w'.
Proof.
  intros (p & ls & bs & live & -> & Sv) Ha.
  destruct (held_place _ _ _ _ _ _ _ Sv Ha) as [Hn [(o & -> & Hl & _ & _ & Hno)|(L & HL & _)]].
  - eapply pfree_small; [exact Sv|exact Hl|lia|done].
  - replace a with (a - sizeof_large + sizeof_large) by lia. by eapply pfree_large.
Qed.

Lemma large_bound p ls l L : larges_ok p ls -> ls !! l = Some L -> large_size L < 2 ^ 20.
Proof.
  intros La HL. pose proof (total_delete _ _ _ HL) as Ht. pose proof (la_bound _ _ La) as Hb.
  assert (0 <= total (delete l ls)); [|lia].
  apply total_nonneg. intros k K [_ HK]%lookup_delete_Some.
  destruct (la_region _ _ La _ _ HK) as (_ & ? & _). sizes. lia.
Qed.

(** The size of a block is at least what the client asked for. *)
Lemma pdatasize_spec held bt w a n :
  serves held bt w -> held !! a = Some n -> exists r, pdatasize w base a = Some r /\ n <= r.
Proof.
  intros (p & ls & bs & live & -> & Sv) Ha. pose proof Sv as [A La Hp V _].
  destruct (pool_ok_size _ _ Hp) as [_ Hcap].
  destruct (block_address _ _ _ _ _ _ _ Sv Ha) as [Ha1 Ha2]. unfold pdatasize.
  rewrite (proj2 (Z.eqb_neq base 0)), (proj2 (Z.eqb_neq a 0)) by (unfold address in *; lia).
  cbn [orb]. rewrite (proj2 (Z.eqb_neq (a - sizeof_large) 0)) by (unfold address in *; lia).
  erewrite check_large_spec by done.
  destruct (held_place _ _ _ _ _ _ _ Sv Ha) as [Hn [(o & -> & Hl & Ho & Hc & Hno)|(L & HL & Hs)]].
  - rewrite Hno, decide_False by by intros [? ?]. bind_simpl. cbn [Z.eqb negb].
    destruct (busy_header _ _ _ _ _ Hp V Hl) as (_ & _ & r & Hr & Hro & Hs & Hrs & _).
    replace (payload o - sizeof_realdata) with (base + sizeof_mempool + o) by (sizes; lia).
    rewrite (proj2 (Z.eqb_neq (base + sizeof_mempool + o) 0)) by (sizes; lia).
    assert (0 <= o < MEMPOOL_MAXSIZE) by (unfold MEMPOOL_MAXSIZE; sizes; lia).
    rewrite (check_base p ls bt o r) by (done || sizes; lia). bind_simpl.
    rewrite (proj2 (Z.eqb_neq base 0)) by lia. rewrite (load_base p ls bt o r) by done. bind_simpl.
    eexists. split; [done|]. rewrite sint_small; sizes; lia.
  - rewrite HL, decide_True by by eexists. bind_simpl.
    rewrite (proj2 (Z.eqb_neq (a - sizeof_large) 0)) by (unfold address in *; lia). cbn [negb].
    unfold load_large. cbn [larges at_base]. rewrite HL. bind_simpl. eexists. split; [done|].
    pose proof (large_bound _ _ _ _ La HL). change (2 ^ 20) with 1048576 in *.
    rewrite sint_small; sizes; lia.
Qed.

(** *** Creation *)

Lemma set_maxmem_spec p ls bt maxmem :
  largeht (config p) = None -> pool_size (pdata p) = ps -> 0 < ps < 2 ^ 17 ->
  ps < maxmem <= 2 * ps -> max_memsize (config p) <> maxmem ->
  exists c t lt, mempool_set_maxmem (true, true, true) (at_base p ls bt) base maxmem =
      Some (at_base (set_config (set_largeht (Some lt) (set_ht (Some t) c)) p) ls bt) /\
    max_memsize c = maxmem /\ single_max c <= maxmem /\
    table_rep key t [base] /\ table_rep key lt [] /\ has_free lt = true.
Proof.
  intros Hlarge Hps Hps' Hmax Hold. unfold mempool_set_maxmem. change (2 ^ 17) with 131072 in *.
  rewrite (proj2 (Z.eqb_neq base 0)) by lia. rewrite lookup_base. bind_simpl. rewrite Hps.
  rewrite (wrap_small 56) by lia. cbn [max_memsize set_max_memsize].
  unfold MEMPOOL_MAX_TOTAL. destruct (Z.gtb_spec maxmem 34359738368); [lia|].
  cbn [max_memsize set_max_memsize single_max].
  destruct (Z.ltb_spec maxmem ps); [lia|]. cbn [max_memsize set_max_memsize single_max].
  destruct (Z.ltb_spec 0 maxmem); [|lia]. rewrite (proj2 (Z.eqb_neq maxmem _)) by done. cbn [negb andb].
  set (c := if single_max (config p) >? maxmem then _ else _).
  assert (max_memsize c = maxmem /\ single_max c <= maxmem /\ largeht c = None) as (Hc1 & Hc2 & Hc3).
  { unfold c. destruct (Z.gtb_spec (single_max (config p)) maxmem); [|done].
    cbn [max_memsize set_max_memsize set_single_max single_max largeht].
    split_and!; [done| |done]. rewrite wrap_small; lia. }
  rewrite Hc3, Hc1. cbn [mp_hash_table_free]. bind_simpl.
  pose proof (Z.div_mod maxmem ps ltac:(lia)) as Hdiv.
  pose proof (Z.mod_pos_bound maxmem ps ltac:(lia)) as Hmod.
  assert (1 <= maxmem / ps <= 2) as Hq by nia. rewrite (wrap_small 32) by lia.
  destruct (mp_hash_table_create_spec key hash_memaddr hash_memcmp false (maxmem / ps + 1) address_call_ok)
    as (t & -> & Ht & _ & Hnb); [lia|]. bind_simpl.
  destruct (insert_address t [] base Ht) as (t' & r & -> & _ & Hr); [constructor|sizes; lia|apply not_elem_of_nil|].
  destruct Hr as [[_ Ht']|(_ & _ & Hfull)]; [|simpl in Hfull; lia]. bind_simpl.
  destruct (mp_hash_table_create_spec key hash_memaddr hash_memcmp true (maxmem / ps + 1) address_call_ok)
    as (lt & -> & Hlt & Hf & _); [lia|]. bind_simpl.
  change (free_larges (at_base p ls bt) []) with (at_base p ls bt). rewrite on_config_base.
  by exists c, t', lt.
Qed.

Lemma init_serves malloc junk w size maxmem smax maxfree maxsearch judge :
  pools w = ∅ -> larges w = ∅ -> ps = round_pool_size size -> malloc w ps = base ->
  sizeof_realdata <= cap < MEMPOOL_NULL -> ps < maxmem <= 2 * ps ->
  max_memsize (config junk) <> maxmem ->
  exists w', mempool_init_extra malloc junk (true, true, true) w size maxmem smax maxfree maxsearch judge
    = Some (w', base) /\ serves ∅ (bytes w) w'.
Proof.
  intros Hp Hl Hps Hm Hcap Hmax Hjunk. unfold mempool_init_extra. rewrite <- Hps, Hm.
  rewrite (proj2 (Z.eqb_neq base 0)) by lia. unfold with_pools. rewrite Hp, Hl, insert_empty.
  set (p0 := set_config _ _). change (World {[base := p0]} ∅ (bytes w)) with (at_base p0 ∅ (bytes w)).
  destruct (set_maxmem_spec p0 ∅ (bytes w) maxmem) as (c & t & lt & -> & Hc & Hs & Ht & Hlt & Hf); try done.
  { change (2 ^ 17) with 131072. sizes. lia. }
  bind_simpl. unfold mempool_set_single_max. rewrite (proj2 (Z.eqb_neq base 0)) by lia.
  rewrite on_config_base. bind_simpl. rewrite on_config_base. bind_simpl. rewrite on_pool_base. bind_simpl.
  eexists. split; [done|]. eexists _, ∅, [Block 0 cap false], ∅. split; [done|].
  cbn [config set_config]. set (c' := if _ >? _ then _ else _).
  assert (max_memsize c' = maxmem /\ single_max c' <= maxmem /\ ht c' = Some t /\ largeht c' = Some lt)
    as (C1 & C2 & C3 & C4).
  { unfold c'. cbn [config set_config].
    destruct (Z.gtb_spec (single_max (set_single_max smax (set_largeht (Some lt) (set_ht (Some t) c))))
      (max_memsize (set_single_max smax (set_largeht (Some lt) (set_ht (Some t) c)))));
      cbn [max_memsize single_max set_single_max set_largeht set_ht ht largeht] in *; [|split_and!; done || lia].
    split_and!; try done. rewrite Hc, wrap_small; sizes; lia. }
  split.
  - split; [done|done| | |by exists t].
    + change (ps < max_memsize c' <= 2 * ps). by rewrite C1.
    + change (single_max c' <= max_memsize c'). by rewrite C1.
  - split; try done; [exists lt, []; split_and!; try done|..].
    intros l. rewrite elem_of_nil. split; [done|]. by intros [? ?].
  - left. split; [|done]. apply init_fresh; [sizes; lia|]. simpl. lia.
  - split; [|done]. by intros b ->%list_elem_of_singleton.
  - by split.
Qed.

(** *** What the client may rely on *)

Lemma held_apart p ls bs live held a n b m :
  serving p ls bs live held -> held !! a = Some n -> held !! b = Some m -> a <> b -> apart a n b m.
Proof.
  intros Sv Ha Hb Hne. pose proof Sv as [_ La Hp V _].
  destruct (held_place _ _ _ _ _ _ _ Sv Ha) as [Hn [(o & -> & Hl & Ho & Hc & _)|(L & HL & Hs)]];
    destruct (held_place _ _ _ _ _ _ _ Sv Hb) as [Hm [(o' & -> & Hl' & Ho' & Hc' & _)|(L' & HL' & Hs')]].
  - destruct (pool_ok_tiles _ _ _ Hp) as [lp Ht].
    destruct (proj2 V _ _ Hl) as (x & Hx & <- & _ & Hxs).
    destruct (proj2 V _ _ Hl') as (y & Hy & <- & _ & Hys).
    destruct (tiles_disjoint _ _ _ _ _ _ _ _ _ Ht Hx Hy) as [->|?]; [done|]. sizes. lia.
  - destruct (la_region _ _ La _ _ HL') as (? & ? & _ & ?). sizes. lia.
  - destruct (la_region _ _ La _ _ HL) as (? & ? & _ & ?). sizes. lia.
  - destruct (la_apart _ _ La _ _ _ _ HL HL') as [?|?]; [lia|sizes; lia..].
Qed.

Lemma nothing_held p ls bs live : serving p ls bs live ∅ ->
  ls = ∅ /\ fresh_pool (pdata p) cap /\ total_alloced (property p) = 0.
Proof.
  intros [_ La Hp [V _] [H1 H2 _]]. assert (ls = ∅) as ->.
  { apply map_empty. intros l. destruct (ls !! l) as [L|] eqn:HL; [|done].
    by destruct (H2 l L HL) as (? & ? & _). }
  split; [done|]. split; [|by rewrite (la_alloced _ _ La)].
  destruct Hp as [[F _]|U]; [done|]. destruct (up_busy _ _ _ U) as (b & Hb & Hbb).
  destruct (V b Hb Hbb) as (s & Hs & _). by specialize (H1 _ _ Hs).
Qed.
End one_pool.

(** ** Clients *)

Lemma round_pool_size_bound size : round_pool_size size <= MEMPOOL_MAXSIZE.
Proof.
  unfold round_pool_size. set (s := if 0 <? size then _ else size).
  destruct (Z.eqb_spec s 0); [done|]. destruct (Z.gtb_spec s MEMPOOL_MAXSIZE); [done|]. simpl. lia.
Qed.

Inductive client_call := Palloc (n : Z) | Pcalloc (n : Z) | Pfree (a : Z) | Pdatasize (a : Z).

(** A block the client is given twice is an error. *)
Definition hold (held : gmap Z Z) (a n : Z) : option (gmap Z Z) :=
  if a =? 0 then Some held else
  match held !! a with Some _ => None | None => Some (<[a := n]> held) end.

Section client.
Context (malloc : world -> Z -> Z) (junk : mempool) (fuel : nat) (base : Z).

(** The blocks the client holds and the bytes it asked for; the list has, for every size it
    was told, what it had asked for and the answer. It releases only what it holds, and that
    must succeed. *)
Fixpoint client_run (w : world) (held : gmap Z Z) (cs : list client_call)
    : option (world * gmap Z Z * list (Z * Z)) :=
  match cs with
  | [] => Some (w, held, [])
  | Palloc n :: cs =>
      '(w, a) ← palloc malloc junk (true, true, true) fuel w base n;
      held ← hold held a n; client_run w held cs
  | Pcalloc n :: cs =>
      '(w, a) ← pcalloc malloc junk (true, true, true) fuel w base n;
      held ← hold held a n; client_run w held cs
  | Pfree a :: cs =>
      match held !! a with
      | None => client_run w held cs
      | Some _ =>
          '(w, r) ← pfree w base a; _ ← require (r =? 0);
          client_run w (delete a held) cs
      end
  | Pdatasize a :: cs =>
      match held !! a with
      | None => client_run w held cs
      | Some n =>
          r ← pdatasize w base a;
          '(w, held, rs) ← client_run w held cs; Some (w, held, (n, r) :: rs)
      end
  end.

Definition asks_ok (c : client_call) : Prop :=
  match c with Palloc n | Pcalloc n => 0 <= n < 2 ^ 32 | _ => True end.

Lemma allocated_hold ps held bt n w a :
  allocated base ps held bt n (w, a) ->
  exists held', hold held a n = Some held' /\ serves base ps held' bt w.
Proof.
  unfold hold. intros [[Ha Hs]|(Ha & Hh & Hs)]; cbn [fst snd] in *.
  - subst a. by exists held.
  - rewrite (proj2 (Z.eqb_neq a 0)), Hh by (unfold address in Ha; lia). eauto.
Qed.

Lemma client_run_spec ps cs :
  0 < base -> base + ps < 2 ^ 64 -> malloc_ok malloc -> (3 <= fuel)%nat -> Forall asks_ok cs ->
  forall w held bt, serves base ps held bt w ->
  exists w' held' bt' rs, client_run w held cs = Some (w', held', rs) /\
    serves base ps held' bt' w' /\ Forall (fun nr => nr.1 <= nr.2) rs.
Proof.
  intros Hb He Hm Hf. induction 1 as [|c cs Hc _ IH]; intros w held bt Hs; cbn [client_run].
  { eexists _, _, _, _. by split_and!. }
  destruct c as [n|n|a|a]; simpl in Hc.
  - destruct (palloc_spec base ps Hb He malloc junk (true, true, true) fuel Hm Hf held bt w n Hs)
      as ([w' a] & -> & Ha); [lia|]. bind_simpl.
    destruct (allocated_hold _ _ _ _ _ _ Ha) as (held' & -> & Hs'). bind_simpl. by eapply IH.
  - destruct (pcalloc_spec base ps Hb He malloc junk (true, true, true) fuel Hm Hf held bt w n Hs)
      as ([w' a] & bt' & -> & Ha); [lia|]. bind_simpl.
    destruct (allocated_hold _ _ _ _ _ _ Ha) as (held' & -> & Hs'). bind_simpl. by eapply IH.
  - destruct (held !! a) as [n|] eqn:Ha; [|by eapply IH].
    destruct (pfree_spec base ps Hb He held bt w a n Hs Ha) as (w' & -> & Hs'). bind_simpl. by eapply IH.
  - destruct (held !! a) as [n|] eqn:Ha; [|by eapply IH].
    destruct (pdatasize_spec base ps Hb He held bt w a n Hs Ha) as (r & -> & Hr). bind_simpl.
    destruct (IH w held bt Hs) as (w' & held' & bt' & rs & -> & Hs' & Hrs). bind_simpl.
    eexists _, _, _, _. split; [done|]. split; [exact Hs'|]. by constructor.
Qed.
End client.

(** * Properties *)

(** C2. A pool that may not grow (its memory limit is at most twice its size) serves every
    client that releases only blocks it holds: no call touches memory outside the pool, no
    block is handed out twice, every release succeeds and every size reported is at least
    what was asked for. The blocks held lie inside the pool behind its administration or
    inside a large block of their own and have no byte in common, and a client that holds
    nothing has given back everything: there is no large block, and the pool is as new. *)
Theorem one_pool_serves malloc junk w0 size maxmem smax maxfree maxsearch judge fuel cs :
  let ps := round_pool_size size in
  let base := malloc w0 ps in
  malloc_ok malloc -> pools w0 = ∅ -> larges w0 = ∅ -> base <> 0 ->
  sizeof_mempool + sizeof_realdata <= ps -> ps < maxmem <= 2 * ps ->
  max_memsize (config junk) <> maxmem -> (3 <= fuel)%nat -> Forall asks_ok cs ->
  exists w w' held rs p,
    mempool_init_extra malloc junk (true, true, true) w0 size maxmem smax maxfree maxsearch judge =
      Some (w, base) /\
    client_run malloc junk fuel base w ∅ cs = Some (w', held, rs) /\
    Forall (fun nr => nr.1 <= nr.2) rs /\ pools w' = {[ base := p ]} /\
    (forall a n, held !! a = Some n -> 0 < n /\
      ((base + sizeof_mempool <= a /\ a + n <= base + ps) \/
       (exists L, larges w' !! (a - sizeof_large) = Some L /\ n + sizeof_large <= large_size L))) /\
    (forall a n b m, held !! a = Some n -> held !! b = Some m -> a <> b -> apart a n b m) /\
    (held = ∅ -> larges w' = ∅ /\ fresh_pool (pdata p) (ps - sizeof_mempool) /\
      total_alloced (property p) = 0).
Proof.
  intros ps base Hm Hp0 Hl0 Hnz Hmin Hmax Hjunk Hf Hcs.
  pose proof (round_pool_size_bound size) as Hps. fold ps in Hps.
  destruct (Hm w0 ps) as [?|(Hb & He & _)]; [unfold sizeof_mempool, sizeof_realdata in *; lia|done|].
  destruct (init_serves base ps Hb He malloc junk w0 size maxmem smax maxfree maxsearch judge)
    as (w & Ei & Hs); try done.
  { unfold MEMPOOL_NULL, MEMPOOL_MAXSIZE, sizeof_mempool in *. lia. }
  destruct (client_run_spec malloc junk fuel base ps cs Hb He Hm Hf Hcs w ∅ _ Hs)
    as (w' & held & bt & rs & E & (p & ls & bs & live & -> & Sv) & Hrs).
  exists w, (at_base base p ls bt), held, rs, p. split_and!; try done.
  - intros a n Ha. destruct (held_place base ps _ _ _ _ _ _ _ Sv Ha) as [Hn Hpl]. split; [done|].
    destruct Hpl as [(o & -> & _ & Ho & Hc & _)|HL]; [left|by right].
    unfold payload, sizeof_mempool, sizeof_realdata in *. lia.
  - intros a n b m Ha Hbm. by eapply (held_apart base ps).
  - intros ->. by eapply nothing_held.
Qed.

(** * A library that keeps the promise

    Every block is put behind all that is in use. *)

Module Fresh.
Definition ends (w : world) : list Z :=
  ((fun bp : Z * mempool => bp.1 + pool_size (pdata bp.2)) <$> map_to_list (pools w)) ++
  ((fun lL : Z * mempool_large_t => lL.1 + large_size lL.2) <$> map_to_list (larges w)).

Definition top (w : world) : Z := foldr Z.max 4096 (ends w).

Definition malloc (w : world) (n : Z) : Z := if top w + n <? 2 ^ 64 then top w else 0.

Lemma foldr_max l : 4096 <= foldr Z.max 4096 l /\ forall x, x ∈ l -> x <= foldr Z.max 4096 l.
Proof.
  induction l as [|y l [IH1 IH2]]; simpl; [by split; [|intros x ?%elem_of_nil]|].
  split; [lia|]. intros x [->|Hx%IH2]%elem_of_cons; lia.
Qed.

Lemma malloc_fresh : malloc_ok malloc.
Proof.
  intros w n Hn. unfold malloc. destruct (Z.ltb_spec (top w + n) (2 ^ 64)); [right|by left].
  destruct (foldr_max (ends w)) as [H1 H2]. fold (top w) in *.
  split; [lia|]. split; [done|]. unfold apart. split.
  - intros b p Hb. right. apply H2. unfold ends. apply elem_of_app. left.
    apply list_elem_of_fmap. exists (b, p). by rewrite elem_of_map_to_list.
  - intros l L HL. right. apply H2. unfold ends. apply elem_of_app. right.
    apply list_elem_of_fmap. exists (l, L). by rewrite elem_of_map_to_list.
Qed.

(** While the large block is held the memory limit refuses everything else. *)
Definition calls : list client_call :=
  [Palloc 100; Palloc 3000; Pcalloc 5000; Pdatasize 4303; Pfree 4303; Palloc 60; Pdatasize 8204;
   Pfree 8204; Pfree 8204; Palloc 60].

Definition session : option (list (Z * Z) * list (Z * Z)) :=
  '(w, b) ← mempool_init_extra malloc Concrete.zeroes (true, true, true) (World ∅ ∅ ∅) 4096 8192
    60000 4 MEMPOOL_MAX_SEARCHPOOL None;
  '(w, held, rs) ← client_run malloc Concrete.zeroes 3 b w ∅ calls;
  Some (map_to_list held, rs).

Example session_result : session = Some ([(4303, 60); (4418, 3000)], [(100, 100); (5000, 5004)]).
Proof. vm_compute. reflexivity. Qed.
End Fresh.

(** * Witnesses *)

Lemma one_pool_serves_witness :
  exists w w' held rs,
    mempool_init_extra Fresh.malloc Concrete.zeroes (true, true, true) (World ∅ ∅ ∅) 4096 8192
      60000 4 MEMPOOL_MAX_SEARCHPOOL None = Some (w, 4096) /\
    client_run Fresh.malloc Concrete.zeroes 3 4096 w ∅ Fresh.calls = Some (w', held, rs) /\
    (forall a n b m, held !! a = Some n -> held !! b = Some m -> a <> b -> apart a n b m).
Proof.
  destruct (one_pool_serves Fresh.malloc Concrete.zeroes (World ∅ ∅ ∅) 4096 8192 60000 4
    MEMPOOL_MAX_SEARCHPOOL None 3 Fresh.calls) as (w & w' & held & rs & p & Ei & E & _ & _ & _ & Ha & _).
  - exact Fresh.malloc_fresh.
  - reflexivity.
  - reflexivity.
  - discriminate.
  - vm_compute. discriminate.
  - split; [reflexivity|vm_compute; discriminate].
  - discriminate.
  - lia.
  - repeat (apply Forall_cons_2; [first [exact I|simpl; lia]|]). constructor.
  - exists w, w', held, rs. split; [exact Ei|]. split; [exact E|exact Ha].
Defined.
