(* ===== verification/DemoMains.v ===== *)
(** The programs around three of the components: demo_hash/demo_hash.c, demo_base64/demo_base64.c
    and demo_mempool/demo_mempool.c. What they print is computed with the components' own
    definitions. *)

From Stdlib Require Import Ascii String.
From S2P Require Import Prelude CString Hashes Base64 Pool MpHash MemPool.

Definition chars_of (s : String.string) : list Z := map (fun c => Z.of_N (N_of_ascii c)) (list_ascii_of_string s).

(** ** demo_hash.c *)

(** The names and the values that are printed, with [%d]; the seed is the one of demo_hash.h. *)
(* src/demo_hash/demo_hash.c:10-38 main *)
Definition hash_main (hash_seed M_SHIFT : Z) : list (list Z * Z) :=
  [(chars_of "100", i32 (Wang.IntHash 99)); (chars_of "101", i32 (Wang.IntHash 100));
   (chars_of "hello", i32 (Murmur.MurmurHash2 hash_seed (chars_of "hello")));
   (chars_of "world", i32 (Murmur.MurmurHash2 hash_seed (chars_of "world")));
   (chars_of "hello", i32 (Djb.DJBHash hash_seed (chars_of "hello")));
   (chars_of "Hello", i32 (Djb.DJBHash hash_seed (chars_of "Hello")));
   (chars_of "hello", i32 (Djb.DJBCaseHash hash_seed (chars_of "hello")));
   (chars_of "HeLLo", i32 (Djb.DJBCaseHash hash_seed (chars_of "HeLLo")));
   (chars_of "hello", i32 (Fnv.FNVHash M_SHIFT (chars_of "hello")));
   (chars_of "world", i32 (Fnv.FNVHash M_SHIFT (chars_of "world")))].

(** The hash of 99 is printed as that of 100, and so on; the two spellings have the same value
    under the hash that ignores case. *)
Theorem hash_main_prints :
  snd <$> hash_main 5381 0 =
    [-178992960; -2430091; -783294962; 515843059; 261238937; 223289465; 261238937; 261238937;
     -1037657537; 381778983].
Proof. vm_compute. reflexivity. Qed.

(** ** demo_base64.c *)

(* src/demo_base64/base64.h:6-6 XYSSL_ERR_BASE64_INVALID_CHARACTER *)
Definition XYSSL_ERR_BASE64_INVALID_CHARACTER : Z := -0x12.

Definition base64_input : list Z := chars_of "asaksadjaksjdkjk=--49234735126379812@#$%^&*()5".

(** What is printed: a text, or what is wrong with it, and a length. *)
Inductive printed := TooSmall | Invalid | Text (dst : list Z) (dlen : Z).

(** [dst] and [decode_dst] are what the two arrays hold at first. *)
(* src/demo_base64/demo_base64.c:7-31 main *)
Definition base64_main (dst decode_dst : list Z) : option (printed * printed) :=
  let src := base64_input in
  let dlen := 65 in
  '(res, dlen, stored) ← base64_encode dlen src (Z.of_nat (length src));
  dst ← CString.store dst 0 stored;
  first ← (if res =? XYSSL_ERR_BASE64_BUFFER_TOO_SMALL then Some TooSmall
           else if res =? XYSSL_ERR_BASE64_INVALID_CHARACTER then Some Invalid
           else t ← text_in dst; Some (Text t dlen));
  t ← text_in dst;
  '(_, decode_dlen, stored) ← base64_decode true (Some 65) (Some dst) (Z.of_nat (length t));
  decode_dst ← CString.store decode_dst 0 stored;
  t ← text_in decode_dst;
  decode_dlen ← decode_dlen;
  Some (first, Text t decode_dlen).

Definition base64_text : list Z := chars_of "YXNha3NhZGpha3NqZGtqaz0tLTQ5MjM0NzM1MTI2Mzc5ODEyQCMkJV4mKigpNQ==".

Lemma encode_input : base64_encode 65 base64_input 46 = Some (0, 64, base64_text ++ [0]).
Proof. vm_compute. reflexivity. Qed.

Lemma decode_input r :
  base64_decode true (Some 65) (Some (base64_text ++ 0 :: r)) 64 = Some (0, Some 46, base64_input).
Proof. vm_compute. reflexivity. Qed.

Lemma chars_of_no_nul (s : list Z) : bool_decide (0 ∈ s) = false -> 0 ∉ s.
Proof. apply bool_decide_eq_false_1. Qed.

(** The text comes out and its 46 bytes come back; but nothing ends them, and what is printed
    behind them is what the array held, up to a NUL there. *)
Theorem base64_main_prints dst junk rest :
  length dst = 100%nat -> length junk = 46%nat ->
  base64_main dst (junk ++ rest) =
    if bool_decide (0 ∈ rest)
    then Some (Text base64_text 64, Text (base64_input ++ c_string rest) 46) else None.
Proof.
  intros Hd Hj. unfold base64_main.
  replace (Z.of_nat (length base64_input)) with 46 by (vm_compute; reflexivity).
  assert (0 ∉ base64_text) as Ht by (apply chars_of_no_nul; vm_compute; reflexivity).
  assert (0 ∉ base64_input) as Hi by (apply chars_of_no_nul; vm_compute; reflexivity).
  rewrite encode_input. bind_simpl. rewrite store_ok.
  2: { rewrite Hd. vm_compute. lia. }
  bind_simpl. rewrite take_0. cbn [app]. rewrite <- (assoc_L app). set (r := drop _ dst).
  assert (holds (base64_text ++ [0] ++ r) base64_text) as [Hc Htext]%holds_text by (split; [done|by exists r]).
  change (0 =? XYSSL_ERR_BASE64_BUFFER_TOO_SMALL) with false.
  change (0 =? XYSSL_ERR_BASE64_INVALID_CHARACTER) with false. cbn iota. rewrite Htext. bind_simpl.
  replace (Z.of_nat (length base64_text)) with 64 by (vm_compute; reflexivity).
  change ([0] ++ r) with (0 :: r). rewrite decode_input. bind_simpl.
  pose proof (store_app [] junk rest base64_input Hj) as Es. cbn [app length] in Es.
  rewrite Es. bind_simpl. unfold text_in.
  case_bool_decide as Hin; case_bool_decide as Hin'.
  - bind_simpl. by rewrite c_string_app.
  - rewrite elem_of_app in Hin. tauto.
  - set_solver.
  - done.
Qed.

(** ** demo_mempool.c *)

Section mempool_demo.
Context (malloc : world -> Z -> Z) (junk : mempool) (callocs : bool * bool * bool) (fuel : nat).

(* src/demo_mempool/demo_mempool.c:8-10 judge *)
Definition judge (size : Z) : Z := 1.

Fixpoint put_bytes (bs : gmap Z Z) (dest : Z) (s : list Z) : gmap Z Z :=
  match s with [] => bs | c :: s => put_bytes (<[dest := c]> bs) (dest + 1) s end.

(** The two sums that are printed, what [pfree] returns and what is left; [hostname] is the array
    behind [gethostname]. *)
(* src/demo_mempool/demo_mempool.c:13-37 main *)
Definition mempool_main (hostname : list Z) (w : world) : option (Z * Z * Z * world) :=
  let size := 1024 * 1024 in
  let maxmem := 1024 * 1024 * 10 in
  let single_max := 1024 * 1024 * 2 in
  '(w, pool) ← mempool_init_extra malloc junk callocs w size maxmem single_max 3 3 (Some judge);
  before ← mempool_alloced w pool;
  '(w, strings) ← pcalloc malloc junk callocs fuel w pool 64;
  text ← text_in hostname;
  let w := with_bytes w (put_bytes (bytes w) strings (text ++ [0])) in
  after ← mempool_alloced w pool;
  '(w, rc) ← pfree w pool strings;
  w ← mempool_destroy fuel w pool;
  Some (before, after, rc, w).
End mempool_demo.

(** The pool is asked for a mebibyte and reports a page, before and after the allocation; the
    block is taken back and all memory released. A host name that fills its array has no end. *)
Theorem mempool_main_prints hostname :
  match mempool_main Concrete.bump_malloc Concrete.zeroes (true, true, true) 40 hostname Concrete.no_pools with
  | Some (before, after, rc, w) =>
      before = 4096 /\ after = 4096 /\ rc = 0 /\ pools w = ∅ /\ larges w = ∅ /\ 0 ∈ hostname
  | None => 0 ∉ hostname
  end.
Proof.
  unfold mempool_main, text_in. case_bool_decide as H.
  - assert (forall P Q R S T, P -> Q -> R -> S -> T -> P /\ Q /\ R /\ S /\ T /\ 0 ∈ hostname) as Hand by tauto.
    generalize (c_string hostname). intros text. clear H. vm_compute. auto 10.
  - vm_compute. exact H.
Qed.

(** ** Witnesses *)

Lemma base64_main_prints_witness :
  base64_main (replicate 100 0) (replicate 46 0 ++ 33 :: replicate 18 0) =
    Some (Text base64_text 64, Text (base64_input ++ [33]) 46).
Proof. apply (base64_main_prints (replicate 100 0) (replicate 46 0)); reflexivity. Defined.
