(* ===== verification/Double.v ===== *)
(** The C library's [double]: IEEE 754 binary64 numbers, the conversions and the text forms.

    Not a component of its own: src/demo_json/cJSON.c computes with doubles and prints them
    with [sprintf]. The arithmetic is the Standard Library's [spec_float] at 53 bits of
    precision (round to nearest even). A conversion to [int] of a number out of range gives
    [INT_MIN], which is what the compiled code does on x86 (the language leaves it open). *)

From Stdlib Require Import SpecFloat.
From S2P Require Import Prelude.

Abbreviation double := spec_float.

Definition dadd : double -> double -> double := SFadd 53 1024.
Definition dsub : double -> double -> double := SFsub 53 1024.
Definition dmul : double -> double -> double := SFmul 53 1024.

Definition valid_double (d : double) : bool := valid_binary 53 1024 d.

(** [(double) z] *)
Definition of_int (z : Z) : double := binary_normalize 53 1024 z 0 false.

(** The integer part, towards zero. *)
Definition trunc (m : positive) (e : Z) : Z := Z.shiftl (Zpos m) e.

(** [(int) d] *)
Definition to_int (d : double) : Z :=
  match d with
  | S754_zero _ => 0
  | S754_finite s m e =>
      let v := cond_Zopp s (trunc m e) in
      if (INT_MIN <=? v) && (v <=? INT_MAX) then v else INT_MIN
  | _ => INT_MIN
  end.

Definition floor (d : double) : double :=
  match d with
  | S754_finite s m e =>
      if 0 <=? e then d else binary_normalize 53 1024 (Z.shiftl (cond_Zopp s (Zpos m)) e) 0 s
  | _ => d
  end.

Definition DBL_EPSILON : double := S754_finite false 4503599627370496 (-104).

(** ** Decimal text *)

Fixpoint dec_loop (fuel : nat) (n : Z) : list Z :=
  match fuel with
  | O => []
  | S fuel => if n <? 10 then [48 + n] else dec_loop fuel (n / 10) ++ [48 + n mod 10]
  end.

(** The decimal digits of a nonnegative number. *)
Definition dec (n : Z) : list Z := dec_loop (S (Z.to_nat (Z.log2 n))) n.

(** [sprintf("%d", z)] *)
Definition format_d (z : Z) : list Z := if z <? 0 then 45 :: dec (- z) else dec z.

(** [n] digits, with leading zeros. *)
Definition padded (n : nat) (z : Z) : list Z := replicate (n - length (dec z)) 48 ++ dec z.

(** The quotient rounded to the nearest integer, ties to even. *)
Definition div_even (a b : Z) : Z :=
  let q := a / b in
  let r := a mod b in
  match 2 * r ?= b with
  | Lt => q
  | Gt => q + 1
  | Eq => if Z.even q then q else q + 1
  end.

Definition numerator (m : positive) (e : Z) : Z := Zpos m * 2 ^ Z.max e 0.
Definition denominator (e : Z) : Z := 2 ^ Z.max (- e) 0.

Definition sign_text (s : bool) : list Z := if s then [45] else [].

(** "inf" and "-nan": the only NaN the code computes, [0 * inf], has its sign bit set. *)
Definition format_special (d : double) : list Z :=
  match d with
  | S754_infinity s => sign_text s ++ [105; 110; 102]
  | _ => [45; 110; 97; 110]
  end.

(** [sprintf("%.0f", d)] *)
Definition format_0f (d : double) : list Z :=
  match d with
  | S754_zero s => sign_text s ++ [48]
  | S754_finite s m e => sign_text s ++ dec (div_even (numerator m e) (denominator e))
  | _ => format_special d
  end.

(** [sprintf("%f", d)] *)
Definition format_f (d : double) : list Z :=
  let text s n := sign_text s ++ dec (n / 10 ^ 6) ++ [46] ++ padded 6 (n mod 10 ^ 6) in
  match d with
  | S754_zero s => text s 0
  | S754_finite s m e => text s (div_even (numerator m e * 10 ^ 6) (denominator e))
  | _ => format_special d
  end.

(** The decimal exponent of [a / b]. *)
Definition exponent10 (a b : Z) : Z :=
  if b <=? a then Z.of_nat (length (dec (a / b))) - 1
  else - Z.of_nat (length (dec ((b - 1) / a))).

(** [sprintf("%e", d)] *)
Definition format_e (d : double) : list Z :=
  let text s n k :=
    sign_text s ++ dec (n / 10 ^ 6) ++ [46] ++ padded 6 (n mod 10 ^ 6) ++ [101] ++
    [if k <? 0 then 45 else 43] ++ padded 2 (Z.abs k) in
  match d with
  | S754_zero s => text s 0 0
  | S754_finite s m e =>
      let a := numerator m e in
      let b := denominator e in
      let k := exponent10 a b in
      let n := div_even (a * 10 ^ Z.max (6 - k) 0) (b * 10 ^ Z.max (k - 6) 0) in
      if n <? 10 ^ 7 then text s n k else text s (10 ^ 6) (k + 1)
  | _ => format_special d
  end.

(** ** Integers below 2^53 are exact *)

Lemma digits2_log2 p : Zpos (digits2_pos p) = Z.log2 (Zpos p) + 1.
Proof.
  induction p as [p IH|p IH|]; simpl digits2_pos; rewrite ?Pos2Z.inj_succ, ?IH; [| |done].
  - rewrite (Pos2Z.inj_xI p), Z.log2_succ_double; lia.
  - rewrite (Pos2Z.inj_xO p), Z.log2_double; lia.
Qed.

Lemma digits2_eq (p : positive) d :
  0 < d -> 2 ^ (d - 1) <= Zpos p < 2 ^ d -> Zpos (digits2_pos p) = d.
Proof.
  intros Hd Hp. rewrite digits2_log2, (Z.log2_unique (Zpos p) (d - 1)); [lia|lia|].
  by replace (Z.succ (d - 1)) with d by lia.
Qed.

Lemma shr_1_even m : shr_1 (Build_shr_record (2 * m) false false) = Build_shr_record m false false.
Proof. by destruct m. Qed.

(** Shifting out zeros loses nothing. *)
Lemma shift_exact p a :
  SpecFloat.iter_pos shr_1 p (Build_shr_record (a * 2 ^ Zpos p) false false) = Build_shr_record a false false.
Proof.
  revert a. induction p as [p IH|p IH|]; intros a; cbn [SpecFloat.iter_pos].
  - replace (a * 2 ^ Zpos p~1) with (2 * (a * 2 ^ Zpos p * 2 ^ Zpos p)).
    { by rewrite shr_1_even, !IH. }
    replace (Zpos p~1) with (Zpos p + Zpos p + 1) by lia. rewrite !Z.pow_add_r; lia.
  - replace (a * 2 ^ Zpos p~0) with (a * 2 ^ Zpos p * 2 ^ Zpos p); [by rewrite !IH|].
    replace (Zpos p~0) with (Zpos p + Zpos p) by lia. rewrite Z.pow_add_r; lia.
  - replace (a * 2 ^ 1) with (2 * a) by lia. apply shr_1_even.
Qed.

(** A 53-bit mantissa followed by zeros is not rounded. *)
Lemma round_exact s m e a k :
  0 <= k -> Zpos m = Zpos a * 2 ^ k -> 2 ^ 52 <= Zpos a < 2 ^ 53 -> -1074 <= e + k <= 971 ->
  binary_round_aux 53 1024 s (Zpos m) e loc_Exact = S754_finite s a (e + k).
Proof.
  intros Hk Hm Ha He.
  assert (Zpos (digits2_pos m) = 53 + k) as Hd.
  { apply digits2_eq; [lia|]. rewrite Hm.
    replace (53 + k - 1) with (52 + k) by lia. rewrite !Z.pow_add_r by lia. nia. }
  assert (Zpos (digits2_pos a) = 53) as Hda by (apply digits2_eq; lia).
  assert (forall x, -1074 <= x -> fexp 53 1024 (53 + x) = x) as Hf.
  { intros x Hx. unfold fexp, emin. lia. }
  assert (shr_fexp 53 1024 (Zpos m) e loc_Exact = (Build_shr_record (Zpos a) false false, e + k))
    as E1.
  { unfold shr_fexp. simpl Zdigits2. rewrite Hd.
    replace (53 + k + e) with (53 + (e + k)) by lia. rewrite Hf by lia.
    replace (e + k - e) with k by lia. unfold shr. cbn [shr_record_of_loc].
    destruct k as [|k|k]; [|by rewrite Hm, shift_exact|lia].
    rewrite Hm, Z.mul_1_r. f_equal. lia. }
  assert (shr_fexp 53 1024 (Zpos a) (e + k) loc_Exact
    = (Build_shr_record (Zpos a) false false, e + k)) as E2.
  { unfold shr_fexp. simpl Zdigits2. rewrite Hda, Hf by lia. by rewrite Z.sub_diag. }
  unfold binary_round_aux. rewrite E1. cbn [shr_m loc_of_shr_record round_nearest_even].
  rewrite E2. cbn [shr_m]. by destruct (Z.leb_spec (e + k) (1024 - 53)); [|lia].
Qed.

(** The normal form of the integer [z], [0 <= z < 2^53], and of its opposite. *)
Definition canon (s : bool) (z : Z) : double :=
  if z =? 0 then S754_zero s
  else S754_finite s (Z.to_pos (z * 2 ^ (52 - Z.log2 z))) (Z.log2 z - 52).

Lemma canon_mantissa z :
  0 < z < 2 ^ 53 -> 0 <= Z.log2 z <= 52 /\ 2 ^ 52 <= z * 2 ^ (52 - Z.log2 z) < 2 ^ 53.
Proof.
  intros Hz. assert (Z.log2 z < 53) as Hl by (apply Z.log2_lt_pow2; lia).
  pose proof (Z.log2_nonneg z). pose proof (Z.log2_spec z ltac:(lia)) as [H1 H2].
  rewrite Z.pow_succ_r in H2 by done. split; [lia|].
  replace (2 ^ 53) with (2 * 2 ^ Z.log2 z * 2 ^ (52 - Z.log2 z)).
  - replace (2 ^ 52) with (2 ^ Z.log2 z * 2 ^ (52 - Z.log2 z)); [nia|].
    rewrite <- Z.pow_add_r by lia. f_equal. lia.
  - rewrite <- Z.mul_assoc, <- Z.pow_add_r by lia.
    replace (Z.log2 z + (52 - Z.log2 z)) with 52 by lia. done.
Qed.

Lemma round_int_aux s m e z :
  0 < z < 2 ^ 53 -> e <= 0 -> Zpos m = z * 2 ^ (- e) -> e <= Z.log2 z - 52 ->
  binary_round_aux 53 1024 s (Zpos m) e loc_Exact = canon s z.
Proof.
  intros Hz He Hm Hk. destruct (canon_mantissa z Hz) as [Hl Ha].
  unfold canon. destruct (Z.eqb_spec z 0); [lia|].
  rewrite (round_exact s m e (Z.to_pos (z * 2 ^ (52 - Z.log2 z))) (Z.log2 z - 52 - e)).
  - f_equal. lia.
  - lia.
  - rewrite Z2Pos.id, Hm, <- Z.mul_assoc, <- Z.pow_add_r by lia. f_equal. f_equal. lia.
  - by rewrite Z2Pos.id by lia.
  - lia.
Qed.

Lemma iter_xO p d : Zpos (Pos.iter xO p d) = Zpos p * 2 ^ Zpos d.
Proof.
  induction d as [|d IH] using Pos.peano_ind; [simpl; lia|].
  rewrite Pos.iter_succ, Pos2Z.inj_xO, IH, Pos2Z.inj_succ, Z.pow_succ_r; lia.
Qed.

Lemma round_int s m e z :
  0 < z < 2 ^ 53 -> e <= 0 -> Zpos m = z * 2 ^ (- e) ->
  binary_round 53 1024 s m e = canon s z.
Proof.
  intros Hz He Hm. destruct (canon_mantissa z Hz) as [Hl Ha].
  assert (Zpos (digits2_pos m) + e = Z.log2 z + 1) as Hd.
  { rewrite digits2_log2, Hm, Z.log2_mul_pow2 by lia. lia. }
  unfold binary_round. rewrite Hd.
  assert (fexp 53 1024 (Z.log2 z + 1) = Z.log2 z - 52) as -> by (unfold fexp, emin; lia).
  unfold shl_align. destruct (Z.log2 z - 52 - e) as [|d|d] eqn:E.
  - apply round_int_aux; lia.
  - apply round_int_aux; lia.
  - apply round_int_aux; [lia|lia| |lia].
    rewrite iter_xO, Hm, <- Z.mul_assoc, <- Z.pow_add_r by lia. do 2 f_equal. lia.
Qed.

Lemma of_int_canon z : 0 <= z < 2 ^ 53 -> of_int z = canon false z.
Proof.
  intros Hz. unfold of_int, binary_normalize. destruct z as [|p|p]; [done| |lia].
  apply round_int; [lia|lia|simpl; lia].
Qed.

Lemma of_int_neg z : 0 < z < 2 ^ 53 -> of_int (- z) = canon true z.
Proof.
  intros Hz. unfold of_int, binary_normalize. destruct z as [|p|p]; [lia| |lia].
  apply round_int; [lia|lia|simpl; lia].
Qed.

Lemma dmul_canon s1 s2 x y :
  0 <= x -> 0 <= y -> x * y < 2 ^ 53 -> x < 2 ^ 53 -> y < 2 ^ 53 ->
  dmul (canon s1 x) (canon s2 y) = canon (xorb s1 s2) (x * y).
Proof.
  intros Hx Hy Hxy Hx' Hy'. unfold dmul.
  destruct (Z.eq_dec x 0) as [->|]; [by unfold canon; destruct (Z.eqb_spec y 0)|].
  destruct (Z.eq_dec y 0) as [->|];
    [by rewrite Z.mul_0_r; unfold canon; destruct (Z.eqb_spec x 0)|].
  destruct (canon_mantissa x) as [Hl1 Ha1]; [lia|]. destruct (canon_mantissa y) as [Hl2 Ha2]; [lia|].
  pose proof (Z.log2_mul_below x y ltac:(lia) ltac:(lia)) as Hl.
  unfold canon at 1 2. destruct (Z.eqb_spec x 0), (Z.eqb_spec y 0); try lia.
  cbn [SFmul]. apply round_int_aux; [nia|lia| |lia].
  rewrite Pos2Z.inj_mul, !Z2Pos.id by lia.
  replace (- (Z.log2 x - 52 + (Z.log2 y - 52))) with ((52 - Z.log2 x) + (52 - Z.log2 y)) by lia.
  rewrite Z.pow_add_r; lia.
Qed.

Lemma dadd_canon x y :
  0 <= x -> 0 <= y -> x + y < 2 ^ 53 -> dadd (canon false x) (canon false y) = canon false (x + y).
Proof.
  intros Hx Hy Hxy. unfold dadd.
  destruct (Z.eq_dec x 0) as [->|]; [by rewrite Z.add_0_l; unfold canon; destruct (Z.eqb_spec y 0)|].
  destruct (Z.eq_dec y 0) as [->|];
    [by rewrite Z.add_0_r; unfold canon; destruct (Z.eqb_spec x 0)|].
  destruct (canon_mantissa x) as [Hl1 Ha1]; [lia|]. destruct (canon_mantissa y) as [Hl2 Ha2]; [lia|].
  unfold canon at 1 2. destruct (Z.eqb_spec x 0), (Z.eqb_spec y 0); try lia.
  cbn [SFadd cond_Zopp]. set (ez := Z.min (Z.log2 x - 52) (Z.log2 y - 52)).
  assert (forall z, 0 < z -> 0 <= Z.log2 z <= 52 -> ez <= Z.log2 z - 52 ->
    Zpos (fst (shl_align (Z.to_pos (z * 2 ^ (52 - Z.log2 z))) (Z.log2 z - 52) ez))
    = z * 2 ^ (- ez)) as Hal.
  { intros z Hz Hlz Hez. assert (0 < z * 2 ^ (52 - Z.log2 z)) by lia.
    unfold shl_align. destruct (ez - (Z.log2 z - 52)) as [|d|d] eqn:E; [|lia|].
    - cbn [fst]. rewrite Z2Pos.id by lia. do 2 f_equal. lia.
    - cbn [fst]. rewrite iter_xO, Z2Pos.id, <- Z.mul_assoc, <- Z.pow_add_r by lia.
      do 2 f_equal. lia. }
  rewrite !Hal by lia. rewrite <- Z.mul_add_distr_r.
  destruct ((x + y) * 2 ^ (- ez)) as [|p|p] eqn:E; [lia| |lia].
  cbn [binary_normalize]. apply round_int; lia.
Qed.

Lemma canon_value s z :
  0 <= z <= 2 ^ 31 -> (s = false -> z < 2 ^ 31) -> to_int (canon s z) = cond_Zopp s z.
Proof.
  intros Hz Hs. unfold canon. destruct (Z.eqb_spec z 0) as [->|]; [by destruct s|].
  destruct (canon_mantissa z) as [Hl Ha]; [lia|].
  assert (trunc (Z.to_pos (z * 2 ^ (52 - Z.log2 z))) (Z.log2 z - 52) = z) as Ht.
  { unfold trunc. rewrite Z2Pos.id by lia. replace (Z.log2 z - 52) with (- (52 - Z.log2 z)) by lia.
    rewrite <- Z.shiftl_mul_pow2, Z.shiftl_shiftl, Z.add_opp_diag_r by lia. apply Z.shiftl_0_r. }
  unfold to_int. rewrite Ht. unfold INT_MIN, INT_MAX.
  destruct s; cbn [cond_Zopp].
  - destruct (Z.leb_spec (- 2 ^ 31) (- z)), (Z.leb_spec (- z) (2 ^ 31 - 1)); simpl; lia.
  - destruct (Z.leb_spec (- 2 ^ 31) z), (Z.leb_spec z (2 ^ 31 - 1)); simpl; lia.
Qed.

(** An [int] survives the conversion to [double] and back. *)
Lemma to_int_of_int z : INT_MIN <= z <= INT_MAX -> to_int (of_int z) = z.
Proof.
  unfold INT_MIN, INT_MAX. intros Hz. destruct (Z.leb_spec 0 z).
  - rewrite of_int_canon by lia. by rewrite canon_value by lia.
  - replace z with (- (- z)) by lia. rewrite of_int_neg by lia. by rewrite canon_value by lia.
Qed.

Lemma canon_valid s z : 0 <= z < 2 ^ 53 -> valid_double (canon s z) = true.
Proof.
  intros Hz. unfold canon. destruct (Z.eqb_spec z 0) as [->|]; [done|].
  destruct (canon_mantissa z) as [Hl Ha]; [lia|].
  unfold valid_double, valid_binary, bounded, canonical_mantissa. apply andb_true_iff. split.
  - apply Z.eqb_eq. rewrite digits2_log2, Z2Pos.id, Z.log2_mul_pow2 by lia. unfold fexp, emin. lia.
  - apply Z.leb_le. lia.
Qed.

Lemma valid_of_int z : INT_MIN <= z <= INT_MAX -> valid_double (of_int z) = true.
Proof.
  unfold INT_MIN, INT_MAX. intros Hz. destruct (Z.leb_spec 0 z).
  - rewrite of_int_canon by lia. apply canon_valid. lia.
  - replace z with (- (- z)) by lia. rewrite of_int_neg by lia. apply canon_valid. lia.
Qed.

Lemma canon_magnitude x y :
  0 < x < 2 ^ 53 -> 0 < y < 2 ^ 53 ->
  match Z.compare (Z.log2 x - 52) (Z.log2 y - 52) with
  | Lt => Lt
  | Gt => Gt
  | Eq => Pos.compare_cont Eq (Z.to_pos (x * 2 ^ (52 - Z.log2 x))) (Z.to_pos (y * 2 ^ (52 - Z.log2 y)))
  end = Z.compare x y.
Proof.
  intros Hx Hy. destruct (canon_mantissa x Hx) as [Hl1 Ha1], (canon_mantissa y Hy) as [Hl2 Ha2].
  destruct (Z.compare_spec (Z.log2 x - 52) (Z.log2 y - 52)) as [E|Hlt|Hgt]; symmetry.
  - change (Pos.compare_cont Eq) with Pos.compare. rewrite <- Z2Pos.inj_compare by lia.
    replace (Z.log2 y) with (Z.log2 x) by lia. apply Zmult_compare_compat_r. lia.
  - apply Z.compare_lt_iff, Z.log2_lt_cancel. lia.
  - apply Z.compare_gt_iff, Z.log2_lt_cancel. lia.
Qed.

(** The order of integers is the order of their doubles. *)
Lemma int_le x y : - 2 ^ 53 < x -> x <= y -> y < 2 ^ 53 -> SFleb (of_int x) (of_int y) = true.
Proof.
  intros Hx Hxy Hy. unfold SFleb.
  destruct (Z.lt_ge_cases x 0), (Z.lt_ge_cases y 0); try lia.
  - replace x with (- - x) by lia. replace y with (- - y) by lia. rewrite !of_int_neg by lia.
    unfold canon. destruct (Z.eqb_spec (- x) 0), (Z.eqb_spec (- y) 0); try lia. cbn [SFcompare].
    pose proof (canon_magnitude (- x) (- y) ltac:(lia) ltac:(lia)) as Hm.
    destruct (Z.compare_spec (Z.log2 (- x) - 52) (Z.log2 (- y) - 52)).
    + rewrite Hm. clear Hm. by destruct (Z.compare_spec (- x) (- y)); [| lia|].
    + assert (- x < - y) by (symmetry; exact Hm). lia.
    + done.
  - replace x with (- - x) by lia. rewrite of_int_neg, of_int_canon by lia. unfold canon.
    destruct (Z.eqb_spec (- x) 0), (Z.eqb_spec y 0); try lia; done.
  - rewrite !of_int_canon by lia. unfold canon.
    destruct (Z.eqb_spec x 0), (Z.eqb_spec y 0); try lia; try done. cbn [SFcompare].
    pose proof (canon_magnitude x y ltac:(lia) ltac:(lia)) as Hm.
    destruct (Z.compare_spec (Z.log2 x - 52) (Z.log2 y - 52)).
    + rewrite Hm. clear Hm. by destruct (Z.compare_spec x y); [| |lia].
    + done.
    + assert (x > y) by (symmetry; exact Hm). lia.
Qed.

Lemma dsub_diag_int z : - 2 ^ 53 < z < 2 ^ 53 -> dsub (of_int z) (of_int z) = S754_zero false.
Proof.
  intros Hz. assert (exists s x, of_int z = canon s x /\ (s = true -> x <> 0)) as (s & x & -> & Hs).
  { destruct (Z.lt_ge_cases z 0).
    - exists true, (- z). rewrite <- of_int_neg, Z.opp_involutive by lia. split; [done|lia].
    - exists false, z. by rewrite of_int_canon by lia. }
  unfold canon, dsub. destruct (Z.eqb_spec x 0); [by destruct s; [destruct Hs|]|].
  cbn [SFsub]. rewrite Z.min_id. unfold shl_align. rewrite Z.sub_diag. cbn [fst].
  done.
Qed.

(** ** Decimal text: digits, lengths, and the number they denote *)

Lemma dec_loop_length fuel k n : 0 <= n < 10 ^ Z.of_nat k -> (0 < k)%nat ->
  (length (dec_loop fuel n) <= k)%nat.
Proof.
  revert k n. induction fuel as [|fuel IH]; intros k n Hn Hk; [simpl; lia|]. cbn [dec_loop].
  destruct (Z.ltb_spec n 10); [simpl; lia|].
  destruct k as [|[|k]]; [lia|change (10 ^ Z.of_nat 1) with 10 in Hn; lia|].
  rewrite length_app. cbn [length].
  rewrite Nat2Z.inj_succ, Z.pow_succ_r in Hn by lia.
  assert (length (dec_loop fuel (n / 10)) <= S k)%nat; [|lia].
  apply IH; [|lia]. split; [apply Z.div_pos; lia|apply Z.div_lt_upper_bound; lia].
Qed.

Lemma dec_length k n : 0 <= n < 10 ^ Z.of_nat k -> (0 < k)%nat -> (length (dec n) <= k)%nat.
Proof. apply dec_loop_length. Qed.

Lemma dec_loop_nonempty fuel n : (0 < length (dec_loop (S fuel) n))%nat.
Proof. cbn [dec_loop]. case_match; [simpl; lia|]. rewrite length_app. simpl; lia. Qed.

Lemma padded_length k n : 0 <= n < 10 ^ Z.of_nat k -> (0 < k)%nat -> length (padded k n) = k.
Proof.
  intros Hn Hk. unfold padded. rewrite length_app, length_replicate.
  pose proof (dec_length k n Hn Hk). lia.
Qed.

Definition digit_code (c : Z) : Prop := 48 <= c <= 57.

Lemma dec_loop_digits fuel n : 0 <= n -> Forall digit_code (dec_loop fuel n).
Proof.
  revert n. induction fuel as [|fuel IH]; intros n Hn; [constructor|]. cbn [dec_loop].
  destruct (Z.ltb_spec n 10); [repeat constructor; unfold digit_code; lia|].
  apply Forall_app. split; [apply IH, Z.div_pos; lia|].
  repeat constructor; unfold digit_code; pose proof (Z.mod_pos_bound n 10); lia.
Qed.

Lemma dec_digits n : 0 <= n -> Forall digit_code (dec n).
Proof. apply dec_loop_digits. Qed.

(** The text of a number has no NUL. *)
Lemma format_d_no_nul z : 0 ∉ format_d z.
Proof.
  assert (forall n, 0 <= n -> 0 ∉ dec n) as Hd.
  { intros n Hn H0. pose proof (dec_digits n Hn) as Hd. rewrite Forall_forall in Hd.
    specialize (Hd 0 H0). unfold digit_code in Hd. lia. }
  unfold format_d. destruct (Z.ltb_spec z 0); [|by apply Hd].
  intros [?|H0]%elem_of_cons; [lia|]. apply (Hd (- z)) in H0; [done|lia].
Qed.

(** The first digit is 0 only in the text of 0. *)
Lemma dec_loop_head fuel n :
  0 < n -> n < 2 ^ Z.of_nat fuel -> exists c l, dec_loop fuel n = c :: l /\ 49 <= c <= 57.
Proof.
  revert n. induction fuel as [|fuel IH]; intros n Hn Hf.
  { change (2 ^ Z.of_nat 0) with 1 in Hf. lia. }
  cbn [dec_loop]. destruct (Z.ltb_spec n 10); [exists (48 + n), []; split; [done|lia]|].
  rewrite Nat2Z.inj_succ, Z.pow_succ_r in Hf by lia.
  destruct (IH (n / 10)) as (c & l & -> & Hc).
  - apply Z.div_str_pos. lia.
  - apply Z.div_lt_upper_bound; lia.
  - by exists c, (l ++ [48 + n mod 10]).
Qed.

(** The value of a sequence of digits behind the number [a]. *)
Definition digits_value (a : Z) (l : list Z) : Z := fold_left (fun a c => a * 10 + (c - 48)) l a.

Lemma dec_loop_value fuel n :
  0 <= n -> n < 2 ^ Z.of_nat fuel -> digits_value 0 (dec_loop fuel n) = n.
Proof.
  revert n. induction fuel as [|fuel IH]; intros n Hn Hf.
  { change (2 ^ Z.of_nat 0) with 1 in Hf. simpl. lia. }
  cbn [dec_loop]. destruct (Z.ltb_spec n 10); [simpl; lia|].
  rewrite Nat2Z.inj_succ, Z.pow_succ_r in Hf by lia.
  unfold digits_value in *. rewrite fold_left_app, IH; simpl.
  - pose proof (Z.div_mod n 10). lia.
  - apply Z.div_pos; lia.
  - apply Z.div_lt_upper_bound; lia.
Qed.

Lemma dec_fuel n : 0 <= n -> n < 2 ^ Z.of_nat (S (Z.to_nat (Z.log2 n))).
Proof.
  intros Hn. rewrite Nat2Z.inj_succ, Z2Nat.id by apply Z.log2_nonneg.
  destruct (Z.eq_dec n 0) as [->|]; [done|]. apply Z.log2_spec. lia.
Qed.

Lemma dec_value n : 0 <= n -> digits_value 0 (dec n) = n.
Proof. intros. apply dec_loop_value; [done|by apply dec_fuel]. Qed.

Lemma dec_head n : 0 < n -> exists c l, dec n = c :: l /\ 49 <= c <= 57.
Proof. intros. apply dec_loop_head; [done|]. apply dec_fuel. lia. Qed.

Lemma digits_value_mono a l : 0 <= a -> Forall digit_code l -> a <= digits_value a l.
Proof.
  intros Ha Hl. revert a Ha. induction Hl as [|c l Hc Hl IH]; intros a Ha; [simpl; lia|].
  unfold digit_code in Hc. unfold digits_value in *. simpl.
  specialize (IH (a * 10 + (c - 48)) ltac:(lia)). lia.
Qed.

(** ** How long the text of a double is *)

Lemma div_even_bound a b : 0 <= a -> 0 < b -> 0 <= div_even a b <= a / b + 1.
Proof.
  intros Ha Hb. pose proof (Z.div_pos a b Ha Hb). unfold div_even. repeat case_match; lia.
Qed.

Lemma valid_mantissa s m e :
  valid_double (S754_finite s m e) = true -> Zpos m < 2 ^ 53 /\ -1074 <= e <= 971.
Proof.
  intros [Hc He%Z.leb_le]%andb_true_iff. apply Z.eqb_eq in Hc.
  unfold fexp, emin in Hc. rewrite digits2_log2 in Hc. split; [|lia].
  assert (Z.log2 (Zpos m) < 53) as Hl%Z.log2_lt_pow2; lia.
Qed.

Lemma quotient_bound (m : positive) e k b :
  Zpos m < 2 ^ 53 -> e <= b -> 0 <= b -> 0 < k -> 0 <= k * numerator m e / denominator e < k * 2 ^ (53 + b).
Proof.
  intros Hm He Hb Hk. unfold numerator, denominator.
  assert (0 < 2 ^ Z.max (- e) 0) by lia. assert (0 < 2 ^ Z.max e 0) by lia.
  split; [apply Z.div_pos; nia|]. rewrite Z.pow_add_r by lia.
  apply Z.div_lt_upper_bound; [done|].
  assert (2 ^ Z.max e 0 <= 2 ^ b) by (apply Z.pow_le_mono_r; lia).
  assert (Zpos m * 2 ^ Z.max e 0 < 2 ^ 53 * 2 ^ b) by nia.
  apply Z.lt_le_trans with (k * (2 ^ 53 * 2 ^ b)); [by apply Z.mul_lt_mono_pos_l|].
  rewrite <- (Z.mul_1_l (k * _)) at 1. apply Z.mul_le_mono_nonneg_r; lia.
Qed.

Lemma sign_length s : (length (sign_text s) <= 1)%nat.
Proof. destruct s; simpl; lia. Qed.

Lemma special_length d : (length (format_special d) <= 4)%nat.
Proof. destruct d as [| [] | |]; simpl; lia. Qed.

Lemma format_d_length z : INT_MIN <= z <= INT_MAX -> (length (format_d z) <= 20)%nat.
Proof.
  unfold INT_MIN, INT_MAX, format_d. intros Hz. destruct (Z.ltb_spec z 0); cbn [length].
  - pose proof (dec_length 19 (- z) ltac:(lia)). lia.
  - pose proof (dec_length 20 z ltac:(lia)). lia.
Qed.

Lemma ltb_exponent m e m' e' :
  SFltb (S754_finite false m e) (S754_finite false m' e') = true -> e <= e'.
Proof. unfold SFltb, SFcompare. destruct (Z.compare_spec e e'); [lia|lia|done]. Qed.

Lemma not_ltb_exponent m e m' e' :
  SFltb (S754_finite false m e) (S754_finite false m' e') = false -> e' <= e.
Proof. unfold SFltb, SFcompare. destruct (Z.compare_spec e e'); [lia|done|lia]. Qed.

(** Below 10^60 the integral form fits in 62 characters. *)
Lemma format_0f_length d :
  valid_double d = true ->
  SFltb (SFabs d) (S754_finite false 5605193857299268 147) = true ->
  (length (format_0f d) <= 62)%nat.
Proof.
  intros Hv Hlt. destruct d as [s|s| |s m e]; [destruct s; simpl; lia|done|done|].
  destruct (valid_mantissa _ _ _ Hv) as [Hm He].
  assert (e <= 147) as He' by by eapply ltb_exponent.
  unfold format_0f. rewrite length_app. pose proof (sign_length s).
  pose proof (quotient_bound m e 1 147 Hm He' ltac:(lia) ltac:(lia)) as Hq.
  rewrite Z.mul_1_l in Hq.
  pose proof (div_even_bound (numerator m e) (denominator e)) as Hb.
  assert (0 <= numerator m e) by (unfold numerator; lia).
  assert (0 < denominator e) by (unfold denominator; lia).
  assert (length (dec (div_even (numerator m e) (denominator e))) <= 61)%nat; [|lia].
  apply dec_length; [|lia]. split; [lia|].
  apply Z.le_lt_trans with (2 ^ 200); [|done]. change (53 + 147) with 200 in Hq. lia.
Qed.

(** Up to 10^9 the form with six decimals fits in 19. *)
Lemma format_f_length d :
  valid_double d = true -> SFltb (of_int 1000000000) (SFabs d) = false ->
  (length (format_f d) <= 19)%nat.
Proof.
  intros Hv Hlt. unfold format_f.
  assert (forall s n, 0 <= n < 10 ^ 17 ->
    (length (sign_text s ++ dec (n / 10 ^ 6) ++ [46] ++ padded 6 (n mod 10 ^ 6))%Z <= 19)%nat) as Ht.
  { intros s n Hn. rewrite !length_app, padded_length; [|apply Z.mod_pos_bound; lia|lia].
    pose proof (sign_length s). cbn [length].
    assert (length (dec (n / 10 ^ 6)) <= 11)%nat; [|lia]. apply dec_length; [|lia].
    split; [apply Z.div_pos; lia|]. apply Z.div_lt_upper_bound; lia. }
  destruct d as [s|s| |s m e].
  - apply Ht; lia.
  - pose proof (special_length (S754_infinity s)). lia.
  - simpl. lia.
  - destruct (valid_mantissa _ _ _ Hv) as [Hm He].
    assert (e <= -23) as He'.
    { change (of_int 1000000000) with (S754_finite false 8388608000000000 (-23)) in Hlt.
      by eapply not_ltb_exponent. }
    apply Ht. unfold numerator, denominator.
    rewrite (Z.max_r e 0), (Z.max_l (- e) 0), Z.mul_1_r by lia.
    pose proof (div_even_bound (Zpos m * 10 ^ 6) (2 ^ (- e)) ltac:(lia) ltac:(lia)) as Hb.
    split; [lia|]. assert (Zpos m * 10 ^ 6 / 2 ^ (- e) < 10 ^ 16); [|lia].
    apply Z.div_lt_upper_bound; [lia|].
    assert (2 ^ 23 <= 2 ^ (- e)) by (apply Z.pow_le_mono_r; lia). nia.
Qed.

Lemma exponent10_bound a b :
  0 < a < 10 ^ 330 -> 0 < b < 10 ^ 330 -> -330 <= exponent10 a b <= 330.
Proof.
  intros Ha Hb. unfold exponent10.
  assert (forall x y, 0 <= x < 10 ^ 330 -> 0 < y -> (length (dec (x / y)) <= 330)%nat) as Hl.
  { intros x y Hx Hy. apply dec_length; [|lia]. change (Z.of_nat 330) with 330.
    split; [apply Z.div_pos; lia|]. apply Z.div_lt_upper_bound; [done|]. nia. }
  destruct (Z.leb_spec b a).
  - pose proof (Hl a b ltac:(lia) ltac:(lia)). lia.
  - pose proof (Hl (b - 1) a ltac:(lia) ltac:(lia)). lia.
Qed.

Lemma format_e_length d : valid_double d = true -> (length (format_e d) <= 14)%nat.
Proof.
  intros Hv. unfold format_e.
  assert (forall s n k, 0 <= n < 10 ^ 7 -> -400 < k < 400 ->
    (length (sign_text s ++ dec (n / 10 ^ 6) ++ [46] ++ padded 6 (n mod 10 ^ 6) ++ [101] ++
       [if k <? 0 then 45 else 43] ++ padded 2 (Z.abs k))%Z <= 14)%nat) as Ht.
  { intros s n k Hn Hk. rewrite !length_app, padded_length; [|apply Z.mod_pos_bound; lia|lia].
    pose proof (sign_length s). cbn [length].
    assert (length (dec (n / 10 ^ 6)) <= 1)%nat.
    { apply dec_length; [|lia].
      split; [apply Z.div_pos; lia|]. apply Z.div_lt_upper_bound; lia. }
    unfold padded. rewrite length_app, length_replicate.
    pose proof (dec_length 3 (Z.abs k) ltac:(lia) ltac:(lia)). lia. }
  destruct d as [s|s| |s m e].
  - apply Ht; lia.
  - pose proof (special_length (S754_infinity s)). lia.
  - simpl. lia.
  - destruct (valid_mantissa _ _ _ Hv) as [Hm He].
    assert (0 < numerator m e < 10 ^ 330) as Ha.
    { unfold numerator. split; [lia|].
      assert (2 ^ Z.max e 0 <= 2 ^ 971) by (apply Z.pow_le_mono_r; lia).
      apply Z.lt_trans with (2 ^ 53 * 2 ^ 971); [|done]. nia. }
    assert (0 < denominator e < 10 ^ 330) as Hb.
    { unfold denominator. split; [lia|]. apply Z.le_lt_trans with (2 ^ 1074); [|done].
      apply Z.pow_le_mono_r; lia. }
    pose proof (exponent10_bound _ _ Ha Hb).
    cbv zeta. set (k := exponent10 _ _) in *.
    set (n := div_even _ _).
    assert (0 <= n).
    { apply div_even_bound; [|]; repeat (apply Z.mul_nonneg_nonneg || apply Z.mul_pos_pos); lia. }
    destruct (Z.ltb_spec n (10 ^ 7)); apply Ht; lia.
Qed.
