(* ===== verification/IpAddress.v ===== *)
(** The conversions between dotted IPv4 addresses and numbers of
    src/demo_ipaddr/demo_ip_int.c.

    A text is the list of its bytes and ends with a NUL. [ip2int] overwrites the dots of its
    argument. [192 << 24] does not fit an [int]; the shift is taken to keep the low 32 bits, as
    the compilers in use do, but its amount must be between 0 and 31. *)

From S2P Require Import Prelude Double CString.

(** ** The standard library: [atoi] *)

Fixpoint atoi_digits (s : list Z) (n : Z) : option Z :=
  match s with
  | [] => None
  | c :: s => if is_digit c then atoi_digits s (10 * n + (c - 48)) else Some n
  end.

(** A value that is not an [int] is undefined behaviour. *)
Fixpoint atoi (s : list Z) : option Z :=
  match s with
  | [] => None
  | c :: s' =>
      if is_space c then atoi s' else
      n ← (if c =? 45 then Z.opp <$> atoi_digits s' 0
           else if c =? 43 then atoi_digits s' 0 else atoi_digits s 0);
      require ((INT_MIN <=? n) && (n <=? INT_MAX)) ≫= fun _ => Some n
  end.

(** ** The program *)

Definition shl (x n : Z) : option Z :=
  if (0 <=? n) && (n <? 32) then Some (i32 (Z.shiftl x n)) else None.

(** [p] and [offset] are positions in [buf]. *)
(* src/demo_ipaddr/demo_ip_int.c:19-28 ip2int *)
Fixpoint ip2int_loop (fuel : nat) (buf : list Z) (p offset : nat) (index ip_32 : Z)
    : option (Z * list Z) :=
  match fuel with
  | O => None
  | S fuel =>
      c ← buf !! p;
      if c =? 0 then
        n ← atoi (drop offset buf);
        Some (Z.lor ip_32 (u32 n), buf)
      else if c =? 46 then
        let buf := <[p := 0]> buf in
        n ← atoi (drop offset buf);
        s ← shl n (index * 8);
        ip2int_loop fuel buf (S p) (S p) (index - 1) (Z.lor ip_32 (u32 s))
      else ip2int_loop fuel buf (S p) offset index ip_32
  end.

(** The number, and what the text has become. *)
(* src/demo_ipaddr/demo_ip_int.c:14-31 ip2int *)
Definition ip2int (ip : list Z) : option (Z * list Z) :=
  ip2int_loop (S (length ip)) ip 0 0 3 0.

Definition dotted (a b c d : Z) : list Z :=
  dec a ++ 46 :: dec b ++ 46 :: dec c ++ 46 :: dec d.

(* src/demo_ipaddr/demo_ip_int.c:34-37 int2ip *)
Definition int2ip (ip_32 len : Z) : list Z * Z :=
  snprintf (dotted (Z.land (Z.shiftr ip_32 24) 255)
                   (Z.land (Z.shiftr (u32 (Z.shiftl ip_32 8)) 24) 255)
                   (Z.land (Z.shiftr (u32 (Z.shiftl ip_32 16)) 24) 255)
                   (Z.land ip_32 255)) len.

Example ip_of_main : ip2int (dotted 192 168 100 1 ++ [0])
  = Some (3232261121, dec 192 ++ 0 :: dec 168 ++ 0 :: dec 100 ++ 0 :: dec 1 ++ [0]).
Proof. vm_compute. reflexivity. Qed.
Example main_of_ip : int2ip 3232261121 16 = (dotted 192 168 100 1 ++ [0], 13).
Proof. vm_compute. reflexivity. Qed.
Example five_parts : ip2int (dotted 1 2 3 4 ++ 46 :: dec 5 ++ 46 :: [0]) = None.
Proof. vm_compute. reflexivity. Qed.

(** ** Parts *)

Definition byte (a : Z) : Prop := 0 <= a < 256.

Lemma all_bytes (P : Z -> Prop) : Forall P (seqZ 0 256) -> forall a, byte a -> P a.
Proof. intros Hall a Ha. rewrite Forall_forall in Hall. apply Hall, elem_of_seqZ. unfold byte in Ha. lia. Qed.

Lemma atoi_byte a rest : byte a -> atoi (dec a ++ 0 :: rest) = Some a.
Proof.
  revert a. apply all_bytes. change (seqZ 0 256) with ltac:(let l := eval vm_compute in (seqZ 0 256) in exact l).
  repeat (apply Forall_cons_2; [reflexivity|]). constructor.
Qed.

(** Neither a dot nor the end. *)
Definition plain (c : Z) : Prop := c <> 0 /\ c <> 46.

Lemma dec_plain a : byte a -> Forall plain (dec a).
Proof.
  intros [Ha _]. eapply Forall_impl; [by apply dec_digits|]. unfold digit_code, plain. simpl. lia.
Qed.

Lemma walk seg fuel rest offset index ip_32 : forall pre,
  Forall plain seg ->
  ip2int_loop (length seg + fuel) (pre ++ seg ++ rest) (length pre) offset index ip_32 =
  ip2int_loop fuel (pre ++ seg ++ rest) (length (pre ++ seg)) offset index ip_32.
Proof.
  induction seg as [|c seg IH]; intros pre Hs; [by rewrite app_nil_r|].
  apply Forall_cons in Hs as [[H0 H46] Hs]. cbn [length Nat.add ip2int_loop app].
  rewrite (list_lookup_middle pre _ c) by done. bind_simpl.
  rewrite (proj2 (Z.eqb_neq _ _) H0), (proj2 (Z.eqb_neq _ _) H46).
  specialize (IH (pre ++ [c]) Hs). rewrite length_app, Nat.add_1_r in IH.
  rewrite <- !(assoc_L app) in IH. exact IH.
Qed.

Lemma byte_shift a k : byte a -> k = 0 \/ k = 8 \/ k = 16 \/ k = 24 ->
  u32 (i32 (Z.shiftl a k)) = Z.shiftl a k.
Proof.
  unfold byte. intros Ha Hk. rewrite Z.shiftl_mul_pow2 by lia.
  unfold sint, wrap. rewrite Zminus_mod_idemp_l, Z.add_simpl_r.
  apply Z.mod_small. destruct Hk as [->|[->|[->| ->]]]; lia.
Qed.

(** A part and its dot. *)
Lemma dot_part a fuel pre rest index ip_32 :
  byte a -> 0 < index <= 3 ->
  ip2int_loop (length (dec a) + S fuel) (pre ++ dec a ++ 46 :: rest) (length pre) (length pre) index ip_32
  = ip2int_loop fuel ((pre ++ dec a ++ [0]) ++ rest) (length (pre ++ dec a ++ [0]))
      (length (pre ++ dec a ++ [0])) (index - 1) (Z.lor ip_32 (Z.shiftl a (index * 8))).
Proof.
  intros Ha Hi. rewrite walk by by apply dec_plain. cbn [ip2int_loop].
  rewrite (assoc_L app), (list_lookup_middle _ _ 46) by done. bind_simpl. cbn [Z.eqb].
  rewrite insert_app_r_alt, Nat.sub_diag by done. cbn [insert list_insert].
  rewrite <- (assoc_L app), drop_app_length, atoi_byte by done. bind_simpl.
  unfold shl. destruct (Z.leb_spec 0 (index * 8)); [|lia].
  destruct (Z.ltb_spec (index * 8) 32); [|lia]. cbn [andb]. bind_simpl. rewrite byte_shift by (done || lia).
  f_equal; rewrite ?length_app; simpl; [by rewrite <- !(assoc_L app)|lia..].
Qed.

Lemma last_part a fuel pre index ip_32 :
  byte a ->
  ip2int_loop (length (dec a) + S fuel) (pre ++ dec a ++ [0]) (length pre) (length pre) index ip_32
  = Some (Z.lor ip_32 a, pre ++ dec a ++ [0]).
Proof.
  intros Ha. rewrite walk by by apply dec_plain. cbn [ip2int_loop].
  rewrite (assoc_L app), (list_lookup_middle _ _ 0) by done. bind_simpl. cbn [Z.eqb].
  rewrite <- (assoc_L app), drop_app_length, atoi_byte by done. bind_simpl.
  unfold wrap. unfold byte in Ha. by rewrite Z.mod_small by lia.
Qed.

(** ** The conversions *)

Lemma or_byte x y k : 0 <= k -> byte y ->
  Z.lor (Z.shiftl x (8 + k)) (Z.shiftl y k) = Z.shiftl (x * 256 + y) k.
Proof.
  intros Hk Hy. rewrite <- Z.shiftl_shiftl, <- Z.shiftl_lor by lia.
  rewrite Z.lor_comm, lor_shiftl_add by (unfold byte in Hy; lia). f_equal. lia.
Qed.

Definition address (a b c d : Z) : Z := ((a * 256 + b) * 256 + c) * 256 + d.

Lemma ip2int_dotted a b c d :
  byte a -> byte b -> byte c -> byte d ->
  ip2int (dotted a b c d ++ [0]) =
    Some (address a b c d, dec a ++ 0 :: dec b ++ 0 :: dec c ++ 0 :: dec d ++ [0]).
Proof.
  intros Ha Hb Hc Hd. unfold ip2int, dotted.
  rewrite <- !(assoc_L app). cbn [app]. rewrite <- !(assoc_L app). cbn [app]. rewrite <- !(assoc_L app).
  cbn [app].
  replace (S (length _)) with
    (length (dec a) + S (length (dec b) + S (length (dec c) + S (length (dec d) + S 1))))%nat
    by (repeat (rewrite length_app || cbn [length]); lia).
  etrans; [exact (dot_part a _ [] _ 3 0 Ha ltac:(lia))|].
  rewrite (dot_part b _ _ _ (3 - 1)), (dot_part c _ _ _ (3 - 1 - 1)), last_part by (done || lia).
  f_equal. f_equal.
  - change (3 * 8) with (8 + 16). change ((3 - 1) * 8) with (8 + 8) at 1.
    rewrite Z.lor_0_l, or_byte by (done || lia). change ((3 - 1 - 1) * 8) with (8 + 0).
    change (8 + 8) with (8 + (8 + 0)). rewrite or_byte by (done || lia).
    rewrite <- (Z.shiftl_0_r d), or_byte by (done || lia). by rewrite !Z.shiftl_0_r.
  - by rewrite <- !(assoc_L app).
Qed.

Lemma address_inj a b c d a' b' c' d' :
  byte a -> byte b -> byte c -> byte d -> byte a' -> byte b' -> byte c' -> byte d' ->
  address a b c d = address a' b' c' d' -> a = a' /\ b = b' /\ c = c' /\ d = d'.
Proof. unfold byte, address. lia. Qed.

Lemma parts n :
  0 <= n < 2 ^ 32 ->
  let a := Z.land (Z.shiftr n 24) 255 in
  let b := Z.land (Z.shiftr (u32 (Z.shiftl n 8)) 24) 255 in
  let c := Z.land (Z.shiftr (u32 (Z.shiftl n 16)) 24) 255 in
  let d := Z.land n 255 in
  byte a /\ byte b /\ byte c /\ byte d /\ address a b c d = n.
Proof.
  intros Hn. cbv zeta. change 255 with (Z.ones 8). rewrite !Z.land_ones by lia.
  rewrite !Z.shiftr_div_pow2, !Z.shiftl_mul_pow2 by lia. unfold wrap, byte, address.
  Z.to_euclidean_division_equations. lia.
Qed.

Lemma dotted_length a b c d :
  byte a -> byte b -> byte c -> byte d -> (length (dotted a b c d) < 16)%nat.
Proof.
  intros Ha Hb Hc Hd. assert (forall x, byte x -> (length (dec x) <= 3)%nat) as Hl.
  { unfold byte. intros x Hx. apply dec_length; lia. }
  apply Hl in Ha, Hb, Hc, Hd. unfold dotted. repeat (rewrite length_app || cbn [length]). lia.
Qed.

(** C32. The conversions are inverse to each other. The text of a number always fits the 16
    bytes of an IPv4 buffer, and [ip2int] of it is the number; the number of a dotted text of
    four bytes has that text. *)
Theorem ip_roundtrip :
  (forall n len, 0 <= n < 2 ^ 32 -> 16 <= len -> exists text buf,
     int2ip n len = (text, Z.of_nat (length text) - 1) /\ Z.of_nat (length text) <= 16 /\
     ip2int text = Some (n, buf)) /\
  (forall a b c d, byte a -> byte b -> byte c -> byte d -> exists n buf,
     ip2int (dotted a b c d ++ [0]) = Some (n, buf) /\ 0 <= n < 2 ^ 32 /\
     fst (int2ip n 16) = dotted a b c d ++ [0]).
Proof.
  split.
  - intros n len Hn Hlen. pose proof (parts n Hn) as (Ha & Hb & Hc & Hd & E).
    pose proof (dotted_length _ _ _ _ Ha Hb Hc Hd) as Hl.
    unfold int2ip. rewrite snprintf_fits by lia. eexists (_ ++ [0]), _. rewrite length_app.
    change (length [0]) with 1%nat. split; [f_equal; lia|]. split; [lia|].
    rewrite ip2int_dotted by done. by rewrite E.
  - intros a b c d Ha Hb Hc Hd. eexists _, _. split; [by apply ip2int_dotted|].
    assert (0 <= address a b c d < 2 ^ 32) as Hn by (unfold byte, address in *; lia).
    split; [done|]. pose proof (parts _ Hn) as (Ha' & Hb' & Hc' & Hd' & E).
    unfold int2ip. rewrite snprintf_fits.
    2: { pose proof (dotted_length _ _ _ _ Ha' Hb' Hc' Hd'). lia. }
    cbn [fst]. f_equal. apply address_inj in E as (-> & -> & -> & ->); done.
Qed.

Lemma ip_roundtrip_witness :
  (exists text buf,
     int2ip 3232261121 16 = (text, Z.of_nat (length text) - 1) /\ Z.of_nat (length text) <= 16 /\
     ip2int text = Some (3232261121, buf)) /\
  (exists n buf,
     ip2int (dotted 192 168 100 1 ++ [0]) = Some (n, buf) /\ 0 <= n < 2 ^ 32 /\
     fst (int2ip n 16) = dotted 192 168 100 1 ++ [0]).
Proof.
  destruct ip_roundtrip as [H1 H2]. split; [by apply H1|]. apply H2; by vm_compute.
Defined.
