(* ===== verification/BitTricks.v ===== *)
(** The rounding helper of src/demo_trik/demo_trik.c on unsigned 32-bit words.

    [first_position_of_bit_one] is inline assembly: [bsr] puts the position of the highest set
    bit in its result, and the code behind it replaces the result by -1 when there is none. *)

From S2P Require Import Prelude.

(** [x & x - 1], as the precedence of the operators has it. *)
(* src/demo_trik/demo_trik.c:7-7 IS_POWER_OF_TWO *)
Definition IS_POWER_OF_TWO (x : Z) : bool := Z.land x (u32 (x - 1)) =? 0.

(* src/demo_trik/demo_trik.c:14-22 first_position_of_bit_one *)
Definition first_position_of_bit_one (x : Z) : Z :=
  let r := if x =? 0 then u32 (-1) else Z.log2 x in
  u32 (r + 1).

(** A shift by 32 positions or more is undefined. *)
(* src/demo_trik/demo_trik.c:28-31 roundup_power_of_two *)
Definition roundup_power_of_two (size : Z) : option Z :=
  if IS_POWER_OF_TWO size then Some size else
  let n := first_position_of_bit_one size in
  if n <? 32 then Some (u32 (Z.shiftl 1 n)) else None.

Lemma power_of_two_land k : 0 <= k -> Z.land (2 ^ k) (2 ^ k - 1) = 0.
Proof. intros Hk. rewrite Z.sub_1_r, <- Z.ones_equiv, Z.land_ones by done. apply Z.mod_same. lia. Qed.

(** With two set bits, [x & x - 1] keeps the highest. *)
Lemma land_pred x : 0 < x -> x <> 2 ^ Z.log2 x -> Z.land x (x - 1) <> 0.
Proof.
  intros Hx Hne E. pose proof (Z.log2_spec x Hx) as Hb.
  assert (Z.log2 (x - 1) = Z.log2 x) as Hl by (apply Z.log2_unique; [apply Z.log2_nonneg|lia]).
  apply (f_equal (fun y => Z.testbit y (Z.log2 x))) in E.
  rewrite Z.land_spec, Z.bit_log2, Z.testbit_0_l in E by done. rewrite <- Hl in E.
  assert (0 < x - 1) as Hp by (pose proof (Z.log2_nonneg x); lia).
  by rewrite Z.bit_log2 in E.
Qed.

Lemma IS_POWER_OF_TWO_spec x :
  0 < x < 2 ^ 32 -> IS_POWER_OF_TWO x = true <-> exists k, 0 <= k /\ x = 2 ^ k.
Proof.
  intros Hx. unfold IS_POWER_OF_TWO. rewrite wrap_small, Z.eqb_eq by lia. split.
  - intros E. exists (Z.log2 x). split; [apply Z.log2_nonneg|].
    destruct (Z.eq_dec x (2 ^ Z.log2 x)) as [|Hne]; [done|]. by apply land_pred in Hne; [|lia].
  - intros (k & Hk & ->). by apply power_of_two_land.
Qed.

(** Up to 2^31 the result is the least power of two that is not below [size]; above 2^31 there
    is none in 32 bits and the shift is undefined; 0 stays 0. *)
Theorem roundup_power_of_two_spec size :
  0 <= size < 2 ^ 32 ->
  match roundup_power_of_two size with
  | Some r =>
      (size = 0 /\ r = 0) \/
      exists k, r = 2 ^ k /\ 0 <= k < 32 /\ size <= r /\ forall j, 0 <= j -> size <= 2 ^ j -> r <= 2 ^ j
  | None => 2 ^ 31 < size
  end.
Proof.
  intros Hs. destruct (Z.eq_dec size 0) as [->|H0]; [by left|].
  unfold roundup_power_of_two. destruct (IS_POWER_OF_TWO size) eqn:E.
  - right. apply IS_POWER_OF_TWO_spec in E as (k & Hk & ->); [|lia]. exists k.
    split_and!; try done; try lia. apply (Z.pow_lt_mono_r_iff 2); lia.
  - assert (size <> 2 ^ Z.log2 size) as Hne.
    { intros Hp. assert (IS_POWER_OF_TWO size = true); [|congruence].
      apply IS_POWER_OF_TWO_spec; [lia|]. exists (Z.log2 size). split; [apply Z.log2_nonneg|done]. }
    pose proof (Z.log2_spec size ltac:(lia)) as Hb. pose proof (Z.log2_nonneg size) as Hl.
    assert (Z.log2 size < 32) as Hl32 by (apply Z.log2_lt_pow2; lia).
    unfold first_position_of_bit_one. destruct (Z.eqb_spec size 0); [done|].
    rewrite (wrap_small _ (Z.log2 size + 1)) by lia.
    destruct (Z.ltb_spec (Z.log2 size + 1) 32) as [Hlt|Hge].
    + right. exists (Z.log2 size + 1). rewrite Z.shiftl_mul_pow2, Z.mul_1_l by lia.
      assert (2 ^ (Z.log2 size + 1) < 2 ^ 32) by (apply Z.pow_lt_mono_r; lia).
      rewrite wrap_small by lia. split_and!; [done|lia|lia|lia|].
      intros j Hj Hsj. apply Z.pow_le_mono_r; [lia|].
      destruct (Z.le_gt_cases (Z.log2 size + 1) j) as [|Hj']; [done|].
      assert (2 ^ j <= 2 ^ Z.log2 size) by (apply Z.pow_le_mono_r; lia). lia.
    + assert (Z.log2 size = 31) as E31 by lia. rewrite E31 in *. lia.
Qed.
