(* ===== verification/QrCode.v ===== *)
(** The drawing of QR codes of src/demo_qrcode/demo_qrencode.c.

    libqrencode is a parameter: what its encoders return is a matrix of [width] times [width]
    bytes whose lowest bit is set for a dark module. A drawing is the list of the bytes written
    to the file. One line of text shows two rows of modules; what is lit in a glyph is light. *)

From S2P Require Import Prelude.

(** ** Data *)

(** What the code reads of a [QRcode]. *)
Record QRcode := Code { width : Z; data : list Z }.

Inductive stream := Stdout | File (name : list Z).

(* src/demo_qrcode/demo_qrencode.c:21-21 margin *)
Definition margin : Z := 2.
Definition micro : bool := false.
Definition eightbit : bool := false.
Definition version : Z := 0.
Definition casesensitive : Z := 1.

(** ** The drawing *)

Definition space : list Z := [32].
Definition lower_half : list Z := [226; 150; 132].
Definition upper_half : list Z := [226; 150; 128].
Definition full_block : list Z := [226; 150; 136].

(** [for (x = 0; x < n; x++) fputs(s, fp);] *)
Definition fputs_times (n : Z) (s : list Z) : list Z := concat (replicate (Z.to_nat n) s).

(* src/demo_qrcode/demo_qrencode.c:26-39 writeUTF8_margin *)
Definition writeUTF8_margin (realwidth : Z) (white reset full : list Z) : list Z :=
  fputs_times (margin / 2) (white ++ fputs_times realwidth full ++ reset ++ [10]).

(** [row[x] & 1] *)
Definition is_dark (qrcode : QRcode) (row x : Z) : option bool :=
  b ← znth (data qrcode) (row + x); Some (negb (Z.land b 1 =? 0)).

(** The glyph for the modules at [x] of the rows [y] and [y + 1]. *)
(* src/demo_qrcode/demo_qrencode.c:126-144 writeUTF8 *)
Definition write_module (qrcode : QRcode) (empty lowhalf uphalf full : list Z) (y row1 row2 x : Z)
    : option (list Z) :=
  d1 ← is_dark qrcode row1 x;
  d2 ← (if y <? width qrcode - 1 then is_dark qrcode row2 x else Some false);
  Some (if (d1 : bool) then if (d2 : bool) then empty else lowhalf
        else if (d2 : bool) then uphalf else full).

(** [for (y = 0; y < qrcode->width; y += 2)]; [y * qrcode->width] must be an [int]. *)
(* src/demo_qrcode/demo_qrencode.c:111-152 writeUTF8 *)
Fixpoint write_rows (fuel : nat) (qrcode : QRcode) (white reset empty lowhalf uphalf full : list Z)
    (y : Z) : option (list Z) :=
  match fuel with
  | O => None
  | S fuel =>
      if y <? width qrcode then
        let row1 := y * width qrcode in
        let row2 := row1 + width qrcode in
        _ ← require ((- 2 ^ 31 <=? row1) && (row1 <? 2 ^ 31));
        row ← mapM (write_module qrcode empty lowhalf uphalf full y row1 row2)
                (seqZ 0 (width qrcode));
        rest ← write_rows fuel qrcode white reset empty lowhalf uphalf full (y + 2);
        Some (white ++ fputs_times margin full ++ concat row ++ fputs_times margin full ++
              reset ++ [10] ++ rest)
      else Some []
  end.

(** What is written, and the result. *)
(* src/demo_qrcode/demo_qrencode.c:62-160 writeUTF8 *)
Definition writeUTF8 (qrcode : QRcode) (use_ansi : Z) (invert : bool) : option (list Z * Z) :=
  let '(empty, full) := if invert then (full_block, space) else (space, full_block) in
  let '(lowhalf, uphalf) := if invert then (upper_half, lower_half) else (lower_half, upper_half) in
  let white :=
    if use_ansi =? 0 then [] else
    if use_ansi =? 2 then [27; 91; 51; 56; 59; 53; 59; 50; 51; 49; 109; 27; 91; 52; 56; 59; 53; 59; 49; 54; 109]
    else [27; 91; 52; 48; 59; 51; 55; 59; 49; 109] in
  let reset := if use_ansi =? 0 then [] else [27; 91; 48; 109] in
  let realwidth := width qrcode + margin * 2 in
  let top := writeUTF8_margin realwidth white reset full in
  rows ← write_rows (S (Z.to_nat (width qrcode))) qrcode white reset empty lowhalf uphalf full 0;
  Some (top ++ rows ++ writeUTF8_margin realwidth white reset full, 0).

(** ** The library's encoders and the file *)

Section library.
Context (QR_ECLEVEL_L QR_MODE_8 : Z).
Context (QRcode_encodeDataMQR QRcode_encodeData : Z -> list Z -> Z -> Z -> option QRcode).
Context (QRcode_encodeStringMQR QRcode_encodeString : list Z -> Z -> Z -> Z -> Z -> option QRcode).

Definition level : Z := QR_ECLEVEL_L.
Definition hint : Z := QR_MODE_8.

(* src/demo_qrcode/demo_qrencode.c:162-187 encode *)
Definition encode (intext : list Z) (length : Z) : option QRcode :=
  if micro then
    if eightbit then QRcode_encodeDataMQR length intext version level
    else QRcode_encodeStringMQR intext version level hint casesensitive
  else if eightbit then QRcode_encodeData length intext version level
  else QRcode_encodeString intext version level hint casesensitive.

(** What is written to the file, and the result; the messages for the user are left out. *)
(* src/demo_qrcode/demo_qrencode.c:189-206 printQRcode *)
Definition printQRcode (intext : list Z) (length : Z) : option (list Z * Z) :=
  match encode intext length with
  | None => Some ([], -1)
  | Some qrcode => writeUTF8 qrcode 0 false
  end.
End library.

(** [fopen_ok] says whether the file can be created; when it cannot the program exits. *)
(* src/demo_qrcode/demo_qrencode.c:41-60 openFile *)
Definition openFile (fopen_ok : list Z -> bool) (outfile : option (list Z)) : option stream :=
  match outfile with
  | None => Some Stdout
  | Some name =>
      if bool_decide (name = [45]) then Some Stdout
      else if fopen_ok name then Some (File name) else None
  end.

(** * Reading a drawing

    A glyph lights its upper and its lower half or not; lines end in a newline, and a
    terminal swallows everything from an escape character to the next [m]. *)

Definition glyph (upper lower : bool) : list Z :=
  if upper then if lower then full_block else upper_half
  else if lower then lower_half else space.

Definition push {A} (x : A) (rows : list (list A)) : option (list (list A)) :=
  match rows with [] => None | row :: rows => Some ((x :: row) :: rows) end.

Fixpoint read (escape : bool) (t : list Z) : option (list (list (bool * bool))) :=
  match escape, t with
  | true, c :: t => read (negb (c =? 109)) t
  | false, 27 :: t => read true t
  | false, 10 :: t => cons [] <$> read false t
  | false, 32 :: t => read false t ≫= push (false, false)
  | false, 226 :: 150 :: c :: t =>
      g ← (if c =? 136 then Some (true, true)
           else if c =? 128 then Some (true, false)
           else if c =? 132 then Some (false, true) else None);
      read false t ≫= push g
  | false, [] => Some []
  | _, _ => None
  end.

(** The modules of a code with a quiet zone around them; [true] is dark. *)
Definition module_at (qrcode : QRcode) (x y : Z) : bool :=
  bool_decide (0 <= x < width qrcode /\ 0 <= y < width qrcode) &&
  default false (is_dark qrcode (y * width qrcode) x).

(** What a line of text shows: for each column, whether the two modules are light. [invert]
    exchanges light and dark. *)
Definition picture_line (qrcode : QRcode) (invert : bool) (y : Z) : list (bool * bool) :=
  (fun x => (xorb invert (negb (module_at qrcode x y)), xorb invert (negb (module_at qrcode x (y + 1)))))
  <$> seqZ (- margin) (width qrcode + margin * 2).

Definition picture (qrcode : QRcode) (invert : bool) : list (list (bool * bool)) :=
  (fun k => picture_line qrcode invert (2 * k)) <$>
    seqZ (- (margin / 2)) ((width qrcode + 1) / 2 + margin).

Example small_code :
  writeUTF8 (Code 1 [1]) 0 false =
    Some (concat (replicate 5 full_block) ++ [10] ++
          full_block ++ full_block ++ lower_half ++ full_block ++ full_block ++ [10] ++
          concat (replicate 5 full_block) ++ [10], 0).
Proof. reflexivity. Qed.

Example small_picture :
  ('(t, _) ← writeUTF8 (Code 3 [1; 0; 1; 0; 1; 0; 1; 1; 0]) 2 true; read false t) =
  Some (picture (Code 3 [1; 0; 1; 0; 1; 0; 1; 1; 0]) true).
Proof. vm_compute. reflexivity. Qed.

(** * Facts *)

Lemma mapM_total {A B} (f : A -> option B) (g : A -> B) l :
  (forall x, x ∈ l -> f x = Some (g x)) -> mapM f l = Some (g <$> l).
Proof.
  induction l as [|x l IH]; intros Hf; [done|]. cbn [mapM]. rewrite (Hf x) by left. bind_simpl.
  rewrite IH; [done|]. intros y Hy. apply Hf. by right.
Qed.

(** ** Reading what was written *)

Lemma read_glyph u l t : read false (glyph u l ++ t) = read false t ≫= push (u, l).
Proof. by destruct u, l. Qed.

(** A text the terminal shows nothing of. *)
Definition silent (s : list Z) : Prop := forall t, read false (s ++ t) = read false t.

Definition line (white reset : list Z) (row : list (bool * bool)) : list Z :=
  white ++ concat ((fun g => glyph g.1 g.2) <$> row) ++ reset ++ [10].

Lemma read_row row t rows :
  read false t = Some ([] :: rows) ->
  read false (concat ((fun g => glyph g.1 g.2) <$> row) ++ t) = Some (row :: rows).
Proof.
  intros Ht. induction row as [|[u l] row IH]; [done|]. cbn [fmap list_fmap concat fst snd].
  by rewrite <- app_assoc, read_glyph, IH.
Qed.

Lemma read_lines white reset rows :
  silent white -> silent reset -> read false (concat (line white reset <$> rows)) = Some rows.
Proof.
  intros Hw Hr. induction rows as [|row rows IH]; [done|]. cbn [fmap list_fmap concat].
  unfold line at 1. rewrite <- !app_assoc, Hw. apply read_row. by rewrite Hr; cbn; rewrite IH.
Qed.

(** ** What is written *)

Section written.
Context (qrcode : QRcode) (invert : bool) (white reset : list Z).
Context (Hw : 0 <= width qrcode) (Hw2 : width qrcode * width qrcode < 2 ^ 31)
  (Hdata : Z.of_nat (length (data qrcode)) = width qrcode * width qrcode).

Abbreviation light d := (xorb invert (negb d)).

Lemma is_dark_module x y :
  0 <= x < width qrcode -> 0 <= y < width qrcode ->
  is_dark qrcode (y * width qrcode) x = Some (module_at qrcode x y).
Proof.
  intros Hx Hy. unfold module_at. rewrite bool_decide_true by done. unfold is_dark.
  destruct (znth_lt (data qrcode) (y * width qrcode + x)) as [b ->]; [nia|]. done.
Qed.

Lemma module_outside x y :
  ~ (0 <= x < width qrcode /\ 0 <= y < width qrcode) -> module_at qrcode x y = false.
Proof. intros H. unfold module_at. by rewrite bool_decide_false. Qed.

Lemma write_module_spec x y :
  0 <= x < width qrcode -> 0 <= y < width qrcode ->
  write_module qrcode (glyph invert invert) (glyph invert (negb invert)) (glyph (negb invert) invert)
    (glyph (negb invert) (negb invert)) y (y * width qrcode) (y * width qrcode + width qrcode) x =
  Some (glyph (light (module_at qrcode x y)) (light (module_at qrcode x (y + 1)))).
Proof.
  intros Hx Hy. unfold write_module. rewrite is_dark_module by done. bind_simpl.
  assert ((if y <? width qrcode - 1 then is_dark qrcode (y * width qrcode + width qrcode) x else Some false)
    = Some (module_at qrcode x (y + 1))) as ->.
  { destruct (Z.ltb_spec y (width qrcode - 1)).
    - replace (y * width qrcode + width qrcode) with ((y + 1) * width qrcode) by lia.
      apply is_dark_module; lia.
    - by rewrite module_outside by lia. }
  bind_simpl. by destruct (module_at qrcode x y), (module_at qrcode x (y + 1)), invert.
Qed.

Lemma write_row_spec y :
  0 <= y < width qrcode ->
  mapM (write_module qrcode (glyph invert invert) (glyph invert (negb invert)) (glyph (negb invert) invert)
    (glyph (negb invert) (negb invert)) y (y * width qrcode) (y * width qrcode + width qrcode))
    (seqZ 0 (width qrcode)) =
  Some ((fun x => glyph (light (module_at qrcode x y)) (light (module_at qrcode x (y + 1))))
    <$> seqZ 0 (width qrcode)).
Proof.
  intros Hy. apply mapM_total. intros x Hx%elem_of_seqZ. apply write_module_spec; [lia|done].
Qed.

(** Columns outside of the code are light. *)
Lemma light_columns y m n :
  (forall x, m <= x < m + n -> module_at qrcode x y = false /\ module_at qrcode x (y + 1) = false) ->
  concat ((fun g => glyph g.1 g.2) <$> ((fun x => (light (module_at qrcode x y),
    light (module_at qrcode x (y + 1)))) <$> seqZ m n)) = fputs_times n (glyph (negb invert) (negb invert)).
Proof.
  intros Ho. unfold fputs_times. f_equal. rewrite <- list_fmap_compose.
  rewrite (const_fmap _ _ (glyph (negb invert) (negb invert))); [by rewrite length_seqZ|].
  intros i x Hx%list_elem_of_lookup_2%elem_of_seqZ. simpl. destruct (Ho x) as [-> ->]; [lia|].
  by destruct invert.
Qed.

Lemma margin_line y :
  y + 1 < 0 \/ width qrcode <= y ->
  writeUTF8_margin (width qrcode + margin * 2) white reset (glyph (negb invert) (negb invert)) =
  line white reset (picture_line qrcode invert y).
Proof.
  intros Hy. unfold writeUTF8_margin, line, picture_line. change (margin / 2) with 1.
  rewrite light_columns by (intros x Hx; split; apply module_outside; lia).
  apply app_nil_r.
Qed.

Lemma data_line y :
  0 <= y < width qrcode ->
  white ++ fputs_times margin (glyph (negb invert) (negb invert)) ++
    concat ((fun x => glyph (light (module_at qrcode x y)) (light (module_at qrcode x (y + 1))))
      <$> seqZ 0 (width qrcode)) ++
    fputs_times margin (glyph (negb invert) (negb invert)) ++ reset ++ [10] =
  line white reset (picture_line qrcode invert y).
Proof.
  intros Hy. unfold line, picture_line.
  replace (width qrcode + margin * 2) with (margin + (width qrcode + margin)) by lia.
  rewrite !seqZ_app by (unfold margin; lia). rewrite !fmap_app, !concat_app, <- !app_assoc.
  rewrite (light_columns y (- margin) margin) by
    (intros x Hx; split; apply module_outside; unfold margin in *; lia).
  replace (- margin + margin + width qrcode) with (width qrcode) by lia.
  rewrite (light_columns y (width qrcode) margin) by
    (intros x Hx; split; apply module_outside; unfold margin in *; lia).
  do 2 f_equal. by rewrite <- !list_fmap_compose.
Qed.

Lemma write_rows_spec fuel : forall k,
  0 <= k <= (width qrcode + 1) / 2 -> (width qrcode + 1) / 2 - k < Z.of_nat fuel ->
  write_rows fuel qrcode white reset (glyph invert invert) (glyph invert (negb invert))
    (glyph (negb invert) invert) (glyph (negb invert) (negb invert)) (2 * k) =
  Some (concat (line white reset <$> ((fun k => picture_line qrcode invert (2 * k)) <$>
    seqZ k ((width qrcode + 1) / 2 - k)))).
Proof.
  pose proof (Z.div_mod (width qrcode + 1) 2 ltac:(lia)) as Hdiv.
  pose proof (Z.mod_pos_bound (width qrcode + 1) 2 ltac:(lia)) as Hmod.
  induction fuel as [|fuel IH]; intros k Hk Hf; [lia|]. cbn [write_rows].
  destruct (Z.ltb_spec (2 * k) (width qrcode)) as [Hl|Hl].
  - assert ((- 2 ^ 31 <=? 2 * k * width qrcode) && (2 * k * width qrcode <? 2 ^ 31) = true) as ->.
    { apply andb_true_iff. rewrite Z.leb_le, Z.ltb_lt. nia. }
    cbn [require]. bind_simpl. rewrite write_row_spec by lia. bind_simpl.
    replace (2 * k + 2) with (2 * (k + 1)) by lia. rewrite IH by lia. bind_simpl.
    rewrite (seqZ_cons k) by lia. cbn [fmap list_fmap concat]. rewrite <- data_line by lia.
    rewrite <- !app_assoc. repeat f_equal; lia.
  - rewrite seqZ_nil by lia. done.
Qed.
Lemma picture_lines :
  concat (line white reset <$> picture qrcode invert) =
  writeUTF8_margin (width qrcode + margin * 2) white reset (glyph (negb invert) (negb invert)) ++
  concat (line white reset <$> ((fun k => picture_line qrcode invert (2 * k)) <$>
    seqZ 0 ((width qrcode + 1) / 2))) ++
  writeUTF8_margin (width qrcode + margin * 2) white reset (glyph (negb invert) (negb invert)).
Proof.
  pose proof (Z.div_mod (width qrcode + 1) 2 ltac:(lia)) as Hdiv.
  pose proof (Z.mod_pos_bound (width qrcode + 1) 2 ltac:(lia)) as Hmod.
  unfold picture. change (- (margin / 2)) with (-1).
  replace ((width qrcode + 1) / 2 + margin) with (1 + ((width qrcode + 1) / 2 + 1)) by (unfold margin; lia).
  rewrite (seqZ_app (-1) 1) by lia. rewrite seqZ_app by lia. rewrite !fmap_app, !concat_app.
  change (-1 + 1) with 0. rewrite Z.add_0_l, (seqZ_cons (-1)), (seqZ_cons ((width qrcode + 1) / 2)) by lia.
  rewrite !seqZ_nil by lia. cbn [fmap list_fmap concat]. rewrite !app_nil_r.
  f_equal; [|f_equal]; symmetry; apply margin_line; lia.
Qed.
End written.

(** * Properties *)

(** C38. Whoever looks at the drawing of a code sees the code: reading the lines [writeUTF8]
    writes, in every colour mode, gives its modules with a quiet zone of two modules on all
    sides, dark and light exchanged when [invert] is set. A code of odd width gets a light
    row below its last one. *)
Theorem drawing_shows_code qrcode use_ansi invert :
  0 <= width qrcode -> width qrcode * width qrcode < 2 ^ 31 ->
  Z.of_nat (length (data qrcode)) = width qrcode * width qrcode ->
  exists t, writeUTF8 qrcode use_ansi invert = Some (t, 0) /\
    read false t = Some (picture qrcode invert).
Proof.
  intros Hw Hw2 Hdata. unfold writeUTF8.
  set (white := if use_ansi =? 0 then [] else _). set (reset := if use_ansi =? 0 then [] else _).
  assert (silent white /\ silent reset) as [Hwhite Hreset].
  { unfold white, reset. split; intros t; destruct (use_ansi =? 0); try done.
    by destruct (use_ansi =? 2). }
  pose proof (Z.div_mod (width qrcode + 1) 2 ltac:(lia)) as Hdiv.
  pose proof (Z.mod_pos_bound (width qrcode + 1) 2 ltac:(lia)) as Hmod.
  pose proof (write_rows_spec qrcode invert white reset Hw Hw2 Hdata (S (Z.to_nat (width qrcode))) 0
    ltac:(lia) ltac:(lia)) as Hrows. rewrite Z.mul_0_r, Z.sub_0_r in Hrows.
  exists (concat (line white reset <$> picture qrcode invert)). split; [|by apply read_lines].
  rewrite picture_lines by done. destruct invert; cbn [negb] in *;
    change (glyph true true) with full_block in *; change (glyph false false) with space in *;
    change (glyph true false) with upper_half in *; change (glyph false true) with lower_half in *;
    by rewrite Hrows.
Qed.

Lemma drawing_shows_code_witness :
  exists t, writeUTF8 (Code 3 [1; 0; 1; 0; 1; 0; 1; 1; 0]) 1 false = Some (t, 0) /\
    read false t = Some (picture (Code 3 [1; 0; 1; 0; 1; 0; 1; 1; 0]) false).
Proof.
  apply (drawing_shows_code (Code 3 [1; 0; 1; 0; 1; 0; 1; 1; 0]) 1 false); simpl; lia.
Defined.
