(* ===== verification/BuildDate.v ===== *)
(** The date the logging macros of src/demo_log/demo_log.h print: the year, month and day that
    they compute from the text of [__DATE__]. *)

From S2P Require Import Prelude.

(* src/demo_log/demo_log.h:11-12 YEAR *)
Definition YEAR (date : list Z) : option Z :=
  a ← znth date 7; b ← znth date 8; c ← znth date 9; d ← znth date 10;
  Some ((((a - 48) * 10 + (b - 48)) * 10 + (c - 48)) * 10 + (d - 48)).

(* src/demo_log/demo_log.h:14-22 MONTH *)
Definition MONTH (date : list Z) : option Z :=
  c ← znth date 2;
  if c =? 110 then b ← znth date 1; Some (if b =? 97 then 1 else 6)
  else if c =? 98 then Some 2
  else if c =? 114 then a ← znth date 0; Some (if a =? 77 then 3 else 4)
  else if c =? 121 then Some 5
  else if c =? 108 then Some 7
  else if c =? 103 then Some 8
  else if c =? 112 then Some 9
  else if c =? 116 then Some 10
  else if c =? 118 then Some 11
  else Some 12.

(* src/demo_log/demo_log.h:24-25 DAY *)
Definition DAY (date : list Z) : option Z :=
  a ← znth date 4; b ← znth date 5;
  Some ((if a =? 32 then 0 else a - 48) * 10 + (b - 48)).

(** ** What the C standard says of [__DATE__]: [Mmm dd yyyy], the day padded with a space *)

Definition month_names : list (list Z) := [
  [74; 97; 110]; [70; 101; 98]; [77; 97; 114]; [65; 112; 114]; [77; 97; 121]; [74; 117; 110];
  [74; 117; 108]; [65; 117; 103]; [83; 101; 112]; [79; 99; 116]; [78; 111; 118]; [68; 101; 99]].

Definition digit (n : Z) : Z := 48 + n mod 10.

Definition __DATE__ (y m d : Z) : list Z :=
  default [] (znth month_names (m - 1)) ++
  [32; if d <? 10 then 32 else digit (d / 10); digit d; 32;
   digit (y / 1000); digit (y / 100); digit (y / 10); digit y].

Lemma month_name m :
  1 <= m <= 12 -> exists a b c, default [] (znth month_names (m - 1)) = [a; b; c] /\
    forall rest, MONTH ([a; b; c] ++ rest) = Some m.
Proof.
  intros Hm. assert (exists k, (k < 12)%nat /\ m = Z.of_nat k + 1) as (k & Hk & ->)
    by (exists (Z.to_nat (m - 1)); lia).
  do 12 (destruct k as [|k]; [do 3 eexists; split; reflexivity|]). lia.
Qed.

(** * Properties *)

(** The macros read the date of the build back, whatever the date. *)
Theorem build_date y m d :
  0 <= y <= 9999 -> 1 <= m <= 12 -> 1 <= d <= 31 ->
  YEAR (__DATE__ y m d) = Some y /\ MONTH (__DATE__ y m d) = Some m /\ DAY (__DATE__ y m d) = Some d.
Proof.
  intros Hy Hm Hd.
  assert ((((digit (y / 1000) - 48) * 10 + (digit (y / 100) - 48)) * 10 + (digit (y / 10) - 48)) * 10 +
    (digit y - 48) = y) as Ey by (unfold digit; Z.to_euclidean_division_equations; lia).
  set (tens := if d <? 10 then 32 else digit (d / 10)).
  assert ((if tens =? 32 then 0 else tens - 48) * 10 + (digit d - 48) = d) as Ed.
  { unfold tens, digit. destruct (Z.ltb_spec d 10); [rewrite Z.eqb_refl|].
    - rewrite Z.mod_small; lia.
    - pose proof (Z.mod_pos_bound (d / 10) 10 ltac:(lia)).
      destruct (Z.eqb_spec (48 + (d / 10) mod 10) 32); [lia|].
      Z.to_euclidean_division_equations. lia. }
  unfold __DATE__. fold tens. destruct (month_name m Hm) as (a & b & c & -> & Hname).
  split; [|split; [apply Hname|]].
  - exact (f_equal Some Ey).
  - exact (f_equal Some Ed).
Qed.

Lemma build_date_witness :
  YEAR (__DATE__ 2019 11 6) = Some 2019 /\ MONTH (__DATE__ 2019 11 6) = Some 11 /\
  DAY (__DATE__ 2019 11 6) = Some 6.
Proof. apply (build_date 2019 11 6); lia. Defined.
