(* ===== verification/FileUtils.v ===== *)
(** Reading and writing whole files: src/demo_file/file_utils.h.

    The C library is a parameter: [getline]'s results are the list of the lines of the file,
    [stat] gives a size or leaves it indeterminate, [realloc_ok] says which sizes can be
    allocated and [junk] what new memory contains. [None] is undefined behaviour. *)

From S2P Require Import Prelude CString.

(** ** The library *)

(** [realloc]: the bytes that fit stay, the others are whatever the memory contains. *)
Definition realloc (realloc_ok : nat -> bool) (junk : nat -> Z) (content : list Z) (n : nat)
    : option (list Z) :=
  if realloc_ok n then Some ((fun i => default (junk i) (content !! i)) <$> seq 0 n) else None.

(** ** The functions *)

Section files.
Context (realloc_ok : nat -> bool) (junk : nat -> Z).

(** A null pointer cannot be appended to. *)
(* src/demo_file/file_utils.h:39-43 file_read_str *)
Fixpoint read_lines (content : option (list Z)) (total : nat) (lines : list (list Z))
    : option (option (list Z) * Z) :=
  match lines with
  | [] => Some (content, Z.of_nat total)
  | line :: lines =>
      content ← realloc realloc_ok junk (default [] content) (total + length line);
      content ← strcat content line;
      read_lines (Some content) (total + length line) lines
  end.

(** The content and [*length]. When the file cannot be opened the function goes on with the
    null pointer. *)
(* src/demo_file/file_utils.h:29-47 file_read_str *)
Definition file_read_str (fopen : option (list (list Z))) : option (option (list Z) * Z) :=
  match fopen with
  | None => None
  | Some lines => read_lines None 0 lines
  end.

(** [fwrite] says how many of the bytes were written. *)
(* src/demo_file/file_utils.h:49-63 file_write_str *)
Definition file_write_str (fopen_ok : bool) (fwrite : list Z -> Z) (content : list Z) : Z :=
  if negb fopen_ok then -1 else
  let w_len := sint 64 (fwrite content) in
  if w_len =? -1 then -1 else 0.

(** The size, or the indeterminate value of an uninitialised variable. *)
(* src/demo_file/file_utils.h:15-20 file_get_size_by_fd *)
Definition file_get_size_by_fd (fstat : Z -> option Z) (indeterminate fd : Z) : Z :=
  default indeterminate (fstat fd).

(* src/demo_file/file_utils.h:22-27 file_get_size_by_name *)
Definition file_get_size_by_name (stat : list Z -> option Z) (indeterminate : Z) (filename : list Z) : Z :=
  default indeterminate (stat filename).

(** * Properties *)

(** The buffer has no room for the NUL: no file whose first line is a text can be read,
    whatever the new memory contains. The only file that is read is the empty one. *)
Theorem file_read_str_overflows line lines :
  0 ∉ line -> file_read_str (Some (line :: lines)) = None.
Proof.
  intros Hline. unfold file_read_str. cbn [read_lines]. unfold realloc.
  destruct (realloc_ok _); [|done]. bind_simpl. unfold strcat. rewrite store_overflow; [done|].
  rewrite length_app, (c_string_whole line), length_fmap, length_seq by done. simpl. lia.
Qed.

Theorem file_read_str_empty : file_read_str (Some []) = Some (None, 0).
Proof. reflexivity. Qed.

(** A write that stops early, for instance on a full disk, is reported as a success. *)
Theorem file_write_str_short fwrite content :
  0 <= fwrite content <= Z.of_nat (length content) -> Z.of_nat (length content) < 2 ^ 63 ->
  file_write_str true fwrite content = 0.
Proof.
  intros Hn Hl. unfold file_write_str. cbn [negb]. rewrite sint_small by lia.
  destruct (Z.eqb_spec (fwrite content) (-1)); [lia|done].
Qed.
End files.

(** * Witnesses *)

Lemma file_read_str_overflows_witness :
  file_read_str (fun _ => true) (fun _ => 0) (Some [[104; 105; 10]; [10]]) = None.
Proof.
  apply (file_read_str_overflows (fun _ => true) (fun _ => 0) [104; 105; 10] [[10]]).
  rewrite !elem_of_cons, elem_of_nil. lia.
Defined.

Lemma file_write_str_short_witness : file_write_str true (fun _ => 0) [104; 105] = 0.
Proof. apply (file_write_str_short (fun _ => 0) [104; 105]); simpl; lia. Defined.
