(* ===== verification/Sockets.v ===== *)
(** The blocking server and the line client of src/demo_socket/demo_socket.c.

    The operating system is the environment: the results of [accept] and [recv], the input and
    which [send] succeed are arguments. A buffer is the list of its bytes and a pointer into it
    is a position; [None] is undefined behaviour, here a byte stored outside a buffer, or a
    [free] of a pointer [malloc] did not return. *)

From S2P Require Import Prelude Double CString.

(** ** The server *)

(** A connection: the client's address as text, unless it cannot be converted, its port, and what
    the calls of [recv] store until one fails. A [recv] of no bytes is the peer's end of file. *)
Record connection := Connection {
  hostname : option (list Z);
  client_port : Z;
  received : list (list Z);
}.

(** The block [malloc] returned, where [recv_buf] points into it, and [char s[10240]]. *)
Record server_state := Server { block : list Z; recv_buf : nat; s : list Z }.

(** The text is copied up to its NUL, and [recv_buf] moves along. *)
(* src/demo_socket/demo_socket.c:107-109 server *)
Fixpoint copy_text (fuel : nat) (buf : list Z) (pos : nat) (s : list Z) (tmp : nat)
    : option (nat * list Z * nat) :=
  match fuel with
  | O => None
  | S fuel =>
      c ← buf !! pos;
      if c =? 0 then Some (pos, s, tmp)
      else s ← store s tmp [c]; copy_text fuel buf (S pos) s (S tmp)
  end.

(** One message: the state behind it and the text the consumer is given. *)
(* src/demo_socket/demo_socket.c:104-111 server *)
Definition on_recv (addr_len : nat) (st : server_state) (bytes : list Z)
    : option (server_state * list Z) :=
  buf ← store (block st) (recv_buf st) bytes;
  buf ← store buf (recv_buf st + length bytes) [0];
  '(pos, s, tmp) ← copy_text (S (length buf)) buf (recv_buf st) (s st) addr_len;
  s ← store s tmp [0];
  Some (Server buf pos s, c_string s).

(* src/demo_socket/demo_socket.c:104-112 server *)
Fixpoint serve (addr_len : nat) (st : server_state) (received : list (list Z))
    : option (server_state * list (list Z)) :=
  match received with
  | [] => Some (st, [])
  | bytes :: received =>
      '(st, msg) ← on_recv addr_len st bytes;
      '(st, msgs) ← serve addr_len st received;
      Some (st, msg :: msgs)
  end.

(** [[%s:%d] ] *)
Definition prefix (hostname : list Z) (port : Z) : list Z :=
  91 :: hostname ++ 58 :: format_d port ++ [93; 32].

(** What [consumer] is given for each message of each connection, in order. *)
(* src/demo_socket/demo_socket.c:94-113 server *)
Fixpoint accept_loop (st : server_state) (conns : list connection)
    : option (server_state * list (list Z)) :=
  match conns with
  | [] => Some (st, [])
  | conn :: conns =>
      match hostname conn with
      | None => accept_loop st conns
      | Some name =>
          let '(text, len) := snprintf (prefix name (client_port conn)) 10240 in
          s ← store (s st) 0 text;
          '(st, msgs) ← serve (Z.to_nat len) (Server (block st) (recv_buf st) s) (received conn);
          '(st, msgs') ← accept_loop st conns;
          Some (st, msgs ++ msgs')
      end
  end.

(** From [listen] to the end. [block] and [s] are what is in the memory before. *)
(* src/demo_socket/demo_socket.c:67-115 server *)
Definition server (block s : list Z) (conns : list connection) : option (list (list Z)) :=
  '(st, msgs) ← accept_loop (Server block 0 s) conns;
  _ ← require (bool_decide (recv_buf st = 0%nat));
  Some msgs.

(** ** The client *)

(** The text read, and the rest of the input; [None] is the result -1. *)
(* src/demo_socket/demo_socket.c:27-30 default_msg_producer *)
Definition default_msg_producer (input : list Z) : option (list Z * list Z) :=
  match fgets 512 input with None => None | Some (line, rest) => Some (c_string line, rest) end.

Inductive client_end := EndOfInput | Quit | SendFailed.

(** The messages sent, why the client stopped and the input it left; the line that ends it is
    read too. *)
(* src/demo_socket/demo_socket.c:142-148 client *)
Fixpoint client_loop (send : list Z -> Z) (fuel : nat) (input : list Z)
    : option (list (list Z) * client_end * list Z) :=
  match fuel with
  | O => None
  | S fuel =>
      match default_msg_producer input with
      | None => Some ([], EndOfInput, input)
      | Some (msg, rest) =>
          if bool_decide (msg = [113; 10]) then Some ([], Quit, rest)
          else if send msg <? 0 then Some ([msg], SendFailed, rest)
          else
            '(msgs, why, rest) ← client_loop send fuel rest;
            Some (msg :: msgs, why, rest)
      end
  end.

(* src/demo_socket/demo_socket.c:134-149 client *)
Definition client (send : list Z -> Z) (input : list Z) : option (list (list Z) * client_end * list Z) :=
  client_loop send (S (length input)) input.

(** What is printed of the server's answers: each call stores a NUL behind what it received. *)
(* src/demo_socket/demo_socket.c:32-43 recv_msg_run *)
Fixpoint recv_msg_run (recv_buffer : list Z) (received : list (list Z)) : option (list Z) :=
  match received with
  | [] => Some []
  | bytes :: received =>
      if bool_decide (bytes = []) then Some [] else
      buf ← store recv_buffer 0 bytes;
      buf ← store buf (length bytes) [0];
      out ← recv_msg_run buf received;
      Some (c_string buf ++ out)
  end.

(* src/demo_socket/demo_socket.c:21-25 default_msg_consumer *)
Definition default_msg_consumer (msg : list Z) : list Z * list Z :=
  (c_string msg ++ [10], [79; 75; 13; 10]).

(** ** What the server does *)

(** Messages whose bytes are a text. *)
Definition texts (msgs : list (list Z)) : Prop := Forall (fun m => 0 ∉ m) msgs.

Definition total (msgs : list (list Z)) : nat := length (concat msgs).

Lemma copy_text_spec a m z b s1 s2 s3 fuel :
  0 ∉ m -> length s2 = length m -> (length m < fuel)%nat ->
  copy_text fuel (a ++ m ++ 0 :: b) (length a) (s1 ++ s2 ++ z :: s3) (length s1) =
    Some ((length a + length m)%nat, s1 ++ m ++ z :: s3, (length s1 + length m)%nat).
Proof.
  revert a s1 s2 fuel. induction m as [|c m IH]; intros a s1 s2 [|fuel] Hm Hl Hf;
    try (cbn [length] in Hf; lia); cbn [copy_text].
  - cbn [app]. rewrite list_lookup_middle by done. bind_simpl. cbn [Z.eqb].
    destruct s2; [|done]. cbn [app length]. by rewrite !Nat.add_0_r.
  - rewrite not_elem_of_cons in Hm. destruct Hm as [Hc Hm]. destruct s2 as [|d s2]; [done|].
    cbn [app]. rewrite list_lookup_middle by done. bind_simpl.
    destruct (Z.eqb_spec c 0) as [->|_]; [done|].
    change (d :: s2 ++ z :: s3) with ([d] ++ s2 ++ z :: s3).
    rewrite store_app by done. bind_simpl. cbn [app length] in *.
    specialize (IH (a ++ [c]) (s1 ++ [c]) s2 fuel Hm ltac:(lia) ltac:(lia)).
    rewrite <- !(assoc_L app), !length_app in IH. cbn [app length] in IH.
    rewrite !Nat.add_1_r in IH. rewrite IH. f_equal. f_equal; [f_equal|]; lia.
Qed.

(** The buffers are as large as the program made them. *)
Definition sized (st : server_state) : Prop :=
  length (block st) = 1024%nat /\ Z.of_nat (length (s st)) = 10240.

(** A message is delivered behind the prefix, as long as [recv_buf] has not left its block. *)
Lemma on_recv_fits st p r m :
  sized st -> s st = p ++ r -> 0 ∉ p -> Z.of_nat (length p) + 1024 <= 10240 -> 0 ∉ m ->
  (recv_buf st + length m < 1024)%nat ->
  exists st' r', on_recv (length p) st m = Some (st', p ++ m) /\ sized st' /\
    recv_buf st' = (recv_buf st + length m)%nat /\ s st' = p ++ r'.
Proof.
  intros [Hb Hs] Es Hp Hl Hm Hfit. destruct st as [buf pos s]. cbn [block recv_buf Sockets.s] in *. subst s.
  set (x := take pos buf). set (y := drop pos buf).
  assert (buf = x ++ y) as Eb by (symmetry; apply take_drop).
  assert (length x = pos) as Hx by (unfold x; rewrite length_take; lia).
  assert (exists y1 z y2, y = y1 ++ z :: y2 /\ length y1 = length m) as (y1 & z & y2 & Ey & Hy1).
  { assert (length m < length y)%nat as Hy by (unfold y; rewrite length_drop; lia).
    destruct (lookup_lt_is_Some_2 y _ Hy) as [z Hz]. exists (take (length m) y), z, (drop (S (length m)) y).
    rewrite length_take. split; [by rewrite take_drop_middle|lia]. }
  assert (exists r1 u r2, r = r1 ++ u :: r2 /\ length r1 = length m) as (r1 & u & r2 & Er & Hr1).
  { rewrite length_app in Hs. assert (length m < length r)%nat as Hr by lia.
    destruct (lookup_lt_is_Some_2 r _ Hr) as [u Hu]. exists (take (length m) r), u, (drop (S (length m)) r).
    rewrite length_take. split; [by rewrite take_drop_middle|lia]. }
  unfold on_recv. cbn [block recv_buf Sockets.s]. rewrite Eb, Ey, <- Hx, store_app by done. bind_simpl.
  pose proof (store_app (x ++ m) [z] y2 [0] eq_refl) as E1. cbn [app] in E1.
  rewrite length_app, <- !(assoc_L app) in E1. cbn [app] in E1. rewrite E1. bind_simpl.
  rewrite Er, copy_text_spec; [|done|done|rewrite !length_app; lia].
  bind_simpl. pose proof (store_app (p ++ m) [u] r2 [0] eq_refl) as E2. cbn [app] in E2.
  rewrite length_app, <- !(assoc_L app) in E2. cbn [app] in E2. rewrite E2. bind_simpl.
  eexists _, (m ++ 0 :: r2). split; [|unfold sized; split_and!].
  - f_equal. f_equal. rewrite (assoc_L app). apply c_string_nul. set_solver.
  - cbn [block]. rewrite Eb, Ey, !length_app in Hb. rewrite !length_app. cbn [length] in *. lia.
  - cbn [Sockets.s]. rewrite Er, !length_app in Hs. rewrite !length_app. cbn [length] in *. lia.
  - reflexivity.
  - reflexivity.
Qed.

Lemma on_recv_overflows st k m :
  length (block st) = 1024%nat -> (1024 <= recv_buf st + length m)%nat -> on_recv k st m = None.
Proof.
  intros Hb Hm. unfold on_recv. destruct (store (block st) _ m) as [buf|] eqn:E; [|done]. bind_simpl.
  apply store_length in E. rewrite store_overflow; [done|]. cbn [length]. lia.
Qed.

(** A connection is served until the bytes received from all connections so far fill the block. *)
Lemma serve_spec p msgs : forall st r,
  sized st -> s st = p ++ r -> 0 ∉ p -> Z.of_nat (length p) + 1024 <= 10240 -> texts msgs ->
  (recv_buf st < 1024)%nat ->
  if bool_decide (recv_buf st + total msgs < 1024)%nat then
    exists st', serve (length p) st msgs = Some (st', map (app p) msgs) /\ sized st' /\
      recv_buf st' = (recv_buf st + total msgs)%nat
  else serve (length p) st msgs = None.
Proof.
  induction msgs as [|m msgs IH]; intros st r Hst Es Hp Hl Hm Hpos; unfold total; cbn [concat serve].
  - rewrite bool_decide_true by (cbn; lia). exists st. split_and!; [done|done|cbn; lia].
  - apply Forall_cons in Hm as [Hm Hms]. rewrite length_app. fold (total msgs).
    destruct (decide (recv_buf st + length m < 1024)%nat) as [Hfit|Hfull].
    + destruct (on_recv_fits st p r m Hst Es Hp Hl Hm Hfit) as (st1 & r1 & -> & Hst1 & E1 & Es1).
      bind_simpl. specialize (IH st1 r1 Hst1 Es1 Hp Hl Hms ltac:(lia)). rewrite E1, <- Nat.add_assoc in IH.
      case_bool_decide; [|by rewrite IH].
      destruct IH as (st2 & -> & Hst2 & E2). exists st2. split_and!; [done|done|lia].
    + rewrite bool_decide_false by lia. rewrite on_recv_overflows; [done|apply Hst|lia].
Qed.

Definition connection_ok (conn : connection) : Prop :=
  texts (received conn) /\ 0 <= client_port conn < 65536 /\
  match hostname conn with None => True | Some name => 0 ∉ name /\ (length name <= 15)%nat end.

(** What the consumer is to be given, and how many bytes that takes. *)
Definition delivered (conns : list connection) : list (list Z) :=
  conns ≫= fun conn => match hostname conn with
    | None => []
    | Some name => map (app (prefix name (client_port conn))) (received conn)
    end.

Definition load (conns : list connection) : nat :=
  total (conns ≫= fun conn => match hostname conn with None => [] | Some _ => received conn end).

Lemma prefix_ok name port :
  0 ∉ name -> (length name <= 15)%nat -> 0 <= port < 65536 ->
  0 ∉ prefix name port /\ (length (prefix name port) <= 40)%nat.
Proof.
  intros Hn Hl Hp. unfold prefix. split.
  - pose proof (dec_digits port ltac:(lia)) as Hd. unfold format_d.
    destruct (Z.ltb_spec port 0); [lia|]. rewrite Forall_forall in Hd.
    rewrite elem_of_cons, elem_of_app, !elem_of_cons, elem_of_app, !elem_of_cons, elem_of_nil.
    intros [?|[?|[?|[H0|[?|[?|[]]]]]]]; try done. specialize (Hd 0 H0). unfold digit_code in Hd. lia.
  - pose proof (format_d_length port) as Hd. unfold INT_MIN, INT_MAX in Hd.
    cbn [length]. rewrite length_app. cbn [length]. rewrite length_app. cbn [length]. lia.
Qed.

Lemma load_cons conn conns :
  load (conn :: conns) =
    (match hostname conn with None => 0 | Some _ => total (received conn) end + load conns)%nat.
Proof.
  unfold load, total. rewrite bind_cons, concat_app, length_app. by destruct (hostname conn).
Qed.

Lemma accept_loop_spec conns : forall st,
  sized st -> Forall connection_ok conns -> (recv_buf st < 1024)%nat ->
  if bool_decide (recv_buf st + load conns < 1024)%nat then
    exists st', accept_loop st conns = Some (st', delivered conns) /\
      recv_buf st' = (recv_buf st + load conns)%nat
  else accept_loop st conns = None.
Proof.
  induction conns as [|conn conns IH]; intros st Hst Hok Hpos; cbn [accept_loop].
  - change (load []) with 0%nat. rewrite bool_decide_true by lia. exists st. split; [done|lia].
  - apply Forall_cons in Hok as [(Ht & Hport & Hn) Hok]. rewrite load_cons. unfold delivered.
    rewrite bind_cons. fold (delivered conns).
    destruct (hostname conn) as [name|]; [|by apply IH].
    destruct Hn as [Hn Hl]. destruct (prefix_ok name (client_port conn) Hn Hl Hport) as [Hp Hpl].
    set (p := prefix name (client_port conn)) in *. rewrite snprintf_fits by lia. rewrite Nat2Z.id.
    destruct Hst as [Hb Hs].
    assert (exists r, store (s st) 0 (p ++ [0]) = Some (p ++ r) /\ length (p ++ r) = length (s st))
      as (r & E & Hr).
    { destruct (store (s st) 0 (p ++ [0])) as [s1|] eqn:E.
      - pose proof (store_length _ _ _ _ E) as Hs1.
        rewrite store_ok in E by (rewrite length_app; cbn [length]; lia).
        injection E as <-. rewrite <- (assoc_L app) in Hs1 |- *. eexists. by split; [|exact Hs1].
      - rewrite store_ok in E by (rewrite length_app; cbn [length]; lia). done. }
    rewrite E. bind_simpl.
    pose proof (serve_spec p (received conn) (Server (block st) (recv_buf st) (p ++ r)) r) as Hserve.
    cbn [block recv_buf Sockets.s] in Hserve. specialize (Hserve ltac:(split; cbn [block Sockets.s]; lia)
      eq_refl Hp ltac:(lia) Ht Hpos).
    case_bool_decide as Hfit.
    + destruct Hserve as (st1 & -> & Hst1 & E1). bind_simpl.
      specialize (IH st1 Hst1 Hok ltac:(lia)). rewrite E1, <- Nat.add_assoc in IH.
      case_bool_decide; [|by rewrite IH].
      destruct IH as (st2 & -> & E2). exists st2. by split.
    + rewrite Hserve. rewrite bool_decide_false by lia. done.
Qed.

(** C33. The server's buffer pointer is never set back. Whatever texts the clients send, each one
    is handed to the consumer behind its client's address, in order, while all bytes received from
    all connections are fewer than 1024; from then on the next message is stored outside the
    block. And once a byte was received the server cannot end: it releases the moved pointer. *)
Theorem server_budget block s conns :
  length block = 1024%nat -> Z.of_nat (length s) = 10240 -> Forall connection_ok conns ->
  match accept_loop (Server block 0 s) conns with
  | Some (_, msgs) => (load conns < 1024)%nat /\ msgs = delivered conns
  | None => (1024 <= load conns)%nat
  end /\
  ((0 < load conns)%nat -> server block s conns = None).
Proof.
  intros Hb Hs Hok. pose proof (accept_loop_spec conns (Server block 0 s)) as H. cbn [recv_buf] in H.
  specialize (H ltac:(split; cbn [Sockets.block Sockets.s]; lia) Hok ltac:(lia)). unfold server.
  case_bool_decide as Hfit.
  - destruct H as (st' & -> & E). split; [by split|]. intros Hload. bind_simpl.
    rewrite bool_decide_false by lia. done.
  - rewrite H. split; [lia|done].
Qed.

(** ** What the client does *)

(** How the input is cut: a message goes up to its first newline; without one it has the 511
    bytes there is room for, or nothing comes [after] it. *)
Definition cut_at (m after : list Z) : Prop :=
  (length m <= 511)%nat /\
  ((exists l, m = l ++ [10] /\ 10 ∉ l) \/ (m <> [] /\ 10 ∉ m /\ (length m = 511%nat \/ after = []))).

Fixpoint cut (msgs : list (list Z)) (after : list Z) : Prop :=
  match msgs with [] => True | m :: msgs => cut_at m (concat msgs ++ after) /\ cut msgs after end.

Lemma take_line_cut n input line rest :
  take_line n input = (line, rest) ->
  (exists l, line = l ++ [10] /\ 10 ∉ l) \/ (10 ∉ line /\ (length line = n \/ rest = [])).
Proof.
  revert input line rest. induction n as [|n IH]; intros [|c input] line rest; cbn [take_line].
  - intros [= <- <-]. right. split; [by apply not_elem_of_nil|by left].
  - intros [= <- <-]. right. split; [by apply not_elem_of_nil|by left].
  - intros [= <- <-]. right. split; [by apply not_elem_of_nil|by right].
  - destruct (Z.eqb_spec c 10) as [->|Hc].
    + intros [= <- <-]. left. exists []. split; [done|by apply not_elem_of_nil].
    + destruct (take_line n input) as [line' rest'] eqn:E. intros [= <- <-].
      destruct (IH _ _ _ E) as [(l & -> & Hl)|[Hl Hr]].
      * left. exists (c :: l). split; [done|]. by rewrite not_elem_of_cons.
      * right. rewrite not_elem_of_cons. split; [done|]. destruct Hr; [left; cbn; lia|by right].
Qed.

Lemma producer_cut input msg rest :
  0 ∉ input -> default_msg_producer input = Some (msg, rest) ->
  msg ++ rest = input /\ msg <> [] /\ cut_at msg rest.
Proof.
  unfold default_msg_producer, fgets. intros Hn. destruct input as [|c input]; [done|].
  destruct (take_line (512 - 1) (c :: input)) as [line rest'] eqn:E.
  pose proof (take_line_cut _ _ _ _ E) as Hcut. apply take_line_spec in E as (Ei & Hl & Hne).
  specialize (Hne ltac:(done) ltac:(done)). rewrite <- Ei in *. rewrite elem_of_app in Hn.
  rewrite c_string_whole by tauto. intros [= <- <-]. split_and!; [done|done|].
  split; [exact Hl|]. destruct Hcut as [?|[? ?]]; [by left|by right].
Qed.

(** The line [q]. *)
Definition quit_line : list Z := [113; 10].

(** Why the client stopped: [last] is what it read behind the last message, [rest] the input it
    left. *)
Definition stopped (send : list Z -> Z) (msgs : list (list Z)) (why : client_end) (last rest : list Z) : Prop :=
  match why with
  | EndOfInput => last = [] /\ rest = [] /\ Forall (fun m => 0 <= send m) msgs
  | Quit => last = quit_line /\ Forall (fun m => 0 <= send m) msgs
  | SendFailed => last = [] /\
      exists ms m, msgs = ms ++ [m] /\ send m < 0 /\ Forall (fun m => 0 <= send m) ms
  end.

(** C34. Every text given to the client is sent, up to its end, to a message [q] or to the first
    [send] that fails; the client always stops. The messages are the input in order, cut behind
    each newline and after 511 bytes without one; none of them is the message [q], which is read
    and not sent. *)
Theorem client_sends_input send input :
  0 ∉ input ->
  exists msgs why last rest, client send input = Some (msgs, why, rest) /\
    concat msgs ++ last ++ rest = input /\ cut msgs (last ++ rest) /\
    Forall (fun m => m <> quit_line) msgs /\ stopped send msgs why last rest.
Proof.
  unfold client. generalize (Nat.lt_succ_diag_r (length input)). generalize (S (length input)) as fuel.
  intros fuel. revert input. induction fuel as [|fuel IH]; intros input Hf Hn; [lia|].
  cbn [client_loop]. destruct (default_msg_producer input) as [[msg rest]|] eqn:E; [|].
  2: { destruct input as [|c input]; [by exists [], EndOfInput, [], []|].
       unfold default_msg_producer, fgets in E. by destruct (take_line _ _). }
  apply producer_cut in E as (<- & Hm & Hcut); [|done]. rewrite elem_of_app in Hn.
  rewrite length_app in Hf. assert (0 < length msg)%nat by (destruct msg; [done|cbn; lia]).
  case_bool_decide as Hq.
  { exists [], Quit, msg, rest. cbn [cut stopped]. unfold quit_line. by split_and!. }
  destruct (Z.ltb_spec (send msg) 0).
  { exists [msg], SendFailed, [], rest. cbn [concat cut app stopped]. rewrite app_nil_r.
    split_and!; [done|done|done|done|by constructor|done|by exists [], msg]. }
  destruct (IH rest) as (msgs & why & last & left & -> & E & Hc & Hqs & Hs); [lia|tauto|].
  exists (msg :: msgs), why, last, left. cbn [concat cut]. rewrite <- (assoc_L app), E.
  split_and!; [done|done|done|done|by constructor|]. destruct why; cbn [stopped] in *.
  - destruct Hs as (? & ? & ?). split_and!; [done|done|by constructor].
  - destruct Hs. split; [done|by constructor].
  - destruct Hs as (? & ms & m & -> & Hm0 & Hms). split; [done|]. exists (msg :: ms), m.
    split_and!; [done|done|by constructor].
Qed.

(** A line of 512 characters that ends in [q] is split before the [q], and the client quits. *)
Theorem client_quits_inside_line send :
  0 <= send (replicate 511 97) ->
  client send (replicate 511 97 ++ [113; 10]) = Some ([replicate 511 97], Quit, []).
Proof.
  intros Hs. unfold client. replace (S (length _)) with (S (S 512)) by (vm_compute; reflexivity).
  cbn [client_loop].
  replace (default_msg_producer (replicate 511 97 ++ [113; 10]))
    with (Some (replicate 511 97, [113; 10])) by (vm_compute; reflexivity).
  rewrite bool_decide_false by done. by destruct (Z.ltb_spec (send (replicate 511 97)) 0); [lia|].
Qed.

(** The answers are printed, unless one fills the buffer: then its NUL is stored behind it. *)
Theorem recv_msg_run_spec buf received :
  length buf = 512%nat -> texts received -> Forall (fun m => 0 < length m <= 512)%nat received ->
  recv_msg_run buf received =
    if bool_decide (Forall (fun m => (length m < 512)%nat) received) then Some (concat received) else None.
Proof.
  intros Hb Ht Hl. revert buf Hb Ht. induction Hl as [|m received Hm _ IH]; intros buf Hb Ht; [done|].
  apply Forall_cons in Ht as [Hn Ht]. cbn [recv_msg_run].
  rewrite bool_decide_false by (intros ->; cbn in Hm; lia).
  destruct (decide (length m < 512)%nat) as [Hlt|Hge].
  - assert (exists y1 z y2, buf = y1 ++ z :: y2 /\ length y1 = length m) as (y1 & z & y2 & -> & Hy).
    { destruct (lookup_lt_is_Some_2 buf (length m) ltac:(lia)) as [z Hz].
      exists (take (length m) buf), z, (drop (S (length m)) buf).
      rewrite length_take. split; [by rewrite take_drop_middle|lia]. }
    pose proof (store_app [] y1 (z :: y2) m Hy) as E1. cbn [app length] in E1. rewrite E1. bind_simpl.
    pose proof (store_app m [z] y2 [0] eq_refl) as E2. cbn [app] in E2. rewrite E2. bind_simpl.
    rewrite c_string_nul, IH by (rewrite ?length_app in *; cbn [length] in *; done || lia).
    destruct (decide (Forall (fun m => (length m < 512)%nat) received)).
    + by rewrite !bool_decide_true by (try constructor; done).
    + by rewrite !bool_decide_false by (rewrite ?Forall_cons; tauto).
  - rewrite bool_decide_false by (rewrite Forall_cons; tauto). rewrite store_ok by (cbn; lia). bind_simpl.
    rewrite store_overflow; [done|]. rewrite !length_app, length_take, length_drop. cbn [length]. lia.
Qed.

(** ** Witnesses *)

Definition localhost : list Z := [49; 50; 55; 46; 48; 46; 48; 46; 49].

Definition two_clients : list connection :=
  [Connection (Some localhost) 4711 [[104; 105]; [33]]; Connection None 0 [[120]];
   Connection (Some localhost) 4712 [[104]]].

Lemma two_clients_ok : Forall connection_ok two_clients.
Proof.
  unfold two_clients, connection_ok, texts, localhost. repeat (apply Forall_cons_2 || apply Forall_nil_2);
    cbn [hostname client_port received]; split_and!; try lia; try done;
    repeat (apply Forall_cons_2 || apply Forall_nil_2); rewrite ?elem_of_cons, ?elem_of_nil; try lia.
  all: cbn; lia.
Qed.

Lemma server_budget_witness :
  match accept_loop (Server (replicate 1024 7) 0 (replicate (Z.to_nat 10240) 7)) two_clients with
  | Some (_, msgs) => (load two_clients < 1024)%nat /\ msgs = delivered two_clients
  | None => (1024 <= load two_clients)%nat
  end /\
  ((0 < load two_clients)%nat -> server (replicate 1024 7) (replicate (Z.to_nat 10240) 7) two_clients = None).
Proof.
  apply server_budget; [by rewrite length_replicate|rewrite length_replicate; lia|exact two_clients_ok].
Defined.

Lemma client_sends_input_witness :
  exists msgs why last rest, client (fun _ => 1) [104; 105; 10; 113; 10] = Some (msgs, why, rest) /\
    concat msgs ++ last ++ rest = [104; 105; 10; 113; 10] /\ cut msgs (last ++ rest) /\
    Forall (fun m => m <> quit_line) msgs /\ stopped (fun _ => 1) msgs why last rest.
Proof. apply client_sends_input. rewrite !elem_of_cons, elem_of_nil. lia. Defined.

Lemma client_quits_inside_line_witness :
  client (fun _ => 1) (replicate 511 97 ++ [113; 10]) = Some ([replicate 511 97], Quit, []).
Proof. apply (client_quits_inside_line (fun _ => 1)). lia. Defined.

Lemma recv_msg_run_spec_witness :
  recv_msg_run (replicate 512 7) [[104; 105]; [33]] = Some [104; 105; 33].
Proof.
  rewrite (recv_msg_run_spec (replicate 512 7) [[104; 105]; [33]]).
  - reflexivity.
  - by rewrite length_replicate.
  - repeat constructor; rewrite ?elem_of_cons, ?elem_of_nil; lia.
  - repeat constructor; cbn; lia.
Defined.
