(* ===== verification/Multiplex.v ===== *)
(** The programs that wait for input with [epoll], [poll], [select] and libevent:
    src/demo_socket/epoll/demo_epoll.c, poll/demo_poll.c, select/demo_select.c and the callbacks
    of src/demo_libevent/demo_libevent.c.

    What the system answers is an argument: which descriptors are ready and what [read] stores
    ([None] where it fails). A round of a loop gives the buffer behind it and the texts printed;
    [None] is undefined behaviour, a byte outside a buffer or a text without an end. *)

From S2P Require Import Prelude CString.

(** A buffer that is filled and terminated, as two of the programs do: [buffer[len] = 0]. *)
Definition read_text (buffer bytes : list Z) : option (list Z) :=
  buf ← store buffer 0 bytes; store buf (length bytes) [0].

Lemma read_text_spec buffer bytes :
  0 ∉ bytes ->
  if bool_decide (length bytes < length buffer)%nat
  then exists buf, read_text buffer bytes = Some buf /\ holds buf bytes /\ length buf = length buffer
  else read_text buffer bytes = None.
Proof.
  intros Hn. case_bool_decide as Hl; unfold read_text.
  - destruct (lookup_lt_is_Some_2 buffer _ Hl) as [z Hz]. exists (bytes ++ 0 :: drop (S (length bytes)) buffer).
    pose proof (store_app [] (take (length bytes) buffer) (z :: drop (S (length bytes)) buffer) bytes) as E1.
    cbn [app length] in E1. rewrite take_drop_middle in E1 by done.
    rewrite E1 by (rewrite length_take; lia). bind_simpl.
    pose proof (store_app bytes [z] (drop (S (length bytes)) buffer) [0] eq_refl) as E2.
    cbn [app] in E2. rewrite E2. split_and!; [done|split; [done|eauto]|].
    rewrite length_app. cbn [length]. rewrite length_drop. lia.
  - destruct (store buffer 0 bytes) as [buf|] eqn:E; [|done]. bind_simpl. apply store_length in E.
    apply store_overflow. cbn [length]. lia.
Qed.

(** ** epoll *)

Definition STDIN_FILENO : Z := 0.
Definition EPOLLIN : Z := 1.
(* src/demo_socket/epoll/demo_epoll.c:26-26 EPOLL_EVENT_SIZE *)
Definition EPOLL_EVENT_SIZE : nat := 1.

(** An active event: [data.fd], [events], and what [read] will do. *)
Record epoll_event := EpollEvent { data_fd : Z; events : Z; reads : option (list Z) }.

(* src/demo_socket/epoll/demo_epoll.c:53-57 main *)
Definition epoll_handle (buffer : list Z) (ev : epoll_event) : option (list Z * list (list Z)) :=
  if (data_fd ev =? STDIN_FILENO) && negb (Z.land (events ev) EPOLLIN =? 0) then
    bytes ← reads ev;
    buffer ← read_text buffer bytes;
    Some (buffer, [c_string buffer])
  else Some (buffer, []).

Fixpoint epoll_events (buffer : list Z) (evs : list epoll_event) : option (list Z * list (list Z)) :=
  match evs with
  | [] => Some (buffer, [])
  | ev :: evs =>
      '(buffer, out) ← epoll_handle buffer ev;
      '(buffer, outs) ← epoll_events buffer evs;
      Some (buffer, out ++ outs)
  end.

(** The loop, for the answers of [epoll_wait] so far: an error, or the active events. The array
    of events has [EPOLL_EVENT_SIZE] elements. *)
(* src/demo_socket/epoll/demo_epoll.c:40-59 main *)
Fixpoint epoll_loop (buffer : list Z) (waits : list (option (list epoll_event)))
    : option (list Z * list (list Z)) :=
  match waits with
  | [] => Some (buffer, [])
  | None :: waits => epoll_loop buffer waits
  | Some evs :: waits =>
      _ ← require (bool_decide (length evs <= EPOLL_EVENT_SIZE)%nat);
      '(buffer, out) ← epoll_events buffer evs;
      '(buffer, outs) ← epoll_loop buffer waits;
      Some (buffer, out ++ outs)
  end.

(** Input the buffer has room for. *)
Definition short_input (n : nat) (ev : epoll_event) : Prop :=
  match reads ev with Some bytes => (length bytes < n)%nat | None => False end.

#[export] Instance short_input_dec n ev : Decision (short_input n ev).
Proof. unfold short_input. destruct (reads ev); apply _. Defined.

(** The one event the program registered, with text to read. *)
Definition stdin_event (ev : epoll_event) : Prop :=
  data_fd ev = STDIN_FILENO /\ events ev = EPOLLIN /\ 0 ∉ default [] (reads ev).

Definition input_of (waits : list (option (list epoll_event))) : list epoll_event :=
  waits ≫= default [].

(** Every text that is read is printed as it is. A text that fills the buffer is terminated behind
    it, and a [read] that fails is taken for a length. *)
Theorem epoll_prints_input buffer waits :
  Forall (fun evs => (length (default [] evs) <= 1)%nat) waits ->
  Forall stdin_event (input_of waits) ->
  snd <$> epoll_loop buffer waits =
    if bool_decide (Forall (short_input (length buffer)) (input_of waits))
    then Some (default [] ∘ reads <$> input_of waits) else None.
Proof.
  intros Hlen. revert buffer. induction Hlen as [|[evs|] waits Hl _ IH]; intros buffer Hev;
    unfold input_of in *; rewrite ?bind_cons in *; cbn [epoll_loop default app] in *; [done| |by apply IH].
  rewrite bool_decide_true by done. bind_simpl. cbn [require]. bind_simpl.
  destruct evs as [|[fd e rd] [|? ?]]; cbn [app epoll_events] in *; [| |cbn in Hl; lia].
  - bind_simpl. rewrite <- IH by done. by destruct (epoll_loop buffer waits) as [[? ?]|].
  - apply Forall_cons in Hev as [(E1 & E2 & Hn) Hev]. cbn [data_fd events reads] in *. subst fd e.
    unfold epoll_handle. cbn [data_fd events reads]. change (negb (Z.land EPOLLIN EPOLLIN =? 0)) with true.
    cbn [Z.eqb STDIN_FILENO andb].
    destruct rd as [bytes|]; bind_simpl.
    2: { rewrite bool_decide_false; [done|]. by intros [? _]%Forall_cons. }
    cbn [default] in Hn. pose proof (read_text_spec buffer bytes Hn) as Hr.
    case_bool_decide as Hb.
    + destruct Hr as (buf & -> & Hh & El). bind_simpl. cbn [app].
      specialize (IH buf Hev). rewrite El in IH. apply holds_text in Hh as [-> _].
      destruct (epoll_loop buf waits) as [[b outs]|]; cbn in IH; case_bool_decide as Hall; try done;
        simplify_eq; cbn.
      * rewrite bool_decide_true by (constructor; [exact Hb|done]). done.
      * rewrite bool_decide_false; [done|]. by intros [_ ?]%Forall_cons.
    + rewrite Hr. cbn. rewrite bool_decide_false; [done|]. by intros [? _]%Forall_cons.
Qed.

(** ** poll and select *)

Definition POLLIN : Z := 1.

(** One answer of [poll] that reports the descriptor: its [revents] and what [read] does. *)
(* src/demo_socket/poll/demo_poll.c:73-81 main *)
Definition poll_handle (buffer : list Z) (revents : Z) (read : option (list Z))
    : option (list Z * list (list Z)) :=
  '(buffer, len) ← (if negb (Z.land revents POLLIN =? 0) then
      match read with
      | None => Some (buffer, -1)
      | Some bytes => buf ← store buffer 0 bytes; Some (buf, Z.of_nat (length bytes))
      end
    else Some (buffer, 0));
  if 0 <? len then text ← text_in buffer; Some (buffer, [text]) else Some (buffer, []).

(** The set of descriptors and the greatest of them, for [select]. *)
(* src/demo_socket/select/demo_select.c:69-77 main *)
Definition watch (fds : list Z) : gset Z * Z :=
  fold_left (fun '(readfds, max_fd) fd => ({[fd]} ∪ readfds, if max_fd <? fd then fd else max_fd))
    fds (∅, -1).

(** One answer of [select] that reports descriptors; the result of [read] is not looked at. *)
(* src/demo_socket/select/demo_select.c:96-101 main *)
Fixpoint select_handle (buffer : list Z) (ready : Z -> bool) (read : Z -> option (list Z)) (fds : list Z)
    : option (list Z * list (list Z)) :=
  match fds with
  | [] => Some (buffer, [])
  | fd :: fds =>
      '(buffer, out) ← (if ready fd then
          buffer ← store buffer 0 (default [] (read fd));
          text ← text_in buffer;
          Some (buffer, [text])
        else Some (buffer, []));
      '(buffer, outs) ← select_handle buffer ready read fds;
      Some (buffer, out ++ outs)
  end.

Lemma watch_spec fds :
  (forall fd, fd ∈ (watch fds).1 <-> fd ∈ fds) /\
  (forall fd, fd ∈ fds -> fd <= (watch fds).2) /\ ((watch fds).2 = -1 \/ (watch fds).2 ∈ fds).
Proof.
  unfold watch. assert (forall fds (set : gset Z) m,
    let r := fold_left (fun '(readfds, max_fd) fd =>
      ({[fd]} ∪ readfds, if max_fd <? fd then fd else max_fd)) fds (set, m) in
    (forall fd, fd ∈ r.1 <-> fd ∈ set \/ fd ∈ fds) /\ (forall fd, fd ∈ fds -> fd <= r.2) /\ m <= r.2 /\
    (r.2 = m \/ r.2 ∈ fds)) as H.
  { clear fds. induction fds as [|x fds IH]; intros set m; cbn [fold_left].
    - cbn. split_and!; [set_solver|set_solver|lia|by left].
    - specialize (IH ({[x]} ∪ set) (if m <? x then x else m)). cbv zeta in *.
      destruct IH as (H1 & H2 & H3 & H4). destruct (Z.ltb_spec m x); split_and!.
      all: try (intros fd; rewrite H1; set_solver).
      all: try (intros fd [->|?]%elem_of_cons; [lia|auto]).
      all: try lia. all: destruct H4 as [->|H4]; set_solver. }
  specialize (H fds ∅ (-1)). cbv zeta in H. destruct H as (H1 & H2 & H3 & H4).
  split_and!; [set_solver|done|done].
Qed.

(** A shorter text over a longer one. *)
Lemma store_stale buffer t bytes :
  holds buffer t -> 0 ∉ bytes -> (length bytes <= length t)%nat ->
  exists buf, store buffer 0 bytes = Some buf /\ holds buf (bytes ++ drop (length bytes) t).
Proof.
  intros [Ht [r ->]] Hb Hl. exists (bytes ++ drop (length bytes) t ++ 0 :: r).
  pose proof (store_app [] (take (length bytes) t) (drop (length bytes) t ++ 0 :: r) bytes) as E.
  cbn [app length] in E. rewrite (assoc_L app (take _ t)), take_drop in E.
  rewrite E by (rewrite length_take; lia). split; [done|]. split.
  - rewrite elem_of_app. intros [?|Hd]; [done|]. apply Ht. rewrite <- (take_drop (length bytes) t).
    apply elem_of_app. by right.
  - exists r. by rewrite <- (assoc_L app).
Qed.

(** The buffer is not terminated: what is printed is the text read followed by the rest of the
    text before, unless that was shorter. [select] prints the last text again when [read] fails
    or the input has ended. *)
Theorem unterminated_input buffer t bytes :
  holds buffer t -> 0 ∉ bytes -> (length bytes <= length t)%nat ->
  (bytes <> [] -> snd <$> poll_handle buffer POLLIN (Some bytes) = Some [bytes ++ drop (length bytes) t]) /\
  snd <$> select_handle buffer (fun _ => true) (fun _ => Some bytes) [STDIN_FILENO] =
    Some [bytes ++ drop (length bytes) t] /\
  snd <$> select_handle buffer (fun _ => true) (fun _ => None) [STDIN_FILENO] = Some [t].
Proof.
  intros Hh Hb Hl. destruct (store_stale buffer t bytes Hh Hb Hl) as (buf & E & Hbuf).
  apply holds_text in Hbuf as [_ Et]. split_and!.
  - intros Hne. unfold poll_handle. change (negb (Z.land POLLIN POLLIN =? 0)) with true. cbn iota.
    rewrite E. bind_simpl. rewrite (proj2 (Z.ltb_lt 0 _)) by (destruct bytes; [done|cbn [length]; lia]).
    by rewrite Et.
  - cbn [select_handle]. change (default [] (Some bytes)) with bytes. rewrite E. bind_simpl. by rewrite Et.
  - cbn [select_handle]. change (default [] None) with (@nil Z).
    destruct (store_stale buffer t [] Hh ltac:(set_solver) ltac:(cbn; lia))
      as (buf' & E' & Hbuf'). rewrite E'. bind_simpl. apply holds_text in Hbuf' as [_ Et'].
    cbn [length drop app] in Et'. by rewrite Et'.
Qed.

(** ** libevent *)

(* src/demo_libevent/demo_libevent.c:18-18 BUFFER_LEN *)
Definition BUFFER_LEN : nat := 1024.

(** [\t recv %s] *)
Definition recv_text (text : list Z) : list Z := [9; 32; 114; 101; 99; 118; 32] ++ text.

(** What is printed and what is written back. [junk] is what [msg] contains before. *)
(* src/demo_libevent/demo_libevent.c:19-36 on_read *)
Definition on_read (buffer junk : list Z) (recv : option (list Z)) : option (option (list Z * list Z)) :=
  match recv with
  | None | Some [] => Some None
  | Some bytes =>
      buffer ← read_text buffer bytes;
      text ← text_in buffer;
      let '(stored, msg_len) := snprintf (recv_text text) 64 in
      msg ← store junk 0 stored;
      _ ← require (msg_len <=? Z.of_nat (length msg));
      Some (Some (text, take (Z.to_nat msg_len) msg))
  end.

Inductive libevent_call := MakeNonblocking (fd : Z) | AddReadEvent (fd : Z).

(* src/demo_libevent/demo_libevent.c:38-58 on_accept *)
Definition on_accept (fd : Z) (accept : option Z) : list libevent_call :=
  match accept with
  | None => []
  | Some client_fd =>
      if client_fd <? 0 then [] else [MakeNonblocking fd; AddReadEvent client_fd]
  end.

(** The length [snprintf] returns is that of the whole text: a message of up to 56 bytes is
    answered as it should be, at 57 the last byte of the answer is a NUL, and from 58 on the
    answer is read from behind the buffer. *)
Theorem on_read_answer buffer junk bytes :
  length buffer = BUFFER_LEN -> length junk = 64%nat -> 0 ∉ bytes ->
  (0 < length bytes < BUFFER_LEN)%nat ->
  on_read buffer junk (Some bytes) =
    if bool_decide (length bytes <= 56)%nat then Some (Some (bytes, recv_text bytes))
    else if bool_decide (length bytes = 57)%nat
    then Some (Some (bytes, take 63 (recv_text bytes) ++ [0]))
    else None.
Proof.
  intros Hb Hj Hn Hl. destruct bytes as [|c bytes']; [cbn in Hl; lia|].
  unfold on_read. set (bytes := c :: bytes') in *.
  pose proof (read_text_spec buffer bytes Hn) as Hr. rewrite Hb, bool_decide_true in Hr by lia.
  destruct Hr as (buf & -> & [_ Et]%holds_text & _). bind_simpl. rewrite Et. bind_simpl.
  assert (length (recv_text bytes) = 7 + length bytes)%nat as Ht by done.
  remember (recv_text bytes) as answer eqn:Ea. clear Ea.
  unfold snprintf. cbn [Z.eqb]. change (Z.to_nat (64 - 1)) with 63%nat. rewrite Ht.
  destruct (store junk 0 (take 63 answer ++ [0])) as [msg|] eqn:E.
  2: { rewrite store_ok in E by (rewrite length_app, length_take; cbn [length]; lia). done. }
  pose proof (store_length _ _ _ _ E) as El.
  rewrite store_ok in E by (rewrite length_app, length_take; cbn [length]; lia).
  injection E as <-. bind_simpl. rewrite El, Hj, Nat2Z.id.
  destruct (decide (length bytes <= 57)%nat) as [Hle|Hgt].
  - rewrite (proj2 (Z.leb_le _ _)) by lia. cbn [require]. bind_simpl. rewrite ?take_0, ?app_nil_l.
    case_bool_decide as H56.
    + rewrite (take_ge answer 63) by lia. rewrite <- (assoc_L app), <- Ht, take_app_length. done.
    + rewrite bool_decide_true by lia. do 3 f_equal.
      replace (7 + length bytes)%nat with (length (take 63 answer ++ [0]))
        by (rewrite length_app, length_take, Ht; cbn [length]; lia).
      by rewrite take_app_length.
  - rewrite (proj2 (Z.leb_gt _ _)) by lia. rewrite !bool_decide_false by lia. done.
Qed.

(** It is the listening socket that is made nonblocking, not the accepted one. *)
Theorem on_accept_nonblocking fd client_fd :
  fd <> client_fd -> MakeNonblocking client_fd ∉ on_accept fd (Some client_fd).
Proof. unfold on_accept. intros Hne. case_match; set_solver. Qed.

(** ** Witnesses *)

Definition hello : list Z := [104; 101; 108; 108; 111].

Lemma epoll_prints_input_witness :
  snd <$> epoll_loop (replicate 8 7) [None; Some [EpollEvent 0 1 (Some hello)]; Some []] = Some [hello].
Proof.
  assert (0 ∉ hello) as Hn by (unfold hello; rewrite !elem_of_cons, elem_of_nil; lia).
  rewrite (epoll_prints_input (replicate 8 7) [None; Some [EpollEvent 0 1 (Some hello)]; Some []]).
  - reflexivity.
  - repeat constructor.
  - repeat (apply Forall_cons_2 || apply Forall_nil_2). by split_and!.
Defined.

Lemma unterminated_input_witness :
  ([33] <> [] -> snd <$> poll_handle (hello ++ [0]) POLLIN (Some [33]) = Some [33 :: drop 1 hello]) /\
  snd <$> select_handle (hello ++ [0]) (fun _ => true) (fun _ => Some [33]) [STDIN_FILENO] =
    Some [33 :: drop 1 hello] /\
  snd <$> select_handle (hello ++ [0]) (fun _ => true) (fun _ => None) [STDIN_FILENO] = Some [hello].
Proof.
  apply (unterminated_input (hello ++ [0]) hello [33]).
  - split; [unfold hello; rewrite !elem_of_cons, elem_of_nil; lia|by exists []].
  - rewrite elem_of_cons, elem_of_nil. lia.
  - cbn. lia.
Defined.

Lemma on_read_answer_witness :
  on_read (replicate BUFFER_LEN 7) (replicate 64 7) (Some hello) = Some (Some (hello, recv_text hello)).
Proof.
  rewrite (on_read_answer (replicate BUFFER_LEN 7) (replicate 64 7) hello).
  - reflexivity.
  - by rewrite length_replicate.
  - by rewrite length_replicate.
  - unfold hello. rewrite !elem_of_cons, elem_of_nil. lia.
  - unfold BUFFER_LEN. cbn. lia.
Defined.

Lemma on_accept_nonblocking_witness : MakeNonblocking 7 ∉ on_accept 3 (Some 7).
Proof. apply (on_accept_nonblocking 3 7). lia. Defined.
