(* ===== verification/Zmq.v ===== *)
(** Texts over ZeroMQ: src/demo_zmq/common/zmq-util.h and the programs that use it, the weather
    publisher (pub/demo_pub.c) and its subscriber (sub/demo_sub.c), and the replies of
    server/demo_zmq_server.c.

    The library is not under src/: what [zmq_recv] stores, the results of sending and the memory
    available are arguments, and what the programs rely on of a socket are hypotheses. [None] is
    undefined behaviour. *)

From S2P Require Import Prelude Double CString.

(** ** Sending and receiving texts *)

(** [zmq_recv] stores as much of the message as there is room for and returns the length of all of
    it, or -1 ([None]). [buffer] is the array of [max_len] bytes, [Some None] the null pointer. *)
(* src/demo_zmq/common/zmq-util.h:19-33 s_recv *)
Definition s_recv (zmq_recv : option (list Z)) (strdup_ok : bool) (buffer : list Z) (max_len : Z)
    : option (option (list Z)) :=
  if max_len <=? 0 then Some None
  else
    let max_len := max_len - 1 in
    match zmq_recv with
    | None => Some None
    | Some msg =>
        buffer ← store buffer 0 (take (Z.to_nat max_len) msg);
        let size := Z.of_nat (length msg) in
        let size := if max_len <? size then max_len else size in
        buffer ← store buffer (Z.to_nat size) [0];
        text ← text_in buffer;
        Some (if strdup_ok then Some text else None)
    end.

Definition EAGAIN : Z := 11.

(** A message is what is handed to the socket, and whether more parts follow. *)
(* src/demo_zmq/common/zmq-util.h:41-44 s_send *)
Definition s_send {Socket : Type} (zmq_send : Socket -> list Z -> bool -> Socket * Z) (socket : Socket)
    (msg : list Z) : Socket * Z :=
  zmq_send socket (c_string msg) true.

(** The result and whether the message was closed; [zmq_msg_send] gives its result and [errno].
    [None] is a failed assertion. *)
(* src/demo_zmq/common/zmq-util.h:52-66 s_send_msg *)
Definition s_send_msg (init_ok : bool) (zmq_msg_send : list Z -> Z * Z) (msg : list Z) : option (Z * bool) :=
  _ ← require init_ok;
  let '(s_len, errno) := zmq_msg_send (c_string msg) in
  if (s_len =? -1) && (errno =? EAGAIN) then Some (EAGAIN, false) else Some (i32 s_len, true).

(** The buffer returned, and [*s_len] if there is room for it. *)
(* src/demo_zmq/common/zmq-util.h:74-89 s_recv_msg *)
Definition s_recv_msg (zmq_msg_recv : option (list Z)) (malloc_ok : bool) : option (list Z * Z) :=
  msg ← zmq_msg_recv;
  _ ← require malloc_ok;
  Some (msg ++ [0], i32 (Z.of_nat (length msg))).

(** ** The weather *)

(** [sprintf(update, "%05d %d %d", ...)] *)
Definition update_text (zipcode temperature relhumidity : Z) : list Z :=
  padded 5 zipcode ++ 32 :: format_d temperature ++ 32 :: format_d relhumidity.

(** One update from two results of [random]: the array [update] behind [sprintf]. *)
(* src/demo_zmq/pub/demo_pub.c:24-32 main *)
Definition update (junk : list Z) (random1 random2 : Z) : option (list Z) :=
  let zipcode := 10001 in
  let temperature := Z.rem random1 215 - 80 in
  let relhumidity := Z.rem random2 50 + 10 in
  store junk 0 (update_text zipcode temperature relhumidity ++ [0]).

(** The loop of the publisher, for the results of [random] so far: the socket, which was handed
    what [s_send] passes on, and the texts that are printed. *)
(* src/demo_zmq/pub/demo_pub.c:22-35 main *)
Fixpoint publish {Socket : Type} (zmq_send : Socket -> list Z -> bool -> Socket * Z) (junk : list Z)
    (publisher : Socket) (randoms : list (Z * Z)) : option (Socket * list (list Z)) :=
  match randoms with
  | [] => Some (publisher, [])
  | (r1, r2) :: randoms =>
      buf ← update junk r1 r2;
      text ← text_in buf;
      let '(publisher, _) := s_send zmq_send publisher buf in
      '(publisher, texts) ← publish zmq_send buf publisher randoms;
      Some (publisher, text :: texts)
  end.

(** [%d]: white space, a sign, and at least one digit; a value that is not an [int] is undefined
    behaviour. [Some None] is a text that does not match. *)
Fixpoint scan_digits (s : list Z) (n : Z) : Z * list Z :=
  match s with
  | c :: rest => if is_digit c then scan_digits rest (n * 10 + (c - 48)) else (n, s)
  | [] => (n, [])
  end.

Definition scan_d (s : list Z) : option (option (Z * list Z)) :=
  let s := scan_space s in
  let '(sign, s) := match s with
    | c :: rest => if c =? 45 then (-1, rest) else if c =? 43 then (1, rest) else (1, s)
    | [] => (1, s) end in
  match s with
  | c :: _ =>
      if is_digit c then
        let '(n, rest) := scan_digits s 0 in
        _ ← require ((INT_MIN <=? sign * n) && (sign * n <=? INT_MAX));
        Some (Some (sign * n, rest))
      else Some None
  | [] => Some None
  end.

(** The variable [temperature] behind [sscanf(string, "%d %d %d", ...)]: [None] is indeterminate,
    and so is what is computed from it. *)
(* src/demo_zmq/sub/demo_sub.c:27-29 main *)
Definition scan_temperature (string : list Z) : option Z :=
  zipcode ← scan_d string;
  '(_, rest) ← zipcode;
  temperature ← scan_d rest;
  '(temperature, rest) ← temperature;
  _ ← scan_d rest;
  Some temperature.

(** [string] is the null pointer when receiving failed. *)
(* src/demo_zmq/sub/demo_sub.c:24-32 main *)
Fixpoint sub_loop (buffer : list Z) (total_temp : Z) (messages : list (option (list Z))) : option Z :=
  match messages with
  | [] => Some total_temp
  | message :: messages =>
      string ← s_recv message true buffer 256;
      string ← string;
      temperature ← scan_temperature string;
      sub_loop buffer (total_temp + temperature) messages
  end.

(** The average that is printed, for 100 messages. *)
(* src/demo_zmq/sub/demo_sub.c:22-34 main *)
Definition subscribe (buffer : list Z) (messages : list (option (list Z))) : option Z :=
  _ ← require (bool_decide (length messages = 100%nat));
  total_temp ← sub_loop buffer 0 messages;
  Some (i32 (Z.quot total_temp 100)).

(** ** The server *)

(** The request sizes the server reports; each round begins by sending an empty message.
    [zmq_msg_send] takes the arguments as this program passes them, the socket first; the library
    expects the message first, as zmq-util.h passes it. *)
(* src/demo_zmq/server/demo_zmq_server.c:17-36 main *)
Fixpoint serve_replies {Socket : Type} (zmq_msg_send : Socket -> list Z -> Socket * Z) (rounds : nat)
    (responder : Socket) : Socket * list Z :=
  match rounds with
  | O => (responder, [])
  | S rounds =>
      let '(responder, r) := zmq_msg_send responder [] in
      if r =? -1 then serve_replies zmq_msg_send rounds responder
      else
        let '(responder, _) := zmq_msg_send responder [87; 111; 114; 108; 100] in
        let '(responder, rs) := serve_replies zmq_msg_send rounds responder in
        (responder, r :: rs)
  end.

(** ** Receiving *)

(** Whatever the message, it is received inside the buffer: its text up to the room there is. *)
Theorem s_recv_spec buffer msg max_len :
  0 < max_len -> Z.of_nat (length buffer) = max_len ->
  s_recv (Some msg) true buffer max_len = Some (Some (c_string (take (Z.to_nat (max_len - 1)) msg))).
Proof.
  intros Hm Hb. unfold s_recv. destruct (Z.leb_spec max_len 0); [lia|].
  set (part := take (Z.to_nat (max_len - 1)) msg).
  assert (length part < length buffer)%nat as Hl by (unfold part; rewrite length_take; lia).
  replace (Z.to_nat (if max_len - 1 <? Z.of_nat (length msg) then max_len - 1 else Z.of_nat (length msg)))
    with (length part) by (unfold part; rewrite length_take; case_match eqn:E; lia).
  destruct (lookup_lt_is_Some_2 buffer _ Hl) as [z Hz].
  pose proof (store_app [] (take (length part) buffer) (z :: drop (S (length part)) buffer) part) as E1.
  cbn [app length] in E1. rewrite take_drop_middle in E1 by done.
  rewrite E1 by (rewrite length_take; lia). bind_simpl.
  pose proof (store_app part [z] (drop (S (length part)) buffer) [0] eq_refl) as E2.
  cbn [app] in E2. rewrite E2. bind_simpl. unfold text_in. rewrite bool_decide_true by set_solver.
  bind_simpl. by rewrite c_string_end.
Qed.

(** A text sent as a message is received as the same text with its length. *)
Theorem msg_roundtrip send msg :
  0 ∉ msg -> Z.of_nat (length msg) <= INT_MAX ->
  send msg = (Z.of_nat (length msg), 0) ->
  s_send_msg true send msg = Some (Z.of_nat (length msg), true) /\
  s_recv_msg (Some (c_string msg)) true = Some (msg ++ [0], Z.of_nat (length msg)).
Proof.
  unfold INT_MAX. intros Hn Hl Hs. unfold s_send_msg, s_recv_msg. rewrite c_string_whole, Hs by done.
  cbn [require]. bind_simpl. destruct (Z.eqb_spec (Z.of_nat (length msg)) (-1)); [lia|]. cbn [andb].
  by rewrite i32_small by (unfold INT_MIN, INT_MAX; lia).
Qed.

(** The result of a full queue is also the length of a message of 11 bytes; the message that was
    not sent is not closed. *)
Theorem full_queue_looks_sent (busy idle : list Z -> Z * Z) msg :
  busy (c_string msg) = (-1, EAGAIN) -> idle (c_string msg) = (Z.of_nat (length (c_string msg)), 0) ->
  length (c_string msg) = 11%nat ->
  s_send_msg true busy msg = Some (11, false) /\ s_send_msg true idle msg = Some (11, true).
Proof. unfold s_send_msg. intros -> -> ->. by split. Qed.

(** ** The numbers of a text *)

(** The text goes on with something else than a digit. *)
Definition no_digit (rest : list Z) : Prop := match rest with [] => True | c :: _ => is_digit c = false end.

Lemma scan_digits_app l rest n :
  Forall digit_code l -> scan_digits (l ++ rest) n = scan_digits rest (digits_value n l).
Proof.
  intros Hl. revert n. induction Hl as [|c l Hc _ IH]; intros n; [done|]. cbn [app scan_digits digits_value fold_left].
  unfold is_digit. unfold digit_code in Hc. rewrite (proj2 (Z.leb_le 48 c)), (proj2 (Z.leb_le c 57)) by lia.
  apply IH.
Qed.

Lemma scan_digits_stop rest n : no_digit rest -> scan_digits rest n = (n, rest).
Proof. destruct rest as [|c rest]; [done|]. cbn. by intros ->. Qed.

Lemma dec_first_digit n : 0 <= n -> exists c l, dec n = c :: l /\ digit_code c.
Proof.
  intros Hn. pose proof (dec_digits n Hn) as Hd. destruct (dec n) as [|c l] eqn:E.
  - pose proof (dec_value n Hn) as Hv. rewrite E in Hv. cbn in Hv. subst n. by vm_compute in E.
  - apply Forall_cons in Hd as [Hc _]. by exists c, l.
Qed.

Lemma scan_d_dec sign n rest :
  sign = 1 \/ sign = -1 -> 0 <= n -> INT_MIN <= sign * n <= INT_MAX -> no_digit rest ->
  (let '(m, r) := scan_digits (dec n ++ rest) 0 in
   _ ← require ((INT_MIN <=? sign * m) && (sign * m <=? INT_MAX)); Some (Some (sign * m, r))) =
  Some (Some (sign * n, rest)).
Proof.
  intros Hs Hn Hb Hr. rewrite scan_digits_app, dec_value, scan_digits_stop by (by apply dec_digits || done).
  rewrite (proj2 (Z.leb_le _ _)), (proj2 (Z.leb_le _ _)) by lia. done.
Qed.

Lemma scan_d_format_d z rest :
  INT_MIN <= z <= INT_MAX -> no_digit rest -> scan_d (format_d z ++ rest) = Some (Some (z, rest)).
Proof.
  intros Hz Hr. unfold format_d. destruct (Z.ltb_spec z 0).
  - destruct (dec_first_digit (- z) ltac:(lia)) as (c & l & E & Hc).
    pose proof (scan_d_dec (-1) (- z) rest ltac:(by right) ltac:(lia) ltac:(lia) Hr) as Hd.
    rewrite E in *. unfold scan_d. cbn [app scan_space is_space].
    change (is_space 45) with false. cbn iota. cbn [Z.eqb Pos.eqb]. cbn [app] in *.
    assert (is_digit c = true) as -> by (unfold is_digit; unfold digit_code in Hc; lia).
    rewrite Hd. do 3 f_equal. lia.
  - destruct (dec_first_digit z ltac:(lia)) as (c & l & E & Hc).
    pose proof (scan_d_dec 1 z rest ltac:(by left) ltac:(lia) ltac:(lia) Hr) as Hd.
    rewrite E in *. unfold scan_d. cbn [app scan_space]. unfold digit_code in Hc.
    assert (is_space c = false) as -> by (unfold is_space; lia).
    rewrite (proj2 (Z.eqb_neq c 45)), (proj2 (Z.eqb_neq c 43)) by lia.
    assert (is_digit c = true) as -> by (unfold is_digit; lia). cbn [app] in *.
    rewrite Hd. do 3 f_equal. lia.
Qed.

Lemma scan_d_space s : scan_d (32 :: s) = scan_d s.
Proof. done. Qed.

(** ** The weather *)

Definition temperature (random : Z) : Z := Z.rem random 215 - 80.
Definition relhumidity (random : Z) : Z := Z.rem random 50 + 10.

Lemma weather_range r1 r2 :
  0 <= r1 -> 0 <= r2 -> -80 <= temperature r1 <= 134 /\ 10 <= relhumidity r2 <= 59.
Proof.
  intros H1 H2. unfold temperature, relhumidity.
  pose proof (Z.rem_bound_pos r1 215 H1 ltac:(lia)). pose proof (Z.rem_bound_pos r2 50 H2 ltac:(lia)). lia.
Qed.

(** The text of an update has no NUL, fits the buffer, and has the temperature in it. *)
Lemma update_text_ok t rh :
  -80 <= t <= 134 -> 10 <= rh <= 59 ->
  0 ∉ update_text 10001 t rh /\ (length (update_text 10001 t rh) <= 12)%nat /\
  scan_temperature (update_text 10001 t rh) = Some t.
Proof.
  intros Ht Hh. unfold update_text. change (padded 5 10001) with [49; 48; 48; 48; 49]. split_and!.
  - pose proof (format_d_no_nul t). pose proof (format_d_no_nul rh).
    intros [Hin|[?|[?|[?|?]%elem_of_cons]%elem_of_app]%elem_of_cons]%elem_of_app; try done.
    rewrite !elem_of_cons, elem_of_nil in Hin. lia.
  - assert (length (format_d t) <= 3)%nat as H1.
    { unfold format_d. destruct (Z.ltb_spec t 0).
      - pose proof (dec_length 2 (- t)) as Hl. cbn [length]. lia.
      - pose proof (dec_length 3 t) as Hl. lia. }
    assert (length (format_d rh) <= 2)%nat as H2.
    { unfold format_d. destruct (Z.ltb_spec rh 0); [lia|]. pose proof (dec_length 2 rh) as Hl. lia. }
    cbn [app length]. rewrite length_app. cbn [length]. lia.
  - unfold scan_temperature. change ([49; 48; 48; 48; 49]) with (format_d 10001).
    unfold INT_MIN, INT_MAX in *.
    rewrite scan_d_format_d by (unfold INT_MIN, INT_MAX; done || lia). bind_simpl.
    rewrite scan_d_space, scan_d_format_d by (unfold INT_MIN, INT_MAX; done || lia). bind_simpl.
    rewrite scan_d_space, <- (app_nil_r (format_d rh)).
    by rewrite scan_d_format_d by (unfold INT_MIN, INT_MAX; done || lia).
Qed.

Definition weather (randoms : list (Z * Z)) : list (list Z) :=
  (fun '(r1, r2) => update_text 10001 (temperature r1) (relhumidity r2)) <$> randoms.

Definition randoms_ok (randoms : list (Z * Z)) : Prop := Forall (fun r => 0 <= fst r /\ 0 <= snd r) randoms.

Lemma update_spec junk r1 r2 :
  length junk = 20%nat -> 0 <= r1 -> 0 <= r2 ->
  exists buf, update junk r1 r2 = Some buf /\
    holds buf (update_text 10001 (temperature r1) (relhumidity r2)) /\ length buf = 20%nat.
Proof.
  intros Hj H1 H2. destruct (weather_range r1 r2 H1 H2) as [Ht Hh].
  destruct (update_text_ok _ _ Ht Hh) as (Hn & Hl & _).
  destruct (store_text junk _ Hn ltac:(lia)) as (buf & E & Hh' & Hb).
  exists buf. split; [exact E|]. split; [done|lia].
Qed.

Section Publisher.
(** [parts] is what was handed to the socket so far. *)
Context {Socket : Type} (zmq_send : Socket -> list Z -> bool -> Socket * Z).
Context (parts : Socket -> list (list Z)).
Context (Hparts : forall s part more, parts (fst (zmq_send s part more)) = parts s ++ [part]).

Lemma s_send_parts s buf t :
  holds buf t -> exists s' n, s_send zmq_send s buf = (s', n) /\ parts s' = parts s ++ [t].
Proof using Hparts.
  intros [_ Ht]%holds_text. unfold s_send. unfold text_in in Ht. case_bool_decide; [|done].
  injection Ht as ->. pose proof (Hparts s t true) as Hp.
  destruct (zmq_send s t true) as [s' n]. by exists s', n.
Qed.

(** What is printed is what is handed to the socket. *)
Lemma publish_spec randoms :
  randoms_ok randoms -> forall junk s, length junk = 20%nat ->
  exists s', publish zmq_send junk s randoms = Some (s', weather randoms) /\
    parts s' = parts s ++ weather randoms.
Proof using Hparts.
  induction 1 as [|[r1 r2] randoms [H1 H2] _ IH]; intros junk s Hj.
  { exists s. by rewrite app_nil_r. }
  cbn [fst snd] in *. destruct (update_spec junk r1 r2 Hj H1 H2) as (buf & E & Hh & Hb).
  cbn [publish]. rewrite E. bind_simpl. pose proof (holds_text _ _ Hh) as [_ Et]. rewrite Et. bind_simpl.
  destruct (s_send_parts s buf _ Hh) as (s1 & n & -> & Hp).
  destruct (IH buf s1 Hb) as (s2 & -> & Hp2). exists s2. split; [done|].
  by rewrite Hp2, Hp, <- (assoc_L app).
Qed.
End Publisher.

Definition sum (l : list Z) : Z := foldr Z.add 0 l.

Lemma sub_loop_spec buffer randoms :
  length buffer = 256%nat -> randoms_ok randoms -> forall total,
  sub_loop buffer total (Some <$> weather randoms) = Some (total + sum ((temperature ∘ fst) <$> randoms)).
Proof.
  intros Hb. induction 1 as [|[r1 r2] randoms [H1 H2] _ IH]; intros total; cbn [fmap list_fmap sum foldr].
  - cbn. f_equal. lia.
  - cbn [fst snd] in *. destruct (weather_range r1 r2 H1 H2) as [Ht Hh].
    destruct (update_text_ok _ _ Ht Hh) as (Hn & Hl & Es). cbn [weather fmap list_fmap sub_loop].
    rewrite s_recv_spec by lia. bind_simpl. change (Z.to_nat (256 - 1)) with 255%nat.
    rewrite take_ge, c_string_whole, Es by (done || lia). bind_simpl. fold (weather randoms).
    change (list_fmap _ _ Some (weather randoms)) with (Some <$> weather randoms).
    rewrite IH. f_equal. unfold sum. cbn [compose fst]. lia.
Qed.

Lemma sum_bounds a b l : Forall (fun x => a <= x <= b) l ->
  a * Z.of_nat (length l) <= sum l <= b * Z.of_nat (length l).
Proof. unfold sum. induction 1 as [|x l Hx _ IH]; cbn [foldr length]; lia. Qed.

(** The text of a pair of random numbers: the zip code, the temperature and the humidity. *)
Definition report (r : Z * Z) : list Z :=
  [49; 48; 48; 48; 49; 32] ++ format_d (temperature (fst r)) ++ [32] ++ format_d (relhumidity (snd r)).

Lemma weather_reports randoms : weather randoms = report <$> randoms.
Proof. unfold weather. apply list_fmap_ext. by intros i [r1 r2] _. Qed.

Lemma weather_fits randoms :
  randoms_ok randoms -> Forall (fun text => (length text < 20)%nat) (weather randoms).
Proof.
  intros Hr. apply Forall_fmap. eapply Forall_impl; [exact Hr|]. intros [r1 r2] [H1 H2].
  destruct (weather_range r1 r2 H1 H2) as [Ht Hh]. destruct (update_text_ok _ _ Ht Hh) as (_ & Hlen & _).
  change (length (update_text 10001 (temperature r1) (relhumidity r2)) < 20)%nat. lia.
Qed.

Lemma average_range randoms :
  length randoms = 100%nat -> randoms_ok randoms ->
  -80 <= Z.quot (sum ((temperature ∘ fst) <$> randoms)) 100 <= 134.
Proof.
  intros Hl Hr. pose proof (sum_bounds (-80) 134 ((temperature ∘ fst) <$> randoms)) as Hs.
  rewrite length_fmap, Hl in Hs.
  assert (Forall (fun x => -80 <= x <= 134) ((temperature ∘ fst) <$> randoms)) as Hf.
  { apply Forall_fmap. eapply Forall_impl; [exact Hr|]. intros [r1 r2] [H1 H2].
    by apply (weather_range r1 r2). }
  specialize (Hs Hf). Z.to_euclidean_division_equations. lia.
Qed.

(** C36. From the publisher to the subscriber, over any socket of which it is known what it was
    handed ([parts]). Whatever the 100 pairs of random numbers, the publisher stays inside its
    buffer of 20 bytes and hands the socket the texts of these pairs, which it also prints; a
    subscriber that receives what the socket was handed prints the average of the temperatures,
    rounded towards zero. *)
Theorem weather_average {Socket : Type} (zmq_send : Socket -> list Z -> bool -> Socket * Z)
    (parts : Socket -> list (list Z)) junk s buffer randoms :
  (forall s part more, parts (fst (zmq_send s part more)) = parts s ++ [part]) ->
  length junk = 20%nat -> length buffer = 256%nat -> length randoms = 100%nat -> randoms_ok randoms ->
  exists s' sent, publish zmq_send junk s randoms = Some (s', sent) /\ parts s' = parts s ++ sent /\
    sent = report <$> randoms /\ Forall (fun text => (length text < 20)%nat) sent /\
    subscribe buffer (Some <$> sent) = Some (Z.quot (sum ((temperature ∘ fst) <$> randoms)) 100) /\
    -80 <= Z.quot (sum ((temperature ∘ fst) <$> randoms)) 100 <= 134.
Proof.
  intros Hp Hj Hb Hl Hr. destruct (publish_spec zmq_send parts Hp randoms Hr junk s Hj) as (s' & E & Es).
  pose proof (average_range randoms Hl Hr) as Hq.
  exists s', (weather randoms). split_and!; [done|done|apply weather_reports|by apply weather_fits| |lia|lia].
  unfold subscribe. rewrite bool_decide_true by (rewrite length_fmap; unfold weather; by rewrite length_fmap).
  cbn [require]. bind_simpl. rewrite sub_loop_spec by done. bind_simpl.
  rewrite Z.add_0_l, i32_small by (unfold INT_MIN, INT_MAX; lia). done.
Qed.

(** A part that is sent with [ZMQ_SNDMORE] is not delivered before the last part of its message is
    sent. The publisher sends no last part, so no subscriber receives anything. *)
Theorem publisher_delivers_nothing {Socket : Type} (zmq_send : Socket -> list Z -> bool -> Socket * Z)
    (delivered : Socket -> list (list Z)) :
  (forall s part, delivered (fst (zmq_send s part true)) = delivered s) ->
  forall randoms junk s s' texts,
  publish zmq_send junk s randoms = Some (s', texts) -> delivered s' = delivered s.
Proof.
  intros Hmore. induction randoms as [|[r1 r2] randoms IH]; intros junk s s' texts; cbn [publish].
  { by intros [= <- _]. }
  intros E. invert_binds. unfold s_send in E.
  pose proof (Hmore s (c_string x)) as Hd.
  destruct (zmq_send s (c_string x) true) as [s1 n]. cbn [fst] in Hd.
  invert_binds. destruct x1 as [s2 texts2]. injection E as <- <-. rewrite <- Hd. by eapply IH.
Qed.

(** A reply socket sends only after it has received (and a call with exchanged arguments finds no
    socket at all): the sends of a server that never receives fail, and it never answers,
    however many requests wait. *)
Theorem server_never_replies {Socket : Type} (zmq_msg_send : Socket -> list Z -> Socket * Z)
    (requested : Socket -> bool) :
  (forall s msg, requested s = false -> zmq_msg_send s msg = (s, -1)) ->
  forall rounds s, requested s = false -> serve_replies zmq_msg_send rounds s = (s, []).
Proof.
  intros Hrep rounds s Hs. induction rounds as [|rounds IH]; [done|]. cbn [serve_replies].
  by rewrite Hrep.
Qed.

(** ** Witnesses *)

Lemma s_recv_spec_witness : s_recv (Some [104; 105; 33]) true [7; 7; 7] 3 = Some (Some [104; 105]).
Proof. apply (s_recv_spec [7; 7; 7] [104; 105; 33] 3); [lia|done]. Defined.

Lemma msg_roundtrip_witness :
  s_send_msg true (fun m => (Z.of_nat (length m), 0)) [104; 105] = Some (2, true) /\
  s_recv_msg (Some (c_string [104; 105])) true = Some ([104; 105; 0], 2).
Proof.
  apply (msg_roundtrip (fun m => (Z.of_nat (length m), 0)) [104; 105]).
  - rewrite !elem_of_cons, elem_of_nil. lia.
  - unfold INT_MAX. cbn. lia.
  - reflexivity.
Defined.

Lemma full_queue_looks_sent_witness :
  s_send_msg true (fun _ => (-1, EAGAIN)) (replicate 11 97) = Some (11, false) /\
  s_send_msg true (fun m => (Z.of_nat (length m), 0)) (replicate 11 97) = Some (11, true).
Proof. apply (full_queue_looks_sent (fun _ => (-1, EAGAIN)) (fun m => (Z.of_nat (length m), 0))); done. Defined.

(** A socket is the list of the parts that wait for the last one and the messages delivered. *)
Definition sample_send (s : list (list Z) * list (list Z)) (part : list Z) (more : bool)
    : (list (list Z) * list (list Z)) * Z :=
  (if more then (part :: fst s, snd s) else ([], concat (rev (part :: fst s)) :: snd s),
   Z.of_nat (length part)).

Definition sample_randoms : list (Z * Z) := replicate 99 (0, 7) ++ [(1000, 1)].

(** A socket that only keeps what it is handed. *)
Definition sample_log (s : list (list Z)) (part : list Z) (more : bool) : list (list Z) * Z :=
  (s ++ [part], Z.of_nat (length part)).

Lemma weather_average_witness :
  exists s' sent, publish sample_log (replicate 20 7) [] sample_randoms = Some (s', sent) /\ s' = [] ++ sent /\
    sent = report <$> sample_randoms /\ Forall (fun text => (length text < 20)%nat) sent /\
    subscribe (replicate 256 7) (Some <$> sent) = Some (Z.quot (sum ((temperature ∘ fst) <$> sample_randoms)) 100) /\
    -80 <= Z.quot (sum ((temperature ∘ fst) <$> sample_randoms)) 100 <= 134.
Proof.
  apply (weather_average sample_log id (replicate 20 7) [] (replicate 256 7) sample_randoms).
  - reflexivity.
  - reflexivity.
  - by rewrite length_replicate.
  - reflexivity.
  - unfold randoms_ok, sample_randoms. apply Forall_app. split; [apply Forall_replicate; cbn; lia|].
    repeat constructor; cbn; lia.
Defined.

Lemma publisher_delivers_nothing_witness :
  exists s' texts, publish sample_send (replicate 20 7) ([], []) [(1, 2); (3, 4)] = Some (s', texts) /\
    snd s' = [].
Proof.
  eexists _, _. split; [vm_compute; reflexivity|].
  apply (publisher_delivers_nothing sample_send snd ltac:(reflexivity) [(1, 2); (3, 4)]
    (replicate 20 7) ([], []) _ _ eq_refl).
Defined.

Lemma server_never_replies_witness :
  serve_replies (fun (s : bool) (msg : list Z) => if s then (false, 5) else (s, -1)) 3 false = (false, []).
Proof.
  apply (server_never_replies (fun (s : bool) (msg : list Z) => if s then (false, 5) else (s, -1)) id);
    [|done]. intros [] msg; done.
Defined.
