(* ===== verification/FileMagic.v ===== *)
(** Reading files for libmagic, src/demo_magic/demo_magic.c: the content of a file in memory, the
    head and the tail that are looked at, and the loop with the [goto] at the end of [main].

    [fread] and libmagic are not under src/: the blocks a file is read in are an argument, and
    the calls of libmagic are what they are given. Memory is taken to be available. Undefined
    behaviour is a value that says which access is at fault. *)

From S2P Require Import Prelude CString.

(** The first access that is not allowed: [n] bytes are read behind the null pointer, [n] bytes
    are read at an offset of a block they are not in, or one byte is stored there. *)
Inductive fault :=
  | NullRead (n : nat)
  | ReadBehind (offset n : nat) (block : list Z)
  | StoreBehind (offset : nat) (block : list Z).

(** What a part of the program gives, unless it is at fault. *)
Definition result (A : Type) : Type := fault + A.

#[global] Instance result_bind : MBind result :=
  fun A B f r => match r with inl e => inl e | inr x => f x end.

Ltac result_simpl := cbn [mbind result_bind].

(** The [n] bytes at [offset] of what [src] points to. No byte is read when [n] is 0. *)
Definition read_bytes (src : option (list Z)) (offset n : nat) : result (list Z) :=
  if bool_decide (n = 0%nat) then inr []
  else match src with
    | None => inl (NullRead n)
    | Some block =>
        if bool_decide (offset + n <= length block)%nat then inr (take n (drop offset block))
        else inl (ReadBehind offset n block)
    end.

(** [block[offset] = c;] *)
Definition store_byte (block : list Z) (offset : nat) (c : Z) : result (list Z) :=
  if bool_decide (offset < length block)%nat then inr (<[offset := c]> block)
  else inl (StoreBehind offset block).

(** The pointers of [main] (a null pointer is [None]), and how many blocks were lost. *)
Record content_state := Content {
  content : option (list Z);
  tmp_content : option (list Z);
  content_len : nat;
  lost : nat;
}.

(** One block of the file is put behind the content. *)
(* src/demo_magic/demo_magic.c:61-72 main *)
Definition read_block (st : content_state) (buf : list Z) : result content_state :=
  '(tmp, lost) ← (if (0 <? content_len st)%nat then
      tmp ← read_bytes (content st) 0 (content_len st);
      inr (Some tmp, lost st + if tmp_content st then 1 else 0)%nat
    else inr (tmp_content st, lost st));
  old ← read_bytes tmp 0 (content_len st);
  inr (Content (Some (old ++ buf)) tmp (content_len st + length buf) lost).

(* src/demo_magic/demo_magic.c:61-72 main *)
Fixpoint read_content (st : content_state) (blocks : list (list Z)) : result content_state :=
  match blocks with
  | [] => inr st
  | buf :: blocks => st ← read_block st buf; read_content st blocks
  end.

(** What [printf("%02X", c)] is given for each of the first [k] bytes: a [char] is signed. *)
(* src/demo_magic/demo_magic.c:26-33 display_k *)
Definition display_k (content : option (list Z)) (k : nat) : result (list Z) :=
  bytes ← read_bytes content 0 k; inr ((fun c => u32 (i8 c)) <$> bytes).

(** The head and the tail of the content. When the content is shorter than the tail, the pointer
    is before the block. *)
(* src/demo_magic/demo_magic.c:81-84 main *)
Definition sub_content (content : option (list Z)) (content_len head_len tail_len : nat) : result (list Z) :=
  head ← read_bytes content 0 head_len;
  tail ← (if bool_decide (tail_len <= content_len)%nat
          then read_bytes content (content_len - tail_len) tail_len
          else inl (ReadBehind 0 tail_len (default [] content)));
  inr (head ++ tail).

(** One file of the table: what is displayed and the two buffers libmagic looks at. *)
(* src/demo_magic/demo_magic.c:60-95 main *)
Definition look_at (head_len tail_len : nat) (blocks : list (list Z))
    : result (list Z * list Z * list Z) :=
  st ← read_content (Content None None 0 0) blocks;
  content' ← (match content st with
    | Some bytes =>
        if (0 <? content_len st)%nat
        then bytes ← store_byte bytes (content_len st) 0; inr (Some bytes)
        else inr (Some bytes)
    | None => inr None
    end);
  shown ← display_k content' 8;
  all ← read_bytes content' 0 (content_len st);
  sub ← sub_content content' (content_len st) head_len tail_len;
  inr (shown, all, sub).

(** ** The loop with the retry *)

Record retry_state := Retry { num : Z; read_count : Z; send_flag : Z; added : nat }.

Inductive label := LWhile | LRetry.

(** From one of the two labels to the next, [None] at the end of the loop. *)
(* src/demo_magic/demo_magic.c:106-127 main *)
Definition retry_step (socket_total : Z) (at_ : label) (st : retry_state) : option (label * retry_state) :=
  match at_ with
  | LWhile =>
      let num := i32 (num st + 1) in
      if 3 <? num then None else Some (LRetry, Retry num (read_count st) (send_flag st) (added st))
  | LRetry =>
      let read_count := i32 (read_count st + 1) in
      let socket_index := Z.rem read_count socket_total in
      let send_success := if socket_index =? 4 then 0 else -1 in
      if send_success <? 0 then
        let send_flag := Z.lor (send_flag st) (u32 (Z.shiftl 1 socket_index)) in
        if send_flag =? u32 (Z.shiftl 1 socket_total - 1)
        then Some (LWhile, Retry (num st) read_count 0 (added st))
        else Some (LRetry, Retry (num st) read_count send_flag (added st))
      else Some (LWhile, Retry (num st) read_count (send_flag st) (S (added st)))
  end.

Fixpoint retry_loop (fuel : nat) (socket_total : Z) (at_ : label) (st : retry_state) : option retry_state :=
  match fuel with
  | O => None
  | S fuel =>
      match retry_step socket_total at_ st with
      | None => Some st
      | Some (at_, st) => retry_loop fuel socket_total at_ st
      end
  end.

(** ** Properties *)

(** The state while a file is read: the content is what was read, and the copy is one block
    behind. *)
Definition reading (st : content_state) (done' : list (list Z)) : Prop :=
  content_len st = length (concat done') /\
  match done' with
  | [] => content st = None /\ tmp_content st = None /\ lost st = 0%nat
  | _ => content st = Some (concat done') /\ lost st = (length done' - 2)%nat /\
      (tmp_content st = None <-> length done' = 1%nat)
  end.

Lemma read_bytes_whole block n : n = length block -> read_bytes (Some block) 0 n = inr block.
Proof.
  intros ->. unfold read_bytes. case_bool_decide as H0; [by destruct block|].
  rewrite bool_decide_true by lia. by rewrite drop_0, firstn_all.
Qed.

Lemma read_block_spec st done' buf :
  reading st done' -> Forall (fun b => b <> []) done' ->
  exists st', read_block st buf = inr st' /\ reading st' (done' ++ [buf]).
Proof.
  intros [Hl Hst] Hne. unfold read_block. destruct done' as [|b bs].
  - destruct Hst as (Ec & Et & El). cbn [concat length] in Hl. rewrite Hl, Et, El. cbn [Nat.ltb Nat.leb].
    result_simpl. unfold read_bytes. rewrite bool_decide_true by done. result_simpl.
    eexists. split; [done|]. split; [cbn; by rewrite app_nil_r|]. cbn. by rewrite app_nil_r.
  - destruct Hst as (Ec & El & Et). apply Forall_cons in Hne as [Hb _].
    assert (0 < content_len st)%nat as Hpos.
    { rewrite Hl. cbn [concat]. rewrite length_app. destruct b; [done|cbn; lia]. }
    rewrite (proj2 (Nat.ltb_lt _ _) Hpos), Ec, read_bytes_whole by done. result_simpl.
    rewrite read_bytes_whole by done. result_simpl. eexists. split; [done|]. split.
    + cbn [content_len]. rewrite concat_app, length_app. cbn [concat]. rewrite app_nil_r. by rewrite Hl.
    + cbn [app content tmp_content lost]. rewrite app_comm_cons, concat_app, length_app.
      cbn [concat length]. rewrite app_nil_r. split_and!; [done| |].
      * rewrite El. cbn [length]. destruct (tmp_content st); [|].
        -- assert (length (b :: bs) <> 1%nat) by (intros E; by apply Et in E). cbn [length] in *. lia.
        -- pose proof (proj1 Et eq_refl). cbn [length] in *. lia.
      * split; [done|]. cbn [length]. lia.
Qed.

(** The file is put together from its blocks; every block but the first two loses a copy. *)
Theorem read_content_spec blocks :
  Forall (fun b => b <> []) blocks -> blocks <> [] ->
  exists st, read_content (Content None None 0 0) blocks = inr st /\
    content st = Some (concat blocks) /\ content_len st = length (concat blocks) /\
    lost st = (length blocks - 2)%nat.
Proof.
  intros Hb Hne.
  assert (forall rest st done', reading st done' -> Forall (fun b => b <> []) (done' ++ rest) ->
    exists st', read_content st rest = inr st' /\ reading st' (done' ++ rest)) as Hall.
  { induction rest as [|buf rest IH]; intros st done' Hst Hf.
    - exists st. by rewrite app_nil_r.
    - destruct (read_block_spec st done' buf Hst) as (st1 & E & Hst1); [by apply Forall_app in Hf as [? _]|].
      cbn [read_content]. rewrite E. result_simpl.
      destruct (IH st1 (done' ++ [buf]) Hst1) as (st2 & E2 & Hst2); [by rewrite <- (assoc_L app)|].
      rewrite <- (assoc_L app) in Hst2. by exists st2. }
  destruct (Hall blocks (Content None None 0 0) []) as (st & E & Hl & Hst); [by split_and!|done|].
  cbn [app] in *. exists st. split; [done|]. destruct blocks as [|b bs]; [done|].
  by destruct Hst as (Ec & El & _).
Qed.

Lemma concat_pos (blocks : list (list Z)) :
  Forall (fun b => b <> []) blocks -> blocks <> [] -> (0 < length (concat blocks))%nat.
Proof.
  intros Hb Hne. destruct blocks as [|b bs]; [done|]. apply Forall_cons in Hb as [Hb _]. cbn [concat].
  rewrite length_app. destruct b; [done|cbn; lia].
Qed.

(** C27. No file can be looked at. Of a file with content the blocks are all read and put
    together, and then the NUL is stored right behind the block of exactly that content; of an
    empty file the first 8 bytes are displayed from the null pointer. *)
Theorem look_at_fails head_len tail_len blocks :
  Forall (fun b => b <> []) blocks ->
  look_at head_len tail_len blocks =
    match blocks with
    | [] => inl (NullRead 8)
    | _ => inl (StoreBehind (length (concat blocks)) (concat blocks))
    end.
Proof.
  intros Hb. unfold look_at. destruct (decide (blocks = [])) as [->|Hne]; [done|].
  pose proof (concat_pos blocks Hb Hne) as Hpos.
  destruct (read_content_spec blocks Hb Hne) as (st & -> & Ec & El & _). result_simpl. rewrite Ec, El.
  rewrite (proj2 (Nat.ltb_lt _ _) Hpos). unfold store_byte. rewrite bool_decide_false by lia.
  by destruct blocks.
Qed.

(** Of a content with room for the head and the tail, what libmagic is to see. *)
Theorem sub_content_spec bytes head_len tail_len :
  (head_len <= length bytes)%nat -> (tail_len <= length bytes)%nat ->
  sub_content (Some bytes) (length bytes) head_len tail_len =
    inr (take head_len bytes ++ drop (length bytes - tail_len) bytes).
Proof.
  intros Hh Ht.
  assert (forall offset n, (offset + n <= length bytes)%nat ->
    read_bytes (Some bytes) offset n = inr (take n (drop offset bytes))) as Hread.
  { intros offset n Hn. unfold read_bytes. case_bool_decide as H0; [by subst|].
    by rewrite bool_decide_true. }
  unfold sub_content. rewrite Hread by lia. result_simpl. rewrite bool_decide_true by lia.
  rewrite Hread by lia. result_simpl. rewrite drop_0. do 2 f_equal. apply take_ge.
  rewrite length_drop. lia.
Qed.

(** A byte above 127 is shown with eight digits. *)
Theorem display_k_signed bytes k :
  (k <= length bytes)%nat -> Forall (fun c => 128 <= c < 256) bytes ->
  display_k (Some bytes) k = inr ((fun c => 4294967040 + c) <$> take k bytes).
Proof.
  intros Hk Hb. unfold display_k, read_bytes. case_bool_decide as H0; [by subst|].
  rewrite bool_decide_true by lia. result_simpl. rewrite drop_0.
  f_equal. apply list_fmap_ext. intros i c Hc. apply lookup_take_Some in Hc as [Hc _].
  rewrite Forall_forall in Hb. apply list_elem_of_lookup_2 in Hc. apply Hb in Hc.
  unfold sint, wrap. Z.to_euclidean_division_equations. lia.
Qed.

(** With two sockets no message is ever sent: both fail, three times over. *)
Theorem retry_gives_up :
  retry_loop 20 2 LWhile (Retry 0 0 0 0) = Some (Retry 3 6 0 0).
Proof. vm_compute. reflexivity. Qed.

(** ** Witnesses *)

Lemma read_content_spec_witness :
  exists st, read_content (Content None None 0 0) [[1; 2]; [3]; [4]] = inr st /\
    content st = Some [1; 2; 3; 4] /\ content_len st = 4%nat /\ lost st = 1%nat.
Proof. apply (read_content_spec [[1; 2]; [3]; [4]]); [by repeat constructor|done]. Defined.

Lemma look_at_fails_witness :
  look_at 512 512 [[1; 2]; [3]] = inl (StoreBehind 3 [1; 2; 3]) /\ look_at 512 512 [] = inl (NullRead 8).
Proof.
  split; [apply (look_at_fails 512 512 [[1; 2]; [3]])|apply (look_at_fails 512 512 [])]; by repeat constructor.
Defined.

Lemma sub_content_spec_witness : sub_content (Some [1; 2; 3; 4]) 4 2 1 = inr [1; 2; 4].
Proof. apply (sub_content_spec [1; 2; 3; 4] 2 1); cbn; lia. Defined.

Lemma display_k_signed_witness : display_k (Some [224]) 1 = inr [4294967264].
Proof. apply (display_k_signed [224] 1); [cbn; lia|repeat constructor; lia]. Defined.
