(* ===== verification/Nids.v ===== *)
(** The callback of src/demo_nids/demo_nids.c, which reports the TCP streams libnids follows, and
    the search for a device in src/demo_pcap/demo_pcap.c.

    [inet_ntoa] is an argument. Of the stream ([struct tcp_stream] of nids.h) only the fields the
    callback uses are kept. Output is a list of texts; [None] is undefined behaviour. *)

From S2P Require Import Prelude Double CString.

(* src/demo_nids/nids/libnids-1.24/src/nids.h:62-68 tuple4 *)
Record tuple4 := Tuple4 { source : Z; dest : Z; saddr : Z; daddr : Z }.

Record half_stream := HalfStream {
  collect : Z; collect_urg : Z; data : list Z; count_new : Z; urgdata : Z; count_new_urg : Z;
}.

Record tcp_stream := Stream {
  addr : tuple4; nids_state : Z; client : half_stream; server : half_stream;
}.

(* src/demo_nids/nids/libnids-1.24/src/nids.h:48-53 NIDS_JUST_EST *)
Definition NIDS_JUST_EST : Z := 1.
Definition NIDS_DATA : Z := 2.
Definition NIDS_CLOSE : Z := 3.
Definition NIDS_RESET : Z := 4.

(** What a new stream gets: the counter [collect], and for the server [collect_urg], goes up by
    one. The counters are of type [char]. *)
(* src/demo_nids/demo_nids.c:37-39 tcp_callback *)
Definition follow (urg : bool) (h : half_stream) : half_stream :=
  HalfStream (i8 (collect h + 1)) (if urg then i8 (collect_urg h + 1) else collect_urg h)
    (data h) (count_new h) (urgdata h) (count_new_urg h).

Section Program.
Context (inet_ntoa : Z -> list Z).

(** [buf] is the static buffer. *)
(* src/demo_nids/demo_nids.c:18-26 adres *)
Definition adres (buf : list Z) (a : tuple4) : option (list Z) :=
  buf ← strcpy buf (inet_ntoa (saddr a));
  buf ← strcat buf (44 :: format_d (source a) ++ [44]);
  buf ← strcat buf (inet_ntoa (daddr a));
  strcat buf (44 :: format_d (dest a)).

(** [buf[strlen(buf) + 1] = 0; buf[strlen(buf)] = c;] *)
(* src/demo_nids/demo_nids.c:69-70 tcp_callback *)
Definition append_char (buf : list Z) (c : Z) : option (list Z) :=
  text ← text_in buf;
  buf ← store buf (length text + 1) [0];
  text ← text_in buf;
  store buf (length text) [c].

(** What is written to the standard output and to the standard error. *)
Record output := Output { out : list Z; err : list Z }.

(** The first [n] bytes of a block, for [write]; a negative count is refused by the system. *)
Definition written (bytes : list Z) (n : Z) : option (list Z) :=
  if n <? 0 then Some [] else
  _ ← require (n <=? Z.of_nat (length bytes)); Some (take (Z.to_nat n) bytes).

(** The texts of the messages, from "[ established\n]" to "[(->)]". *)
Definition s_established : list Z := [32; 101; 115; 116; 97; 98; 108; 105; 115; 104; 101; 100; 10].
Definition s_closing : list Z := [32; 99; 108; 111; 115; 105; 110; 103; 10].
Definition s_reset : list Z := [32; 114; 101; 115; 101; 116; 10].
Definition s_urgent : list Z := [40; 117; 114; 103; 101; 110; 116; 45; 62; 41].
Definition s_to_client : list Z := [40; 60; 45; 41].
Definition s_to_server : list Z := [40; 45; 62; 41].

(** [static_buf] is the buffer of [adres] and [buf] the local one; the static buffer is given
    back with the stream. *)
(* src/demo_nids/demo_nids.c:28-93 tcp_callback *)
Definition tcp_callback (static_buf buf : list Z) (a_tcp : tcp_stream)
    : option (list Z * tcp_stream * output) :=
  static_buf ← adres static_buf (addr a_tcp);
  buf ← strcpy buf static_buf;
  if nids_state a_tcp =? NIDS_JUST_EST then
    text ← text_in buf;
    Some (static_buf,
      Stream (addr a_tcp) (nids_state a_tcp) (follow false (client a_tcp)) (follow true (server a_tcp)),
      Output [] (text ++ s_established))
  else if nids_state a_tcp =? NIDS_CLOSE then
    text ← text_in buf; Some (static_buf, a_tcp, Output [] (text ++ s_closing))
  else if nids_state a_tcp =? NIDS_RESET then
    text ← text_in buf; Some (static_buf, a_tcp, Output [] (text ++ s_reset))
  else if nids_state a_tcp =? NIDS_DATA then
    if negb (count_new_urg (server a_tcp) =? 0) then
      buf ← strcat buf s_urgent;
      buf ← append_char buf (urgdata (server a_tcp));
      text ← text_in buf;
      Some (static_buf, a_tcp, Output text [])
    else
      let '(hlf, sign) := if negb (count_new (client a_tcp) =? 0) then (client a_tcp, s_to_client)
                          else (server a_tcp, s_to_server) in
      buf ← strcat buf sign;
      text ← text_in buf;
      bytes ← written (data hlf) (count_new hlf);
      Some (static_buf, a_tcp, Output [] (text ++ bytes))
  else Some (static_buf, a_tcp, Output [] []).
End Program.

(** The first interface with the name; [None] at the end of the list. *)
(* src/demo_pcap/demo_pcap.c:37-48 main *)
Fixpoint find_device {A} (device : list Z) (devices : list (list Z * A)) : option (list Z * A) :=
  match devices with
  | [] => None
  | work_if :: devices =>
      if bool_decide (c_string device = c_string (fst work_if)) then Some work_if
      else find_device device devices
  end.

(** ** Properties *)

(** The text of a stream. *)
Definition stream_text (inet_ntoa : Z -> list Z) (a : tuple4) : list Z :=
  inet_ntoa (saddr a) ++ 44 :: format_d (source a) ++ 44 :: inet_ntoa (daddr a) ++ 44 :: format_d (dest a).

Definition port (p : Z) : Prop := 0 <= p < 65536.

Lemma format_port p : port p -> (length (format_d p) <= 5)%nat.
Proof.
  unfold port, format_d. intros Hp. destruct (Z.ltb_spec p 0); [lia|].
  pose proof (dec_length 5 p) as Hl. lia.
Qed.

Section Callback.
Context (inet_ntoa : Z -> list Z).
Context (Hntoa : forall a, 0 ∉ inet_ntoa a /\ (length (inet_ntoa a) <= 15)%nat).

Lemma stream_text_ok a :
  port (source a) -> port (dest a) ->
  0 ∉ stream_text inet_ntoa a /\ (length (stream_text inet_ntoa a) <= 43)%nat.
Proof using Hntoa.
  intros Hs Hd. destruct (Hntoa (saddr a)) as [H1 L1], (Hntoa (daddr a)) as [H2 L2].
  pose proof (format_d_no_nul (source a)). pose proof (format_d_no_nul (dest a)).
  pose proof (format_port _ Hs). pose proof (format_port _ Hd). unfold stream_text. split.
  - intros [?|[?|[?|[?|[?|[?|?]%elem_of_cons]%elem_of_app]%elem_of_cons]%elem_of_app]%elem_of_cons]%elem_of_app;
      done.
  - repeat (rewrite length_app || cbn [length]). lia.
Qed.

Lemma adres_spec buf a :
  (43 < length buf)%nat -> port (source a) -> port (dest a) ->
  exists buf', adres inet_ntoa buf a = Some buf' /\ holds buf' (stream_text inet_ntoa a) /\
    length buf' = length buf.
Proof using Hntoa.
  intros Hb Hs Hd. destruct (Hntoa (saddr a)) as [H1 L1], (Hntoa (daddr a)) as [H2 L2].
  pose proof (format_d_no_nul (source a)). pose proof (format_d_no_nul (dest a)).
  pose proof (format_port _ Hs). pose proof (format_port _ Hd). unfold adres.
  destruct (strcpy_spec buf (inet_ntoa (saddr a)) H1 ltac:(lia)) as (b1 & -> & Hh1 & E1). bind_simpl.
  assert (0 ∉ 44 :: format_d (source a) ++ [44]) as Hn1.
  { intros [?|[?|[?|?%elem_of_nil]%elem_of_cons]%elem_of_app]%elem_of_cons; done. }
  destruct (strcat_spec b1 _ _ Hh1 Hn1) as (b2 & -> & Hh2 & E2).
  { cbn [length]. rewrite length_app. cbn [length]. lia. }
  bind_simpl. destruct (strcat_spec b2 _ _ Hh2 H2) as (b3 & -> & Hh3 & E3).
  { repeat (rewrite length_app || cbn [length]). lia. }
  bind_simpl. assert (0 ∉ 44 :: format_d (dest a)) as Hn2 by (intros [?|?]%elem_of_cons; done).
  destruct (strcat_spec b3 _ _ Hh3 Hn2) as (b4 & -> & Hh4 & E4).
  { repeat (rewrite length_app || cbn [length]). lia. }
  exists b4. split_and!; [done| |lia]. unfold stream_text.
  repeat (rewrite <- (assoc_L app) in Hh4; cbn [app] in Hh4). exact Hh4.
Qed.

Lemma append_char_spec buf t c :
  holds buf t -> (length t + 1 < length buf)%nat ->
  exists buf', append_char buf c = Some buf' /\ text_in buf' = Some (t ++ if c =? 0 then [] else [c]).
Proof using Type.
  intros [Ht [r ->]] Hl. unfold append_char.
  assert (forall r', text_in (t ++ 0 :: r') = Some t) as Htext
    by (intros r'; apply holds_text; split; eauto).
  rewrite Htext. bind_simpl. rewrite length_app in Hl. cbn [length] in Hl.
  destruct r as [|x r]; [cbn in Hl; lia|].
  pose proof (store_app (t ++ [0]) [x] r [0] eq_refl) as E1. rewrite <- !(assoc_L app) in E1. cbn [app] in E1.
  rewrite length_app in E1. cbn [length] in E1. rewrite E1. bind_simpl. rewrite Htext. bind_simpl.
  pose proof (store_app t [0] (0 :: r) [c] eq_refl) as E2. cbn [app] in E2. rewrite E2.
  eexists. split; [done|]. destruct (Z.eqb_spec c 0) as [->|Hc]; [by rewrite app_nil_r|].
  change (t ++ c :: 0 :: r) with (t ++ [c] ++ 0 :: r). rewrite (assoc_L app).
  apply holds_text. split; [|eauto]. intros [?|[?|?%elem_of_nil]%elem_of_cons]%elem_of_app; congruence.
Qed.

(** What is reported of a stream: "established", "closing" or "reset" with a space in front and a
    newline behind, or the arrows "(urgent->)", "(<-)" and "(->)" with what was received. *)
Definition report (t : list Z) (a_tcp : tcp_stream) : output :=
  if nids_state a_tcp =? 1 then Output [] (t ++ [32; 101; 115; 116; 97; 98; 108; 105; 115; 104; 101; 100; 10])
  else if nids_state a_tcp =? 3 then Output [] (t ++ [32; 99; 108; 111; 115; 105; 110; 103; 10])
  else if nids_state a_tcp =? 4 then Output [] (t ++ [32; 114; 101; 115; 101; 116; 10])
  else if nids_state a_tcp =? 2 then
    if negb (count_new_urg (server a_tcp) =? 0) then
      let c := urgdata (server a_tcp) in
      Output (t ++ [40; 117; 114; 103; 101; 110; 116; 45; 62; 41] ++ if c =? 0 then [] else [c]) []
    else if negb (count_new (client a_tcp) =? 0) then
      Output [] (t ++ [40; 60; 45; 41] ++ take (Z.to_nat (count_new (client a_tcp))) (data (client a_tcp)))
    else Output [] (t ++ [40; 45; 62; 41] ++ take (Z.to_nat (count_new (server a_tcp))) (data (server a_tcp)))
  else Output [] [].

(** One more, in a [char]: 127 is followed by -128. *)
Definition one_more (c : Z) : Z := if c =? 127 then -128 else c + 1.

Definition is_char (c : Z) : Prop := -128 <= c <= 127.

Lemma one_more_i8 c : is_char c -> i8 (c + 1) = one_more c.
Proof using Type.
  unfold is_char, one_more. intros Hc. destruct (Z.eqb_spec c 127) as [->|Hne]; [done|].
  unfold sint, wrap. Z.to_euclidean_division_equations. lia.
Qed.

(** A half of the stream with other counters, of ordinary and of urgent data, and the same data. *)
Definition counting (c u : Z) (h : half_stream) : half_stream :=
  HalfStream c u (data h) (count_new h) (urgdata h) (count_new_urg h).

(** What the callback leaves of a stream: of one that is new, both halves are counted once more,
    the server's urgent data too and the client's not. Any other is as it was. *)
Definition followed (a_tcp : tcp_stream) : tcp_stream :=
  if nids_state a_tcp =? NIDS_JUST_EST
  then Stream (addr a_tcp) (nids_state a_tcp)
    (counting (one_more (collect (client a_tcp))) (collect_urg (client a_tcp)) (client a_tcp))
    (counting (one_more (collect (server a_tcp))) (one_more (collect_urg (server a_tcp))) (server a_tcp))
  else a_tcp.

Definition half_ok (h : half_stream) : Prop :=
  0 <= count_new h <= Z.of_nat (length (data h)) /\ is_char (collect h) /\ is_char (collect_urg h).

Lemma follow_counts urg h :
  half_ok h ->
  follow urg h = counting (one_more (collect h)) (if urg then one_more (collect_urg h) else collect_urg h) h.
Proof using Type.
  intros (_ & Hc & Hu). unfold follow, counting. rewrite !one_more_i8 by done. by destruct urg.
Qed.

Lemma written_ok h : half_ok h -> written (data h) (count_new h) = Some (take (Z.to_nat (count_new h)) (data h)).
Proof using Type.
  unfold half_ok, written. intros Hh. rewrite (proj2 (Z.ltb_ge _ _)) by lia.
  by rewrite (proj2 (Z.leb_le _ _)) by lia.
Qed.

(** C37. Whatever happens to a stream, the callback stays inside its two buffers and reports the
    addresses and ports of the stream with what happened: the state, the urgent byte, or the new
    data with its direction. Of a new stream the counters that ask for the data of both halves
    and for the urgent data of the server go up by one, and nothing else of any stream changes. *)
Theorem tcp_callback_spec static_buf buf a_tcp :
  length static_buf = 256%nat -> length buf = 1024%nat ->
  port (source (addr a_tcp)) -> port (dest (addr a_tcp)) ->
  half_ok (client a_tcp) -> half_ok (server a_tcp) ->
  exists static_buf', length static_buf' = 256%nat /\
    tcp_callback inet_ntoa static_buf buf a_tcp =
      Some (static_buf', followed a_tcp, report (stream_text inet_ntoa (addr a_tcp)) a_tcp).
Proof using Hntoa.
  intros Hsb Hb Hs Hd Hc Hv. unfold tcp_callback.
  destruct (adres_spec static_buf (addr a_tcp) ltac:(lia) Hs Hd) as (sb & -> & Hh & Esb). bind_simpl.
  exists sb. split; [lia|]. destruct (stream_text_ok (addr a_tcp) Hs Hd) as [Hn Hl].
  set (t := stream_text inet_ntoa (addr a_tcp)) in *. apply holds_text in Hh as [Ht _].
  assert (strcpy buf sb = strcpy buf t) as -> by (unfold strcpy; by rewrite Ht, c_string_whole).
  destruct (strcpy_spec buf t Hn ltac:(lia)) as (b1 & -> & Hh1 & E1). bind_simpl.
  pose proof (holds_text _ _ Hh1) as [_ Et]. unfold report, followed.
  unfold NIDS_JUST_EST, NIDS_DATA, NIDS_CLOSE, NIDS_RESET.
  destruct (nids_state a_tcp =? 1); [by rewrite Et, !follow_counts|].
  destruct (nids_state a_tcp =? 3); [by rewrite Et|].
  destruct (nids_state a_tcp =? 4); [by rewrite Et|].
  destruct (nids_state a_tcp =? 2); [|done].
  assert (forall sign, 0 ∉ sign -> (length sign <= 10)%nat ->
    exists b2, strcat b1 sign = Some b2 /\ holds b2 (t ++ sign) /\ length b2 = length b1) as Hcat.
  { intros sign Hsign Hls. apply strcat_spec; [done|done|lia]. }
  destruct (negb (count_new_urg (server a_tcp) =? 0)).
  - destruct (Hcat s_urgent) as (b2 & -> & Hh2 & E2).
    { unfold s_urgent. rewrite !elem_of_cons, elem_of_nil. lia. }
    { cbn. lia. }
    bind_simpl. destruct (append_char_spec b2 _ (urgdata (server a_tcp)) Hh2) as (b3 & -> & Et3).
    { rewrite length_app. cbn [length s_urgent]. lia. }
    bind_simpl. rewrite Et3. bind_simpl. by rewrite <- (assoc_L app).
  - destruct (negb (count_new (client a_tcp) =? 0)).
    + destruct (Hcat s_to_client) as (b2 & -> & [_ Et2]%holds_text & E2).
      { unfold s_to_client. rewrite !elem_of_cons, elem_of_nil. lia. }
      { cbn. lia. }
      bind_simpl. rewrite Et2, written_ok by done. bind_simpl. by rewrite <- (assoc_L app).
    + destruct (Hcat s_to_server) as (b2 & -> & [_ Et2]%holds_text & E2).
      { unfold s_to_server. rewrite !elem_of_cons, elem_of_nil. lia. }
      { cbn. lia. }
      bind_simpl. rewrite Et2, written_ok by done. bind_simpl. by rewrite <- (assoc_L app).
Qed.
End Callback.

(** The device found is the first with the name. *)
Theorem find_device_spec {A} device (devices : list (list Z * A)) :
  match find_device device devices with
  | Some work_if => exists before after, devices = before ++ work_if :: after /\
      c_string (fst work_if) = c_string device /\
      Forall (fun d => c_string (fst d) <> c_string device) before
  | None => Forall (fun d => c_string (fst d) <> c_string device) devices
  end.
Proof.
  induction devices as [|d devices IH]; cbn [find_device]; [constructor|].
  case_bool_decide as Hd; [by exists [], devices|].
  destruct (find_device device devices) as [w|].
  - destruct IH as (before & after & -> & Hw & Hf). exists (d :: before), after.
    split_and!; [done|done|]. constructor; [congruence|done].
  - constructor; [congruence|done].
Qed.

(** ** Witnesses *)

Definition sample_ntoa (a : Z) : list Z := [49; 46; 50; 46; 51; 46; 52].

Definition sample_half (new : Z) : half_stream := HalfStream 1 0 [104; 105] new 33 0.

Definition sample_stream : tcp_stream :=
  Stream (Tuple4 1024 23 1 2) NIDS_JUST_EST (sample_half 0) (sample_half 2).

Lemma tcp_callback_spec_witness :
  exists static_buf', length static_buf' = 256%nat /\
    tcp_callback sample_ntoa (replicate 256 7) (replicate 1024 7) sample_stream =
      Some (static_buf',
        Stream (Tuple4 1024 23 1 2) NIDS_JUST_EST
          (HalfStream 2 0 [104; 105] 0 33 0) (HalfStream 2 1 [104; 105] 2 33 0),
        Output [] (stream_text sample_ntoa (addr sample_stream) ++ s_established)).
Proof.
  apply (tcp_callback_spec sample_ntoa).
  - intros a. unfold sample_ntoa. rewrite !elem_of_cons, elem_of_nil. split; [lia|cbn; lia].
  - by rewrite length_replicate.
  - by rewrite length_replicate.
  - unfold port. cbn. lia.
  - unfold port. cbn. lia.
  - unfold half_ok, is_char. cbn. lia.
  - unfold half_ok, is_char. cbn. lia.
Defined.
