(* ===== verification/DateTime.v ===== *)
(** Dates and times as texts and numbers, src/demo_datetime/datetime.h.

    The clock and the time zone are arguments: [now], [gettimeofday], [localtime] and [mktime].
    [strftime] and [strptime] are written out for the conversions of the three formats; the other
    conversions are arguments too. [None] is undefined behaviour or an indeterminate result. *)

From S2P Require Import Prelude Double CString.

(** ** The C library *)

(** [tm_year] counts from 1900 and [tm_mon] from 0. *)
Record tm := Tm { tm_year : Z; tm_mon : Z; tm_mday : Z; tm_hour : Z; tm_min : Z; tm_sec : Z }.

(** What is known of a [struct tm] that is being filled. *)
Record tm_part := TmPart {
  p_year : option Z; p_mon : option Z; p_mday : option Z; p_hour : option Z; p_min : option Z;
  p_sec : option Z;
}.

Definition no_tm : tm_part := TmPart None None None None None None.

(** At most [n] digits. *)
Fixpoint scan_number (n : nat) (s : list Z) (value : Z) : Z * list Z :=
  match n, s with
  | S n, c :: rest => if is_digit c then scan_number n rest (value * 10 + (c - 48)) else (value, s)
  | _, _ => (value, s)
  end.

(** A number of at most [n] digits in its range. *)
Definition scan_in (n : nat) (lo hi : Z) (s : list Z) : option (Z * list Z) :=
  match s with
  | c :: _ =>
      if is_digit c then
        let '(v, rest) := scan_number n s 0 in
        if (lo <=? v) && (v <=? hi) then Some (v, rest) else None
      else None
  | [] => None
  end.

Section Library.
Context (other_text : Z -> tm -> list Z).
Context (other_scan : Z -> list Z -> tm_part -> option (list Z * tm_part)).

(** Y, m, d, H, M and S. *)
Definition field_text (conv : Z) (t : tm) : list Z :=
  if conv =? 89 then format_d (tm_year t + 1900)
  else if conv =? 109 then padded 2 (tm_mon t + 1)
  else if conv =? 100 then padded 2 (tm_mday t)
  else if conv =? 72 then padded 2 (tm_hour t)
  else if conv =? 77 then padded 2 (tm_min t)
  else if conv =? 83 then padded 2 (tm_sec t)
  else other_text conv t.

Fixpoint format_tm (fmt : list Z) (t : tm) : list Z :=
  match fmt with
  | [] => []
  | c :: rest =>
      match rest with
      | conv :: fmt' => if c =? 37 then field_text conv t ++ format_tm fmt' t else c :: format_tm rest t
      | [] => [c]
      end
  end.

(** [strftime]: the text, if it fits with its NUL; otherwise, or if it is empty, the result is 0. *)
Definition strftime (max : nat) (fmt : list Z) (t : tm) : option (list Z) :=
  let s := format_tm fmt t in
  if bool_decide (length s < max)%nat then (if bool_decide (s = []) then None else Some s) else None.

(** One field. *)
Definition scan_field (conv : Z) (s : list Z) (t : tm_part) : option (list Z * tm_part) :=
  let number n lo hi (k : Z -> tm_part) := (fun '(v, rest) => (rest, k v)) <$> scan_in n lo hi s in
  let 'TmPart y mo d h mi sec := t in
  if conv =? 89 then number 4%nat 0 9999 (fun v => TmPart (Some (v - 1900)) mo d h mi sec)
  else if conv =? 109 then number 2%nat 1 12 (fun v => TmPart y (Some (v - 1)) d h mi sec)
  else if conv =? 100 then number 2%nat 1 31 (fun v => TmPart y mo (Some v) h mi sec)
  else if conv =? 72 then number 2%nat 0 23 (fun v => TmPart y mo d (Some v) mi sec)
  else if conv =? 77 then number 2%nat 0 59 (fun v => TmPart y mo d h (Some v) sec)
  else if conv =? 83 then number 2%nat 0 61 (fun v => TmPart y mo d h mi (Some v))
  else other_scan conv s t.

(** [strptime] fills the fields up to where the text does not match. *)
Fixpoint strptime (fmt s : list Z) (t : tm_part) : tm_part :=
  match fmt with
  | [] => t
  | c :: rest =>
      let literal :=
        if is_space c then strptime rest (scan_space s) t
        else match s with
             | d :: s => if d =? c then strptime rest s t else t
             | [] => t
             end in
      match rest with
      | conv :: fmt' =>
          if c =? 37 then
            match scan_field conv s t with Some (s, t) => strptime fmt' s t | None => t end
          else literal
      | [] => literal
      end
  end.
End Library.

(** All fields are there. *)
Definition whole_tm (t : tm_part) : option tm :=
  y ← p_year t; mo ← p_mon t; d ← p_mday t; h ← p_hour t; mi ← p_min t; s ← p_sec t;
  Some (Tm y mo d h mi s).

(** ** The functions *)

(* src/demo_datetime/datetime.h:12-12 DATE_FORMAT_STR *)
Definition DATE_FORMAT_STR : list Z := [37; 89; 45; 37; 109; 45; 37; 100].
(* src/demo_datetime/datetime.h:13-13 TIME_FORMAT_STR *)
Definition TIME_FORMAT_STR : list Z := [37; 72; 58; 37; 77; 58; 37; 83].
(* src/demo_datetime/datetime.h:14-14 DATE_TIME_FORMAT_STR *)
Definition DATE_TIME_FORMAT_STR : list Z :=
  [37; 89; 45; 37; 109; 45; 37; 100; 32; 37; 72; 58; 37; 77; 58; 37; 83].
(* src/demo_datetime/datetime.h:16-16 DATETIME_STR_LEN *)
Definition DATETIME_STR_LEN : nat := 64.

Section Program.
Context (other_text : Z -> tm -> list Z).
Context (other_scan : Z -> list Z -> tm_part -> option (list Z * tm_part)).
(** [time(NULL)], and [localtime], which has no result for years that are no [int]. *)
Context (now : Z) (localtime : Z -> option tm).
(** [mktime] of the fields and [tm_isdst]. *)
Context (mktime : tm -> Z -> Z).

(** The text, in a block the caller has to release, or the null pointer; and how many blocks are
    lost. *)
(* src/demo_datetime/datetime.h:19-31 datetime_format *)
Definition datetime_format (malloc_ok : bool) (timestamp : Z) (fmt : list Z)
    : option (option (list Z) * nat) :=
  let timestamp := if timestamp =? 0 then now else timestamp in
  _ ← require malloc_ok;
  t ← localtime timestamp;
  match strftime other_text DATETIME_STR_LEN fmt t with
  | None => Some (None, 1%nat)
  | Some s => Some (Some s, 0%nat)
  end.

(* src/demo_datetime/datetime.h:34-37 dt_date *)
Definition dt_date (malloc_ok : bool) (timestamp : Z) := datetime_format malloc_ok timestamp DATE_FORMAT_STR.
(* src/demo_datetime/datetime.h:40-43 dt_time *)
Definition dt_time (malloc_ok : bool) (timestamp : Z) := datetime_format malloc_ok timestamp TIME_FORMAT_STR.
(* src/demo_datetime/datetime.h:46-49 dt_datetime *)
Definition dt_datetime (malloc_ok : bool) (timestamp : Z) :=
  datetime_format malloc_ok timestamp DATE_TIME_FORMAT_STR.

(** [_tm] is not initialised: the fields that are not in the text are indeterminate, and
    [tm_isdst] is what the memory contains. *)
(* src/demo_datetime/datetime.h:52-58 dt_s2seconds *)
Definition dt_s2seconds (isdst : Z) (s fmt : list Z) : option Z :=
  t ← whole_tm (strptime other_scan fmt s no_tm); Some (mktime t isdst).

(* src/demo_datetime/datetime.h:61-67 dt_s2mseconds *)
Definition dt_s2mseconds (isdst : Z) (s fmt : list Z) : option Z :=
  t ← whole_tm (strptime other_scan fmt s no_tm);
  let t := mktime t isdst in
  _ ← require ((- 2 ^ 63 <=? t * 1000) && (t * 1000 <? 2 ^ 63));
  Some (t * 1000).
End Program.

(* src/demo_datetime/datetime.h:70-75 dt_seconds *)
Definition dt_seconds (gettimeofday : Z * Z) : Z := fst gettimeofday.

(* src/demo_datetime/datetime.h:78-83 dt_mseconds *)
Definition dt_mseconds (gettimeofday : Z * Z) : option Z :=
  let '(tv_sec, tv_usec) := gettimeofday in
  let ms := tv_sec * 1000 + Z.quot tv_usec 1000 in
  _ ← require ((- 2 ^ 63 <=? ms) && (ms <? 2 ^ 63));
  Some ms.

(** ** Texts *)

Lemma scan_number_digits l rest a :
  Forall digit_code l -> scan_number (length l) (l ++ rest) a = (digits_value a l, rest).
Proof.
  intros Hl. revert a. induction Hl as [|c l Hc _ IH]; intros a; [by destruct rest|].
  cbn [length app scan_number]. unfold is_digit, digit_code in *.
  rewrite (proj2 (Z.leb_le 48 c)), (proj2 (Z.leb_le c 57)) by lia. apply IH.
Qed.

Lemma padded_digits n z : 0 <= z -> Forall digit_code (padded n z).
Proof.
  intros Hz. unfold padded. apply Forall_app. split; [|by apply dec_digits].
  apply Forall_replicate. unfold digit_code. lia.
Qed.

Lemma padded_value n z : 0 <= z -> digits_value 0 (padded n z) = z.
Proof.
  intros Hz. unfold padded, digits_value. rewrite fold_left_app.
  replace (fold_left _ (replicate _ 48) 0) with 0; [by apply dec_value|].
  induction (n - length (dec z))%nat as [|k IH]; [done|exact IH].
Qed.

Lemma scan_in_padded n lo hi z rest :
  (0 < n)%nat -> 0 <= z < 10 ^ Z.of_nat n -> lo <= z <= hi ->
  scan_in n lo hi (padded n z ++ rest) = Some (z, rest).
Proof.
  intros Hn Hz Hr. pose proof (padded_length n z Hz Hn) as Hl. pose proof (padded_digits n z ltac:(lia)) as Hd.
  pose proof (scan_number_digits _ rest 0 Hd) as Hs. rewrite Hl, padded_value in Hs by lia.
  destruct (padded n z) as [|c l]; [cbn in Hl; lia|]. apply Forall_cons in Hd as [Hc _].
  cbn [app] in *. unfold scan_in. unfold digit_code in Hc.
  assert (is_digit c = true) as -> by (unfold is_digit; lia).
  rewrite Hs. by rewrite (proj2 (Z.leb_le _ _)), (proj2 (Z.leb_le _ _)) by lia.
Qed.

Lemma digits_value_bound l a : Forall digit_code l -> digits_value a l < (a + 1) * 10 ^ Z.of_nat (length l).
Proof.
  intros Hl. revert a. induction Hl as [|c l Hc _ IH]; intros a; cbn [length digits_value fold_left].
  - change (10 ^ Z.of_nat 0) with 1. lia.
  - specialize (IH (a * 10 + (c - 48))). unfold digits_value in IH. unfold digit_code in Hc.
    rewrite Nat2Z.inj_succ, Z.pow_succ_r by lia. nia.
Qed.

(** The years of four digits. *)
Lemma year_text y : 1000 <= y < 10000 -> format_d y = padded 4 y.
Proof.
  intros Hy. unfold format_d, padded. destruct (Z.ltb_spec y 0); [lia|].
  assert (length (dec y) = 4%nat) as ->; [|done].
  pose proof (dec_length 4 y ltac:(lia) ltac:(lia)) as Hmax.
  pose proof (digits_value_bound (dec y) 0 (dec_digits y ltac:(lia))) as Hmin.
  rewrite dec_value in Hmin by lia. destruct (length (dec y)) as [|[|[|[|k]]]]; try (cbn in Hmin; lia).
Qed.

(** A broken-down time as [localtime] gives it, in a year of four digits. *)
Definition tm_ok (t : tm) : Prop :=
  1000 <= tm_year t + 1900 < 10000 /\ 0 <= tm_mon t <= 11 /\ 1 <= tm_mday t <= 31 /\
  0 <= tm_hour t <= 23 /\ 0 <= tm_min t <= 59 /\ 0 <= tm_sec t <= 60.

(** The texts, as YYYY-MM-DD and HH:MM:SS. *)
Definition date_text (t : tm) : list Z :=
  padded 4 (tm_year t + 1900) ++ 45 :: padded 2 (tm_mon t + 1) ++ 45 :: padded 2 (tm_mday t).
Definition time_text (t : tm) : list Z :=
  padded 2 (tm_hour t) ++ 58 :: padded 2 (tm_min t) ++ 58 :: padded 2 (tm_sec t).

Lemma date_text_length t : tm_ok t -> length (date_text t) = 10%nat.
Proof.
  intros (H1 & H2 & H3 & _). unfold date_text. repeat (rewrite length_app || cbn [length]).
  by rewrite !padded_length by lia.
Qed.

Lemma time_text_length t : tm_ok t -> length (time_text t) = 8%nat.
Proof.
  intros (_ & _ & _ & H1 & H2 & H3). unfold time_text. repeat (rewrite length_app || cbn [length]).
  by rewrite !padded_length by lia.
Qed.

Section Texts.
Context (other_text : Z -> tm -> list Z).
Context (other_scan : Z -> list Z -> tm_part -> option (list Z * tm_part)).

Lemma format_date t : tm_ok t -> format_tm other_text DATE_FORMAT_STR t = date_text t.
Proof using Type.
  intros (H1 & _). unfold date_text. rewrite <- year_text by done. cbn. by rewrite app_nil_r.
Qed.

Lemma format_time t : format_tm other_text TIME_FORMAT_STR t = time_text t.
Proof using Type. cbn. unfold time_text. by rewrite app_nil_r. Qed.

Lemma format_datetime t :
  tm_ok t -> format_tm other_text DATE_TIME_FORMAT_STR t = date_text t ++ 32 :: time_text t.
Proof using Type.
  intros (H1 & _). unfold date_text, time_text. rewrite <- year_text by done. cbn.
  rewrite app_nil_r. repeat (rewrite <- (assoc_L app); cbn [app]). done.
Qed.

Lemma strptime_field conv fmt n lo hi z rest p k :
  (0 < n)%nat -> 0 <= z < 10 ^ Z.of_nat n -> lo <= z <= hi ->
  (forall s, scan_field other_scan conv s p = (fun '(v, rest) => (rest, k v)) <$> scan_in n lo hi s) ->
  strptime other_scan (37 :: conv :: fmt) (padded n z ++ rest) p = strptime other_scan fmt rest (k z).
Proof using Type.
  intros Hn Hz Hr Hk. cbn [strptime Z.eqb Pos.eqb]. by rewrite Hk, scan_in_padded.
Qed.

Lemma strptime_literal c fmt rest p :
  c <> 37 -> is_space c = false ->
  strptime other_scan (c :: fmt) (c :: rest) p = strptime other_scan fmt rest p.
Proof using Type.
  intros Hc Hs. cbn [strptime]. rewrite Hs, (proj2 (Z.eqb_neq c 37)), Z.eqb_refl by done. by destruct fmt.
Qed.

Lemma strptime_space fmt n z rest p :
  (0 < n)%nat -> 0 <= z < 10 ^ Z.of_nat n ->
  strptime other_scan (32 :: fmt) (32 :: padded n z ++ rest) p = strptime other_scan fmt (padded n z ++ rest) p.
Proof using Type.
  intros Hn Hz. pose proof (padded_length n z Hz Hn) as Hl. pose proof (padded_digits n z ltac:(lia)) as Hd.
  assert (scan_space (32 :: padded n z ++ rest) = padded n z ++ rest) as E.
  { destruct (padded n z) as [|c l]; [cbn in Hl; lia|]. apply Forall_cons in Hd as [Hc _].
    unfold digit_code in Hc. cbn [scan_space app]. change (is_space 32) with true. cbn iota.
    by assert (is_space c = false) as -> by (unfold is_space; lia). }
  cbn [strptime]. change (is_space 32) with true. cbn iota. rewrite E. by destruct fmt.
Qed.

Lemma strptime_datetime t :
  tm_ok t -> whole_tm (strptime other_scan DATE_TIME_FORMAT_STR (date_text t ++ 32 :: time_text t) no_tm) = Some t.
Proof using Type.
  intros (H1 & H2 & H3 & H4 & H5 & H6). unfold date_text, time_text.
  repeat (rewrite <- (assoc_L app); cbn [app]).
  unfold DATE_TIME_FORMAT_STR.
  rewrite (strptime_field 89 _ 4 0 9999 _ _ no_tm (fun v => TmPart (Some (v - 1900)) None None None None None))
    by (done || lia).
  rewrite strptime_literal by done.
  rewrite (strptime_field 109 _ 2 1 12 _ _ _ (fun v => TmPart _ (Some (v - 1)) None None None None))
    by (done || lia).
  rewrite strptime_literal by done.
  rewrite (strptime_field 100 _ 2 1 31 _ _ _ (fun v => TmPart _ _ (Some v) None None None)) by (done || lia).
  rewrite strptime_space by lia.
  rewrite (strptime_field 72 _ 2 0 23 _ _ _ (fun v => TmPart _ _ _ (Some v) None None)) by (done || lia).
  rewrite strptime_literal by done.
  rewrite (strptime_field 77 _ 2 0 59 _ _ _ (fun v => TmPart _ _ _ _ (Some v) None)) by (done || lia).
  rewrite strptime_literal by done. rewrite <- (app_nil_r (padded 2 (tm_sec t))).
  rewrite (strptime_field 83 _ 2 0 61 _ _ _ (fun v => TmPart _ _ _ _ _ (Some v))) by (done || lia).
  cbn. destruct t as [y mo d h mi s]. cbn. do 2 f_equal; lia.
Qed.
End Texts.

Section Functions.
Context (other_text : Z -> tm -> list Z).
Context (other_scan : Z -> list Z -> tm_part -> option (list Z * tm_part)).
Context (now : Z) (localtime : Z -> option tm) (mktime : tm -> Z -> Z).

Lemma strftime_fits fmt t s :
  format_tm other_text fmt t = s -> (0 < length s < DATETIME_STR_LEN)%nat ->
  strftime other_text DATETIME_STR_LEN fmt t = Some s.
Proof using Type.
  unfold strftime. intros -> Hl. rewrite bool_decide_true by lia.
  rewrite bool_decide_false; [done|]. intros ->. cbn in Hl. lia.
Qed.

Lemma dt_texts timestamp t :
  timestamp <> 0 -> localtime timestamp = Some t -> tm_ok t ->
  dt_date other_text now localtime true timestamp = Some (Some (date_text t), 0%nat) /\
  dt_time other_text now localtime true timestamp = Some (Some (time_text t), 0%nat) /\
  dt_datetime other_text now localtime true timestamp =
    Some (Some (date_text t ++ 32 :: time_text t), 0%nat).
Proof using Type.
  intros Hne Ht Hok. pose proof (date_text_length t Hok) as Hd. pose proof (time_text_length t Hok) as Htm.
  unfold dt_datetime, dt_date, dt_time, datetime_format.
  rewrite (proj2 (Z.eqb_neq timestamp 0)) by done. cbn [require]. bind_simpl. rewrite Ht. bind_simpl.
  rewrite (strftime_fits _ _ _ (format_datetime other_text t Hok))
    by (rewrite length_app; cbn [length]; unfold DATETIME_STR_LEN; lia).
  rewrite (strftime_fits _ _ _ (format_date other_text t Hok)) by (unfold DATETIME_STR_LEN; lia).
  by rewrite (strftime_fits _ _ _ (format_time other_text t)) by (unfold DATETIME_STR_LEN; lia).
Qed.

(** C35. A time becomes a text and the text the time again. Of a time in a year of four digits the
    three formats are the texts YYYY-MM-DD, HH:MM:SS and both with a space between, and they fit
    their block. Reading back the date and time gives [mktime] exactly the fields [localtime]
    gave, but with whatever [tm_isdst] the memory contains: the number that comes back is the one
    that [mktime] gives for that, in seconds or in milliseconds as long as these are a [long], and
    it is the time itself just when [mktime] undoes [localtime] for that value. *)
Theorem datetime_roundtrip timestamp t isdst :
  timestamp <> 0 -> localtime timestamp = Some t -> tm_ok t ->
  let text := date_text t ++ 32 :: time_text t in
  dt_date other_text now localtime true timestamp = Some (Some (date_text t), 0%nat) /\
  dt_time other_text now localtime true timestamp = Some (Some (time_text t), 0%nat) /\
  dt_datetime other_text now localtime true timestamp = Some (Some text, 0%nat) /\
  dt_s2seconds other_scan mktime isdst text DATE_TIME_FORMAT_STR = Some (mktime t isdst) /\
  (dt_s2seconds other_scan mktime isdst text DATE_TIME_FORMAT_STR = Some timestamp <->
    mktime t isdst = timestamp) /\
  dt_s2mseconds other_scan mktime isdst text DATE_TIME_FORMAT_STR =
    if decide (- 2 ^ 63 <= mktime t isdst * 1000 < 2 ^ 63) then Some (mktime t isdst * 1000) else None.
Proof using Type.
  intros Hne Ht Hok text. destruct (dt_texts timestamp t Hne Ht Hok) as (E1 & E2 & E3).
  assert (dt_s2seconds other_scan mktime isdst text DATE_TIME_FORMAT_STR = Some (mktime t isdst)) as Es.
  { unfold dt_s2seconds, text. by rewrite strptime_datetime. }
  split_and!; [done|done|done|done| |].
  - rewrite Es. split; [by intros [= <-]|by intros ->].
  - unfold dt_s2mseconds, text. rewrite strptime_datetime by done. bind_simpl.
    destruct (decide _) as [[H1 H2]|Hout].
    + by rewrite (proj2 (Z.leb_le _ _) H1), (proj2 (Z.ltb_lt _ _) H2).
    + destruct (Z.leb_spec (- 2 ^ 63) (mktime t isdst * 1000)); [|done].
      destruct (Z.ltb_spec (mktime t isdst * 1000) (2 ^ 63)); [lia|done].
Qed.

(** The epoch cannot be formatted: the number 0 stands for the current time. *)
Theorem epoch_is_now malloc_ok fmt :
  now <> 0 ->
  datetime_format other_text now localtime malloc_ok 0 fmt =
    datetime_format other_text now localtime malloc_ok now fmt.
Proof using Type. unfold datetime_format. intros Hn. cbn [Z.eqb]. by rewrite (proj2 (Z.eqb_neq now 0)). Qed.

(** A format whose text has 64 bytes or more loses the block. *)
Theorem long_format_leaks timestamp t fmt :
  timestamp <> 0 -> localtime timestamp = Some t -> (64 <= length (format_tm other_text fmt t))%nat ->
  datetime_format other_text now localtime true timestamp fmt = Some (None, 1%nat).
Proof using Type.
  intros Hne Ht Hl. unfold datetime_format, strftime. rewrite (proj2 (Z.eqb_neq timestamp 0)) by done.
  cbn [require]. bind_simpl. rewrite Ht. bind_simpl.
  by rewrite bool_decide_false by (unfold DATETIME_STR_LEN; lia).
Qed.

(** Of a text that does not match, the result is indeterminate. *)
Theorem bad_text_indeterminate isdst fmt s :
  p_sec (strptime other_scan fmt s no_tm) = None -> dt_s2seconds other_scan mktime isdst s fmt = None.
Proof using Type.
  unfold dt_s2seconds, whole_tm. destruct (strptime _ fmt s no_tm) as [[y|] [mo|] [d|] [h|] [mi|] [sec|]];
    cbn; done.
Qed.
End Functions.

(** Later times have no smaller number of milliseconds, and the seconds are in it. *)
Theorem mseconds_monotone sec usec sec' usec' :
  0 <= sec -> sec' < 2 ^ 52 -> 0 <= usec < 1000000 -> 0 <= usec' < 1000000 ->
  sec < sec' \/ (sec = sec' /\ usec <= usec') ->
  exists ms ms', dt_mseconds (sec, usec) = Some ms /\ dt_mseconds (sec', usec') = Some ms' /\ ms <= ms' /\
    Z.quot ms 1000 = dt_seconds (sec, usec).
Proof.
  intros H1 H2 H3 H4 Hle. unfold dt_mseconds, dt_seconds. cbn [fst].
  rewrite !(proj2 (Z.leb_le _ _)), !(proj2 (Z.ltb_lt _ _)) by (Z.to_euclidean_division_equations; lia).
  cbn [andb require]. bind_simpl. eexists _, _. split_and!; [done|done|..];
    Z.to_euclidean_division_equations; lia.
Qed.

(** ** Witnesses *)

(** Noon on the first of November 2019, in a zone without summer time. *)
Definition sample_tm : tm := Tm 119 10 1 12 0 1.

Lemma sample_tm_ok : tm_ok sample_tm.
Proof. unfold tm_ok. cbn. lia. Qed.

Definition sample_localtime (z : Z) : option tm := if z =? 1572609601 then Some sample_tm else None.

(** As [mktime] is documented: a positive [tm_isdst] takes the fields for summer time. *)
Definition sample_mktime (t : tm) (isdst : Z) : Z := if 0 <? isdst then 1572606001 else 1572609601.

(** With 7 in the memory of [tm_isdst], the time comes back an hour early. *)
Lemma datetime_roundtrip_witness :
  let text := [50; 48; 49; 57; 45; 49; 49; 45; 48; 49; 32; 49; 50; 58; 48; 48; 58; 48; 49] in
  dt_date (fun _ _ => []) 5 sample_localtime true 1572609601 = Some (Some (take 10 text), 0%nat) /\
  dt_time (fun _ _ => []) 5 sample_localtime true 1572609601 = Some (Some (drop 11 text), 0%nat) /\
  dt_datetime (fun _ _ => []) 5 sample_localtime true 1572609601 = Some (Some text, 0%nat) /\
  dt_s2seconds (fun _ _ _ => None) sample_mktime 7 text DATE_TIME_FORMAT_STR = Some 1572606001 /\
  (dt_s2seconds (fun _ _ _ => None) sample_mktime 7 text DATE_TIME_FORMAT_STR = Some 1572609601 <->
    sample_mktime sample_tm 7 = 1572609601) /\
  dt_s2mseconds (fun _ _ _ => None) sample_mktime 7 text DATE_TIME_FORMAT_STR = Some 1572606001000.
Proof.
  apply (datetime_roundtrip (fun _ _ => []) (fun _ _ _ => None) 5 sample_localtime sample_mktime
    1572609601 sample_tm 7); [lia|reflexivity|exact sample_tm_ok].
Defined.

Lemma epoch_is_now_witness :
  datetime_format (fun _ _ => []) 1572609601 sample_localtime true 0 TIME_FORMAT_STR =
    datetime_format (fun _ _ => []) 1572609601 sample_localtime true 1572609601 TIME_FORMAT_STR.
Proof. apply (epoch_is_now (fun _ _ => []) 1572609601 sample_localtime true TIME_FORMAT_STR). lia. Defined.

Lemma long_format_leaks_witness :
  datetime_format (fun _ _ => []) 5 sample_localtime true 1572609601 (replicate 64 45) = Some (None, 1%nat).
Proof.
  apply (long_format_leaks (fun _ _ => []) 5 sample_localtime 1572609601 sample_tm (replicate 64 45));
    [lia|reflexivity|vm_compute; lia].
Defined.

Lemma bad_text_indeterminate_witness :
  dt_s2seconds (fun _ _ _ => None) (fun _ _ => 0) 0 [50; 48; 49; 57] DATE_FORMAT_STR = None.
Proof.
  apply (bad_text_indeterminate (fun _ _ _ => None) (fun _ _ => 0) 0 DATE_FORMAT_STR [50; 48; 49; 57]).
  reflexivity.
Defined.

Lemma mseconds_monotone_witness :
  exists ms ms', dt_mseconds (7, 1999) = Some ms /\ dt_mseconds (7, 2000) = Some ms' /\ ms <= ms' /\
    Z.quot ms 1000 = dt_seconds (7, 1999).
Proof. apply (mseconds_monotone 7 1999 7 2000); lia. Defined.
