(* ===== verification/Atomic.v ===== *)
(** Atomic operations on an [int], src/demo_atomic/demo_atomic.c: compare-and-set in assembler,
    and a program that runs each of the compiler's builtins on one counter.

    The builtins are extensions of the language: each reads the cell, computes and writes it in
    one step. A counter is the [Z] of a 32-bit word. *)

From S2P Require Import Prelude.

(** [cmpxchgl] compares the cell with the expected value and stores the new one if they agree;
    [sete] is the result. *)
(* src/demo_atomic/demo_atomic.c:9-24 ske_atomic32_cmpset *)
Definition ske_atomic32_cmpset (dst exp src : Z) : Z * Z :=
  if dst =? exp then (src, 1) else (dst, 0).

(** The new content of the cell and the result: the old or the new content. *)
Definition sync_fetch_and (op : Z -> Z -> Z) (count value : Z) : Z * Z := (i32 (op count value), count).
Definition sync_and_fetch (op : Z -> Z -> Z) (count value : Z) : Z * Z :=
  let new := i32 (op count value) in (new, new).
Definition nand (x y : Z) : Z := Z.lnot (Z.land x y).

Definition sync_bool_compare_and_swap (count oldval newval : Z) : Z * Z :=
  if count =? oldval then (newval, 1) else (count, 0).
Definition sync_val_compare_and_swap (count oldval newval : Z) : Z * Z :=
  if count =? oldval then (newval, count) else (count, count).
Definition sync_lock_test_and_set (count value : Z) : Z * Z := (value, count).

(** The operations of [main] in order. *)
(* src/demo_atomic/demo_atomic.c:30-73 main *)
Definition main_ops : list (Z -> Z * Z) :=
  [ fun count => sync_fetch_and Z.add count 1;
    fun count => sync_fetch_and Z.sub count 1;
    fun count => sync_fetch_and Z.lor count 1;
    fun count => sync_fetch_and Z.land count 1;
    fun count => sync_fetch_and Z.lxor count 1;
    fun count => sync_fetch_and nand count 1;
    fun count => sync_and_fetch Z.add count 1;
    fun count => sync_and_fetch Z.sub count 1;
    fun count => sync_and_fetch Z.lor count 1;
    fun count => sync_and_fetch Z.land count 1;
    fun count => sync_and_fetch Z.lxor count 1;
    fun count => sync_and_fetch nand count 1;
    fun count => sync_bool_compare_and_swap count (-1) 0;
    fun count => sync_val_compare_and_swap count 0 1;
    fun count => sync_lock_test_and_set count 0 ].

(** What is printed after each: [count] and the result. *)
(* src/demo_atomic/demo_atomic.c:28-76 main *)
Fixpoint run_ops (count : Z) (ops : list (Z -> Z * Z)) : list (Z * Z) :=
  match ops with
  | [] => []
  | op :: ops => let '(count, ret) := op count in (count, ret) :: run_ops count ops
  end.

Theorem main_prints :
  run_ops 0 main_ops =
    [(1, 0); (0, 1); (1, 0); (1, 1); (0, 1); (-1, 0); (0, 0); (-1, -1); (-1, -1); (1, 1); (0, 0);
     (-1, -1); (0, 1); (1, 0); (0, 1)].
Proof. reflexivity. Qed.

(** ** Properties *)

(** Compare-and-set is the builtin, and of several that expect the same content and store another
    only the first succeeds, however they follow each other. *)
Theorem cmpset_once dst exp srcs :
  Forall (fun src => src <> exp) srcs ->
  let results := run_ops dst ((fun src count => ske_atomic32_cmpset count exp src) <$> srcs) in
  length (filter (fun r => snd r = 1) results) =
    if (dst =? exp) && negb (bool_decide (srcs = [])) then 1%nat else 0%nat.
Proof.
  cbv zeta. revert dst. induction srcs as [|src srcs IH]; intros dst Hs; [by destruct (dst =? exp)|].
  apply Forall_cons in Hs as [Hsrc Hs]. cbn [fmap list_fmap run_ops]. unfold ske_atomic32_cmpset at 1.
  specialize (IH (if dst =? exp then src else dst) Hs). rewrite (bool_decide_false (src :: srcs = [])) by done.
  destruct (Z.eqb_spec dst exp) as [E|Hd].
  - cbn [andb negb]. rewrite filter_cons_True by done. cbn [length].
    rewrite (proj2 (Z.eqb_neq src exp)) in IH by done. cbn [andb] in IH. by rewrite IH.
  - rewrite filter_cons_False by done. by rewrite (proj2 (Z.eqb_neq dst exp)) in IH.
Qed.

(** ** Witness *)

Lemma cmpset_once_witness :
  length (filter (fun r => snd r = 1)
    (run_ops 5 ((fun src count => ske_atomic32_cmpset count 5 src) <$> [7; 8; 9]))) = 1%nat.
Proof. apply (cmpset_once 5 5 [7; 8; 9]). repeat constructor; lia. Defined.
