(* ===== verification/CountingMalloc.v ===== *)
(** The memory functions of src/demo_libevent/samples/event_mem_management.c, which libevent can be
    told to use: each block is preceded by its size, and the sizes of the live blocks are added up.

    The heap maps the address of a block of the C library to its bytes. [ok] says whether the
    library has memory, [fill] what a new block holds. [None] is undefined behaviour. *)

From S2P Require Import Prelude CString Heap.

Abbreviation heap := (gmap Z (list Z)).

Record state := State { blocks : heap; total_allocated : Z }.

(** The size of the largest of [size_t], a pointer and [double]. *)
(* src/demo_libevent/samples/event_mem_management.c:24-31 ALIGNMENT *)
Definition ALIGNMENT : Z := Z.max 8 (Z.max 8 8).

(* src/demo_libevent/samples/event_mem_management.c:48-48 OUTPTR *)
Definition OUTPTR (p : Z) : Z := p + ALIGNMENT.
(* src/demo_libevent/samples/event_mem_management.c:49-49 INPTR *)
Definition INPTR (p : Z) : Z := p - ALIGNMENT.

(** A [size_t] at the start of a block. *)
Definition put_size (h : heap) (p sz : Z) : option heap :=
  block ← h !! p; block ← store block 0 (le_bytes 8 sz); Some (<[p := block]> h).

Definition get_size (h : heap) (p : Z) : option Z :=
  block ← h !! p; _ ← require (bool_decide (8 <= length block)%nat); Some (word_of (take 8 block)).

Definition fresh_bytes (fill : nat -> Z) (n : nat) : list Z := fill <$> seq 0 n.

(** ** The library's functions *)

Section counting.
Context `{AllocatorOk (list Z)}.

Definition c_malloc (ok : bool) (fill : nat -> Z) (h : heap) (n : Z) : heap * Z :=
  if ok then let p := Heap.malloc h in (<[p := fresh_bytes fill (Z.to_nat n)]> h, p) else (h, 0).

(** The new block may be where the old one was. *)
Definition c_realloc (ok : bool) (fill : nat -> Z) (h : heap) (p n : Z) : option (heap * Z) :=
  if p =? 0 then Some (c_malloc ok fill h n)
  else
    old ← h !! p;
    _ ← require (negb (n =? 0));
    if ok then
      let h := delete p h in
      let q := Heap.malloc h in
      let kept := take (Z.to_nat n) old in
      Some (<[q := kept ++ drop (length kept) (fresh_bytes fill (Z.to_nat n))]> h, q)
    else Some (h, 0).

Definition c_free (h : heap) (p : Z) : option heap := _ ← h !! p; Some (delete p h).

(** ** The replacements *)

(* src/demo_libevent/samples/event_mem_management.c:52-59 replacement_malloc *)
Definition replacement_malloc (ok : bool) (fill : nat -> Z) (s : state) (sz : Z) : option (state * Z) :=
  let '(h, chunk) := c_malloc ok fill (blocks s) (u64 (sz + ALIGNMENT)) in
  if chunk =? 0 then Some (State h (total_allocated s), chunk)
  else
    let total := u64 (total_allocated s + sz) in
    h ← put_size h chunk sz;
    Some (State h total, OUTPTR chunk).

(* src/demo_libevent/samples/event_mem_management.c:60-73 replacement_realloc *)
Definition replacement_realloc (ok : bool) (fill : nat -> Z) (s : state) (ptr sz : Z)
    : option (state * Z) :=
  '(ptr, old_size) ←
    (if negb (ptr =? 0) then
       let ptr := INPTR ptr in
       old_size ← get_size (blocks s) ptr;
       Some (ptr, old_size)
     else Some (ptr, 0));
  '(h, ptr) ← c_realloc ok fill (blocks s) ptr (u64 (sz + ALIGNMENT));
  if ptr =? 0 then Some (State h (total_allocated s), 0)
  else
    h ← put_size h ptr sz;
    Some (State h (u64 (total_allocated s - old_size + sz)), OUTPTR ptr).

(* src/demo_libevent/samples/event_mem_management.c:74-79 replacement_free *)
Definition replacement_free (s : state) (ptr : Z) : option state :=
  let ptr := INPTR ptr in
  sz ← get_size (blocks s) ptr;
  let total := u64 (total_allocated s - sz) in
  h ← c_free (blocks s) ptr;
  Some (State h total).

(** What is printed ([%u]), for the two calls that ask for memory. *)
(* src/demo_libevent/samples/event_mem_management.c:85-100 main *)
Definition counting_main (ok1 ok2 : bool) (fill1 fill2 : nat -> Z) : option (list Z) :=
  let s := State ∅ 0 in
  '(s, p) ← replacement_malloc ok1 fill1 s 1024;
  let t1 := u32 (total_allocated s) in
  '(s, p) ← replacement_realloc ok2 fill2 s p 2048;
  let t2 := u32 (total_allocated s) in
  s ← replacement_free s p;
  let t3 := u32 (total_allocated s) in
  Some [t1; t2; t3].
End counting.

(** * Live blocks

    What the caller has: the blocks it was given and not released, by the addresses it was given,
    with their bytes. *)

Abbreviation live := (gmap Z (list Z)).

Definition sizes (m : live) : Z := map_fold (fun _ d n => Z.of_nat (length d) + n) 0 m.

(** A block behind its size. *)
Definition frame (d : list Z) : list Z := le_bytes 8 (Z.of_nat (length d)) ++ d.

#[global] Instance INPTR_inj : Inj (=) (=) INPTR.
Proof. unfold INPTR. intros p q. lia. Qed.

Record rep (s : state) (m : live) : Prop := {
  rep_blocks : blocks s = kmap INPTR (frame <$> m);
  rep_total : total_allocated s = u64 (sizes m);
  rep_bounds : map_Forall (fun p d => ALIGNMENT < p /\ Z.of_nat (length d) + ALIGNMENT < 2 ^ 64) m;
}.

Lemma ptr_inverse p : OUTPTR (INPTR p) = p /\ INPTR (OUTPTR p) = p.
Proof. unfold OUTPTR, INPTR. lia. Qed.

Lemma sizes_insert m p d : m !! p = None -> sizes (<[p := d]> m) = Z.of_nat (length d) + sizes m.
Proof. intros Hp. unfold sizes. rewrite map_fold_insert_L; [done|intros; lia|done]. Qed.

Lemma sizes_delete m p d : m !! p = Some d -> sizes m = Z.of_nat (length d) + sizes (delete p m).
Proof. intros Hp. unfold sizes. rewrite (map_fold_delete_L _ _ p d m); [done|intros; lia|done]. Qed.

Lemma length_fresh fill n : length (fresh_bytes fill n) = n.
Proof. unfold fresh_bytes. by rewrite length_fmap, length_seq. Qed.

Lemma put_size_spec h p b sz :
  h !! p = Some b -> (8 <= length b)%nat -> put_size h p sz = Some (<[p := le_bytes 8 sz ++ drop 8 b]> h).
Proof.
  intros Hp Hb. unfold put_size. rewrite Hp. bind_simpl.
  rewrite store_ok by (rewrite length_le_bytes; lia). bind_simpl. by rewrite length_le_bytes.
Qed.

Lemma get_size_frame h p d :
  h !! p = Some (frame d) -> Z.of_nat (length d) < 2 ^ 64 -> get_size h p = Some (Z.of_nat (length d)).
Proof.
  intros Hp Hd. unfold get_size. rewrite Hp. bind_simpl. unfold frame.
  rewrite bool_decide_true by (rewrite length_app, length_le_bytes; lia). bind_simpl.
  rewrite take_app_length' by (by rewrite length_le_bytes).
  by rewrite word_of_le_bytes by (cbn; lia).
Qed.

Lemma rep_lookup s m p d : rep s m -> m !! p = Some d -> blocks s !! INPTR p = Some (frame d).
Proof. intros [-> _ _] Hp. rewrite lookup_kmap by apply _. by rewrite lookup_fmap, Hp. Qed.

Lemma rep_fresh s m p : rep s m -> blocks s !! p = None -> m !! OUTPTR p = None.
Proof.
  intros [-> _ _] Hp. rewrite <- (proj2 (ptr_inverse p)) in Hp. rewrite lookup_kmap in Hp by apply _.
  rewrite lookup_fmap in Hp. by destruct (m !! OUTPTR p).
Qed.

(** A block more, a block less. *)
Lemma rep_add s m p d :
  rep s m -> 0 < p -> blocks s !! p = None -> Z.of_nat (length d) + ALIGNMENT < 2 ^ 64 ->
  rep (State (<[p := frame d]> (blocks s)) (u64 (total_allocated s + Z.of_nat (length d))))
    (<[OUTPTR p := d]> m).
Proof.
  intros R Hpos Hp Hd. pose proof (rep_fresh _ _ _ R Hp) as Hm. destruct R as [Hb Ht Hall].
  split; cbn [blocks total_allocated].
  - rewrite fmap_insert, kmap_insert by apply _. by rewrite (proj2 (ptr_inverse p)), Hb.
  - rewrite sizes_insert, Ht by done. rewrite wrap_add_l. f_equal. lia.
  - apply map_Forall_insert_2; [|done]. unfold OUTPTR. lia.
Qed.

Lemma rep_remove s m p d :
  rep s m -> m !! p = Some d ->
  rep (State (delete (INPTR p) (blocks s)) (u64 (total_allocated s - Z.of_nat (length d)))) (delete p m).
Proof.
  intros [Hb Ht Hall] Hp. split; cbn [blocks total_allocated].
  - rewrite fmap_delete, kmap_delete by apply _. by rewrite Hb.
  - rewrite Ht, wrap_sub_l, (sizes_delete _ _ _ Hp). f_equal. lia.
  - by apply map_Forall_delete.
Qed.

Section counting_spec.
Context `{AllocatorOk (list Z)} (malloc_pos : forall h, 0 < Heap.malloc (N := list Z) h).

(** [SIZE_MAX], less the room for the size. *)
Definition fits (sz : Z) : Prop := 0 <= sz /\ sz + ALIGNMENT < 2 ^ 64.

(** What a new block, and a block that is moved, hold for the caller. *)
Definition new_data (fill : nat -> Z) (sz : Z) : list Z :=
  drop 8 (fresh_bytes fill (Z.to_nat (sz + ALIGNMENT))).

Definition moved_data (fill : nat -> Z) (d : list Z) (sz : Z) : list Z :=
  let kept := take (Z.to_nat sz) d in kept ++ drop (length kept) (new_data fill sz).

Lemma length_new_data fill sz : 0 <= sz -> length (new_data fill sz) = Z.to_nat sz.
Proof using Type. intros Hsz. unfold new_data, ALIGNMENT. rewrite length_drop, length_fresh. lia. Qed.

Lemma length_moved_data fill d sz : 0 <= sz -> length (moved_data fill d sz) = Z.to_nat sz.
Proof using Type.
  intros Hsz. unfold moved_data. rewrite length_app, length_drop, length_new_data, length_take by done. lia.
Qed.

Lemma fits_wrap sz : fits sz -> u64 (sz + ALIGNMENT) = sz + ALIGNMENT.
Proof using Type. unfold fits, ALIGNMENT. intros ?. apply wrap_small. lia. Qed.

Lemma malloc_spec fill ok s m sz :
  rep s m -> fits sz ->
  exists s' p, replacement_malloc ok fill s sz = Some (s', p) /\
    (if ok then 0 < p /\ m !! p = None /\ rep s' (<[p := new_data fill sz]> m) else p = 0 /\ s' = s).
Proof using All.
  intros R Hsz. unfold replacement_malloc, c_malloc. rewrite fits_wrap by done. destruct ok.
  - pose proof (malloc_pos (blocks s)) as Hpos. pose proof (malloc_fresh (blocks s)) as Hf.
    set (p := Heap.malloc (blocks s)) in *. destruct (Z.eqb_spec p 0) as [|_]; [lia|].
    erewrite put_size_spec.
    2: apply lookup_insert_eq.
    2: rewrite length_fresh; unfold fits, ALIGNMENT in *; lia.
    bind_simpl. rewrite insert_insert_eq. eexists _, _. split; [done|].
    pose proof (length_new_data fill sz (proj1 Hsz)) as Hl.
    assert (Z.of_nat (length (new_data fill sz)) = sz) as El by (destruct Hsz; lia).
    split_and!; [unfold OUTPTR, ALIGNMENT; lia|by eapply rep_fresh|].
    pose proof (rep_add s m p (new_data fill sz) R Hpos Hf ltac:(rewrite El; apply Hsz)) as R'.
    unfold frame in R'. rewrite El in R'. exact R'.
  - exists s, 0. destruct s. done.
Qed.

(** Moving a framed block and storing the new size is moving its data. *)
Lemma moved_frame fill d sz :
  0 <= sz ->
  let old := frame d in
  let kept := take (Z.to_nat (sz + ALIGNMENT)) old in
  drop 8 (kept ++ drop (length kept) (fresh_bytes fill (Z.to_nat (sz + ALIGNMENT)))) = moved_data fill d sz /\
  (8 <= length (kept ++ drop (length kept) (fresh_bytes fill (Z.to_nat (sz + ALIGNMENT)))))%nat.
Proof using Type.
  intros Hsz old kept.
  assert (kept = le_bytes 8 (Z.of_nat (length d)) ++ take (Z.to_nat sz) d) as Ek.
  { unfold kept, old, frame. unfold ALIGNMENT. rewrite take_app, length_le_bytes.
    rewrite take_ge by (rewrite length_le_bytes; lia). do 2 f_equal. lia. }
  rewrite Ek, length_app, length_le_bytes. split.
  - rewrite <- (assoc_L app), drop_app_length' by (by rewrite length_le_bytes).
    unfold moved_data, new_data. by rewrite drop_drop.
  - rewrite !length_app, length_le_bytes. lia.
Qed.

Lemma realloc_spec fill ok s m p d sz :
  rep s m -> fits sz -> m !! p = Some d ->
  exists s' q, replacement_realloc ok fill s p sz = Some (s', q) /\
    (if ok then 0 < q /\ delete p m !! q = None /\ rep s' (<[q := moved_data fill d sz]> (delete p m))
     else q = 0 /\ s' = s).
Proof using All.
  intros R Hsz Hp. pose proof (rep_bounds _ _ R _ _ Hp) as [Hlo Hd].
  pose proof (rep_lookup _ _ _ _ R Hp) as Hb. unfold replacement_realloc, c_realloc.
  unfold ALIGNMENT in Hlo, Hd. destruct (Z.eqb_spec p 0) as [|_]; [lia|]. cbn [negb].
  rewrite (get_size_frame _ _ _ Hb) by lia. bind_simpl.
  destruct (Z.eqb_spec (INPTR p) 0) as [|_]; [unfold INPTR, ALIGNMENT in *; lia|].
  rewrite Hb, fits_wrap by done. bind_simpl.
  destruct (Z.eqb_spec (sz + ALIGNMENT) 0) as [|_]; [unfold fits, ALIGNMENT in *; lia|].
  change (require (negb false)) with (Some ()). destruct ok; bind_simpl.
  - pose proof (rep_remove _ _ _ _ R Hp) as R1. set (h := delete (INPTR p) (blocks s)) in *.
    pose proof (malloc_pos h) as Hpos. pose proof (malloc_fresh h) as Hf.
    set (q := Heap.malloc h) in *.
    destruct (moved_frame fill d sz (proj1 Hsz)) as [Em Hlen].
    destruct (Z.eqb_spec q 0) as [|_]; [lia|].
    rewrite (put_size_spec _ _ _ _ (lookup_insert_eq _ _ _) Hlen). bind_simpl.
    rewrite insert_insert_eq, Em. eexists _, _. split; [done|].
    pose proof (length_moved_data fill d sz (proj1 Hsz)) as Hl.
    assert (Z.of_nat (length (moved_data fill d sz)) = sz) as El by (destruct Hsz; lia).
    split_and!; [unfold OUTPTR, ALIGNMENT; lia|by apply (rep_fresh _ _ _ R1)|].
    pose proof (rep_add _ _ q (moved_data fill d sz) R1 Hpos Hf ltac:(rewrite El; apply Hsz)) as R'.
    cbn [blocks total_allocated] in R'. unfold frame in R'. rewrite El, wrap_add_l in R'. exact R'.
  - exists s, 0. destruct s. done.
Qed.

Lemma free_spec s m p d :
  rep s m -> m !! p = Some d -> exists s', replacement_free s p = Some s' /\ rep s' (delete p m).
Proof using Type.
  intros R Hp. pose proof (rep_bounds _ _ R _ _ Hp) as [_ Hd]. unfold ALIGNMENT in Hd.
  pose proof (rep_lookup _ _ _ _ R Hp) as Hb. unfold replacement_free, c_free.
  rewrite (get_size_frame _ _ _ Hb) by lia. bind_simpl. rewrite Hb. bind_simpl.
  eexists. split; [done|]. by apply rep_remove.
Qed.
End counting_spec.

(** ** Clients *)

Inductive call :=
  | Malloc (ok : bool) (fill : nat -> Z) (sz : Z)
  | Realloc (ok : bool) (fill : nat -> Z) (p sz : Z)
  | Free (p : Z)
  | Write (p : Z) (k : nat) (bytes : list Z).

Section client.
Context `{AllocatorOk (list Z)} (malloc_pos : forall h, 0 < Heap.malloc (N := list Z) h).

(** A call and the pointer it returns; bytes are written into the block behind the size. *)
Definition exec (s : state) (c : call) : option (state * Z) :=
  match c with
  | Malloc ok fill sz => replacement_malloc ok fill s sz
  | Realloc ok fill p sz => replacement_realloc ok fill s p sz
  | Free p => s ← replacement_free s p; Some (s, 0)
  | Write p k bytes =>
      block ← blocks s !! INPTR p;
      block ← store block (8 + k) bytes;
      Some (State (<[INPTR p := block]> (blocks s)) (total_allocated s), 0)
  end.

(** The caller passes the null pointer or a live block to [realloc], releases and writes live
    blocks, and asks for no more than there are addresses. *)
Definition allowed (m : live) (c : call) : Prop :=
  match c with
  | Malloc _ _ sz => fits sz
  | Realloc _ _ p sz => fits sz /\ (p = 0 \/ is_Some (m !! p))
  | Free p => is_Some (m !! p)
  | Write p k bytes => exists d, m !! p = Some d /\ (k + length bytes <= length d)%nat
  end.

(** What the caller has after a call that returned [r]. *)
Definition after (m : live) (c : call) (r : Z) : live :=
  match c with
  | Malloc _ fill sz => if r =? 0 then m else <[r := new_data fill sz]> m
  | Realloc _ fill p sz =>
      if r =? 0 then m
      else match m !! p with
           | Some d => <[r := moved_data fill d sz]> (delete p m)
           | None => <[r := new_data fill sz]> m
           end
  | Free p => delete p m
  | Write p k bytes => alter (fun d => take k d ++ bytes ++ drop (k + length bytes) d) p m
  end.

(** A block that is returned overlaps none the caller still has. *)
Definition returned_fresh (m : live) (c : call) (r : Z) : Prop :=
  match c with
  | Malloc _ _ _ => r = 0 \/ m !! r = None
  | Realloc _ _ p _ => r = 0 \/ delete p m !! r = None
  | _ => r = 0
  end.

Inductive reach : state -> live -> Prop :=
  | reach_init : reach (State ∅ 0) ∅
  | reach_call s m c s' r : reach s m -> allowed m c -> exec s c = Some (s', r) -> reach s' (after m c r).

Lemma rep_init : rep (State ∅ 0) ∅.
Proof using Type. split; cbn [blocks total_allocated]; [|done|apply map_Forall_empty]. by rewrite fmap_empty, kmap_empty. Qed.

Lemma rep_null s m : rep s m -> m !! 0 = None.
Proof using Type.
  intros R. destruct (m !! 0) eqn:E; [|done]. apply (rep_bounds _ _ R) in E as [Hlo _].
  unfold ALIGNMENT in Hlo. lia.
Qed.

Lemma realloc_null ok fill s sz :
  replacement_realloc ok fill s 0 sz =
    ('(s', p) ← replacement_malloc ok fill s sz; Some (s', p)).
Proof using Type.
  unfold replacement_realloc, replacement_malloc, c_realloc.
  change (0 =? 0) with true. cbn [negb]. bind_simpl. change (0 =? 0) with true. cbn [mbind option_bind].
  destruct (c_malloc ok fill (blocks s) (u64 (sz + ALIGNMENT))) as [h p]. bind_simpl.
  destruct (Z.eqb_spec p 0) as [->|_]; [done|]. destruct (put_size h p sz);
    [bind_simpl|reflexivity]. by rewrite Z.sub_0_r.
Qed.

Lemma write_spec s m p k bytes d :
  rep s m -> m !! p = Some d -> (k + length bytes <= length d)%nat ->
  exists s', exec s (Write p k bytes) = Some (s', 0) /\ rep s' (after m (Write p k bytes) 0).
Proof using Type.
  intros R Hp Hk. cbn [exec after]. rewrite (rep_lookup _ _ _ _ R Hp). bind_simpl.
  pose proof (length_le_bytes 8 (Z.of_nat (length d))) as H8.
  rewrite store_ok by (unfold frame; rewrite length_app; lia). bind_simpl. eexists. split; [done|].
  set (f := fun d : list Z => _). assert (length (f d) = length d) as El.
  { unfold f. rewrite !length_app, length_take, length_drop. lia. }
  assert (alter f p m = <[p := f d]> m) as ->.
  { rewrite <- (insert_id m p d Hp) at 1. rewrite alter_insert_eq. done. }
  replace (take (8 + k) (frame d) ++ bytes ++ drop (8 + k + length bytes) (frame d)) with (frame (f d)).
  2: { unfold frame. rewrite El, <- Nat.add_assoc, take_app_add', drop_app_add' by done.
       by rewrite <- (assoc_L app). }
  pose proof (rep_bounds _ _ R _ _ Hp) as Hd. destruct R as [Hb Ht Hall].
  split; cbn [blocks total_allocated].
  - by rewrite fmap_insert, kmap_insert, <- Hb by apply _.
  - rewrite Ht. f_equal. rewrite (sizes_delete _ _ _ Hp), <- insert_delete_eq.
    rewrite sizes_insert by apply lookup_delete_eq. lia.
  - apply map_Forall_insert_2; [|done]. by rewrite El.
Qed.

Lemma exec_spec s m c :
  rep s m -> allowed m c ->
  exists s' r, exec s c = Some (s', r) /\ returned_fresh m c r /\ rep s' (after m c r).
Proof using All.
  intros R. destruct c as [ok fill sz|ok fill p sz|p|p k bytes]; cbn [allowed].
  - intros Hsz. destruct (malloc_spec malloc_pos fill ok s m sz R Hsz) as (s' & p & E & Hok).
    exists s', p. split; [exact E|]. cbn [returned_fresh after]. destruct ok.
    + destruct Hok as (Hp & Hf & R'). destruct (Z.eqb_spec p 0); [lia|]. auto.
    + destruct Hok as [-> ->]. auto.
  - intros [Hsz Hp]. cbn [exec returned_fresh after]. destruct Hp as [->|[d Hp]].
    + rewrite realloc_null, (rep_null _ _ R).
      destruct (malloc_spec malloc_pos fill ok s m sz R Hsz) as (s' & p & -> & Hok). bind_simpl.
      exists s', p. split; [done|]. destruct ok.
      * destruct Hok as (Hp & Hf & R'). destruct (Z.eqb_spec p 0); [lia|]. split; [right|done].
        by rewrite lookup_delete_ne by lia.
      * destruct Hok as [-> ->]. auto.
    + destruct (realloc_spec malloc_pos fill ok s m p d sz R Hsz Hp) as (s' & q & E & Hok).
      exists s', q. split; [exact E|]. rewrite Hp. destruct ok.
      * destruct Hok as (Hq & Hf & R'). destruct (Z.eqb_spec q 0); [lia|]. auto.
      * destruct Hok as [-> ->]. auto.
  - intros [d Hp]. cbn [exec returned_fresh after].
    destruct (free_spec s m p d R Hp) as (s' & -> & R'). bind_simpl. by exists s', 0.
  - intros (d & Hp & Hk). destruct (write_spec s m p k bytes d R Hp Hk) as (s' & E & R').
    by exists s', 0.
Qed.

Lemma reach_rep s m : reach s m -> rep s m.
Proof using All.
  induction 1 as [|s m c s' r _ R Hc E]; [apply rep_init|].
  destruct (exec_spec s m c R Hc) as (s2 & r2 & E2 & _ & R2). congruence.
Qed.

Lemma sizes_nonneg m : 0 <= sizes m.
Proof using Type. unfold sizes. apply (map_fold_weak_ind (fun n _ => 0 <= n)); lia. Qed.

(** C10. Whichever requests the C library refuses, a client that keeps to the interface is always
    served: no access leaves a block, a block it gets overlaps none it has, its bytes stay what it
    wrote (across [realloc] too), and [total_allocated] is the sum of the sizes of its blocks; when
    it has released them all the heap is empty and the counter 0. *)
Theorem counting_malloc_serves s m :
  reach s m ->
  (forall c, allowed m c -> exists s' r, exec s c = Some (s', r) /\ returned_fresh m c r) /\
  (forall p d, m !! p = Some d -> drop 8 <$> (blocks s !! INPTR p) = Some d) /\
  total_allocated s = u64 (sizes m) /\
  (m = ∅ -> s = State ∅ 0).
Proof using All.
  intros R%reach_rep. split_and!.
  - intros c Hc. destruct (exec_spec s m c R Hc) as (s' & r & E & Hf & _). by exists s', r.
  - intros p d Hp. rewrite (rep_lookup _ _ _ _ R Hp).
    change (drop 8 <$> Some (frame d)) with (Some (drop 8 (frame d))). unfold frame.
    by rewrite drop_app_length' by (by rewrite length_le_bytes).
  - by apply rep_total.
  - intros ->. destruct s as [h t], R as [Hb Ht _]. cbn in Hb, Ht.
    rewrite Hb, Ht, fmap_empty, kmap_empty. done.
Qed.

(** With memory for both requests the program prints 1024, 2048 and 0; when the second one is
    refused it releases the null pointer, and the first block is lost. *)
Theorem counting_main_prints ok2 fill1 fill2 :
  counting_main true ok2 fill1 fill2 = if ok2 then Some [1024; 2048; 0] else None.
Proof using All.
  unfold counting_main.
  destruct (malloc_spec malloc_pos fill1 true _ _ 1024 rep_init ltac:(unfold fits, ALIGNMENT; lia))
    as (s1 & p & -> & Hp & _ & R1). bind_simpl.
  destruct (realloc_spec malloc_pos fill2 ok2 s1 _ p (new_data fill1 1024) 2048 R1
    ltac:(unfold fits, ALIGNMENT; lia) (lookup_insert_eq _ _ _)) as (s2 & q & -> & Hok). bind_simpl.
  assert (delete p (<[p := new_data fill1 1024]> (∅ : live)) = ∅) as Edel
    by (rewrite delete_insert_eq; apply delete_empty).
  destruct ok2.
  - destruct Hok as (Hq & _ & R2). rewrite Edel in R2.
    destruct (free_spec s2 _ q _ R2 (lookup_insert_eq _ _ _)) as (s3 & -> & R3). bind_simpl.
    rewrite delete_insert_eq, delete_empty in R3.
    rewrite (rep_total _ _ R1), (rep_total _ _ R2), (rep_total _ _ R3).
    rewrite !sizes_insert by apply lookup_empty.
    rewrite length_new_data, length_moved_data by lia. done.
  - destruct Hok as [-> ->]. unfold replacement_free, get_size.
    destruct R1 as [-> _ _]. rewrite fmap_insert, kmap_insert, lookup_insert_ne by (apply _ || by intros E; apply INPTR_inj in E; lia).
    by rewrite fmap_empty, kmap_empty, lookup_empty.
Qed.

(** A size within 8 of [SIZE_MAX] wraps around: the block has no room for the size. *)
Theorem malloc_wraps fill s sz :
  2 ^ 64 - ALIGNMENT <= sz < 2 ^ 64 -> replacement_malloc true fill s sz = None.
Proof using All.
  unfold ALIGNMENT. intros Hsz. unfold replacement_malloc, c_malloc.
  assert (u64 (sz + ALIGNMENT) = sz + 8 - 2 ^ 64) as ->.
  { unfold ALIGNMENT. symmetry. apply (Z.mod_unique _ _ 1); lia. }
  pose proof (malloc_pos (blocks s)) as Hp. destruct (Z.eqb_spec (Heap.malloc (blocks s)) 0); [lia|].
  unfold put_size. rewrite lookup_insert_eq. bind_simpl.
  by rewrite store_overflow by (rewrite length_fresh, length_le_bytes; lia).
Qed.
End client.

(** ** Witnesses *)

Import BumpAllocator.

Lemma counting_malloc_serves_witness :
  exists s : state, reach s {[9 := [5; 7]]} /\
  (forall c, allowed {[9 := [5; 7]]} c ->
    exists s' r, exec s c = Some (s', r) /\ returned_fresh {[9 := [5; 7]]} c r) /\
  (forall p d, ({[9 := [5; 7]]} : live) !! p = Some d -> drop 8 <$> (blocks s !! INPTR p) = Some d) /\
  total_allocated s = 2 /\ (({[9 := [5; 7]]} : live) = ∅ -> s = State ∅ 0).
Proof.
  assert (exists s, reach s {[9 := [5; 7]]} /\ total_allocated s = 2) as (s & R & Ht).
  { eexists. split.
    - change ({[9 := [5; 7]]} : live) with (after {[9 := [7; 7]]} (Write 9 0 [5]) 0).
      eapply reach_call.
      + change ({[9 := [7; 7]]} : live) with (after ∅ (Malloc true (fun _ => 7) 2) 9).
        eapply reach_call; [apply reach_init|cbn; unfold fits, ALIGNMENT; lia|vm_compute; reflexivity].
      + exists [7; 7]. split; [reflexivity|cbn; lia].
      + vm_compute. reflexivity.
    - reflexivity. }
  exists s. split; [exact R|].
  destruct (counting_malloc_serves bump_pos s {[9 := [5; 7]]} R) as (H1 & H2 & _ & H4). auto.
Defined.

Lemma counting_main_prints_witness :
  counting_main true true (fun _ => 1) (fun _ => 2) = Some [1024; 2048; 0].
Proof. apply (counting_main_prints bump_pos true). Defined.

Lemma malloc_wraps_witness : replacement_malloc true (fun _ => 0) (State ∅ 0) (2 ^ 64 - 1) = None.
Proof. apply (malloc_wraps bump_pos). unfold ALIGNMENT. lia. Defined.
