(* ===== verification/Commands.v ===== *)
(** The table of demonstrations in src/main.c and what some of them do, the daemon of
    src/demo_daemonize/demo_daemonize.c and the mapped file of src/demo_mmap/demo_mmap.c.

    The results of system calls are arguments. [None] is undefined behaviour, or, where fuel is an
    argument, that it has run out. *)

From S2P Require Import Prelude Heap CString.

(** ** The table *)

(** A function is what it prints; the last entry of a table has none. *)
(* src/main.c:146-152 command *)
Record command := Command { name : list Z; enable : Z; func : option (list Z) }.

(** What was run, in order, or a read behind the table. *)
Inductive outcome := Finished (ran : list (list Z)) | BehindTable.

(** A disabled command is skipped without moving on. *)
(* src/main.c:183-190 main *)
Fixpoint run_commands (fuel : nat) (cmds : list command) (i : nat) : option outcome :=
  match fuel with
  | O => None
  | S fuel =>
      match cmds !! i with
      | None => Some BehindTable
      | Some cmd =>
          match func cmd with
          | None => Some (Finished [])
          | Some _ =>
              if enable cmd =? 0 then run_commands fuel cmds i
              else
                rest ← run_commands fuel cmds (S i);
                Some (match rest with Finished ran => Finished (name cmd :: ran) | BehindTable => BehindTable end)
          end
      end
  end.

(** The table ends the program exactly when every command of it is enabled: then each one is run
    once, in order. A disabled one is tested forever. *)
Theorem run_commands_spec cmds last after :
  Forall (fun cmd => is_Some (func cmd)) cmds -> func last = None ->
  if bool_decide (Forall (fun cmd => enable cmd <> 0) cmds)
  then run_commands (S (length cmds)) (cmds ++ last :: after) 0 = Some (Finished (name <$> cmds))
  else forall fuel, run_commands fuel (cmds ++ last :: after) 0 = None.
Proof.
  intros Hf Hl.
  assert (forall rest pre, Forall (fun cmd => is_Some (func cmd)) rest ->
    if bool_decide (Forall (fun cmd => enable cmd <> 0) rest)
    then run_commands (S (length rest)) (pre ++ rest ++ last :: after) (length pre) = Some (Finished (name <$> rest))
    else forall fuel, run_commands fuel (pre ++ rest ++ last :: after) (length pre) = None) as Hall.
  { induction rest as [|cmd rest IH]; intros pre Hr.
    - rewrite bool_decide_true by done. cbn [run_commands app length]. rewrite list_lookup_middle by done.
      by rewrite Hl.
    - apply Forall_cons in Hr as [[text Hcmd] Hr]. specialize (IH (pre ++ [cmd]) Hr).
      rewrite <- (assoc_L app), length_app, Nat.add_1_r in IH. cbn [app length] in *.
      assert (forall fuel, run_commands (S fuel) (pre ++ cmd :: rest ++ last :: after) (length pre) =
        if enable cmd =? 0 then run_commands fuel (pre ++ cmd :: rest ++ last :: after) (length pre)
        else r ← run_commands fuel (pre ++ cmd :: rest ++ last :: after) (S (length pre));
          Some (match r with Finished ran => Finished (name cmd :: ran) | BehindTable => BehindTable end))
        as Hstep.
      { intros fuel. cbn [run_commands]. rewrite list_lookup_middle by done. by rewrite Hcmd. }
      destruct (Z.eqb_spec (enable cmd) 0) as [E|E].
      + rewrite bool_decide_false by (by rewrite Forall_cons; intros [? _]).
        induction fuel as [|fuel IHf]; [done|]. by rewrite Hstep.
      + case_bool_decide as Hen.
        * rewrite bool_decide_true by (by constructor). rewrite Hstep, IH. done.
        * rewrite bool_decide_false by (by rewrite Forall_cons; intros [_ ?]).
          intros [|fuel]; [done|]. by rewrite Hstep, IH. }
  apply (Hall cmds []). exact Hf.
Qed.

(** ** Demonstrations *)

Section demo_malloc.
Context `{AllocatorOk (list Z)}.

(** [*p = c] for a pointer to the start of a block. *)
Definition poke (h : gmap Z (list Z)) (p c : Z) : option (gmap Z (list Z)) :=
  block ← h !! p; block ← store block 0 [c]; Some (<[p := block]> h).

(** The first block: allocated, written, released and written again. *)
(* src/main.c:50-56 demo_malloc *)
Definition demo_malloc_free (junk : Z) (h : gmap Z (list Z)) : option (gmap Z (list Z)) :=
  let p := Heap.malloc h in
  let h := <[p := [junk]]> h in
  h ← poke h p 65;
  let h := delete p h in
  poke h p 66.

Theorem demo_malloc_uses_freed junk h : demo_malloc_free junk h = None.
Proof using Type.
  unfold demo_malloc_free, poke. rewrite lookup_insert_eq. bind_simpl.
  rewrite store_ok by (cbn; lia). bind_simpl. by rewrite lookup_delete_eq.
Qed.
End demo_malloc.

Abbreviation environment := (gmap (list Z) (list Z)).

Definition PATH : list Z := [80; 65; 84; 72].
Definition DEMO_ENV : list Z := [68; 69; 77; 79; 95; 69; 78; 86].
Definition it_works : list Z := [105; 116; 39; 115; 32; 119; 111; 114; 107; 33].
Definition yes_it_works : list Z := [121; 101; 115; 44; 32] ++ it_works.

(** The values that are printed; a variable that is not set is a null pointer. *)
(* src/main.c:86-103 demo_sysenv *)
Definition demo_sysenv (env : environment) : option (list (list Z)) :=
  path ← env !! PATH;
  let env := <[DEMO_ENV := it_works]> env in
  v1 ← env !! DEMO_ENV;
  let env := <[DEMO_ENV := yes_it_works]> env in
  v2 ← env !! DEMO_ENV;
  let env := delete DEMO_ENV env in
  v3 ← env !! DEMO_ENV;
  Some [path; v1; v2; v3].

Theorem demo_sysenv_prints_null env : demo_sysenv env = None.
Proof.
  unfold demo_sysenv. destruct (env !! PATH); [|done]. bind_simpl. rewrite !lookup_insert_eq.
  bind_simpl. by rewrite lookup_delete_eq.
Qed.

(** What the command wrote is read piece by piece and printed. *)
(* src/main.c:136-140 demo_popen *)
Fixpoint popen_loop (fuel size : nat) (input : list Z) : option (list Z) :=
  match fuel with
  | O => None
  | S fuel =>
      match fgets size input with
      | None => Some []
      | Some (buf, input) => out ← popen_loop fuel size input; Some (c_string buf ++ out)
      end
  end.

(* src/main.c:122-142 demo_popen *)
Definition demo_popen (popen : option (list Z)) : option (list Z) :=
  match popen with
  | None => Some []
  | Some input => popen_loop (S (length input)) (Z.to_nat 10240) input
  end.

Theorem demo_popen_prints input : 0 ∉ input -> demo_popen (Some input) = Some input.
Proof.
  unfold demo_popen. assert (1 < Z.to_nat 10240)%nat as Hsize by lia.
  revert Hsize. generalize (Z.to_nat 10240). intros size Hsize.
  generalize (Nat.lt_succ_diag_r (length input)). generalize (S (length input)) as fuel.
  intros fuel. revert input. induction fuel as [|fuel IH]; intros input Hf Hn; [lia|].
  cbn [popen_loop]. unfold fgets. destruct input as [|c input]; [done|].
  destruct (take_line (size - 1) (c :: input)) as [line rest] eqn:E.
  apply take_line_spec in E as (Ei & _ & Hne). specialize (Hne ltac:(lia) ltac:(done)).
  rewrite <- Ei in *. rewrite elem_of_app in Hn. rewrite length_app in Hf.
  rewrite c_string_whole, IH by (destruct line; [done|cbn in Hf; lia] || tauto). done.
Qed.

(** ** The daemon *)

Inductive process := Exited (status : Z) | Running (session_leader : bool) (at_root : bool) (open : gset Z).

Definition EXIT_FAILURE : Z := 1.
Definition EXIT_SUCCESS : Z := 0.

(** The results of [fork], [setsid] and [chdir], and the descriptors that are open. *)
(* src/demo_daemonize/demo_daemonize.c:8-31 daemonize *)
Definition daemonize (fork setsid chdir : Z) (open : gset Z) : process :=
  let pid := fork in
  if pid <? 0 then Exited EXIT_FAILURE
  else if 0 <? pid then Exited EXIT_SUCCESS
  else
    let sid := setsid in
    if sid <? 0 then Exited EXIT_FAILURE
    else if chdir <? 0 then Exited EXIT_FAILURE
    else Running true true (open ∖ {[1]} ∖ {[2]} ∖ {[0]}).

(** Only the child goes on, and only as the leader of a session, in the root directory and without
    a terminal. *)
Theorem daemonize_detaches fork setsid chdir open leader at_root open' :
  daemonize fork setsid chdir open = Running leader at_root open' ->
  fork = 0 /\ 0 <= setsid /\ 0 <= chdir /\ leader = true /\ at_root = true /\
  forall fd, fd ∈ open' <-> fd ∈ open /\ fd <> 0 /\ fd <> 1 /\ fd <> 2.
Proof.
  unfold daemonize. destruct (Z.ltb_spec fork 0), (Z.ltb_spec 0 fork), (Z.ltb_spec setsid 0),
    (Z.ltb_spec chdir 0); try done. intros [= <- <- <-]. split_and!; try lia; try done. set_solver.
Qed.

(** ** A file in memory *)

Definition page : nat := Z.to_nat 4096.

(** What can be read of a mapped file: its bytes, and zeros up to the end of the last page. *)
Definition mapped (content : list Z) : list Z :=
  content ++ replicate ((page - length content mod page) mod page)%nat 0.

(** The text that is printed, [None] after an error message, and what main returns. [content] is
    the file, [None] when it cannot be opened: then its size is never stored. An empty mapping is
    refused. *)
(* src/demo_mmap/demo_mmap.c:46-71 main *)
Definition mmap_main (content : option (list Z)) (mmap_ok : bool) : option (option (list Z) * Z) :=
  content ← content;
  let start := if bool_decide (content = []) || negb mmap_ok then None else Some (mapped content) in
  match start with
  | None => Some (None, -1)
  | Some start => text ← text_in start; Some (Some text, 0)
  end.

(** A text file is printed whole, unless it fills its last page: then no NUL follows it. *)
Theorem mmap_main_prints content :
  content <> [] -> 0 ∉ content ->
  mmap_main (Some content) true =
    if bool_decide (length content mod page = 0)%nat then None else Some (Some content, 0).
Proof.
  intros Hc Hn. unfold mmap_main. bind_simpl. rewrite (bool_decide_false (content = [])) by done.
  cbn [orb negb]. assert (page <> 0%nat) as Hp by (unfold page; lia). unfold mapped.
  pose proof (Nat.mod_upper_bound (length content) page Hp) as Hm.
  case_bool_decide as E.
  - rewrite E, Nat.sub_0_r, Nat.Div0.mod_same by done. cbn [replicate]. rewrite app_nil_r.
    unfold text_in. by rewrite bool_decide_false.
  - rewrite (Nat.mod_small (page - _)) by lia.
    destruct (page - length content mod page)%nat as [|n] eqn:En; [lia|]. cbn [replicate].
    destruct (holds_text (content ++ 0 :: replicate n 0) content) as [_ ->]; [|done].
    split; [done|by eexists].
Qed.

(** ** Witnesses *)

Lemma run_commands_spec_witness :
  run_commands 3 [Command [97] 1 (Some []); Command [98] 1 (Some []); Command [] 0 None] 0
    = Some (Finished [[97]; [98]]) /\
  forall fuel, run_commands fuel [Command [97] 0 (Some []); Command [] 0 None] 0 = None.
Proof.
  split.
  - apply (run_commands_spec [Command [97] 1 (Some []); Command [98] 1 (Some [])] (Command [] 0 None) []).
    + repeat constructor; eauto.
    + reflexivity.
  - apply (run_commands_spec [Command [97] 0 (Some [])] (Command [] 0 None) []).
    + repeat constructor; eauto.
    + reflexivity.
Defined.

Lemma demo_popen_prints_witness : demo_popen (Some [104; 10; 105]) = Some [104; 10; 105].
Proof. apply (demo_popen_prints [104; 10; 105]). rewrite !elem_of_cons, elem_of_nil. lia. Defined.

Lemma daemonize_detaches_witness :
  0 = 0 /\ 0 <= 7 /\ 0 <= 0 /\ true = true /\ true = true /\
  forall fd : Z, fd ∈ ({[3; 1]} ∖ {[1]} ∖ {[2]} ∖ {[0]} : gset Z) <->
    fd ∈ ({[3; 1]} : gset Z) /\ fd <> 0 /\ fd <> 1 /\ fd <> 2.
Proof. apply (daemonize_detaches 0 7 0 {[3; 1]} true true). reflexivity. Defined.

Lemma mmap_main_prints_witness : mmap_main (Some [104; 105]) true = Some (Some [104; 105], 0).
Proof.
  rewrite (mmap_main_prints [104; 105]).
  - reflexivity.
  - discriminate.
  - rewrite !elem_of_cons, elem_of_nil. lia.
Defined.
