(* ===== verification/OpenSsl.v ===== *)
(** The programs around OpenSSL: demo_openssl/demo_aes/demo_aes.c, demo_sha/demo_sha.c and
    demo_md5/demo_md.c. The cipher and the digests of OpenSSL are parameters. *)

From S2P Require Import Prelude CString Md5.

(** ** AES *)

Inductive MODE := MODE_DECRYPT | MODE_ENCRYPT.

(** What one call of the library makes of its input: [None] is its error. *)
Record cipher := Cipher {
  EVP_CipherUpdate : MODE -> list Z -> list Z -> list Z -> option (list Z);
  EVP_CipherFinal : MODE -> list Z -> list Z -> list Z -> option (list Z);
}.

(** CFB turns a block cipher into a stream cipher: as many bytes come out as go in, at once,
    nothing is left for the end, and decryption gives the bytes back. *)
Class CfbOk (aes : cipher) := {
  cfb_update m key iv data :
    exists out, EVP_CipherUpdate aes m key iv data = Some out /\ length out = length data;
  cfb_final m key iv data : EVP_CipherFinal aes m key iv data = Some [];
  cfb_inverse key iv data out :
    EVP_CipherUpdate aes MODE_ENCRYPT key iv data = Some out ->
    EVP_CipherUpdate aes MODE_DECRYPT key iv out = Some data;
}.

Section aes.
Context (aes : cipher).

(** The bytes of [out] and what [out_len] points to afterwards; [None] in its place is a value
    that was never stored. Both calls store at the start of [out]. *)
(* src/demo_openssl/demo_aes/demo_aes.c:14-47 evp_aes_crypt *)
Definition evp_aes_crypt (input : list Z) (in_len : Z) (out : list Z) (out_len : option Z)
    (key iv : list Z) (mode : MODE) : option (list Z * option Z) :=
  let data := take (Z.to_nat in_len) input in
  match EVP_CipherUpdate aes mode key iv data with
  | None => Some (out, out_len)
  | Some text =>
      out ← store out 0 text;
      let out_len := Some (Z.of_nat (length text)) in
      match EVP_CipherFinal aes mode key iv data with
      | None => Some (out, out_len)
      | Some text =>
          out ← store out 0 text;
          Some (out, Some (Z.of_nat (length text)))
      end
  end.

Definition admin : list Z := [97; 100; 109; 105; 110].
Definition aes_key : list Z := [48; 49; 50; 51; 52; 53; 54; 55; 56; 57; 97; 98; 99; 100; 101; 70].
Definition aes_iv : list Z := [49; 50; 51; 52; 53; 54; 55; 56; 56; 55; 54; 53; 52; 51; 50; 49].

(** The pairs of texts that are printed; the two buffers start with any contents. *)
(* src/demo_openssl/demo_aes/demo_aes.c:50-69 main *)
Definition aes_main (inp out : list Z) : option (list (list Z * list Z)) :=
  let key := aes_key in
  let iv := aes_iv in
  let '(text, in_len) := snprintf admin 512 in
  inp ← store inp 0 text;
  '(out, out_len) ← evp_aes_crypt inp in_len out None key iv MODE_ENCRYPT;
  out_len ← out_len;
  out ← store out (Z.to_nat out_len) [0];
  t1 ← text_in inp;
  t2 ← text_in out;
  '(inp, in_len) ← evp_aes_crypt out out_len inp (Some in_len) key iv MODE_DECRYPT;
  in_len ← in_len;
  inp ← store inp (Z.to_nat in_len) [0];
  t3 ← text_in out;
  t4 ← text_in inp;
  Some [(t1, t2); (t3, t4)].

Context `{CfbOk aes}.

(** The cipher text is stored, as many bytes as there were, but the reported length is the number
    of bytes the second call had left: none. *)
Lemma evp_aes_crypt_spec input out out_len key iv mode n :
  (n <= length input)%nat -> (n <= length out)%nat ->
  exists text, EVP_CipherUpdate aes mode key iv (take n input) = Some text /\ length text = n /\
    evp_aes_crypt input (Z.of_nat n) out out_len key iv mode
      = Some (text ++ drop n out, Some 0).
Proof using All.
  intros Hn Ho. unfold evp_aes_crypt. rewrite Nat2Z.id.
  destruct (cfb_update mode key iv (take n input)) as (text & E & Hl).
  rewrite length_take_le in Hl by done. exists text. split_and!; [done|done|].
  rewrite E, cfb_final. rewrite store_ok by lia. bind_simpl. rewrite store_ok by (cbn; lia).
  bind_simpl. cbn [app take drop length Nat.add]. rewrite take_0, Hl. done.
Qed.

(** So the two texts are cut at once, and nothing is decrypted. *)
Lemma text_cut (b : list Z) : (0 < length b)%nat ->
  exists b', store b 0 [0] = Some b' /\ length b' = length b /\ text_in b' = Some [].
Proof using Type.
  intros Hl. destruct (store_text b []) as (b' & E & Hb & Hl'); [by apply not_elem_of_nil|done|].
  exists b'. apply holds_text in Hb as [_ ?]. done.
Qed.
End aes.

(** What demo_aes prints for any cipher in CFB mode: the text that goes in, and three empty
    texts. *)
Theorem aes_main_prints_nothing aes inp out :
  CfbOk aes -> length inp = Z.to_nat 512 -> length out = Z.to_nat 512 ->
  aes_main aes inp out = Some [(admin, []); ([], [])].
Proof.
  intros Haes Hi Ho. unfold aes_main. rewrite snprintf_fits by (cbn; lia).
  destruct (store_text inp admin) as (inp1 & E1 & Hb1 & Hl1);
    [unfold admin; rewrite !elem_of_cons, elem_of_nil; lia|cbn; lia|].
  rewrite E1. bind_simpl. apply holds_text in Hb1 as [_ Ht1].
  destruct (evp_aes_crypt_spec aes inp1 out None aes_key aes_iv MODE_ENCRYPT (length admin))
    as (text & _ & Hl & ->); [cbn; lia..|].
  bind_simpl. change (Z.to_nat 0) with O.
  destruct (text_cut (text ++ drop (length admin) out)) as (out1 & -> & Hl2 & Ht2);
    [rewrite length_app, length_drop; lia|].
  rewrite length_app, length_drop in Hl2. bind_simpl. rewrite Ht1, Ht2. bind_simpl.
  destruct (evp_aes_crypt_spec aes out1 inp1 (Some (Z.of_nat (length admin))) aes_key aes_iv
    MODE_DECRYPT 0) as (text' & _ & Hl3 & E); [lia..|].
  change (Z.of_nat 0) with 0 in E. rewrite E. apply nil_length_inv in Hl3 as ->.
  bind_simpl. cbn [app]. rewrite drop_0. change (Z.to_nat 0) with O.
  destruct (text_cut inp1) as (inp2 & -> & _ & Ht4); [lia|]. bind_simpl. by rewrite Ht4.
Qed.

(** ** Digests *)

Section sha.
Context (SHA256 : list Z -> list Z).

(** A byte in two digits, written over what [tmp] held, goes behind the text of [buf]. *)
(* src/demo_openssl/demo_sha/demo_sha.c:17-20 main *)
Fixpoint sha_loop (md tmp buf : list Z) : option (list Z) :=
  match md with
  | [] => Some buf
  | b :: md =>
      tmp ← store tmp 0 (sprintf_02x false b ++ [0]);
      buf ← strcat buf (c_string tmp);
      sha_loop md tmp buf
  end.

(** [buf] starts with any contents. *)
(* src/demo_openssl/demo_sha/demo_sha.c:9-24 main *)
Definition sha_main (buf : list Z) : option (list Z) :=
  let src := [104; 101; 108; 108; 111] in
  md ← store (replicate 33 0) 0 (SHA256 src);
  let tmp := replicate 3 0 in
  buf ← sha_loop (take 32 md) tmp buf;
  buf ← store buf 65 [0];
  text_in buf.

Lemma hex_no_nul b : is_byte b -> 0 ∉ sprintf_02x false b.
Proof using Type.
  intros Hb. unfold sprintf_02x, hex_digit. unfold is_byte in Hb.
  rewrite !elem_of_cons, elem_of_nil.
  pose proof (Z.div_pos b 16). pose proof (Z.mod_pos_bound b 16).
  destruct (b / 16 <? 10), (b mod 16 <? 10); lia.
Qed.

(** From an empty text the loop makes the digits of the digest. *)
Theorem sha_loop_spec md tmp buf s :
  bytes_ok md -> length tmp = 3%nat -> holds buf s -> (length s + 2 * length md < length buf)%nat ->
  exists buf', sha_loop md tmp buf = Some buf' /\ length buf' = length buf /\
    holds buf' (s ++ flat_map (sprintf_02x false) md).
Proof using Type.
  intros Hmd. revert tmp buf s. induction Hmd as [|b md Hb Hmd IH]; intros tmp buf s Ht Hs Hl.
  { exists buf. cbn [flat_map]. rewrite app_nil_r. done. }
  cbn [sha_loop flat_map]. cbn [length] in Hl.
  destruct (store_text tmp (sprintf_02x false b)) as (tmp' & -> & Htmp & Hlt);
    [by apply hex_no_nul|cbn; lia|].
  bind_simpl. apply holds_text in Htmp as [-> _].
  destruct (strcat_spec buf s (sprintf_02x false b)) as (buf' & -> & Hb' & Hlb);
    [done|by apply hex_no_nul|cbn; lia|].
  bind_simpl. destruct (IH tmp' buf' (s ++ sprintf_02x false b)) as (buf'' & -> & Hlb' & Hb'');
    [by rewrite Hlt|done|rewrite length_app; cbn; lia|].
  exists buf''. rewrite (assoc_L app). split_and!; [done|lia|done].
Qed.

Lemma sha_loop_length md tmp buf buf' : sha_loop md tmp buf = Some buf' -> length buf' = length buf.
Proof using Type.
  revert tmp buf. induction md as [|b md IH]; intros tmp buf; cbn [sha_loop]; [by intros [= ->]|].
  intros (tmp' & E1 & (b' & E2 & ->%IH)%bind_Some)%bind_Some. by apply store_length in E2.
Qed.

(** But the buffer is not initialised, and in the end a NUL is stored behind it. *)
Theorem sha_main_overflows buf : length buf = 65%nat -> sha_main buf = None.
Proof using Type.
  intros Hl. unfold sha_main. destruct (store _ 0 (SHA256 _)) as [md|]; [|done]. bind_simpl.
  destruct (sha_loop _ _ _) as [buf'|] eqn:E; [|done]. bind_simpl. apply sha_loop_length in E.
  by rewrite store_overflow by (cbn; lia).
Qed.
End sha.

(* src/demo_openssl/demo_md5/md5.h:19-19 MD5_UPPER *)
Definition MD5_UPPER : Z := Z.shiftl 1 0.

(** The digest of the text, then the digest of the digest; [buf0] is what the contexts start
    with. *)
(* src/demo_openssl/demo_md5/demo_md.c:22-29 main *)
Definition md_main (buf0 md5 : list Z) : option (list Z * list Z) :=
  let data := admin in
  digest ← get_md5 buf0 data (Z.of_nat (length (c_string data))) MD5_UPPER;
  md5 ← store md5 0 digest;
  t1 ← text_in md5;
  digest ← get_md5 buf0 t1 (Z.of_nat (length t1)) MD5_UPPER;
  md5 ← store md5 0 digest;
  t2 ← text_in md5;
  Some (t1, t2).

Lemma hex_length lower bs : length (flat_map (sprintf_02x lower) bs) = (2 * length bs)%nat.
Proof. induction bs as [|b bs IH]; [done|]. cbn [flat_map]. rewrite length_app, IH. cbn. lia. Qed.

(** The 32 digits and their NUL do not fit the buffer of 32. *)
Theorem md_main_overflows buf0 md5 :
  length buf0 = 64%nat -> length md5 = 32%nat -> md_main buf0 md5 = None.
Proof.
  intros Hb Hl.
  assert (get_md5 buf0 admin (Z.of_nat (length admin)) MD5_UPPER
    = Some (flat_map (sprintf_02x (Z.testbit MD5_UPPER 1)) (rfc_md5 admin) ++ [0])) as E.
  { apply get_md5_spec; [done| |cbn; lia]. unfold admin. repeat constructor; unfold is_byte; lia. }
  pose proof (proj2 (rfc_md5_ok admin)) as Hd.
  revert E Hd. generalize (rfc_md5 admin). intros digest E Hd.
  unfold md_main. rewrite c_string_whole by (unfold admin; rewrite !elem_of_cons, elem_of_nil; lia).
  rewrite E. bind_simpl. rewrite store_overflow; [done|].
  rewrite Hl, length_app, hex_length, Hd. cbn. lia.
Qed.

(** ** Witnesses *)

(** A cipher for the witness: every byte is changed by the first byte of the key. *)
Definition toy_cipher : cipher :=
  Cipher (fun _ key _ data => Some (Z.lxor (nth 0 key 0) <$> data)) (fun _ _ _ _ => Some []).

#[local] Instance toy_cipher_ok : CfbOk toy_cipher.
Proof.
  split.
  - intros m key iv data. eexists. split; [done|]. apply length_fmap.
  - done.
  - intros key iv data out [= <-]. cbn. f_equal. rewrite <- list_fmap_compose.
    rewrite <- (list_fmap_id data) at 2. apply list_fmap_ext. intros _ x _. cbn.
    by rewrite <- Z.lxor_assoc, Z.lxor_nilpotent, Z.lxor_0_l.
Qed.

Lemma aes_main_prints_nothing_witness :
  aes_main toy_cipher (replicate (Z.to_nat 512) 7) (replicate (Z.to_nat 512) 9)
    = Some [(admin, []); ([], [])].
Proof.
  apply (aes_main_prints_nothing toy_cipher);
    [apply toy_cipher_ok|apply length_replicate|apply length_replicate].
Defined.

Lemma sha_loop_spec_witness :
  exists buf', sha_loop [171; 5] (replicate 3 0) (0 :: replicate 5 1) = Some buf' /\
    length buf' = 6%nat /\ holds buf' [65; 66; 48; 53].
Proof.
  apply (sha_loop_spec [171; 5] (replicate 3 0) (0 :: replicate 5 1) []).
  - repeat constructor; unfold is_byte; lia.
  - reflexivity.
  - split; [apply not_elem_of_nil|by eexists].
  - cbn. lia.
Defined.

Lemma sha_main_overflows_witness : sha_main (fun _ => replicate 32 17) (replicate 65 0) = None.
Proof. apply sha_main_overflows. reflexivity. Defined.

Lemma md_main_overflows_witness : md_main (replicate 64 0) (replicate 32 0) = None.
Proof. apply md_main_overflows; reflexivity. Defined.
