(* ===== verification/Layout.v ===== *)
(** The layout of structures: demo__attribute__/demo_attr.c, and the entries of the queues in
    demo_TAILQ/tailq.c and demo_LIST/list.c.

    The sizes are those of the x86-64 System V ABI. A structure is the list of its fields; each
    field is placed behind the one before, at the next multiple of its alignment, and the whole is
    filled up to a multiple of the largest alignment. [packed] makes every alignment 1. *)

From S2P Require Import Prelude CString Double.

Inductive ctype :=
  | Scalar (bytes : Z)
  | Array (elt : ctype) (count : nat)
  | Struct (packed : bool) (fields : list ctype).

(** The next multiple of [a]. *)
Definition align_up (a x : Z) : Z := (x + a - 1) / a * a.

Fixpoint alignof (t : ctype) : Z :=
  match t with
  | Scalar n => n
  | Array t _ => alignof t
  | Struct packed fs => if packed : bool then 1 else foldr (fun f a => Z.max (alignof f) a) 1 fs
  end.

Section place.
Context (packed : bool) (sizeof : ctype -> Z).

Definition field_align (t : ctype) : Z := if packed then 1 else alignof t.

(** The offsets of the fields, and where the last one ends. *)
Fixpoint place (at_ : Z) (fs : list ctype) : list Z * Z :=
  match fs with
  | [] => ([], at_)
  | f :: fs =>
      let at_ := align_up (field_align f) at_ in
      let '(os, last) := place (at_ + sizeof f) fs in (at_ :: os, last)
  end.
End place.

Fixpoint sizeof (t : ctype) : Z :=
  match t with
  | Scalar n => n
  | Array t n => sizeof t * Z.of_nat n
  | Struct packed fs => align_up (alignof (Struct packed fs)) (place packed sizeof 0 fs).2
  end.

Definition offsets (t : ctype) : list Z :=
  match t with Struct packed fs => (place packed sizeof 0 fs).1 | _ => [] end.

Definition char : ctype := Scalar 1.
Definition short : ctype := Scalar 2.
Definition int : ctype := Scalar 4.
Definition float : ctype := Scalar 4.
Definition double : ctype := Scalar 8.
Definition pointer : ctype := Scalar 8.

(** ** demo_attr.c *)

(* src/demo__attribute__/demo_attr.c:7-10 position_t *)
Definition position_t : ctype := Struct false [double; double].
(* src/demo__attribute__/demo_attr.c:13-16 position_packed_t *)
Definition position_packed_t : ctype := Struct true [double; double].
(* src/demo__attribute__/demo_attr.c:18-21 demo_t *)
Definition demo_t : ctype := Struct false [char; int].
(* src/demo__attribute__/demo_attr.c:23-26 demo_packed_t *)
Definition demo_packed_t : ctype := Struct true [char; int].
(* src/demo__attribute__/demo_attr.c:29-35 test *)
Definition test : ctype := Struct false [char; short; float; char].

(** The lines of numbers that are printed. *)
(* src/demo__attribute__/demo_attr.c:37-55 main *)
Definition attr_main : list (list Z) :=
  [[sizeof double; sizeof position_t; sizeof position_packed_t];
   [sizeof char; sizeof int; sizeof demo_t];
   [sizeof char; sizeof int; sizeof demo_packed_t];
   [sizeof test]].

(** ** The queues *)

(* src/demo_TAILQ/tailq.c:11-14 data *)
Definition tailq_data : ctype := Struct false [Array char (Z.to_nat 1024); int].
(* src/demo_TAILQ/tailq.c:16-19 entry *)
Definition tailq_entry : ctype := Struct false [tailq_data; Struct false [pointer; pointer]].

(* src/demo_LIST/list.c:10-13 data *)
Definition list_data : ctype := Struct false [int; Array char 24].
(* src/demo_LIST/list.c:16-19 list_entry *)
Definition list_entry : ctype := Struct false [list_data; Struct false [pointer; pointer]].

Definition hello_world : list Z := [104; 101; 108; 108; 111; 44; 119; 111; 114; 108; 100; 46; 49].

(** The first item of the tail queue: a block as large as a pointer, and the text stored in it;
    [junk] is what the block holds. *)
(* src/demo_TAILQ/tailq.c:35-36 main *)
Definition tailq_item (junk : Z -> list Z) : option (list Z * Z) :=
  let item := junk (sizeof pointer) in
  let '(text, buf_len) := snprintf hello_world 1024 in
  item ← store item 0 text;
  Some (item, buf_len).

(** An item of the list: its number, and [sprintf] of item- and the number in the field [name]. *)
(* src/demo_LIST/list.c:33-35 main *)
Definition list_item (junk : Z -> list Z) (id : Z) : option (Z * list Z) :=
  let item := junk (sizeof list_entry) in
  name ← store (take 24 (drop 4 item)) 0 ([105; 116; 101; 109; 45] ++ format_d id ++ [0]);
  Some (id, name).

(** ** Alignment *)

Lemma align_up_spec a x : 0 < a -> x <= align_up a x < x + a /\ (a | align_up a x).
Proof.
  intros Ha. unfold align_up. split; [|by exists ((x + a - 1) / a)].
  pose proof (Z.div_mod (x + a - 1) a ltac:(lia)) as E.
  pose proof (Z.mod_pos_bound (x + a - 1) a Ha). nia.
Qed.

Lemma align_up_1 x : align_up 1 x = x.
Proof. unfold align_up. rewrite Z.div_1_r. lia. Qed.

(** Types whose scalars have a positive size. *)
Fixpoint sized (t : ctype) : Prop :=
  match t with
  | Scalar n => 0 < n
  | Array t _ => sized t
  | Struct _ fs => foldr (fun f P => sized f /\ P) True fs
  end.

Lemma sized_fields p fs : sized (Struct p fs) -> Forall sized fs.
Proof. induction fs as [|f fs IH]; [by constructor|]. intros [Hf Hfs]. constructor; [done|]. by apply IH. Qed.

(** A structure is reached through its fields. *)
Lemma ctype_ind' (P : ctype -> Prop) :
  (forall n, P (Scalar n)) -> (forall t n, P t -> P (Array t n)) ->
  (forall p fs, Forall P fs -> P (Struct p fs)) -> forall t, P t.
Proof.
  intros Hs Ha Hr. fix IH 1. intros [n|t n|p fs]; [apply Hs|apply Ha, IH|apply Hr].
  induction fs as [|f fs IHfs]; constructor; [apply IH|apply IHfs].
Qed.

Lemma alignof_pos t : sized t -> 0 < alignof t.
Proof.
  induction t as [n|t n IH|p fs _] using ctype_ind'; [done|by apply IH|].
  intros _. cbn [alignof]. destruct p; [lia|]. induction fs as [|f fs IHf]; cbn; lia.
Qed.

(** ** Placing the fields *)

Section place_spec.
Context (packed : bool) (size : ctype -> Z).

(** Each field starts at a multiple of its alignment, behind the ones before it. *)
Definition placed_between (lo hi : Z) (f : ctype) (o : Z) : Prop :=
  lo <= o /\ o + size f <= hi /\ (field_align packed f | o).

Lemma field_align_pos f : sized f -> 0 < field_align packed f.
Proof using Type. unfold field_align. destruct packed; [lia|]. apply alignof_pos. Qed.

Lemma place_spec fs at_ os last :
  Forall sized fs -> Forall (fun f => 0 <= size f) fs ->
  place packed size at_ fs = (os, last) ->
  at_ <= last /\ Forall2 (placed_between at_ last) fs os /\
  forall i j f o o', (i < j)%nat -> fs !! i = Some f -> os !! i = Some o -> os !! j = Some o' ->
    o + size f <= o'.
Proof using Type.
  intros Hs Hp. revert at_ os last. induction Hs as [|f fs Hf Hs IH]; intros at_ os last; cbn [place].
  { intros [= <- <-]. split_and!; [lia|constructor|done]. }
  apply Forall_cons in Hp as [Hf0 Hp].
  destruct (place _ _ _ fs) as [os' last'] eqn:E. intros [= <- <-].
  destruct (IH Hp _ _ _ E) as (Hle & Hall & Hdisj). clear IH E.
  pose proof (align_up_spec (field_align packed f) at_ (field_align_pos f Hf)) as [[Hlo _] Hdiv].
  split_and!; [lia| |].
  - constructor; [split_and!; [done|lia|done]|].
    eapply Forall2_impl; [exact Hall|]. intros g o (? & ? & ?). split_and!; [lia|lia|done].
  - intros [|i] [|j] g o o' Hij Hg Ho Ho'; cbn in *; [lia| |lia|].
    + simplify_eq/=. destruct (Forall2_lookup_r _ _ _ _ _ Hall Ho') as (h & _ & ? & _). lia.
    + eapply (Hdisj i j); [lia|done..].
Qed.

(** Packed, the fields follow each other without a gap. *)
Lemma place_packed fs at_ :
  packed = true -> (place packed size at_ fs).2 = at_ + foldr (fun f n => size f + n) 0 fs.
Proof using Type.
  intros Hpk. revert at_. induction fs as [|f fs IH]; intros at_; cbn [place foldr]; [cbn; lia|].
  unfold field_align. rewrite Hpk, align_up_1. specialize (IH (at_ + size f)). rewrite Hpk in IH.
  destruct (place _ _ _ fs) as [os last]. cbn in *. lia.
Qed.
End place_spec.

Lemma sizeof_pos t : sized t -> 0 <= sizeof t.
Proof.
  induction t as [n|t n IH|p fs IH] using ctype_ind'; cbn [sizeof].
  - cbn. lia.
  - cbn [sized]. intros H%IH. nia.
  - intros H. pose proof (alignof_pos _ H) as Ha. apply sized_fields in H.
    destruct (place p sizeof 0 fs) as [os last] eqn:E.
    assert (Forall (fun f => 0 <= sizeof f) fs) as Hp.
    { apply (Forall_impl (fun f => sized f /\ (sized f -> 0 <= sizeof f)));
        [by apply Forall_and|naive_solver]. }
    destruct (place_spec p sizeof fs 0 os last H Hp E) as (? & _).
    pose proof (align_up_spec (alignof (Struct p fs)) last Ha). cbn [snd]. lia.
Qed.

(** Every field of a structure lies inside it at a multiple of its alignment, no two overlap, and
    the size is a multiple of the alignment, so that the elements of an array are aligned too;
    packed, there is no gap. *)
Theorem layout_sound p fs :
  sized (Struct p fs) ->
  Forall2 (placed_between p sizeof 0 (sizeof (Struct p fs))) fs (offsets (Struct p fs)) /\
  (forall i j f o o', (i < j)%nat -> fs !! i = Some f -> offsets (Struct p fs) !! i = Some o ->
    offsets (Struct p fs) !! j = Some o' -> o + sizeof f <= o') /\
  (alignof (Struct p fs) | sizeof (Struct p fs)) /\
  (p = true -> sizeof (Struct p fs) = foldr (fun f n => sizeof f + n) 0 fs).
Proof.
  intros Hs. pose proof (alignof_pos _ Hs) as Ha. pose proof (sized_fields _ _ Hs) as Hf.
  assert (Forall (fun f => 0 <= sizeof f) fs) as Hp
    by (eapply Forall_impl; [exact Hf|apply sizeof_pos]).
  cbn [offsets sizeof]. destruct (place p sizeof 0 fs) as [os last] eqn:E. cbn [fst snd].
  destruct (place_spec p sizeof fs 0 os last Hf Hp E) as (Hle & Hall & Hdisj).
  pose proof (align_up_spec (alignof (Struct p fs)) last Ha) as [[Hlo Hhi] Hdiv].
  split_and!; [|exact Hdisj|exact Hdiv|].
  - eapply Forall2_impl; [exact Hall|]. intros f o (? & ? & ?). split_and!; [lia|lia|done].
  - intros ->. cbn [alignof]. rewrite align_up_1.
    pose proof (place_packed true sizeof fs 0 eq_refl) as Hpk. rewrite E in Hpk. cbn in Hpk. lia.
Qed.

(** What demo_attr prints, and the gaps its comments give for [struct test]: one byte behind
    [x1], three behind [x4]. *)
Theorem attr_main_prints :
  attr_main = [[8; 16; 16]; [1; 4; 8]; [1; 4; 5]; [12]] /\ offsets test = [0; 2; 4; 8].
Proof. split; vm_compute; reflexivity. Qed.

(** A block for an entry of the tail queue has the size of a pointer, not of an entry: the first
    text stored in it goes past its end. *)
Theorem tailq_item_overflows junk :
  (forall n, 0 <= n -> Z.of_nat (length (junk n)) = n) -> sizeof tailq_entry = 1048 /\ tailq_item junk = None.
Proof.
  intros Hj. split; [vm_compute; reflexivity|]. unfold tailq_item.
  rewrite snprintf_fits by (cbn; lia). rewrite store_overflow; [done|].
  specialize (Hj (sizeof pointer) ltac:(done)). cbn in *. lia.
Qed.

(** The items of the list have room for the name of every [int]. *)
Theorem list_item_fits junk id :
  (forall n, 0 <= n -> Z.of_nat (length (junk n)) = n) -> INT_MIN <= id <= INT_MAX ->
  exists name, list_item junk id = Some (id, name) /\ holds name ([105; 116; 101; 109; 45] ++ format_d id).
Proof.
  intros Hj Hid. unfold list_item. specialize (Hj (sizeof list_entry) ltac:(vm_compute; done)).
  replace (sizeof list_entry) with 48 in * by (vm_compute; reflexivity).
  assert (length (format_d id) <= 11)%nat as Hl.
  { unfold INT_MIN, INT_MAX, format_d in *. destruct (Z.ltb_spec id 0); cbn [length].
    - pose proof (dec_length 10 (- id) ltac:(lia)). lia.
    - pose proof (dec_length 10 id ltac:(lia)). lia. }
  rewrite (assoc_L app [_; _; _; _; _]). edestruct store_text as (name & E & Hn & _).
  3: { rewrite E. by exists name. }
  - pose proof (format_d_no_nul id). rewrite elem_of_app, !elem_of_cons, elem_of_nil. lia || naive_solver lia.
  - rewrite length_app, length_take, length_drop. cbn [length]. lia.
Qed.

(** ** Witnesses *)

Lemma layout_sound_witness :
  Forall2 (placed_between false sizeof 0 12) [char; short; float; char] [0; 2; 4; 8] /\
  (forall i j f o o', (i < j)%nat -> [char; short; float; char] !! i = Some f ->
    [0; 2; 4; 8] !! i = Some o -> [0; 2; 4; 8] !! j = Some o' -> o + sizeof f <= o') /\
  (4 | 12) /\ (false = true -> 12 = 8).
Proof. apply (layout_sound false [char; short; float; char]). cbn. lia. Defined.

Lemma tailq_item_overflows_witness :
  sizeof tailq_entry = 1048 /\ tailq_item (fun n => replicate (Z.to_nat n) 0) = None.
Proof. apply tailq_item_overflows. intros n ?. rewrite length_replicate. lia. Defined.

Lemma list_item_fits_witness :
  exists name, list_item (fun n => replicate (Z.to_nat n) 0) 3 = Some (3, name) /\
    holds name [105; 116; 101; 109; 45; 51].
Proof.
  apply (list_item_fits _ 3).
  - intros n ?. rewrite length_replicate. lia.
  - unfold INT_MIN, INT_MAX. lia.
Defined.
