(* ===== verification/CJson.v ===== *)
(** JSON text: parsing, printing and minifying, src/demo_json/cJSON.c and cJSON.h.

    A C string is the list of its bytes without the final NUL. A pointer into it is the list
    of the bytes from there on, so [[]] points at the NUL; moving past the NUL is the fault
    [OverRead]. A buffer obtained from [cJSON_malloc] is the list of the bytes stored so far,
    and storing more than were asked for is the fault [OverWrite]. An item owns the chain of
    its children, which is the list [child] ([next] and [prev] are the neighbours in it): the
    parser and the printers never share items. CJsonHeap.v has the operations that do.

    The state counts the calls of [cJSON_malloc], so that any of them may fail, and the blocks
    that are allocated and not yet freed, so that leaks are visible; it holds the global [ep]. *)

From Stdlib Require Import SpecFloat.
From S2P Require Import Prelude Double.

(* src/demo_json/cJSON.h:32-38 cJSON_False *)
Definition cJSON_False : Z := 0.
Definition cJSON_True : Z := 1.
Definition cJSON_NULL : Z := 2.
Definition cJSON_Number : Z := 3.
Definition cJSON_String : Z := 4.
Definition cJSON_Array : Z := 5.
Definition cJSON_Object : Z := 6.

(* src/demo_json/cJSON.h:40-40 cJSON_IsReference *)
Definition cJSON_IsReference : Z := 256.

Abbreviation text := (list Z).

(* src/demo_json/cJSON.h:43-54 cJSON *)
Inductive cJSON : Set := Item {
  type : Z;
  valuestring : option text;
  valueint : Z;
  valuedouble : double;
  string : option text;
  child : list cJSON
}.

Definition zero : double := S754_zero false.

(** What [memset(node, 0, sizeof(cJSON))] leaves. *)
Definition blank : cJSON := Item 0 None 0 zero None [].

Definition set_type ty i := Item ty (valuestring i) (valueint i) (valuedouble i) (string i) (child i).
Definition set_valuestring v i := Item (type i) v (valueint i) (valuedouble i) (string i) (child i).
Definition set_valueint v i := Item (type i) (valuestring i) v (valuedouble i) (string i) (child i).
Definition set_valuedouble v i := Item (type i) (valuestring i) (valueint i) v (string i) (child i).
Definition set_string v i := Item (type i) (valuestring i) (valueint i) (valuedouble i) v (child i).
Definition set_child cs i :=
  Item (type i) (valuestring i) (valueint i) (valuedouble i) (string i) cs.

(** ** State and faults *)

Inductive fault := OverRead | OverWrite | IntOverflow | OutOfFuel.

Record world := World { calls : nat; live : Z; ep : option text }.

Definition M (A : Type) : Type := world -> (A * world) + fault.

#[export] Instance M_ret : MRet M := fun A x w => inl (x, w).
#[export] Instance M_bind : MBind M := fun A B k m w =>
  match m w with inl (x, w') => k x w' | inr f => inr f end.

Definition throw {A} (f : fault) : M A := fun _ => inr f.
Definition set_ep (p : option text) : M unit := fun w => inl (tt, World (calls w) (live w) p).
Definition free : M unit := fun w => inl (tt, World (calls w) (live w - 1) (ep w)).
Definition when (b : bool) (m : M unit) : M unit := if b then m else mret tt.

(** [*p] and [p++] *)
Definition deref (p : text) : Z := hd 0 p.
Definition next (p : text) : M text :=
  match p with [] => throw OverRead | _ :: p => mret p end.

Fixpoint advance (n : nat) (p : text) : M text :=
  match n with O => mret p | S n => p ← next p; advance n p end.

(** Signed arithmetic on [int]. *)
Definition int_add (x y : Z) : M Z :=
  if x + y <=? INT_MAX then mret (x + y) else throw IntOverflow.

(** [*p++ = c], and [strcpy] and [sprintf] at the end of a buffer of [cap] bytes, which store
    a NUL behind the text. *)
Definition put (cap : Z) (out : text) (c : Z) : M text :=
  if Z.of_nat (length out) <? cap then mret (out ++ [c]) else throw OverWrite.

Fixpoint put_all (cap : Z) (out s : text) : M text :=
  match s with [] => mret out | c :: s => out ← put cap out c; put_all cap out s end.

Definition put_nul (cap : Z) (out : text) : M unit :=
  if Z.of_nat (length out) <? cap then mret tt else throw OverWrite.

Definition put_str (cap : Z) (out s : text) : M text :=
  out ← put_all cap out s; _ ← put_nul cap out; mret out.

Section Program.
(** Which calls of [cJSON_malloc] succeed: the number of the call and the size asked for. *)
Context (malloc_ok : nat -> Z -> bool).

Definition malloc (size : Z) : M bool := fun w =>
  if malloc_ok (calls w) size
  then inl (true, World (S (calls w)) (live w + 1) (ep w))
  else inl (false, World (S (calls w)) (live w) (ep w)).

(* src/demo_json/cJSON.c:52-61 cJSON_strdup *)
Definition cJSON_strdup (str : text) : M (option text) :=
  let len := Z.of_nat (length str) + 1 in
  ok ← malloc len;
  if ok : bool then mret (Some str) else mret None.

Definition sizeof_cJSON : Z := 64.

(* src/demo_json/cJSON.c:76-81 cJSON_New_Item *)
Definition cJSON_New_Item : M (option cJSON) :=
  ok ← malloc sizeof_cJSON;
  if ok : bool then mret (Some blank) else mret None.

(** An item with its children; [cJSON_Delete] does this to every item of a chain. *)
(* src/demo_json/cJSON.c:84-95 cJSON_Delete *)
Fixpoint delete_item (c : cJSON) : M unit :=
  let owned := negb (Z.testbit (type c) 8) in
  _ ← when owned
    ((fix chain (cs : list cJSON) : M unit :=
        match cs with [] => mret tt | c :: cs => _ ← delete_item c; chain cs end) (child c));
  _ ← when owned (when (bool_decide (is_Some (valuestring c))) free);
  _ ← when (bool_decide (is_Some (string c))) free;
  free.

(** ** Numbers *)

Definition is_digit (c : Z) : bool := (48 <=? c) && (c <=? 57).

(** [do n = (n * 10.0) + ( *num++ - '0'); while (digit)], entered at a digit. *)
(* src/demo_json/cJSON.c:106-107 parse_number *)
Fixpoint int_digits (n : double) (num : text) : double * text :=
  match num with
  | c :: rest =>
      if is_digit c then int_digits (dadd (dmul n (of_int 10)) (of_int (c - 48))) rest
      else (n, num)
  | [] => (n, num)
  end.

(* src/demo_json/cJSON.c:110-110 parse_number *)
Fixpoint frac_digits (n scale : double) (num : text) : double * double * text :=
  match num with
  | c :: rest =>
      if is_digit c then
        frac_digits (dadd (dmul n (of_int 10)) (of_int (c - 48))) (dsub scale (of_int 1)) rest
      else (n, scale, num)
  | [] => (n, scale, num)
  end.

(** The exponent is an [int]; the compiled code lets it wrap around. *)
(* src/demo_json/cJSON.c:116-116 parse_number *)
Fixpoint exp_digits (subscale : Z) (num : text) : Z * text :=
  match num with
  | c :: rest =>
      if is_digit c then exp_digits (i32 (subscale * 10 + (c - 48))) rest else (subscale, num)
  | [] => (subscale, num)
  end.

(** The C library's [pow]. *)
Context (pow : double -> double -> double).

(* src/demo_json/cJSON.c:98-125 parse_number *)
Definition parse_number (item : cJSON) (num : text) : cJSON * text :=
  let '(sign, num) := if deref num =? 45 then (of_int (-1), tl num) else (of_int 1, num) in
  let num := if deref num =? 48 then tl num else num in
  let '(n, num) :=
    if (49 <=? deref num) && (deref num <=? 57) then int_digits zero num else (zero, num) in
  let '(n, scale, num) :=
    if (deref num =? 46) && is_digit (deref (tl num)) then frac_digits n zero (tl num)
    else (n, zero, num) in
  let '(subscale, signsubscale, num) :=
    if (deref num =? 101) || (deref num =? 69) then
      let num := tl num in
      let '(signsubscale, num) :=
        if deref num =? 43 then (1, tl num)
        else if deref num =? 45 then (-1, tl num) else (1, num) in
      let '(subscale, num) := exp_digits 0 num in
      (subscale, signsubscale, num)
    else (0, 1, num) in
  let n := dmul (dmul sign n)
    (pow (of_int 10) (dadd scale (of_int (i32 (subscale * signsubscale))))) in
  (set_type cJSON_Number (set_valueint (to_int n) (set_valuedouble n item)), num).

Definition dabs : double -> double := SFabs.
Definition dle : double -> double -> bool := SFleb.
Definition dlt : double -> double -> bool := SFltb.

(** 1.0e60 and 1.0e-6 *)
Definition d_1e60 : double := S754_finite false 5605193857299268 147.
Definition d_1em6 : double := S754_finite false 4722366482869645 (-72).

(** The text the conversion of [print_number] stores, and the size of its buffer. *)
(* src/demo_json/cJSON.c:131-141 print_number *)
Definition number_text (item : cJSON) : Z * text :=
  let d := valuedouble item in
  if dle (dabs (dsub (of_int (valueint item)) d)) DBL_EPSILON &&
     dle d (of_int INT_MAX) && dle (of_int INT_MIN) d
  then (21, format_d (valueint item))
  else (64,
    if dle (dabs (dsub (floor d) d)) DBL_EPSILON && dlt (dabs d) d_1e60 then format_0f d
    else if dlt (dabs d) d_1em6 || dlt (of_int 1000000000) (dabs d) then format_e d
    else format_f d).

(* src/demo_json/cJSON.c:128-144 print_number *)
Definition print_number (item : cJSON) : M (option text) :=
  let '(size, s) := number_text item in
  ok ← malloc size;
  if ok : bool then (str ← put_str size [] s; mret (Some str)) else mret None.

(** ** Strings *)

Definition hex_digit (c : Z) : option Z :=
  if (48 <=? c) && (c <=? 57) then Some (c - 48)
  else if (65 <=? c) && (c <=? 70) then Some (10 + c - 65)
  else if (97 <=? c) && (c <=? 102) then Some (10 + c - 97)
  else None.

(** Nothing is read behind the first character that is not a digit; the value of four digits
    fits in 16 bits. *)
(* src/demo_json/cJSON.c:146-172 parse_hex4 *)
Definition parse_hex4 (str : text) : Z :=
  match hex_digit (deref str) with
  | None => 0
  | Some d =>
      let h := Z.shiftl d 4 in
      match hex_digit (deref (tl str)) with
      | None => 0
      | Some d =>
          let h := Z.shiftl (h + d) 4 in
          match hex_digit (deref (tl (tl str))) with
          | None => 0
          | Some d =>
              let h := Z.shiftl (h + d) 4 in
              match hex_digit (deref (tl (tl (tl str)))) with
              | None => 0
              | Some d => h + d
              end
          end
      end
  end.

(* src/demo_json/cJSON.c:175-175 firstByteMark *)
Definition firstByteMark : list Z := [0x00; 0x00; 0xC0; 0xE0; 0xF0; 0xF8; 0xFC].

(** The bytes of a code, the last ones first: the cases of the switch fall through. *)
(* src/demo_json/cJSON.c:235-247 parse_string *)
Fixpoint utf8_tail (n : nat) (uc : Z) (bytes : text) : Z * text :=
  match n with
  | O => (uc, bytes)
  | S n => utf8_tail n (Z.shiftr uc 6) (Z.land (Z.lor uc 0x80) 0xBF :: bytes)
  end.

(* src/demo_json/cJSON.c:231-248 parse_string *)
Definition utf8_bytes (uc : Z) : text :=
  let len := if uc <? 0x80 then 1%nat else if uc <? 0x800 then 2%nat
             else if uc <? 0x10000 then 3%nat else 4%nat in
  let '(uc, bytes) := utf8_tail (len - 1) uc [] in
  u8 (Z.lor uc (default 0 (firstByteMark !! len))) :: bytes.

(** [case 'u'], with [ptr] at the [u]; [ptr] is left at the last character of the escape. *)
(* src/demo_json/cJSON.c:216-249 parse_string *)
Definition transcode (cap : Z) (out ptr : text) : M (text * text) :=
  let uc := parse_hex4 (tl ptr) in
  ptr ← advance 4 ptr;
  if ((0xDC00 <=? uc) && (uc <=? 0xDFFF)) || (uc =? 0) then mret (out, ptr)
  else if (0xD800 <=? uc) && (uc <=? 0xDBFF) then
    if negb (deref (tl ptr) =? 92) || negb (deref (tl (tl ptr)) =? 117) then mret (out, ptr)
    else
      let uc2 := parse_hex4 (tl (tl (tl ptr))) in
      ptr ← advance 6 ptr;
      if (uc2 <? 0xDC00) || (0xDFFF <? uc2) then mret (out, ptr)
      else
        out ← put_all cap out
          (utf8_bytes (0x10000 + Z.lor (Z.shiftl (Z.land uc 0x3FF) 10) (Z.land uc2 0x3FF)));
        mret (out, ptr)
  else out ← put_all cap out (utf8_bytes uc); mret (out, ptr).

(** The switch, with [ptr] at the character behind the backslash. *)
(* src/demo_json/cJSON.c:200-253 parse_string *)
Definition unescape (cap : Z) (out ptr : text) : M (text * text) :=
  let simple c := out ← put cap out c; mret (out, ptr) in
  let c := deref ptr in
  if c =? 98 then simple 8
  else if c =? 102 then simple 12
  else if c =? 110 then simple 10
  else if c =? 114 then simple 13
  else if c =? 116 then simple 9
  else if c =? 117 then transcode cap out ptr
  else simple c.

(** How many bytes the string needs, "roughly". *)
(* src/demo_json/cJSON.c:189-189 parse_string *)
Fixpoint scan_string (len : Z) (ptr : text) : M Z :=
  match ptr with
  | [] => mret len
  | c :: ptr =>
      if c =? 34 then mret len
      else
        len ← int_add len 1;
        if c =? 92 then
          match ptr with [] => throw OverRead | _ :: ptr => scan_string len ptr end
        else scan_string len ptr
  end.

(* src/demo_json/cJSON.c:196-256 parse_string *)
Fixpoint copy_string (fuel : nat) (cap : Z) (out ptr : text) : M (text * text) :=
  match fuel with
  | O => throw OutOfFuel
  | S fuel =>
      let c := deref ptr in
      if (c =? 34) || (c =? 0) then mret (out, ptr)
      else if negb (c =? 92) then
        out ← put cap out c;
        ptr ← next ptr;
        copy_string fuel cap out ptr
      else
        ptr ← next ptr;
        '(out, ptr) ← unescape cap out ptr;
        ptr ← next ptr;
        copy_string fuel cap out ptr
  end.

(* src/demo_json/cJSON.c:177-262 parse_string *)
Definition parse_string (item : cJSON) (str : text) : M (cJSON * option text) :=
  if negb (deref str =? 34) then _ ← set_ep (Some str); mret (item, None)
  else
    len ← scan_string 0 (tl str);
    cap ← int_add len 1;
    ok ← malloc cap;
    if negb ok then mret (item, None)
    else
      '(out, ptr) ← copy_string (S (length str)) cap [] (tl str);
      _ ← put_nul cap out;
      let ptr := if deref ptr =? 34 then tl ptr else ptr in
      mret (set_type cJSON_String (set_valuestring (Some out) item), Some ptr).

(** [strchr] of the characters that are escaped by a backslash and a letter. *)
Definition has_escape (c : Z) : bool :=
  bool_decide (c ∈ [34; 92; 8; 12; 10; 13; 9]).

(* src/demo_json/cJSON.c:274-277 print_string_ptr *)
Fixpoint escaped_length (len : Z) (str : text) : M Z :=
  match str with
  | [] => mret len
  | token :: str =>
      len ← int_add len 1;
      len ← (if has_escape token then int_add len 1
             else if token <? 32 then int_add len 5 else mret len);
      escaped_length len str
  end.

(** [sprintf("%04x", token)] *)
Definition hex4 (token : Z) : text :=
  let digit d := if d <? 10 then 48 + d else 87 + d in
  [digit (token / 4096 mod 16); digit (token / 256 mod 16); digit (token / 16 mod 16);
   digit (token mod 16)].

(* src/demo_json/cJSON.c:285-317 print_string_ptr *)
Fixpoint escape_loop (cap : Z) (out str : text) : M text :=
  match str with
  | [] => mret out
  | c :: str =>
      if (31 <? c) && negb (c =? 34) && negb (c =? 92) then
        out ← put cap out c;
        escape_loop cap out str
      else
        out ← put cap out 92;
        out ← (if c =? 92 then put cap out 92
               else if c =? 34 then put cap out 34
               else if c =? 8 then put cap out 98
               else if c =? 12 then put cap out 102
               else if c =? 10 then put cap out 110
               else if c =? 13 then put cap out 114
               else if c =? 9 then put cap out 116
               else put_str cap out (117 :: hex4 c));
        escape_loop cap out str
  end.

(* src/demo_json/cJSON.c:265-321 print_string_ptr *)
Definition print_string_ptr (str : option text) : M (option text) :=
  match str with
  | None => cJSON_strdup []
  | Some str =>
      len ← escaped_length 0 str;
      cap ← int_add len 3;
      ok ← malloc cap;
      if negb ok then mret None
      else
        out ← put cap [] 34;
        out ← escape_loop cap out str;
        out ← put cap out 34;
        _ ← put_nul cap out;
        mret (Some out)
  end.

(* src/demo_json/cJSON.c:324-325 print_string *)
Definition print_string (item : cJSON) : M (option text) := print_string_ptr (valuestring item).

(** ** Parsing *)

Fixpoint skip_loop (p : text) : text :=
  match p with
  | [] => []
  | c :: rest => if negb (c =? 0) && (c <=? 32) then skip_loop rest else p
  end.

(* src/demo_json/cJSON.c:341-345 skip *)
Definition skip (p : option text) : option text := skip_loop <$> p.

(** [!strncmp(value, word, strlen(word))] *)
Definition starts_with (word value : text) : bool := bool_decide (word `prefix_of` value).

Section Parser.
(** The call of [parse_value] for an element. *)
Context (parse_value : cJSON -> option text -> M (cJSON * option text)).

(** [while ( *value == ',')]: the children before [c], and [c], which was just parsed. *)
(* src/demo_json/cJSON.c:460-468 parse_array *)
Fixpoint array_loop (fuel : nat) (before : list cJSON) (c : cJSON) (value : text)
    : M (list cJSON * option text) :=
  match fuel with
  | O => throw OutOfFuel
  | S fuel =>
      if deref value =? 44 then
        new_item ← cJSON_New_Item;
        match new_item with
        | None => mret (before ++ [c], None)
        | Some new_item =>
            '(c', value) ← parse_value new_item (skip (Some (tl value)));
            match skip value with
            | None => mret (before ++ [c; c'], None)
            | Some value => array_loop fuel (before ++ [c]) c' value
            end
        end
      else mret (before ++ [c], Some value)
  end.

(* src/demo_json/cJSON.c:443-473 parse_array *)
Definition parse_array (item : cJSON) (value : text) : M (cJSON * option text) :=
  if negb (deref value =? 91) then _ ← set_ep (Some value); mret (item, None)
  else
    let item := set_type cJSON_Array item in
    let value := skip_loop (tl value) in
    if deref value =? 93 then mret (item, Some (tl value))
    else
      new_item ← cJSON_New_Item;
      match new_item with
      | None => mret (item, None)
      | Some new_item =>
          '(c, value) ← parse_value new_item (skip (Some value));
          match skip value with
          | None => mret (set_child [c] item, None)
          | Some value =>
              '(cs, value) ← array_loop (S (length value)) [] c value;
              match value with
              | None => mret (set_child cs item, None)
              | Some value =>
                  if deref value =? 93 then mret (set_child cs item, Some (tl value))
                  else _ ← set_ep (Some value); mret (set_child cs item, None)
              end
          end
      end.

(** A name, a colon and a value. *)
(* src/demo_json/cJSON.c:569-578 parse_object *)
Definition parse_member (c : cJSON) (value : text) : M (cJSON * option text) :=
  '(c, value) ← parse_string c (skip_loop value);
  match skip value with
  | None => mret (c, None)
  | Some value =>
      let c := set_valuestring None (set_string (valuestring c) c) in
      if negb (deref value =? 58) then _ ← set_ep (Some value); mret (c, None)
      else
        '(c, value) ← parse_value c (skip (Some (tl value)));
        mret (c, skip value)
  end.

(* src/demo_json/cJSON.c:563-579 parse_object *)
Fixpoint object_loop (fuel : nat) (before : list cJSON) (c : cJSON) (value : text)
    : M (list cJSON * option text) :=
  match fuel with
  | O => throw OutOfFuel
  | S fuel =>
      if deref value =? 44 then
        new_item ← cJSON_New_Item;
        match new_item with
        | None => mret (before ++ [c], None)
        | Some new_item =>
            '(c', value) ← parse_member new_item (tl value);
            match value with
            | None => mret (before ++ [c; c'], None)
            | Some value => object_loop fuel (before ++ [c]) c' value
            end
        end
      else mret (before ++ [c], Some value)
  end.

(* src/demo_json/cJSON.c:538-584 parse_object *)
Definition parse_object (item : cJSON) (value : text) : M (cJSON * option text) :=
  if negb (deref value =? 123) then _ ← set_ep (Some value); mret (item, None)
  else
    let item := set_type cJSON_Object item in
    let value := skip_loop (tl value) in
    if deref value =? 125 then mret (item, Some (tl value))
    else
      new_item ← cJSON_New_Item;
      match new_item with
      | None => mret (item, None)
      | Some new_item =>
          '(c, value) ← parse_member new_item value;
          match value with
          | None => mret (set_child [c] item, None)
          | Some value =>
              '(cs, value) ← object_loop (S (length value)) [] c value;
              match value with
              | None => mret (set_child cs item, None)
              | Some value =>
                  if deref value =? 125 then mret (set_child cs item, Some (tl value))
                  else _ ← set_ep (Some value); mret (set_child cs item, None)
              end
          end
      end.
End Parser.

(* src/demo_json/cJSON.c:386-409 parse_value *)
Fixpoint parse_value (fuel : nat) (item : cJSON) (value : option text)
    : M (cJSON * option text) :=
  match fuel, value with
  | O, _ => throw OutOfFuel
  | _, None => mret (item, None)
  | S fuel, Some value =>
      if starts_with [110; 117; 108; 108] value then
        mret (set_type cJSON_NULL item, Some (drop 4 value))
      else if starts_with [102; 97; 108; 115; 101] value then
        mret (set_type cJSON_False item, Some (drop 5 value))
      else if starts_with [116; 114; 117; 101] value then
        mret (set_valueint 1 (set_type cJSON_True item), Some (drop 4 value))
      else if deref value =? 34 then parse_string item value
      else if (deref value =? 45) || is_digit (deref value) then
        let '(item, num) := parse_number item value in mret (item, Some num)
      else if deref value =? 91 then parse_array (parse_value fuel) item value
      else if deref value =? 123 then parse_object (parse_value fuel) item value
      else _ ← set_ep (Some value); mret (item, None)
  end.

(** The deepest nesting of calls [parse_value] is one for each character. *)
Definition parse_fuel (value : option text) : nat := S (length (default [] value)).

(** The result and what is stored in [*return_parse_end], when anything is. *)
(* src/demo_json/cJSON.c:348-372 cJSON_ParseWithOpts *)
Definition cJSON_ParseWithOpts (value : option text)
    (return_parse_end require_null_terminated : bool) : M (option cJSON * option text) :=
  c ← cJSON_New_Item;
  _ ← set_ep None;
  match c with
  | None => mret (None, None)
  | Some c =>
      '(c, stop) ← parse_value (parse_fuel value) c (skip value);
      match stop with
      | None => _ ← delete_item c; mret (None, None)
      | Some stop =>
          let stop := if require_null_terminated then skip_loop stop else stop in
          if require_null_terminated && negb (deref stop =? 0) then
            _ ← delete_item c;
            _ ← set_ep (Some stop);
            mret (None, None)
          else mret (Some c, if return_parse_end then Some stop else None)
      end
  end.

(* src/demo_json/cJSON.c:375-376 cJSON_Parse *)
Definition cJSON_Parse (value : option text) : M (option cJSON) :=
  '(c, _) ← cJSON_ParseWithOpts value false false; mret c.

(** ** Printing

    The sizes are sums of [size_t] lengths stored back into an [int]. *)

Definition length_z (s : text) : Z := Z.of_nat (length s).

Fixpoint free_all (entries : list (option text)) : M unit :=
  match entries with
  | [] => mret tt
  | e :: entries => _ ← when (bool_decide (is_Some e)) free; free_all entries
  end.

Section Printer.
(** The call of [print_value] for an element, and whether the text is formatted. *)
Context (print_value : cJSON -> Z -> M (option text)) (fmt : bool).

Definition fmt_z : Z := if fmt then 1 else 0.

(** The texts of the elements up to the first failure, the size and whether there was one. *)
(* src/demo_json/cJSON.c:498-503 print_array *)
Fixpoint array_entries (depth len : Z) (cs : list cJSON) : M (list (option text) * Z * bool) :=
  match cs with
  | [] => mret ([], len, false)
  | c :: cs =>
      ret ← print_value c (depth + 1);
      match ret with
      | None => mret ([None], len, true)
      | Some s =>
          '(entries, len, fail) ← array_entries depth (i32 (len + (length_z s + 2 + fmt_z))) cs;
          mret (ret :: entries, len, fail)
      end
  end.

(* src/demo_json/cJSON.c:521-530 print_array *)
Fixpoint array_text (cap : Z) (out : text) (entries : list (option text)) : M text :=
  match entries with
  | [] => mret out
  | e :: entries =>
      out ← put_str cap out (default [] e);
      out ← (match entries with
             | [] => mret out
             | _ =>
                 out ← put cap out 44;
                 out ← (if fmt then put cap out 32 else mret out);
                 _ ← put_nul cap out;
                 mret out
             end);
      _ ← free;
      array_text cap out entries
  end.

(* src/demo_json/cJSON.c:476-535 print_array *)
Definition print_array (cs : list cJSON) (depth : Z) : M (option text) :=
  match cs with
  | [] =>
      ok ← malloc 3;
      if ok : bool then out ← put_str 3 [] [91; 93]; mret (Some out) else mret None
  | _ =>
      ok ← malloc (8 * Z.of_nat (length cs));
      if negb ok then mret None
      else
        '(entries, len, fail) ← array_entries depth 5 cs;
        let cap := u64 len in
        ok ← (if fail : bool then mret false else malloc cap);
        if negb ok then
          _ ← free_all entries;
          _ ← free;
          mret None
        else
          out ← put cap [] 91;
          _ ← put_nul cap out;
          out ← array_text cap out entries;
          _ ← free;
          out ← put cap out 93;
          _ ← put_nul cap out;
          mret (Some out)
  end.

Definition tabs (n : Z) : text := replicate (Z.to_nat n) 9.

(** The names, the values, the size and whether anything failed. *)
(* src/demo_json/cJSON.c:625-630 print_object *)
Fixpoint object_entries (depth len : Z) (cs : list cJSON)
    : M (list (option text * option text) * Z * bool) :=
  match cs with
  | [] => mret ([], len, false)
  | c :: cs =>
      str ← print_string_ptr (string c);
      ret ← print_value c depth;
      let '(len, failed) :=
        match str, ret with
        | Some str, Some ret =>
            (i32 (len + (length_z ret + length_z str + 2 + (if fmt then 2 + depth else 0))), false)
        | _, _ => (len, true)
        end in
      '(entries, len, fail) ← object_entries depth len cs;
      mret ((str, ret) :: entries, len, failed || fail)
  end.

(* src/demo_json/cJSON.c:652-665 print_object *)
Fixpoint object_text (depth cap : Z) (out : text) (entries : list (option text * option text))
    : M text :=
  match entries with
  | [] => mret out
  | (name, e) :: entries =>
      out ← (if fmt then put_all cap out (tabs depth) else mret out);
      out ← put_str cap out (default [] name);
      out ← put cap out 58;
      out ← (if fmt then put cap out 9 else mret out);
      out ← put_str cap out (default [] e);
      out ← (match entries with [] => mret out | _ => put cap out 44 end);
      out ← (if fmt then put cap out 10 else mret out);
      _ ← put_nul cap out;
      _ ← free;
      _ ← free;
      object_text depth cap out entries
  end.

(* src/demo_json/cJSON.c:587-673 print_object *)
Definition print_object (cs : list cJSON) (depth : Z) : M (option text) :=
  match cs with
  | [] =>
      let cap := if fmt then depth + 4 else 3 in
      ok ← malloc cap;
      if negb ok then mret None
      else
        out ← put cap [] 123;
        out ← (if fmt then put_all cap out (10 :: tabs (depth - 1)) else mret out);
        out ← put cap out 125;
        _ ← put_nul cap out;
        mret (Some out)
  | _ =>
      ok ← malloc (8 * Z.of_nat (length cs));
      if negb ok then mret None
      else
        ok ← malloc (8 * Z.of_nat (length cs));
        if negb ok then _ ← free; mret None
        else
          let depth := depth + 1 in
          let len := if fmt then 7 + depth else 7 in
          '(entries, len, fail) ← object_entries depth len cs;
          let cap := u64 len in
          ok ← (if fail : bool then mret false else malloc cap);
          if negb ok then
            _ ← free_all (entries ≫= fun '(name, e) => [name; e]);
            _ ← free;
            _ ← free;
            mret None
          else
            out ← put cap [] 123;
            out ← (if fmt then put cap out 10 else mret out);
            _ ← put_nul cap out;
            out ← object_text depth cap out entries;
            _ ← free;
            _ ← free;
            out ← (if fmt then put_all cap out (tabs (depth - 1)) else mret out);
            out ← put cap out 125;
            _ ← put_nul cap out;
            mret (Some out)
  end.
End Printer.

(* src/demo_json/cJSON.c:412-440 print_value *)
Fixpoint print_item (fmt : bool) (item : cJSON) (depth : Z) : M (option text) :=
  let ty := Z.land (type item) 255 in
  if ty =? cJSON_NULL then cJSON_strdup [110; 117; 108; 108]
  else if ty =? cJSON_False then cJSON_strdup [102; 97; 108; 115; 101]
  else if ty =? cJSON_True then cJSON_strdup [116; 114; 117; 101]
  else if ty =? cJSON_Number then print_number item
  else if ty =? cJSON_String then print_string item
  else if ty =? cJSON_Array then print_array (print_item fmt) fmt (child item) depth
  else if ty =? cJSON_Object then print_object (print_item fmt) fmt (child item) depth
  else mret None.

(* src/demo_json/cJSON.c:412-415 print_value *)
Definition print_value (item : option cJSON) (depth : Z) (fmt : bool) : M (option text) :=
  match item with None => mret None | Some item => print_item fmt item depth end.

(* src/demo_json/cJSON.c:379-380 cJSON_Print *)
Definition cJSON_Print (item : option cJSON) : M (option text) := print_value item 0 true.

(* src/demo_json/cJSON.c:382-383 cJSON_PrintUnformatted *)
Definition cJSON_PrintUnformatted (item : option cJSON) : M (option text) :=
  print_value item 0 false.

(** ** Minifying

    The text is rewritten in place, and the writing position never passes the reading one:
    the result is the list of the bytes stored. *)

(** [while ( *json && *json != c) json++] *)
Fixpoint skip_to_newline (json : text) : text :=
  match json with
  | [] => []
  | c :: rest => if negb (c =? 0) && negb (c =? 10) then skip_to_newline rest else json
  end.

Fixpoint skip_to_comment_end (json : text) : text :=
  match json with
  | [] => []
  | c :: rest =>
      if negb (c =? 0) && negb ((c =? 42) && (deref rest =? 47)) then skip_to_comment_end rest
      else json
  end.

(** [*into++ = *json++] *)
Definition copy (into json : text) : M (text * text) :=
  json' ← next json; mret (into ++ [deref json], json').

(* src/demo_json/cJSON.c:974-977 cJSON_Minify *)
Fixpoint minify_string (fuel : nat) (into json : text) : M (text * text) :=
  match fuel with
  | O => throw OutOfFuel
  | S fuel =>
      if negb (deref json =? 0) && negb (deref json =? 34) then
        '(into, json) ← (if deref json =? 92 then copy into json else mret (into, json));
        '(into, json) ← copy into json;
        minify_string fuel into json
      else mret (into, json)
  end.

(* src/demo_json/cJSON.c:960-981 cJSON_Minify *)
Fixpoint minify_loop (fuel : nat) (into json : text) : M text :=
  match fuel with
  | O => throw OutOfFuel
  | S fuel =>
      let c := deref json in
      if c =? 0 then mret into
      else if (c =? 32) || (c =? 9) || (c =? 13) || (c =? 10) then
        json ← next json;
        minify_loop fuel into json
      else if (c =? 47) && (deref (tl json) =? 47) then
        minify_loop fuel into (skip_to_newline json)
      else if (c =? 47) && (deref (tl json) =? 42) then
        json ← advance 2 (skip_to_comment_end json);
        minify_loop fuel into json
      else if c =? 34 then
        '(into, json) ← copy into json;
        '(into, json) ← minify_string (S (length json)) into json;
        '(into, json) ← copy into json;
        minify_loop fuel into json
      else
        '(into, json) ← copy into json;
        minify_loop fuel into json
  end.

(* src/demo_json/cJSON.c:957-983 cJSON_Minify *)
Definition cJSON_Minify (json : text) : M text := minify_loop (S (length json)) [] json.
End Program.

(** ** Reasoning about the monad

    [wp E m w Q]: from the state [w] the action [m] ends in a result and a state that satisfy
    [Q], or in a fault that [E] allows. *)

Definition wp {A} (E : fault -> Prop) (m : M A) (w : world) (Q : A -> world -> Prop) : Prop :=
  match m w with inl (x, w') => Q x w' | inr f => E f end.

Definition no_fault (f : fault) : Prop := False.

Section Rules.
Context (E : fault -> Prop).

Lemma wp_bind {A B} (m : M A) (k : A -> M B) w Q :
  wp E m w (fun x w' => wp E (k x) w' Q) -> wp E (m ≫= k) w Q.
Proof. unfold wp, mbind, M_bind. by destruct (m w) as [[x w']|f]. Qed.

Lemma wp_ret {A} (x : A) w (Q : A -> world -> Prop) : Q x w -> wp E (mret x) w Q.
Proof. done. Qed.

Lemma wp_throw {A} f w (Q : A -> world -> Prop) : E f -> wp E (throw f) w Q.
Proof. done. Qed.

Lemma wp_mono {A} (m : M A) w (Q Q' : A -> world -> Prop) :
  wp E m w Q -> (forall x w', Q x w' -> Q' x w') -> wp E m w Q'.
Proof. unfold wp. destruct (m w) as [[x w']|f]; auto. Qed.

Lemma wp_put cap out c w (Q : text -> world -> Prop) :
  Z.of_nat (length out) < cap -> Q (out ++ [c]) w -> wp E (put cap out c) w Q.
Proof. intros H HQ. unfold put. by rewrite (proj2 (Z.ltb_lt _ _) H). Qed.

Lemma wp_put_nul cap out w (Q : unit -> world -> Prop) :
  Z.of_nat (length out) < cap -> Q tt w -> wp E (put_nul cap out) w Q.
Proof. intros H HQ. unfold put_nul. by rewrite (proj2 (Z.ltb_lt _ _) H). Qed.

Lemma wp_put_all cap out s w (Q : text -> world -> Prop) :
  Z.of_nat (length out + length s) <= cap -> Q (out ++ s) w -> wp E (put_all cap out s) w Q.
Proof.
  revert out. induction s as [|c s IH]; intros out H HQ.
  { apply wp_ret. by rewrite app_nil_r in HQ. }
  apply wp_bind, wp_put; [cbn [length] in H; lia|].
  apply IH; [rewrite length_app; cbn [length] in *; lia|by rewrite <- (assoc_L app)].
Qed.

Lemma wp_put_str cap out s w (Q : text -> world -> Prop) :
  Z.of_nat (length out + length s) < cap -> Q (out ++ s) w -> wp E (put_str cap out s) w Q.
Proof.
  intros H HQ. apply wp_bind, wp_put_all; [lia|].
  apply wp_bind, wp_put_nul; [rewrite length_app; lia|done].
Qed.

Lemma wp_int_add x y w (Q : Z -> world -> Prop) :
  x + y <= INT_MAX -> Q (x + y) w -> wp E (int_add x y) w Q.
Proof. intros H HQ. unfold int_add. by rewrite (proj2 (Z.leb_le _ _) H). Qed.

Lemma wp_free w (Q : unit -> world -> Prop) :
  Q tt (World (calls w) (live w - 1) (ep w)) -> wp E free w Q.
Proof. done. Qed.

Lemma wp_next c p w (Q : text -> world -> Prop) : Q p w -> wp E (next (c :: p)) w Q.
Proof. done. Qed.

Lemma wp_set_ep p w (Q : unit -> world -> Prop) :
  Q tt (World (calls w) (live w) p) -> wp E (set_ep p) w Q.
Proof. done. Qed.

Lemma wp_malloc ok size w (Q : bool -> world -> Prop) :
  (ok (calls w) size = false -> Q false (World (S (calls w)) (live w) (ep w))) ->
  Q true (World (S (calls w)) (live w + 1) (ep w)) ->
  wp E (malloc ok size) w Q.
Proof. unfold wp, malloc. intros Hf Ht. destruct (ok (calls w) size); auto. Qed.
End Rules.

(** Run an action step by step: the ones that cannot fail are done, a call of [malloc] splits
    the goal, and bounds are left to [lia]. *)
Ltac wp_pure :=
  match goal with
  | |- wp _ (mbind _ _) _ _ => apply wp_bind
  | |- wp _ (mret _) _ _ => apply wp_ret
  | |- wp _ (put _ _ _) _ _ => apply wp_put; [rewrite ?length_app; cbn [length]; lia|]
  | |- wp _ (put_nul _ _) _ _ => apply wp_put_nul; [rewrite ?length_app; cbn [length]; lia|]
  | |- wp _ (put_all _ _ _) _ _ =>
      apply wp_put_all; [rewrite ?length_app in *; cbn [length] in *; lia|]
  | |- wp _ (put_str _ _ _) _ _ =>
      apply wp_put_str; [rewrite ?length_app in *; cbn [length] in *; lia|]
  | |- wp _ free _ _ => apply wp_free
  | |- wp _ (set_ep _) _ _ => apply wp_set_ep
  | |- wp _ (next (_ :: _)) _ _ => apply wp_next
  end.

(** An item owns its children: induction over the whole tree. *)
Section Induction.
Context (P : cJSON -> Prop)
  (HP : forall ty vs vi vd s cs, Forall P cs -> P (Item ty vs vi vd s cs)).

Lemma cJSON_tree_ind (item : cJSON) : P item.
Proof using HP.
  revert item. fix IH 1. intros [ty vs vi vd s cs]. apply HP.
  induction cs as [|c cs IHcs]; constructor; [apply IH|apply IHcs].
Qed.
End Induction.
