(* ===== verification/CJsonPrint.v ===== *)
(** What the printers of src/demo_json/cJSON.c compute.

    [render] is the text of an item, without buffers, sizes or allocations. [print_item] is
    shown to store exactly that text in a buffer large enough for it and to release everything
    else, whichever calls of the allocator fail. *)

From S2P Require Import Prelude Double CJson.

(** ** The text of an item *)

Definition escape_char (c : Z) : text :=
  if (31 <? c) && negb (c =? 34) && negb (c =? 92) then [c]
  else 92 :: (if c =? 92 then [92] else if c =? 34 then [34] else if c =? 8 then [98]
              else if c =? 12 then [102] else if c =? 10 then [110] else if c =? 13 then [114]
              else if c =? 9 then [116] else 117 :: hex4 c).

Fixpoint escape (s : text) : text :=
  match s with [] => [] | c :: s => escape_char c ++ escape s end.

Definition quote (s : text) : text := 34 :: escape s ++ [34].

(** A string that is not there prints as nothing at all. *)
Definition render_string (s : option text) : text :=
  match s with None => [] | Some s => quote s end.

Fixpoint join (sep : text) (parts : list text) : text :=
  match parts with
  | [] => []
  | [p] => p
  | p :: parts => p ++ sep ++ join sep parts
  end.

Definition render_array (fmt : bool) (parts : list text) : text :=
  match parts with
  | [] => [91; 93]
  | _ => 91 :: join (if fmt then [44; 32] else [44]) parts ++ [93]
  end.

Definition member_line (fmt : bool) (depth : Z) (m : text * text) : text :=
  if fmt then tabs depth ++ m.1 ++ [58; 9] ++ m.2 else m.1 ++ [58] ++ m.2.

Definition render_object (fmt : bool) (depth : Z) (members : list (text * text)) : text :=
  match members with
  | [] => if fmt then 123 :: 10 :: tabs (depth - 1) ++ [125] else [123; 125]
  | _ =>
      let lines := map (member_line fmt (depth + 1)) members in
      if fmt then [123; 10] ++ join [44; 10] lines ++ [10] ++ tabs depth ++ [125]
      else 123 :: join [44] lines ++ [125]
  end.

Fixpoint render (fmt : bool) (item : cJSON) (depth : Z) : text :=
  let ty := Z.land (type item) 255 in
  if ty =? cJSON_NULL then [110; 117; 108; 108]
  else if ty =? cJSON_False then [102; 97; 108; 115; 101]
  else if ty =? cJSON_True then [116; 114; 117; 101]
  else if ty =? cJSON_Number then snd (number_text item)
  else if ty =? cJSON_String then render_string (valuestring item)
  else if ty =? cJSON_Array then
    render_array fmt (map (fun c => render fmt c (depth + 1)) (child item))
  else
    render_object fmt depth
      (map (fun c => (render_string (string c), render fmt c (depth + 1))) (child item)).

(** An item as the C type has it: a known type, an [int] and a double. *)
Inductive printable : cJSON -> Prop :=
  printable_intro item :
    0 <= Z.land (type item) 255 <= 6 ->
    INT_MIN <= valueint item <= INT_MAX ->
    valid_double (valuedouble item) = true ->
    Forall printable (child item) ->
    printable item.

(** ** Strings and numbers *)

Lemma has_escape_false c :
  has_escape c = false ->
  c <> 34 /\ c <> 92 /\ c <> 8 /\ c <> 12 /\ c <> 10 /\ c <> 13 /\ c <> 9.
Proof.
  unfold has_escape. intros H%bool_decide_eq_false. rewrite !elem_of_cons in H. tauto.
Qed.

Lemma has_escape_true c : has_escape c = true -> length (escape_char c) = 2%nat.
Proof.
  unfold has_escape. intros H%bool_decide_eq_true. rewrite !elem_of_cons in H.
  destruct H as [->|[->|[->|[->|[->|[->|[->|H]]]]]]]; try done. by apply elem_of_nil in H.
Qed.

Lemma escape_char_length c :
  length_z (escape_char c) = if has_escape c then 2 else if c <? 32 then 6 else 1.
Proof.
  unfold length_z. destruct (has_escape c) eqn:E; [by rewrite has_escape_true|].
  apply has_escape_false in E. unfold escape_char.
  repeat match goal with |- context [?x =? ?y] => destruct (Z.eqb_spec x y); [tauto|] end.
  destruct (Z.ltb_spec 31 c), (Z.ltb_spec c 32); try lia; done.
Qed.

Section Printing.
Context (malloc_ok : nat -> Z -> bool).

Definition refused : Prop := exists n s, malloc_ok n s = false.

(** What a printer of [t] promises: a new block that holds [t], or nothing at all, and this
    only when the allocator refused a request. *)
Definition prints (t : text) (w : world) (r : option text) (w' : world) : Prop :=
  ep w' = ep w /\
  match r with
  | Some s => s = t /\ live w' = live w + 1
  | None => refused /\ live w' = live w
  end.

Definition room (t : text) : Prop := 2 * length_z t + 8 <= INT_MAX.

Abbreviation safe := (wp no_fault).

Lemma safe_malloc size w (Q : bool -> world -> Prop) :
  (refused -> Q false (World (S (calls w)) (live w) (ep w))) ->
  Q true (World (S (calls w)) (live w + 1) (ep w)) ->
  safe (malloc malloc_ok size) w Q.
Proof. intros Hf Ht. apply wp_malloc; [|done]. intros E. apply Hf. by eexists _, _. Qed.

Lemma strdup_spec s w : safe (cJSON_strdup malloc_ok s) w (prints s w).
Proof. apply wp_bind, safe_malloc; [intros Hr|]; apply wp_ret; by repeat split. Qed.

Lemma escaped_length_spec s len w :
  len + length_z (escape s) <= INT_MAX ->
  safe (escaped_length len s) w (fun n w' => w' = w /\ n = len + length_z (escape s)).
Proof.
  revert len. induction s as [|c s IH]; intros len H; cbn [escape escaped_length] in *.
  { apply wp_ret. unfold length_z. simpl. split; [done|lia]. }
  assert (length_z (escape_char c ++ escape s)
    = length_z (escape_char c) + length_z (escape s)) as E.
  { unfold length_z. rewrite length_app. lia. }
  rewrite E, escape_char_length in *. assert (0 <= length_z (escape s)) by (unfold length_z; lia).
  wp_pure. apply wp_int_add; [repeat case_match; lia|].
  wp_pure. destruct (has_escape c); [|destruct (c <? 32)].
  - apply wp_int_add; [lia|]. eapply wp_mono; [apply IH; lia|]. intros n w' [-> ->].
    split; [done|lia].
  - apply wp_int_add; [lia|]. eapply wp_mono; [apply IH; lia|]. intros n w' [-> ->].
    split; [done|lia].
  - apply wp_ret. eapply wp_mono; [apply IH; lia|]. intros n w' [-> ->]. split; [done|lia].
Qed.

Lemma escape_loop_spec s cap out w :
  length_z out + length_z (escape s) < cap ->
  safe (escape_loop cap out s) w (fun o w' => w' = w /\ o = out ++ escape s).
Proof.
  unfold length_z. revert out. induction s as [|c s IH]; intros out H; cbn [escape escape_loop] in *.
  { apply wp_ret. by rewrite app_nil_r. }
  rewrite length_app in H.
  assert (forall o, o = out ++ escape_char c ->
    safe (escape_loop cap o s) w (fun o w' => w' = w /\ o = out ++ escape_char c ++ escape s))
    as Hrest.
  { intros o ->. eapply wp_mono; [apply IH; rewrite length_app; lia|].
    intros o w' [-> ->]. by rewrite <- (assoc_L app). }
  unfold escape_char in *.
  destruct ((31 <? c) && negb (c =? 34) && negb (c =? 92)).
  { cbn [length] in H. do 2 wp_pure. by apply Hrest. }
  cbn [length] in H. do 2 wp_pure. wp_pure.
  repeat match goal with
    | |- safe (if ?b then _ else _) _ _ =>
        destruct b; [wp_pure; apply Hrest; by rewrite <- (assoc_L app)|]
    end.
  apply wp_put_str; [rewrite !length_app; cbn [length] in *; lia|].
  apply Hrest. by rewrite <- (assoc_L app).
Qed.

Lemma string_spec s w :
  room (render_string s) ->
  safe (print_string_ptr malloc_ok s) w (prints (render_string s) w).
Proof.
  intros Hr. destruct s as [s|]; [|apply strdup_spec].
  unfold room, length_z in Hr. cbn [render_string quote length] in Hr.
  rewrite length_app in Hr. cbn [length] in Hr.
  unfold print_string_ptr. wp_pure.
  eapply wp_mono; [apply escaped_length_spec; unfold length_z; lia|]. intros len w' [-> ->].
  wp_pure. apply wp_int_add; [unfold length_z; lia|].
  wp_pure. apply safe_malloc; [intros Hf; apply wp_ret; by repeat split|].
  cbn [negb]. unfold length_z.
  wp_pure. apply wp_put; [simpl; lia|]. wp_pure.
  eapply wp_mono; [apply escape_loop_spec; unfold length_z; simpl; lia|].
  intros o w' [-> ->]. do 5 wp_pure. by rewrite !app_nil_l, <- (assoc_L app).
Qed.

Lemma number_length item :
  INT_MIN <= valueint item <= INT_MAX -> valid_double (valuedouble item) = true ->
  length_z (number_text item).2 < (number_text item).1.
Proof.
  intros Hi Hd. unfold number_text, length_z.
  destruct (_ && _ && _); cbn [fst snd]; [pose proof (format_d_length _ Hi); lia|].
  destruct (_ && dlt _ _) eqn:E; [|clear E; destruct (_ || _) eqn:E].
  - apply andb_true_iff in E as [_ E]. pose proof (format_0f_length _ Hd E). lia.
  - pose proof (format_e_length _ Hd). lia.
  - apply orb_false_iff in E as [_ E]. pose proof (format_f_length _ Hd E). lia.
Qed.

Lemma number_spec item w :
  INT_MIN <= valueint item <= INT_MAX -> valid_double (valuedouble item) = true ->
  safe (print_number malloc_ok item) w (prints (number_text item).2 w).
Proof.
  intros Hi Hd. pose proof (number_length _ Hi Hd) as Hl. unfold print_number.
  destruct (number_text item) as [size s]. cbn [fst snd] in *. unfold length_z in Hl.
  wp_pure. apply safe_malloc; [intros Hf; apply wp_ret; by repeat split|].
  wp_pure. apply wp_put_str; [simpl; lia|]. by apply wp_ret.
Qed.

(** ** Arrays *)

(** How many of the texts were allocated. *)
Fixpoint held (es : list (option text)) : Z :=
  match es with [] => 0 | e :: es => (if e then 1 else 0) + held es end.

Lemma free_all_spec es w :
  safe (free_all es) w (fun _ w' => ep w' = ep w /\ live w' = live w - held es).
Proof.
  revert w. induction es as [|e es IH]; intros w; cbn [free_all held].
  { apply wp_ret. split; [done|lia]. }
  wp_pure. destruct e; cbn [when].
  - apply wp_free. eapply wp_mono; [apply IH|]. simpl. intros _ w' [-> ->]. split; [done|lia].
  - apply wp_ret. eapply wp_mono; [apply IH|]. intros _ w' [-> ->]. split; [done|lia].
Qed.

Lemma held_all ts : held (map Some ts) = Z.of_nat (length ts).
Proof. induction ts as [|t ts IH]; cbn [map held length]; [done|]. rewrite IH. lia. Qed.

(** What [print_array] adds to the size for its elements. *)
Definition array_room (fmt : bool) (ts : list text) : Z :=
  foldr (fun t n => length_z t + 2 + fmt_z fmt + n) 0 ts.

Lemma array_room_nonneg fmt ts : 0 <= array_room fmt ts.
Proof.
  induction ts as [|t ts IH]; cbn [array_room foldr]; [done|].
  change (foldr _ _ _) with (array_room fmt ts). unfold length_z, fmt_z. destruct fmt; lia.
Qed.

(** [pv] prints the elements [cs] as [rv] renders them. *)
Definition prints_all (pv : cJSON -> Z -> M (option text)) (depth : Z) (rv : cJSON -> text)
    (cs : list cJSON) : Prop :=
  Forall (fun c => room (rv c) -> forall w, safe (pv c depth) w (prints (rv c) w)) cs.

Lemma array_entries_spec pv fmt depth rv cs len w :
  prints_all pv (depth + 1) rv cs -> Forall room (map rv cs) ->
  0 <= len -> len + array_room fmt (map rv cs) <= INT_MAX ->
  safe (array_entries pv fmt depth len cs) w (fun '(es, n, fail) w' =>
    ep w' = ep w /\ live w' = live w + held es /\
    if fail : bool then refused
    else es = map Some (map rv cs) /\ n = len + array_room fmt (map rv cs)).
Proof.
  intros Hp. revert len w. induction Hp as [|c cs Hc Hp IH]; intros len w Hr Hlen Hn;
    cbn [array_entries map array_room foldr] in *.
  { apply wp_ret. simpl. repeat split; lia. }
  change (foldr _ _ _) with (array_room fmt (map rv cs)) in *.
  apply Forall_cons in Hr as [Hrc Hr]. pose proof (array_room_nonneg fmt (map rv cs)).
  wp_pure. eapply wp_mono; [by apply Hc|]. intros [s|] w1 [Hep Hs].
  - destruct Hs as [-> Hl].
    assert (0 <= length_z (rv c) + 2 + fmt_z fmt)
      by (unfold length_z, fmt_z; destruct fmt; lia).
    wp_pure. rewrite i32_small by (unfold INT_MIN; lia).
    eapply wp_mono; [apply IH; [done|lia|lia]|].
    intros [[es n] fail] w2 (Hep2 & Hl2 & Hf). apply wp_ret. cbn [held].
    split; [congruence|]. split; [lia|]. destruct fail; [done|]. destruct Hf as [-> ->].
    split; [done|lia].
  - destruct Hs as [Hf Hl]. apply wp_ret. simpl. split; [done|]. split; [lia|done].
Qed.

Definition array_sep (fmt : bool) : text := if fmt then [44; 32] else [44].

Lemma array_text_spec fmt cap ts out w :
  length_z out + length_z (join (array_sep fmt) ts) < cap ->
  safe (array_text fmt cap out (map Some ts)) w (fun o w' =>
    o = out ++ join (array_sep fmt) ts /\ ep w' = ep w /\
    live w' = live w - Z.of_nat (length ts)).
Proof.
  unfold length_z. revert out w. induction ts as [|t ts IH]; intros out w H; cbn [map array_text].
  { apply wp_ret. rewrite app_nil_r. repeat split; simpl; lia. }
  wp_pure. destruct ts as [|t2 ts].
  - simpl in *. apply wp_put_str; [simpl; lia|]. do 4 wp_pure. repeat split; simpl; lia.
  - change (join (array_sep fmt) (t :: t2 :: ts))
      with (t ++ array_sep fmt ++ join (array_sep fmt) (t2 :: ts)) in *.
    rewrite !length_app in H. change (default [] (Some t)) with t. apply wp_put_str; [lia|].
    assert (forall w, safe (array_text fmt cap ((out ++ t) ++ array_sep fmt) (map Some (t2 :: ts))) w
      (fun o w' => o = out ++ t ++ array_sep fmt ++ join (array_sep fmt) (t2 :: ts) /\
         ep w' = ep w /\ live w' = live w - Z.of_nat (length (t2 :: ts)))) as Hrest.
    { intros w1. eapply wp_mono; [apply IH; rewrite !length_app; lia|].
      intros o w' (-> & -> & ->). by rewrite <- !(assoc_L app). }
    cbn [map]. wp_pure. unfold array_sep in *. destruct fmt; cbn [length] in *.
    + repeat wp_pure. rewrite <- (assoc_L app).
      eapply wp_mono; [apply Hrest|]. simpl. intros o w' (-> & -> & ->).
      split_and!; [done|done|lia].
    + repeat wp_pure. eapply wp_mono; [apply Hrest|]. simpl. intros o w' (-> & -> & ->).
      split_and!; [done|done|lia].
Qed.

Lemma join_cons sep t ts :
  join sep (t :: ts) = t ++ match ts with [] => [] | _ => sep ++ join sep ts end.
Proof. destruct ts; cbn [join]; [by rewrite app_nil_r|done]. Qed.

(** The size reserved for an array is enough, and at most twice its text. *)
Lemma array_room_join fmt ts :
  ts <> [] ->
  array_room fmt ts = length_z (join (array_sep fmt) ts) + Z.of_nat (length ts) + 1 + fmt_z fmt.
Proof.
  intros Hne. induction ts as [|t ts IH]; [done|]. rewrite join_cons.
  cbn [array_room foldr]. change (foldr _ _ _) with (array_room fmt ts).
  unfold length_z in *. rewrite length_app. destruct ts as [|t2 ts].
  - simpl. lia.
  - rewrite IH by done. rewrite length_app. unfold array_sep, fmt_z.
    destruct fmt; cbn [length]; lia.
Qed.

Lemma join_room sep ts t : t ∈ ts -> (length t <= length (join sep ts))%nat.
Proof.
  induction ts as [|t2 ts IH]; intros Ht; [by apply elem_of_nil in Ht|].
  rewrite join_cons, length_app. apply elem_of_cons in Ht as [->|Ht]; [lia|].
  specialize (IH Ht). destruct ts; [by apply elem_of_nil in Ht|]. rewrite length_app. lia.
Qed.

Lemma join_count sep ts : (0 < length sep)%nat -> (length ts <= S (length (join sep ts)))%nat.
Proof.
  intros Hs. induction ts as [|t ts IH]; [simpl; lia|]. rewrite join_cons, length_app.
  destruct ts; cbn [length] in *; [lia|]. rewrite length_app. lia.
Qed.

Lemma u64_small x : 0 <= x <= INT_MAX -> u64 x = x.
Proof. unfold INT_MAX. intros. apply wrap_small. lia. Qed.

Lemma array_spec pv fmt rv cs depth w :
  prints_all pv (depth + 1) rv cs -> room (render_array fmt (map rv cs)) ->
  safe (print_array malloc_ok pv fmt cs depth) w (prints (render_array fmt (map rv cs)) w).
Proof.
  intros Hp Hr. unfold print_array. destruct cs as [|c cs].
  { wp_pure. apply safe_malloc; [intros Hf; apply wp_ret; by repeat split|].
    wp_pure. apply wp_put_str; [simpl; lia|]. by apply wp_ret. }
  set (l := c :: cs) in *. assert (map rv l <> []) as Hne by done.
  assert (render_array fmt (map rv l) = 91 :: join (array_sep fmt) (map rv l) ++ [93]) as E by done.
  rewrite E in *. clear E. set (ts := map rv l) in *.
  pose proof (array_room_join fmt ts Hne) as Hroom.
  pose proof (join_count (array_sep fmt) ts) as Hcount.
  assert (length l = length ts) as Hlen by (unfold ts; by rewrite length_map).
  unfold room, length_z in Hr, Hroom. cbn [length] in Hr. rewrite length_app in Hr.
  assert (0 <= fmt_z fmt <= 1 /\ (0 < length (array_sep fmt))%nat) as [Hfz Hsep]
    by (unfold fmt_z, array_sep; destruct fmt; simpl; lia).
  specialize (Hcount Hsep). cbn [length] in Hr.
  wp_pure. apply safe_malloc; [intros Hf; apply wp_ret; by repeat split|]. cbn [negb].
  wp_pure. eapply wp_mono.
  { apply (array_entries_spec pv fmt depth rv l); [done| |done|fold ts; lia].
    apply Forall_forall. intros t Ht. pose proof (join_room (array_sep fmt) ts t Ht).
    unfold room, length_z. lia. }
  intros [[es len] fail] w1 (Hep & Hl & Hes). cbn [ep live] in *.
  assert (forall w2, refused -> ep w2 = ep w -> live w2 = live w1 ->
    safe (_ ← free_all es; _ ← free; mret None) w2
      (prints (91 :: join (array_sep fmt) ts ++ [93]) w)) as Hcleanup.
  { intros w2 Hrf He Hl2. wp_pure. eapply wp_mono; [apply free_all_spec|].
    intros _ w3 [He3 Hl3]. repeat wp_pure. unfold prints. simpl.
    split_and!; [congruence|done|lia]. }
  destruct fail; [wp_pure; apply wp_ret; by apply Hcleanup|]. destruct Hes as [-> ->].
  fold ts in Hl |- *. rewrite u64_small by lia.
  wp_pure. apply safe_malloc; [intros Hf; by apply Hcleanup|]. cbn [negb].
  repeat wp_pure. rewrite app_nil_l.
  eapply wp_mono; [apply array_text_spec; unfold length_z; cbn [length]; lia|].
  intros o w2 (-> & He2 & Hl2). cbn [ep live] in *. rewrite held_all in Hl.
  repeat wp_pure. unfold prints. cbn [ep live]. split_and!; [congruence|done|lia].
Qed.

(** ** Objects *)

Definition members_of (rv : cJSON -> text) (cs : list cJSON) : list (text * text) :=
  map (fun c => (render_string (string c), rv c)) cs.

(** What [print_object] adds to the size for its members. *)
Definition object_room (fmt : bool) (depth : Z) (ms : list (text * text)) : Z :=
  foldr (fun m n => length_z m.2 + length_z m.1 + 2 + (if fmt then 2 + depth else 0) + n) 0 ms.

Lemma object_room_nonneg fmt depth ms : 0 <= depth -> 0 <= object_room fmt depth ms.
Proof.
  intros Hd. induction ms as [|m ms IH]; cbn [object_room foldr]; [done|].
  change (foldr _ _ _) with (object_room fmt depth ms). unfold length_z. destruct fmt; lia.
Qed.

Definition pair_texts (es : list (option text * option text)) : list (option text) :=
  es ≫= fun '(name, e) => [name; e].

Definition both (m : text * text) : option text * option text := (Some m.1, Some m.2).

Lemma held_both ms : held (pair_texts (map both ms)) = 2 * Z.of_nat (length ms).
Proof.
  induction ms as [|m ms IH]; [done|].
  change (held (Some m.1 :: Some m.2 :: pair_texts (map both ms))
    = 2 * Z.of_nat (S (length ms))).
  cbn [held]. rewrite IH. lia.
Qed.

Lemma object_entries_spec pv fmt depth rv cs len w :
  prints_all pv depth rv cs ->
  Forall (fun m => room m.1 /\ room m.2) (members_of rv cs) ->
  0 <= depth -> 0 <= len -> len + object_room fmt depth (members_of rv cs) <= INT_MAX ->
  safe (object_entries malloc_ok pv fmt depth len cs) w (fun '(es, n, fail) w' =>
    ep w' = ep w /\ live w' = live w + held (pair_texts es) /\
    if fail : bool then refused
    else es = map both (members_of rv cs) /\
      n = len + object_room fmt depth (members_of rv cs)).
Proof.
  intros Hp. revert len w. induction Hp as [|c cs Hc Hp IH]; intros len w Hr Hd Hlen Hn;
    cbn [object_entries members_of map object_room foldr fst snd] in *.
  { apply wp_ret. simpl. split_and!; try done; lia. }
  change (foldr _ _ _) with (object_room fmt depth (members_of rv cs)) in *.
  apply Forall_cons in Hr as [[Hr1 Hr2] Hr]. cbn [fst snd] in *.
  pose proof (object_room_nonneg fmt depth (members_of rv cs) Hd) as Hn0.
  set (size := length_z (rv c) + length_z (render_string (string c)) + 2 +
    (if fmt then 2 + depth else 0)) in *.
  assert (0 <= size) by (unfold size, length_z; destruct fmt; lia).
  wp_pure. eapply wp_mono; [by apply string_spec|]. intros s1 w1 [Hep1 Hs1].
  wp_pure. eapply wp_mono; [by apply Hc|]. intros s2 w2 [Hep2 Hs2].
  assert (forall len' failed, 0 <= len' -> len' + object_room fmt depth (members_of rv cs) <= INT_MAX ->
    (failed = true -> refused) ->
    (failed = false -> s1 = Some (render_string (string c)) /\ s2 = Some (rv c)) ->
    live w2 = live w + held [s1; s2] ->
    (failed = false -> len' = len + size) ->
    safe ('(entries, len, fail) ← object_entries malloc_ok pv fmt depth len' cs;
      mret ((s1, s2) :: entries, len, failed || fail)) w2 (fun '(es, n, fail) w' =>
      ep w' = ep w /\ live w' = live w + held (pair_texts es) /\
      if fail : bool then refused
      else es = map both ((render_string (string c), rv c) :: members_of rv cs) /\
        n = len + (size + object_room fmt depth (members_of rv cs)))) as Hrest.
  { intros len' failed H1 H2 Hf1 Hf2 Hl Hlen'. wp_pure.
    eapply wp_mono; [by apply IH|]. intros [[es n] fail] w3 (He3 & Hl3 & Hes). apply wp_ret.
    change (held (pair_texts ((s1, s2) :: es))) with (held (s1 :: s2 :: pair_texts es)).
    cbn [held] in *. split; [congruence|]. split; [lia|].
    destruct failed; [by apply Hf1|]. destruct fail; [done|]. destruct Hes as [-> ->].
    destruct Hf2 as [-> ->]; [done|]. split; [done|]. rewrite Hlen' by done. lia. }
  destruct s1 as [s1|].
  - destruct Hs1 as [-> Hl1]. destruct s2 as [s2|].
    + destruct Hs2 as [-> Hl2].
      assert (i32 (len + size) = len + size) as Ei by (apply i32_small; unfold INT_MIN; lia).
      fold size. rewrite Ei. apply Hrest; try done; cbn [held]; lia.
    + destruct Hs2 as [Hf Hl2]. apply Hrest; try done; cbn [held]; lia.
  - destruct Hs1 as [Hf Hl1]. apply Hrest; try done; [lia|].
    destruct s2 as [s2|]; destruct Hs2 as [? Hl2]; cbn [held]; lia.
Qed.

(** The text between the braces. *)
Definition object_sep (fmt : bool) : text := if fmt then [44; 10] else [44].

Definition object_body (fmt : bool) (depth : Z) (ms : list (text * text)) : text :=
  join (object_sep fmt) (map (member_line fmt depth) ms) ++ if fmt then [10] else [].

Lemma object_body_cons fmt depth m ms :
  object_body fmt depth (m :: ms) =
  member_line fmt depth m ++
  match ms with
  | [] => if fmt then [10] else []
  | _ => object_sep fmt ++ object_body fmt depth ms
  end.
Proof.
  unfold object_body. cbn [map]. rewrite join_cons. rewrite <- (assoc_L app). f_equal.
  destruct ms; cbn [map]; [done|]. by rewrite <- (assoc_L app).
Qed.

Lemma tabs_length n : 0 <= n -> length_z (tabs n) = n.
Proof. intros. unfold length_z, tabs. rewrite length_replicate. lia. Qed.

Lemma object_room_body fmt depth ms :
  0 <= depth -> ms <> [] -> object_room fmt depth ms = length_z (object_body fmt depth ms) + 1.
Proof.
  intros Hd Hne. induction ms as [|m ms IH]; [done|]. rewrite object_body_cons.
  cbn [object_room foldr]. change (foldr _ _ _) with (object_room fmt depth ms).
  pose proof (tabs_length depth Hd) as Ht. unfold length_z in *. unfold member_line.
  destruct ms as [|m2 ms].
  - destruct fmt; rewrite !length_app; cbn [length object_room foldr]; lia.
  - rewrite IH by done. unfold object_sep. destruct fmt; rewrite !length_app; cbn [length]; lia.
Qed.

(** One turn of the loop stores the line of a member and what comes behind it. *)
Lemma object_text_spec fmt depth cap ms out w :
  length_z out + length_z (object_body fmt depth ms) < cap -> ms <> [] ->
  safe (object_text fmt depth cap out (map both ms)) w (fun o w' =>
    o = out ++ object_body fmt depth ms /\ ep w' = ep w /\
    live w' = live w - 2 * Z.of_nat (length ms)).
Proof.
  unfold length_z. revert out w. induction ms as [|m ms IH]; intros out w H Hne; [done|].
  rewrite object_body_cons in *. cbn [map object_text both].
  change (default [] (Some m.1)) with m.1. change (default [] (Some m.2)) with m.2.
  assert (forall o w1, length_z o < cap ->
    o = out ++ member_line fmt depth m ++
        match ms with [] => if fmt then [10] else [] | _ => object_sep fmt end ->
    ep w1 = ep w -> live w1 = live w ->
    safe (_ ← put_nul cap o; _ ← free; _ ← free; object_text fmt depth cap o (map both ms)) w1
      (fun o w' => o = out ++ member_line fmt depth m ++
         match ms with
         | [] => if fmt then [10] else []
         | _ => object_sep fmt ++ object_body fmt depth ms
         end /\ ep w' = ep w /\ live w' = live w - 2 * Z.of_nat (length (m :: ms)))) as Hrest.
  { intros o w1 Ho -> He Hl. unfold length_z in Ho. wp_pure. apply wp_put_nul; [done|].
    do 4 wp_pure. destruct ms as [|m2 ms].
    - apply wp_ret. cbn [ep live length]. split_and!; [done|done|lia].
    - eapply wp_mono; [apply IH; [rewrite !length_app in *; lia|done]|].
      intros o w2 (-> & He2 & Hl2). cbn [ep live length] in *.
      split_and!; [by rewrite <- !(assoc_L app)|congruence|lia]. }
  unfold member_line, object_sep in *.
  destruct ms as [|m2 ms], fmt; rewrite !length_app in H; cbn [length map] in *;
    repeat match goal with |- safe (put_nul _ _ ≫= _) _ _ => fail 1 | _ => wp_pure end;
    apply Hrest; try done;
    first [by rewrite ?app_nil_r, <- !(assoc_L app)
          |unfold length_z; rewrite !length_app; cbn [length]; lia].
Qed.

Lemma member_room fmt depth ms m :
  m ∈ ms -> (length m.1 + length m.2 <= length (object_body fmt depth ms))%nat.
Proof.
  intros Hm. unfold object_body. rewrite length_app.
  pose proof (join_room (object_sep fmt) (map (member_line fmt depth) ms)
    (member_line fmt depth m)) as Hj.
  assert (length m.1 + length m.2 <= length (member_line fmt depth m))%nat.
  { unfold member_line. destruct fmt; rewrite !length_app; cbn [length]; lia. }
  assert (member_line fmt depth m ∈ map (member_line fmt depth) ms); [|specialize (Hj H0); lia].
  apply list_elem_of_In, in_map. by apply list_elem_of_In.
Qed.

(** The text of an object that has members. *)
Definition braced (fmt : bool) (depth : Z) (ms : list (text * text)) : text :=
  (if fmt then [123; 10] else [123]) ++ object_body fmt (depth + 1) ms ++
  (if fmt then tabs depth else []) ++ [125].

Lemma render_braced fmt depth ms : ms <> [] -> render_object fmt depth ms = braced fmt depth ms.
Proof.
  intros Hne. unfold render_object, braced, object_body, object_sep.
  destruct ms; [done|]. destruct fmt; by rewrite <- ?(assoc_L app).
Qed.

Lemma empty_object_spec pv fmt depth w :
  0 <= depth ->
  safe (print_object malloc_ok pv fmt [] depth) w (prints (render_object fmt depth []) w).
Proof.
  intros Hd. cbn [print_object render_object].
  assert (0 <= length_z (tabs (depth - 1)) <= depth) as Ht.
  { unfold length_z, tabs. rewrite length_replicate. lia. }
  unfold length_z in Ht. wp_pure. apply safe_malloc; [intros Hf; apply wp_ret; by repeat split|].
  cbn [negb]. destruct fmt; repeat wp_pure; unfold prints; simpl; by rewrite <- ?(assoc_L app).
Qed.

Lemma object_spec pv fmt rv cs depth w :
  0 <= depth -> prints_all pv (depth + 1) rv cs -> cs <> [] ->
  room (render_object fmt depth (members_of rv cs)) ->
  safe (print_object malloc_ok pv fmt cs depth) w
    (prints (render_object fmt depth (members_of rv cs)) w).
Proof.
  intros Hd Hp Hne Hr. destruct cs as [|c cs]; [done|]. set (l := c :: cs) in *.
  assert (members_of rv l <> []) as Hms by done. rewrite render_braced in * by done.
  unfold print_object. cbn [l]. fold l. set (ms := members_of rv l) in *.
  pose proof (object_room_body fmt (depth + 1) ms ltac:(lia) Hms) as Hbody.
  pose proof (tabs_length depth Hd) as Ht.
  unfold room, braced, length_z in *. rewrite !length_app in Hr. cbn [length] in Hr.
  wp_pure. apply safe_malloc; [intros Hf; apply wp_ret; by repeat split|]. cbn [negb].
  wp_pure. apply safe_malloc.
  { intros Hf. cbn [negb]. repeat wp_pure. unfold prints. cbn [ep live].
    split_and!; [done|done|lia]. }
  cbn [negb]. set (len0 := if fmt then 7 + (depth + 1) else 7).
  assert (7 <= len0 <= 7 + (depth + 1)) as Hlen0 by (unfold len0; destruct fmt; lia).
  assert (len0 + object_room fmt (depth + 1) ms <= INT_MAX) as Hmax.
  { unfold len0. destruct fmt; cbn [length] in *; lia. }
  wp_pure. eapply wp_mono.
  { apply (object_entries_spec pv fmt (depth + 1) rv l); [done| |lia|lia|done].
    apply Forall_forall. intros m Hm. pose proof (member_room fmt (depth + 1) ms m Hm).
    unfold room, length_z. lia. }
  intros [[es len] fail] w1 (Hep & Hl & Hes). cbn [ep live] in *.
  assert (forall w2, refused -> ep w2 = ep w -> live w2 = live w1 ->
    safe (_ ← free_all (pair_texts es); _ ← free; _ ← free; mret None) w2
      (prints (braced fmt depth ms) w)) as Hcleanup.
  { intros w2 Hrf He Hl2. wp_pure. eapply wp_mono; [apply free_all_spec|].
    intros _ w3 [He3 Hl3]. repeat wp_pure. unfold prints. cbn [ep live].
    split_and!; [congruence|done|lia]. }
  destruct fail; [wp_pure; apply wp_ret; by apply Hcleanup|]. destruct Hes as [-> ->].
  fold ms in Hl |- *. rewrite u64_small by lia.
  wp_pure. apply safe_malloc; [intros Hf; by apply Hcleanup|]. cbn [negb].
  set (cap := len0 + object_room fmt (depth + 1) ms) in *. rewrite held_both in Hl.
  assert (forall o w2, o = (if fmt then [123; 10] else [123]) -> ep w2 = ep w ->
    live w2 = live w1 + 1 ->
    safe (_ ← put_nul cap o; out ← object_text fmt (depth + 1) cap o (map both ms);
      _ ← free; _ ← free; out ← (if fmt then put_all cap out (tabs (depth + 1 - 1)) else mret out);
      out ← put cap out 125; _ ← put_nul cap out; mret (Some out)) w2
      (prints (braced fmt depth ms) w)) as Hrest.
  { intros o w2 -> He2 Hl2. replace (depth + 1 - 1) with depth by lia.
    assert (length_z (if fmt then [123; 10] else [123]) <= 2) as Ho by by destruct fmt.
    unfold length_z in Ho. wp_pure. apply wp_put_nul; [lia|]. wp_pure.
    eapply wp_mono; [apply object_text_spec; [unfold length_z|done]; lia|].
    intros o w3 (-> & He3 & Hl3).
    unfold braced, cap, len0 in *. destruct fmt; cbn [length] in *; repeat wp_pure;
      unfold prints; cbn [ep live]; split_and!; try congruence; try lia;
      by rewrite <- !(assoc_L app). }
  assert (2 < cap) by lia.
  destruct fmt; repeat match goal with |- safe (put_nul _ _ ≫= _) _ _ => fail 1 | _ => wp_pure end;
    apply Hrest; simpl; congruence || lia.
Qed.

(** ** The whole tree *)

Lemma print_item_spec fmt item depth w :
  printable item -> 0 <= depth -> room (render fmt item depth) ->
  safe (print_item malloc_ok fmt item depth) w (prints (render fmt item depth) w).
Proof.
  revert depth w. induction item as [ty vs vi vd s cs IH] using cJSON_tree_ind.
  intros depth w Hp Hd Hr. inversion Hp as [? Hty Hi Hv Hcs]; subst.
  cbn [type valueint valuedouble child] in *. cbn [print_item render type child] in *.
  repeat match goal with
    | |- safe (if ?x =? ?y then cJSON_strdup _ _ else _) _ _ =>
        destruct (Z.eqb_spec x y); [apply strdup_spec|]
    end.
  destruct (Z.eqb_spec (Z.land ty 255) cJSON_Number); [by apply number_spec|].
  destruct (Z.eqb_spec (Z.land ty 255) cJSON_String); [by apply string_spec|].
  assert (prints_all (print_item malloc_ok fmt) (depth + 1)
    (fun c => render fmt c (depth + 1)) cs) as Hall.
  { unfold prints_all. rewrite Forall_forall in IH, Hcs |- *.
    intros c Hc Hrc w'. apply IH; [done|by apply Hcs|lia|done]. }
  destruct (Z.eqb_spec (Z.land ty 255) cJSON_Array); [by apply array_spec|].
  destruct (Z.eqb_spec (Z.land ty 255) cJSON_Object).
  - destruct (decide (cs = [])) as [->|Hne]; [by apply empty_object_spec|]. by apply object_spec.
  - unfold cJSON_NULL, cJSON_False, cJSON_True, cJSON_Number, cJSON_String, cJSON_Array,
      cJSON_Object in *. lia.
Qed.
End Printing.

(** C6. Whatever the allocator refuses, printing an item never stores outside its buffers and
    never loses a block: either the text of the item comes back in one new block, or a null
    pointer comes back, a request was refused and nothing stays allocated. The item is one of the
    seven types with numbers the C types hold ([printable]); texts up to about a gigabyte are
    covered, beyond that the sizes overflow an [int]. *)
Theorem print_renders malloc_ok fmt item w :
  printable item -> room (render fmt item 0) ->
  exists r w', print_value malloc_ok (Some item) 0 fmt w = inl (r, w') /\ ep w' = ep w /\
    match r with
    | Some s => s = render fmt item 0 /\ live w' = live w + 1
    | None => (exists n size, malloc_ok n size = false) /\ live w' = live w
    end.
Proof.
  intros Hp Hr. pose proof (print_item_spec malloc_ok fmt item 0 w Hp ltac:(lia) Hr) as H.
  unfold wp in H. cbn [print_value].
  destruct (print_item malloc_ok fmt item 0 w) as [[r w']|f]; [|done].
  exists r, w'. split; [done|exact H].
Qed.

(** [[true, 2]], and an allocator that refuses the fifth request. *)
Lemma print_renders_witness :
  exists r w', print_value (fun n _ => negb (Nat.eqb n 4))
    (Some (Item cJSON_Array None 0 zero None
      [Item cJSON_True None 1 zero None []; Item cJSON_Number None 2 (of_int 2) None []])) 0 true
    (World 0 0 None) = inl (r, w') /\ ep w' = ep (World 0 0 None) /\
    match r with
    | Some s => s = [91; 116; 114; 117; 101; 44; 32; 50; 93] /\ live w' = live (World 0 0 None) + 1
    | None => (exists n (size : Z), negb (Nat.eqb n 4) = false) /\ live w' = live (World 0 0 None)
    end.
Proof.
  apply (print_renders (fun n _ => negb (Nat.eqb n 4)) true
    (Item cJSON_Array None 0 zero None
      [Item cJSON_True None 1 zero None []; Item cJSON_Number None 2 (of_int 2) None []])).
  - repeat match goal with
      | |- printable _ => constructor
      | |- Forall _ _ => constructor
      end; try done; unfold INT_MIN, INT_MAX; simpl; lia.
  - vm_compute. discriminate.
Defined.
