(* ===== verification/CJsonParse.v ===== *)
(** What the parser of src/demo_json/cJSON.c promises.

    For every text: it ends, and it owns exactly the blocks of the tree it returns, so that a
    failed parse leaks nothing. For texts without a backslash: it never leaves its buffers. For
    texts [print_value] stored of trees whose numbers are whole: it gives back the tree that was
    printed. For strings with a truncated escape: which ones leave the buffer or the text. *)

From Stdlib Require Import SpecFloat.
From S2P Require Import Prelude Double CJson CJsonPrint.

(** ** Blocks of a tree *)

Definition one {A} (o : option A) : Z := if o then 1 else 0.

(** How many blocks [cJSON_Delete] releases. *)
Fixpoint blocks (item : cJSON) : Z :=
  1 + one (valuestring item) + one (string item) + foldr (fun c n => blocks c + n) 0 (child item).

Definition all_blocks (cs : list cJSON) : Z := foldr (fun c n => blocks c + n) 0 cs.

Lemma blocks_eq item :
  blocks item = 1 + one (valuestring item) + one (string item) + all_blocks (child item).
Proof. by destruct item. Qed.

Lemma all_blocks_app cs ds : all_blocks (cs ++ ds) = all_blocks cs + all_blocks ds.
Proof.
  induction cs as [|c cs IH]; [done|]. cbn [app all_blocks foldr].
  change (foldr _ _ (cs ++ ds)) with (all_blocks (cs ++ ds)). rewrite IH.
  unfold all_blocks. lia.
Qed.

(** No item of the tree is a reference to data of another. *)
Inductive unshared : cJSON -> Prop :=
  unshared_intro item :
    Z.testbit (type item) 8 = false -> Forall unshared (child item) -> unshared item.

Lemma delete_item_spec E item w :
  unshared item ->
  wp E (delete_item item) w (fun _ w' => ep w' = ep w /\ live w' = live w - blocks item).
Proof.
  revert w. induction item as [ty vs vi vd s cs IH] using cJSON_tree_ind.
  intros w Hu. inversion Hu as [? Hty Hcs]; subst. rewrite blocks_eq.
  cbn [type valuestring string child delete_item] in *. rewrite Hty. cbn [negb when].
  assert (forall w, wp E ((fix chain (cs : list cJSON) : M unit :=
        match cs with [] => mret tt | c :: cs => _ ← delete_item c; chain cs end) cs) w
    (fun _ w' => ep w' = ep w /\ live w' = live w - all_blocks cs)) as Hchain.
  { clear w Hu. induction cs as [|c cs IHcs]; intros w.
    { apply wp_ret. cbn [all_blocks foldr]. split; [done|lia]. }
    apply Forall_cons in IH as [IHc IH]. apply Forall_cons in Hcs as [Hc Hcs].
    wp_pure. eapply wp_mono; [by apply IHc|]. intros _ w1 [He1 Hl1].
    eapply wp_mono; [by apply IHcs|]. intros _ w2 [He2 Hl2].
    cbn [all_blocks foldr]. change (foldr _ _ cs) with (all_blocks cs).
    split; [congruence|lia]. }
  wp_pure. eapply wp_mono; [apply Hchain|]. intros _ w1 [He Hl].
  destruct vs, s; cbn [bool_decide when one decide is_Some_dec]; repeat wp_pure; cbn [ep live];
    split; done || lia.
Qed.

(** ** The rest of a text *)

Lemma skip_loop_suffix p : skip_loop p `suffix_of` p.
Proof.
  induction p as [|c p IH]; cbn [skip_loop]; [done|]. case_match; [|done]. by apply suffix_cons_r.
Qed.

Lemma tl_suffix (p : text) : tl p `suffix_of` p.
Proof. destruct p; [done|]. by apply suffix_cons_r. Qed.

Lemma deref_suffix p c : deref p = c -> c <> 0 -> exists q, p = c :: q.
Proof. destruct p as [|d q]; cbn; [done|]. intros -> _. by exists q. Qed.

(** Some of [p] was consumed and [q] is left. *)
Definition leaves (p q : text) : Prop := q `suffix_of` p /\ (length q < length p)%nat.

Lemma leaves_suffix p q r : leaves p q -> r `suffix_of` q -> leaves p r.
Proof.
  intros [Hs Hl] Hr. split; [by etrans|]. apply suffix_length in Hr. lia.
Qed.

Lemma suffix_leaves p q r : q `suffix_of` p -> leaves q r -> leaves p r.
Proof.
  intros Hq [Hs Hl]. split; [by etrans|]. apply suffix_length in Hq. lia.
Qed.

Lemma cons_leaves c p : leaves (c :: p) p.
Proof. split; [by apply suffix_cons_r|simpl; lia]. Qed.

Lemma tl_leaves p : deref p <> 0 -> leaves p (tl p).
Proof. destruct p; [done|]. intros _. apply cons_leaves. Qed.

#[local] Hint Resolve skip_loop_suffix tl_suffix suffix_cons_r : core.

Lemma int_digits_suffix n p : (int_digits n p).2 `suffix_of` p.
Proof.
  revert n. induction p as [|c p IH]; intros n; cbn [int_digits]; [done|].
  case_match; [apply suffix_cons_r, IH|done].
Qed.

Lemma frac_digits_suffix n s p : (frac_digits n s p).2 `suffix_of` p.
Proof.
  revert n s. induction p as [|c p IH]; intros n s; cbn [frac_digits]; [done|].
  case_match; [apply suffix_cons_r, IH|done].
Qed.

Lemma exp_digits_suffix n p : (exp_digits n p).2 `suffix_of` p.
Proof.
  revert n. induction p as [|c p IH]; intros n; cbn [exp_digits]; [done|].
  case_match; [apply suffix_cons_r, IH|done].
Qed.

Lemma parse_number_item pow item num :
  exists vi vd, (parse_number pow item num).1
    = set_type cJSON_Number (set_valueint vi (set_valuedouble vd item)).
Proof.
  unfold parse_number.
  repeat match goal with |- context [let '(_, _) := ?x in _] => destruct x end. by eexists _, _.
Qed.

(** A number that starts with a sign or a digit is not empty. *)
Lemma parse_number_leaves pow item num :
  (deref num =? 45) || is_digit (deref num) = true -> leaves num (parse_number pow item num).2.
Proof.
  intros Hd. unfold parse_number.
  destruct (if deref num =? 45 then _ else _) as [sg p1] eqn:E1.
  set (p2 := if deref p1 =? 48 then tl p1 else p1).
  destruct (if (49 <=? deref p2) && _ then _ else _) as [n p3] eqn:E3.
  assert (leaves num p3) as H3.
  { destruct (Z.eqb_spec (deref num) 45) as [H45|_]; simplify_eq.
    - apply suffix_leaves with num; [done|]. apply leaves_suffix with (tl num).
      { apply tl_leaves. congruence. }
      assert (p2 `suffix_of` tl num) as H2 by (unfold p2; destruct (_ =? 48); auto).
      etrans; [|exact H2]. destruct (_ && _); simplify_eq; [|done].
      pose proof (int_digits_suffix zero p2) as H. by rewrite E3 in H.
    - cbn [orb] in Hd. unfold p2 in *. destruct (Z.eqb_spec (deref p1) 48) as [H48|H48].
      + apply leaves_suffix with (tl p1); [apply tl_leaves; congruence|].
        destruct (_ && _); simplify_eq; [|done].
        pose proof (int_digits_suffix zero (tl p1)) as H. by rewrite E3 in H.
      + unfold is_digit in Hd. apply andb_true_iff in Hd as [Ha%Z.leb_le Hb%Z.leb_le].
        rewrite (proj2 (Z.leb_le 49 _)), (proj2 (Z.leb_le _ 57)) in E3 by lia. cbn [andb] in E3.
        destruct p1 as [|c p1]; [done|]. cbn [deref hd] in *. cbn [int_digits] in E3.
        unfold is_digit in E3. rewrite (proj2 (Z.leb_le 48 c)), (proj2 (Z.leb_le c 57)) in E3 by lia.
        cbn [andb] in E3. apply leaves_suffix with p1; [apply cons_leaves|].
        pose proof (int_digits_suffix (dadd (dmul zero (of_int 10)) (of_int (c - 48))) p1) as H.
        by rewrite E3 in H. }
  destruct (if (deref p3 =? 46) && _ then _ else _) as [[n' sc] p4] eqn:E4.
  assert (p4 `suffix_of` p3) as H4.
  { destruct ((deref p3 =? 46) && is_digit (deref (tl p3))); simplify_eq; [|done].
    pose proof (frac_digits_suffix n zero (tl p3)) as H. rewrite E4 in H.
    etrans; [exact H|auto]. }
  destruct (if (deref p4 =? 101) || _ then _ else _) as [[sub ss] p5] eqn:E5. cbn [snd].
  apply leaves_suffix with p4; [by apply leaves_suffix with p3|].
  destruct ((deref p4 =? 101) || (deref p4 =? 69)); simplify_eq; [|done].
  destruct (if deref (tl p4) =? 43 then _ else _) as [ss' p6] eqn:E6.
  assert (p6 `suffix_of` p4) as H6.
  { destruct (deref (tl p4) =? 43); [|destruct (deref (tl p4) =? 45)]; simplify_eq; auto;
      (etrans; [apply tl_suffix|auto]). }
  pose proof (exp_digits_suffix 0 p6) as H7. destruct (exp_digits 0 p6) as [sub' p7].
  simplify_eq. by etrans.
Qed.

(** ** Every text

    [good] texts are those on which [parse_string] commits no fault but the ones [E] allows. *)

(** What a parser of one value does to the item it is given: it returns it with the blocks it
    allocated, and what is left of the text if it succeeds. *)
Definition grows (item : cJSON) (value : text) (w : world) (r : cJSON * option text) (w' : world)
    : Prop :=
  live w' - blocks r.1 = live w - blocks item /\ unshared r.1 /\ string r.1 = string item /\
  forall rest, r.2 = Some rest -> leaves value rest.

(** An item that owns nothing but its name. *)
Definition fresh_item (item : cJSON) : Prop :=
  unshared item /\ valuestring item = None /\ child item = [].

Lemma blank_fresh : fresh_item blank /\ string blank = None.
Proof. by repeat constructor. Qed.

Section General.
Context (malloc_ok : nat -> Z -> bool) (pow : double -> double -> double).
Context (E : fault -> Prop) (good : text -> Prop).
Context (good_suffix : forall p q, q `suffix_of` p -> good p -> good q).
Context (Hstring : forall item str w, good str ->
  wp E (parse_string malloc_ok item str) w (fun '(i, e) w' =>
    (i = item /\ e = None /\ live w' = live w) \/
    (exists out rest, i = set_type cJSON_String (set_valuestring (Some out) item) /\
       e = Some rest /\ leaves str rest /\ live w' = live w + 1))).

(** The parser of the values shorter than [n]. *)
Definition parses (n : nat) (pv : cJSON -> option text -> M (cJSON * option text)) : Prop :=
  forall item value w, fresh_item item -> good value -> (length value < n)%nat ->
    wp E (pv item (Some value)) w (grows item value w).

Lemma new_item_spec w :
  wp E (cJSON_New_Item malloc_ok) w (fun r w' =>
    match r with None => live w' = live w | Some i => i = blank /\ live w' = live w + 1 end).
Proof.
  unfold cJSON_New_Item. wp_pure. apply wp_malloc; [intros _|]; by apply wp_ret.
Qed.

Lemma grows_refl item value w w' :
  unshared item -> live w' = live w -> grows item value w (item, None) w'.
Proof. intros Hu Hl. unfold grows. cbn [fst snd]. rewrite Hl. by split_and!. Qed.

Lemma parse_array_loop n pv fuel before c value w :
  parses n pv -> (length value < fuel)%nat -> (length value <= n)%nat -> good value ->
  Forall unshared (before ++ [c]) ->
  wp E (array_loop malloc_ok pv fuel before c value) w (fun '(cs, e) w' =>
    live w' - all_blocks cs = live w - all_blocks (before ++ [c]) /\ Forall unshared cs /\
    forall rest, e = Some rest -> rest `suffix_of` value).
Proof using good_suffix.
  intros Hpv. revert before c value w.
  induction fuel as [|fuel IH]; intros before c value w Hf Hn Hg Hu; [lia|]. cbn [array_loop].
  destruct (Z.eqb_spec (deref value) 44) as [H44|_].
  2: { apply wp_ret. split_and!; [lia|done|]. by intros rest [= <-]. }
  assert (leaves value (tl value)) as Htl by (apply tl_leaves; congruence).
  wp_pure. eapply wp_mono; [apply new_item_spec|]. intros [item|] w1 Hi.
  2: { apply wp_ret. rewrite Hi. split_and!; [lia|done|done]. }
  destruct Hi as [-> Hl1]. wp_pure. cbn [skip fmap option_fmap option_map].
  pose proof (leaves_suffix _ _ _ Htl (skip_loop_suffix (tl value))) as Hsk.
  eapply wp_mono.
  { apply Hpv; [apply blank_fresh|by eapply good_suffix, Hg; apply Hsk|destruct Hsk; lia]. }
  intros [c' e] w2 (Hl2 & Hu2 & _ & He). cbn [fst snd] in *.
  change (blocks blank) with 1 in Hl2.
  destruct e as [rest|]; cbn [skip fmap option_fmap option_map].
  - specialize (He rest eq_refl).
    assert (leaves value (skip_loop rest)) as Hr.
    { eapply suffix_leaves; [apply Hsk|]. by apply leaves_suffix with rest. }
    eapply wp_mono.
    { apply IH; [destruct Hr; lia|destruct Hr; lia|by eapply good_suffix, Hg; apply Hr|].
      apply Forall_app. split; [done|by apply Forall_singleton]. }
    intros [cs e] w3 (Hl3 & Hu3 & Hr3). split_and!; [|done|].
    + rewrite !all_blocks_app in *. cbn [all_blocks foldr] in *. lia.
    + intros rest' ->. etrans; [by apply Hr3|apply Hr].
  - apply wp_ret. split_and!; [| |done].
    + rewrite !all_blocks_app. cbn [all_blocks foldr] in *. lia.
    + change [c; c'] with ([c] ++ [c']). rewrite (assoc_L app). apply Forall_app.
      split; [done|by apply Forall_singleton].
Qed.

Lemma set_child_blocks cs item :
  child item = [] -> blocks (set_child cs item) = blocks item + all_blocks cs.
Proof.
  intros Hc. rewrite !blocks_eq, Hc. change (all_blocks []) with 0.
  cbn [set_child valuestring string child]. lia.
Qed.

Lemma set_child_unshared cs ty item :
  Z.testbit ty 8 = false -> Forall unshared cs -> unshared (set_child cs (set_type ty item)).
Proof. by constructor. Qed.

Lemma set_type_blocks ty item : blocks (set_type ty item) = blocks item.
Proof. by rewrite !blocks_eq. Qed.

Lemma fresh_set_type ty item : Z.testbit ty 8 = false -> fresh_item item -> fresh_item (set_type ty item).
Proof.
  intros Ht ([i _ Hc] & Hv & Hn). split; [constructor; done|]. by split.
Qed.

Lemma parse_array_spec n pv item value w :
  parses n pv -> (length value <= n)%nat -> good value -> fresh_item item ->
  wp E (parse_array malloc_ok pv item value) w (grows item value w).
Proof using good_suffix.
  intros Hpv Hn Hg Hi. pose proof Hi as (Hu & Hv & Hc). unfold parse_array.
  destruct (Z.eqb_spec (deref value) 91) as [H91|_]; cbn [negb].
  2: { by repeat wp_pure; apply grows_refl. }
  set (item1 := set_type cJSON_Array item).
  assert (fresh_item item1) as (Hu1 & _ & Hc1) by by apply fresh_set_type.
  assert (blocks item1 = blocks item) as Hb1 by apply set_type_blocks.
  assert (leaves value (tl value)) as Htl by (apply tl_leaves; congruence).
  pose proof (leaves_suffix _ _ _ Htl (skip_loop_suffix (tl value))) as Hsk.
  set (p := skip_loop (tl value)) in *.
  destruct (Z.eqb_spec (deref p) 93) as [H93|_].
  { apply wp_ret. unfold grows. cbn [fst snd]. split_and!; [lia|done|done|].
    intros rest [= <-]. by eapply leaves_suffix; [exact Hsk|]. }
  wp_pure. eapply wp_mono; [apply new_item_spec|]. intros [i|] w1 Hi1.
  2: { apply wp_ret. unfold grows. cbn [fst snd]. split_and!; [lia|done|done|done]. }
  destruct Hi1 as [-> Hl1]. wp_pure. cbn [skip fmap option_fmap option_map].
  pose proof (leaves_suffix _ _ _ Hsk (skip_loop_suffix p)) as Hsk2.
  eapply wp_mono.
  { apply Hpv; [apply blank_fresh|by eapply good_suffix, Hg; apply Hsk2|destruct Hsk2; lia]. }
  intros [c e] w2 (Hl2 & Hu2 & _ & He). cbn [fst snd] in *. change (blocks blank) with 1 in Hl2.
  assert (forall cs, Forall unshared cs -> unshared (set_child cs item1)) as Hset.
  { intros cs Hcs. by apply set_child_unshared. }
  assert (forall cs, blocks (set_child cs item1) = blocks item + all_blocks cs) as Hbs.
  { intros cs. by rewrite set_child_blocks, Hb1. }
  destruct e as [rest|]; cbn [skip fmap option_fmap option_map].
  2: { apply wp_ret. unfold grows. cbn [fst snd]. rewrite Hbs. cbn [all_blocks foldr].
       split_and!; [lia|by apply Hset, Forall_singleton|done|done]. }
  specialize (He rest eq_refl).
  assert (leaves value (skip_loop rest)) as Hr.
  { eapply suffix_leaves; [apply Hsk2|]. by apply leaves_suffix with rest. }
  wp_pure. eapply wp_mono.
  { apply (parse_array_loop n); [done|lia|destruct Hr; lia|by eapply good_suffix, Hg; apply Hr|].
    by apply Forall_singleton. }
  intros [cs e] w3 (Hl3 & Hu3 & Hr3). cbn [app all_blocks foldr] in Hl3.
  destruct e as [rest2|].
  2: { apply wp_ret. unfold grows. cbn [fst snd]. rewrite Hbs.
       split_and!; [lia|by apply Hset|done|done]. }
  destruct (_ =? 93); repeat wp_pure; unfold grows; cbn [fst snd live]; rewrite ?Hbs;
    split_and!; try done; try lia; try by apply Hset.
  intros r [= <-]. eapply leaves_suffix; [exact Hr|]. etrans; [apply tl_suffix|by apply Hr3].
Qed.

(** A member: its item gets a name, and nothing else changes hands. *)
Definition grows_member (item : cJSON) (value : text) (w : world) (r : cJSON * option text)
    (w' : world) : Prop :=
  live w' - blocks r.1 = live w - blocks item /\ unshared r.1 /\
  forall rest, r.2 = Some rest -> leaves value rest.

Lemma parse_member_spec n pv value w :
  parses n pv -> (length value <= n)%nat -> good value ->
  wp E (parse_member malloc_ok pv blank value) w (grows_member blank value w).
Proof using good_suffix Hstring.
  intros Hpv Hn Hg. unfold parse_member.
  assert (good (skip_loop value)) as Hg1 by by eapply good_suffix, Hg.
  wp_pure. eapply wp_mono; [by apply Hstring|]. intros [c e] w1 [(-> & -> & Hl)|H].
  { cbn [skip fmap option_fmap option_map]. apply wp_ret. unfold grows_member. cbn [fst snd].
    split_and!; [lia|apply blank_fresh|done]. }
  destruct H as (out & rest & -> & -> & Hrest & Hl).
  assert (leaves value (skip_loop rest)) as Hr.
  { eapply suffix_leaves; [apply skip_loop_suffix|]. by eapply leaves_suffix. }
  cbn [skip fmap option_fmap option_map]. set (c := set_valuestring None _).
  assert (c = Item cJSON_String None 0 zero (Some out) []) as -> by done.
  assert (fresh_item (Item cJSON_String None 0 zero (Some out) [])) as Hf by by repeat constructor.
  destruct (Z.eqb_spec (deref (skip_loop rest)) 58) as [H58|_]; cbn [negb].
  2: { repeat wp_pure. unfold grows_member. cbn [fst snd live]. rewrite blocks_eq. cbn.
       split_and!; [lia|apply Hf|done]. }
  assert (leaves value (skip_loop (tl (skip_loop rest)))) as Hr2.
  { eapply leaves_suffix; [exact Hr|]. etrans; [apply skip_loop_suffix|apply tl_suffix]. }
  wp_pure. eapply wp_mono.
  { apply Hpv; [done|by eapply good_suffix, Hg; apply Hr2|destruct Hr2; lia]. }
  intros [c e] w2 (Hl2 & Hu2 & _ & He). cbn [fst snd] in *. rewrite (blocks_eq (Item _ _ _ _ _ _)) in Hl2.
  apply wp_ret. unfold grows_member. cbn [fst snd]. cbn in Hl2. split_and!; [cbn; lia|done|].
  intros r Hr3. destruct e as [p|]; [|done]. cbn in Hr3. injection Hr3 as <-.
  eapply suffix_leaves; [apply Hr2|]. eapply leaves_suffix; [by apply He|apply skip_loop_suffix].
Qed.

Lemma parse_object_loop n pv fuel before c value w :
  parses n pv -> (length value < fuel)%nat -> (length value <= n)%nat -> good value ->
  Forall unshared (before ++ [c]) ->
  wp E (object_loop malloc_ok pv fuel before c value) w (fun '(cs, e) w' =>
    live w' - all_blocks cs = live w - all_blocks (before ++ [c]) /\ Forall unshared cs /\
    forall rest, e = Some rest -> rest `suffix_of` value).
Proof using good_suffix Hstring.
  intros Hpv. revert before c value w.
  induction fuel as [|fuel IH]; intros before c value w Hf Hn Hg Hu; [lia|]. cbn [object_loop].
  destruct (Z.eqb_spec (deref value) 44) as [H44|_].
  2: { apply wp_ret. split_and!; [lia|done|]. by intros rest [= <-]. }
  assert (leaves value (tl value)) as Htl by (apply tl_leaves; congruence).
  wp_pure. eapply wp_mono; [apply new_item_spec|]. intros [item|] w1 Hi.
  2: { apply wp_ret. rewrite Hi. split_and!; [lia|done|done]. }
  destruct Hi as [-> Hl1]. wp_pure.
  eapply wp_mono.
  { apply (parse_member_spec n); [done|destruct Htl; lia|by eapply good_suffix, Hg; apply Htl]. }
  intros [c' e] w2 (Hl2 & Hu2 & He). cbn [fst snd] in *. change (blocks blank) with 1 in Hl2.
  destruct e as [rest|].
  - specialize (He rest eq_refl).
    assert (leaves value rest) as Hr by (eapply suffix_leaves; [apply Htl|done]).
    eapply wp_mono.
    { apply IH; [destruct Hr; lia|destruct Hr; lia|by eapply good_suffix, Hg; apply Hr|].
      apply Forall_app. split; [done|by apply Forall_singleton]. }
    intros [cs e] w3 (Hl3 & Hu3 & Hr3). split_and!; [|done|].
    + rewrite !all_blocks_app in *. cbn [all_blocks foldr] in *. lia.
    + intros rest' ->. etrans; [by apply Hr3|apply Hr].
  - apply wp_ret. split_and!; [| |done].
    + rewrite !all_blocks_app. cbn [all_blocks foldr] in *. lia.
    + change [c; c'] with ([c] ++ [c']). rewrite (assoc_L app). apply Forall_app.
      split; [done|by apply Forall_singleton].
Qed.

Lemma parse_object_spec n pv item value w :
  parses n pv -> (length value <= n)%nat -> good value -> fresh_item item ->
  wp E (parse_object malloc_ok pv item value) w (grows item value w).
Proof using good_suffix Hstring.
  intros Hpv Hn Hg Hi. pose proof Hi as (Hu & Hv & Hc). unfold parse_object.
  destruct (Z.eqb_spec (deref value) 123) as [H123|_]; cbn [negb].
  2: { by repeat wp_pure; apply grows_refl. }
  set (item1 := set_type cJSON_Object item).
  assert (fresh_item item1) as (Hu1 & _ & Hc1) by by apply fresh_set_type.
  assert (blocks item1 = blocks item) as Hb1 by apply set_type_blocks.
  assert (leaves value (tl value)) as Htl by (apply tl_leaves; congruence).
  pose proof (leaves_suffix _ _ _ Htl (skip_loop_suffix (tl value))) as Hsk.
  set (p := skip_loop (tl value)) in *.
  destruct (Z.eqb_spec (deref p) 125) as [H125|_].
  { apply wp_ret. unfold grows. cbn [fst snd]. split_and!; [lia|done|done|].
    intros rest [= <-]. by eapply leaves_suffix; [exact Hsk|]. }
  wp_pure. eapply wp_mono; [apply new_item_spec|]. intros [i|] w1 Hi1.
  2: { apply wp_ret. unfold grows. cbn [fst snd]. split_and!; [lia|done|done|done]. }
  destruct Hi1 as [-> Hl1]. wp_pure.
  eapply wp_mono.
  { apply (parse_member_spec n); [done|destruct Hsk; lia|by eapply good_suffix, Hg; apply Hsk]. }
  intros [c e] w2 (Hl2 & Hu2 & He). cbn [fst snd] in *. change (blocks blank) with 1 in Hl2.
  assert (forall cs, Forall unshared cs -> unshared (set_child cs item1)) as Hset.
  { intros cs Hcs. by apply set_child_unshared. }
  assert (forall cs, blocks (set_child cs item1) = blocks item + all_blocks cs) as Hbs.
  { intros cs. by rewrite set_child_blocks, Hb1. }
  destruct e as [rest|].
  2: { apply wp_ret. unfold grows. cbn [fst snd]. rewrite Hbs. cbn [all_blocks foldr].
       split_and!; [lia|by apply Hset, Forall_singleton|done|done]. }
  specialize (He rest eq_refl).
  assert (leaves value rest) as Hr by (eapply suffix_leaves; [apply Hsk|done]).
  wp_pure. eapply wp_mono.
  { apply (parse_object_loop n); [done|lia|destruct Hr; lia|by eapply good_suffix, Hg; apply Hr|].
    by apply Forall_singleton. }
  intros [cs e] w3 (Hl3 & Hu3 & Hr3). cbn [app all_blocks foldr] in Hl3.
  destruct e as [rest2|].
  2: { apply wp_ret. unfold grows. cbn [fst snd]. rewrite Hbs.
       split_and!; [lia|by apply Hset|done|done]. }
  destruct (_ =? 125); repeat wp_pure; unfold grows; cbn [fst snd live]; rewrite ?Hbs;
    split_and!; try done; try lia; try by apply Hset.
  intros r [= <-]. eapply leaves_suffix; [exact Hr|]. etrans; [apply tl_suffix|by apply Hr3].
Qed.

Lemma starts_with_leaves word value :
  starts_with word value = true -> (0 < length word)%nat -> leaves value (drop (length word) value).
Proof.
  intros [k ->]%bool_decide_eq_true Hl. rewrite drop_app_length. split.
  - by exists word.
  - rewrite length_app. lia.
Qed.

(** A value that is no string, array or object only sets scalar fields. *)
Lemma grows_scalar item i value w rest :
  fresh_item item -> leaves value rest -> Z.testbit (type i) 8 = false ->
  valuestring i = valuestring item -> string i = string item -> child i = child item ->
  grows item value w (i, Some rest) w.
Proof.
  intros (Hu & Hv & Hc) Hr Ht Hvi Hs Hci. unfold grows. cbn [fst snd].
  rewrite !blocks_eq, Hvi, Hs, Hci. split_and!; [done| |done|by intros ? [= <-]].
  constructor; [done|]. by rewrite Hci, Hc.
Qed.

Lemma parse_value_spec n : parses n (parse_value malloc_ok pow n).
Proof using good_suffix Hstring.
  induction n as [|n IH]; intros item value w Hi Hg Hn; [lia|]. cbn [parse_value].
  pose proof Hi as (Hu & Hv & Hc).
  destruct (starts_with [110; 117; 108; 108] value) eqn:E1.
  { apply wp_ret, grows_scalar; try done. apply starts_with_leaves in E1; [done|simpl; lia]. }
  destruct (starts_with [102; 97; 108; 115; 101] value) eqn:E2.
  { apply wp_ret, grows_scalar; try done. apply starts_with_leaves in E2; [done|simpl; lia]. }
  destruct (starts_with [116; 114; 117; 101] value) eqn:E3.
  { apply wp_ret, grows_scalar; try done. apply starts_with_leaves in E3; [done|simpl; lia]. }
  destruct (deref value =? 34).
  { eapply wp_mono; [by apply Hstring|]. intros [i e] w1 [(-> & -> & Hl)|H].
    { by apply grows_refl. }
    destruct H as (out & rest & -> & -> & Hrest & Hl). unfold grows. cbn [fst snd].
    rewrite !blocks_eq. cbn. rewrite Hc, Hv. cbn. split_and!; [lia| |done|by intros ? [= <-]].
    constructor; [done|]. cbn. by rewrite Hc. }
  destruct ((deref value =? 45) || is_digit (deref value)) eqn:E4.
  { apply (parse_number_leaves pow item) in E4.
    destruct (parse_number_item pow item value) as (vi & vd & Ei).
    destruct (parse_number pow item value) as [i num]. cbn [fst snd] in *. subst.
    by apply wp_ret, grows_scalar. }
  destruct (deref value =? 91); [apply (parse_array_spec n); try done; lia|].
  destruct (deref value =? 123); [apply (parse_object_spec n); try done; lia|].
  repeat wp_pure. by apply grows_refl.
Qed.

Lemma parse_with_opts_spec value re rn w :
  good value ->
  wp E (cJSON_ParseWithOpts malloc_ok pow (Some value) re rn) w (fun '(c, _) w' =>
    match c with
    | Some c => live w' = live w + blocks c /\ unshared c
    | None => live w' = live w
    end).
Proof using good_suffix Hstring.
  intros Hg. unfold cJSON_ParseWithOpts. wp_pure.
  eapply wp_mono; [apply new_item_spec|]. intros [c|] w1 Hc; wp_pure; apply wp_set_ep.
  2: { by apply wp_ret. }
  destruct Hc as [-> Hl1]. wp_pure. cbn [skip fmap option_fmap option_map].
  eapply wp_mono.
  { apply parse_value_spec; [apply blank_fresh|by eapply good_suffix, Hg|].
    unfold parse_fuel. cbn. pose proof (suffix_length _ _ (skip_loop_suffix value)). lia. }
  intros [i e] w2 (Hl2 & Hu2 & _ & _). cbn [fst snd live] in *. change (blocks blank) with 1 in Hl2.
  destruct e as [stop|].
  2: { wp_pure. eapply wp_mono; [by apply delete_item_spec|]. intros _ w3 [_ Hl3].
       apply wp_ret. lia. }
  destruct (rn && _).
  - wp_pure. eapply wp_mono; [by apply delete_item_spec|]. intros _ w3 [_ Hl3].
    repeat wp_pure. cbn. lia.
  - apply wp_ret. split; [lia|done].
Qed.
End General.

(** ** Strings of arbitrary texts *)

Section AnyString.
Context (E : fault -> Prop) (HR : E OverRead) (HW : E OverWrite) (HI : E IntOverflow).

Lemma any_put cap out c w (Q : text -> world -> Prop) :
  Q (out ++ [c]) w -> wp E (put cap out c) w Q.
Proof using HW. intros HQ. unfold put. by case_match. Qed.

Lemma any_put_all cap out s w (Q : text -> world -> Prop) :
  Q (out ++ s) w -> wp E (put_all cap out s) w Q.
Proof using HW.
  revert out. induction s as [|c s IH]; intros out HQ.
  { apply wp_ret. by rewrite app_nil_r in HQ. }
  apply wp_bind, any_put, IH. by rewrite <- (assoc_L app).
Qed.

Lemma any_next p w (Q : text -> world -> Prop) :
  (forall q, leaves p q -> Q q w) -> wp E (next p) w Q.
Proof using HR.
  intros HQ. destruct p as [|c p]; [done|]. apply wp_ret, HQ. apply cons_leaves.
Qed.

Lemma any_advance n p w (Q : text -> world -> Prop) :
  (forall q, q `suffix_of` p -> Q q w) -> wp E (advance n p) w Q.
Proof using HR.
  revert p. induction n as [|n IH]; intros p HQ; cbn [advance]; [by apply wp_ret, HQ|].
  apply wp_bind. destruct p as [|c p]; [done|]. apply wp_ret, IH.
  intros q Hq. apply HQ. by apply suffix_cons_r.
Qed.

Lemma any_unescape cap out ptr w :
  wp E (unescape cap out ptr) w (fun '(_, p) w' => w' = w /\ p `suffix_of` ptr).
Proof using HR HW.
  unfold unescape. cbv zeta.
  repeat match goal with
    | |- wp E (if _ then (_ ← put _ _ _; _) else _) _ _ =>
        case_match; [apply wp_bind, any_put, wp_ret; done|]
    end.
  case_match; [|apply wp_bind, any_put, wp_ret; done].
  unfold transcode. cbv zeta. apply wp_bind, any_advance. intros p Hp.
  case_match; [by apply wp_ret|]. case_match; [|by apply wp_bind, any_put_all, wp_ret].
  case_match; [by apply wp_ret|]. apply wp_bind, any_advance. intros q Hq.
  assert (q `suffix_of` ptr) by by etrans.
  case_match; [by apply wp_ret|by apply wp_bind, any_put_all, wp_ret].
Qed.

Lemma any_copy_string fuel cap out ptr w :
  (length ptr < fuel)%nat ->
  wp E (copy_string fuel cap out ptr) w (fun '(_, p) w' => w' = w /\ p `suffix_of` ptr).
Proof using HR HW.
  revert out ptr. induction fuel as [|fuel IH]; intros out ptr Hf; [lia|]. cbn [copy_string].
  case_match; [by apply wp_ret|]. case_match.
  - apply wp_bind, any_put, wp_bind, any_next. intros q [Hq Hl].
    eapply wp_mono; [apply IH; lia|]. intros [o p] w' [-> Hp]. split; [done|by etrans].
  - apply wp_bind, any_next. intros q [Hq Hl]. apply wp_bind.
    eapply wp_mono; [apply any_unescape|]. intros [o p] w' [-> Hp].
    apply wp_bind, any_next. intros r [Hr Hl2]. apply suffix_length in Hp as Hl3.
    eapply wp_mono; [apply IH; lia|]. intros [o2 p2] w' [-> Hp2]. split; [done|].
    etrans; [exact Hp2|]. etrans; [exact Hr|]. by etrans.
Qed.

Lemma any_scan_string len ptr w :
  wp E (scan_string len ptr) w (fun _ w' => w' = w).
Proof using HR HI.
  assert (forall n len ptr, (length ptr < n)%nat -> wp E (scan_string len ptr) w (fun _ w' => w' = w))
    as H; [|apply (H (S (length ptr))); lia].
  clear len ptr. induction n as [|n IH]; intros len ptr Hn; [lia|].
  destruct ptr as [|c ptr]; cbn [scan_string]; [done|]. case_match; [done|].
  apply wp_bind. unfold int_add. case_match; [|done]. apply wp_ret. case_match.
  - destruct ptr as [|d ptr]; [done|]. apply IH. simpl in Hn. lia.
  - apply IH. simpl in Hn. lia.
Qed.

Lemma any_parse_string malloc_ok item str w :
  wp E (parse_string malloc_ok item str) w (fun '(i, e) w' =>
    (i = item /\ e = None /\ live w' = live w) \/
    (exists out rest, i = set_type cJSON_String (set_valuestring (Some out) item) /\
       e = Some rest /\ leaves str rest /\ live w' = live w + 1)).
Proof using HR HW HI.
  unfold parse_string. destruct (Z.eqb_spec (deref str) 34) as [H34|_]; cbn [negb].
  2: { repeat wp_pure. by left. }
  apply wp_bind. eapply wp_mono; [apply any_scan_string|]. intros len w' ->.
  apply wp_bind. unfold int_add. case_match; [|done]. apply wp_ret.
  apply wp_bind, wp_malloc; [intros _; cbn [negb]; apply wp_ret; by left|]. cbn [negb].
  assert (leaves str (tl str)) as [Htl Hl] by (apply tl_leaves; congruence).
  apply wp_bind. eapply wp_mono; [apply any_copy_string; lia|]. intros [out p] w' [-> Hp].
  apply wp_bind. unfold put_nul. case_match; [|done]. apply wp_ret. right.
  eexists out, _. split; [done|]. split; [done|]. split; [|done].
  apply leaves_suffix with (tl str); [by split|].
  case_match; [etrans; [apply tl_suffix|done]|done].
Qed.
End AnyString.

(** ** Strings without escapes *)

(** Texts without a backslash and a NUL, which an [int] can measure. *)
Definition plain (p : text) : Prop :=
  Forall (fun c => c <> 92 /\ c <> 0) p /\ length_z p <= INT_MAX.

Lemma plain_suffix p q : q `suffix_of` p -> plain p -> plain q.
Proof.
  intros Hs [Hf Hl]. pose proof (suffix_length _ _ Hs). destruct Hs as [k ->].
  apply Forall_app in Hf as [_ Hf]. split; [done|]. unfold length_z in *. lia.
Qed.

(** The characters up to the closing quote or the end. *)
Lemma split_at_quote (p : text) :
  exists a rest, p = a ++ rest /\ Forall (fun c => c <> 34) a /\ (rest = [] \/ deref rest = 34).
Proof.
  induction p as [|c p (a & rest & -> & Ha & Hr)]; [exists [], []; by repeat constructor|].
  destruct (decide (c = 34)) as [->|Hc].
  - exists [], (34 :: a ++ rest). split; [done|]. split; [constructor|by right].
  - exists (c :: a), rest. split; [done|]. split; [by constructor|done].
Qed.

Lemma plain_scan E a rest len w :
  Forall (fun c => c <> 92 /\ c <> 0) a -> Forall (fun c => c <> 34) a ->
  (rest = [] \/ deref rest = 34) -> len + length_z a <= INT_MAX ->
  wp E (scan_string len (a ++ rest)) w (fun n w' => w' = w /\ n = len + length_z a).
Proof.
  unfold length_z. intros Hp Hq Hr. revert len. induction a as [|c a IH]; intros len Hl.
  - assert (scan_string len rest = mret len) as E1.
    { destruct Hr as [->|Hr]; [done|]. destruct rest as [|d rest]; [done|]. cbn in Hr. by subst. }
    cbn [app]. rewrite E1. apply wp_ret. simpl. split; [done|lia].
  - apply Forall_cons in Hp as [[Hc _] Hp]. apply Forall_cons in Hq as [Hq1 Hq].
    cbn [app scan_string length] in *. rewrite (proj2 (Z.eqb_neq c 34) Hq1).
    wp_pure. apply wp_int_add; [lia|]. rewrite (proj2 (Z.eqb_neq c 92) Hc).
    eapply wp_mono; [apply IH; [done|done|lia]|]. intros n w' [-> ->]. split; [done|lia].
Qed.

Lemma plain_copy E a rest fuel cap out w :
  Forall (fun c => c <> 92 /\ c <> 0) a -> Forall (fun c => c <> 34) a ->
  (rest = [] \/ deref rest = 34) -> (length a < fuel)%nat -> length_z out + length_z a <= cap ->
  wp E (copy_string fuel cap out (a ++ rest)) w (fun r w' => w' = w /\ r = (out ++ a, rest)).
Proof.
  unfold length_z. intros Hp Hq Hr. revert fuel out. induction a as [|c a IH]; intros fuel out Hf Hl;
    (destruct fuel as [|fuel]; [lia|]); cbn [app copy_string].
  - assert ((deref rest =? 34) || (deref rest =? 0) = true) as ->
      by by destruct Hr as [->| ->].
    apply wp_ret. by rewrite app_nil_r.
  - apply Forall_cons in Hp as [[Hc Hc0] Hp]. apply Forall_cons in Hq as [Hq1 Hq].
    cbn [deref hd length] in *.
    rewrite (proj2 (Z.eqb_neq c 34) Hq1), (proj2 (Z.eqb_neq c 0) Hc0), (proj2 (Z.eqb_neq c 92) Hc).
    cbn [orb negb]. do 2 wp_pure. apply wp_bind, wp_ret.
    eapply wp_mono; [apply IH; [done|done|lia|rewrite length_app; simpl; lia]|].
    intros r w' [-> ->]. by rewrite <- (assoc_L app).
Qed.

Lemma plain_parse_string malloc_ok item str w :
  plain str ->
  wp no_fault (parse_string malloc_ok item str) w (fun '(i, e) w' =>
    (i = item /\ e = None /\ live w' = live w) \/
    (exists out rest, i = set_type cJSON_String (set_valuestring (Some out) item) /\
       e = Some rest /\ leaves str rest /\ live w' = live w + 1)).
Proof.
  intros [Hp Hl]. unfold parse_string. destruct (Z.eqb_spec (deref str) 34) as [H34|_]; cbn [negb].
  2: { repeat wp_pure. by left. }
  destruct (deref_suffix str 34) as [p ->]; [done|done|]. cbn [tl].
  destruct (split_at_quote p) as (a & rest & -> & Ha & Hr).
  apply Forall_cons in Hp as [_ Hp]. apply Forall_app in Hp as [Hpa _].
  unfold length_z in Hl. cbn [length] in *. rewrite length_app in Hl.
  wp_pure. eapply wp_mono; [apply plain_scan; try done; unfold length_z; lia|]. intros len w' [-> ->].
  unfold length_z. wp_pure. apply wp_int_add; [lia|].
  wp_pure. apply wp_malloc; [intros _; cbn [negb]; apply wp_ret; by left|]. cbn [negb].
  wp_pure. eapply wp_mono.
  { apply plain_copy; try done; unfold length_z; [rewrite length_app|simpl]; lia. }
  intros r w' [-> ->]. rewrite app_nil_l. repeat wp_pure. right. eexists a, _.
  split; [done|]. split; [done|]. split; [|done].
  assert (leaves (34 :: a ++ rest) rest) as H.
  { split; [by exists (34 :: a)|]. cbn [length]. rewrite length_app. lia. }
  case_match; [|done]. by eapply leaves_suffix.
Qed.

(** ** Printed strings *)

(** The bytes of a C string. *)
Definition c_string (s : text) : Prop := Forall (fun c => 0 < c < 256) s.

Lemma hex4_facts c :
  0 < c < 32 ->
  utf8_bytes c = [c] /\ Forall (fun d => d <> 34 /\ d <> 92) (hex4 c) /\
  forall rest, parse_hex4 (hex4 c ++ rest) = c.
Proof.
  intros Hc. assert (Forall (fun c => utf8_bytes c = [c] /\
    Forall (fun d => d <> 34 /\ d <> 92) (hex4 c) /\
    forall rest, parse_hex4 (hex4 c ++ rest) = c) (seqZ 1 31)) as H.
  { cbn. by repeat constructor. }
  rewrite Forall_forall in H. apply H, elem_of_seqZ. lia.
Qed.


Lemma escape_char_cases c :
  0 < c ->
  (escape_char c = [c] /\ c <> 34 /\ c <> 92) \/
  (exists x, escape_char c = [92; x] /\
     forall cap out rest, unescape cap out (x :: rest) = (out ← put cap out c; mret (out, x :: rest))) \/
  (escape_char c = 92 :: 117 :: hex4 c /\ c < 32).
Proof.
  intros Hc. unfold escape_char.
  destruct (Z.eqb_spec c 34) as [->|]; [right; left; by exists 34|].
  destruct (Z.eqb_spec c 92) as [->|]; [right; left; by exists 92|].
  destruct (Z.ltb_spec 31 c); cbn [negb andb]; [by left|].
  destruct (Z.eqb_spec c 8) as [->|]; [right; left; by exists 98|].
  destruct (Z.eqb_spec c 12) as [->|]; [right; left; by exists 102|].
  destruct (Z.eqb_spec c 10) as [->|]; [right; left; by exists 110|].
  destruct (Z.eqb_spec c 13) as [->|]; [right; left; by exists 114|].
  destruct (Z.eqb_spec c 9) as [->|]; [right; left; by exists 116|].
  right; right. split; [done|lia].
Qed.

Lemma scan_escaped s rest len w :
  c_string s -> len + length_z (escape s) <= INT_MAX ->
  wp no_fault (scan_string len (escape s ++ 34 :: rest)) w (fun n w' =>
    w' = w /\ len + length_z s <= n <= len + length_z (escape s)).
Proof.
  unfold length_z. intros Hs. revert len. induction Hs as [|c s Hc Hs IH]; intros len Hl.
  { apply wp_ret. simpl. split; [done|lia]. }
  cbn [escape]. cbn [escape length] in *. rewrite <- (assoc_L app). rewrite length_app in Hl.
  destruct (escape_char_cases c) as [(E & H34 & H92)|[(x & E & _)|[E H32]]]; [lia| | |];
    rewrite E in *; cbn [app scan_string length] in *.
  - rewrite (proj2 (Z.eqb_neq c 34) H34), (proj2 (Z.eqb_neq c 92) H92).
    wp_pure. apply wp_int_add; [lia|]. eapply wp_mono; [apply IH; lia|].
    intros n w' [-> Hn]. rewrite ?length_app. cbn [length]. split; [done|lia].
  - cbn [Z.eqb Pos.eqb]. wp_pure. apply wp_int_add; [lia|].
    eapply wp_mono; [apply IH; lia|].
    intros n w' [-> Hn]. rewrite ?length_app. cbn [length]. split; [done|lia].
  - cbn [Z.eqb Pos.eqb]. wp_pure. apply wp_int_add; [lia|].
    destruct (hex4_facts c) as (_ & Hd & _); [lia|]. unfold hex4 in *.
    rewrite !Forall_cons in Hd. destruct Hd as ([? ?] & [? ?] & [? ?] & [? ?] & _).
    cbn [app length scan_string] in *.
    repeat match goal with
      | H : ?d <> ?k |- context [?d =? ?k] => rewrite (proj2 (Z.eqb_neq d k) H)
      end.
    do 4 (wp_pure; apply wp_int_add; [lia|];
      repeat match goal with
        | H : ?d <> ?k |- context [?d =? ?k] => rewrite (proj2 (Z.eqb_neq d k) H)
        end).
    eapply wp_mono; [apply IH; lia|].
    intros n w' [-> Hn]. rewrite ?length_app. cbn [length]. split; [done|lia].
Qed.

Lemma copy_escaped s rest fuel cap out w :
  c_string s -> (length (escape s) < fuel)%nat -> length_z out + length_z s <= cap ->
  wp no_fault (copy_string fuel cap out (escape s ++ 34 :: rest)) w (fun r w' =>
    w' = w /\ r = (out ++ s, 34 :: rest)).
Proof.
  unfold length_z. intros Hs. revert fuel out.
  induction Hs as [|c s Hc Hs IH]; intros fuel out Hf Hl; (destruct fuel as [|fuel]; [lia|]).
  { apply wp_ret. by rewrite app_nil_r. }
  cbn [escape length] in *. rewrite <- (assoc_L app). rewrite length_app in Hf.
  assert (wp no_fault (copy_string fuel cap (out ++ [c]) (escape s ++ 34 :: rest)) w (fun r w' =>
      w' = w /\ r = (out ++ c :: s, 34 :: rest))) as Hrest.
  { eapply wp_mono; [apply IH; [|rewrite length_app; simpl; lia]|].
    - destruct (escape_char_cases c) as [(E & _)|[(x & E & _)|[E _]]]; [lia| | |];
        rewrite E in Hf; cbn [length] in Hf; lia.
    - intros r w' [-> ->]. by rewrite <- (assoc_L app). }
  destruct (escape_char_cases c) as [(E & H34 & H92)|[(x & E & Hx)|[E H32]]]; [lia| | |];
    rewrite E in *; cbn [app copy_string deref hd].
  - rewrite (proj2 (Z.eqb_neq c 34) H34), (proj2 (Z.eqb_neq c 92) H92),
      (proj2 (Z.eqb_neq c 0)) by lia. cbn [orb negb].
    do 2 wp_pure. by apply wp_bind, wp_ret.
  - cbn [Z.eqb Pos.eqb orb negb next]. apply wp_bind, wp_ret. rewrite Hx.
    do 4 wp_pure. by apply wp_bind, wp_ret.
  - cbn [Z.eqb Pos.eqb orb negb next]. apply wp_bind, wp_ret.
    destruct (hex4_facts c) as (Hu & _ & Hh); [lia|].
    specialize (Hh (escape s ++ 34 :: rest)).
    unfold unescape. cbn [deref hd]. cbn [Z.eqb Pos.eqb]. cbv zeta. unfold transcode. cbn [tl].
    rewrite Hh, Hu. unfold hex4. cbn [app advance next]. cbv zeta.
    repeat wp_pure.
    rewrite !(proj2 (Z.leb_gt _ c)), (proj2 (Z.eqb_neq c 0)) by lia. cbn [andb orb].
    by repeat wp_pure.
Qed.

(** ** Printed numbers *)

(** What may follow a number without being read as a part of it. *)
Definition ends_number (rest : text) : Prop :=
  is_digit (deref rest) = false /\ deref rest <> 46 /\ deref rest <> 101 /\ deref rest <> 69.

Lemma digit_is_digit c : digit_code c -> is_digit c = true.
Proof.
  unfold digit_code, is_digit. intros. by rewrite !(proj2 (Z.leb_le _ _)) by lia.
Qed.

Lemma int_digits_dec l a rest :
  Forall digit_code l -> is_digit (deref rest) = false -> 0 <= a -> digits_value a l < 2 ^ 52 ->
  int_digits (canon false a) (l ++ rest) = (canon false (digits_value a l), rest).
Proof.
  intros Hl Hr. revert a. induction Hl as [|c l Hc Hl IH]; intros a Ha Hv.
  - cbn [app]. destruct rest as [|d rest]; [done|]. cbn [int_digits]. cbn in Hr. by rewrite Hr.
  - cbn [app int_digits]. rewrite digit_is_digit by done. unfold digit_code in Hc.
    assert (a * 10 + (c - 48) <= digits_value (a * 10 + (c - 48)) l) as Hm
      by (apply digits_value_mono; [lia|done]).
    unfold digits_value in *. cbn [fold_left] in *.
    rewrite (of_int_canon 10), (of_int_canon (c - 48)) by lia.
    rewrite dmul_canon by lia. cbn [xorb]. rewrite dadd_canon by lia. by apply IH; [lia|].
Qed.

Section RoundTrip.
Context (malloc_ok : nat -> Z -> bool) (Hok : forall n s, malloc_ok n s = true).
Context (pow : double -> double -> double) (Hpow : pow (of_int 10) zero = of_int 1).

(** The digits of [n], with [-] in front when [s] is set. *)
Lemma parse_number_dec item (s : bool) n rest :
  0 <= n <= 2 ^ 31 -> (s = true -> 0 < n) -> (s = false -> n < 2 ^ 31) -> ends_number rest ->
  parse_number pow item ((if s then [45] else []) ++ dec n ++ rest) =
  (set_type cJSON_Number (set_valueint (cond_Zopp s n) (set_valuedouble (canon s n) item)), rest).
Proof using Hpow.
  intros Hn Hs1 Hs2 (Hd & Hdot & He1 & He2).
  assert (Forall digit_code (dec n)) as Hdig by (apply dec_digits; lia).
  unfold parse_number.
  assert ((if deref ((if s then [45] else []) ++ dec n ++ rest) =? 45
           then (of_int (-1), tl ((if s then [45] else []) ++ dec n ++ rest))
           else (of_int 1, (if s then [45] else []) ++ dec n ++ rest))
    = (canon s 1, dec n ++ rest)) as ->.
  { destruct s; [done|]. cbn [app]. destruct (dec n) as [|c l] eqn:E.
    - pose proof (dec_loop_nonempty (Z.to_nat (Z.log2 n)) n) as H. unfold dec in E.
      rewrite E in H. simpl in H. lia.
    - apply Forall_cons in Hdig as [Hc _]. unfold digit_code in Hc. cbn [app deref hd].
      by rewrite (proj2 (Z.eqb_neq c 45)) by lia. }
  cbv zeta. set (p := if deref (dec n ++ rest) =? 48 then tl (dec n ++ rest) else dec n ++ rest).
  assert ((if (49 <=? deref p) && (deref p <=? 57) then int_digits zero p else (zero, p))
    = (canon false n, rest)) as ->.
  { destruct (Z.eq_dec n 0) as [->|Hn0].
    - subst p. change (dec 0) with [48]. cbn [app deref hd Z.eqb Pos.eqb tl].
      unfold is_digit in Hd. destruct (Z.leb_spec 49 (deref rest)); [|done].
      rewrite (proj2 (Z.leb_le 48 _)) in Hd by lia. cbn [andb] in *. by rewrite Hd.
    - destruct (dec_head n) as (c & l & E & Hc); [lia|]. subst p. rewrite E.
      cbn [app deref hd]. rewrite (proj2 (Z.eqb_neq c 48)) by lia. cbn [deref hd].
      rewrite !(proj2 (Z.leb_le _ _)) by lia. cbn [andb]. rewrite E in Hdig.
      change zero with (canon false 0). change (c :: l ++ rest) with ((c :: l) ++ rest).
      pose proof (dec_value n ltac:(lia)) as Hval. rewrite E in Hval.
      rewrite int_digits_dec; [by rewrite Hval|done|done|done|]. rewrite Hval. lia. }
  rewrite (proj2 (Z.eqb_neq _ 46) Hdot). cbn [andb].
  rewrite (proj2 (Z.eqb_neq _ 101) He1), (proj2 (Z.eqb_neq _ 69) He2). cbn [orb].
  change (dadd zero (of_int (i32 (0 * 1)))) with zero. rewrite Hpow, (of_int_canon 1) by lia.
  rewrite !dmul_canon by lia. rewrite Z.mul_1_l, Z.mul_1_r, xorb_false_r.
  assert (xorb s false = s) as -> by by destruct s. by rewrite canon_value.
Qed.

Lemma parse_format_d item z rest :
  INT_MIN <= z <= INT_MAX -> ends_number rest ->
  parse_number pow item (format_d z ++ rest) =
  (set_type cJSON_Number (set_valueint z (set_valuedouble (of_int z) item)), rest).
Proof using Hpow.
  unfold INT_MIN, INT_MAX, format_d. intros Hz Hr. destruct (Z.ltb_spec z 0).
  - pose proof (parse_number_dec item true (- z) rest ltac:(lia) ltac:(lia) ltac:(done) Hr) as H1.
    cbn [app cond_Zopp] in *. rewrite H1, Z.opp_involutive. rewrite <- of_int_neg by lia.
    by rewrite Z.opp_involutive.
  - pose proof (parse_number_dec item false z rest ltac:(lia) ltac:(done) ltac:(lia) Hr) as H1.
    cbn [app cond_Zopp] in *. rewrite H1. by rewrite of_int_canon by lia.
Qed.

Lemma malloc_succeeds size w (Q : bool -> world -> Prop) :
  Q true (World (S (calls w)) (live w + 1) (ep w)) -> wp no_fault (malloc malloc_ok size) w Q.
Proof using Hok. intros HQ. apply wp_malloc; [|done]. by rewrite Hok. Qed.

Lemma new_item_succeeds w (Q : option cJSON -> world -> Prop) :
  Q (Some blank) (World (S (calls w)) (live w + 1) (ep w)) ->
  wp no_fault (cJSON_New_Item malloc_ok) w Q.
Proof using Hok. intros HQ. apply wp_bind, malloc_succeeds. by apply wp_ret. Qed.

Lemma parse_quote item s rest w :
  c_string s -> length_z (quote s) <= INT_MAX ->
  wp no_fault (parse_string malloc_ok item (quote s ++ rest)) w (fun r w' =>
    r = (set_type cJSON_String (set_valuestring (Some s) item), Some rest) /\
    live w' = live w + 1 /\ ep w' = ep w).
Proof using Hok.
  intros Hs Hl. unfold length_z, quote in *. cbn [app length] in *. rewrite length_app in Hl.
  cbn [length] in Hl. rewrite <- (assoc_L app). cbn [app].
  unfold parse_string. cbn [deref hd Z.eqb Pos.eqb negb tl]. wp_pure.
  eapply wp_mono; [apply scan_escaped; [done|unfold length_z; lia]|]. intros n w' [-> Hn].
  unfold length_z in Hn. wp_pure. apply wp_int_add; [lia|]. wp_pure. apply malloc_succeeds.
  cbn [negb]. wp_pure. eapply wp_mono.
  { apply copy_escaped; [done| |unfold length_z; simpl; lia].
    cbn [length]. rewrite length_app. lia. }
  intros r w' [-> ->]. rewrite app_nil_l. wp_pure. apply wp_put_nul; [lia|]. by apply wp_ret.
Qed.

(** ** Printed trees *)

(** Items whose numbers are all whole numbers of type [int] and whose other fields are those the
    parser sets: everything but the fields of the item's kind is zero. The parser also builds items
    with other numbers; [print_number] does not store all of their digits, and they are not
    covered. *)
Inductive canonical : cJSON -> Prop :=
  | canonical_null n : canonical (Item cJSON_NULL None 0 zero n [])
  | canonical_false n : canonical (Item cJSON_False None 0 zero n [])
  | canonical_true n : canonical (Item cJSON_True None 1 zero n [])
  | canonical_number z n :
      INT_MIN <= z <= INT_MAX -> canonical (Item cJSON_Number None z (of_int z) n [])
  | canonical_string s n : c_string s -> canonical (Item cJSON_String (Some s) 0 zero n [])
  | canonical_array n cs :
      Forall canonical cs -> Forall (fun c => string c = None) cs ->
      canonical (Item cJSON_Array None 0 zero n cs)
  | canonical_object n cs :
      Forall canonical cs -> Forall (fun c => exists k, string c = Some k /\ c_string k) cs ->
      canonical (Item cJSON_Object None 0 zero n cs).

Definition blanks (ws : text) : Prop := Forall (fun c => 0 < c <= 32) ws.

Lemma skip_blanks_loop ws x : blanks ws -> 32 < deref x -> skip_loop (ws ++ x) = x.
Proof.
  intros Hws Hx. induction Hws as [|c ws Hc _ IH]; cbn [app skip_loop].
  - destruct x as [|d x]; [done|]. cbn [deref hd skip_loop] in *.
    rewrite (proj2 (Z.leb_gt d 32)) by lia. by rewrite andb_false_r.
  - rewrite (proj2 (Z.eqb_neq c 0)), (proj2 (Z.leb_le c 32)) by lia. exact IH.
Qed.

Lemma skip_none x : 32 < deref x -> skip_loop x = x.
Proof. apply (skip_blanks_loop []). constructor. Qed.

Lemma number_text_int z n cs :
  INT_MIN <= z <= INT_MAX -> (number_text (Item cJSON_Number None z (of_int z) n cs)).2 = format_d z.
Proof using Type.
  unfold INT_MIN, INT_MAX. intros Hz. unfold number_text. cbn [valuedouble valueint].
  unfold dle. rewrite dsub_diag_int by lia. rewrite !int_le by (unfold INT_MIN, INT_MAX; lia). done.
Qed.

Lemma digits_head n : 0 <= n -> exists c l, dec n = c :: l /\ is_digit c = true.
Proof using Type.
  intros Hn. pose proof (dec_digits n Hn) as Hd. pose proof (dec_loop_nonempty (Z.to_nat (Z.log2 n)) n) as H.
  fold (dec n) in H. destruct (dec n) as [|c l]; [simpl in H; lia|].
  apply Forall_cons in Hd as [Hc _]. exists c, l. by rewrite digit_is_digit.
Qed.

Lemma format_d_head z :
  exists c l, format_d z = c :: l /\ (c =? 45) || is_digit c = true.
Proof using Type.
  unfold format_d. destruct (Z.ltb_spec z 0); [by eexists _, _|].
  destruct (digits_head z) as (c & l & -> & Hc); [lia|]. exists c, l. by rewrite Hc, orb_true_r.
Qed.

(** A printed value starts with a character that neither is skipped nor closes a bracket. *)
Lemma render_head fmt item d :
  canonical item ->
  exists c l, render fmt item d = c :: l /\ 32 < c /\ c <> 93 /\ c <> 125.
Proof using Type.
  intros Hc. destruct Hc as [| | |z n Hz|s n _|n cs _ _|n cs _ _].
  - by eexists _, _.
  - by eexists _, _.
  - by eexists _, _.
  - change (render fmt _ d) with (number_text (Item cJSON_Number None z (of_int z) n [])).2.
    rewrite number_text_int by done. destruct (format_d_head z) as (c & l & -> & Hc).
    exists c, l. split; [done|]. unfold is_digit in Hc.
    destruct (Z.eqb_spec c 45), (Z.leb_spec 48 c), (Z.leb_spec c 57); simpl in Hc; lia || done.
  - by eexists _, _.
  - exists 91. change (render fmt _ d)
      with (render_array fmt (map (fun c => render fmt c (d + 1)) cs)).
    destruct cs as [|c cs]; [by eexists _|]. by eexists _.
  - exists 123. change (render fmt _ d) with (render_object fmt d
      (map (fun c => (render_string (string c), render fmt c (d + 1))) cs)).
    destruct cs as [|c cs]; destruct fmt; by eexists _.
Qed.

Lemma starts_with_head c word d value : c <> d -> starts_with (c :: word) (d :: value) = false.
Proof using Type.
  intros Hne. apply bool_decide_eq_false. intros [k Hk]. by simplify_eq/=.
Qed.

Lemma parse_value_punct fuel item c l :
  c <> 110 -> c <> 102 -> c <> 116 ->
  parse_value malloc_ok pow (S fuel) item (Some (c :: l)) =
  (if c =? 34 then parse_string malloc_ok item (c :: l)
   else if (c =? 45) || is_digit c then
     let '(item, num) := parse_number pow item (c :: l) in mret (item, Some num)
   else if c =? 91 then
     parse_array malloc_ok (parse_value malloc_ok pow fuel) item (c :: l)
   else if c =? 123 then
     parse_object malloc_ok (parse_value malloc_ok pow fuel) item (c :: l)
   else _ ← set_ep (Some (c :: l)); mret (item, None)).
Proof using Type. intros. cbn [parse_value]. by rewrite !starts_with_head. Qed.

(** ** Elements *)

(** [parse_value] gives the item back from its text, whatever type the fresh item has. *)
Definition parses_back (fmt : bool) (d : Z) (c : cJSON) : Prop :=
  forall fuel ty rest w, (length (render fmt c d) < fuel)%nat -> ends_number rest ->
    length_z (render fmt c d) <= INT_MAX ->
    wp no_fault
      (parse_value malloc_ok pow fuel (Item ty None 0 zero (string c) []) (Some (render fmt c d ++ rest)))
      w (fun r w' => r = (c, Some rest) /\
        live w' = live w + blocks c - 1 - one (string c) /\ ep w' = ep w).

(** The elements behind the first one. *)
Fixpoint tails (sep : text) (parts : list text) : text :=
  match parts with [] => [] | p :: parts => sep ++ p ++ tails sep parts end.

Lemma join_tails sep p parts : join sep (p :: parts) = p ++ tails sep parts.
Proof using Type.
  revert p. induction parts as [|q parts IH]; intros p; [by rewrite app_nil_r|].
  change (join sep (p :: q :: parts)) with (p ++ sep ++ join sep (q :: parts)).
  by rewrite IH.
Qed.

(** What stands behind an element of an array or a member of an object. *)
Lemma tails_head sep parts close rest :
  deref sep = 44 -> 32 < deref close -> deref close <> 46 -> is_digit (deref close) = false ->
  deref close <> 101 -> deref close <> 69 ->
  ends_number (tails sep parts ++ close ++ rest) /\
  skip_loop (tails sep parts ++ close ++ rest) = tails sep parts ++ close ++ rest.
Proof using Type.
  intros Hs Hc1 Hc2 Hc3 Hc4 Hc5.
  assert (deref (tails sep parts ++ close ++ rest) = match parts with [] => deref close | _ => 44 end)
    as E.
  { destruct parts; cbn [tails app].
    - by destruct close.
    - by destruct sep. }
  unfold ends_number. rewrite E. split; [by destruct parts|].
  apply skip_none. rewrite E. by destruct parts.
Qed.

Lemma array_loop_spec fmt d cs rest n fuel before c w :
  Forall canonical cs -> Forall (parses_back fmt d) cs -> Forall (fun c => string c = None) cs ->
  let parts := map (fun c => render fmt c d) cs in
  (length cs < fuel)%nat -> (length (tails (array_sep fmt) parts) < n)%nat ->
  length_z (tails (array_sep fmt) parts) <= INT_MAX ->
  wp no_fault (array_loop malloc_ok (parse_value malloc_ok pow n) fuel before c
      (tails (array_sep fmt) parts ++ [93] ++ rest)) w
    (fun r w' => r = (before ++ c :: cs, Some ([93] ++ rest)) /\
      live w' = live w + all_blocks cs /\ ep w' = ep w).
Proof using Hok Hpow.
  intros Hcan Hback Hnames. revert fuel before c w.
  induction cs as [|c1 cs IH]; intros fuel before c w parts Hf Hn Hl;
    (destruct fuel as [|fuel]; [simpl in Hf; lia|]).
  { apply wp_ret. cbn. split_and!; [done|lia|done]. }
  apply Forall_cons in Hcan as [Hc1 Hcan]. apply Forall_cons in Hback as [Hb1 Hback].
  apply Forall_cons in Hnames as [Hn1 Hnames]. subst parts. cbn [map tails] in *.
  set (parts := map _ cs) in *. unfold length_z in *. rewrite !length_app in Hn, Hl.
  rewrite <- !(assoc_L app).
  destruct (tails_head (array_sep fmt) parts [93] rest) as [He Hs];
    [by destruct fmt|done|done|done|done|done|].
  destruct (render_head fmt c1 d Hc1) as (h & l & Eh & Hh & _).
  assert (exists ws, array_sep fmt = 44 :: ws /\ blanks ws) as (ws & Ews & Hws).
  { destruct fmt; eexists; (split; [done|]); by repeat constructor. }
  rewrite Ews in *. cbn [app array_loop deref hd Z.eqb Pos.eqb tl].
  wp_pure. apply new_item_succeeds. wp_pure. cbn [skip fmap option_fmap option_map].
  rewrite skip_blanks_loop; [|done|by rewrite Eh].
  eapply wp_mono.
  { unfold parses_back in Hb1. rewrite Hn1 in Hb1. apply Hb1; [lia|done|unfold length_z; lia]. }
  intros r w1 (-> & Hl1 & He1). cbn [ep live skip fmap option_fmap option_map app] in *.
  rewrite Hs.
  eapply wp_mono; [apply IH; [done|done|done|simpl in Hf; lia|lia|lia]|].
  intros r w2 (-> & Hl2 & He2). cbn [one] in Hl1.
  split_and!; [by rewrite <- (assoc_L app)| |congruence].
  change (all_blocks (c1 :: cs)) with (blocks c1 + all_blocks cs). lia.
Qed.

Lemma parse_array_back fmt d cs rest n ty s w :
  Forall canonical cs -> Forall (parses_back fmt d) cs -> Forall (fun c => string c = None) cs ->
  let value := render_array fmt (map (fun c => render fmt c d) cs) in
  (length value <= n)%nat -> length_z value <= INT_MAX ->
  wp no_fault (parse_array malloc_ok (parse_value malloc_ok pow n) (Item ty None 0 zero s [])
      (value ++ rest)) w
    (fun r w' => r = (Item cJSON_Array None 0 zero s cs, Some rest) /\
      live w' = live w + all_blocks cs /\ ep w' = ep w).
Proof using Hok Hpow.
  intros Hcan Hback Hnames value Hn Hl. subst value. destruct cs as [|c cs].
  { cbn. repeat wp_pure. split_and!; [done|lia|done]. }
  assert (render_array fmt (map (fun c => render fmt c d) (c :: cs))
    = 91 :: render fmt c d ++ tails (array_sep fmt) (map (fun c => render fmt c d) cs) ++ [93]) as E.
  { cbn [map]. change (render_array fmt (?p :: ?q)) with (91 :: join (array_sep fmt) (p :: q) ++ [93]).
    by rewrite join_tails, <- (assoc_L app). }
  rewrite E in *. clear E. set (parts := map _ cs) in *.
  apply Forall_cons in Hcan as [Hc Hcan]. apply Forall_cons in Hback as [Hb Hback].
  apply Forall_cons in Hnames as [Hn1 Hnames]. unfold length_z in *. cbn [length] in *.
  rewrite !length_app in Hn, Hl. cbn [length] in *.
  destruct (tails_head (array_sep fmt) parts [93] rest) as [He Hs];
    [by destruct fmt|done|done|done|done|done|].
  destruct (render_head fmt c d Hc) as (h & l & Eh & Hh & Hh93 & _).
  cbn [app]. rewrite <- !(assoc_L app). unfold parse_array. cbn [deref hd Z.eqb Pos.eqb negb tl].
  rewrite skip_none by by rewrite Eh. rewrite Eh at 1. cbn [app deref hd].
  rewrite (proj2 (Z.eqb_neq h 93) Hh93).
  wp_pure. apply new_item_succeeds. wp_pure. cbn [skip fmap option_fmap option_map].
  rewrite skip_none by by rewrite Eh.
  eapply wp_mono.
  { unfold parses_back in Hb. rewrite Hn1 in Hb. apply Hb; [lia|exact He|unfold length_z; lia]. }
  intros r w1 (-> & Hl1 & He1). cbn [ep live one skip fmap option_fmap option_map app] in *.
  rewrite Hs. wp_pure. eapply wp_mono.
  { apply (array_loop_spec fmt d cs rest n); [done|done|done| |fold parts; lia|fold parts; unfold length_z; lia].
    fold parts. rewrite length_app. assert (length cs <= length (tails (array_sep fmt) parts))%nat; [|lia].
    subst parts. clear -fmt. induction cs as [|c cs IH]; [simpl; lia|]. cbn [map tails length].
    rewrite !length_app. unfold array_sep in *. destruct fmt; cbn [length]; lia. }
  intros r w2 (-> & Hl2 & He2). cbn [app deref hd Z.eqb Pos.eqb tl]. apply wp_ret.
  change (all_blocks (c :: cs)) with (blocks c + all_blocks cs). split_and!; [done|lia|congruence].
Qed.

(** ** Members *)

Definition lead (fmt : bool) (d : Z) : text := if fmt then tabs d else [].
Definition mid (fmt : bool) : text := if fmt then [9] else [].

Lemma member_line_eq fmt d m : member_line fmt d m = lead fmt d ++ m.1 ++ [58] ++ mid fmt ++ m.2.
Proof using Type. by destruct fmt. Qed.

Lemma tabs_blanks n : blanks (tabs n).
Proof using Type. unfold blanks, tabs. apply Forall_replicate. lia. Qed.

Lemma lead_blanks fmt d : blanks (lead fmt d).
Proof using Type. destruct fmt; [apply tabs_blanks|constructor]. Qed.

Definition member_text (fmt : bool) (d : Z) (c : cJSON) : text :=
  member_line fmt d (render_string (string c), render fmt c d).

Lemma parse_member_back fmt d c k ws rest n w :
  canonical c -> parses_back fmt d c -> string c = Some k -> c_string k -> blanks ws ->
  ends_number rest -> (length (member_text fmt d c) <= n)%nat ->
  length_z (member_text fmt d c) <= INT_MAX ->
  wp no_fault (parse_member malloc_ok (parse_value malloc_ok pow n) blank
      (ws ++ member_text fmt d c ++ rest)) w
    (fun r w' => r = (c, Some (skip_loop rest)) /\
      live w' = live w + blocks c - 1 /\ ep w' = ep w).
Proof using Hok Hpow.
  intros Hc Hb Hk Hks Hws He Hn Hl. unfold member_text in *. rewrite member_line_eq in *.
  rewrite Hk in *. cbn [fst snd render_string] in *. unfold length_z in *.
  rewrite !length_app in Hn, Hl. cbn [length] in *. unfold parse_member.
  rewrite <- !(assoc_L app), (assoc_L app ws).
  rewrite skip_blanks_loop; [|by apply Forall_app; split; [|apply lead_blanks]|done].
  destruct (render_head fmt c d Hc) as (h & l & Eh & Hh & _).
  wp_pure. eapply wp_mono; [apply parse_quote; [done|unfold length_z; lia]|].
  intros r w1 (-> & Hl1 & He1). cbn [skip fmap option_fmap option_map].
  rewrite skip_none by done. cbn [app deref hd Z.eqb Pos.eqb negb tl].
  rewrite skip_blanks_loop; [|destruct fmt; by repeat constructor|by rewrite Eh].
  change (set_valuestring _ _) with (Item cJSON_String None 0 zero (Some k) []).
  wp_pure. eapply wp_mono.
  { rewrite <- Hk. apply Hb; [lia|done|unfold length_z; lia]. }
  intros r w2 (-> & Hl2 & He2). apply wp_ret. cbn [fmap option_fmap option_map].
  rewrite Hk in Hl2. cbn [one] in Hl2. split_and!; [done|lia|congruence].
Qed.

(** The end of an object, from behind its last member. *)
Definition object_close (fmt : bool) (d : Z) : text :=
  (if fmt then 10 :: tabs d else []) ++ [125].

Lemma object_close_skip fmt d rest :
  skip_loop (object_close fmt d ++ rest) = [125] ++ rest.
Proof using Type.
  unfold object_close. rewrite <- (assoc_L app). apply skip_blanks_loop; [|done].
  destruct fmt; [|constructor]. constructor; [lia|apply tabs_blanks].
Qed.

Lemma object_tails_head fmt d parts rest :
  ends_number (tails (object_sep fmt) parts ++ object_close fmt d ++ rest) /\
  skip_loop (tails (object_sep fmt) parts ++ object_close fmt d ++ rest) =
    match parts with
    | [] => [125] ++ rest
    | _ => tails (object_sep fmt) parts ++ object_close fmt d ++ rest
    end.
Proof using Type.
  destruct parts as [|p parts]; cbn [tails app].
  - split; [by destruct fmt|apply object_close_skip].
  - split; [by destruct fmt|]. apply skip_none. by destruct fmt.
Qed.

(** The separator is a comma and white space. *)
Definition object_gap (fmt : bool) : text := if fmt then [10] else [].

Lemma object_loop_spec fmt d d' cs rest n fuel before c w :
  Forall canonical cs -> Forall (parses_back fmt d) cs ->
  Forall (fun c => exists k, string c = Some k /\ c_string k) cs ->
  let parts := map (member_text fmt d) cs in
  (length cs < fuel)%nat -> (length (tails (object_sep fmt) parts) < n)%nat ->
  length_z (tails (object_sep fmt) parts) <= INT_MAX ->
  wp no_fault (object_loop malloc_ok (parse_value malloc_ok pow n) fuel before c
      (skip_loop (tails (object_sep fmt) parts ++ object_close fmt d' ++ rest))) w
    (fun r w' => r = (before ++ c :: cs, Some ([125] ++ rest)) /\
      live w' = live w + all_blocks cs /\ ep w' = ep w).
Proof using Hok Hpow.
  intros Hcan Hback Hnames. revert fuel before c w.
  induction cs as [|c1 cs IH]; intros fuel before c w parts Hf Hn Hl;
    (destruct fuel as [|fuel]; [simpl in Hf; lia|]).
  { cbn [map tails app] in *. subst parts. cbn [tails app]. rewrite object_close_skip.
    apply wp_ret. cbn. split_and!; [done|lia|done]. }
  apply Forall_cons in Hcan as [Hc1 Hcan]. apply Forall_cons in Hback as [Hb1 Hback].
  apply Forall_cons in Hnames as [(k & Hk & Hks) Hnames]. subst parts. cbn [map tails] in *.
  set (parts := map _ cs) in *. unfold length_z in *. rewrite !length_app in Hn, Hl.
  assert (object_sep fmt = 44 :: object_gap fmt) as Esep by by destruct fmt.
  destruct (object_tails_head fmt d' parts rest) as [He _].
  rewrite <- !(assoc_L app). rewrite Esep at 1. rewrite skip_none by done.
  cbn [app object_loop deref hd Z.eqb Pos.eqb tl].
  wp_pure. apply new_item_succeeds. wp_pure.
  eapply wp_mono.
  { apply (parse_member_back fmt d c1 k); [done|done|done|done| |done|lia|unfold length_z; lia].
    destruct fmt; by repeat constructor. }
  intros r w1 (-> & Hl1 & He1). cbn [ep live] in *.
  eapply wp_mono; [apply IH; [done|done|done|simpl in Hf; lia|fold parts; lia|fold parts; unfold length_z; lia]|].
  intros r w2 (-> & Hl2 & He2). split_and!; [by rewrite <- (assoc_L app)| |congruence].
  change (all_blocks (c1 :: cs)) with (blocks c1 + all_blocks cs). lia.
Qed.

Lemma skip_loop_idem p : skip_loop (skip_loop p) = skip_loop p.
Proof using Type.
  induction p as [|c p IH]; [done|]. cbn [skip_loop].
  destruct (negb (c =? 0) && (c <=? 32)) eqn:E; [done|]. cbn [skip_loop]. by rewrite E.
Qed.

Lemma parse_member_skip pv item value :
  parse_member malloc_ok pv item (skip_loop value) = parse_member malloc_ok pv item value.
Proof using Type. unfold parse_member. by rewrite skip_loop_idem. Qed.

Lemma tails_count sep parts : (0 < length sep)%nat -> (length parts <= length (tails sep parts))%nat.
Proof using Type.
  intros Hs. induction parts as [|p parts IH]; [simpl; lia|]. cbn [tails length].
  rewrite !length_app. lia.
Qed.

Lemma render_object_cons fmt d c cs :
  render_object fmt d
    (map (fun c => (render_string (string c), render fmt c (d + 1))) (c :: cs)) =
  (123 :: object_gap fmt) ++ member_text fmt (d + 1) c ++
  tails (object_sep fmt) (map (member_text fmt (d + 1)) cs) ++ object_close fmt d.
Proof using Type.
  unfold render_object. cbn [map].
  change (map (member_line fmt (d + 1))
    (map (fun c => (render_string (string c), render fmt c (d + 1))) cs))
    with (map (member_line fmt (d + 1))
      (map (fun c => (render_string (string c), render fmt c (d + 1))) cs)).
  rewrite map_map. change (map (fun x => member_line fmt (d + 1) _) cs)
    with (map (member_text fmt (d + 1)) cs).
  change (member_line fmt (d + 1) _) with (member_text fmt (d + 1) c).
  unfold object_sep, object_gap, object_close.
  destruct fmt; rewrite join_tails; rewrite <- ?(assoc_L app); done.
Qed.

Lemma parse_object_back fmt d cs rest n ty s w :
  Forall canonical cs -> Forall (parses_back fmt (d + 1)) cs ->
  Forall (fun c => exists k, string c = Some k /\ c_string k) cs ->
  let value := render_object fmt d
    (map (fun c => (render_string (string c), render fmt c (d + 1))) cs) in
  (length value <= n)%nat -> length_z value <= INT_MAX ->
  wp no_fault (parse_object malloc_ok (parse_value malloc_ok pow n) (Item ty None 0 zero s [])
      (value ++ rest)) w
    (fun r w' => r = (Item cJSON_Object None 0 zero s cs, Some rest) /\
      live w' = live w + all_blocks cs /\ ep w' = ep w).
Proof using Hok Hpow.
  intros Hcan Hback Hnames value Hn Hl. subst value. destruct cs as [|c cs].
  { assert (exists ws, render_object fmt d [] = 123 :: ws ++ [125] /\ blanks ws) as (ws & E & Hws).
    { destruct fmt; [exists (10 :: tabs (d - 1))|exists []]; (split; [done|]).
      - constructor; [lia|apply tabs_blanks].
      - constructor. }
    cbn [map]. rewrite E. cbn [app]. unfold parse_object.
    cbn [deref hd Z.eqb Pos.eqb negb tl]. rewrite <- (assoc_L app).
    rewrite skip_blanks_loop by done. apply wp_ret. cbn. split_and!; [done|lia|done]. }
  rewrite render_object_cons in *. set (parts := map _ cs) in *.
  apply Forall_cons in Hcan as [Hc Hcan]. apply Forall_cons in Hback as [Hb Hback].
  apply Forall_cons in Hnames as [(k & Hk & Hks) Hnames]. unfold length_z in *.
  rewrite !length_app in Hn, Hl. cbn [length] in *.
  destruct (object_tails_head fmt d parts rest) as [He Hsk].
  rewrite <- !(assoc_L app). unfold parse_object. cbn [app deref hd Z.eqb Pos.eqb negb tl].
  assert (blanks (object_gap fmt)) as Hgap by (destruct fmt; by repeat constructor).
  assert (forall x, deref (skip_loop (object_gap fmt ++ member_text fmt (d + 1) c ++ x)) = 34) as H34.
  { intros x. unfold member_text. rewrite member_line_eq, Hk. cbn [fst snd render_string quote].
    rewrite <- !(assoc_L app), (assoc_L app (object_gap fmt)).
    rewrite skip_blanks_loop; [done| |done].
    apply Forall_app. by split; [|apply lead_blanks]. }
  rewrite H34. cbn [Z.eqb Pos.eqb]. wp_pure. apply new_item_succeeds. wp_pure.
  rewrite parse_member_skip. eapply wp_mono.
  { apply (parse_member_back fmt (d + 1) c k); try done; [lia|unfold length_z; lia]. }
  intros r w1 (-> & Hl1 & He1). cbn [ep live] in *. wp_pure. eapply wp_mono.
  { apply (object_loop_spec fmt (d + 1) d cs rest n); [done|done|done| | |unfold length_z]; fold parts.
    - rewrite Hsk. subst parts. destruct cs as [|c2 cs]; [simpl; lia|].
      pose proof (tails_count (object_sep fmt) (map (member_text fmt (d + 1)) (c2 :: cs))) as Ht.
      rewrite length_map in Ht. cbn [map]. cbn [map] in Ht. rewrite length_app.
      assert (0 < length (object_sep fmt))%nat by (destruct fmt; simpl; lia). lia.
    - lia.
    - lia. }
  intros r w2 (-> & Hl2 & He2). cbn [app deref hd Z.eqb Pos.eqb tl]. apply wp_ret.
  change (all_blocks (c :: cs)) with (blocks c + all_blocks cs). split_and!; [done|lia|congruence].
Qed.

(** ** The whole tree *)

Lemma parse_back fmt c d : canonical c -> parses_back fmt d c.
Proof using Hok Hpow.
  revert d. induction c as [ty0 vs vi vd s cs IH] using cJSON_tree_ind.
  intros d Hc fuel ty rest w Hf He Hl. unfold length_z in Hl. rewrite blocks_eq.
  destruct fuel as [|fuel]; [lia|].
  inversion Hc; subst; cbn [valuestring string child one type]; try change (all_blocks []) with 0.
  - change (render fmt _ d) with [110; 117; 108; 108]. cbn [app parse_value]. unfold starts_with.
    rewrite bool_decide_eq_true_2 by by exists rest. apply wp_ret.
    split_and!; [done|lia|done].
  - change (render fmt _ d) with [102; 97; 108; 115; 101]. cbn [app parse_value].
    rewrite starts_with_head by done. unfold starts_with.
    rewrite bool_decide_eq_true_2 by by exists rest. apply wp_ret. split_and!; [done|lia|done].
  - change (render fmt _ d) with [116; 114; 117; 101]. cbn [app parse_value].
    rewrite !starts_with_head by done. unfold starts_with.
    rewrite bool_decide_eq_true_2 by by exists rest. apply wp_ret. split_and!; [done|lia|done].
  - change (render fmt _ d) with (number_text (Item cJSON_Number None vi (of_int vi) s [])).2.
    rewrite number_text_int by done. destruct (format_d_head vi) as (h & l & E & Hh).
    pose proof (parse_format_d (Item ty None 0 zero s []) vi rest ltac:(done) He) as Hp.
    rewrite E in *. cbn [app] in *.
    assert (h <> 34 /\ h <> 110 /\ h <> 102 /\ h <> 116) as (H34 & H1 & H2 & H3).
    { unfold is_digit in Hh. destruct (Z.eqb_spec h 45); [lia|]. cbn [orb] in Hh.
      apply andb_true_iff in Hh as [Ha%Z.leb_le Hb%Z.leb_le]. lia. }
    rewrite parse_value_punct by done. rewrite (proj2 (Z.eqb_neq h 34) H34), Hh, Hp.
    apply wp_ret. split_and!; [done|lia|done].
  - change (render fmt _ d) with (quote s0) in *. unfold quote in *. cbn [app].
    rewrite parse_value_punct by done. cbn [Z.eqb Pos.eqb].
    eapply wp_mono; [apply (parse_quote _ s0); [done|exact Hl]|].
    intros r w1 (-> & Hl1 & He1). split_and!; [done|lia|done].
  - change (render fmt _ d) with (render_array fmt (map (fun c => render fmt c (d + 1)) cs)) in *.
    assert (exists l, render_array fmt (map (fun c => render fmt c (d + 1)) cs) = 91 :: l) as [l E]
      by (destruct cs; by eexists).
    pose proof (parse_array_back fmt (d + 1) cs rest fuel ty s w) as Hp. rewrite E in *. cbn [app] in *.
    rewrite parse_value_punct by done. cbn [Z.eqb Pos.eqb orb is_digit Z.leb Z.compare Pos.compare
      Pos.compare_cont andb].
    eapply wp_mono; [apply Hp; [done| |done|lia|exact Hl]|].
    { rewrite Forall_forall in *. intros c Hin. apply IH; auto. }
    intros r w1 (-> & Hl1 & He1). split_and!; [done|lia|done].
  - change (render fmt _ d) with (render_object fmt d
      (map (fun c => (render_string (string c), render fmt c (d + 1))) cs)) in *.
    assert (exists l, render_object fmt d
      (map (fun c => (render_string (string c), render fmt c (d + 1))) cs) = 123 :: l) as [l E].
    { destruct cs; [destruct fmt; by eexists|]. rewrite render_object_cons. by eexists. }
    pose proof (parse_object_back fmt d cs rest fuel ty s w) as Hp. rewrite E in *. cbn [app] in *.
    rewrite parse_value_punct by done. cbn [Z.eqb Pos.eqb orb is_digit Z.leb Z.compare Pos.compare
      Pos.compare_cont andb].
    eapply wp_mono; [apply Hp; [done| |done|lia|exact Hl]|].
    { rewrite Forall_forall in *. intros c Hin. apply IH; auto. }
    intros r w1 (-> & Hl1 & He1). split_and!; [done|lia|done].
Qed.

Lemma parse_text_back fmt c d w re rn :
  canonical c -> string c = None -> length_z (render fmt c d) <= INT_MAX ->
  wp no_fault (cJSON_ParseWithOpts malloc_ok pow (Some (render fmt c d)) re rn) w
    (fun r w' => r = (Some c, if re then Some [] else None) /\
      live w' = live w + blocks c /\ ep w' = None).
Proof using Hok Hpow.
  intros Hc Hs Hl. unfold cJSON_ParseWithOpts. wp_pure. apply new_item_succeeds.
  do 2 wp_pure. cbn [skip fmap option_fmap option_map].
  destruct (render_head fmt c d Hc) as (h & l & Eh & Hh & _).
  rewrite skip_none by by rewrite Eh.
  pose proof (parse_back fmt c d Hc (parse_fuel (Some (render fmt c d))) 0 []) as Hp.
  rewrite Hs, app_nil_r in Hp. wp_pure. eapply wp_mono; [apply Hp; [|done|done]|].
  { unfold parse_fuel. simpl. lia. }
  intros r w1 (-> & Hl1 & He1). cbn [live ep one] in *.
  destruct rn; cbn [skip_loop andb negb deref hd Z.eqb]; apply wp_ret; (split_and!; [done|lia|done]).
Qed.
End RoundTrip.

(** ** Theorems *)

(** C18. The parser ends on every text, whichever calls of the allocator fail, and is never left
    with blocks nobody owns: when it returns a tree exactly the blocks [cJSON_Delete] would
    release are new, when it returns a null pointer everything it allocated was released. (The
    faults it can end in instead are the ones of [parse_string].) *)
Theorem parse_owns_its_tree malloc_ok pow value re rn w :
  match cJSON_ParseWithOpts malloc_ok pow (Some value) re rn w with
  | inl ((Some c, _), w') => live w' = live w + blocks c
  | inl ((None, _), w') => live w' = live w
  | inr f => f <> OutOfFuel
  end.
Proof.
  pose proof (parse_with_opts_spec malloc_ok pow (fun f => f <> OutOfFuel) (fun _ => True)
    ltac:(done) ltac:(intros; by apply any_parse_string) value re rn w I) as H.
  unfold wp in H. destruct (cJSON_ParseWithOpts _ _ _ _ _ w) as [[[[c|] e] w']|f]; [apply H|done|done].
Qed.

(** C19. On a text without a backslash the parser stays inside the text and its buffers,
    however malformed the text is. *)
Theorem parse_plain_in_bounds malloc_ok pow value re rn w :
  plain value ->
  exists r w', cJSON_ParseWithOpts malloc_ok pow (Some value) re rn w = inl (r, w').
Proof.
  intros Hp. pose proof (parse_with_opts_spec malloc_ok pow no_fault plain
    ltac:(intros; by eapply plain_suffix) ltac:(intros; by apply plain_parse_string)
    value re rn w Hp) as H.
  unfold wp in H. destruct (cJSON_ParseWithOpts _ _ _ _ _ w) as [[r w']|f]; [|done]. by exists r, w'.
Qed.

(** C4. An item is given back by printing it and parsing the text, formatted or not, and nothing
    but the text and the two trees stays allocated. This is about items whose numbers are all
    whole numbers that fit an [int] and whose strings hold any bytes but NUL ([canonical]), whose
    text is shorter than a gigabyte ([room]), and about a [malloc] that does not fail; [pow] need
    only be right about [pow(10, 0)]. *)
Theorem print_parse_roundtrip malloc_ok pow fmt item w :
  (forall n size, malloc_ok n size = true) -> pow (of_int 10) zero = of_int 1 ->
  canonical item -> string item = None -> printable item -> room (render fmt item 0) ->
  exists s w1 w2,
    print_value malloc_ok (Some item) 0 fmt w = inl (Some s, w1) /\
    cJSON_ParseWithOpts malloc_ok pow (Some s) false true w1 = inl ((Some item, None), w2) /\
    live w2 = live w + 1 + blocks item.
Proof.
  intros Hok Hpow Hc Hs Hp Hr.
  pose proof (print_item_spec malloc_ok fmt item 0 w Hp ltac:(lia) Hr) as H1. unfold wp in H1.
  cbn [print_value]. destruct (print_item malloc_ok fmt item 0 w) as [[[s|] w1]|f]; [| |done].
  2: { destruct H1 as (_ & (n & size & Hn) & _). by rewrite Hok in Hn. }
  destruct H1 as (_ & -> & Hl1).
  pose proof (parse_text_back malloc_ok Hok pow Hpow fmt item 0 w1 false true Hc Hs) as H2.
  unfold wp in H2. unfold room, length_z in *.
  destruct (cJSON_ParseWithOpts _ _ _ _ _ w1) as [[r w2]|f] eqn:E; [|destruct H2; lia].
  destruct H2 as (-> & Hl2 & _); [lia|]. eexists _, w1, w2. split; [done|]. split; [exact E|lia].
Qed.

(** ** Truncated escapes *)

(** Bytes the scans take one at a time. *)
Definition ordinary (a : text) : Prop := Forall (fun c => c <> 34 /\ c <> 92 /\ c <> 0) a.

Lemma scan_prefix a r len w :
  ordinary a -> len + length_z a <= INT_MAX ->
  scan_string len (a ++ r) w = scan_string (len + length_z a) r w.
Proof.
  unfold length_z. intros Ha. revert len. induction Ha as [|c a (H34 & H92 & _) _ IH]; intros len Hl.
  - cbn [app length]. by rewrite Z.add_0_r.
  - cbn [app length scan_string] in *. rewrite (proj2 (Z.eqb_neq c 34) H34), (proj2 (Z.eqb_neq c 92) H92).
    unfold mbind, M_bind, int_add. rewrite (proj2 (Z.leb_le _ _)) by lia. cbn [mret M_ret].
    unfold mret, M_ret. rewrite IH by lia. f_equal. lia.
Qed.

Lemma copy_prefix a r fuel cap out w :
  ordinary a -> length_z out + length_z a <= cap ->
  copy_string (length a + fuel) cap out (a ++ r) w = copy_string fuel cap (out ++ a) r w.
Proof.
  unfold length_z. intros Ha. revert out. induction Ha as [|c a (H34 & H92 & H0) _ IH]; intros out Hl.
  - cbn [app length]. by rewrite app_nil_r.
  - cbn [app length] in *. change (S (length a) + fuel)%nat with (S (length a + fuel)).
    cbn [copy_string deref hd next].
    rewrite (proj2 (Z.eqb_neq c 34) H34), (proj2 (Z.eqb_neq c 92) H92), (proj2 (Z.eqb_neq c 0) H0).
    cbn [orb negb]. unfold put, mbind, M_bind, mret, M_ret. rewrite (proj2 (Z.ltb_lt _ _)) by lia.
    rewrite IH by (rewrite length_app; cbn [length]; lia). by rewrite <- (assoc_L app).
Qed.

Lemma copy_overflow a r fuel cap out w :
  ordinary a -> length_z out <= cap < length_z out + length_z a ->
  copy_string (length a + fuel) cap out (a ++ r) w = inr OverWrite.
Proof.
  unfold length_z. intros Ha. revert out. induction Ha as [|c a (H34 & H92 & H0) _ IH]; intros out Hl.
  - cbn [length] in Hl. lia.
  - cbn [app length] in *. change (S (length a) + fuel)%nat with (S (length a + fuel)).
    cbn [copy_string deref hd next].
    rewrite (proj2 (Z.eqb_neq c 34) H34), (proj2 (Z.eqb_neq c 92) H92), (proj2 (Z.eqb_neq c 0) H0).
    cbn [orb negb]. unfold put, mbind, M_bind, mret, M_ret.
    destruct (Z.ltb_spec (Z.of_nat (length out)) cap); [|done].
    apply IH. rewrite length_app. cbn [length]. lia.
Qed.

Lemma advance_drop n p w :
  advance n p w = if decide (n <= length p)%nat then inl (drop n p, w) else inr OverRead.
Proof.
  revert p. induction n as [|n IH]; intros p; cbn [advance].
  - rewrite decide_True by lia. by rewrite drop_0.
  - destruct p as [|c p]; cbn [next]; unfold mbind, M_bind; [by rewrite decide_False by (cbn; lia)|].
    unfold mret, M_ret. rewrite IH. cbn [length drop]. by repeat case_decide; try lia.
Qed.

(** Fewer than four digits before the quote or the end are no digits. *)
Lemma parse_hex4_short x r :
  (length x <= 3)%nat -> r = [] \/ deref r = 34 -> parse_hex4 (x ++ r) = 0.
Proof.
  intros Hx Hr. assert (hex_digit (deref r) = None) as Hn by by destruct Hr as [->| ->].
  unfold parse_hex4.
  destruct x as [|c1 [|c2 [|c3 [|c4 x]]]]; try (cbn in Hx; lia); cbn [app tl]; rewrite ?Hn;
    repeat (case_match; try done); congruence.
Qed.

(** What the second scan does at a truncated escape: it moves on by the length of a whole one. *)
Lemma copy_truncated fuel cap out x r w :
  (length x <= 3)%nat -> r = [] \/ deref r = 34 ->
  copy_string (S fuel) cap out (92 :: 117 :: x ++ r) w =
    if decide (3 < length (x ++ r))%nat then copy_string fuel cap out (drop 4 (x ++ r)) w
    else inr OverRead.
Proof.
  intros Hx Hr. pose proof (parse_hex4_short x r Hx Hr) as Hh. set (p := x ++ r) in *.
  cbn [copy_string deref hd next]. cbn [Z.eqb Pos.eqb orb negb].
  unfold mbind at 1, M_bind at 1, mret at 1, M_ret at 1.
  assert (unescape cap out (117 :: p) w =
    if decide (3 < length p)%nat then inl ((out, drop 3 p), w)
    else if decide (3 = length p)%nat then inl ((out, []), w) else inr OverRead) as E.
  { unfold unescape. cbn [deref hd]. cbn [Z.eqb Pos.eqb]. unfold transcode. cbn [tl]. rewrite Hh.
    change ((0xDC00 <=? 0) && (0 <=? 0xDFFF) || (0 =? 0)) with true.
    unfold mbind, M_bind, mret, M_ret. rewrite advance_drop. cbn [length drop].
    repeat case_decide; try lia; try done. by rewrite (drop_ge p) by lia. }
  unfold mbind at 1, M_bind at 1. rewrite E. destruct (decide (3 < length p)%nat); [|by case_decide].
  destruct (drop 3 p) as [|c q] eqn:Ed; apply (f_equal length) in Ed as El; rewrite length_drop in El;
    cbn [length] in El; [lia|].
  cbn [next]. unfold mbind, M_bind, mret, M_ret.
  change 4%nat with (3 + 1)%nat. by rewrite <- drop_drop, Ed.
Qed.

Lemma copy_end fuel cap out r w :
  r = [] \/ deref r = 34 -> copy_string (S fuel) cap out r w = inl ((out, r), w).
Proof. cbn [copy_string]. by intros [->| ->]. Qed.

(** The size of the buffer is what the first scan counted. *)
Lemma scan_truncated s x r w :
  ordinary s -> ordinary x -> r = [] \/ deref r = 34 -> length_z s + length_z x < INT_MAX ->
  scan_string 0 (s ++ 92 :: 117 :: x ++ r) w = inl (length_z s + length_z x + 1, w).
Proof.
  intros Hs Hx Hr Hl. assert (0 <= length_z x) by (unfold length_z; lia).
  rewrite scan_prefix by (done || lia). cbn [scan_string Z.eqb Pos.eqb].
  unfold mbind, M_bind, int_add. rewrite (proj2 (Z.leb_le _ _)) by lia. unfold mret, M_ret.
  rewrite scan_prefix by (done || lia).
  replace (0 + length_z s + 1 + length_z x) with (length_z s + length_z x + 1) by lia.
  destruct Hr as [->|Hr]; [done|]. destruct r as [|c r]; [done|]. cbn in Hr. by subst c.
Qed.

(** A string with such an escape is put together by the second scan alone. *)
Lemma parse_truncated malloc_ok item s x r w :
  ordinary s -> ordinary x -> (length x <= 3)%nat -> r = [] \/ deref r = 34 ->
  length_z s + 5 <= INT_MAX -> malloc_ok (calls w) (length_z s + length_z x + 2) = true ->
  exists w' k, live w' = live w + 1 /\ (length (x ++ r) < k)%nat /\
  parse_string malloc_ok item (34 :: s ++ 92 :: 117 :: x ++ r) w =
    match (if decide (3 < length (x ++ r))%nat
           then copy_string k (length_z s + length_z x + 2) s (drop 4 (x ++ r)) w' else inr OverRead) with
    | inl ((out, ptr), w') =>
        if length_z out <? length_z s + length_z x + 2
        then inl ((set_type cJSON_String (set_valuestring (Some out) item),
                   Some (if deref ptr =? 34 then tl ptr else ptr)), w')
        else inr OverWrite
    | inr f => inr f
    end.
Proof.
  intros Hs Hx Hl3 Hr Hl Hok. assert (length_z x <= 3) by (unfold length_z; lia).
  exists (World (S (calls w)) (live w + 1) (ep w)), (S (S (S (length (x ++ r))))).

  split; [done|]. split; [lia|].
  unfold parse_string. cbn [deref hd tl]. cbn [Z.eqb Pos.eqb negb].
  unfold mbind at 1, M_bind at 1. rewrite scan_truncated by (done || lia).
  unfold mbind, M_bind, int_add. rewrite (proj2 (Z.leb_le _ _)) by lia. unfold mret, M_ret.
  replace (length_z s + length_z x + 1 + 1) with (length_z s + length_z x + 2) by lia.
  unfold malloc. rewrite Hok. cbn [negb].
  replace (S (length (34 :: s ++ 92 :: 117 :: x ++ r)))
    with (length s + S (S (S (S (length (x ++ r))))))%nat
    by (cbn [length]; rewrite (length_app s); cbn [length]; lia).
  rewrite copy_prefix by (done || (unfold length_z; cbn [length]; lia)). cbn [app].
  rewrite copy_truncated by done.
  case_decide; [|done].
  destruct (copy_string _ _ _ _ _) as [[[out ptr] w2]|f]; [|done].
  unfold put_nul. by destruct (_ <? _).
Qed.

(** C30. [parse_string] skips four characters behind [\u] without looking at them, and its first
    scan, which counts what the buffer needs, does not. Let a string begin with ordinary
    characters [s] and an escape [\u] with fewer than four characters [x] behind it. If a quote
    comes next, it is skipped with [t], and the string goes on with [y] up to the next quote or
    the end: [y] is stored behind [s] in a buffer meant for [s] and [x], past its end just when it
    has at least two characters more than [x]. If the text ends there, or with a backslash, the
    scan reads past the terminating NUL. *)
Theorem parse_string_out_of_bounds malloc_ok item s x w :
  ordinary s -> ordinary x -> (length x <= 3)%nat -> length_z s + 5 <= INT_MAX ->
  malloc_ok (calls w) (length_z s + length_z x + 2) = true ->
  (forall t y rest, (length x + length t = 3)%nat -> ordinary y -> rest = [] \/ deref rest = 34 ->
    match parse_string malloc_ok item (34 :: s ++ 92 :: 117 :: x ++ 34 :: t ++ y ++ rest) w with
    | inl ((item', ptr), w') =>
        (length y <= length x + 1)%nat /\ live w' = live w + 1 /\
        item' = set_type cJSON_String (set_valuestring (Some (s ++ y)) item) /\
        ptr = Some (if deref rest =? 34 then tl rest else rest)
    | inr f => (length x + 2 <= length y)%nat /\ f = OverWrite
    end) /\
  parse_string malloc_ok item (34 :: s ++ 92 :: 117 :: x) w = inr OverRead /\
  parse_string malloc_ok item (34 :: s ++ [92]) w = inr OverRead.
Proof.
  intros Hs Hx Hl3 Hl Hok. split_and!.
  - intros t y rest Ht Hy Hr.
    destruct (parse_truncated malloc_ok item s x (34 :: t ++ y ++ rest) w Hs Hx Hl3 (or_intror eq_refl) Hl Hok)
      as (w1 & k & Hw1 & Hk & ->).
    assert (drop 4 (x ++ 34 :: t ++ y ++ rest) = y ++ rest) as ->.
    { replace 4%nat with (length (x ++ 34 :: t)) by (rewrite length_app; cbn [length]; lia).
      change (34 :: t ++ y ++ rest) with ((34 :: t) ++ (y ++ rest)). by rewrite (assoc_L app), drop_app_length. }
    assert (length (x ++ 34 :: t ++ y ++ rest) = (length x + 1 + length t + length (y ++ rest))%nat) as El
      by (rewrite length_app; cbn [length]; rewrite length_app; lia).
    rewrite decide_True by lia.
    rewrite El, length_app in Hk. replace k with (length y + S (k - length y - 1))%nat by lia.
    destruct (decide (length y <= length x + 2)%nat) as [Hfit|Hover].
    + rewrite copy_prefix by (done || (unfold length_z; lia)). rewrite copy_end by done.
      unfold length_z. rewrite length_app. destruct (Z.ltb_spec (Z.of_nat (length s + length y))
        (Z.of_nat (length s) + Z.of_nat (length x) + 2)); [|split; [lia|done]].
      split_and!; [lia|done|done|done].
    + rewrite copy_overflow by (done || (unfold length_z; lia)). split; [lia|done].
  - destruct (parse_truncated malloc_ok item s x [] w Hs Hx Hl3 (or_introl eq_refl) Hl Hok)
      as (w1 & k & _ & _ & E). rewrite app_nil_r in E. rewrite E.
    by rewrite decide_False by (cbn [length]; lia).
  - unfold parse_string. cbn [deref hd tl]. cbn [Z.eqb Pos.eqb negb].
    unfold mbind at 1, M_bind at 1. rewrite scan_prefix by (done || lia). cbn [scan_string Z.eqb Pos.eqb].
    unfold mbind, M_bind, int_add. by rewrite (proj2 (Z.leb_le _ _)) by lia.
Qed.

(** ** Witnesses *)

(** Of two ordinary bytes and an escape with one: a quote, two bytes, three more and a quote; the
    end; and a backslash at the end. *)
Lemma parse_string_out_of_bounds_witness :
  let w := World 0 0 None in
  parse_string (fun _ _ => true) blank [34; 97; 98; 92; 117; 65; 34; 49; 50; 120; 121; 122; 34] w = inr OverWrite /\
  parse_string (fun _ _ => true) blank [34; 97; 98; 92; 117; 65] w = inr OverRead /\
  parse_string (fun _ _ => true) blank [34; 97; 98; 92] w = inr OverRead.
Proof.
  assert (ordinary [97; 98]) as Hs by (repeat constructor; lia).
  assert (ordinary [65]) as Hx by (repeat constructor; lia).
  assert (ordinary [120; 121; 122]) as Hy by (repeat constructor; lia).
  destruct (parse_string_out_of_bounds (fun _ _ => true) blank [97; 98] [65] (World 0 0 None) Hs Hx)
    as (H1 & H2 & H3); [cbn; lia|unfold length_z, INT_MAX; cbn; lia|done|].
  split_and!; [|exact H2|exact H3].
  specialize (H1 [49; 50] [120; 121; 122] [34] eq_refl Hy (or_intror eq_refl)).
  cbn [app] in H1. destruct (parse_string _ _ _ _) as [[[? ?] ?]|f]; [cbn in H1; lia|].
  by destruct H1 as [_ ->].
Defined.

Definition no_pow (x y : double) : double := of_int 1.

(** [{ "a" : [1, -7, "x\u001f"] }] *)
Definition small_tree : cJSON :=
  Item cJSON_Object None 0 zero None [
    Item cJSON_Array None 0 zero (Some [97]) [
      Item cJSON_Number None 1 (of_int 1) None [];
      Item cJSON_Number None (-7) (of_int (-7)) None [];
      Item cJSON_String (Some [120; 31]) 0 zero None []]].

Lemma small_tree_canonical : canonical small_tree.
Proof.
  constructor.
  - constructor; [|constructor]. constructor.
    + constructor; [by constructor|]. constructor; [by constructor|].
      constructor; [|constructor]. constructor. repeat constructor; lia.
    + by repeat constructor.
  - constructor; [|constructor]. exists [97]. split; [done|]. repeat constructor; lia.
Qed.

Lemma small_tree_printable : printable small_tree.
Proof.
  unfold small_tree. repeat match goal with
    | |- printable _ => constructor
    | |- Forall _ _ => constructor
    end; try done; unfold INT_MIN, INT_MAX; simpl; lia.
Qed.

Lemma parse_plain_in_bounds_witness :
  plain [123; 34; 97] /\
  exists r w', cJSON_ParseWithOpts (fun _ _ => true) no_pow (Some [123; 34; 97]) true true
    (World 0 0 None) = inl (r, w').
Proof.
  assert (plain [123; 34; 97]) as H by (split; [by repeat constructor|done]).
  split; [exact H|]. by apply parse_plain_in_bounds.
Defined.

Lemma print_parse_roundtrip_witness :
  exists s w1 w2,
    print_value (fun _ _ => true) (Some small_tree) 0 true (World 0 0 None) = inl (Some s, w1) /\
    cJSON_ParseWithOpts (fun _ _ => true) no_pow (Some s) false true w1
      = inl ((Some small_tree, None), w2) /\
    live w2 = live (World 0 0 None) + 1 + blocks small_tree.
Proof.
  apply print_parse_roundtrip; [done|done|apply small_tree_canonical|done
    |apply small_tree_printable|].
  vm_compute. discriminate.
Defined.
