(* ===== verification/CJsonMinify.v ===== *)
(** [cJSON_Minify] of src/demo_json/cJSON.c undoes the formatting of [cJSON_Print]. *)

From S2P Require Import Prelude Double CJson CJsonPrint CJsonParse.

(** [p] is rewritten to [q], wherever it stands outside a string. *)
Definition minifies (p q : text) : Prop :=
  forall fuel into rest w (Q : text -> world -> Prop),
    (length p + length rest < fuel)%nat ->
    (forall fuel, (length rest < fuel)%nat -> wp no_fault (minify_loop fuel (into ++ q) rest) w Q) ->
    wp no_fault (minify_loop fuel into (p ++ rest)) w Q.

Lemma minifies_nil : minifies [] [].
Proof. intros fuel into rest w Q Hf HQ. rewrite app_nil_r in HQ. by apply HQ. Qed.

Lemma minifies_app p q p' q' : minifies p q -> minifies p' q' -> minifies (p ++ p') (q ++ q').
Proof.
  intros H H' fuel into rest w Q Hf HQ. rewrite <- (assoc_L app). rewrite length_app in Hf.
  apply H; [rewrite length_app; lia|]. intros fuel' Hf'. rewrite length_app in Hf'.
  apply H'; [lia|]. intros fuel'' Hf''. rewrite <- (assoc_L app). by apply HQ.
Qed.

(** Characters that stand for themselves. *)
Definition kept (c : Z) : Prop := 32 < c /\ c <> 34 /\ c <> 47.

Lemma minifies_kept c : kept c -> minifies [c] [c].
Proof.
  intros (H32 & H34 & H47) fuel into rest w Q Hf HQ. destruct fuel as [|fuel]; [lia|].
  cbn [app minify_loop deref hd]. rewrite !(proj2 (Z.eqb_neq c _)) by lia. cbn [orb andb].
  unfold copy. cbn [deref hd]. repeat wp_pure. apply HQ. simpl in Hf. lia.
Qed.

Lemma minifies_blank c : c = 32 \/ c = 9 \/ c = 10 -> minifies [c] [].
Proof.
  intros Hc fuel into rest w Q Hf HQ. destruct fuel as [|fuel]; [lia|].
  rewrite app_nil_r in HQ. assert (fuel > length rest)%nat by (simpl in Hf; lia).
  destruct Hc as [->|[->| ->]]; cbn [app minify_loop deref hd Z.eqb Pos.eqb orb]; repeat wp_pure;
    by apply HQ.
Qed.

Lemma minifies_all_kept p : Forall kept p -> minifies p p.
Proof.
  induction 1 as [|c p Hc _ IH]; [apply minifies_nil|].
  change (c :: p) with ([c] ++ p). apply minifies_app; [by apply minifies_kept|done].
Qed.

Lemma minifies_tabs n : minifies (tabs n) [].
Proof.
  unfold tabs. induction (Z.to_nat n) as [|k IH]; [apply minifies_nil|].
  change (replicate (S k) 9) with ([9] ++ replicate k 9). change [] with ([] ++ [] : text).
  apply minifies_app; [apply minifies_blank; auto|done].
Qed.

(** ** Strings *)

Lemma copy_spec into c json w (Q : text * text -> world -> Prop) :
  Q (into ++ [c], json) w -> wp no_fault (copy into (c :: json)) w Q.
Proof. done. Qed.

Lemma minify_string_spec s fuel into rest w :
  c_string s -> (length (escape s) < fuel)%nat ->
  wp no_fault (minify_string fuel into (escape s ++ 34 :: rest)) w (fun r w' =>
    w' = w /\ r = (into ++ escape s, 34 :: rest)).
Proof.
  intros Hs. revert fuel into.
  induction Hs as [|c s Hc Hs IH]; intros fuel into Hf; (destruct fuel as [|fuel]; [lia|]).
  { apply wp_ret. by rewrite app_nil_r. }
  cbn [escape] in *. rewrite <- (assoc_L app). rewrite length_app in Hf.
  assert (forall fuel, (length (escape s) < fuel)%nat ->
    wp no_fault (minify_string fuel (into ++ escape_char c) (escape s ++ 34 :: rest)) w (fun r w' =>
      w' = w /\ r = (into ++ escape_char c ++ escape s, 34 :: rest))) as Hrest.
  { intros fuel' Hf'. eapply wp_mono; [by apply IH|]. intros r w' [-> ->].
    by rewrite <- (assoc_L app). }
  destruct (escape_char_cases c) as [(E & H34 & H92)|[(x & E & _)|[E H32]]]; [lia| | |];
    rewrite E in *; cbn [app minify_string deref hd length] in *.
  - rewrite !(proj2 (Z.eqb_neq c _)) by lia. cbn [negb andb].
    wp_pure. apply wp_ret. wp_pure. apply copy_spec. apply Hrest. lia.
  - cbn [Z.eqb Pos.eqb negb andb]. wp_pure. apply copy_spec. wp_pure. apply copy_spec.
    rewrite <- (assoc_L app). apply Hrest. lia.
  - cbn [Z.eqb Pos.eqb negb andb]. wp_pure. apply copy_spec. wp_pure. apply copy_spec.
    destruct (hex4_facts c) as (_ & Hd & _); [lia|].
    assert (forall d, d ∈ hex4 c -> d <> 0) as H0.
    { intros d Hd0. unfold hex4 in Hd0. rewrite !elem_of_cons, elem_of_nil in Hd0.
      pose proof (Z.mod_pos_bound (c / 4096) 16). pose proof (Z.mod_pos_bound (c / 256) 16).
      pose proof (Z.mod_pos_bound (c / 16) 16). pose proof (Z.mod_pos_bound c 16).
      destruct Hd0 as [->|[->|[->|[->|[]]]]]; case_match; lia. }
    rewrite <- (assoc_L app). cbn [app].
    assert (forall l into fuel, Forall (fun d => d <> 34 /\ d <> 92) l -> (forall d, d ∈ l -> d <> 0) ->
      (length l + length (escape s) < fuel)%nat ->
      into ++ l = (into ++ l) -> forall Q,
      (forall fuel, (length (escape s) < fuel)%nat ->
        wp no_fault (minify_string fuel (into ++ l) (escape s ++ 34 :: rest)) w Q) ->
      wp no_fault (minify_string fuel into (l ++ escape s ++ 34 :: rest)) w Q) as Hplain.
    { clear. induction l as [|d l IH]; intros into fuel Hl H0 Hf _ Q HQ.
      - rewrite app_nil_r in HQ. by apply HQ.
      - destruct fuel as [|fuel]; [simpl in Hf; lia|]. apply Forall_cons in Hl as [[H1 H2] Hl].
        assert (d <> 0) as Hd0 by (apply H0; left).
        cbn [app minify_string deref hd]. rewrite !(proj2 (Z.eqb_neq d _)) by done. cbn [negb andb].
        wp_pure. apply wp_ret. wp_pure. apply copy_spec.
        apply IH; [done| |simpl in Hf; lia|done|].
        + intros e He. apply H0. by right.
        + intros fuel' Hf'. rewrite <- (assoc_L app). by apply HQ. }
    apply Hplain; [done|done|lia|done|]. intros fuel' Hf'.
    rewrite <- (assoc_L app). by apply Hrest.
Qed.

Lemma minifies_quote s : c_string s -> minifies (quote s) (quote s).
Proof.
  intros Hs fuel into rest w Q Hf HQ. unfold quote in *. cbn [app length] in *.
  rewrite length_app in Hf. cbn [length] in Hf. destruct fuel as [|fuel]; [lia|].
  rewrite <- (assoc_L app). cbn [app minify_loop deref hd Z.eqb Pos.eqb orb andb].
  wp_pure. apply copy_spec. wp_pure. eapply wp_mono.
  { apply minify_string_spec; [done|]. rewrite length_app. simpl. lia. }
  intros r w' [-> ->]. wp_pure. apply copy_spec.
  rewrite <- !(assoc_L app). apply HQ. lia.
Qed.

(** ** Numbers *)

Lemma digits_kept l : Forall digit_code l -> Forall kept l.
Proof.
  intros Hl. eapply Forall_impl; [exact Hl|]. unfold digit_code, kept. intros c Hc. lia.
Qed.

Lemma dec_kept n : 0 <= n -> Forall kept (dec n).
Proof. intros. by apply digits_kept, dec_digits. Qed.

Lemma sign_kept s : Forall kept (sign_text s).
Proof. destruct s; repeat constructor; unfold kept; lia. Qed.

Lemma padded_kept k n : 0 <= n -> Forall kept (padded k n).
Proof.
  intros Hn. apply Forall_app. split; [|by apply dec_kept].
  apply Forall_replicate. unfold kept. lia.
Qed.

Lemma char_kept c l : kept c -> Forall kept l -> Forall kept (c :: l).
Proof. by constructor. Qed.

Lemma div_even_nonneg a b : 0 <= a -> 0 < b -> 0 <= div_even a b.
Proof. intros. by apply div_even_bound. Qed.

Lemma numerator_nonneg m e : 0 <= numerator m e.
Proof. unfold numerator. lia. Qed.

Lemma denominator_pos e : 0 < denominator e.
Proof. unfold denominator. lia. Qed.

Lemma special_kept d : Forall kept (format_special d).
Proof. destruct d as [| [] | |]; repeat constructor; unfold kept; lia. Qed.

Lemma six_digits_kept s n : 0 <= n ->
  Forall kept (sign_text s ++ dec (n / 10 ^ 6) ++ [46] ++ padded 6 (n mod 10 ^ 6)).
Proof.
  intros Hn. pose proof (Z.div_pos n (10 ^ 6) Hn ltac:(lia)).
  pose proof (Z.mod_pos_bound n (10 ^ 6) ltac:(lia)).
  rewrite !Forall_app. split_and!; [apply sign_kept|by apply dec_kept| |apply padded_kept; lia].
  repeat constructor; unfold kept; lia.
Qed.

Lemma format_f_kept d : Forall kept (format_f d).
Proof.
  destruct d as [s|s| |s m e]; try apply special_kept; cbn [format_f].
  - by apply six_digits_kept.
  - apply six_digits_kept, div_even_nonneg; [|apply denominator_pos].
    pose proof (numerator_nonneg m e). lia.
Qed.

Lemma format_0f_kept d : Forall kept (format_0f d).
Proof.
  destruct d as [s|s| |s m e]; try apply special_kept; cbn [format_0f]; apply Forall_app;
    (split; [apply sign_kept|]).
  - repeat constructor; unfold kept; lia.
  - apply dec_kept, div_even_nonneg; [apply numerator_nonneg|apply denominator_pos].
Qed.

Lemma format_e_kept d : Forall kept (format_e d).
Proof.
  assert (forall s n k, 0 <= n -> Forall kept (sign_text s ++ dec (n / 10 ^ 6) ++ [46] ++
    padded 6 (n mod 10 ^ 6) ++ [101] ++ [if k <? 0 then 45 else 43] ++ padded 2 (Z.abs k))) as H.
  { intros s n k Hn. pose proof (six_digits_kept s n Hn) as H6.
    rewrite !Forall_app in H6. destruct H6 as (? & ? & ? & ?). rewrite !Forall_app.
    split_and!; try done; [| |apply padded_kept; lia].
    - repeat constructor; unfold kept; lia.
    - constructor; [|constructor]. unfold kept. case_match; lia. }
  destruct d as [s|s| |s m e]; try apply special_kept; cbn [format_e].
  - by apply H.
  - case_match; apply H; [|lia]. apply div_even_nonneg.
    + pose proof (numerator_nonneg m e). lia.
    + pose proof (denominator_pos e). apply Z.mul_pos_pos; lia.
Qed.

Lemma number_kept item : Forall kept (number_text item).2.
Proof.
  unfold number_text. repeat case_match; cbn [snd].
  - unfold format_d. case_match; [|apply dec_kept; lia].
    apply char_kept; [unfold kept; lia|apply dec_kept; lia].
  - apply format_0f_kept.
  - apply format_e_kept.
  - apply format_f_kept.
Qed.

(** ** Trees *)

(** Every string of the tree is one. *)
Inductive has_strings : cJSON -> Prop :=
  has_strings_intro item :
    (forall s, valuestring item = Some s -> c_string s) ->
    (forall s, string item = Some s -> c_string s) ->
    Forall has_strings (child item) ->
    has_strings item.

Lemma minifies_string s : (forall x, s = Some x -> c_string x) -> minifies (render_string s) (render_string s).
Proof. destruct s as [s|]; intros H; [by apply minifies_quote, H|apply minifies_nil]. Qed.

Lemma minifies_kept_nil c p q : kept c -> minifies p q -> minifies (c :: p) (c :: q).
Proof.
  intros Hc Hp. change (c :: p) with ([c] ++ p). change (c :: q) with ([c] ++ q).
  apply minifies_app; [by apply minifies_kept|done].
Qed.

Lemma minifies_blank_nil c p q : c = 32 \/ c = 9 \/ c = 10 -> minifies p q -> minifies (c :: p) q.
Proof.
  intros Hc Hp. change (c :: p) with ([c] ++ p). change q with ([] ++ q).
  apply minifies_app; [by apply minifies_blank|done].
Qed.

Lemma minifies_join sep ps qs :
  minifies sep [44] -> Forall2 minifies ps qs -> minifies (join sep ps) (join [44] qs).
Proof.
  intros Hsep H. induction H as [|p q ps qs Hp H IH]; [apply minifies_nil|].
  rewrite !join_cons. destruct H as [|p2 q2 ps qs Hp2 H].
  - by apply minifies_app; [|apply minifies_nil].
  - by apply minifies_app; [|apply minifies_app].
Qed.

Ltac minify_chars :=
  repeat first
    [ apply minifies_nil
    | apply minifies_blank_nil; [by auto|]
    | apply minifies_kept_nil; [unfold kept; lia|]
    | match goal with
      | |- minifies (tabs _ ++ _) ?q => change q with ([] ++ q); apply minifies_app; [apply minifies_tabs|]
      end ].

Lemma minifies_members cs d d' :
  Forall (fun c => forall d d', has_strings c -> minifies (render true c d) (render false c d')) cs ->
  Forall has_strings cs ->
  Forall2 minifies
    (map (member_line true d)
      (map (fun c => (render_string (string c), render true c d)) cs))
    (map (member_line false d')
      (map (fun c => (render_string (string c), render false c d')) cs)).
Proof.
  intros IH Hcs. induction IH as [|c cs Hc IH IHcs]; [constructor|].
  apply Forall_cons in Hcs as [Hs Hcs]. inversion Hs as [? _ Hn _]; subst.
  cbn [map]. constructor; [|by apply IHcs]. cbn [member_line fst snd].
  minify_chars. apply minifies_app; [by apply minifies_string|]. cbn [app]. minify_chars.
  by apply Hc.
Qed.

Lemma minifies_render item d d' :
  has_strings item -> minifies (render true item d) (render false item d').
Proof.
  revert d d'. induction item as [ty vs vi vd s cs IH] using cJSON_tree_ind. intros d d' Hs.
  inversion Hs as [? Hv Hn Hcs]; subst. cbn [valuestring string child] in *.
  cbn [render type valuestring string child].
  case_match; [minify_chars|]. case_match; [minify_chars|]. case_match; [minify_chars|].
  case_match; [apply minifies_all_kept, number_kept|].
  case_match; [by apply minifies_string|]. case_match.
  - assert (Forall2 minifies (map (fun c => render true c (d + 1)) cs)
      (map (fun c => render false c (d' + 1)) cs)) as Hall.
    { clear Hs. induction IH as [|c cs Hc IH IHcs]; [constructor|].
      apply Forall_cons in Hcs as [? Hcs]. cbn [map]. constructor; [by apply Hc|by apply IHcs]. }
    destruct cs as [|c cs]; [minify_chars|].
    change (render_array true (map ?f (c :: cs))) with (91 :: join [44; 32] (map f (c :: cs)) ++ [93]).
    change (render_array false (map ?f (c :: cs))) with (91 :: join [44] (map f (c :: cs)) ++ [93]).
    minify_chars. apply minifies_app; [apply minifies_join; [minify_chars|done]|minify_chars].
  - pose proof (minifies_members cs (d + 1) (d' + 1) IH Hcs) as Hall.
    destruct cs as [|c cs]; [cbn [map render_object]; minify_chars|].
    unfold render_object. cbn [map]. cbn [map] in Hall. cbn [app]. minify_chars.
    apply minifies_app; [apply minifies_join; [minify_chars|exact Hall]|]. minify_chars.
Qed.

(** C20. Minifying what [cJSON_Print] stores gives exactly what [cJSON_PrintUnformatted] stores,
    without leaving the text: for every tree whose strings hold no NUL, numbers of any size and
    infinities included. *)
Theorem minify_print item w :
  has_strings item ->
  cJSON_Minify (render true item 0) w = inl (render false item 0, w).
Proof.
  intros Hs. assert (wp no_fault (cJSON_Minify (render true item 0)) w
    (fun r w' => r = render false item 0 /\ w' = w)) as H.
  { unfold cJSON_Minify. rewrite <- (app_nil_r (render true item 0)) at 2.
    apply (minifies_render item 0 0 Hs); [simpl; lia|]. intros fuel Hf.
    destruct fuel as [|fuel]; [lia|]. by apply wp_ret. }
  unfold wp in H. destruct (cJSON_Minify _ w) as [[r w']|f]; [|done]. by destruct H as [-> ->].
Qed.

Lemma minify_print_witness :
  cJSON_Minify (render true small_tree 0) (World 0 0 None)
    = inl (render false small_tree 0, World 0 0 None).
Proof.
  apply minify_print. unfold small_tree.
  repeat match goal with
    | |- has_strings _ => constructor
    | |- Forall has_strings _ => constructor
    end; simpl; intros ? [= <-]; repeat constructor; lia.
Defined.
