(* ===== verification/CJsonTyped.v ===== *)
(** The type of what the parser of cJSON.c builds: whatever the text and whichever allocations
    fail, an item it returns is [typed] all the way down - the fields a reader may use for its
    [type] are set and consistent, elements have no name and members have one, and every string
    ends where its terminator is. *)

From Stdlib Require Import SpecFloat.
From S2P Require Import Prelude Double CJson CJsonParse.

(** The fields of an item by its type. *)
Inductive typed : cJSON -> Prop :=
  | typed_null n : typed (Item cJSON_NULL None 0 zero n [])
  | typed_false n : typed (Item cJSON_False None 0 zero n [])
  | typed_true n : typed (Item cJSON_True None 1 zero n [])
  | typed_number d n : typed (Item cJSON_Number None (to_int d) d n [])
  | typed_string s n : c_string s -> typed (Item cJSON_String (Some s) 0 zero n [])
  | typed_array n cs :
      Forall typed cs -> Forall (fun c => string c = None) cs ->
      typed (Item cJSON_Array None 0 zero n cs)
  | typed_object n cs :
      Forall typed cs -> Forall (fun c => exists k, string c = Some k /\ c_string k) cs ->
      typed (Item cJSON_Object None 0 zero n cs).

(** ** Characters *)

Definition char (c : Z) : Prop := 0 < c < 256.

Lemma hex_digit_bounds c d : hex_digit c = Some d -> 0 <= d < 16.
Proof. unfold hex_digit. intros H. repeat case_match; simplify_eq; lia. Qed.

Lemma parse_hex4_nonneg str : 0 <= parse_hex4 str.
Proof.
  unfold parse_hex4.
  repeat match goal with |- context [hex_digit ?c] =>
    let E := fresh "E" in destruct (hex_digit c) eqn:E; [apply hex_digit_bounds in E|lia] end.
  rewrite !Z.shiftl_mul_pow2 by lia. lia.
Qed.

(** A byte with its highest bit set. *)
Lemma high_byte x : 0 <= x < 2 ^ 8 -> Z.testbit x 7 = true -> char x.
Proof. intros Hx Hb. destruct (Z.eq_dec x 0) as [->|]; [done|]. unfold char. lia. Qed.

Lemma continuation_char uc : char (Z.land (Z.lor uc 0x80) 0xBF).
Proof.
  apply high_byte; [by apply (land_bounds_r 8); [lia|]; lia|].
  by rewrite Z.land_spec, Z.lor_spec, orb_true_r.
Qed.

Lemma lead_char uc m : Z.testbit m 7 = true -> char (u8 (Z.lor uc m)).
Proof.
  intros Hm. apply high_byte; [by apply wrap_bounds|].
  by rewrite testbit_wrap, Z.lor_spec, Hm, orb_true_r by lia.
Qed.

Lemma utf8_tail_chars n : forall uc bytes,
  Forall char bytes -> Forall char (utf8_tail n uc bytes).2.
Proof.
  induction n as [|n IH]; intros uc bytes Hb; [done|]. cbn [utf8_tail]. apply IH.
  apply Forall_cons_2; [apply continuation_char|done].
Qed.

Lemma utf8_bytes_chars uc : 0 < uc -> c_string (utf8_bytes uc).
Proof.
  intros Huc. unfold utf8_bytes. destruct (Z.ltb_spec uc 0x80).
  { cbn. rewrite Z.lor_0_r. apply Forall_cons_2; [|constructor].
    rewrite wrap_small; lia. }
  assert (forall n, (1 <= n <= 3)%nat -> c_string
    (let '(uc, bytes) := utf8_tail (S n - 1) uc [] in
     u8 (Z.lor uc (default 0 (firstByteMark !! S n))) :: bytes)) as Hn.
  { intros n Hn. pose proof (utf8_tail_chars (S n - 1) uc [] ltac:(constructor)) as Ht.
    destruct (utf8_tail (S n - 1) uc []) as [uc' bytes]. apply Forall_cons_2; [|exact Ht].
    apply lead_char. by destruct n as [|[|[|[|n]]]]; try lia. }
  destruct (uc <? 0x800); [apply (Hn 1%nat); lia|].
  destruct (uc <? 0x10000); [apply (Hn 2%nat)|apply (Hn 3%nat)]; lia.
Qed.

(** ** Strings *)

Definition any (f : fault) : Prop := True.

Lemma any_run {A} (m : M A) w (Q : A -> world -> Prop) : (forall x w', Q x w') -> wp any m w Q.
Proof. unfold wp. intros HQ. by destruct (m w) as [[x w']|f]. Qed.

Lemma c_string_suffix p q : q `suffix_of` p -> c_string p -> c_string q.
Proof. intros [k ->] [_ Hq]%Forall_app. done. Qed.

Lemma c_string_snoc out c : c_string out -> char c -> c_string (out ++ [c]).
Proof. intros Ho Hc. apply Forall_app. split; [done|]. apply Forall_cons_2; [done|constructor]. Qed.

Lemma transcode_spec cap out ptr w :
  c_string out ->
  wp any (transcode cap out ptr) w (fun '(o, p) _ => c_string o /\ p `suffix_of` ptr).
Proof.
  intros Ho. unfold transcode. cbv zeta. pose proof (parse_hex4_nonneg (tl ptr)) as Hh.
  apply wp_bind, any_advance; [done|]. intros p Hp. case_match; [by apply wp_ret|].
  assert (parse_hex4 (tl ptr) <> 0) as Hne by (destruct (Z.eqb_spec (parse_hex4 (tl ptr)) 0); [|done];
    by rewrite orb_true_r in *).
  case_match.
  - case_match; [by apply wp_ret|]. apply wp_bind, any_advance; [done|]. intros q Hq.
    assert (q `suffix_of` ptr) by by etrans. case_match; [by apply wp_ret|].
    apply wp_bind, any_put_all; [done|]. apply wp_ret. split; [|done].
    apply Forall_app. split; [done|]. apply utf8_bytes_chars.
    assert (forall x y, 0 <= x -> 0 <= y -> 0 <= Z.lor (Z.shiftl x 10) y) as Hl.
    { intros x y Hx Hy. apply Z.lor_nonneg. split; [by apply Z.shiftl_nonneg|done]. }
    assert (0 < 0x10000) by done. apply Z.add_pos_nonneg; [done|].
    apply Hl; apply Z.land_nonneg; by right.
  - apply wp_bind, any_put_all; [done|]. apply wp_ret. split; [|done].
    apply Forall_app. split; [done|]. apply utf8_bytes_chars. lia.
Qed.

(** The character behind a backslash may be the terminator: then nothing follows. *)
Lemma unescape_spec cap out ptr w :
  c_string out -> c_string ptr ->
  wp any (unescape cap out ptr) w (fun '(o, p) _ => (p = [] \/ c_string o) /\ p `suffix_of` ptr).
Proof.
  intros Ho Hp. unfold unescape. cbv zeta.
  do 5 (case_match; [apply wp_bind, any_put, wp_ret; [done|];
    split; [right; by apply c_string_snoc|done]|]).
  case_match.
  { eapply wp_mono; [by apply transcode_spec|]. intros [o p] _ [? ?]. auto. }
  apply wp_bind, any_put, wp_ret; [done|]. split; [|done].
  destruct ptr as [|c ptr]; [by left|right]. apply Forall_cons in Hp as [Hc _].
  by apply c_string_snoc.
Qed.

Lemma copy_string_spec fuel cap : forall out ptr w,
  c_string out -> c_string ptr ->
  wp any (copy_string fuel cap out ptr) w (fun '(o, p) _ => c_string o /\ p `suffix_of` ptr).
Proof.
  induction fuel as [|fuel IH]; intros out ptr w Ho Hp; [done|]. cbn [copy_string].
  destruct ptr as [|c ptr]; [by apply wp_ret|]. pose proof Hp as [Hc Hp']%Forall_cons.
  case_match; [by apply wp_ret|]. case_match.
  - apply wp_bind, any_put; [done|]. apply wp_bind, wp_next.
    eapply wp_mono; [by apply IH; [apply c_string_snoc|]|].
    intros [o p] _ [? ?]. split; [done|]. by apply suffix_cons_r.
  - apply wp_bind, wp_next, wp_bind. eapply wp_mono; [by apply unescape_spec|].
    intros [o p] w1 [Hor Hs]. apply wp_bind. destruct p as [|d p]; [done|].
    destruct Hor as [|Ho']; [done|]. apply wp_next.
    assert (c_string p) as Hcp.
    { eapply c_string_suffix in Hs; [|done]. by apply Forall_cons in Hs as [_ ?]. }
    eapply wp_mono; [by apply IH|]. intros [o' p'] _ [? ?]. split; [done|].
    apply suffix_cons_r. etrans; [done|]. etrans; [|exact Hs]. by apply suffix_cons_r.
Qed.

Section parser.
Context (malloc_ok : nat -> Z -> bool) (pow : double -> double -> double).

Lemma typed_parse_string item str w :
  c_string str ->
  wp any (parse_string malloc_ok item str) w (fun '(i, e) _ =>
    forall rest, e = Some rest -> rest `suffix_of` str /\
      exists s, i = set_type cJSON_String (set_valuestring (Some s) item) /\ c_string s).
Proof.
  intros Hs. unfold parse_string. case_match.
  { apply wp_bind, wp_set_ep, wp_ret. done. }
  apply wp_bind. eapply wp_mono; [by apply any_scan_string|]. intros len w1 _.
  apply wp_bind. unfold int_add. case_match; [|done]. apply wp_ret.
  apply wp_bind, wp_malloc; [intros _; by apply wp_ret|]. cbn [negb].
  assert (tl str `suffix_of` str) as Ht by apply tl_suffix.
  apply wp_bind. eapply wp_mono; [apply copy_string_spec; [constructor|by eapply c_string_suffix]|].
  intros [out p] w2 [Ho Hp]. apply wp_bind. unfold put_nul. case_match; [|done].
  apply wp_ret, wp_ret. intros rest [= <-]. split; [|by exists out].
  etrans; [|exact Ht]. case_match; [|done]. etrans; [apply tl_suffix|done].
Qed.

(** What a parser of a value makes of a blank item: on success it is typed and has the name
    it came with. *)
Definition makes_typed (item : cJSON) (value : text) (r : cJSON * option text) (_ : world) : Prop :=
  forall rest, r.2 = Some rest -> rest `suffix_of` value /\ typed r.1 /\ string r.1 = string item.

Definition blank_as (ty : Z) (n : option text) : cJSON := Item ty None 0 zero n [].

Definition typed_parser (pv : cJSON -> option text -> M (cJSON * option text)) : Prop :=
  forall ty n value w, c_string value ->
    wp any (pv (blank_as ty n) (Some value)) w (makes_typed (blank_as ty n) value).

Lemma any_new_item w (Q : option cJSON -> world -> Prop) :
  (forall r w', r = None \/ r = Some (blank_as 0 None) -> Q r w') ->
  wp any (cJSON_New_Item malloc_ok) w Q.
Proof.
  intros HQ. unfold cJSON_New_Item. apply wp_bind, wp_malloc; [intros _|]; apply wp_ret, HQ; auto.
Qed.

(** One more element or member, and the loop goes on. *)
Definition typed_list (named : cJSON -> Prop) (value : text) (r : list cJSON * option text)
    (_ : world) : Prop :=
  forall rest, r.2 = Some rest -> rest `suffix_of` value /\ Forall typed r.1 /\ Forall named r.1.

Lemma typed_array_loop pv fuel before c value w :
  typed_parser pv -> c_string value ->
  Forall typed (before ++ [c]) -> Forall (fun c => string c = None) (before ++ [c]) ->
  wp any (array_loop malloc_ok pv fuel before c value) w
    (typed_list (fun c => string c = None) value).
Proof.
  intros Hpv. revert before c value w.
  induction fuel as [|fuel IH]; intros before c value w Hv Ht Hn; [done|]. cbn [array_loop].
  case_match; [|apply wp_ret; by intros rest [= <-]].
  apply wp_bind, any_new_item. intros r w1 [->| ->]; [by apply wp_ret|].
  apply wp_bind. cbn [skip fmap option_fmap option_map].
  assert (skip_loop (tl value) `suffix_of` value) as Hsk.
  { etrans; [apply skip_loop_suffix|apply tl_suffix]. }
  eapply wp_mono; [by apply Hpv; eapply c_string_suffix|]. intros [c' e] w2 Hm.
  destruct e as [rest|]; cbn [skip fmap option_fmap option_map]; [|by apply wp_ret].
  destruct (Hm rest eq_refl) as (Hr & Htc & Hnc). cbn [fst string blank_as] in *.
  assert (skip_loop rest `suffix_of` value) as Hr2.
  { etrans; [apply skip_loop_suffix|]. by etrans. }
  eapply wp_mono.
  { apply IH; [by eapply c_string_suffix|..]; apply Forall_app; (split; [done|]);
      apply Forall_cons_2; done || constructor. }
  intros [cs e'] w3 Hl rest' E. destruct (Hl rest' E) as (Hs & ? & ?). split; [by etrans|done].
Qed.
Lemma typed_parse_array pv ty n value w :
  typed_parser pv -> c_string value ->
  wp any (parse_array malloc_ok pv (blank_as ty n) value) w (makes_typed (blank_as ty n) value).
Proof.
  intros Hpv Hv. unfold parse_array. case_match; [by apply wp_bind, wp_set_ep, wp_ret|].
  set (p := skip_loop (tl value)).
  assert (p `suffix_of` value) as Hp by (etrans; [apply skip_loop_suffix|apply tl_suffix]).
  case_match.
  { apply wp_ret. intros rest [= <-]. split; [etrans; [apply tl_suffix|done]|]. by repeat constructor. }
  apply wp_bind, any_new_item. intros r w1 [->| ->]; [by apply wp_ret|].
  apply wp_bind. cbn [skip fmap option_fmap option_map].
  assert (skip_loop p `suffix_of` value) as Hsp by (etrans; [apply skip_loop_suffix|done]).
  eapply wp_mono; [by apply Hpv; eapply c_string_suffix|]. intros [c e] w2 Hm.
  destruct e as [rest|]; cbn [skip fmap option_fmap option_map]; [|by apply wp_ret].
  destruct (Hm rest eq_refl) as (Hr & Htc & Hnc). cbn [fst string blank_as] in *.
  assert (skip_loop rest `suffix_of` value) as Hr2.
  { etrans; [apply skip_loop_suffix|]. by etrans. }
  apply wp_bind. eapply wp_mono.
  { apply typed_array_loop; [done|by eapply c_string_suffix|..]; by apply Forall_cons_2. }
  intros [cs e] w3 Hl. destruct e as [rest'|]; [|by apply wp_ret].
  destruct (Hl rest' eq_refl) as (Hs & Hcs & Hns).
  case_match; [|by apply wp_bind, wp_set_ep, wp_ret]. apply wp_ret. intros r [= <-].
  split; [etrans; [apply tl_suffix|]; by etrans|]. split; [by apply typed_array|done].
Qed.

Definition named (c : cJSON) : Prop := exists k, string c = Some k /\ c_string k.

Lemma typed_parse_member pv value w :
  typed_parser pv -> c_string value ->
  wp any (parse_member malloc_ok pv (blank_as 0 None) value) w (fun '(c, e) _ =>
    forall rest, e = Some rest -> rest `suffix_of` value /\ typed c /\ named c).
Proof.
  intros Hpv Hv. unfold parse_member. apply wp_bind.
  eapply wp_mono; [by apply typed_parse_string; eapply c_string_suffix, Hv; apply skip_loop_suffix|].
  intros [c e] w1 Hs. destruct e as [rest|]; cbn [skip fmap option_fmap option_map]; [|by apply wp_ret].
  destruct (Hs rest eq_refl) as (Hr & s & -> & Hcs).
  case_match; [by apply wp_bind, wp_set_ep, wp_ret|].
  change (set_valuestring None _) with (blank_as cJSON_String (Some s)).
  assert (skip_loop (tl (skip_loop rest)) `suffix_of` value) as Hr2.
  { etrans; [apply skip_loop_suffix|]. etrans; [apply tl_suffix|].
    etrans; [apply skip_loop_suffix|]. etrans; [done|apply skip_loop_suffix]. }
  apply wp_bind. eapply wp_mono; [by apply Hpv; eapply c_string_suffix|].
  intros [c e] w2 Hm. apply wp_ret. intros rest' E.
  destruct e as [rest2|]; [|done]. injection E as <-.
  destruct (Hm rest2 eq_refl) as (Hr3 & Htc & Hnc). cbn [fst] in *.
  split; [etrans; [apply skip_loop_suffix|]; by etrans|]. split; [done|]. by exists s.
Qed.

Lemma typed_object_loop pv fuel before c value w :
  typed_parser pv -> c_string value ->
  Forall typed (before ++ [c]) -> Forall named (before ++ [c]) ->
  wp any (object_loop malloc_ok pv fuel before c value) w (typed_list named value).
Proof.
  intros Hpv. revert before c value w.
  induction fuel as [|fuel IH]; intros before c value w Hv Ht Hn; [done|]. cbn [object_loop].
  case_match; [|apply wp_ret; by intros rest [= <-]].
  apply wp_bind, any_new_item. intros r w1 [->| ->]; [by apply wp_ret|].
  assert (c_string (tl value)) as Hv1 by by eapply c_string_suffix, Hv; apply tl_suffix.
  apply wp_bind. eapply wp_mono; [by apply typed_parse_member|]. intros [c' e] w2 Hm.
  destruct e as [rest|]; [|by apply wp_ret]. destruct (Hm rest eq_refl) as (Hr & Htc & Hnc).
  assert (rest `suffix_of` value) as Hr2 by (etrans; [done|apply tl_suffix]).
  eapply wp_mono.
  { apply IH; [by eapply c_string_suffix|..]; apply Forall_app; (split; [done|]);
      apply Forall_cons_2; done || constructor. }
  intros [cs e'] w3 Hl rest' E. destruct (Hl rest' E) as (Hs & ? & ?). split; [by etrans|done].
Qed.

Lemma typed_parse_object pv ty n value w :
  typed_parser pv -> c_string value ->
  wp any (parse_object malloc_ok pv (blank_as ty n) value) w (makes_typed (blank_as ty n) value).
Proof.
  intros Hpv Hv. unfold parse_object. case_match; [by apply wp_bind, wp_set_ep, wp_ret|].
  set (p := skip_loop (tl value)).
  assert (p `suffix_of` value) as Hp by (etrans; [apply skip_loop_suffix|apply tl_suffix]).
  case_match.
  { apply wp_ret. intros rest [= <-]. split; [etrans; [apply tl_suffix|done]|]. by repeat constructor. }
  apply wp_bind, any_new_item. intros r w1 [->| ->]; [by apply wp_ret|].
  apply wp_bind. eapply wp_mono; [by apply typed_parse_member; [|eapply c_string_suffix]|].
  intros [c e] w2 Hm. destruct e as [rest|]; [|by apply wp_ret].
  destruct (Hm rest eq_refl) as (Hr & Htc & Hnc).
  assert (rest `suffix_of` value) as Hr2 by by etrans.
  apply wp_bind. eapply wp_mono.
  { apply typed_object_loop; [done|by eapply c_string_suffix|..]; by apply Forall_cons_2. }
  intros [cs e] w3 Hl. destruct e as [rest'|]; [|by apply wp_ret].
  destruct (Hl rest' eq_refl) as (Hs & Hcs & Hns).
  case_match; [|by apply wp_bind, wp_set_ep, wp_ret]. apply wp_ret. intros r [= <-].
  split; [etrans; [apply tl_suffix|]; by etrans|]. split; [by apply typed_object|done].
Qed.

Lemma parse_number_typed ty n num :
  let r := parse_number pow (blank_as ty n) num in typed r.1 /\ string r.1 = n.
Proof.
  unfold parse_number. repeat case_match; cbn [fst]; (split; [apply typed_number|done]).
Qed.

Lemma typed_parse_value fuel : typed_parser (parse_value malloc_ok pow fuel).
Proof.
  induction fuel as [|fuel IH]; intros ty n value w Hv; [done|]. cbn [parse_value].
  assert (forall k, drop k value `suffix_of` value) as Hd.
  { intros k. exists (take k value). by rewrite take_drop. }
  case_match; [apply wp_ret; intros rest [= <-]; by repeat constructor|].
  case_match; [apply wp_ret; intros rest [= <-]; by repeat constructor|].
  case_match; [apply wp_ret; intros rest [= <-]; by repeat constructor|].
  case_match.
  { eapply wp_mono; [by apply typed_parse_string|]. intros [i e] w1 Hs rest E.
    destruct (Hs rest E) as (Hr & s & -> & Hcs). split; [done|]. split; [by apply typed_string|done]. }
  case_match.
  { pose proof (parse_number_typed ty n value) as [Ht Hn].
    pose proof (parse_number_leaves pow (blank_as ty n) value) as Hl.
    destruct (parse_number pow (blank_as ty n) value) as [i num] eqn:E. apply wp_ret.
    intros rest [= <-]. split; [by apply Hl|done]. }
  case_match; [by apply typed_parse_array|]. case_match; [by apply typed_parse_object|].
  by apply wp_bind, wp_set_ep, wp_ret.
Qed.

(** C5. Whatever the text and whichever allocations fail, an item the parser returns is typed:
    its fields are those of its type, all the way down, and it has no name. *)
Theorem parser_builds_typed value re rn w c e w' :
  c_string value ->
  cJSON_ParseWithOpts malloc_ok pow (Some value) re rn w = inl ((Some c, e), w') ->
  typed c /\ string c = None.
Proof.
  intros Hv E.
  assert (wp any (cJSON_ParseWithOpts malloc_ok pow (Some value) re rn) w (fun '(r, _) _ =>
    forall c, r = Some c -> typed c /\ string c = None)) as Hwp.
  { unfold cJSON_ParseWithOpts. apply wp_bind, any_new_item. intros r w1 [->| ->];
      apply wp_bind, wp_set_ep; [by apply wp_ret|].
    apply wp_bind. cbn [skip fmap option_fmap option_map].
    eapply wp_mono; [by apply typed_parse_value; eapply c_string_suffix, Hv; apply skip_loop_suffix|].
    intros [i stop] w2 Hm. destruct stop as [stop|].
    - destruct (Hm stop eq_refl) as (_ & Ht & Hn). case_match.
      + apply wp_bind, any_run. intros _ w3. by apply wp_bind, wp_set_ep, wp_ret.
      + apply wp_ret. by intros ? [= <-].
    - apply wp_bind, any_run. intros _ w3. by apply wp_ret. }
  unfold wp in Hwp. rewrite E in Hwp. by apply Hwp.
Qed.
End parser.

(** [{"a":[1.5,"\u00e9"]}] *)
Definition nested_text : text :=
  [123; 34; 97; 34; 58; 91; 49; 46; 53; 44; 34; 92; 117; 48; 48; 101; 57; 34; 93; 125].

(** [pow(10, -1)] *)
Definition tenth (_ _ : double) : double := S754_finite false 7205759403792794 (-56).

Lemma parser_builds_typed_witness :
  exists c w', cJSON_ParseWithOpts (fun _ _ => true) tenth (Some nested_text) false true
      (World 0 0 None) = inl ((Some c, None), w') /\
    typed c /\ string c = None.
Proof.
  destruct (cJSON_ParseWithOpts (fun _ _ => true) tenth (Some nested_text) false true
    (World 0 0 None)) as [[[[c|] e] w']|f] eqn:E; [|vm_compute in E; discriminate..].
  exists c, w'. split.
  - f_equal. f_equal. f_equal. vm_compute in E. by injection E as _ <- _.
  - eapply (parser_builds_typed (fun _ _ => true) tenth nested_text false true); [|exact E].
    by repeat (apply Forall_cons_2; [by split|]).
Defined.
