(* ===== verification/CJsonHeap.v ===== *)
(** JSON trees as linked items: the operations of src/demo_json/cJSON.c that build, search,
    change, copy and delete them.

    Items live in a store from addresses, and so do the strings the program allocates or is
    given; [0] is the null pointer. Reading or freeing what is not allocated is the fault
    [BadPointer], so that a double free, a use after free and a leak all show. The calls of
    [cJSON_malloc] are counted, and any of them may fail. Loops over a chain and the
    recursion over a tree have as much fuel as there are items. *)

From S2P Require Import Prelude Double Linked Heap CJson.

(* src/demo_json/cJSON.h:43-54 cJSON *)
Record node := Node {
  next : Z; prev : Z; child : Z;
  type : Z; valuestring : Z; valueint : Z; valuedouble : double; string : Z;
}.

(** What [memset(node, 0, sizeof(cJSON))] leaves. *)
Definition blank : node := Node 0 0 0 0 0 0 zero 0.

Definition set_links nx pv (n : node) : node :=
  Node nx pv (child n) (type n) (valuestring n) (valueint n) (valuedouble n) (string n).
Definition set_child c (n : node) : node :=
  Node (next n) (prev n) c (type n) (valuestring n) (valueint n) (valuedouble n) (string n).
Definition set_type ty (n : node) : node :=
  Node (next n) (prev n) (child n) ty (valuestring n) (valueint n) (valuedouble n) (string n).
Definition set_valuestring s (n : node) : node :=
  Node (next n) (prev n) (child n) (type n) s (valueint n) (valuedouble n) (string n).
Definition set_number i d (n : node) : node :=
  Node (next n) (prev n) (child n) (type n) (valuestring n) i d (string n).
Definition set_string s (n : node) : node :=
  Node (next n) (prev n) (child n) (type n) (valuestring n) (valueint n) (valuedouble n) s.

#[export] Instance node_next : Next Z node := {|
  null := 0; next_of := next; set_next v n := set_links v (prev n) n |}.
#[export] Instance node_prev : Prev Z node := {|
  prev_of := prev; set_prev v n := set_links (next n) v n |}.
#[export] Instance node_links : LinksOk Z node.
Proof. by split. Qed.

(** ** State and faults *)

Inductive fault := BadPointer | IntOverflow | NoFuel.

(** The functions [cJSON_malloc] and [cJSON_free] point to, by name. *)
Definition libc_malloc : Z := 0.
Definition libc_free : Z := 0.

Record heap := Heap {
  items : gmap Z node;
  strs : gmap Z text;
  calls : nat;
  malloc_fn : Z;
  free_fn : Z;
}.

Definition set_items its h := Heap its (strs h) (calls h) (malloc_fn h) (free_fn h).
Definition set_strs ss h := Heap (items h) ss (calls h) (malloc_fn h) (free_fn h).
Definition count_call h := Heap (items h) (strs h) (S (calls h)) (malloc_fn h) (free_fn h).

Definition St (A : Type) : Type := heap -> (A * heap) + fault.

#[export] Instance St_ret : MRet St := fun A x h => inl (x, h).
#[export] Instance St_bind : MBind St := fun A B k m h =>
  match m h with inl (x, h') => k x h' | inr f => inr f end.

Definition throw {A} (f : fault) : St A := fun _ => inr f.
Definition when (b : bool) (m : St unit) : St unit := if b then m else mret tt.

Definition load (p : Z) : St node := fun h =>
  match items h !! p with Some n => inl (n, h) | None => inr BadPointer end.
Definition modify (p : Z) (f : node -> node) : St unit := fun h =>
  match items h !! p with
  | Some n => inl (tt, set_items (<[p := f n]> (items h)) h)
  | None => inr BadPointer
  end.
Definition load_str (p : Z) : St text := fun h =>
  match strs h !! p with Some s => inl (s, h) | None => inr BadPointer end.

(** An assignment to a link, as Linked.v has it. *)
Definition relink (f : gmap Z node -> option (gmap Z node)) : St unit := fun h =>
  match f (items h) with Some its => inl (tt, set_items its h) | None => inr BadPointer end.

(** [cJSON_free] of an item and of a string. *)
Definition free_item (p : Z) : St unit := fun h =>
  match items h !! p with
  | Some _ => inl (tt, set_items (delete p (items h)) h)
  | None => inr BadPointer
  end.
Definition free_str (p : Z) : St unit := fun h =>
  match strs h !! p with
  | Some _ => inl (tt, set_strs (delete p (strs h)) h)
  | None => inr BadPointer
  end.

Definition int_succ (i : Z) : St Z :=
  if i <? INT_MAX then mret (i + 1) else throw IntOverflow.

(** As much fuel as there are items, and one for the null pointer at the end. *)
Definition fuelled {A} (f : nat -> St A) : St A := fun h => f (S (size (items h))) h.

(** The bit [cJSON_IsReference]. *)
Definition is_ref (n : node) : bool := negb (Z.land (type n) cJSON_IsReference =? 0).

(** ** Comparing names *)

Definition tolower (c : Z) : Z := if (65 <=? c) && (c <=? 90) then c + 32 else c.

(* src/demo_json/cJSON.c:44-45 cJSON_strcasecmp *)
Fixpoint compare_nocase (s1 s2 : text) : Z :=
  if tolower (deref s1) =? tolower (deref s2) then
    if deref s1 =? 0 then 0
    else match s1, s2 with
         | _ :: s1, _ :: s2 => compare_nocase s1 s2
         | _, _ => 0
         end
  else tolower (deref s1) - tolower (deref s2).

(* src/demo_json/cJSON.c:40-46 cJSON_strcasecmp *)
Definition cJSON_strcasecmp (s1 s2 : Z) : St Z :=
  if s1 =? 0 then mret (if s1 =? s2 then 0 else 1)
  else if s2 =? 0 then mret 1
  else t1 ← load_str s1; t2 ← load_str s2; mret (compare_nocase t1 t2).

Section Program.
Context `{Allocator node, Allocator text}.
(** Which calls of the allocator succeed: the function called, the number of the call, the
    size asked for. *)
Context (malloc_ok : Z -> nat -> Z -> bool).

Definition malloc_item : St Z := fun h =>
  if malloc_ok (malloc_fn h) (calls h) sizeof_cJSON then
    let p := Heap.malloc (items h) in
    inl (p, set_items (<[p := blank]> (items h)) (count_call h))
  else inl (0, count_call h).

Definition malloc_str (s : text) : St Z := fun h =>
  if malloc_ok (malloc_fn h) (calls h) (Z.of_nat (length s) + 1) then
    let p := Heap.malloc (strs h) in inl (p, set_strs (<[p := s]> (strs h)) (count_call h))
  else inl (0, count_call h).

(** A hook is [None] where the pointer is null; so is the argument. *)
(* src/demo_json/cJSON.c:63-73 cJSON_InitHooks *)
Definition cJSON_InitHooks (hooks : option (option Z * option Z)) : St unit := fun h =>
  match hooks with
  | None => inl (tt, Heap (items h) (strs h) (calls h) libc_malloc libc_free)
  | Some (m, f) =>
      inl (tt, Heap (items h) (strs h) (calls h) (default libc_malloc m) (default libc_free f))
  end.

(* src/demo_json/cJSON.c:52-61 cJSON_strdup *)
Definition cJSON_strdup (str : Z) : St Z :=
  s ← load_str str; malloc_str s.

(* src/demo_json/cJSON.c:76-81 cJSON_New_Item *)
Definition cJSON_New_Item : St Z := malloc_item.

(* src/demo_json/cJSON.c:84-95 cJSON_Delete *)
Fixpoint delete_loop (fuel : nat) (c : Z) : St unit :=
  match fuel with
  | O => throw NoFuel
  | S fuel =>
      if c =? 0 then mret tt else
      n ← load c;
      let next := next n in
      _ ← when (negb (is_ref n) && negb (child n =? 0)) (delete_loop fuel (child n));
      n ← load c;
      _ ← when (negb (is_ref n) && negb (valuestring n =? 0)) (free_str (valuestring n));
      _ ← when (negb (string n =? 0)) (free_str (string n));
      _ ← free_item c;
      delete_loop fuel next
  end.

(* src/demo_json/cJSON.c:84-95 cJSON_Delete *)
Definition cJSON_Delete (c : Z) : St unit := fuelled (fun fuel => delete_loop fuel c).

(** ** Searching *)

(* src/demo_json/cJSON.c:680-680 cJSON_GetArraySize *)
Fixpoint size_loop (fuel : nat) (i c : Z) : St Z :=
  match fuel with
  | O => throw NoFuel
  | S fuel =>
      if c =? 0 then mret i else i ← int_succ i; n ← load c; size_loop fuel i (next n)
  end.

(* src/demo_json/cJSON.c:676-682 cJSON_GetArraySize *)
Definition cJSON_GetArraySize (array : Z) : St Z :=
  a ← load array; fuelled (fun fuel => size_loop fuel 0 (child a)).

(** [while (c && which > 0) c = c->next, which--;] *)
(* src/demo_json/cJSON.c:687-687 cJSON_GetArrayItem *)
Fixpoint item_loop (fuel : nat) (which c : Z) : St Z :=
  match fuel with
  | O => throw NoFuel
  | S fuel =>
      if negb (c =? 0) && (0 <? which)
      then n ← load c; item_loop fuel (which - 1) (next n) else mret c
  end.

(* src/demo_json/cJSON.c:684-689 cJSON_GetArrayItem *)
Definition cJSON_GetArrayItem (array item : Z) : St Z :=
  a ← load array; fuelled (fun fuel => item_loop fuel item (child a)).

(** [while (c && cJSON_strcasecmp(c->string, string)) i++, c = c->next;] *)
(* src/demo_json/cJSON.c:762-762 cJSON_DetachItemFromObject *)
Fixpoint name_loop (fuel : nat) (i c string' : Z) : St (Z * Z) :=
  match fuel with
  | O => throw NoFuel
  | S fuel =>
      if c =? 0 then mret (i, c) else
      n ← load c;
      d ← cJSON_strcasecmp (string n) string';
      if d =? 0 then mret (i, c)
      else i ← int_succ i; name_loop fuel i (next n) string'
  end.

(* src/demo_json/cJSON.c:694-694 cJSON_GetObjectItem *)
Fixpoint find_loop (fuel : nat) (c string' : Z) : St Z :=
  match fuel with
  | O => throw NoFuel
  | S fuel =>
      if c =? 0 then mret c else
      n ← load c;
      d ← cJSON_strcasecmp (string n) string';
      if d =? 0 then mret c else find_loop fuel (next n) string'
  end.

(* src/demo_json/cJSON.c:691-696 cJSON_GetObjectItem *)
Definition cJSON_GetObjectItem (object string' : Z) : St Z :=
  o ← load object; fuelled (fun fuel => find_loop fuel (child o) string').

(** ** Adding *)

(* src/demo_json/cJSON.c:699-703 suffix_object *)
Definition suffix_object (prev item : Z) : St unit :=
  _ ← relink (fun its => st_next its prev item); relink (fun its => st_prev its item prev).

(* src/demo_json/cJSON.c:706-715 create_reference *)
Definition create_reference (item : Z) : St Z :=
  ref ← cJSON_New_Item;
  if ref =? 0 then mret 0 else
  n ← load item;
  _ ← modify ref (fun _ => n);
  _ ← modify ref (set_string 0);
  _ ← modify ref (fun r => set_type (Z.lor (type r) cJSON_IsReference) r);
  _ ← modify ref (set_links 0 0);
  mret ref.

(** [while (c && c->next) c = c->next;] *)
(* src/demo_json/cJSON.c:724-724 cJSON_AddItemToArray *)
Fixpoint last_loop (fuel : nat) (c : Z) : St Z :=
  match fuel with
  | O => throw NoFuel
  | S fuel =>
      if c =? 0 then mret c else
      n ← load c; if next n =? 0 then mret c else last_loop fuel (next n)
  end.

(* src/demo_json/cJSON.c:718-727 cJSON_AddItemToArray *)
Definition cJSON_AddItemToArray (array item : Z) : St unit :=
  a ← load array;
  let c := child a in
  if item =? 0 then mret tt
  else if c =? 0 then modify array (set_child item)
  else c ← fuelled (fun fuel => last_loop fuel c); suffix_object c item.

(* src/demo_json/cJSON.c:729-735 cJSON_AddItemToObject *)
Definition cJSON_AddItemToObject (object string' item : Z) : St unit :=
  if item =? 0 then mret tt else
  n ← load item;
  _ ← when (negb (string n =? 0)) (free_str (string n));
  s ← cJSON_strdup string';
  _ ← modify item (set_string s);
  cJSON_AddItemToArray object item.

(* src/demo_json/cJSON.c:737-738 cJSON_AddItemReferenceToArray *)
Definition cJSON_AddItemReferenceToArray (array item : Z) : St unit :=
  r ← create_reference item; cJSON_AddItemToArray array r.

(* src/demo_json/cJSON.c:740-741 cJSON_AddItemReferenceToObject *)
Definition cJSON_AddItemReferenceToObject (object string' item : Z) : St unit :=
  r ← create_reference item; cJSON_AddItemToObject object string' r.

(** ** Taking away and replacing *)

(* src/demo_json/cJSON.c:743-753 cJSON_DetachItemFromArray *)
Definition cJSON_DetachItemFromArray (array which : Z) : St Z :=
  a ← load array;
  c ← fuelled (fun fuel => item_loop fuel which (child a));
  if c =? 0 then mret 0 else
  n ← load c;
  _ ← relink (fun its => st_next_opt its (prev n) (next n));
  n ← load c;
  _ ← relink (fun its => st_prev_opt its (next n) (prev n));
  a ← load array;
  n ← load c;
  _ ← when (c =? child a) (modify array (set_child (next n)));
  _ ← modify c (set_links 0 0);
  mret c.

(* src/demo_json/cJSON.c:755-756 cJSON_DeleteItemFromArray *)
Definition cJSON_DeleteItemFromArray (array which : Z) : St unit :=
  c ← cJSON_DetachItemFromArray array which; cJSON_Delete c.

(* src/demo_json/cJSON.c:758-765 cJSON_DetachItemFromObject *)
Definition cJSON_DetachItemFromObject (object string' : Z) : St Z :=
  o ← load object;
  '(i, c) ← fuelled (fun fuel => name_loop fuel 0 (child o) string');
  if negb (c =? 0) then cJSON_DetachItemFromArray object i else mret 0.

(* src/demo_json/cJSON.c:767-768 cJSON_DeleteItemFromObject *)
Definition cJSON_DeleteItemFromObject (object string' : Z) : St unit :=
  c ← cJSON_DetachItemFromObject object string'; cJSON_Delete c.

(* src/demo_json/cJSON.c:771-782 cJSON_ReplaceItemInArray *)
Definition cJSON_ReplaceItemInArray (array which newitem : Z) : St unit :=
  a ← load array;
  c ← fuelled (fun fuel => item_loop fuel which (child a));
  if c =? 0 then mret tt else
  n ← load c;
  _ ← modify newitem (set_links (next n) (prev n));
  m ← load newitem;
  _ ← relink (fun its => st_prev_opt its (next m) newitem);
  a ← load array;
  m ← load newitem;
  _ ← (if c =? child a then modify array (set_child newitem)
       else relink (fun its => st_next its (prev m) newitem));
  _ ← modify c (set_links 0 0);
  cJSON_Delete c.

(* src/demo_json/cJSON.c:784-793 cJSON_ReplaceItemInObject *)
Definition cJSON_ReplaceItemInObject (object string' newitem : Z) : St unit :=
  o ← load object;
  '(i, c) ← fuelled (fun fuel => name_loop fuel 0 (child o) string');
  if negb (c =? 0) then
    s ← cJSON_strdup string';
    _ ← modify newitem (set_string s);
    cJSON_ReplaceItemInArray object i newitem
  else mret tt.

(** ** Creating *)

(* src/demo_json/cJSON.c:796-801 cJSON_CreateNull *)
Definition cJSON_CreateNull : St Z :=
  item ← cJSON_New_Item;
  _ ← when (negb (item =? 0)) (modify item (set_type cJSON_NULL));
  mret item.

(* src/demo_json/cJSON.c:803-808 cJSON_CreateTrue *)
Definition cJSON_CreateTrue : St Z :=
  item ← cJSON_New_Item;
  _ ← when (negb (item =? 0)) (modify item (set_type cJSON_True));
  mret item.

(* src/demo_json/cJSON.c:810-815 cJSON_CreateFalse *)
Definition cJSON_CreateFalse : St Z :=
  item ← cJSON_New_Item;
  _ ← when (negb (item =? 0)) (modify item (set_type cJSON_False));
  mret item.

(* src/demo_json/cJSON.c:817-822 cJSON_CreateBool *)
Definition cJSON_CreateBool (b : Z) : St Z :=
  item ← cJSON_New_Item;
  _ ← when (negb (item =? 0))
        (modify item (set_type (if negb (b =? 0) then cJSON_True else cJSON_False)));
  mret item.

(* src/demo_json/cJSON.c:824-833 cJSON_CreateNumber *)
Definition cJSON_CreateNumber (num : double) : St Z :=
  item ← cJSON_New_Item;
  _ ← when (negb (item =? 0))
        (_ ← modify item (set_type cJSON_Number); modify item (set_number (to_int num) num));
  mret item.

(* src/demo_json/cJSON.c:835-843 cJSON_CreateString *)
Definition cJSON_CreateString (string' : Z) : St Z :=
  item ← cJSON_New_Item;
  _ ← when (negb (item =? 0))
        (_ ← modify item (set_type cJSON_String);
         s ← cJSON_strdup string';
         modify item (set_valuestring s));
  mret item.

(* src/demo_json/cJSON.c:845-850 cJSON_CreateArray *)
Definition cJSON_CreateArray : St Z :=
  item ← cJSON_New_Item;
  _ ← when (negb (item =? 0)) (modify item (set_type cJSON_Array));
  mret item.

(* src/demo_json/cJSON.c:852-857 cJSON_CreateObject *)
Definition cJSON_CreateObject : St Z :=
  item ← cJSON_New_Item;
  _ ← when (negb (item =? 0)) (modify item (set_type cJSON_Object));
  mret item.

(** The loop the four constructors of arrays share: [i = 0] is the first element. *)
(* src/demo_json/cJSON.c:864-868 cJSON_CreateIntArray *)
Fixpoint create_loop {A} (create : A -> St Z) (first : bool) (a p : Z) (elems : list A)
    : St unit :=
  match elems with
  | [] => mret tt
  | x :: elems =>
      n ← create x;
      _ ← (if first then modify a (set_child n) else suffix_object p n);
      create_loop create false a n elems
  end.

(** [count] elements are read from where the pointer leads. *)
(* src/demo_json/cJSON.c:862-869 cJSON_CreateIntArray *)
Definition create_array {A} (create : A -> St Z) (elems : list A) (count : Z) : St Z :=
  a ← cJSON_CreateArray;
  if a =? 0 then mret 0
  else if count <=? Z.of_nat (length elems) then
    _ ← create_loop create true a 0 (take (Z.to_nat count) elems); mret a
  else throw BadPointer.

(* src/demo_json/cJSON.c:860-870 cJSON_CreateIntArray *)
Definition cJSON_CreateIntArray (numbers : list Z) (count : Z) : St Z :=
  create_array (fun i => cJSON_CreateNumber (of_int i)) numbers count.

(** A [float] is the [double] it is converted to. *)
(* src/demo_json/cJSON.c:872-882 cJSON_CreateFloatArray *)
Definition cJSON_CreateFloatArray (numbers : list double) (count : Z) : St Z :=
  create_array cJSON_CreateNumber numbers count.

(* src/demo_json/cJSON.c:884-894 cJSON_CreateDoubleArray *)
Definition cJSON_CreateDoubleArray (numbers : list double) (count : Z) : St Z :=
  create_array cJSON_CreateNumber numbers count.

(* src/demo_json/cJSON.c:896-906 cJSON_CreateStringArray *)
Definition cJSON_CreateStringArray (strings : list Z) (count : Z) : St Z :=
  create_array cJSON_CreateString strings count.

(** ** The macros of cJSON.h *)

(* src/demo_json/cJSON.h:152-152 cJSON_AddNullToObject *)
Definition cJSON_AddNullToObject (object name : Z) : St unit :=
  item ← cJSON_CreateNull; cJSON_AddItemToObject object name item.

(* src/demo_json/cJSON.h:153-153 cJSON_AddTrueToObject *)
Definition cJSON_AddTrueToObject (object name : Z) : St unit :=
  item ← cJSON_CreateTrue; cJSON_AddItemToObject object name item.

(* src/demo_json/cJSON.h:154-154 cJSON_AddFalseToObject *)
Definition cJSON_AddFalseToObject (object name : Z) : St unit :=
  item ← cJSON_CreateFalse; cJSON_AddItemToObject object name item.

(* src/demo_json/cJSON.h:155-155 cJSON_AddBoolToObject *)
Definition cJSON_AddBoolToObject (object name : Z) (b : Z) : St unit :=
  item ← cJSON_CreateBool b; cJSON_AddItemToObject object name item.

(* src/demo_json/cJSON.h:156-156 cJSON_AddNumberToObject *)
Definition cJSON_AddNumberToObject (object name : Z) (n : double) : St unit :=
  item ← cJSON_CreateNumber n; cJSON_AddItemToObject object name item.

(* src/demo_json/cJSON.h:157-157 cJSON_AddStringToObject *)
Definition cJSON_AddStringToObject (object name : Z) (s : Z) : St unit :=
  item ← cJSON_CreateString s; cJSON_AddItemToObject object name item.

(* src/demo_json/cJSON.h:160-160 cJSON_SetIntValue *)
Definition cJSON_SetIntValue (object val : Z) : St Z :=
  if object =? 0 then mret val else
  let d := of_int val in
  _ ← modify object (fun n => set_number (valueint n) d n);
  _ ← modify object (fun n => set_number (to_int d) d n);
  mret (to_int d).

(** ** Copying *)

(** One of the two string fields: [false] when it could not be copied. *)
(* src/demo_json/cJSON.c:921-927 cJSON_Duplicate *)
Definition dup_string (from : Z) (set : Z -> node -> node) (newitem : Z) : St bool :=
  if from =? 0 then mret true else
  s ← cJSON_strdup from;
  _ ← modify newitem (set s);
  if s =? 0 then _ ← cJSON_Delete newitem; mret false else mret true.

(** The loop over the children; [dup] copies one of them. *)
(* src/demo_json/cJSON.c:938-953 cJSON_Duplicate *)
Fixpoint dup_children (dup : Z -> St Z) (fuel : nat) (newitem cptr nptr : Z) : St Z :=
  match fuel with
  | O => throw NoFuel
  | S fuel =>
      if cptr =? 0 then mret newitem else
      newchild ← dup cptr;
      if newchild =? 0 then _ ← cJSON_Delete newitem; mret 0 else
      _ ← (if negb (nptr =? 0) then suffix_object nptr newchild
           else modify newitem (set_child newchild));
      c ← load cptr;
      dup_children dup fuel newitem (next c) newchild
  end.

(* src/demo_json/cJSON.c:909-955 cJSON_Duplicate *)
Fixpoint dup_loop (fuel : nat) (item : Z) (recurse : bool) : St Z :=
  match fuel with
  | O => throw NoFuel
  | S fuel =>
      if item =? 0 then mret 0 else
      newitem ← cJSON_New_Item;
      if newitem =? 0 then mret 0 else
      n ← load item;
      _ ← modify newitem (set_type (Z.land (type n) (Z.lnot cJSON_IsReference)));
      _ ← modify newitem (set_number (valueint n) (valuedouble n));
      n ← load item;
      ok ← dup_string (valuestring n) set_valuestring newitem;
      if negb ok then mret 0 else
      n ← load item;
      ok ← dup_string (string n) set_string newitem;
      if negb ok then mret 0 else
      if negb recurse then mret newitem else
      n ← load item;
      dup_children (fun c => dup_loop fuel c true) fuel newitem (child n) 0
  end.

(* src/demo_json/cJSON.c:909-955 cJSON_Duplicate *)
Definition cJSON_Duplicate (item : Z) (recurse : bool) : St Z :=
  fuelled (fun fuel => dup_loop fuel item recurse).
End Program.
