(* ===== verification/CJsonTree.v ===== *)
(** What the tree operations of src/demo_json/cJSON.c do to the items and strings in use.

    A [cell] describes one item: where it is, its fields apart from its two links, the texts
    its strings hold and the addresses of its children in order. [placed h rs cs U] says that
    the heap [h] holds exactly the items described by [cs], the strings they own and the
    strings [U] of the program around; every item is on one doubly linked list, either alone
    (it is one of the roots [rs]) or among the children of one item. *)

From S2P Require Import Prelude Double Linked Heap CJson CJsonHeap.

(** ** Running an action *)

Definition wp {A} (m : St A) (h : heap) (Q : A -> heap -> Prop) : Prop :=
  match m h with inl (x, h') => Q x h' | inr _ => False end.

Section wp.
Context {A B : Type}.
Implicit Types (m : St A) (h : heap).

Lemma wp_weaken m h (Q R : A -> heap -> Prop) :
  wp m h Q -> (forall x h', Q x h' -> R x h') -> wp m h R.
Proof. unfold wp. destruct (m h) as [[x h']|f]; auto. Qed.

Lemma wp_return (x : A) h (Q : A -> heap -> Prop) : Q x h -> wp (mret x) h Q.
Proof. done. Qed.

Lemma wp_seq m (k : A -> St B) h (Q : B -> heap -> Prop) :
  wp m h (fun x h' => wp (k x) h' Q) -> wp (m ≫= k) h Q.
Proof. unfold wp, mbind, St_bind. destruct (m h) as [[x h']|f]; auto. Qed.

Lemma wp_run m h (Q : A -> heap -> Prop) :
  wp m h Q -> exists x h', m h = inl (x, h') /\ Q x h'.
Proof. unfold wp. destruct (m h) as [[x h']|f]; [eauto|done]. Qed.

Lemma wp_eq m h x h' (Q : A -> heap -> Prop) : m h = inl (x, h') -> Q x h' -> wp m h Q.
Proof. unfold wp. by intros ->. Qed.

Lemma wp_fuelled (f : nat -> St A) h (Q : A -> heap -> Prop) :
  wp (f (S (size (items h)))) h Q -> wp (fuelled f) h Q.
Proof. done. Qed.
End wp.

(** A last action that returns nothing may be followed by doing nothing. *)
Lemma wp_unit_tail {A} (m : St A) (f : A -> St unit) h (Q : unit -> heap -> Prop) :
  wp (x ← m; _ ← f x; mret tt) h Q -> wp (x ← m; f x) h Q.
Proof.
  unfold wp, mbind, St_bind. destruct (m h) as [[x h']|e]; [|done].
  by destruct (f x h') as [[[] h'']|e].
Qed.

Lemma wp_when (b : bool) m h (Q : unit -> heap -> Prop) :
  (b = true -> wp m h Q) -> (b = false -> Q tt h) -> wp (when b m) h Q.
Proof. intros Ht Hf. destruct b; [by apply Ht|by apply wp_return, Hf]. Qed.

Lemma wp_load p n h (Q : node -> heap -> Prop) :
  items h !! p = Some n -> Q n h -> wp (load p) h Q.
Proof. unfold wp, load. by intros ->. Qed.

Lemma wp_modify p n f h (Q : unit -> heap -> Prop) :
  items h !! p = Some n -> Q tt (set_items (<[p := f n]> (items h)) h) -> wp (modify p f) h Q.
Proof. unfold wp, modify. by intros ->. Qed.

Lemma wp_relink f its h (Q : unit -> heap -> Prop) :
  f (items h) = Some its -> Q tt (set_items its h) -> wp (relink f) h Q.
Proof. unfold wp, relink. by intros ->. Qed.

Lemma wp_load_str p s h (Q : text -> heap -> Prop) :
  strs h !! p = Some s -> Q s h -> wp (load_str p) h Q.
Proof. unfold wp, load_str. by intros ->. Qed.

Lemma wp_free_str p s h (Q : unit -> heap -> Prop) :
  strs h !! p = Some s -> Q tt (set_strs (delete p (strs h)) h) -> wp (free_str p) h Q.
Proof. unfold wp, free_str. by intros ->. Qed.

Lemma wp_free_item p n h (Q : unit -> heap -> Prop) :
  items h !! p = Some n -> Q tt (set_items (delete p (items h)) h) -> wp (free_item p) h Q.
Proof. unfold wp, free_item. by intros ->. Qed.

Lemma wp_int_succ i h (Q : Z -> heap -> Prop) :
  i < INT_MAX -> Q (i + 1) h -> wp (int_succ i) h Q.
Proof. intros Hi HQ. unfold int_succ. by rewrite (proj2 (Z.ltb_lt _ _) Hi). Qed.

(** ** Maps as lists of their bindings *)

Section bindings.
Context {V : Type}.
Implicit Types (m : gmap Z V) (l : list (Z * V)).

Lemma bindings_lookup m l i x : map_to_list m ≡ₚ l -> (i, x) ∈ l -> m !! i = Some x.
Proof. intros Hm. rewrite <- Hm. apply elem_of_map_to_list. Qed.

Lemma bindings_NoDup m l : map_to_list m ≡ₚ l -> NoDup l.*1.
Proof. intros Hm. rewrite <- Hm. apply NoDup_fst_map_to_list. Qed.

Lemma bindings_None m l i : map_to_list m ≡ₚ l -> i ∉ l.*1 -> m !! i = None.
Proof.
  intros Hm Hi. apply eq_None_not_Some. intros [x Hx]. apply Hi.
  rewrite <- Hm. apply list_elem_of_fmap. exists (i, x). split; [done|].
  by apply elem_of_map_to_list.
Qed.

Lemma bindings_insert m l i x :
  map_to_list m ≡ₚ l -> m !! i = None -> map_to_list (<[i := x]> m) ≡ₚ (i, x) :: l.
Proof. intros Hm Hi. by rewrite map_to_list_insert, Hm. Qed.

Lemma bindings_delete m l i x : map_to_list m ≡ₚ (i, x) :: l -> map_to_list (delete i m) ≡ₚ l.
Proof.
  intros Hm. apply (Permutation_cons_inv (a := (i, x))). rewrite <- Hm.
  apply map_to_list_delete. by eapply bindings_lookup, list_elem_of_here.
Qed.

Lemma bindings_update m l i x y :
  map_to_list m ≡ₚ (i, x) :: l -> map_to_list (<[i := y]> m) ≡ₚ (i, y) :: l.
Proof.
  intros Hm. rewrite <- insert_delete_eq. apply bindings_insert.
  - by eapply bindings_delete.
  - apply lookup_delete_eq.
Qed.
End bindings.

(** ** Cells *)

Record cell := Cell {
  addr : Z;
  data : node;
  vtext : option text;
  name : option text;
  kids : list Z;
}.

Definition entry (c : cell) : Z * node := (addr c, data c).

Definition held (p : Z) (o : option text) : list (Z * text) :=
  match o with Some s => [(p, s)] | None => [] end.

(** The strings an item owns: a reference only owns its name. *)
Definition owned (c : cell) : list (Z * text) :=
  (if is_ref (data c) then [] else held (valuestring (data c)) (vtext c)) ++
  held (string (data c)) (name c).

(** The list of the children of an item; those of a reference belong to the original. *)
Definition chain (c : cell) : list (Z * list Z) :=
  if is_ref (data c) then [] else [(child (data c), kids c)].

Definition chains (rs : list Z) (cs : list cell) : list (Z * list Z) :=
  ((fun a => (a, [a])) <$> rs) ++ (cs ≫= chain).

(** A C string holds no NUL. *)
Definition nul_free (s : text) : Prop := Forall (fun c => c <> 0) s.

Record placed (h : heap) (rs : list Z) (cs : list cell) (U : list (Z * text)) : Prop := {
  placed_items : map_to_list (core <$> items h) ≡ₚ entry <$> cs;
  placed_strs : map_to_list (strs h) ≡ₚ (cs ≫= owned) ++ U;
  placed_chains : Forall (fun xl => dlist (items h) xl.1 xl.2) (chains rs cs);
  placed_cover : addr <$> cs ≡ₚ chains rs cs ≫= snd;
  placed_null : strs h !! 0 = None;
  placed_texts : map_Forall (fun _ s => nul_free s) (strs h);
}.

#[export] Instance chains_perm : Proper ((≡ₚ) ==> (≡ₚ) ==> (≡ₚ)) chains.
Proof. unfold chains. intros rs rs' Hr cs cs' Hc. f_equiv; f_equiv; done. Qed.

#[export] Instance placed_perm h : Proper ((≡ₚ) ==> (≡ₚ) ==> (≡ₚ) ==> iff) (placed h).
Proof.
  assert (forall rs rs' cs cs' U U', rs ≡ₚ rs' -> cs ≡ₚ cs' -> U ≡ₚ U' ->
    placed h rs cs U -> placed h rs' cs' U') as Hi.
  { intros rs rs' cs cs' U U' Hrs Hcs HU []. split.
    - by rewrite <- Hcs.
    - by rewrite <- Hcs, <- HU.
    - by rewrite <- Hrs, <- Hcs.
    - by rewrite <- Hrs, <- Hcs.
    - done.
    - done. }
  intros rs rs' Hrs cs cs' Hcs U U' HU. split; apply Hi; done.
Qed.

(** An item that owns what its fields point to, so that it can be released. *)
Definition tidy (c : cell) : Prop :=
  (is_ref (data c) = false -> valuestring (data c) = 0 <-> vtext c = None) /\
  (is_ref (data c) = true -> kids c = []) /\
  (string (data c) = 0 <-> name c = None).

Definition layout h rs cs U : Prop := placed h rs cs U /\ Forall tidy cs.

#[export] Instance layout_perm h : Proper ((≡ₚ) ==> (≡ₚ) ==> (≡ₚ) ==> iff) (layout h).
Proof. unfold layout. intros rs rs' Hrs cs cs' Hcs U U' HU. by rewrite Hrs, Hcs, HU. Qed.

Section facts.
Context {h : heap} {rs : list Z} {cs : list cell} {U : list (Z * text)} (Hp : placed h rs cs U).

Lemma placed_lookup c : c ∈ cs -> exists n, items h !! addr c = Some n /\ core n = data c.
Proof using Hp.
  intros Hc. destruct Hp as [Hi _ _ _ _ _].
  apply (bindings_lookup _ _ (addr c) (data c)) in Hi.
  - rewrite lookup_fmap in Hi. destruct (items h !! addr c); simplify_eq/=. eauto.
  - change (addr c, data c) with (entry c). by apply list_elem_of_fmap_2.
Qed.

Lemma placed_string c p s : c ∈ cs -> (p, s) ∈ owned c -> strs h !! p = Some s.
Proof using Hp.
  intros Hc Hs. destruct Hp as [_ Hst _ _ _ _]. eapply bindings_lookup; [done|].
  apply elem_of_app. left. apply list_elem_of_bind. eauto.
Qed.

Lemma placed_user p s : (p, s) ∈ U -> strs h !! p = Some s.
Proof using Hp.
  intros Hs. destruct Hp as [_ Hst _ _ _ _]. eapply bindings_lookup; [done|].
  apply elem_of_app. by right.
Qed.

Lemma placed_addrs : NoDup (addr <$> cs).
Proof using Hp.
  destruct Hp as [Hi _ _ _ _ _]. apply bindings_NoDup in Hi. by rewrite <- list_fmap_compose in Hi.
Qed.

Lemma placed_links_NoDup : NoDup (chains rs cs ≫= snd).
Proof using Hp. destruct Hp as [_ _ _ Hc _ _]. rewrite <- Hc. apply placed_addrs. Qed.

Lemma placed_on_chain a xl : xl ∈ chains rs cs -> a ∈ xl.2 -> exists c, c ∈ cs /\ addr c = a.
Proof using Hp.
  intros Hx Ha. destruct Hp as [_ _ _ Hc _ _].
  assert (a ∈ addr <$> cs) as Hin.
  { rewrite Hc. apply list_elem_of_bind. eauto. }
  apply list_elem_of_fmap in Hin as (c & -> & Hc'). eauto.
Qed.

Lemma placed_chain xl : xl ∈ chains rs cs -> dlist (items h) xl.1 xl.2.
Proof using Hp. destruct Hp as [_ _ Hch _ _ _]. by apply (proj1 (Forall_forall _ _) Hch). Qed.

Lemma placed_unused p : items h !! p = None -> p ∉ addr <$> cs.
Proof using Hp.
  intros Hn (c & -> & Hc)%list_elem_of_fmap. destruct (placed_lookup c Hc) as (n & Hn' & _).
  congruence.
Qed.

Lemma placed_null_item : 0 ∉ addr <$> cs.
Proof using Hp.
  destruct Hp as [_ _ Hch Hc _ _]. rewrite Hc. intros (xl & Ha & Hx)%list_elem_of_bind.
  eapply (lseg_not_null (items h)); [by apply dlist_lseg, placed_chain|done|done].
Qed.
End facts.

(** ** Changing one item *)

(** Only fields other than the links, the children and the reference bit change. *)
Definition plain_change (f : node -> node) (n : node) : Prop :=
  (forall m, core m = n -> links (f m) = links m /\ core (f m) = f n) /\
  child (f n) = child n /\ is_ref (f n) = is_ref n.

Lemma chain_same c c' :
  is_ref (data c') = is_ref (data c) -> child (data c') = child (data c) -> kids c' = kids c ->
  chain c' = chain c.
Proof. unfold chain. by intros -> -> ->. Qed.

Lemma chains_cons rs c cs : chains rs (c :: cs) ≡ₚ chain c ++ chains rs cs.
Proof. unfold chains. cbn [mbind list_bind]. by rewrite Permutation_app_swap_app. Qed.

Lemma chains_root r rs cs : chains (r :: rs) cs = (r, [r]) :: chains rs cs.
Proof. done. Qed.

Lemma dlists_same_links h h' (L : list (Z * list Z)) :
  (forall a, a ∈ (L ≫= snd) -> links <$> h' !! a = links <$> h !! a) ->
  Forall (fun xl => dlist h xl.1 xl.2) L -> Forall (fun xl => dlist h' xl.1 xl.2) L.
Proof.
  intros Hf. rewrite !Forall_forall. intros HL xl Hx. eapply dlist_same_links, HL, Hx.
  intros a Ha. apply Hf, list_elem_of_bind. eauto.
Qed.

Lemma links_insert (its : gmap Z node) a n n' b :
  its !! a = Some n -> links n' = links n ->
  links <$> <[a := n']> its !! b = links <$> its !! b.
Proof.
  intros Ha Hl. destruct (decide (b = a)) as [->|Hne].
  - rewrite lookup_insert_eq, Ha. simpl. by rewrite Hl.
  - by rewrite lookup_insert_ne.
Qed.

Section changes.
Context {h : heap} {rs : list Z} {cs : list cell} {U : list (Z * text)}.

Lemma wp_load_cell c (Q : node -> heap -> Prop) :
  placed h rs cs U -> c ∈ cs ->
  (forall n, items h !! addr c = Some n -> core n = data c -> Q n h) -> wp (load (addr c)) h Q.
Proof using Type.
  intros Hp Hc HQ. destruct (placed_lookup Hp c Hc) as (n & Hn & Hd). eapply wp_load; eauto.
Qed.

Lemma wp_modify_cell c c' f U' (Q : unit -> heap -> Prop) :
  placed h rs (c :: cs) U -> plain_change f (data c) ->
  addr c' = addr c -> data c' = f (data c) -> kids c' = kids c ->
  owned c' ++ U' ≡ₚ owned c ++ U ->
  (forall h', strs h' = strs h -> placed h' rs (c' :: cs) U' -> Q tt h') ->
  wp (modify (addr c) f) h Q.
Proof using Type.
  intros Hp (Hl & Hch & Hr) Ha Hd Hk Ho HQ.
  destruct (placed_lookup Hp c ltac:(left)) as (n & Hn & Hc).
  destruct (Hl n Hc) as [Hl1 Hl2]. destruct Hp as [Hi Hs HC Hcov Hz Ht].
  eapply wp_modify; [done|]. apply HQ; [done|].
  assert (chain c' = chain c) as Hcc by (apply chain_same; congruence).
  split; simpl.
  - rewrite fmap_insert, Hl2. unfold entry at 1. rewrite Ha, Hd.
    by eapply bindings_update.
  - rewrite Hs. simpl. rewrite <- !(assoc_L app).
    rewrite (Permutation_app_swap_app (owned c)), (Permutation_app_swap_app (owned c')).
    by rewrite Ho.
  - rewrite chains_cons, Hcc, <- chains_cons. eapply dlists_same_links; [|done].
    intros a _. by eapply links_insert.
  - rewrite Ha. rewrite chains_cons, Hcc, <- chains_cons. done.
  - done.
  - done.
Qed.

Lemma wp_free_name c c' s (Q : unit -> heap -> Prop) :
  placed h rs (c :: cs) U -> name c = Some s ->
  c' = Cell (addr c) (data c) (vtext c) None (kids c) ->
  (forall h', strs h' = delete (string (data c)) (strs h) ->
    placed h' rs (c' :: cs) U -> Q tt h') ->
  wp (free_str (string (data c))) h Q.
Proof using Type.
  intros Hp Hn -> HQ.
  assert (owned c ≡ₚ (string (data c), s) :: owned (Cell (addr c) (data c) (vtext c) None (kids c)))
    as Ho.
  { unfold owned. rewrite Hn. simpl. by rewrite (comm app), app_nil_r. }
  eapply wp_free_str.
  { eapply (placed_string Hp c); [left|]. rewrite Ho. left. }
  apply HQ; [done|]. destruct Hp as [Hi Hs HC Hcov Hz Ht]. split; simpl; [done| |done|done| |].
  - apply (bindings_delete _ _ (string (data c)) s). rewrite Hs. simpl. by rewrite Ho.
  - rewrite lookup_delete_None. auto.
  - by apply map_Forall_delete.
Qed.
End changes.

(** ** Allocation *)

Section allocation.
Context `{AllocatorOk node, AllocatorOk text} (malloc_ok : Z -> nat -> Z -> bool).
Context {h : heap} {rs : list Z} {cs : list cell} {U : list (Z * text)}.

Lemma placed_calls h' :
  items h' = items h -> strs h' = strs h -> placed h rs cs U -> placed h' rs cs U.
Proof using Type. intros E1 E2 []. split; by rewrite ?E1, ?E2. Qed.

Lemma wp_new_item (Q : Z -> heap -> Prop) :
  placed h rs cs U ->
  (forall h', placed h' rs cs U -> Q 0 h') ->
  (forall p h', p <> 0 -> p ∉ addr <$> cs -> strs h' = strs h ->
    placed h' (p :: rs) (Cell p blank None None [] :: cs) U -> Q p h') ->
  wp (cJSON_New_Item malloc_ok) h Q.
Proof using All.
  intros Hp Hnull Hok. unfold wp, cJSON_New_Item, malloc_item.
  destruct (malloc_ok _ _ _).
  2: { apply Hnull. by apply placed_calls. }
  set (p := Heap.malloc (items h)).
  assert (items h !! p = None) as Hfresh by apply malloc_fresh.
  assert (p <> 0) as Hne by apply malloc_not_null.
  pose proof (placed_unused Hp _ Hfresh) as Hun.
  apply Hok; [done|done|done|]. destruct Hp as [Hi Hs HC Hcov Hz Ht]. split.
  - cbn [items set_items]. rewrite fmap_insert. apply bindings_insert; [done|]. rewrite lookup_fmap. cbn [addr]. by rewrite Hfresh.
  - done.
  - rewrite chains_root, chains_cons. constructor.
    + exists p. simpl. rewrite lookup_insert_eq. eauto 10.
    + constructor; [by exists 0|]. eapply Forall_impl; [done|].
      intros [x l] Hx. simpl in *. eapply dlist_frame; [|done]. intros a Ha.
      rewrite lookup_insert_ne; [done|]. intros <-.
      destruct (lseg_lookup _ _ _ _ _ (dlist_lseg _ _ _ Hx) Ha) as [n Hn]. congruence.
  - rewrite chains_root, chains_cons. simpl. by rewrite Hcov.
  - done.
  - done.
Qed.

(** The allocator may refuse a request. *)
Definition refuses : Prop := exists f n size, malloc_ok f n size = false.

Lemma wp_strdup str s (Q : Z -> heap -> Prop) :
  placed h rs cs U -> strs h !! str = Some s ->
  (forall h', refuses -> placed h' rs cs U -> Q 0 h') ->
  (forall p h', p <> 0 -> items h' = items h -> placed h' rs cs ((p, s) :: U) -> Q p h') ->
  wp (cJSON_strdup malloc_ok str) h Q.
Proof using All.
  intros Hp Hstr Hnull Hok. apply wp_seq. eapply wp_load_str; [done|].
  unfold wp, malloc_str. destruct (malloc_ok _ _ _) eqn:E.
  2: { apply Hnull; [by eexists _, _, _|by apply placed_calls]. }
  set (p := Heap.malloc (strs h)).
  assert (strs h !! p = None) as Hfresh by apply malloc_fresh.
  assert (p <> 0) as Hne by apply malloc_not_null.
  apply Hok; [done|done|]. destruct Hp as [Hi Hs HC Hcov Hz Ht]. split; simpl; try done.
  - rewrite <- Permutation_middle. by apply bindings_insert.
  - by rewrite lookup_insert_ne.
  - apply map_Forall_insert_2; [by eapply Ht|done].
Qed.
End allocation.

(** ** Walking along a chain *)

Lemma tolower_zero c : tolower c = 0 <-> c = 0.
Proof.
  unfold tolower. destruct (Z.leb_spec 65 c), (Z.leb_spec c 90); simpl; lia.
Qed.

(** Names are compared without regard to the case of letters. *)
Definition same_name (s t : text) : Prop := tolower <$> s = tolower <$> t.

#[export] Instance same_name_dec s t : Decision (same_name s t).
Proof. unfold same_name. apply _. Defined.

Lemma compare_nocase_spec s t :
  nul_free s -> nul_free t -> compare_nocase s t = 0 <-> same_name s t.
Proof.
  intros Hs. revert t. induction Hs as [|c s Hc Hs IH]; intros t Ht; inversion Ht as [|d t' Hd Ht'];
    subst; unfold same_name in *; cbn [compare_nocase fmap list_fmap]; unfold deref; cbn [hd].
  - done.
  - destruct (Z.eqb_spec (tolower 0) (tolower d)) as [E|E].
    + destruct Hd. by apply tolower_zero.
    + split; [|done]. intros Hz. destruct E. change (tolower 0) with 0 in *. lia.
  - destruct (Z.eqb_spec (tolower c) (tolower 0)) as [E|E].
    + destruct Hc. by apply tolower_zero.
    + split; [|done]. intros Hz. destruct E. change (tolower 0) with 0 in *. lia.
  - destruct (Z.eqb_spec (tolower c) (tolower d)) as [E|E].
    + rewrite (proj2 (Z.eqb_neq c 0) Hc). rewrite IH by done. rewrite E. split; congruence.
    + split; [intros; destruct E; lia|congruence].
Qed.

(** A child with the given name. *)
Definition named (s : text) (c : cell) : Prop :=
  match name c with Some t => same_name t s | None => False end.

#[export] Instance named_dec s c : Decision (named s c).
Proof. unfold named. destruct (name c); apply _. Defined.

Section walks.
Context {h : heap}.
Implicit Types (l : list Z) (x : Z).

(** The children of an item, described by cells. *)
Definition described (cs : list cell) (l : list cell) (ks : list Z) : Prop :=
  l ⊆ cs /\ addr <$> l = ks.

Lemma wp_size_loop fuel i x l (Q : Z -> heap -> Prop) :
  lseg (items h) x l 0 -> (length l < fuel)%nat -> i + Z.of_nat (length l) <= INT_MAX ->
  Q (i + Z.of_nat (length l)) h -> wp (size_loop fuel i x) h Q.
Proof using Type.
  revert fuel i x. induction l as [|a l IH]; intros [|fuel] i x Hl Hf Hi HQ;
    try (simpl in Hf; lia); cbn [size_loop].
  - cbn in Hl. subst x. apply wp_return. by rewrite Z.add_0_r in HQ.
  - destruct Hl as (-> & Hne & n & Hn & Hl). cbn [length] in *.
    rewrite (proj2 (Z.eqb_neq _ 0) Hne).
    apply wp_seq, wp_int_succ; [lia|]. apply wp_seq. eapply wp_load; [done|].
    eapply IH; [done|lia|lia|].
    by replace (i + 1 + Z.of_nat (length l)) with (i + Z.of_nat (S (length l))) by lia.
Qed.

Lemma wp_item_loop fuel which x l (Q : Z -> heap -> Prop) :
  lseg (items h) x l 0 -> (length l < fuel)%nat ->
  Q (default 0 (l !! Z.to_nat which)) h -> wp (item_loop fuel which x) h Q.
Proof using Type.
  revert fuel which x. induction l as [|a l IH]; intros [|fuel] which x Hl Hf HQ;
    try (simpl in Hf; lia); cbn [item_loop].
  - cbn in Hl. subst x. by apply wp_return.
  - destruct Hl as (-> & Hne & n & Hn & Hl). cbn [length] in *.
    rewrite (proj2 (Z.eqb_neq _ 0) Hne). cbn [negb andb].
    destruct (Z.ltb_spec 0 which).
    + apply wp_seq. eapply wp_load; [done|]. eapply IH; [done|lia|].
      replace (Z.to_nat which) with (S (Z.to_nat (which - 1))) in HQ by lia. done.
    + apply wp_return. by replace (Z.to_nat which) with 0%nat in HQ by lia.
Qed.

Lemma wp_last_loop fuel p x l q (Q : Z -> heap -> Prop) :
  dseg (items h) p x l q 0 -> l <> [] -> (length l < fuel)%nat -> Q q h ->
  wp (last_loop fuel x) h Q.
Proof using Type.
  revert fuel p x. induction l as [|a l IH]; intros [|fuel] p x Hl Hne Hf HQ;
    try (simpl in Hf; lia); [done|]. cbn [last_loop].
  destruct Hl as (-> & Ha & n & Hn & Hp & Hl). cbn [length] in *.
  rewrite (proj2 (Z.eqb_neq _ 0) Ha). apply wp_seq. eapply wp_load; [done|].
  destruct l as [|b l].
  - destruct Hl as [E ->]. rewrite (proj2 (Z.eqb_eq (next n) 0) E). by apply wp_return.
  - assert (next n <> 0) as Hn0 by (destruct Hl as (E & Hb & _); cbn in E; rewrite E; exact Hb).
    rewrite (proj2 (Z.eqb_neq _ 0) Hn0). eapply IH; [done|done|lia|done].
Qed.

(** One comparison of [cJSON_GetObjectItem]'s loop. *)
Lemma wp_strcasecmp_name rs cs U c string' s n (Q : Z -> heap -> Prop) :
  placed h rs cs U -> c ∈ cs -> tidy c -> core n = data c ->
  string' <> 0 -> strs h !! string' = Some s ->
  (forall d, d = 0 <-> named s c -> Q d h) -> wp (cJSON_strcasecmp (string n) string') h Q.
Proof using Type.
  intros Hp Hc (_ & _ & Hname) Hn Hne Hs HQ. unfold cJSON_strcasecmp.
  replace (string n) with (string (data c)) by (by rewrite <- Hn).
  destruct (Z.eqb_spec (string (data c)) 0) as [E|E].
  - apply wp_return, HQ. unfold named. rewrite (proj1 Hname E), E.
    by destruct (Z.eqb_spec 0 string'); [congruence|].
  - destruct (name c) as [t|] eqn:Et; [|by destruct E; apply Hname].
    rewrite (proj2 (Z.eqb_neq _ 0) Hne).
    assert (strs h !! string (data c) = Some t) as Hst.
    { eapply (placed_string Hp); [done|]. unfold owned. rewrite Et.
      apply elem_of_app. right. left. }
    apply wp_seq. eapply wp_load_str; [done|]. apply wp_seq. eapply wp_load_str; [done|].
    apply wp_return, HQ. unfold named. rewrite Et.
    apply compare_nocase_spec; by eapply (placed_texts _ _ _ _ Hp).
Qed.
End walks.

(** ** Changing the list of children *)

Definition with_kids (c : cell) (ks : list Z) : cell :=
  Cell (addr c) (set_child (hd 0 ks) (data c)) (vtext c) (name c) ks.

Lemma chain_owner c : is_ref (data c) = false -> chain c = [(child (data c), kids c)].
Proof. unfold chain. by intros ->. Qed.

Lemma chains_roots os rs cs : chains (os ++ rs) cs ≡ₚ ((fun a => (a, [a])) <$> os) ++ chains rs cs.
Proof. unfold chains. by rewrite fmap_app, (assoc_L app). Qed.

Lemma roots_bind (os : list Z) : ((fun a => (a, [a])) <$> os) ≫= snd = os.
Proof. induction os as [|a os IH]; [done|]. cbn. by f_equal. Qed.

(** The children of [c] and the roots [ins] become the children [ks] and the roots [outs]. *)
Lemma placed_rechain h its ins outs rs c ks cs U :
  placed h (ins ++ rs) (c :: cs) U -> is_ref (data c) = false ->
  core <$> its = <[addr c := set_child (hd 0 ks) (data c)]> (core <$> items h) ->
  (forall a, a ∉ ins ++ kids c -> links <$> its !! a = links <$> items h !! a) ->
  (forall a, a ∈ outs -> dlist its a [a]) -> dlist its (hd 0 ks) ks ->
  outs ++ ks ≡ₚ ins ++ kids c ->
  placed (set_items its h) (outs ++ rs) (with_kids c ks :: cs) U.
Proof.
  intros Hp Hr Hc Hl Ho Hk Hperm.
  assert (is_ref (data (with_kids c ks)) = false) as Hr' by done.
  pose proof (placed_links_NoDup Hp) as Hnd.
  destruct Hp as [Hi Hs HC Hcov Hz Ht].
  rewrite chains_roots, chains_cons, (chain_owner c Hr) in HC, Hcov, Hnd.
  split; [| | | |done|done].
  - cbn [items set_items]. rewrite Hc. unfold entry at 1. cbn [fmap list_fmap] in *.
    by eapply bindings_update.
  - done.
  - rewrite chains_roots, chains_cons, (chain_owner _ Hr').
    apply Forall_app in HC as [_ [_ HC]%Forall_app].
    apply Forall_app. split; [|apply Forall_app; split].
    + apply Forall_fmap, Forall_forall. exact Ho.
    + by constructor; [|constructor].
    + eapply dlists_same_links; [|done]. intros a Ha. apply Hl. intros Hin.
      rewrite !bind_app, roots_bind in Hnd.
      apply NoDup_app in Hnd as (_ & Hd1 & (_ & Hd2 & _)%NoDup_app).
      apply elem_of_app in Hin as [Hin|Hin].
      * apply (Hd1 a Hin), elem_of_app. by right.
      * apply (Hd2 a); [cbn; by rewrite app_nil_r|done].
  - rewrite chains_roots, chains_cons, (chain_owner _ Hr'), !bind_app, roots_bind.
    rewrite !bind_app, roots_bind in Hcov. cbn [mbind list_bind snd kids with_kids] in *.
    rewrite app_nil_r in *. rewrite (assoc app), Hperm, <- (assoc app). exact Hcov.
Qed.

Section rechaining.
Context {h : heap} {rs : list Z} {c : cell} {cs : list cell} {U : list (Z * text)}.
Context (Hr : is_ref (data c) = false).

(** What is known about an item and the list of its children. *)
Lemma owner_facts (Hp : placed h rs (c :: cs) U) :
  exists n, items h !! addr c = Some n /\ core n = data c /\ child n = child (data c) /\
    dlist (items h) (child (data c)) (kids c) /\ child (data c) = hd 0 (kids c) /\
    (length (kids c) < S (size (items h)))%nat.
Proof using Hr.
  destruct (placed_lookup Hp c ltac:(left)) as (n & Hn & Hd).
  assert (dlist (items h) (child (data c)) (kids c)) as Hl.
  { apply (placed_chain Hp (child (data c), kids c)). rewrite chains_cons, chain_owner by done.
    left. }
  exists n. split_and!; [done|done| |done| |].
  - by rewrite <- Hd.
  - destruct (kids c) as [|k ks]; [|by apply dlist_head in Hl]. by apply (dlist_null _ _ _ Hl).
  - apply Nat.lt_succ_r. eapply lseg_length, dlist_lseg, Hl.
Qed.

Lemma kids_dlist_facts x (Hp : placed h (x :: rs) (c :: cs) U) :
  x <> 0 /\ x ∉ kids c /\ exists m, items h !! x = Some m /\ links m = (0, 0).
Proof using Hr.
  pose proof (placed_links_NoDup Hp) as Hnd.
  rewrite chains_root, chains_cons, chain_owner in Hnd by done.
  cbn in Hnd. apply NoDup_cons in Hnd as [Hx _].
  assert (dlist (items h) x [x]) as [q (_ & Hne & m & Hm & Hpv & Hnx & _)].
  { apply (placed_chain Hp (x, [x])). rewrite chains_root. left. }
  split; [exact Hne|]. split.
  - intros Hin. apply Hx, elem_of_app. by left.
  - exists m. split; [done|]. unfold links. by rewrite Hpv, Hnx.
Qed.
End rechaining.

Lemma singleton_dlist (its : gmap Z node) a n :
  a <> 0 -> its !! a = Some n -> links n = (0, 0) -> dlist its a [a].
Proof.
  intros Ha Hn Hl. injection Hl as Hpv Hnx. exists a. simpl. split; [done|]. split; [exact Ha|].
  exists n. by split_and!.
Qed.

Lemma set_child_same (n : node) v : child n = v -> set_child v n = n.
Proof. intros <-. by destruct n. Qed.

Lemma dseg_last_elem (its : gmap Z node) p x l q y :
  dseg its p x l q y -> l <> [] -> last l = Some q.
Proof.
  revert p x. induction l as [|a l IH]; intros p x D Hne; [done|].
  destruct D as (-> & _ & n & _ & _ & D). destruct l as [|b l]; [by destruct D as [_ ->]|].
  by apply (IH _ _ D).
Qed.

(** [suffix_object]: an item that stands alone is put behind the last one of a chain. *)
Lemma suffix_dlist (its : gmap Z node) x ks q i :
  dseg its 0 x ks q 0 -> ks <> [] -> dlist its i [i] -> NoDup (ks ++ [i]) ->
  exists its1 its2, st_next its q i = Some its1 /\ st_prev its1 i q = Some its2 /\
    links_only its its2 (ks ++ [i]) /\ dlist its2 x (ks ++ [i]).
Proof.
  intros D Hne (q' & _ & Hi & n & Hn & Hp & Hnx & _) Hnd.
  apply NoDup_app_parts in Hnd as (Hnd & _ & Hd & _).
  assert (i ∉ ks) as Hik by (intros H; apply (Hd i H); left).
  destruct (dseg_last _ _ _ _ _ _ D Hne) as (Hq & m & Hm & _).
  pose proof (lseg_not_null _ _ _ _ _ (dseg_lseg _ _ _ _ _ _ D) Hq) as Hq0.
  destruct (set_end its x ks q 0 i D Hnd) as (its1 & E1 & L1 & D1).
  unfold st_next_opt in E1. rewrite decide_False in E1 by exact Hq0.
  assert (its1 !! i = Some n) as Hn1 by (by rewrite (proj2 L1)).
  exists its1, (<[i := set_prev q n]> its1). split; [done|].
  split; [by apply st_prev_ok|]. split.
  - eapply links_only_trans.
    + eapply (links_only_mono _ _ ks); [|done]. intros a Ha. apply elem_of_app. by left.
    + eapply links_only_insert; [done|done|]. apply elem_of_app. right. left.
  - exists i. apply dseg_app. exists q, i. split.
    + eapply (dseg_frame its1).
      * intros a Ha. rewrite lookup_insert_ne; [done|]. by intros ->.
      * by destruct ks.
    + eapply (dseg_cons _ _ _ _ _ _ (set_prev q n)); [exact Hi|apply lookup_insert_eq|done|].
      split; [exact Hnx|done].
Qed.

Section operations.
Context {h : heap} {rs : list Z} {c : cell} {cs : list cell} {U : list (Z * text)}.
Context (Hr : is_ref (data c) = false).

(** [array->child = item] when there are no children yet. *)
Lemma wp_first_kid i (Q : unit -> heap -> Prop) :
  placed h (i :: rs) (c :: cs) U -> kids c = [] ->
  (forall h', strs h' = strs h -> placed h' rs (with_kids c [i] :: cs) U -> Q tt h') ->
  wp (modify (addr c) (set_child i)) h Q.
Proof using Hr.
  intros Hp Ek HQ. destruct (owner_facts Hr Hp) as (n & Hn & Hcore & _).
  destruct (kids_dlist_facts Hr i Hp) as (Hi & _ & m & Hm & Hlinks).
  eapply wp_modify; [done|]. apply HQ; [done|].
  apply (placed_rechain _ _ [i] [] rs c [i]); [done|done| | | | |by rewrite Ek].
  - rewrite fmap_insert. f_equal. cbn. by rewrite <- Hcore.
  - intros a _. by eapply links_insert.
  - intros a Ha. by apply not_elem_of_nil in Ha.
  - cbn [hd]. eapply (dlist_same_links (items h)).
    + intros a _. by eapply links_insert.
    + by eapply singleton_dlist.
Qed.

(** [suffix_object] behind the last child. *)
Lemma wp_next_kid i q (Q : unit -> heap -> Prop) :
  placed h (i :: rs) (c :: cs) U -> last (kids c) = Some q ->
  (forall h', strs h' = strs h -> placed h' rs (with_kids c (kids c ++ [i]) :: cs) U -> Q tt h') ->
  wp (suffix_object q i) h Q.
Proof using Hr.
  intros Hp Hq HQ. destruct (owner_facts Hr Hp) as (n & Hn & Hcore & Hch & [q' D] & Hhd & _).
  destruct (kids_dlist_facts Hr i Hp) as (Hi & Hik & m & Hm & Hlinks).
  assert (kids c <> []) as Hne by (intros E; by rewrite E in Hq).
  rewrite (dseg_last_elem _ _ _ _ _ _ D Hne) in Hq. injection Hq as ->.
  destruct (suffix_dlist (items h) (child (data c)) (kids c) q i) as
    (its1 & its2 & E1 & E2 & L2 & D2); [done|done|by eapply singleton_dlist| |].
  { pose proof (placed_links_NoDup Hp) as Hnd.
    rewrite chains_root, chains_cons, chain_owner in Hnd by done.
    apply NoDup_app. split; [|split; [|apply NoDup_singleton]].
    - cbn in Hnd. by apply NoDup_cons in Hnd as [_ [Hnd _]%(NoDup_app (kids c))].
    - intros a Ha ->%list_elem_of_singleton. done. }
  apply wp_seq. eapply wp_relink; [exact E1|]. eapply wp_relink; [exact E2|].
  change (set_items its2 (set_items its1 h)) with (set_items its2 h). apply HQ; [done|].
  assert (hd 0 (kids c ++ [i]) = child (data c)) as Ehd by (rewrite Hhd; by destruct (kids c)).
  apply (placed_rechain _ _ [i] [] rs c (kids c ++ [i])); [done|done| | | | |].
  - rewrite (proj1 L2), Ehd, set_child_same by done. symmetry. apply insert_id.
    rewrite lookup_fmap, Hn. cbn [fmap option_fmap option_map]. by rewrite Hcore.
  - intros a Ha. apply (links_only_links _ _ _ _ L2). set_solver.
  - intros a Ha. by apply not_elem_of_nil in Ha.
  - by rewrite Ehd.
  - symmetry. apply Permutation_cons_append.
Qed.

Lemma wp_add_item i (Q : unit -> heap -> Prop) :
  placed h (i :: rs) (c :: cs) U ->
  (forall h', strs h' = strs h -> placed h' rs (with_kids c (kids c ++ [i]) :: cs) U -> Q tt h') ->
  wp (cJSON_AddItemToArray (addr c) i) h Q.
Proof using Hr.
  intros Hp HQ. destruct (owner_facts Hr Hp) as (n & Hn & Hcore & Hch & [q D] & Hhd & Hlen).
  destruct (kids_dlist_facts Hr i Hp) as (Hi & _).
  apply wp_seq. eapply wp_load; [done|]. cbn zeta.
  rewrite (proj2 (Z.eqb_neq _ 0) Hi), Hch.
  destruct (decide (kids c = [])) as [Ek|Ek].
  - rewrite Hhd, Ek. cbn [hd Z.eqb]. rewrite Ek in HQ. by apply wp_first_kid.
  - assert (child (data c) <> 0) as Hc0.
    { destruct (kids c) as [|k ks]; [done|]. destruct D as (-> & Hk & _). exact Hk. }
    rewrite (proj2 (Z.eqb_neq _ 0) Hc0). apply wp_seq, wp_fuelled.
    eapply wp_last_loop; [done|done|done|]. apply wp_next_kid; [done| |done].
    by eapply dseg_last_elem.
Qed.
End operations.

(** ** Taking a child out of a chain, and putting another one in its place *)

Lemma dlist_hd (its : gmap Z node) p l : dlist its p l -> p = hd 0 l.
Proof.
  intros D. destruct l as [|a l]; [by apply (dlist_null _ _ _ D)|by apply dlist_head in D].
Qed.

Lemma st_next_opt_other (its its1 : gmap Z node) p v a :
  st_next_opt its p v = Some its1 -> p = 0 \/ a <> p -> its1 !! a = its !! a.
Proof.
  unfold st_next_opt. case_decide as E; [by intros [= ->]|].
  intros (n & Hn & ->)%st_next_Some [->|Hne]; [by destruct E|]. by rewrite lookup_insert_ne.
Qed.

Lemma st_prev_opt_other (its its1 : gmap Z node) p v a :
  st_prev_opt its p v = Some its1 -> p = 0 \/ a <> p -> its1 !! a = its !! a.
Proof.
  unfold st_prev_opt. case_decide as E; [by intros [= ->]|].
  intros (n & Hn & ->)%st_prev_Some [->|Hne]; [by destruct E|]. by rewrite lookup_insert_ne.
Qed.

Lemma st_prev_opt_core (its its1 : gmap Z node) p v :
  st_prev_opt its p v = Some its1 -> core <$> its1 = core <$> its.
Proof.
  unfold st_prev_opt. case_decide; [by intros [= ->]|].
  intros (n & Hn & ->)%st_prev_Some. by eapply core_insert.
Qed.

(** [if (...) array->child = v], which leaves the links alone. *)
Lemma wp_set_head (b : bool) h c its v (Q : unit -> heap -> Prop) :
  (exists n, its !! addr c = Some n /\ core n = data c) ->
  (b = false -> child (data c) = v) ->
  (forall its', core <$> its' = <[addr c := set_child v (data c)]> (core <$> its) ->
    (forall a, links <$> its' !! a = links <$> its !! a) -> Q tt (set_items its' h)) ->
  wp (when b (modify (addr c) (set_child v))) (set_items its h) Q.
Proof.
  intros (n & Hn & Hc) Hb HQ. apply wp_when; intros E.
  - eapply wp_modify; [exact Hn|]. apply HQ.
    + cbn [items set_items]. rewrite fmap_insert. f_equal. by rewrite <- Hc.
    + intros a. cbn [items set_items]. by eapply links_insert.
  - apply HQ; [|done]. rewrite set_child_same by auto. symmetry. apply insert_id.
    rewrite lookup_fmap, Hn. cbn [fmap option_fmap option_map]. by rewrite Hc.
Qed.

(** [c->next = c->prev = 0]: the item stands alone. *)
Lemma wp_isolate x h its (Q : unit -> heap -> Prop) :
  is_Some (its !! x) -> x <> 0 ->
  (forall its', core <$> its' = core <$> its -> (forall a, a <> x -> its' !! a = its !! a) ->
    dlist its' x [x] -> Q tt (set_items its' h)) ->
  wp (modify x (set_links 0 0)) (set_items its h) Q.
Proof.
  intros [n Hn] Hx HQ. eapply wp_modify; [exact Hn|]. cbn [items set_items]. apply HQ.
  - by eapply core_insert.
  - intros a Ha. by apply lookup_insert_ne.
  - eapply singleton_dlist; [done|apply lookup_insert_eq|done].
Qed.

Lemma core_lookup (its its' : gmap Z node) a n :
  core <$> its' = core <$> its -> its !! a = Some n ->
  exists n', its' !! a = Some n' /\ core n' = core n.
Proof.
  intros Hc Ha. apply (f_equal (lookup a)) in Hc. rewrite !lookup_fmap, Ha in Hc.
  destruct (its' !! a) as [n'|]; [|done]. apply (inj Some) in Hc. eauto.
Qed.

(** What [placed] says about one child of an item. *)
Lemma child_facts {h rs c cs U} k1 x k2 :
  is_ref (data c) = false -> placed h rs (c :: cs) U -> kids c = k1 ++ x :: k2 ->
  x <> 0 /\ NoDup (k1 ++ x :: k2) /\ x ∉ k1 ++ k2 /\
  dlist (items h) (child (data c)) (k1 ++ x :: k2) /\
  exists nx, items h !! x = Some nx.
Proof.
  intros Hr Hp Ek. destruct (owner_facts Hr Hp) as (n & _ & _ & _ & HD & _).
  rewrite Ek in HD. pose proof (dlist_NoDup _ _ _ HD) as Hnd.
  assert (x ∈ k1 ++ x :: k2) as Hx by (apply elem_of_app; right; left).
  split; [exact (lseg_not_null _ _ _ _ _ (dlist_lseg _ _ _ HD) Hx)|].
  split; [done|]. split; [|split; [done|]].
  - apply NoDup_app in Hnd as (_ & Hd & [Hx2 _]%NoDup_cons). intros [H|H]%elem_of_app; [|done].
    apply (Hd x H). left.
  - exact (lseg_lookup _ _ _ _ _ (dlist_lseg _ _ _ HD) Hx).
Qed.

Lemma first_child {h rs c cs U} k1 x k2 :
  is_ref (data c) = false -> placed h rs (c :: cs) U -> kids c = k1 ++ x :: k2 ->
  x = child (data c) <-> k1 = [].
Proof.
  intros Hr Hp Ek. destruct (child_facts _ _ _ Hr Hp Ek) as (_ & _ & Hx & HD & _).
  apply dlist_hd in HD. rewrite HD. destruct k1 as [|k k1]; [done|]. simpl.
  split; [|done]. intros ->. destruct Hx. left.
Qed.

Section detaching.
Context {h : heap} {rs : list Z} {c : cell} {cs : list cell} {U : list (Z * text)}.
Context (Hr : is_ref (data c) = false).

Lemma wp_detach which (Q : Z -> heap -> Prop) :
  placed h rs (c :: cs) U ->
  (kids c !! Z.to_nat which = None -> Q 0 h) ->
  (forall k1 x k2 h', kids c = k1 ++ x :: k2 -> length k1 = Z.to_nat which -> strs h' = strs h ->
    placed h' (x :: rs) (with_kids c (k1 ++ k2) :: cs) U -> Q x h') ->
  wp (cJSON_DetachItemFromArray (addr c) which) h Q.
Proof using Hr.
  intros Hp Hnone HQ. destruct (owner_facts Hr Hp) as (n & Hn & Hcore & Hch & HD & Hhd & Hlen).
  apply wp_seq. eapply wp_load; [done|]. apply wp_seq, wp_fuelled. rewrite Hch.
  eapply wp_item_loop; [exact (dlist_lseg _ _ _ HD)|done|].
  destruct (kids c !! Z.to_nat which) as [x|] eqn:Ex; [|by apply wp_return, Hnone].
  apply list_elem_of_split_length in Ex as (k1 & k2 & Ek & Hk1). cbn [from_option id].
  destruct (child_facts _ _ _ Hr Hp Ek) as (Hx & Hnd & Hx12 & HD' & nx & Hnx).
  pose proof (first_child _ _ _ Hr Hp Ek) as Hfirst.
  rewrite (proj2 (Z.eqb_neq _ 0) Hx). apply wp_seq. eapply wp_load; [done|].
  destruct (dlist_unlink _ _ _ _ _ _ HD' Hnx) as (its1 & its2 & E1 & E2 & L2 & D2).
  destruct (dlist_neighbours _ _ _ _ _ _ HD' Hnx) as (Hpv & Hnxt & _).
  assert (its1 !! x = Some nx) as Hnx1.
  { rewrite <- Hnx. eapply st_next_opt_other; [exact E1|]. destruct Hpv as [?|Hpv]; [by left|].
    right. intros ->. apply Hx12, elem_of_app. by left. }
  assert (its2 !! x = Some nx) as Hnx2 by (by rewrite (proj2 L2)).
  apply wp_seq. eapply wp_relink; [exact E1|]. apply wp_seq. eapply wp_load; [exact Hnx1|].
  apply wp_seq. eapply wp_relink; [exact E2|].
  change (set_items its2 (set_items its1 h)) with (set_items its2 h).
  destruct (core_lookup _ _ _ _ (proj1 L2) Hn) as (n2 & Hn2 & Hc2).
  apply wp_seq. eapply wp_load; [exact Hn2|]. apply wp_seq. eapply wp_load; [exact Hnx2|].
  assert (child n2 = child (data c)) as Hch2.
  { rewrite <- Hcore, <- Hc2. done. }
  apply dlist_hd in D2 as Ehd. rewrite Hch2. apply wp_seq.
  assert (x =? child (data c) = true -> next nx = hd 0 (k1 ++ k2)) as Ht.
  { intros E%Z.eqb_eq%Hfirst. subst k1. exact Ehd. }
  assert (x =? child (data c) = false -> child (data c) = hd 0 (k1 ++ k2)) as Hf.
  { intros E%Z.eqb_neq. destruct k1 as [|k k1]; [|exact Ehd]. by destruct E; apply Hfirst. }
  assert (forall R, wp (when (x =? child (data c)) (modify (addr c) (set_child (hd 0 (k1 ++ k2)))))
    (set_items its2 h) R ->
    wp (when (x =? child (data c)) (modify (addr c) (set_child (next nx)))) (set_items its2 h) R)
    as Hw.
  { intros R. destruct (x =? child (data c)); [by rewrite Ht|done]. }
  apply Hw. apply wp_set_head; [exists n2; split; [done|congruence]|done|].
  intros its3 C3 L3. apply wp_seq. apply wp_isolate; [|done|].
  { specialize (L3 x). rewrite Hnx2 in L3. destruct (its3 !! x); [eauto|done]. }
  intros its4 C4 L4 D4. apply wp_return, (HQ k1 x k2); [done|done|done|].
  apply (placed_rechain _ _ [] [x] rs c (k1 ++ k2)); [done|done| | | | |].
  - by rewrite C4, C3, (proj1 L2).
  - intros a Ha. rewrite Ek in Ha. cbn [app] in Ha.
    assert (a <> x /\ a ∉ k1 ++ k2) as [Hax Ha12] by set_solver.
    rewrite L4, L3 by done. by apply (links_only_links _ _ _ _ L2).
  - intros a ->%list_elem_of_singleton. done.
  - eapply (dlist_same_links its2); [|by rewrite Ehd in D2].
    intros a Ha. rewrite L4, L3; [done|congruence].
  - rewrite Ek. cbn [app]. apply Permutation_middle.
Qed.

(** Everything [cJSON_ReplaceItemInArray] does before it deletes the old child. *)
Lemma wp_replace which new (Q : unit -> heap -> Prop) :
  placed h (new :: rs) (c :: cs) U ->
  (kids c !! Z.to_nat which = None -> Q tt h) ->
  (forall k1 x k2 h', kids c = k1 ++ x :: k2 -> length k1 = Z.to_nat which -> strs h' = strs h ->
    placed h' (x :: rs) (with_kids c (k1 ++ new :: k2) :: cs) U -> wp (cJSON_Delete x) h' Q) ->
  wp (cJSON_ReplaceItemInArray (addr c) which new) h Q.
Proof using Hr.
  intros Hp Hnone HQ. destruct (owner_facts Hr Hp) as (n & Hn & Hcore & Hch & HD & Hhd & Hlen).
  destruct (kids_dlist_facts Hr new Hp) as (Hnew & Hnk & m & Hm & Hlinks).
  apply wp_seq. eapply wp_load; [done|]. apply wp_seq, wp_fuelled. rewrite Hch.
  eapply wp_item_loop; [exact (dlist_lseg _ _ _ HD)|done|].
  destruct (kids c !! Z.to_nat which) as [x|] eqn:Ex; [|by apply wp_return, Hnone].
  apply list_elem_of_split_length in Ex as (k1 & k2 & Ek & Hk1). cbn [from_option id].
  destruct (child_facts _ _ _ Hr Hp Ek) as (Hx & Hnd & Hx12 & HD' & nx & Hnx).
  pose proof (first_child _ _ _ Hr Hp Ek) as Hfirst.
  assert (new <> x /\ new ∉ k1 /\ new ∉ k2) as (Hnx' & Hn1 & Hn2).
  { rewrite Ek in Hnk. set_solver. }
  rewrite (proj2 (Z.eqb_neq _ 0) Hx). apply wp_seq. eapply wp_load; [done|].
  set (m1 := set_links (next nx) (prev nx) m). set (its1 := <[new := m1]> (items h)).
  apply wp_seq. eapply wp_modify; [exact Hm|]. fold m1 its1.
  assert (its1 !! new = Some m1) as Hm1 by apply lookup_insert_eq.
  destruct (dlist_split _ _ _ _ _ _ HD' Hnx) as (_ & D1 & q & D2).
  assert (forall a, a <> new -> its1 !! a = items h !! a) as F1.
  { intros a Ha. by apply lookup_insert_ne. }
  destruct (dlist_splice its1 (child (data c)) k1 k2 new m1 x) as (i2 & its2 & E1 & E2 & L2 & Dn).
  { eapply dseg_frame; [|exact D1]. intros a Ha. apply F1. by intros ->. }
  { exists x, q. eapply dseg_frame; [|exact D2]. intros a Ha. apply F1. by intros ->. }
  { apply NoDup_app in Hnd as (Hd1 & Hd & [Hx2 Hd2]%NoDup_cons). apply NoDup_app.
    split; [done|]. split; [|by constructor].
    intros a Ha [->|Ha2]%elem_of_cons; [done|]. apply (Hd a Ha). by right. }
  { exact Hnew. }
  { exact Hm1. }
  destruct (dlist_neighbours _ _ _ _ _ _ HD' Hnx) as (Hpv & Hnxt & Hpn).
  destruct (st_opt_swap _ _ _ _ _ _ _ E1 E2 Hpn) as (its1' & E1' & E2').
  change (prev_of m1) with (prev nx) in *. change (next_of m1) with (next nx) in *.
  apply wp_seq. eapply wp_load; [exact Hm1|]. apply wp_seq. eapply wp_relink; [exact E1'|].
  change (set_items its1' (set_items its1 h)) with (set_items its1' h).
  assert (core <$> its1' = core <$> items h) as C1.
  { rewrite (st_prev_opt_core _ _ _ _ E1'). by eapply core_insert. }
  assert (its1' !! new = Some m1) as Hm1'.
  { rewrite <- Hm1. eapply st_prev_opt_other; [exact E1'|].
    destruct Hnxt as [?|Hnxt]; [by left|]. right. intros ->. done. }
  destruct (core_lookup _ _ _ _ C1 Hn) as (n2 & Hn2' & Hc2).
  assert (child n2 = child (data c)) as Hch2 by (rewrite <- Hcore, <- Hc2; done).
  apply wp_seq. eapply wp_load; [exact Hn2'|]. apply wp_seq. eapply wp_load; [exact Hm1'|].
  rewrite Hch2. apply dlist_hd in Dn as Ehd. apply wp_seq.
  assert (forall its3, core <$> its3 =
      <[addr c := set_child (hd 0 (k1 ++ new :: k2)) (data c)]> (core <$> its2) ->
    (forall a, links <$> its3 !! a = links <$> its2 !! a) ->
    wp (_ ← modify x (set_links 0 0); cJSON_Delete x) (set_items its3 h) Q) as Hrest.
  { intros its3 C3 L3. apply wp_seq. apply wp_isolate; [|done|].
    { specialize (L3 x). rewrite (proj2 L2), F1, Hnx in L3 by done.
      destruct (its3 !! x); [eauto|done]. }
    intros its4 C4 L4 D4. apply (HQ k1 x k2); [done|done|done|].
    apply (placed_rechain _ _ [new] [x] rs c (k1 ++ new :: k2)); [done|done| | | | |].
    - rewrite C4, C3, (proj1 L2). f_equal. by eapply core_insert.
    - intros a Ha. rewrite Ek in Ha.
      assert (a <> x /\ a <> new /\ a ∉ k1 ++ k2) as (Hax & Han & Ha12) by set_solver.
      rewrite L4, L3 by done. rewrite (links_only_links _ _ _ _ L2 Ha12). by rewrite F1.
    - intros a ->%list_elem_of_singleton. done.
    - eapply (dlist_same_links its2); [|by rewrite Ehd in Dn].
      intros a Ha. rewrite L4, L3; [done|]. set_solver.
    - rewrite Ek. cbn [app]. rewrite <- !Permutation_middle. constructor. }
  apply (dlist_prev_null _ _ _ _ _ _ HD') in Hnx as Hpnull.
  destruct (Z.eqb_spec x (child (data c))) as [E|E].
  - apply Hfirst in E. subst k1. unfold st_next_opt in E2'.
    rewrite decide_True in E2' by (by apply Hpnull). injection E2' as ->.
    eapply (wp_set_head true); [exists n2; split; [done|congruence]|done|done].
  - assert (prev nx <> 0) as Hp0 by (intros E0; by apply E, Hfirst, Hpnull).
    unfold st_next_opt in E2'. rewrite decide_False in E2' by exact Hp0.
    eapply wp_relink; [exact E2'|]. apply Hrest; [|done].
    symmetry. rewrite set_child_same; [|by destruct k1; [destruct E; apply Hfirst|]].
    apply insert_id. rewrite (proj1 L2).
    replace (core <$> its1) with (core <$> items h) by (symmetry; by eapply core_insert).
    rewrite lookup_fmap, Hn. cbn [fmap option_fmap option_map].
    by rewrite Hcore.
Qed.
End detaching.

(** ** Trees *)

Inductive tree := Tree {
  root : Z;
  tdata : node;
  tvtext : option text;
  tname : option text;
  tkids : list tree;
}.

Section tree_induction.
Context (P : tree -> Prop) (HP : forall a n v s ts, Forall P ts -> P (Tree a n v s ts)).

Lemma tree_induction (t : tree) : P t.
Proof using HP.
  revert t. fix IH 1. intros [a n v s ts]. apply HP.
  induction ts as [|t ts IHts]; constructor; [apply IH|apply IHts].
Qed.
End tree_induction.

Definition tcell (t : tree) : cell :=
  Cell (root t) (tdata t) (tvtext t) (tname t) (root <$> tkids t).

(** The items of a tree, and of several ones. *)
Fixpoint cells (t : tree) : list cell := tcell t :: concat (map cells (tkids t)).
Definition forest (ts : list tree) : list cell := concat (map cells ts).

Lemma cells_eq t : cells t = tcell t :: forest (tkids t).
Proof. by destruct t. Qed.

Lemma forest_cons t ts : forest (t :: ts) = cells t ++ forest ts.
Proof. done. Qed.

Lemma forest_app ts1 ts2 : forest (ts1 ++ ts2) = forest ts1 ++ forest ts2.
Proof. unfold forest. by rewrite map_app, concat_app. Qed.

#[export] Instance forest_perm : Proper ((≡ₚ) ==> (≡ₚ)) forest.
Proof.
  intros ts ts'. induction 1 as [|t ts ts' _ IH|t u ts|ts ts' ts'' _ IH1 _ IH2]; [done| | |by etrans].
  - by rewrite !forest_cons, IH.
  - rewrite !forest_cons. by rewrite Permutation_app_swap_app.
Qed.

Lemma root_in_cells t : tcell t ∈ cells t.
Proof. rewrite cells_eq. left. Qed.

(** Every item of a tree but its root is a child of one other. *)
Lemma cells_cover t :
  Forall tidy (cells t) -> addr <$> cells t ≡ₚ root t :: ((cells t ≫= chain) ≫= snd).
Proof.
  induction t as [a n v s ts IH] using tree_induction. rewrite cells_eq. intros [Ht Hts]%Forall_cons.
  cbn [tkids] in *. cbn [fmap list_fmap mbind list_bind]. rewrite bind_app. cbn [addr tcell root].
  constructor.
  assert (addr <$> forest ts ≡ₚ (root <$> ts) ++ ((forest ts ≫= chain) ≫= snd)) as Hf.
  { clear Ht. induction IH as [|t ts IHt _ IHts]; [done|]. rewrite forest_cons in *.
    apply Forall_app in Hts as [Ht Hts]. rewrite fmap_app, IHt, IHts by done.
    cbn [fmap list_fmap]. rewrite !bind_app. cbn [app]. constructor.
    apply Permutation_app_swap_app. }
  rewrite Hf. f_equiv. unfold chain, tcell. cbn [data kids tdata tkids root].
  destruct (is_ref n) eqn:Er; [|cbn; by rewrite app_nil_r].
  destruct Ht as (_ & Hk & _). cbn in Hk. by rewrite Hk.
Qed.

(** A store without some of its addresses. *)
Definition without {V} (l : list Z) (m : gmap Z V) : gmap Z V := foldr delete m l.

Lemma lookup_without {V} l (m : gmap Z V) a :
  without l m !! a = if decide (a ∈ l) then None else m !! a.
Proof.
  induction l as [|b l IH]; [done|]. change (without (b :: l) m) with (delete b (without l m)).
  destruct (decide (a = b)) as [->|Hne].
  - rewrite lookup_delete_eq. rewrite decide_True; [done|left].
  - rewrite lookup_delete_ne, IH by done.
    destruct (decide (a ∈ l)), (decide (a ∈ b :: l)); try done; set_solver.
Qed.

Lemma without_ne {V} l (m : gmap Z V) a : a ∉ l -> without l m !! a = m !! a.
Proof. intros. rewrite lookup_without. by rewrite decide_False. Qed.

Lemma without_app {V} l1 l2 (m : gmap Z V) : without (l1 ++ l2) m = without l1 (without l2 m).
Proof. unfold without. by rewrite foldr_app. Qed.

Lemma without_comm {V} l1 l2 (m : gmap Z V) : without l1 (without l2 m) = without l2 (without l1 m).
Proof.
  apply map_eq. intros a. rewrite !lookup_without.
  by destruct (decide (a ∈ l1)), (decide (a ∈ l2)).
Qed.

Lemma fmap_without {V W} (f : V -> W) l (m : gmap Z V) : f <$> without l m = without l (f <$> m).
Proof.
  induction l as [|a l IH]; [done|]. change (without (a :: l) m) with (delete a (without l m)).
  by rewrite fmap_delete, IH.
Qed.

Lemma bindings_without {V} (m : gmap Z V) l1 l2 :
  map_to_list m ≡ₚ l1 ++ l2 -> map_to_list (without l1.*1 m) ≡ₚ l2.
Proof.
  revert m l2. induction l1 as [|[a x] l1 IH]; intros m l2 Hm; [done|].
  change (without _ m) with (delete a (without l1.*1 m)).
  apply (bindings_delete _ _ a x), IH. rewrite Hm. apply Permutation_middle.
Qed.

(** ** Releasing a tree *)

(** [o] is the text the string field [p] holds in the store [ss]. *)
Definition holds_text (ss : gmap Z text) (p : Z) (o : option text) : Prop :=
  match o with Some s => p <> 0 /\ ss !! p = Some s | None => p = 0 end.

(** The items and strings of a tree are where its fields say. *)
Inductive hosts (its : gmap Z node) (ss : gmap Z text) : tree -> Prop :=
| hosts_tree a d v s ts n :
    its !! a = Some n -> core n = d ->
    (is_ref d = true -> ts = []) ->
    (is_ref d = false -> lseg its (child d) (root <$> ts) 0 /\ holds_text ss (valuestring d) v) ->
    holds_text ss (string d) s -> Forall (hosts its ss) ts ->
    hosts its ss (Tree a d v s ts).

Definition addrs (ts : list tree) : list Z := addr <$> forest ts.
Definition strings (ts : list tree) : list Z := (forest ts ≫= owned).*1.

Lemma addrs_cons t ts : addrs (t :: ts) = root t :: addrs (tkids t) ++ addrs ts.
Proof. unfold addrs. by rewrite forest_cons, fmap_app, cells_eq. Qed.

Lemma strings_cons t ts :
  strings (t :: ts) = (owned (tcell t)).*1 ++ strings (tkids t) ++ strings ts.
Proof.
  unfold strings. rewrite forest_cons, bind_app, fmap_app, cells_eq. simpl.
  by rewrite fmap_app, (assoc_L app).
Qed.

Lemma owned_strings t :
  (owned (tcell t)).*1 =
  (if is_ref (tdata t) then [] else (held (valuestring (tdata t)) (tvtext t)).*1) ++
  (held (string (tdata t)) (tname t)).*1.
Proof.
  unfold owned. cbn [data vtext name tcell]. rewrite fmap_app. by destruct (is_ref _).
Qed.

Lemma tree_in t ts : t ∈ ts -> addrs [t] ⊆ addrs ts /\ strings [t] ⊆ strings ts.
Proof.
  intros (l1 & l2 & ->)%list_elem_of_split. unfold addrs, strings.
  rewrite !forest_app, !forest_cons, app_nil_r, !fmap_app, !bind_app, !fmap_app. set_solver.
Qed.

Lemma root_in_addrs a ts : a ∈ root <$> ts -> a ∈ addrs ts.
Proof.
  intros (t & -> & Ht)%list_elem_of_fmap. apply (proj1 (tree_in t ts Ht)).
  rewrite addrs_cons. left.
Qed.

Lemma hosts_frame its its' ss ss' t :
  (forall a, a ∈ addrs [t] -> its' !! a = its !! a) ->
  (forall p, p ∈ strings [t] -> ss' !! p = ss !! p) ->
  hosts its ss t -> hosts its' ss' t.
Proof.
  induction t as [a d v s ts IH] using tree_induction. intros Ha Hp Ht.
  inversion Ht as [? ? ? ? ? n Hn Hd Hr Hnr Hs Hts]; subst.
  rewrite addrs_cons in Ha. rewrite strings_cons, owned_strings in Hp. cbn [root tdata tvtext tname tkids] in *.
  assert (forall p (o : option text), (forall q, q ∈ (held p o).*1 -> ss' !! q = ss !! q) ->
    holds_text ss p o -> holds_text ss' p o) as Hh.
  { intros p [t|] Hq; [|done]. cbn in *. intros [? Hsp]. split; [done|].
    rewrite Hq; [done|left]. }
  apply (hosts_tree _ _ _ _ _ _ _ n).
  - rewrite Ha; [done|left].
  - done.
  - done.
  - intros E. destruct (Hnr E) as [Hl Hv]. rewrite E in Hp. split.
    + eapply lseg_frame; [|exact Hl]. intros b Hb. apply Ha. right.
      apply elem_of_app. left. by apply root_in_addrs.
    + apply (Hh _ _); [|done]. intros q Hq. apply Hp. set_solver.
  - apply (Hh _ _); [|done]. intros q Hq. apply Hp. set_solver.
  - rewrite Forall_forall in IH, Hts |- *. intros t Ht'. apply IH; [done| | |by apply Hts].
    + intros b Hb. apply Ha. right. apply elem_of_app. left. by apply (proj1 (tree_in t ts Ht')).
    + intros p Hq. apply Hp. apply elem_of_app. right. apply elem_of_app. left.
      by apply (proj2 (tree_in t ts Ht')).
Qed.

Lemma hosts_frame_all its its' ss ss' ts :
  (forall a, a ∈ addrs ts -> its' !! a = its !! a) ->
  (forall p, p ∈ strings ts -> ss' !! p = ss !! p) ->
  Forall (hosts its ss) ts -> Forall (hosts its' ss') ts.
Proof.
  rewrite !Forall_forall. intros Ha Hp Hts t Ht. destruct (tree_in t ts Ht) as [H1 H2].
  eapply hosts_frame; [| |by apply Hts]; auto.
Qed.

(** What releasing a chain of trees leaves of a heap. *)
Definition released (ts : list tree) (h : heap) : heap :=
  Heap (without (addrs ts) (items h)) (without (strings ts) (strs h)) (calls h)
    (malloc_fn h) (free_fn h).

Lemma wp_free_held p o h (b : bool) (Q : unit -> heap -> Prop) :
  (b = true -> holds_text (strs h) p o) ->
  Q tt (set_strs (without (if b then (held p o).*1 else []) (strs h)) h) ->
  wp (when (b && negb (p =? 0)) (free_str p)) h Q.
Proof.
  intros Hh HQ. destruct b; [|by destruct h].
  specialize (Hh eq_refl). destruct o as [s|]; cbn in Hh.
  - destruct Hh as [Hp Hs]. rewrite (proj2 (Z.eqb_neq _ _) Hp). by eapply wp_free_str.
  - rewrite Hh. by destruct h.
Qed.

Lemma holds_text_frame ss l p o :
  (forall q, q ∈ (held p o).*1 -> q ∉ l) -> holds_text ss p o -> holds_text (without l ss) p o.
Proof.
  intros Hl. destruct o as [s|]; [|done]. intros [Hp Hs]. split; [done|].
  rewrite without_ne; [done|]. apply Hl. left.
Qed.

Lemma wp_delete_loop fuel h x ts :
  lseg (items h) x (root <$> ts) 0 -> Forall (hosts (items h) (strs h)) ts ->
  NoDup (addrs ts) -> NoDup (strings ts) -> (length (forest ts) < fuel)%nat ->
  wp (delete_loop fuel x) h (fun _ h' => h' = released ts h).
Proof.
  revert h x ts. induction fuel as [|fuel IH]; intros h x ts Hl Hts Hnd Hns Hf; [lia|].
  cbn [delete_loop]. destruct ts as [|[a d v s ks] ts].
  { cbn in Hl. subst x. apply wp_return. by destruct h. }
  cbn [fmap list_fmap root] in Hl. destruct Hl as (-> & Ha0 & n & Hn & Hl).
  inversion Hts as [|? ? Hh Hts']; subst. inversion Hh as [? ? ? ? ? n' Hn' Hd Hr Hnr Hs Hks]; subst.
  simplify_eq. rewrite addrs_cons in Hnd. rewrite strings_cons, owned_strings in Hns.
  cbn [root tdata tvtext tname tkids] in *.
  apply NoDup_cons in Hnd as [Ha (Hndk & Hdk & Hndt)%NoDup_app].
  apply NoDup_app in Hns as (Hnso & Hdo & (Hnsk & Hdks & Hnst)%NoDup_app).
  apply NoDup_app in Hnso as (_ & Hvs & _).
  assert (Hf' : (length (forest ks) + length (forest ts) < fuel)%nat).
  { rewrite forest_cons, cells_eq, length_app in Hf. cbn [length tkids] in Hf. lia. }
  rewrite (proj2 (Z.eqb_neq _ 0) Ha0). apply wp_seq. eapply wp_load; [done|]. cbn zeta.
  assert (is_ref (core n) = is_ref n) as Er by done.
  apply wp_seq, (wp_weaken _ _ (fun _ h' => h' = released ks h)).
  { apply wp_when; intros E.
    - apply andb_true_iff in E as [E1%negb_true_iff E2].
      apply IH; [by apply Hnr; rewrite Er|done|done|done|lia].
    - assert (ks = []) as ->; [|by destruct h]. destruct (is_ref n) eqn:Er'; [by apply Hr|].
      destruct (Hnr Er) as [Hlk _]. cbn in E. apply negb_false_iff, Z.eqb_eq in E.
      change (child (core n)) with (child n) in Hlk. rewrite E in Hlk.
      destruct ks as [|k ks]; [done|]. destruct Hlk as (<- & Hk0 & _). by destruct Hk0. }
  intros _ h1 ->. set (h1 := released ks h).
  assert (items h1 !! a = Some n) as Hn1.
  { cbn. rewrite without_ne; [done|]. intros H. apply Ha, elem_of_app. by left. }
  apply wp_seq. eapply wp_load; [exact Hn1|].
  set (vs := if negb (is_ref n) then (held (valuestring n) v).*1 else []).
  assert (vs = if is_ref n then [] else (held (valuestring n) v).*1) as Evs
    by (unfold vs; by destruct (is_ref n)).
  change (valuestring (core n)) with (valuestring n) in *.
  change (string (core n)) with (string n) in *. rewrite Er, <- Evs in Hdo, Hvs.
  apply wp_seq, (wp_free_held _ v).
  { intros E%negb_true_iff. destruct (Hnr ltac:(by rewrite Er)) as [_ Hv].
    apply holds_text_frame; [|done]. intros q Hq. apply (not_elem_of_app _ (strings ts)), Hdo.
    rewrite Evs, E. apply elem_of_app. by left. }
  apply wp_seq, (wp_free_held _ s _ true).
  { intros _. apply holds_text_frame; [|apply holds_text_frame; [|done]].
    - intros q Hq Hv. by apply (Hvs q Hv).
    - intros q Hq. apply (not_elem_of_app _ (strings ts)), Hdo. apply elem_of_app. by right. }
  apply wp_seq. eapply wp_free_item; [exact Hn1|].
  set (h2 := set_items _ _).
  assert (forall b, b <> a -> b ∉ addrs ks -> items h2 !! b = items h !! b) as F1.
  { intros b Hb Hk. cbn. rewrite lookup_delete_ne by done. by apply without_ne. }
  assert (forall p, p ∉ vs -> p ∉ (held (string n) s).*1 -> p ∉ strings ks ->
    strs h2 !! p = strs h !! p) as F2.
  { intros p H1 H2 H3. cbn. rewrite !without_ne by done. done. }
  eapply wp_weaken; [apply (IH _ _ ts)|].
  - eapply lseg_frame; [|exact Hl]. intros b Hb.
    apply root_in_addrs in Hb. apply F1; [|by intros H; apply (Hdk b H)].
    intros ->. apply Ha, elem_of_app. by right.
  - eapply hosts_frame_all; [| |exact Hts'].
    + intros b Hb. apply F1; [|by intros H; apply (Hdk b H)].
      intros ->. apply Ha, elem_of_app. by right.
    + intros p Hp. apply F2; [| |by intros H; apply (Hdks p H)];
        intros H; apply (Hdo p); [|by apply elem_of_app; right| |by apply elem_of_app; right];
        apply elem_of_app; auto.
  - done.
  - done.
  - lia.
  - intros _ h' ->. unfold released. cbn [items strs calls malloc_fn free_fn h2 h1 released
      set_items set_strs negb]. f_equal.
    + rewrite addrs_cons. apply map_eq. intros b. cbn [tkids root].
      change (delete a ?m) with (without [a] m). rewrite !lookup_without.
      repeat case_decide; try done; set_solver.
    + rewrite strings_cons, owned_strings. apply map_eq. intros p. cbn [tkids tdata tvtext tname].
      change (valuestring (core n)) with (valuestring n).
      change (string (core n)) with (string n). rewrite Er, <- Evs, !lookup_without.
      repeat case_decide; try done; set_solver.
Qed.

Lemma tidy_holds {h rs cs U} c (p : Z) o :
  placed h rs cs U -> c ∈ cs -> (p = 0 <-> o = None) -> (forall s, o = Some s -> (p, s) ∈ owned c) ->
  holds_text (strs h) p o.
Proof.
  intros Hp Hc Hz Ho. destruct o as [s|]; [|by apply Hz]. split.
  - intros E. by apply Hz in E.
  - eapply (placed_string Hp); [done|by apply Ho].
Qed.

Lemma placed_hosts {h rs cs U} t :
  placed h rs cs U -> cells t ⊆ cs -> Forall tidy (cells t) -> hosts (items h) (strs h) t.
Proof.
  intros Hp. induction t as [a d v s ts IH] using tree_induction.
  rewrite cells_eq. intros Hsub [(Hv & Hk & Hs) Hts]%Forall_cons. cbn [tkids] in *.
  set (c := tcell (Tree a d v s ts)) in *. assert (c ∈ cs) as Hc by (apply Hsub; left).
  destruct (placed_lookup Hp c Hc) as (n & Hn & Hd).
  apply (hosts_tree _ _ _ _ _ _ _ n); [done|done| | | |].
  - intros E. specialize (Hk E). by apply fmap_nil_inv in Hk.
  - intros E. split.
    + assert ((child d, root <$> ts) ∈ chains rs cs) as Hin.
      { apply elem_of_app. right. apply list_elem_of_bind. exists c. split; [|done].
        rewrite chain_owner by done. left. }
      exact (dlist_lseg _ _ _ (placed_chain Hp _ Hin)).
    + eapply (tidy_holds c); [done|done|by apply Hv|]. intros t E'.
      unfold owned. cbn [data vtext c tcell tdata tvtext] in *. rewrite E, E'. left.
  - eapply (tidy_holds c); [done|done|done|]. intros t E'.
    unfold owned. cbn [name c tcell tname] in *. rewrite E'. apply elem_of_app. right. left.
  - rewrite Forall_forall in IH |- *. intros t Ht. apply IH; [done| |].
    + intros x Hx. apply Hsub. right. apply list_elem_of_split in Ht as (l1 & l2 & ->).
      rewrite forest_app, forest_cons. set_solver.
    + apply list_elem_of_split in Ht as (l1 & l2 & ->).
      rewrite forest_app, forest_cons in Hts. by apply Forall_app in Hts as [_ [? _]%Forall_app].
Qed.

Lemma released_placed {h rs cs U} t :
  placed h (root t :: rs) (cells t ++ cs) U -> Forall tidy (cells t) ->
  placed (released [t] h) rs cs U.
Proof.
  intros Hp Ht. pose proof (cells_cover t Ht) as Hct. pose proof (placed_addrs Hp) as Hnd.
  destruct Hp as [Hi Hs HC Hcov Hz Htx].
  rewrite fmap_app in Hi. rewrite fmap_app in Hcov. rewrite fmap_app in Hnd.
  assert (chains (root t :: rs) (cells t ++ cs) ≡ₚ
    ((root t, [root t]) :: (cells t ≫= chain)) ++ chains rs cs) as Hch.
  { unfold chains. rewrite bind_app. cbn [fmap list_fmap app]. constructor.
    apply Permutation_app_swap_app. }
  rewrite Hch in HC, Hcov. rewrite bind_app in Hcov. apply Forall_app in HC as [_ HC].
  assert (addr <$> cs ≡ₚ chains rs cs ≫= snd) as Hcov'.
  { apply (Permutation_app_inv_l (addr <$> cells t)). by rewrite Hct at 2. }
  assert (addrs [t] = (entry <$> cells t).*1 /\ strings [t] = (cells t ≫= owned).*1) as [Ea Es].
  { unfold addrs, strings, forest. cbn. rewrite app_nil_r. by rewrite <- list_fmap_compose. }
  split; cbn [items strs released].
  - rewrite fmap_without, Ea. by apply bindings_without.
  - rewrite Es. apply bindings_without. by rewrite Hs, bind_app, (assoc_L app).
  - rewrite Forall_forall in HC |- *. intros [x l] Hx. specialize (HC _ Hx). simpl in *.
    eapply dlist_frame; [|exact HC]. intros a Ha. apply without_ne. intros Hin.
    apply NoDup_app in Hnd as (_ & Hd & _). apply (Hd a).
    + rewrite Ea, <- list_fmap_compose in Hin. exact Hin.
    + rewrite Hcov'. apply list_elem_of_bind. by exists (x, l).
  - done.
  - rewrite lookup_without. by case_decide.
  - intros p s. rewrite lookup_without. case_decide; [done|]. apply Htx.
Qed.

Lemma placed_size {h rs cs U} : placed h rs cs U -> size (items h) = length cs.
Proof.
  intros [Hi _ _ _ _ _]. apply Permutation_length in Hi. rewrite !length_fmap in Hi.
  rewrite <- Hi. by rewrite length_map_to_list, map_size_fmap.
Qed.

Lemma wp_delete {h rs cs U} t (Q : unit -> heap -> Prop) :
  placed h (root t :: rs) (cells t ++ cs) U -> Forall tidy (cells t) ->
  (forall h', placed h' rs cs U -> Q tt h') -> wp (cJSON_Delete (root t)) h Q.
Proof.
  intros Hp Ht HQ. unfold cJSON_Delete. apply wp_fuelled.
  eapply (wp_weaken _ _ (fun _ h' => h' = released [t] h)).
  - apply wp_delete_loop.
    + assert ((root t, [root t]) ∈ chains (root t :: rs) (cells t ++ cs)) as Hin
        by (rewrite chains_root; left).
      exact (dlist_lseg _ _ _ (placed_chain Hp _ Hin)).
    + constructor; [|done]. eapply placed_hosts; [done| |done]. set_solver.
    + pose proof (placed_addrs Hp) as Hnd. rewrite fmap_app in Hnd.
      unfold addrs, forest. cbn. rewrite app_nil_r. by apply NoDup_app in Hnd as [? _].
    + destruct Hp as [_ Hs _ _ _ _]. apply bindings_NoDup in Hs.
      unfold strings, forest. cbn. rewrite app_nil_r.
      rewrite bind_app, !fmap_app, <- (assoc_L app) in Hs. by apply NoDup_app in Hs as [? _].
    + rewrite (placed_size Hp). unfold forest. cbn. rewrite app_nil_r, length_app. lia.
  - intros [] h' ->. by apply HQ, released_placed.
Qed.

Lemma wp_delete_null h (Q : unit -> heap -> Prop) : Q tt h -> wp (cJSON_Delete 0) h Q.
Proof. done. Qed.
