(* ===== verification/CJsonApi.v ===== *)
(** The interface of src/demo_json/cJSON.c to JSON trees, against trees.

    Each function is shown to do to the items and strings in use what it should do to the
    tree: create, append, look up, detach, replace, copy and release. A client that only
    calls them the way they are meant to be called never follows a bad pointer and never
    loses a block, whichever allocations fail ([client_refines_trees]). *)

From S2P Require Import Prelude Double Linked Heap CJson CJsonHeap CJsonTree.

(** ** Functions on objects *)

Lemma placed_kid_cells {h rs cs U} c :
  placed h rs cs U -> c ∈ cs -> is_ref (data c) = false ->
  exists kcs, addr <$> kcs = kids c /\ forall k, k ∈ kcs -> k ∈ cs.
Proof.
  intros Hp Hc Hr.
  assert (forall a, a ∈ kids c -> exists k, k ∈ cs /\ addr k = a) as Hk.
  { intros a Ha. apply (placed_on_chain Hp a (child (data c), kids c)); [|done].
    apply elem_of_app. right. apply list_elem_of_bind. exists c. split; [|done].
    rewrite chain_owner by done. left. }
  revert Hk. generalize (kids c). intros ks. induction ks as [|a ks IH]; intros Hk.
  - exists []. split; [done|]. intros k Hin. by apply not_elem_of_nil in Hin.
  - destruct (Hk a ltac:(left)) as (k & Hkc & <-).
    destruct IH as (kcs & E & Hsub); [intros b Hb; apply Hk; by right|].
    exists (k :: kcs). split; [cbn; by rewrite E|].
    intros x [->|Hx]%elem_of_cons; auto.
Qed.

(** The first child with a name, and its index. *)
Definition find_named (s : text) (kcs : list cell) : option (nat * cell) :=
  list_find (named s) kcs.

Section lookup.
Context {h : heap} {rs : list Z} {cs : list cell} {U : list (Z * text)}.
Context (Hp : placed h rs cs U) (Ht : Forall tidy cs).
Context (string' : Z) (s : text) (Hne : string' <> 0) (Hs : strs h !! string' = Some s).

Lemma wp_find_loop fuel x kcs (Q : Z -> heap -> Prop) :
  lseg (items h) x (addr <$> kcs) 0 -> (forall k, k ∈ kcs -> k ∈ cs) ->
  (length kcs < fuel)%nat ->
  Q (match find_named s kcs with Some (_, k) => addr k | None => 0 end) h ->
  wp (find_loop fuel x string') h Q.
Proof using All.
  revert fuel x. induction kcs as [|k kcs IH]; intros [|fuel] x Hl Hsub Hf HQ;
    try (simpl in Hf; lia); cbn [find_loop].
  - cbn in Hl. subst x. by apply wp_return.
  - cbn [fmap list_fmap] in Hl. destruct Hl as (-> & Ha & n & Hn & Hl). cbn [length] in *.
    rewrite (proj2 (Z.eqb_neq _ 0) Ha). apply wp_seq. eapply wp_load; [done|].
    assert (k ∈ cs) as Hk by (apply Hsub; left).
    destruct (placed_lookup Hp k Hk) as (n' & Hn' & Hc). simplify_eq.
    apply wp_seq. eapply (wp_strcasecmp_name rs cs U k); [done|done| |done|done|done|].
    { by apply (proj1 (Forall_forall _ _) Ht). }
    intros d Hd. unfold find_named in *. cbn [list_find] in HQ.
    destruct (Z.eqb_spec d 0) as [E|E].
    + rewrite decide_True in HQ by (by apply Hd). by apply wp_return.
    + rewrite decide_False in HQ by (intros H; by apply E, Hd).
      eapply IH; [exact Hl|intros b Hb; apply Hsub; by right|lia|].
      by destruct (list_find _ _) as [[i k']|].
Qed.

Lemma wp_name_loop fuel i x kcs (Q : Z * Z -> heap -> Prop) :
  lseg (items h) x (addr <$> kcs) 0 -> (forall k, k ∈ kcs -> k ∈ cs) ->
  (length kcs < fuel)%nat -> i + Z.of_nat (length kcs) <= INT_MAX ->
  Q (match find_named s kcs with
     | Some (j, k) => (i + Z.of_nat j, addr k)
     | None => (i + Z.of_nat (length kcs), 0)
     end) h ->
  wp (name_loop fuel i x string') h Q.
Proof using All.
  revert fuel i x. induction kcs as [|k kcs IH]; intros [|fuel] i x Hl Hsub Hf Hi HQ;
    try (simpl in Hf; lia); cbn [name_loop].
  - cbn in Hl. subst x. apply wp_return. by rewrite Z.add_0_r in HQ.
  - cbn [fmap list_fmap] in Hl. destruct Hl as (-> & Ha & n & Hn & Hl). cbn [length] in *.
    rewrite (proj2 (Z.eqb_neq _ 0) Ha). apply wp_seq. eapply wp_load; [done|].
    assert (k ∈ cs) as Hk by (apply Hsub; left).
    destruct (placed_lookup Hp k Hk) as (n' & Hn' & Hc). simplify_eq.
    apply wp_seq. eapply (wp_strcasecmp_name rs cs U k); [done|done| |done|done|done|].
    { by apply (proj1 (Forall_forall _ _) Ht). }
    intros d Hd. unfold find_named in *. cbn [list_find] in HQ.
    destruct (Z.eqb_spec d 0) as [E|E].
    + rewrite decide_True in HQ by (by apply Hd). apply wp_return. by rewrite Z.add_0_r in HQ.
    + rewrite decide_False in HQ by (intros H; by apply E, Hd).
      apply wp_seq, wp_int_succ; [lia|].
      eapply IH; [exact Hl|intros b Hb; apply Hsub; by right|lia|lia|].
      destruct (list_find _ _) as [[j k']|]; cbn in HQ.
      * by replace (i + 1 + Z.of_nat j) with (i + Z.of_nat (S j)) by lia.
      * by replace (i + 1 + Z.of_nat (length kcs)) with (i + Z.of_nat (S (length kcs))) by lia.
Qed.
End lookup.

(** ** A tree among others *)

(** Where a tree sits: it is a root next to others, or a child of an item that sits somewhere. *)
Inductive path :=
| Top (others : list tree)
| Under (a : Z) (n : node) (v s : option text) (before after : list tree) (up : path).

Fixpoint plug (C : path) (t : tree) : list tree :=
  match C with
  | Top ts => t :: ts
  | Under a n v s l r up => plug up (Tree a n v s (l ++ t :: r))
  end.

(** The roots and the items around a tree whose root is [x]. *)
Fixpoint roots_at (C : path) (x : Z) : list Z :=
  match C with Top ts => x :: (root <$> ts) | Under a _ _ _ _ _ up => roots_at up a end.

Fixpoint around (C : path) (x : Z) : list cell :=
  match C with
  | Top ts => forest ts
  | Under a n v s l r up =>
      Cell a n v s ((root <$> l) ++ x :: (root <$> r)) :: forest l ++ forest r ++ around up a
  end.

Lemma plug_roots C t : root <$> plug C t = roots_at C (root t).
Proof. revert t. induction C as [ts|a n v s l r up IH]; intros t; [done|]. apply IH. Qed.

Lemma plug_forest C t : forest (plug C t) ≡ₚ cells t ++ around C (root t).
Proof.
  revert t. induction C as [ts|a n v s l r up IH]; intros t; [done|]. cbn [plug around].
  rewrite IH, cells_eq. unfold tcell at 1. cbn [tkids root tdata tvtext tname].
  rewrite fmap_app, forest_app, forest_cons. cbn [fmap list_fmap].
  etrans; [|apply Permutation_middle]. cbn [app]. constructor.
  rewrite <- !(assoc_L app). apply Permutation_app_swap_app.
Qed.

(** One more root around a tree. *)
Fixpoint beside (i : tree) (C : path) : path :=
  match C with
  | Top ts => Top (i :: ts)
  | Under a n v s l r up => Under a n v s l r (beside i up)
  end.

Lemma plug_beside i C t : plug (beside i C) t ≡ₚ i :: plug C t.
Proof. revert t. induction C as [ts|a n v s l r up IH]; intros t; [apply Permutation_swap|apply IH]. Qed.

(** The heap [h] holds the trees [ts] and the strings [U], and nothing else. *)
Definition models (h : heap) (ts : list tree) (U : list (Z * text)) : Prop :=
  layout h (root <$> ts) (forest ts) U.

#[export] Instance models_perm h : Proper ((≡ₚ) ==> (≡ₚ) ==> iff) (models h).
Proof. unfold models. intros ts ts' Ht U U' HU. by rewrite Ht, HU. Qed.

Lemma models_plug h os C t U :
  models h (os ++ plug C t) U <->
  layout h ((root <$> os) ++ roots_at C (root t))
    (tcell t :: forest os ++ forest (tkids t) ++ around C (root t)) U.
Proof.
  unfold models. rewrite fmap_app, plug_roots, forest_app, plug_forest, cells_eq.
  cbn [app]. by rewrite <- Permutation_middle.
Qed.

Definition with_tkids (t : tree) (ks : list tree) : tree :=
  Tree (root t) (set_child (hd 0 (root <$> ks)) (tdata t)) (tvtext t) (tname t) ks.

Lemma tcell_with_tkids t ks : tcell (with_tkids t ks) = with_kids (tcell t) (root <$> ks).
Proof. done. Qed.

Lemma tidy_with_kids c ks : tidy c -> is_ref (data c) = false -> tidy (with_kids c ks).
Proof.
  intros (Hv & _ & Hs) Hr. unfold tidy, with_kids. cbn [data kids vtext name].
  change (is_ref (set_child _ _)) with (is_ref (data c)). rewrite Hr. split_and!; [intros _; by apply Hv|done|exact Hs].
Qed.

Section trees.
Context {h : heap} {U : list (Z * text)}.

Lemma tree_add C arr i (Q : unit -> heap -> Prop) :
  models h (i :: plug C arr) U -> is_ref (tdata arr) = false ->
  (forall h', strs h' = strs h -> models h' (plug C (with_tkids arr (tkids arr ++ [i]))) U ->
    Q tt h') ->
  wp (cJSON_AddItemToArray (root arr) (root i)) h Q.
Proof using Type.
  intros Hm Hr HQ. apply (models_plug h [i]) in Hm as [Hp [Ht Hts]%Forall_cons].
  apply (wp_add_item (c := tcell arr) Hr (root i) _ Hp).
  intros h' Es Hp'. apply HQ; [done|]. apply (models_plug h' []). split.
  - rewrite tcell_with_tkids, fmap_app. cbn [tkids with_tkids root]. rewrite forest_app.
    cbn [forest map concat] in *. rewrite !app_nil_r in *.
    by rewrite <- (assoc_L app), (Permutation_app_swap_app (forest _)).
  - constructor; [rewrite tcell_with_tkids; by apply tidy_with_kids|].
    cbn [tkids with_tkids root]. rewrite forest_app. cbn [forest map concat] in *.
    rewrite !Forall_app in *. naive_solver.
Qed.

Lemma tree_add_null C arr (Q : unit -> heap -> Prop) :
  models h (plug C arr) U -> Q tt h -> wp (cJSON_AddItemToArray (root arr) 0) h Q.
Proof using Type.
  intros [Hp _] HQ. destruct (placed_lookup Hp (tcell arr)) as (n & Hn & _).
  { rewrite plug_forest. apply elem_of_app. left. apply root_in_cells. }
  apply wp_seq. eapply wp_load; [exact Hn|]. by apply wp_return.
Qed.

Lemma tree_detach C arr which (Q : Z -> heap -> Prop) :
  models h (plug C arr) U -> is_ref (tdata arr) = false ->
  (tkids arr !! Z.to_nat which = None -> Q 0 h) ->
  (forall x h', tkids arr !! Z.to_nat which = Some x -> strs h' = strs h ->
    models h' (x :: plug C (with_tkids arr (delete (Z.to_nat which) (tkids arr)))) U ->
    Q (root x) h') ->
  wp (cJSON_DetachItemFromArray (root arr) which) h Q.
Proof using Type.
  intros Hm Hr Hnone HQ. apply (models_plug h []) in Hm as [Hp [Ht Hts]%Forall_cons].
  apply (wp_detach (c := tcell arr) Hr which _ Hp).
  { cbn [kids tcell]. rewrite list_lookup_fmap, fmap_None. exact Hnone. }
  intros k1 x k2 h' Ek Hk1 Es Hp'. cbn [kids tcell] in Ek.
  apply fmap_app_inv in Ek as (t1 & ts2 & E1 & E2 & Ek). symmetry in E2.
  apply fmap_cons_inv in E2 as (t & t2 & Ex & E2 & ->).
  subst k1 x k2. rewrite length_fmap in Hk1.
  assert (tkids arr !! Z.to_nat which = Some t) as Hx.
  { rewrite Ek, <- Hk1. by rewrite list_lookup_middle. }
  assert (delete (Z.to_nat which) (tkids arr) = t1 ++ t2) as Ed.
  { rewrite Ek, <- Hk1. by rewrite delete_middle. }
  apply (HQ t); [done|done|]. rewrite Ed. apply (models_plug h' [t]). split.
  - rewrite tcell_with_tkids, fmap_app. cbn [tkids with_tkids root].
    rewrite Ek, forest_app, forest_cons in Hp'. rewrite forest_app.
    cbn [forest map concat app] in *. rewrite !app_nil_r in *.
    rewrite <- !(assoc_L app) in *. by rewrite (Permutation_app_swap_app (forest t1)) in Hp'.
  - constructor; [rewrite tcell_with_tkids; by apply tidy_with_kids|].
    cbn [tkids with_tkids root]. rewrite Ek, forest_app, forest_cons in Hts. rewrite forest_app.
    cbn [forest map concat app] in *. rewrite !app_nil_r in *. rewrite !Forall_app in *.
    naive_solver.
Qed.

Lemma tree_delete t ts (Q : unit -> heap -> Prop) :
  models h (t :: ts) U -> (forall h', models h' ts U -> Q tt h') -> wp (cJSON_Delete (root t)) h Q.
Proof using Type.
  intros [Hp Ht] HQ. rewrite forest_cons in Hp, Ht. apply Forall_app in Ht as [Ht Hts].
  apply (wp_delete t _ Hp Ht). intros h' Hp'. apply HQ. by split.
Qed.
End trees.

Section lookups.
Context {h : heap} {U : list (Z * text)}.

(** The child at an index, with the children around it. *)
Lemma kid_split arr which k1 x k2 :
  root <$> tkids arr = k1 ++ x :: k2 -> length k1 = Z.to_nat which ->
  exists t1 t t2, tkids arr = t1 ++ t :: t2 /\ k1 = root <$> t1 /\ x = root t /\ k2 = root <$> t2 /\
    length t1 = Z.to_nat which /\ tkids arr !! Z.to_nat which = Some t.
Proof using Type.
  intros Ek Hk1. apply fmap_app_inv in Ek as (t1 & ts2 & E1 & E2 & Ek). symmetry in E2.
  apply fmap_cons_inv in E2 as (t & t2 & Ex & E2 & ->). subst k1 x k2.
  rewrite length_fmap in Hk1. exists t1, t, t2. split_and!; try done.
  rewrite Ek, <- Hk1. by rewrite list_lookup_middle.
Qed.

Lemma tree_replace C arr which new (Q : unit -> heap -> Prop) :
  models h (new :: plug C arr) U -> is_ref (tdata arr) = false ->
  (tkids arr !! Z.to_nat which = None -> Q tt h) ->
  (forall h', is_Some (tkids arr !! Z.to_nat which) ->
    models h' (plug C (with_tkids arr (<[Z.to_nat which := new]> (tkids arr)))) U -> Q tt h') ->
  wp (cJSON_ReplaceItemInArray (root arr) which (root new)) h Q.
Proof using Type.
  intros Hm Hr Hnone HQ. apply (models_plug h [new]) in Hm as [Hp [Ht Hts]%Forall_cons].
  apply (wp_replace (c := tcell arr) Hr which (root new) _ Hp).
  { cbn [kids tcell]. rewrite list_lookup_fmap, fmap_None. exact Hnone. }
  intros k1 x k2 h' Ek Hk1 Es Hp'. cbn [kids tcell] in Ek.
  destruct (kid_split _ _ _ _ _ Ek Hk1) as (t1 & t & t2 & Ekids & -> & -> & -> & Hl & Hx).
  assert (<[Z.to_nat which := new]> (tkids arr) = t1 ++ new :: t2) as Ei.
  { rewrite Ekids, <- Hl. by rewrite insert_app_r_alt, Nat.sub_diag by done. }
  apply (tree_delete (U := U) t (plug C (with_tkids arr (t1 ++ new :: t2)))).
  - apply (models_plug h' [t]). split.
    + rewrite tcell_with_tkids, fmap_app. cbn [tkids with_tkids root fmap list_fmap].
      rewrite Ekids, forest_app, forest_cons in Hp'. rewrite forest_app, forest_cons.
      cbn [forest map concat app] in *. rewrite !app_nil_r in *.
      rewrite <- !(assoc_L app) in *. rewrite (Permutation_app_swap_app (forest t1)) in Hp'.
      rewrite (Permutation_app_swap_app (cells new)) in Hp'.
      by rewrite (Permutation_app_swap_app (cells new) (forest t1)) in Hp'.
    + constructor; [rewrite tcell_with_tkids; by apply tidy_with_kids|].
      cbn [tkids with_tkids root]. rewrite Ekids, forest_app, forest_cons in Hts.
      rewrite forest_app, forest_cons.
      cbn [forest map concat app] in *. rewrite !app_nil_r in *. rewrite !Forall_app in *.
      naive_solver.
  - intros h'' Hm. apply HQ; [by rewrite Hx|]. by rewrite Ei.
Qed.

(** A tree with the given name. *)
Definition tnamed (s : text) (t : tree) : Prop := named s (tcell t).

#[export] Instance tnamed_dec s t : Decision (tnamed s t).
Proof using Type. unfold tnamed. apply _. Defined.

(** The chain of the children of a tree. *)
Lemma tree_chain C obj :
  models h (plug C obj) U -> is_ref (tdata obj) = false ->
  (exists n, items h !! root obj = Some n /\ child n = child (tdata obj)) /\
  lseg (items h) (child (tdata obj)) (addr <$> (tcell <$> tkids obj)) 0 /\
  (length (tcell <$> tkids obj) < S (size (items h)))%nat.
Proof using Type.
  intros Hm Hr. apply (models_plug h []) in Hm as [Hp _].
  destruct (owner_facts (c := tcell obj) Hr Hp) as (n & Hn & _ & Hch & HD & _ & Hlen).
  rewrite <- list_fmap_compose. change (addr ∘ tcell) with root.
  split; [eauto|]. split; [exact (dlist_lseg _ _ _ HD)|].
  cbn [kids tcell] in Hlen. by rewrite !length_fmap in *.
Qed.

Lemma tree_kids_in C obj k :
  k ∈ tcell <$> tkids obj -> k ∈ forest (plug C obj).
Proof using Type.
  intros (t & -> & (l1 & l2 & E)%list_elem_of_split)%list_elem_of_fmap.
  rewrite plug_forest, cells_eq, E, forest_app, forest_cons. apply elem_of_app. left. right.
  apply elem_of_app. right. apply elem_of_app. left. apply root_in_cells.
Qed.

Lemma find_tnamed s ks :
  find_named s (tcell <$> ks) = prod_map id tcell <$> list_find (tnamed s) ks.
Proof using Type. unfold find_named. by rewrite list_find_fmap. Qed.

Lemma tree_get_object_item C obj string' s (Q : Z -> heap -> Prop) :
  models h (plug C obj) U -> is_ref (tdata obj) = false ->
  string' <> 0 -> strs h !! string' = Some s ->
  Q (match list_find (tnamed s) (tkids obj) with Some (_, t) => root t | None => 0 end) h ->
  wp (cJSON_GetObjectItem (root obj) string') h Q.
Proof using Type.
  intros Hm Hr Hne Hs HQ. destruct (tree_chain C obj Hm Hr) as ((n & Hn & Hch) & Hl & Hlen).
  destruct Hm as [Hp Ht]. apply wp_seq. eapply wp_load; [done|]. apply wp_fuelled. rewrite Hch.
  eapply (wp_find_loop Hp Ht); [done|done|done|apply tree_kids_in|done|].
  rewrite find_tnamed. by destruct (list_find _ _) as [[i t]|].
Qed.

(** The search the functions on objects begin with, and what they do next. *)
Lemma tree_name_index {A} C obj string' s (k : Z * Z -> St A) (Q : A -> heap -> Prop) :
  models h (plug C obj) U -> is_ref (tdata obj) = false ->
  string' <> 0 -> strs h !! string' = Some s -> Z.of_nat (length (tkids obj)) <= INT_MAX ->
  wp (k (match list_find (tnamed s) (tkids obj) with
         | Some (j, t) => (Z.of_nat j, root t)
         | None => (Z.of_nat (length (tkids obj)), 0)
         end)) h Q ->
  wp (o ← load (root obj);
      ic ← fuelled (fun fuel => name_loop fuel 0 (child o) string'); k ic) h Q.
Proof using Type.
  intros Hm Hr Hne Hs Hmax HQ. destruct (tree_chain C obj Hm Hr) as ((n & Hn & Hch) & Hl & Hlen).
  destruct Hm as [Hp Ht]. apply wp_seq. eapply wp_load; [done|].
  apply wp_seq, wp_fuelled. rewrite Hch.
  eapply (wp_name_loop Hp Ht); [done|done|done|apply tree_kids_in|done|by rewrite length_fmap|].
  rewrite find_tnamed, length_fmap. by destruct (list_find _ _) as [[i t]|].
Qed.

Lemma tree_size C arr (Q : Z -> heap -> Prop) :
  models h (plug C arr) U -> is_ref (tdata arr) = false ->
  Z.of_nat (length (tkids arr)) <= INT_MAX -> Q (Z.of_nat (length (tkids arr))) h ->
  wp (cJSON_GetArraySize (root arr)) h Q.
Proof using Type.
  intros Hm Hr Hmax HQ. destruct (tree_chain C arr Hm Hr) as ((n & Hn & Hch) & Hl & Hlen).
  apply wp_seq. eapply wp_load; [done|]. apply wp_fuelled. rewrite Hch.
  eapply wp_size_loop; [done| | |]; by rewrite !length_fmap in *.
Qed.

Lemma tree_item C arr which (Q : Z -> heap -> Prop) :
  models h (plug C arr) U -> is_ref (tdata arr) = false ->
  Q (default 0 (root <$> tkids arr !! Z.to_nat which)) h ->
  wp (cJSON_GetArrayItem (root arr) which) h Q.
Proof using Type.
  intros Hm Hr HQ. destruct (tree_chain C arr Hm Hr) as ((n & Hn & Hch) & Hl & Hlen).
  apply wp_seq. eapply wp_load; [done|]. apply wp_fuelled. rewrite Hch.
  eapply wp_item_loop; [done|by rewrite !length_fmap in *|].
  by rewrite !list_lookup_fmap, <- option_fmap_compose.
Qed.
End lookups.

Section objects.
Context {h : heap} {U : list (Z * text)}.

Lemma root_not_null {ts t} : models h ts U -> t ∈ ts -> root t <> 0.
Proof using Type.
  intros [Hp _] Ht E. apply (placed_null_item Hp). rewrite <- E.
  apply root_in_addrs, list_elem_of_fmap. eauto.
Qed.

Lemma kid_not_null {C obj j t} :
  models h (plug C obj) U -> tkids obj !! j = Some t -> root t <> 0.
Proof using Type.
  intros [Hp _] Ht E. apply (placed_null_item Hp). rewrite <- E.
  apply list_elem_of_fmap. exists (tcell t). split; [done|]. apply tree_kids_in.
  apply list_elem_of_fmap. exists t. split; [done|]. by apply list_elem_of_lookup_2 in Ht.
Qed.

Lemma tree_detach_name C obj string' s (Q : Z -> heap -> Prop) :
  models h (plug C obj) U -> is_ref (tdata obj) = false ->
  string' <> 0 -> strs h !! string' = Some s -> Z.of_nat (length (tkids obj)) <= INT_MAX ->
  (list_find (tnamed s) (tkids obj) = None -> Q 0 h) ->
  (forall j x h', list_find (tnamed s) (tkids obj) = Some (j, x) -> strs h' = strs h ->
    models h' (x :: plug C (with_tkids obj (delete j (tkids obj)))) U -> Q (root x) h') ->
  wp (cJSON_DetachItemFromObject (root obj) string') h Q.
Proof using Type.
  intros Hm Hr Hne Hs Hmax Hnone HQ.
  apply (tree_name_index C obj string' s _ _ Hm Hr Hne Hs Hmax).
  destruct (list_find _ _) as [[j x]|] eqn:E; [|by apply wp_return, Hnone].
  apply list_find_Some in E as E'. destruct E' as (Hx & _).
  rewrite (proj2 (Z.eqb_neq _ 0) (kid_not_null Hm Hx)). cbn [negb].
  apply (tree_detach C _ _ _ Hm Hr).
  - rewrite Nat2Z.id. congruence.
  - intros x' h' Hx' Es Hm'. rewrite Nat2Z.id in *. simplify_eq. by apply (HQ j).
Qed.

(** A reference keeps only its name; any other item keeps everything but its name. *)
Definition with_name (t : tree) (p : Z) (s : option text) : tree :=
  Tree (root t) (set_string p (tdata t)) (tvtext t) s (tkids t).

Context `{AllocatorOk node, AllocatorOk text} (malloc_ok : Z -> nat -> Z -> bool).

(** An item as it must be for a name to be given to it. *)
Definition unnamed (c : cell) : Prop :=
  name c = None /\ (is_ref (data c) = false -> valuestring (data c) = 0 <-> vtext c = None) /\
  (is_ref (data c) = true -> kids c = []).

(** A new name for an item; without memory it has none. *)
Lemma wp_rename {A} rs t c cs string' s (k : Z -> St A) (Q : A -> heap -> Prop) :
  placed h rs (c :: cs) U -> c = Cell (root t) (tdata t) (tvtext t) None (root <$> tkids t) ->
  unnamed c -> strs h !! string' = Some s ->
  (forall p o h', o = Some s \/ (o = None /\ refuses malloc_ok) -> tidy (tcell (with_name t p o)) ->
    placed h' rs (tcell (with_name t p o) :: cs) U -> wp (k p) h' Q) ->
  wp (p ← cJSON_strdup malloc_ok string'; _ ← modify (root t) (set_string p); k p) h Q.
Proof using All.
  intros Hp Ec (Hn & Hv & Hr) Hs HQ.
  assert (forall p, plain_change (set_string p) (data c)) as Hpc.
  { intros p. split; [|done]. intros m <-. done. }
  replace (root t) with (addr c) by (by subst c).
  assert (owned (tcell (with_name t 0 None)) = owned c) as Ho by (by subst c).
  apply wp_seq. eapply (wp_strdup malloc_ok); [exact Hp|done| |].
  - intros h1 Hno Hp1. apply wp_seq.
    eapply (wp_modify_cell c (tcell (with_name t 0 None)));
      [exact Hp1|apply Hpc|by subst c|by subst c|by subst c|by rewrite Ho|].
    intros h2 Es2 Hp2. apply (HQ 0 None); [by right|by subst c|done].
  - intros p h1 Hp0 Ei Hp1. apply wp_seq.
    eapply (wp_modify_cell c (tcell (with_name t p (Some s))) _ U);
      [exact Hp1|apply Hpc|by subst c|by subst c|by subst c| |].
    + subst c. unfold owned. cbn. rewrite app_nil_r, <- (assoc_L app). done.
    + intros h2 Es2 Hp2. apply (HQ p (Some s)); [by left|by subst c|done].
Qed.

End objects.

Section adding.
Context {h : heap} {U : list (Z * text)}.
Context `{AllocatorOk node, AllocatorOk text} (malloc_ok : Z -> nat -> Z -> bool).

Lemma tree_add_object C obj i string' s (Q : unit -> heap -> Prop) :
  models h (i :: plug C obj) U -> is_ref (tdata obj) = false ->
  strs h !! string' = Some s -> string' <> string (tdata i) ->
  (forall p o h', o = Some s \/ (o = None /\ refuses malloc_ok) ->
    models h' (plug C (with_tkids obj (tkids obj ++ [with_name i p o]))) U -> Q tt h') ->
  wp (cJSON_AddItemToObject malloc_ok (root obj) string' (root i)) h Q.
Proof using All.
  intros Hm Hr Hs Hne HQ. pose proof (root_not_null Hm ltac:(left)) as Hi0.
  destruct Hm as [Hp Ht]. rewrite forest_cons, cells_eq in Hp, Ht. cbn [app] in Hp, Ht.
  apply Forall_cons in Ht as [(Hv & Hk & Hn) Hts]. cbn [data tcell name vtext kids] in *.
  unfold cJSON_AddItemToObject. rewrite (proj2 (Z.eqb_neq _ 0) Hi0).
  apply wp_seq. eapply (wp_load_cell (tcell i) _ Hp); [left|]. intros n Hin Hc.
  change (core n = tdata i) in Hc. replace (string n) with (string (tdata i)) by (by rewrite <- Hc).
  set (c := Cell (root i) (tdata i) (tvtext i) None (root <$> tkids i)).
  apply wp_seq.
  assert (forall h1, strs h1 !! string' = Some s ->
    placed h1 (root <$> i :: plug C obj) (c :: forest (tkids i) ++ forest (plug C obj)) U ->
    wp (p ← cJSON_strdup malloc_ok string'; _ ← modify (root i) (set_string p);
        cJSON_AddItemToArray (root obj) (root i)) h1 Q) as Hrest.
  { intros h1 Hs1 Hp1. eapply (wp_rename malloc_ok _ i c); [exact Hp1|done|done|exact Hs1|].
    intros p o h2 Ho Htd Hp2. apply (tree_add (U := U) C obj (with_name i p o)); [|done|].
    - split; rewrite forest_cons, cells_eq; [exact Hp2|by constructor].
    - intros h3 _ Hm3. by apply (HQ p o). }
  apply wp_when; intros E.
  - apply negb_true_iff, Z.eqb_neq in E.
    destruct (tname i) as [t|] eqn:Et; [|by destruct E; apply Hn].
    eapply (wp_free_name (tcell i) c t); [exact Hp|exact Et|done|].
    intros h1 Es1 Hp1. apply Hrest; [|exact Hp1]. by rewrite Es1, lookup_delete_ne.
  - apply negb_false_iff, Z.eqb_eq in E. apply Hrest; [done|].
    unfold c. apply Hn in E. rewrite <- E. exact Hp.
Qed.
End adding.

(** ** Creating items *)

(** The JSON value a tree stands for. *)
Fixpoint value (t : tree) : cJSON :=
  Item (type (tdata t)) (tvtext t) (valueint (tdata t)) (valuedouble (tdata t)) (tname t)
    (map value (tkids t)).

(** What the constructors are asked for. *)
Inductive maker :=
| MakeNull | MakeTrue | MakeFalse | MakeBool (b : Z) | MakeNumber (d : double)
| MakeString (string' : Z) | MakeArray | MakeObject.

Definition make `{Allocator node, Allocator text} (malloc_ok : Z -> nat -> Z -> bool)
    (m : maker) : St Z :=
  match m with
  | MakeNull => cJSON_CreateNull malloc_ok
  | MakeTrue => cJSON_CreateTrue malloc_ok
  | MakeFalse => cJSON_CreateFalse malloc_ok
  | MakeBool b => cJSON_CreateBool malloc_ok b
  | MakeNumber d => cJSON_CreateNumber malloc_ok d
  | MakeString s => cJSON_CreateString malloc_ok s
  | MakeArray => cJSON_CreateArray malloc_ok
  | MakeObject => cJSON_CreateObject malloc_ok
  end.

(** The item made; [o] is the text of a string, if there was memory for it. *)
Definition made (m : maker) (o : option text) : cJSON :=
  match m with
  | MakeNull => Item cJSON_NULL None 0 zero None []
  | MakeTrue => Item cJSON_True None 0 zero None []
  | MakeFalse => Item cJSON_False None 0 zero None []
  | MakeBool b => Item (if b =? 0 then cJSON_False else cJSON_True) None 0 zero None []
  | MakeNumber d => Item cJSON_Number None (to_int d) d None []
  | MakeString _ => Item cJSON_String o 0 zero None []
  | MakeArray => Item cJSON_Array None 0 zero None []
  | MakeObject => Item cJSON_Object None 0 zero None []
  end.

Definition with_data (t : tree) (d : node) (v : option text) : tree :=
  Tree (root t) d v (tname t) (tkids t).

Section making.
Context {h : heap} {U : list (Z * text)}.

(** A change of the fields that are not pointers. *)
Lemma tree_modify ts t f (Q : unit -> heap -> Prop) :
  models h (t :: ts) U -> plain_change f (tdata t) ->
  valuestring (f (tdata t)) = valuestring (tdata t) -> string (f (tdata t)) = string (tdata t) ->
  (forall h', strs h' = strs h ->
    models h' (with_data t (f (tdata t)) (tvtext t) :: ts) U -> Q tt h') ->
  wp (modify (root t) f) h Q.
Proof using Type.
  intros [Hp Ht] Hf Ev Es HQ. rewrite forest_cons, cells_eq in Hp, Ht. cbn [app] in *.
  apply Forall_cons in Ht as [Ht Hts]. pose proof Hf as (_ & _ & Er).
  eapply (wp_modify_cell (tcell t) (tcell (with_data t (f (tdata t)) (tvtext t))));
    [exact Hp|exact Hf|done|done|done| |].
  - unfold owned. cbn. by rewrite Er, Ev, Es.
  - intros h' E' Hp'. apply HQ; [done|]. split; rewrite forest_cons, cells_eq; [exact Hp'|].
    constructor; [|done]. unfold tidy in *. cbn in *. by rewrite Er, Ev, Es.
Qed.

Context `{AllocatorOk node, AllocatorOk text} (malloc_ok : Z -> nat -> Z -> bool).

Lemma tree_new ts (Q : Z -> heap -> Prop) :
  models h ts U -> (forall h', models h' ts U -> Q 0 h') ->
  (forall p h', p <> 0 -> strs h' = strs h ->
    models h' (Tree p blank None None [] :: ts) U -> Q p h') ->
  wp (cJSON_New_Item malloc_ok) h Q.
Proof using All.
  intros [Hp Ht] Hnull Hok. apply (wp_new_item malloc_ok _ Hp).
  - intros h' Hp'. by apply Hnull.
  - intros p h' Hp0 _ Es Hp'. apply Hok; [done|done|].
    split; rewrite forest_cons; [exact Hp'|]. by constructor; [split_and!|].
Qed.

(** [item->valuestring = cJSON_strdup(string)] for an item that has none. *)
Lemma tree_set_text {A} ts t string' s (k : Z -> St A) (Q : A -> heap -> Prop) :
  models h (t :: ts) U -> is_ref (tdata t) = false -> tvtext t = None ->
  strs h !! string' = Some s ->
  (forall p o h', (p = 0 /\ o = None /\ refuses malloc_ok) \/ (p <> 0 /\ o = Some s) ->
    models h' (with_data t (set_valuestring p (tdata t)) o :: ts) U -> wp (k p) h' Q) ->
  wp (p ← cJSON_strdup malloc_ok string'; _ ← modify (root t) (set_valuestring p); k p) h Q.
Proof using All.
  intros [Hp Ht] Er Hv Hs HQ. rewrite forest_cons, cells_eq in Hp, Ht. cbn [app] in *.
  apply Forall_cons in Ht as [(Htv & Htr & Hts) Hrest].
  assert (forall p, plain_change (set_valuestring p) (data (tcell t))) as Hpc.
  { intros p. split; [|done]. intros m <-. done. }
  assert (forall p o, (p = 0 <-> o = None) -> tidy (tcell (with_data t (set_valuestring p (tdata t)) o)))
    as Htidy by (intros p o Hpo; by split_and!).
  apply wp_seq. eapply (wp_strdup malloc_ok); [exact Hp|done| |].
  - intros h1 Hno Hp1. apply wp_seq.
    eapply (wp_modify_cell (tcell t) (tcell (with_data t (set_valuestring 0 (tdata t)) None)) _ U);
      [exact Hp1|apply Hpc|done|done|done| |].
    + unfold owned. cbn. change (is_ref (set_valuestring 0 (tdata t))) with (is_ref (tdata t)).
      by rewrite Er, Hv.
    + intros h2 _ Hp2. apply (HQ 0 None); [by left|].
      split; rewrite forest_cons, cells_eq; [exact Hp2|]. by constructor; [apply Htidy|].
  - intros p h1 Hp0 _ Hp1. apply wp_seq.
    eapply (wp_modify_cell (tcell t) (tcell (with_data t (set_valuestring p (tdata t)) (Some s))) _ U);
      [exact Hp1|apply Hpc|done|done|done| |].
    + unfold owned. cbn. change (is_ref (set_valuestring p (tdata t))) with (is_ref (tdata t)).
      rewrite Er, Hv. cbn. rewrite <- Permutation_middle. done.
    + intros h2 _ Hp2. apply (HQ p (Some s)); [by right|].
      split; rewrite forest_cons, cells_eq; [exact Hp2|]. by constructor; [apply Htidy|].
Qed.
End making.

Lemma plain_set_type ty n :
  Z.land ty cJSON_IsReference = 0 -> is_ref n = false -> plain_change (set_type ty) n.
Proof.
  intros Hty Hr. split; [|split; [done|]].
  - intros m <-. done.
  - rewrite Hr. unfold is_ref. cbn [type set_type]. by rewrite Hty.
Qed.

Section makers.
Context {U : list (Z * text)} `{AllocatorOk node, AllocatorOk text}.
Context (malloc_ok : Z -> nat -> Z -> bool).

Definition readable (h : heap) (m : maker) : Prop :=
  match m with MakeString p => is_Some (strs h !! p) | _ => True end.

Lemma tree_make ts m h (Q : Z -> heap -> Prop) :
  models h ts U -> readable h m ->
  (forall h', models h' ts U -> Q 0 h') ->
  (forall t o h', root t <> 0 -> value t = made m o ->
    (forall p, m = MakeString p -> (o = None /\ refuses malloc_ok) \/ o = strs h !! p) ->
    models h' (t :: ts) U -> Q (root t) h') ->
  wp (make malloc_ok m) h Q.
Proof using All.
  intros Hm Hread Hnull Hok.
  assert (forall ty f,
    (forall h1 p, p <> 0 -> strs h1 = strs h -> models h1 (Tree p blank None None [] :: ts) U ->
      wp (f p) h1 (fun _ h2 => exists t o, p = root t /\ value t = made m o /\
        (forall q, m = MakeString q -> (o = None /\ refuses malloc_ok) \/ o = strs h !! q) /\ models h2 (t :: ts) U)) ->
    ty = tt ->
    wp (item ← cJSON_New_Item malloc_ok; _ ← when (negb (item =? 0)) (f item); mret item) h Q)
    as Hframe.
  { intros _ f Hf _. apply wp_seq, (tree_new (U := U) malloc_ok ts); [done| |].
    - intros h1 Hm1. apply wp_seq. by apply wp_return, Hnull.
    - intros p h1 Hp Es Hm1. apply wp_seq. rewrite (proj2 (Z.eqb_neq _ 0) Hp).
      eapply wp_weaken; [by apply Hf|]. cbn. intros [] h2 (t & o & -> & Hv & Ho & Hm2).
      apply wp_return. by apply (Hok t o). }
  assert (forall ty, Z.land ty cJSON_IsReference = 0 ->
    (forall q, m <> MakeString q) ->
    (forall o, made m o = Item ty None 0 zero None []) ->
    wp (item ← cJSON_New_Item malloc_ok; _ ← when (negb (item =? 0)) (modify item (set_type ty));
        mret item) h Q) as Hsimple.
  { intros ty Hty Hq Hmade. apply (Hframe tt (fun p => modify p (set_type ty))); [|done].
    intros h1 p Hp _ Hm1. eapply (tree_modify (U := U) ts (Tree p blank None None [])); [exact Hm1| |done|done|].
    - by apply plain_set_type.
    - intros h2 Es2 Hm2. eexists _, None. split_and!; [| | |exact Hm2]; [done|by rewrite Hmade|].
      intros q E. by apply Hq in E. }
  destruct m as [| | |b|d|p| |]; cbn [make]; try (by apply Hsimple).
  - apply Hsimple; [by destruct (b =? 0)|done|]. intros o. cbn. by destruct (b =? 0).
  - apply (Hframe tt (fun item => _ ← modify item (set_type cJSON_Number);
      modify item (set_number (to_int d) d))); [|done].
    intros h1 p Hp _ Hm1. apply wp_seq.
    eapply (tree_modify (U := U) ts (Tree p blank None None [])); [exact Hm1|by apply plain_set_type|done|done|].
    intros h2 Es2 Hm2. eapply (tree_modify (U := U) ts (with_data (Tree p blank None None []) _ _));
      [exact Hm2| |done|done|].
    + split; [|done]. intros n <-. done.
    + intros h3 _ Hm3. eexists _, None. split_and!; [| | |exact Hm3]; done.
  - destruct Hread as [s Hs].
    apply (Hframe tt (fun item => _ ← modify item (set_type cJSON_String);
      s ← cJSON_strdup malloc_ok p; modify item (set_valuestring s))); [|done].
    intros h1 a Ha Es Hm1. apply wp_seq.
    eapply (tree_modify (U := U) ts (Tree a blank None None []));
      [exact Hm1|by apply plain_set_type|done|done|].
    intros h2 Es2 Hm2. apply wp_unit_tail.
    eapply (tree_set_text (U := U) malloc_ok ts (with_data (Tree a blank None None []) _ _));
      [exact Hm2|done|done|by rewrite Es2, Es|].
    intros q o h3 Ho Hm3. apply wp_return. eexists _, o. split_and!; [| | |exact Hm3]; [done|done|].
    intros r [= <-]. rewrite Hs. naive_solver.
Qed.
End makers.

(** ** Copying *)

Lemma kid_next {h rs cs U} c k1 a k2 :
  placed h rs cs U -> c ∈ cs -> is_ref (data c) = false -> kids c = k1 ++ a :: k2 ->
  a <> 0 /\ exists n, items h !! a = Some n /\ next n = hd 0 k2.
Proof.
  intros Hp Hc Hr Ek.
  assert ((child (data c), kids c) ∈ chains rs cs) as Hin.
  { apply elem_of_app. right. apply list_elem_of_bind. exists c. split; [|done].
    rewrite chain_owner by done. left. }
  pose proof (placed_chain Hp _ Hin) as HD. cbn [fst snd] in HD. rewrite Ek in HD.
  assert (a ∈ k1 ++ a :: k2) as Ha by (apply elem_of_app; right; left).
  split; [exact (lseg_not_null _ _ _ _ _ (dlist_lseg _ _ _ HD) Ha)|].
  destruct (lseg_lookup _ _ _ _ _ (dlist_lseg _ _ _ HD) Ha) as [n Hn]. exists n. split; [done|].
  destruct (dlist_split _ _ _ _ _ _ HD Hn) as (_ & _ & q & D). change (next_of n) with (next n) in D.
  destruct k2 as [|b k2]; [by destruct D|by destruct D].
Qed.

(** No item of the tree is a reference. *)
Definition unshared (t : tree) : Prop := Forall (fun c => is_ref (data c) = false) (cells t).

(** What is copied: the children only if asked for. *)
Definition copied (recurse : bool) (v : cJSON) : cJSON :=
  if recurse then v else CJson.set_child [] v.

Lemma unref_type n : is_ref n = false -> Z.land (type n) (Z.lnot cJSON_IsReference) = type n.
Proof.
  unfold is_ref. intros H%negb_false_iff%Z.eqb_eq. apply Z.bits_inj'. intros i Hi.
  apply (f_equal (fun z => Z.testbit z i)) in H. rewrite Z.land_spec, Z.testbit_0_l in H.
  rewrite Z.land_spec, Z.lnot_spec by done.
  destruct (Z.testbit (type n) i), (Z.testbit cJSON_IsReference i); done.
Qed.

Section strings.
Context {h : heap} {U : list (Z * text)} `{AllocatorOk node, AllocatorOk text}.
Context (malloc_ok : Z -> nat -> Z -> bool).

Lemma wp_dup_value ts t from o (Q : bool -> heap -> Prop) :
  models h (t :: ts) U -> is_ref (tdata t) = false -> tvtext t = None ->
  holds_text (strs h) from o ->
  (forall p h', models h' (with_data t (set_valuestring p (tdata t)) o :: ts) U -> Q true h') ->
  (forall h', models h' ts U -> Q false h') ->
  wp (dup_string malloc_ok from set_valuestring (root t)) h Q.
Proof using All.
  intros Hm Hr Hv Hh Htrue Hfalse. unfold dup_string. destruct o as [s|]; cbn in Hh.
  - destruct Hh as [Hf Hs]. rewrite (proj2 (Z.eqb_neq _ 0) Hf).
    apply (tree_set_text malloc_ok ts t from s _ _ Hm Hr Hv Hs).
    intros p o h' [(-> & -> & _)|[Hp ->]] Hm'.
    + cbn [Z.eqb]. apply wp_seq. apply (tree_delete (with_data t _ _) _ _ Hm').
      intros h'' Hm''. by apply wp_return, Hfalse.
    + rewrite (proj2 (Z.eqb_neq _ 0) Hp). by apply wp_return, (Htrue p).
  - subst from. apply wp_return, (Htrue 0). destruct t as [a d v s ks]. unfold with_data.
    cbn [root tdata tname tkids tvtext] in *. subst v.
    destruct Hm as [Hp Ht]. assert (set_valuestring 0 d = d) as ->; [|by split].
    rewrite forest_cons, cells_eq in Ht. apply Forall_cons in Ht as [(Hz & _) _].
    cbn in Hz. rewrite <- (proj2 (Hz Hr) eq_refl) at 1. by destruct d.
Qed.

Lemma wp_dup_name ts t from o (Q : bool -> heap -> Prop) :
  models h (t :: ts) U -> tname t = None -> holds_text (strs h) from o ->
  (forall p h', models h' (with_name t p o :: ts) U -> Q true h') ->
  (forall h', models h' ts U -> Q false h') ->
  wp (dup_string malloc_ok from set_string (root t)) h Q.
Proof using All.
  intros [Hp Ht] Hn Hh Htrue Hfalse. rewrite forest_cons, cells_eq in Hp, Ht.
  apply Forall_cons in Ht as [(Hv & Hk & Hz) Hts]. unfold dup_string.
  destruct o as [s|]; cbn in Hh.
  - destruct Hh as [Hf Hs]. rewrite (proj2 (Z.eqb_neq _ 0) Hf).
    eapply (wp_rename malloc_ok _ t (tcell t)); [exact Hp|by rewrite <- Hn|by split_and!|exact Hs|].
    intros p o h1 Ho Htd Hp1.
    assert (models h1 (with_name t p o :: ts) U) as Hm1.
    { split; rewrite forest_cons, cells_eq; [exact Hp1|by constructor]. }
    destruct (Z.eqb_spec p 0) as [E|E].
    + apply wp_seq. apply (tree_delete (with_name t _ _) _ _ Hm1).
      intros h2 Hm2. by apply wp_return, Hfalse.
    + apply wp_return, (Htrue p). destruct Ho as [->|[-> _]]; [done|].
      destruct E. by apply Htd.
  - subst from. apply wp_return, (Htrue 0). destruct t as [a d v s ks]. unfold with_name.
    cbn [root tdata tname tkids tvtext tcell string data name] in *. subst s.
    assert (set_string 0 d = d) as ->.
    { rewrite <- (proj2 Hz eq_refl) at 1. by destruct d. }
    split; rewrite forest_cons, cells_eq; [exact Hp|by constructor].
Qed.
End strings.

Section duplicate.
Context {U : list (Z * text)} `{AllocatorOk node, AllocatorOk text}.
Context (malloc_ok : Z -> nat -> Z -> bool).

(** A new tree with the value [v] next to the trees [ts], or nothing new. *)
Definition new_tree (ts : list tree) (v : cJSON) (p : Z) (h : heap) : Prop :=
  (p = 0 /\ models h ts U) \/
  exists t, p = root t /\ p <> 0 /\ value t = v /\ is_ref (tdata t) = false /\
    models h (t :: ts) U.

Lemma value_with_tkids t ks : value (with_tkids t ks) = CJson.set_child (map value ks) (value t).
Proof using Type. by destruct t. Qed.

(** [newitem] as it is before the next child is copied, and the link to the one before. *)
Lemma wp_append_copy ts arr i h (Q : unit -> heap -> Prop) :
  models h (i :: arr :: ts) U -> is_ref (tdata arr) = false ->
  (forall h', models h' (with_tkids arr (tkids arr ++ [i]) :: ts) U -> Q tt h') ->
  wp (if negb (default 0 (root <$> last (tkids arr)) =? 0)
      then suffix_object (default 0 (root <$> last (tkids arr))) (root i)
      else modify (root arr) (set_child (root i))) h Q.
Proof using Type.
  intros Hm Hr HQ. pose proof Hm as Hm'. apply (models_plug h [i] (Top ts)) in Hm as [Hp Ht].
  apply Forall_cons in Ht as [Ht Hts].
  assert (forall h', placed h' (roots_at (Top ts) (root arr))
      (with_kids (tcell arr) (kids (tcell arr) ++ [root i]) ::
        forest [i] ++ forest (tkids arr) ++ around (Top ts) (root arr)) U ->
    Q tt h') as Hback.
  { intros h' Hp'. apply HQ, (models_plug h' [] (Top ts)). split.
    - rewrite tcell_with_tkids, fmap_app. cbn [tkids with_tkids root]. rewrite forest_app.
      cbn [forest map concat] in *. rewrite !app_nil_r in *.
      by rewrite <- (assoc_L app), (Permutation_app_swap_app (forest _)).
    - constructor; [rewrite tcell_with_tkids; by apply tidy_with_kids|].
      cbn [tkids with_tkids root]. rewrite forest_app. cbn [forest map concat] in *.
      rewrite !Forall_app in *. naive_solver. }
  destruct (last (tkids arr)) as [k|] eqn:El; cbn [fmap option_fmap option_map from_option id].
  - assert (root k <> 0) as Hk.
    { apply last_Some in El as [l El]. apply (kid_not_null (C := Top (i :: ts)) (obj := arr)
        (j := length l) (h := h) (U := U)).
      - cbn [plug]. rewrite (Permutation_swap arr i ts) in Hm'. exact Hm'.
      - rewrite El. by apply list_lookup_middle. }
    rewrite (proj2 (Z.eqb_neq _ 0) Hk). cbn [negb].
    apply (wp_next_kid (c := tcell arr) Hr (root i) (root k) _ Hp).
    + cbn [kids tcell]. by rewrite fmap_last, El.
    + intros h' _. apply Hback.
  - cbn [Z.eqb negb]. apply last_None in El.
    apply (wp_first_kid (c := tcell arr) Hr (root i) _ Hp); [cbn [kids tcell]; by rewrite El|].
    intros h' _. assert (kids (tcell arr) = []) as E by (cbn [kids tcell]; by rewrite El).
    rewrite E in Hback. apply Hback.
Qed.

Lemma wp_dup_children dup fuel ts t k1 k2 v0 T h (Q : Z -> heap -> Prop) :
  tcell t ∈ forest ts -> is_ref (tdata t) = false -> tkids t = k1 ++ k2 ->
  (forall k T' h', k ∈ k2 -> models h' (T' :: ts) U ->
    wp (dup (root k)) h' (new_tree (T' :: ts) (value k))) ->
  models h (T :: ts) U -> is_ref (tdata T) = false ->
  value T = CJson.set_child (map value k1) v0 -> (length k2 < fuel)%nat ->
  (forall p h', new_tree ts (CJson.set_child (map value (tkids t)) v0) p h' -> Q p h') ->
  wp (dup_children dup fuel (root T) (hd 0 (root <$> k2))
    (default 0 (root <$> last (tkids T)))) h Q.
Proof using Type.
  intros Ht Hr. revert fuel k1 T h. induction k2 as [|k k2 IH];
    intros [|fuel] k1 T h Ek Hdup Hm HrT HvT Hf HQ; try (cbn [length] in Hf; lia);
    cbn [dup_children fmap list_fmap hd].
  - rewrite app_nil_r in Ek. cbn [Z.eqb]. apply wp_return, HQ. right. exists T.
    split_and!; [done|by eapply (root_not_null Hm), list_elem_of_here|by rewrite Ek|done|done].
  - assert (forall h' ts', tcell t ∈ forest ts' -> models h' ts' U ->
      root k <> 0 /\ exists n, items h' !! root k = Some n /\ next n = hd 0 (root <$> k2)) as Hk.
    { intros h' ts' Hin [Hp' _]. apply (kid_next (tcell t) (root <$> k1) _ _ Hp' Hin Hr).
      cbn [kids tcell]. by rewrite Ek, fmap_app. }
    assert (forall T', tcell t ∈ forest (T' :: ts)) as Hin.
    { intros T'. rewrite forest_cons. apply elem_of_app. by right. }
    destruct (Hk h (T :: ts)) as [Hk0 _]; [done|done|].
    rewrite (proj2 (Z.eqb_neq _ 0) Hk0). apply wp_seq.
    eapply wp_weaken; [apply (Hdup k T); [left|done]|].
    intros p h1 [[-> Hm1]|(t' & -> & Hp & Hv & Hrt & Hm1)].
    + cbn [Z.eqb]. apply wp_seq, (tree_delete T _ _ Hm1). intros h2 Hm2.
      apply wp_return, HQ. by left.
    + rewrite (proj2 (Z.eqb_neq _ 0) Hp). apply wp_seq.
      apply (wp_append_copy ts T t' h1 _ Hm1 HrT). intros h2 Hm2.
      destruct (Hk h2 _ (Hin _) Hm2) as (_ & n & Hn & Hnx).
      apply wp_seq. eapply wp_load; [exact Hn|]. rewrite Hnx.
      set (T' := with_tkids T (tkids T ++ [t'])).
      replace (root t') with (default 0 (root <$> last (tkids T')))
        by (unfold T'; cbn [tkids with_tkids]; by rewrite last_snoc).
      apply (IH fuel (k1 ++ [k]) T' h2).
      * by rewrite <- (assoc_L app).
      * intros k' T'' h' Hk'. apply Hdup. by right.
      * exact Hm2.
      * done.
      * unfold T'. rewrite value_with_tkids, HvT, !map_app. cbn [map]. rewrite Hv.
        assert (map value (tkids T) = map value k1) as ->; [|done].
        destruct T as [a d v s ks]. cbn in HvT. by injection HvT.
      * cbn [length] in Hf. lia.
      * done.
Qed.
(** Reading an item of a tree, its strings and its first child. *)
Lemma wp_load_tree {A} ts t h (k : node -> St A) (Q : A -> heap -> Prop) :
  models h ts U -> tcell t ∈ forest ts -> is_ref (tdata t) = false ->
  (forall n, core n = tdata t -> holds_text (strs h) (valuestring n) (tvtext t) ->
    holds_text (strs h) (string n) (tname t) -> child n = hd 0 (root <$> tkids t) ->
    wp (k n) h Q) ->
  wp (n ← load (root t); k n) h Q.
Proof using Type.
  intros [Hp Ht] Hin Hr HQ. apply wp_seq. eapply (wp_load_cell (tcell t) _ Hp Hin).
  intros n Hn Hc. change (core n = tdata t) in Hc.
  destruct (proj1 (Forall_forall _ _) Ht _ Hin) as (Hv & _ & Hs). cbn [data vtext name tcell] in *.
  assert ((child (tdata t), root <$> tkids t) ∈ chains (root <$> ts) (forest ts)) as Hch.
  { apply elem_of_app. right. apply list_elem_of_bind. exists (tcell t). split; [|done].
    rewrite chain_owner by done. left. }
  apply HQ; [done| | |].
  - change (valuestring n) with (valuestring (core n)). rewrite Hc.
    eapply (tidy_holds (tcell t)); [exact Hp|done|by apply Hv|]. intros s E.
    unfold owned. cbn [data vtext tcell]. rewrite Hr, E. left.
  - change (string n) with (string (core n)). rewrite Hc.
    eapply (tidy_holds (tcell t)); [exact Hp|done|done|]. intros s E.
    unfold owned. cbn [data name tcell]. rewrite E. apply elem_of_app. right. left.
  - change (child n) with (child (core n)). rewrite Hc.
    exact (dlist_hd _ _ _ (placed_chain Hp _ Hch)).
Qed.

Lemma unref_land n : is_ref n = false -> Z.land (type n) cJSON_IsReference = 0.
Proof using Type. unfold is_ref. by intros E%negb_false_iff%Z.eqb_eq. Qed.

Lemma wp_dup_loop fuel ts t recurse h (Q : Z -> heap -> Prop) :
  models h ts U -> (forall c, c ∈ cells t -> c ∈ forest ts) -> unshared t ->
  (length (cells t) < fuel)%nat ->
  (forall p h', new_tree ts (copied recurse (value t)) p h' -> Q p h') ->
  wp (dup_loop malloc_ok fuel (root t) recurse) h Q.
Proof using All.
  revert ts t recurse h Q. induction fuel as [|fuel IH]; intros ts t recurse h Q Hm Hsub Hu Hf HQ; [lia|].
  assert (tcell t ∈ forest ts) as Hin by apply Hsub, root_in_cells.
  assert (forall T, tcell t ∈ forest (T :: ts)) as Hin'.
  { intros T. rewrite forest_cons. apply elem_of_app. by right. }
  pose proof Hu as Hu'. unfold unshared in Hu'. rewrite cells_eq in Hu'.
  apply Forall_cons in Hu' as [Hr Huk]. change (is_ref (tdata t) = false) in Hr.
  assert (root t <> 0) as Hne.
  { destruct Hm as [Hp _]. intros E. apply (placed_null_item Hp). rewrite <- E.
    apply list_elem_of_fmap. by exists (tcell t). }
  cbn [dup_loop]. rewrite (proj2 (Z.eqb_neq _ 0) Hne).
  apply wp_seq, (tree_new (U := U) malloc_ok ts); [exact Hm| |].
  { intros h1 Hm1. cbn [Z.eqb]. apply wp_return, HQ. by left. }
  intros p h1 Hp _ Hm1. rewrite (proj2 (Z.eqb_neq _ 0) Hp).
  apply (wp_load_tree _ t _ _ _ Hm1 (Hin' _) Hr). intros n Hn _ _ _.
  rewrite unref_type by (by rewrite <- Hn in Hr).
  apply wp_seq, (tree_modify (U := U) ts (Tree p blank None None []) _ _ Hm1); [|done|done|].
  { apply plain_set_type; [|done]. apply unref_land. by rewrite <- Hn in Hr. }
  intros h2 _ Hm2. cbn [with_data root tname tkids tdata tvtext] in Hm2.
  apply wp_seq, (tree_modify (U := U) ts (Tree p (set_type (type n) blank) None None []) _ _ Hm2); [|done|done|].
  { split; [|done]. intros m <-. done. }
  intros h3 _ Hm3. cbn [with_data root tname tkids tdata tvtext] in Hm3.
  set (d := set_number (valueint n) (valuedouble n) (set_type (type n) blank)) in Hm3.
  assert (is_ref d = false) as Hd by (rewrite <- Hn in Hr; exact Hr).
  apply (wp_load_tree _ t _ _ _ Hm3 (Hin' _) Hr). intros n3 _ Hv3 _ _. apply wp_seq.
  apply (wp_dup_value (U := U) malloc_ok ts (Tree p d None None []) _ _ _ Hm3 Hd eq_refl Hv3).
  2: { intros h4 Hm4. cbn [negb]. apply wp_return, HQ. by left. }
  intros pv h4 Hm4. cbn [negb with_data root tname tkids tdata] in *.
  apply (wp_load_tree _ t _ _ _ Hm4 (Hin' _) Hr). intros n4 _ _ Hs4 _. apply wp_seq.
  apply (wp_dup_name (U := U) malloc_ok ts (Tree p (set_valuestring pv d) (tvtext t) None []) _ _ _ Hm4 eq_refl Hs4).
  2: { intros h5 Hm5. cbn [negb]. apply wp_return, HQ. by left. }
  intros ps h5 Hm5. cbn [negb]. set (T := with_name _ ps (tname t)) in Hm5.
  assert (value T = CJson.set_child [] (value t)) as HvT.
  { destruct t as [a dt vt st ks]. cbn in Hn. subst dt. done. }
  destruct recurse; cbn [negb].
  2: { apply wp_return, HQ. right. exists T. by split_and!. }
  apply (wp_load_tree _ t _ _ _ Hm5 (Hin' _) Hr). intros n5 _ _ _ Hc5. rewrite Hc5.
  apply (wp_dup_children (fun c => dup_loop malloc_ok fuel c true) fuel ts t [] (tkids t) (value t) T);
    [done|done|done| |exact Hm5|exact Hd|exact HvT| |].
  - intros k T' h' (l1 & l2 & E)%list_elem_of_split Hm'.
    assert (forall c, c ∈ cells k -> c ∈ forest (tkids t)) as Hk.
    { intros c Hc. rewrite E, forest_app, forest_cons. set_solver. }
    apply (IH (T' :: ts) k true); [exact Hm'| | | |done].
    + intros c Hc. rewrite forest_cons. apply elem_of_app. right. apply Hsub.
      rewrite cells_eq. right. by apply Hk.
    + unfold unshared. rewrite Forall_forall in Huk |- *. intros c Hc. by apply Huk, Hk.
    + rewrite cells_eq, E, forest_app, forest_cons in Hf. cbn [length] in Hf.
      rewrite !length_app in Hf. lia.
  - assert (length (tkids t) <= length (forest (tkids t)))%nat as Hl.
    { clear. induction (tkids t) as [|k ks IHk]; [done|]. rewrite forest_cons, cells_eq, length_app.
      cbn [length]. lia. }
    rewrite cells_eq in Hf. cbn [length] in Hf. lia.
  - intros q h6 Hq. apply HQ. destruct t as [a dt vt st ks]. exact Hq.
Qed.

Lemma tree_duplicate C t recurse h (Q : Z -> heap -> Prop) :
  models h (plug C t) U -> unshared t ->
  (forall p h', new_tree (plug C t) (copied recurse (value t)) p h' -> Q p h') ->
  wp (cJSON_Duplicate malloc_ok (root t) recurse) h Q.
Proof using All.
  intros Hm Hu HQ. apply wp_fuelled. eapply wp_dup_loop; [exact Hm| |done| |done].
  - intros c Hc. rewrite plug_forest. apply elem_of_app. by left.
  - destruct Hm as [Hp _]. rewrite (placed_size Hp), plug_forest, length_app. lia.
Qed.
End duplicate.

(** ** References *)

(** The fields of a reference to an item with the fields [d]. *)
Definition ref_data (d : node) : node :=
  set_string 0 (set_type (Z.lor (type d) cJSON_IsReference) d).

Lemma is_ref_lor d : is_ref (ref_data d) = true.
Proof.
  unfold is_ref, ref_data. cbn [type set_type set_string].
  apply negb_true_iff, Z.eqb_neq. intros E.
  apply (f_equal (fun z => Z.testbit z 8)) in E.
  rewrite Z.land_spec, Z.lor_spec, Z.testbit_0_l in E.
  change (Z.testbit cJSON_IsReference 8) with true in E. by rewrite orb_true_r in E.
Qed.

(** A root without children becomes a reference. *)
Lemma placed_reference h p d rs cs U m :
  placed h (p :: rs) (Cell p blank None None [] :: cs) U -> is_ref d = true ->
  core m = d -> links m = (0, 0) ->
  placed (set_items (<[p := m]> (items h)) h) (p :: rs) (Cell p d None None [] :: cs) U.
Proof.
  intros Hp Hr Hc Hl. pose proof (placed_links_NoDup Hp) as Hnd.
  assert (is_Some (items h !! p) /\ p <> 0) as [[n Hn] Hp0].
  { destruct (placed_chain Hp (p, [p])) as [q (_ & Hp0 & n & Hn & _)]; [left|]. cbn in Hn. eauto. }
  destruct Hp as [Hi Hs HC Hcov Hz Ht].
  rewrite chains_root, chains_cons in HC, Hcov, Hnd. cbn [chain data kids is_ref] in *.
  change (chain (Cell p blank None None [])) with [(0, @nil Z)] in *.
  cbn [app] in *. inversion HC as [|? ? _ HC1]; subst. inversion HC1 as [|? ? _ HC2]; subst.
  cbn in Hnd. apply NoDup_cons in Hnd as [Hpn _].
  assert (chain (Cell p (core m) None None []) = []) as Hch by (unfold chain; cbn [data]; by rewrite Hr).
  split; cbn [items strs set_items].
  - rewrite fmap_insert. by eapply bindings_update.
  - rewrite Hs. cbn [mbind list_bind]. unfold owned at 1 3. cbn [data name vtext]. by rewrite Hr.
  - rewrite chains_root, chains_cons, Hch. constructor.
    + eapply singleton_dlist; [done|apply lookup_insert_eq|done].
    + rewrite Forall_forall in HC2 |- *. intros xl Hx. specialize (HC2 xl Hx).
      eapply dlist_frame; [|exact HC2]. intros a Ha. rewrite lookup_insert_ne; [done|].
      intros <-. apply Hpn, list_elem_of_bind. eauto.
  - rewrite chains_root, chains_cons, Hch. exact Hcov.
  - done.
  - done.
Qed.

Section references.
Context {h : heap} {U : list (Z * text)} `{AllocatorOk node, AllocatorOk text}.
Context (malloc_ok : Z -> nat -> Z -> bool).

Definition reference (p : Z) (t : tree) : tree := Tree p (ref_data (tdata t)) None None [].

Lemma tree_reference C t (Q : Z -> heap -> Prop) :
  models h (plug C t) U ->
  (forall h', models h' (plug C t) U -> Q 0 h') ->
  (forall p h', p <> 0 -> models h' (reference p t :: plug C t) U -> Q p h') ->
  wp (create_reference malloc_ok (root t)) h Q.
Proof using All.
  intros Hm Hnull HQ. apply wp_seq, (tree_new (U := U) malloc_ok _ _ Hm).
  { intros h1 Hm1. cbn [Z.eqb]. by apply wp_return, Hnull. }
  intros p h1 Hp _ [Hp1 Ht1]. rewrite (proj2 (Z.eqb_neq _ 0) Hp).
  assert (exists n, items h1 !! root t = Some n /\ core n = tdata t) as (n & Hn & Hc).
  { apply (placed_lookup Hp1 (tcell t)). rewrite forest_cons. apply elem_of_app. right.
    rewrite plug_forest. apply elem_of_app. left. apply root_in_cells. }
  assert (exists b, items h1 !! p = Some b) as [b Hb].
  { destruct (placed_lookup Hp1 (tcell (Tree p blank None None []))) as (b & Hb & _); [left|eauto]. }
  apply wp_seq. eapply wp_load; [exact Hn|].
  apply wp_seq. eapply wp_modify; [exact Hb|].
  apply wp_seq. eapply wp_modify; [apply lookup_insert_eq|].
  apply wp_seq. eapply wp_modify; [apply lookup_insert_eq|].
  apply wp_seq. eapply wp_modify; [apply lookup_insert_eq|].
  apply wp_return, HQ; [done|]. cbn [items set_items]. rewrite !insert_insert_eq.
  rewrite !forest_cons in *. split.
  - apply (placed_reference h1 p (ref_data (tdata t)) _ _ U); [exact Hp1|apply is_ref_lor| |done].
    rewrite <- Hc. done.
  - apply Forall_app in Ht1 as [_ Ht1]. apply Forall_app. split; [|done].
    constructor; [|done]. split_and!; [|done|done]. intros E.
    change (is_ref (ref_data (tdata t)) = false) in E. by rewrite is_ref_lor in E.
Qed.
End references.
