(* ===== verification/CJsonClient.v ===== *)
(** Clients of the tree operations of src/demo_json/cJSON.c.

    [call] lists the functions a client may call, [allowed] says which calls the interface
    permits on given trees and what they may return and leave; the trees are what the calls
    mean, without pointers between items, heaps or allocations. A client that keeps to
    [allowed] never follows a bad pointer, never loses a block, and sees the trees change as
    [allowed] says. *)

From S2P Require Import Prelude Double Linked Heap CJson CJsonParse CJsonHeap CJsonTree CJsonApi.

Inductive call :=
| Make (m : maker)
| AddToArray (array item : Z)
| AddToObject (object string' item : Z)
| AddReference (array item : Z)
| AddNamedReference (object string' item : Z)
| DetachAt (array which : Z)
| DetachNamed (object string' : Z)
| DeleteTree (item : Z)
| DeleteAt (array which : Z)
| DeleteNamed (object string' : Z)
| ReplaceAt (array which newitem : Z)
| ReplaceNamed (object string' newitem : Z)
| Copy (item : Z) (recurse : bool)
| Size (array : Z)
| ItemAt (array which : Z)
| ItemNamed (object string' : Z).

Section Calls.
Context `{Allocator node, Allocator text} (malloc_ok : Z -> nat -> Z -> bool).

(** The call; what returns nothing returns 0. *)
Definition run (c : call) : St Z :=
  let none (m : St unit) : St Z := _ ← m; mret 0 in
  match c with
  | Make m => make malloc_ok m
  | AddToArray a i => none (cJSON_AddItemToArray a i)
  | AddToObject o s i => none (cJSON_AddItemToObject malloc_ok o s i)
  | AddReference a i => none (cJSON_AddItemReferenceToArray malloc_ok a i)
  | AddNamedReference o s i => none (cJSON_AddItemReferenceToObject malloc_ok o s i)
  | DetachAt a w => cJSON_DetachItemFromArray a w
  | DetachNamed o s => cJSON_DetachItemFromObject o s
  | DeleteTree i => none (cJSON_Delete i)
  | DeleteAt a w => none (cJSON_DeleteItemFromArray a w)
  | DeleteNamed o s => none (cJSON_DeleteItemFromObject o s)
  | ReplaceAt a w i => none (cJSON_ReplaceItemInArray a w i)
  | ReplaceNamed o s i => none (cJSON_ReplaceItemInObject malloc_ok o s i)
  | Copy i r => cJSON_Duplicate malloc_ok i r
  | Size a => cJSON_GetArraySize a
  | ItemAt a w => cJSON_GetArrayItem a w
  | ItemNamed o s => cJSON_GetObjectItem o s
  end.

(** A client sees what its calls return. *)
Inductive client :=
| Done
| Call (c : call) (next : Z -> client).

Fixpoint run_client (p : client) : St unit :=
  match p with Done => mret tt | Call c next => r ← run c; run_client (next r) end.
End Calls.

(** ** What the interface permits and promises *)

Section Contract.
(** The strings of the client. *)
Context (U : list (Z * text)).

(** Items whose children the client may look at or change. *)
Definition at_path (ts : list tree) (C : path) (t : tree) : Prop :=
  ts ≡ₚ plug C t /\ is_ref (tdata t) = false /\ Z.of_nat (length (tkids t)) <= INT_MAX.

Definition add (t i : tree) : tree := with_tkids t (tkids t ++ [i]).

(** The name given to an item, if there was memory for it. *)
Definition rename (t : tree) (s : text) (t' : tree) : Prop :=
  exists p o, (o = Some s \/ o = None) /\ t' = with_name t p o.

Inductive allowed (ts : list tree) : call -> (Z -> list tree -> Prop) -> Prop :=
| may_make m :
    match m with MakeString p => exists s, (p, s) ∈ U | _ => True end ->
    allowed ts (Make m) (fun r ts' =>
      (r = 0 /\ ts' = ts) \/
      exists t o, r = root t /\ r <> 0 /\ value t = made m o /\ ts' = t :: ts /\
        forall p, m = MakeString p -> o = None \/ exists s, o = Some s /\ (p, s) ∈ U)
| may_add C arr i us :
    ts ≡ₚ i :: us -> at_path us C arr ->
    allowed ts (AddToArray (root arr) (root i)) (fun r ts' => r = 0 /\ ts' = plug C (add arr i))
| may_add_named C obj i us p s :
    ts ≡ₚ i :: us -> at_path us C obj -> (p, s) ∈ U ->
    allowed ts (AddToObject (root obj) p (root i))
      (fun r ts' => r = 0 /\ exists i', rename i s i' /\ ts' = plug C (add obj i'))
| may_refer C arr C' t :
    at_path ts C arr -> ts ≡ₚ plug C' t ->
    allowed ts (AddReference (root arr) (root t)) (fun r ts' => r = 0 /\
      (ts' = ts \/ exists p, ts' = plug C (add arr (reference p t))))
| may_refer_named C obj C' t p s :
    at_path ts C obj -> ts ≡ₚ plug C' t -> (p, s) ∈ U ->
    allowed ts (AddNamedReference (root obj) p (root t)) (fun r ts' => r = 0 /\
      (ts' = ts \/ exists q i', rename (reference q t) s i' /\ ts' = plug C (add obj i')))
| may_detach C arr w :
    at_path ts C arr ->
    allowed ts (DetachAt (root arr) w) (fun r ts' =>
      match tkids arr !! Z.to_nat w with
      | None => r = 0 /\ ts' = ts
      | Some x => r = root x /\
          ts' = x :: plug C (with_tkids arr (delete (Z.to_nat w) (tkids arr)))
      end)
| may_detach_named C obj p s :
    at_path ts C obj -> (p, s) ∈ U ->
    allowed ts (DetachNamed (root obj) p) (fun r ts' =>
      match list_find (tnamed s) (tkids obj) with
      | None => r = 0 /\ ts' = ts
      | Some (j, x) => r = root x /\ ts' = x :: plug C (with_tkids obj (delete j (tkids obj)))
      end)
| may_delete t us :
    ts ≡ₚ t :: us -> allowed ts (DeleteTree (root t)) (fun r ts' => r = 0 /\ ts' = us)
| may_delete_at C arr w :
    at_path ts C arr ->
    allowed ts (DeleteAt (root arr) w) (fun r ts' => r = 0 /\
      ts' = match tkids arr !! Z.to_nat w with
            | None => ts
            | Some _ => plug C (with_tkids arr (delete (Z.to_nat w) (tkids arr)))
            end)
| may_delete_named C obj p s :
    at_path ts C obj -> (p, s) ∈ U ->
    allowed ts (DeleteNamed (root obj) p) (fun r ts' => r = 0 /\
      match list_find (tnamed s) (tkids obj) with
      | None => ts' = ts
      | Some (j, _) => ts' = plug C (with_tkids obj (delete j (tkids obj)))
      end)
| may_replace C arr w i us :
    ts ≡ₚ i :: us -> at_path us C arr -> is_Some (tkids arr !! Z.to_nat w) ->
    allowed ts (ReplaceAt (root arr) w (root i)) (fun r ts' => r = 0 /\
      ts' = plug C (with_tkids arr (<[Z.to_nat w := i]> (tkids arr))))
| may_replace_named C obj i us p s :
    ts ≡ₚ i :: us -> at_path us C obj -> (p, s) ∈ U -> tname i = None ->
    allowed ts (ReplaceNamed (root obj) p (root i)) (fun r ts' => r = 0 /\
      match list_find (tnamed s) (tkids obj) with
      | None => ts' = ts
      | Some (j, _) => exists i', rename i s i' /\
          ts' = plug C (with_tkids obj (<[j := i']> (tkids obj)))
      end)
| may_copy C t recurse :
    ts ≡ₚ plug C t -> unshared t ->
    allowed ts (Copy (root t) recurse) (fun r ts' =>
      (r = 0 /\ ts' = ts) \/
      exists t', r = root t' /\ r <> 0 /\ value t' = copied recurse (value t) /\ ts' = t' :: ts)
| may_size C arr :
    at_path ts C arr ->
    allowed ts (Size (root arr)) (fun r ts' => r = Z.of_nat (length (tkids arr)) /\ ts' = ts)
| may_item C arr w :
    at_path ts C arr ->
    allowed ts (ItemAt (root arr) w) (fun r ts' =>
      r = default 0 (root <$> tkids arr !! Z.to_nat w) /\ ts' = ts)
| may_look_up C obj p s :
    at_path ts C obj -> (p, s) ∈ U ->
    allowed ts (ItemNamed (root obj) p) (fun r ts' => ts' = ts /\
      r = match list_find (tnamed s) (tkids obj) with Some (_, t) => root t | None => 0 end).

(** A client that only makes allowed calls, and ends with trees that satisfy [Q]. *)
Inductive keeps_to (Q : list tree -> Prop) : list tree -> client -> Prop :=
| keeps_done ts : Q ts -> keeps_to Q ts Done
| keeps_call ts c P next :
    allowed ts c P -> (forall r ts', P r ts' -> keeps_to Q ts' (next r)) ->
    keeps_to Q ts (Call c next).
End Contract.

(** ** Every allowed call does what it promises *)

Section Soundness.
Context `{AllocatorOk node, AllocatorOk text} (malloc_ok : Z -> nat -> Z -> bool).
Context {U : list (Z * text)}.

Lemma models_user {h ts p s} :
  models h ts U -> (p, s) ∈ U -> strs h !! p = Some s /\ p <> 0.
Proof using Type.
  intros [Hp _] Hin. pose proof (placed_user Hp _ _ Hin) as Hs. split; [done|].
  intros ->. by rewrite (placed_null _ _ _ _ Hp) in Hs.
Qed.

(** The strings of the client are not those of the trees. *)
Lemma user_not_name {h t ts p s} :
  models h (t :: ts) U -> (p, s) ∈ U -> p <> string (tdata t).
Proof using Type.
  intros Hm Hin E. destruct (models_user Hm Hin) as [_ Hp0]. destruct Hm as [Hp Ht].
  rewrite forest_cons, cells_eq in Hp, Ht. apply Forall_cons in Ht as [(_ & _ & Hn) _].
  cbn [data name tcell] in Hn. destruct (tname t) as [s'|] eqn:En.
  - destruct Hp as [_ Hs _ _ _ _]. apply bindings_NoDup in Hs.
    rewrite fmap_app in Hs. apply NoDup_app in Hs as (_ & Hd & _). apply (Hd p).
    + cbn. rewrite !fmap_app, !elem_of_app. left. unfold owned. cbn. rewrite En, fmap_app, E.
      apply elem_of_app. right. left.
    + apply list_elem_of_fmap. by exists (p, s).
  - apply Hp0. rewrite E. by apply Hn.
Qed.

Definition promised (P : Z -> list tree -> Prop) (r : Z) (h : heap) : Prop :=
  exists ts, P r ts /\ models h ts U.

Lemma wp_none (m : St unit) h P :
  wp m h (fun _ h' => promised P 0 h') -> wp (_ ← m; mret 0) h (promised P).
Proof using Type. intros Hm. apply wp_seq. eapply wp_weaken; [exact Hm|done]. Qed.

Ltac promise := eexists; split; [|eassumption]; eauto 10.

Lemma run_make ts h m :
  models h ts U -> match m with MakeString p => exists s, (p, s) ∈ U | _ => True end ->
  wp (make malloc_ok m) h (promised (fun r ts' =>
      (r = 0 /\ ts' = ts) \/
      exists t o, r = root t /\ r <> 0 /\ value t = made m o /\ ts' = t :: ts /\
        forall p, m = MakeString p -> o = None \/ exists s, o = Some s /\ (p, s) ∈ U)).
Proof using All.
  intros Hm Hr. apply (tree_make malloc_ok ts m h _ Hm).
  - destruct m; try done. destruct Hr as [s Hin]. exists s. by apply (models_user Hm).
  - intros h' Hm'. promise.
  - intros t o h' Hne Hv Ho Hm'. exists (t :: ts). split; [|done]. right. exists t, o.
    split_and!; [done|done|done|done|]. intros p ->. destruct Hr as [s Hin].
    destruct (Ho p eq_refl) as [[-> _]|Es]; [by left|right]. exists s.
    by rewrite Es, (proj1 (models_user Hm Hin)).
Qed.

Lemma run_refer_named C obj C' t p s h ts :
  models h ts U -> at_path ts C obj -> ts ≡ₚ plug C' t -> (p, s) ∈ U ->
  wp (cJSON_AddItemReferenceToObject malloc_ok (root obj) p (root t)) h (fun _ =>
    promised (fun r ts' => r = 0 /\ (ts' = ts \/ exists q i', rename (reference q t) s i' /\
      ts' = plug C (add obj i'))) 0).
Proof using All.
  intros Hm (Hts & Hr & _) Hts' Hin. apply wp_seq. rewrite Hts' in Hm.
  apply (tree_reference malloc_ok C' t _ Hm).
  - intros h1 Hm1. rewrite <- Hts' in Hm1. apply wp_return. promise.
  - intros q h1 Hq Hm1. rewrite <- Hts', Hts in Hm1.
    apply (tree_add_object malloc_ok C obj (reference q t) p s _ Hm1 Hr).
    + by apply (models_user Hm1).
    + by apply (user_not_name Hm1 Hin).
    + intros a o h2 Ho Hm2. eexists. split; [|exact Hm2]. split; [done|]. right.
      exists q, (with_name (reference q t) a o). split; [|done]. exists a, o. split; [tauto|done].
Qed.

Lemma run_replace_named C obj i us p s h ts :
  models h ts U -> ts ≡ₚ i :: us -> at_path us C obj -> (p, s) ∈ U -> tname i = None ->
  wp (cJSON_ReplaceItemInObject malloc_ok (root obj) p (root i)) h (fun _ =>
    promised (fun r ts' => r = 0 /\
      match list_find (tnamed s) (tkids obj) with
      | None => ts' = ts
      | Some (j, _) => exists i', rename i s i' /\
          ts' = plug C (with_tkids obj (<[j := i']> (tkids obj)))
      end) 0).
Proof using All.
  intros Hm Hts (Hus & Hr & Hmax) Hin Hn. destruct (models_user Hm Hin) as [Hs Hp0].
  pose proof Hm as Hm0. rewrite Hts, Hus in Hm0.
  assert (models h (plug (beside i C) obj) U) as Hb by (by rewrite plug_beside).
  apply (tree_name_index (beside i C) obj p s _ _ Hb Hr Hp0 Hs Hmax).
  destruct (list_find (tnamed s) (tkids obj)) as [[j x]|] eqn:Ef.
  2: { apply wp_return. by exists ts. }
  apply list_find_Some in Ef as (Hx & _).
  rewrite (proj2 (Z.eqb_neq _ 0) (kid_not_null Hb Hx)). cbn [negb].
  destruct Hm0 as [Hp Ht]. rewrite forest_cons, cells_eq in Hp, Ht.
  apply Forall_cons in Ht as [(Hv & Hk & Hz) Hts'].
  eapply (wp_rename malloc_ok _ i (tcell i)); [exact Hp|by rewrite <- Hn|by split_and!|exact Hs|].
  intros q o h1 Ho Htd Hp1.
  assert (models h1 (with_name i q o :: plug C obj) U) as Hm1.
  { split; rewrite forest_cons, cells_eq; [exact Hp1|by constructor]. }
  apply (tree_replace C obj (Z.of_nat j) (with_name i q o) _ Hm1 Hr).
  - rewrite Nat2Z.id. congruence.
  - intros h2 _ Hm2. rewrite Nat2Z.id in Hm2. eexists. split; [|exact Hm2]. split; [done|].
    exists (with_name i q o). split; [|done]. exists q, o. split; [tauto|done].
Qed.

Lemma run_delete_at C arr w h ts :
  models h ts U -> at_path ts C arr ->
  wp (cJSON_DeleteItemFromArray (root arr) w) h (fun _ => promised (fun r ts' => r = 0 /\
    ts' = match tkids arr !! Z.to_nat w with
          | None => ts
          | Some _ => plug C (with_tkids arr (delete (Z.to_nat w) (tkids arr)))
          end) 0).
Proof using Type.
  intros Hm (Hts & Hr & _). pose proof Hm as Hm0. rewrite Hts in Hm0.
  apply wp_seq, (tree_detach C arr w _ Hm0 Hr).
  - intros E. apply wp_delete_null. exists ts. by rewrite E.
  - intros x h1 Ex _ Hm1. apply (tree_delete x _ _ Hm1). intros h2 Hm2. rewrite Ex. promise.
Qed.

Lemma run_delete_named C obj p s h ts :
  models h ts U -> at_path ts C obj -> (p, s) ∈ U ->
  wp (cJSON_DeleteItemFromObject (root obj) p) h (fun _ => promised (fun r ts' => r = 0 /\
    match list_find (tnamed s) (tkids obj) with
    | None => ts' = ts
    | Some (j, _) => ts' = plug C (with_tkids obj (delete j (tkids obj)))
    end) 0).
Proof using Type.
  intros Hm (Hts & Hr & Hmax) Hin. destruct (models_user Hm Hin) as [Hs Hp0].
  pose proof Hm as Hm0. rewrite Hts in Hm0.
  apply wp_seq, (tree_detach_name C obj p s _ Hm0 Hr Hp0 Hs Hmax).
  - intros E. apply wp_delete_null. exists ts. by rewrite E.
  - intros j x h1 E _ Hm1. apply (tree_delete x _ _ Hm1). intros h2 Hm2. rewrite E. promise.
Qed.

Lemma run_allowed ts c P h : allowed U ts c P -> models h ts U -> wp (run malloc_ok c) h (promised P).
Proof using All.
  intros Ha Hm. pose proof Hm as Hm0.
  destruct Ha as [m Hr|C arr i us Hts (Hus & Hr & _)|C obj i us p s Hts (Hus & Hr & _) Hin
    |C arr C' t (Hts & Hr & _) Hts'|C obj C' t p s Hat Hts' Hin|C arr w (Hts & Hr & _)
    |C obj p s (Hts & Hr & Hmax) Hin|t us Hts|C arr w Hat|C obj p s Hat Hin
    |C arr w i us Hts (Hus & Hr & _) [x Hx]|C obj i us p s Hts Hat Hin Hn|C t recurse Hts Hu
    |C arr (Hts & Hr & Hmax)|C arr w (Hts & Hr & _)|C obj p s (Hts & Hr & _) Hin]; cbn [run].
  - by apply run_make.
  - rewrite Hts, Hus in Hm0. apply wp_none, (tree_add C arr i _ Hm0 Hr). intros h' _ Hm'. promise.
  - rewrite Hts, Hus in Hm0. apply wp_none.
    apply (tree_add_object malloc_ok C obj i p s _ Hm0 Hr); [by apply (models_user Hm)|
      by apply (user_not_name Hm0 Hin)|].
    intros q o h' Ho Hm'. eexists. split; [|exact Hm']. split; [done|].
    exists (with_name i q o). split; [|done]. exists q, o. split; [tauto|done].
  - rewrite Hts' in Hm0. apply wp_none, wp_seq, (tree_reference malloc_ok C' t _ Hm0).
    + intros h1 Hm1. rewrite <- Hts' in Hm1. pose proof Hm1 as Hm2. rewrite Hts in Hm2.
      apply (tree_add_null C arr _ Hm2). exists ts. auto.
    + intros q h1 Hq Hm1. rewrite <- Hts', Hts in Hm1.
      apply (tree_add C arr (reference q t) _ Hm1 Hr). intros h2 _ Hm2. promise.
  - by apply wp_none, (run_refer_named C obj C' t).
  - rewrite Hts in Hm0. apply (tree_detach C arr w _ Hm0 Hr).
    + intros E. exists ts. by rewrite E.
    + intros x h1 Ex _ Hm1. rewrite Ex. promise.
  - rewrite Hts in Hm0. destruct (models_user Hm Hin) as [Hs Hp0].
    apply (tree_detach_name C obj p s _ Hm0 Hr Hp0 Hs Hmax).
    + intros E. exists ts. by rewrite E.
    + intros j x h1 E _ Hm1. rewrite E. promise.
  - rewrite Hts in Hm0. apply wp_none, (tree_delete t _ _ Hm0). intros h' Hm'. promise.
  - by apply wp_none, run_delete_at.
  - by apply wp_none, run_delete_named.
  - rewrite Hts, Hus in Hm0. apply wp_none, (tree_replace C arr w i _ Hm0 Hr); [congruence|].
    intros h' _ Hm'. promise.
  - by apply wp_none, (run_replace_named C obj i us).
  - rewrite Hts in Hm0. apply (tree_duplicate malloc_ok C t recurse h _ Hm0 Hu).
    intros r h' [[-> Hm']|(t' & -> & Hne & Hv & _ & Hm')]; rewrite <- Hts in Hm'; promise.
  - rewrite Hts in Hm0. apply (tree_size C arr _ Hm0 Hr Hmax). by exists ts.
  - rewrite Hts in Hm0. apply (tree_item C arr w _ Hm0 Hr). by exists ts.
  - rewrite Hts in Hm0. destruct (models_user Hm Hin) as [Hs Hp0].
    apply (tree_get_object_item C obj p s _ Hm0 Hr Hp0 Hs). by exists ts.
Qed.
End Soundness.

(** ** The properties of the interface *)

Lemma models_nothing h U : models h [] U -> items h = ∅ /\ map_to_list (strs h) ≡ₚ U.
Proof.
  intros [[Hi Hs _ _ _ _] _]. split; [|exact Hs]. cbn in Hi.
  apply Permutation_nil_r, map_to_list_empty_iff in Hi. by apply fmap_empty_inv in Hi.
Qed.

Lemma models_sizes {h t ts U h'} :
  models h (t :: ts) U -> models h' ts U ->
  (size (items h) + size (strs h) =
   size (items h') + size (strs h') + (length (cells t) + length (cells t ≫= owned)))%nat.
Proof.
  intros [Hp _] [Hp' _]. rewrite (placed_size Hp), (placed_size Hp'), forest_cons, length_app.
  destruct Hp as [_ Hs _ _ _ _], Hp' as [_ Hs' _ _ _ _].
  apply Permutation_length in Hs, Hs'. rewrite length_map_to_list in Hs, Hs'.
  rewrite Hs, Hs', forest_cons, bind_app, !length_app. lia.
Qed.

Lemma unshared_kids t k : unshared t -> k ∈ tkids t -> unshared k.
Proof.
  unfold unshared. rewrite cells_eq. intros [_ Hu]%Forall_cons (l1 & l2 & E)%list_elem_of_split.
  rewrite E, forest_app, forest_cons in Hu. by apply Forall_app in Hu as [_ [? _]%Forall_app].
Qed.

Lemma unshared_root t : unshared t -> is_ref (tdata t) = false.
Proof. unfold unshared. rewrite cells_eq. by intros [? _]%Forall_cons. Qed.

(** The blocks of a tree, as the model of the parser counts them. *)
Lemma tree_blocks t :
  unshared t -> Z.of_nat (length (cells t) + length (cells t ≫= owned)) = blocks (value t).
Proof.
  induction t as [a d v s ts IH] using tree_induction. intros Hu. rewrite cells_eq, blocks_eq.
  pose proof (unshared_root _ Hu) as Hr. cbn [tdata] in Hr.
  assert (Z.of_nat (length (forest ts) + length (forest ts ≫= owned)) = all_blocks (map value ts))
    as Hf.
  { assert (forall k, k ∈ ts -> unshared k) as Huk by (intros k; apply (unshared_kids _ k Hu)).
    clear Hu. induction IH as [|t ts IHt _ IHts]; [done|]. rewrite forest_cons.
    cbn [map]. change (all_blocks (value t :: map value ts)) with
      (blocks (value t) + all_blocks (map value ts)).
    rewrite <- IHt, <- IHts by (intros; apply Huk; by (right || left)) || (apply Huk; left).
    rewrite bind_app, !length_app. lia. }
  cbn [value tkids tdata tvtext tname CJson.valuestring CJson.string CJson.child].
  rewrite <- Hf. cbn [mbind list_bind]. rewrite length_app. cbn [length].
  assert (Z.of_nat (length (owned (tcell (Tree a d v s ts)))) = one v + one s) as Ho.
  { unfold owned. cbn [data vtext name tcell tdata tvtext tname]. rewrite Hr.
    by destruct v, s. }
  lia.
Qed.

Lemma unshared_value t : unshared t -> CJsonParse.unshared (value t).
Proof.
  induction t as [a d v s ts IH] using tree_induction. intros Hu. constructor.
  - pose proof (unref_land _ (unshared_root _ Hu)) as E. cbn [tdata value CJson.type] in *.
    apply (f_equal (fun z => Z.testbit z 8)) in E. rewrite Z.land_spec, Z.testbit_0_l in E.
    change (Z.testbit cJSON_IsReference 8) with true in E. by rewrite andb_true_r in E.
  - cbn [value CJson.child tkids]. rewrite Forall_forall in IH.
    apply Forall_forall. intros k (t & -> & Ht)%list_elem_of_fmap. apply IH; [done|].
    by apply (unshared_kids _ t Hu).
Qed.

(** C7. A client that keeps to the interface - it appends and inserts only items that stand
    alone, deletes only roots, passes its own strings - runs to its end without following a
    bad pointer, whichever allocations fail; its calls return what the trees say, and the heap
    holds exactly the trees that are left: when there are none, nothing is leaked. *)
Theorem client_refines_trees
    `{AllocatorOk node, AllocatorOk text} (malloc_ok : Z -> nat -> Z -> bool)
    U Q ts p h :
  keeps_to U Q ts p -> models h ts U ->
  exists h' ts', run_client malloc_ok p h = inl (tt, h') /\ Q ts' /\ models h' ts' U /\
    (ts' = [] -> items h' = ∅ /\ map_to_list (strs h') ≡ₚ U).
Proof.
  intros Hk. revert h. induction Hk as [ts HQ|ts c P next Ha _ IH]; intros h Hm.
  - exists h, ts. split_and!; [done|done|done|]. intros ->. by apply models_nothing.
  - destruct (wp_run _ _ _ (run_allowed malloc_ok ts c P h Ha Hm)) as (r & h1 & E & ts1 & HP & Hm1).
    destruct (IH r ts1 HP h1 Hm1) as (h' & ts' & E' & Hrest). exists h', ts'.
    split; [|done]. cbn [run_client]. unfold mbind, St_bind. by rewrite E.
Qed.

(** C22. [cJSON_Duplicate] makes a deep copy or nothing: it returns the null pointer and the
    heap holds the same trees, or it returns a new tree with the same value (without the
    children unless it was asked for them), made of items that were not in use and sharing no
    string with the original. *)
Theorem duplicate_deep_copy
    `{AllocatorOk node, AllocatorOk text} (malloc_ok : Z -> nat -> Z -> bool)
    U C t recurse h :
  models h (plug C t) U -> unshared t ->
  exists p h', cJSON_Duplicate malloc_ok (root t) recurse h = inl (p, h') /\
    ((p = 0 /\ models h' (plug C t) U) \/
     exists t', p = root t' /\ p <> 0 /\ value t' = copied recurse (value t) /\
       models h' (t' :: plug C t) U /\
       (forall a, a ∈ addrs [t'] -> a ∉ addrs (plug C t)) /\
       (forall s, s ∈ strings [t'] -> s ∉ strings (plug C t))).
Proof.
  intros Hm Hu. destruct (wp_run _ _ _ (tree_duplicate malloc_ok C t recurse h _ Hm Hu
    (fun p h' Hn => Hn))) as (p & h' & E & Hn). exists p, h'. split; [done|].
  destruct Hn as [[-> Hm']|(t' & -> & Hne & Hv & _ & Hm')]; [by left|right].
  exists t'. split_and!; [done|done|done|done| |].
  - destruct Hm' as [Hp _]. pose proof (placed_addrs Hp) as Hnd.
    rewrite forest_cons, fmap_app in Hnd. apply NoDup_app in Hnd as (_ & Hd & _).
    intros a Ha. apply Hd. revert Ha. unfold addrs, forest. cbn. by rewrite app_nil_r.
  - destruct Hm' as [[_ Hs _ _ _ _] _]. apply bindings_NoDup in Hs.
    rewrite forest_cons, bind_app, !fmap_app in Hs. apply NoDup_app in Hs as (Hs & _).
    apply NoDup_app in Hs as (_ & Hd & _).
    intros s Ha. apply Hd. revert Ha. unfold strings, forest. cbn. by rewrite app_nil_r.
Qed.

(** C23. [cJSON_Delete] of a tree releases its items and strings, each once, and nothing else:
    the other trees are untouched, and it calls [cJSON_free] exactly as often as the parser's
    model of it ([delete_item], on the value of the tree) says. *)
Theorem delete_releases_tree U t ts h :
  models h (t :: ts) U -> unshared t ->
  exists h' k, cJSON_Delete (root t) h = inl (tt, h') /\ models h' ts U /\
    (size (items h) + size (strs h) = size (items h') + size (strs h') + k)%nat /\
    forall w, exists w', delete_item (value t) w = inl (tt, w') /\
      live w' = live w - Z.of_nat k.
Proof.
  intros Hm Hu. destruct (wp_run _ _ _ (tree_delete t ts (fun _ h' => models h' ts U) Hm
    (fun h' Hm' => Hm'))) as ([] & h' & E & Hm'). exists h', (length (cells t) + length (cells t ≫= owned))%nat.
  split_and!; [done|done|by eapply models_sizes|]. intros w.
  pose proof (delete_item_spec (fun _ => False) _ w (unshared_value t Hu)) as Hd.
  unfold CJson.wp in Hd. destruct (delete_item (value t) w) as [[[] w']|f]; [|done].
  exists w'. split; [done|]. rewrite (tree_blocks t Hu). by apply Hd.
Qed.

(** C24. [cJSON_GetObjectItem] returns the first child whose name is the one asked for when
    the case of letters is ignored, the null pointer if there is none, and changes nothing. *)
Theorem get_object_item_spec U C obj string' s h :
  models h (plug C obj) U -> is_ref (tdata obj) = false -> (string', s) ∈ U ->
  exists r, cJSON_GetObjectItem (root obj) string' h = inl (r, h) /\
    ((r = 0 /\ Forall (fun t => ~ tnamed s t) (tkids obj)) \/
     exists j t, r = root t /\ r <> 0 /\ tkids obj !! j = Some t /\ tnamed s t /\
       forall i u, (i < j)%nat -> tkids obj !! i = Some u -> ~ tnamed s u).
Proof.
  intros Hm Hr Hin. destruct (models_user Hm Hin) as [Hs Hp0].
  pose proof (tree_get_object_item C obj string' s (fun r h' => h' = h /\
    r = match list_find (tnamed s) (tkids obj) with Some (_, t) => root t | None => 0 end)
    Hm Hr Hp0 Hs (conj eq_refl eq_refl)) as Hw.
  apply wp_run in Hw as (r & h' & E & -> & Hres). exists r. split; [done|].
  destruct (list_find (tnamed s) (tkids obj)) as [[j t]|] eqn:Ef; [right|left].
  - apply list_find_Some in Ef as (Hx & Hn & Hfirst). exists j, t.
    split_and!; [done|rewrite Hres; by apply (kid_not_null Hm Hx)|done|done|].
    intros i u Hi Hu. by eapply Hfirst.
  - apply list_find_None in Ef. by split.
Qed.

(** Giving an item its own name again, as in
    [cJSON_AddItemToObject(object, item->string, item)], reads the name after freeing it. *)
Theorem add_own_name_uses_freed `{AllocatorOk node, AllocatorOk text}
    (malloc_ok : Z -> nat -> Z -> bool) U object i s ts h :
  models h (i :: ts) U -> tname i = Some s ->
  cJSON_AddItemToObject malloc_ok object (string (tdata i)) (root i) h = inr BadPointer.
Proof.
  intros Hm Hn. pose proof (root_not_null Hm ltac:(left)) as Hi0. destruct Hm as [Hp Ht].
  rewrite forest_cons, cells_eq in Hp, Ht. apply Forall_cons in Ht as [(_ & _ & Hz) _].
  destruct (placed_lookup Hp (tcell i)) as (n & Hl & Hc); [left|]. change (core n = tdata i) in Hc.
  assert (string (tdata i) <> 0) as Hs0 by (intros E; apply Hz in E; cbn in E; congruence).
  assert (strs h !! string (tdata i) = Some s) as Hs.
  { eapply (placed_string Hp (tcell i)); [left|]. unfold owned. apply elem_of_app. right.
    cbn. rewrite Hn. left. }
  unfold cJSON_AddItemToObject. rewrite (proj2 (Z.eqb_neq _ 0) Hi0).
  unfold mbind, St_bind, load. cbn [addr tcell] in Hl. rewrite Hl.
  change (string n) with (string (core n)). rewrite Hc, (proj2 (Z.eqb_neq _ 0) Hs0).
  unfold when, free_str. cbn [negb]. rewrite Hs. unfold cJSON_strdup, mbind, St_bind, load_str.
  cbn [strs set_strs]. by rewrite lookup_delete_eq.
Qed.

(** The name of an item may be seen as a string nobody owns. *)
Lemma placed_forget_name h rs c cs U s :
  placed h rs (c :: cs) U -> name c = Some s ->
  placed h rs (Cell (addr c) (data c) (vtext c) None (kids c) :: cs) ((string (data c), s) :: U).
Proof.
  intros [Hi Hs HC Hcov Hz Ht] Hn. split; [exact Hi| |exact HC|exact Hcov|done|done].
  rewrite Hs. cbn [mbind list_bind]. rewrite <- Permutation_middle. unfold owned at 1 3.
  cbn [data vtext name]. rewrite Hn. cbn [held]. rewrite app_nil_r, <- !(assoc_L app). cbn [app].
  by rewrite <- Permutation_middle.
Qed.

(** [cJSON_ReplaceItemInObject] does not free the name the new item already has: after
    the replacement that string is still allocated and belongs to no item. *)
Theorem replace_in_object_leaks_name
    `{AllocatorOk node, AllocatorOk text} (malloc_ok : Z -> nat -> Z -> bool)
    U C obj i us p s s0 j x h :
  models h (i :: us) U -> at_path us C obj -> (p, s) ∈ U -> tname i = Some s0 ->
  list_find (tnamed s) (tkids obj) = Some (j, x) ->
  exists h' i', cJSON_ReplaceItemInObject malloc_ok (root obj) p (root i) h = inl (tt, h') /\
    rename i s i' /\
    models h' (plug C (with_tkids obj (<[j := i']> (tkids obj)))) ((string (tdata i), s0) :: U).
Proof.
  intros Hm (Hus & Hr & Hmax) Hin Hn Hf. destruct (models_user Hm Hin) as [Hs Hp0].
  rewrite Hus in Hm.
  assert (models h (plug (beside i C) obj) U) as Hb by (by rewrite plug_beside).
  assert (wp (cJSON_ReplaceItemInObject malloc_ok (root obj) p (root i)) h (fun _ h' =>
    exists i', rename i s i' /\
      models h' (plug C (with_tkids obj (<[j := i']> (tkids obj)))) ((string (tdata i), s0) :: U)))
    as Hw.
  { apply (tree_name_index (beside i C) obj p s _ _ Hb Hr Hp0 Hs Hmax). rewrite Hf.
    apply list_find_Some in Hf as (Hx & _).
    rewrite (proj2 (Z.eqb_neq _ 0) (kid_not_null Hb Hx)). cbn [negb].
    destruct Hm as [Hp Ht]. rewrite forest_cons, cells_eq in Hp, Ht.
    apply Forall_cons in Ht as [(Hv & Hk & Hz) Hts].
    pose proof (placed_forget_name _ _ _ _ _ _ Hp Hn) as Hp'.
    eapply (wp_rename malloc_ok _ i _); [exact Hp'|done|by split_and!|exact Hs|].
    intros q o h1 Ho Htd Hp1.
    assert (models h1 (with_name i q o :: plug C obj) ((string (tdata i), s0) :: U)) as Hm1.
    { split; rewrite forest_cons, cells_eq; [exact Hp1|by constructor]. }
    apply (tree_replace C obj (Z.of_nat j) (with_name i q o) _ Hm1 Hr).
    - rewrite Nat2Z.id. congruence.
    - intros h2 _ Hm2. rewrite Nat2Z.id in Hm2. exists (with_name i q o).
      split; [exists q, o; split; [tauto|done]|exact Hm2]. }
  apply wp_run in Hw as ([] & h' & E & i' & Hi' & Hm'). eauto.
Qed.

(** ** A concrete heap *)

(** [{"Ab": "hi"}] at address 1, a number named [y] at 3, and two strings of the client. *)
Definition sample_string : node := Node 0 0 0 cJSON_String 1 0 zero 2.
Definition sample_object : node := Node 0 0 2 cJSON_Object 0 0 zero 0.
Definition sample_number : node := Node 0 0 0 cJSON_Number 0 0 zero 3.

Definition sample : heap :=
  Heap (<[3 := sample_number]> (<[1 := sample_object]> {[2 := sample_string]}))
    (<[3 := [121]]> (<[1 := [104; 105]]> (<[2 := [65; 98]]>
      (<[100 := [97; 66]]> {[101 := [120]]}))))
    0 libc_malloc libc_free.

Definition sample_tree : tree :=
  Tree 1 sample_object None None [Tree 2 sample_string (Some [104; 105]) (Some [65; 98]) []].
Definition sample_leaf : tree := Tree 3 sample_number None (Some [121]) [].
Definition sample_strings : list (Z * text) := [(100, [97; 66]); (101, [120])].

Lemma sample_models : models sample [sample_leaf; sample_tree] sample_strings.
Proof.
  split; [|by repeat constructor]. split; [| | |done|done|].
  - replace (core <$> items sample) with (items sample) by (vm_compute; reflexivity).
    repeat (apply bindings_insert; [|done]). by rewrite map_to_list_empty.
  - repeat (apply bindings_insert; [|done]). by rewrite map_to_list_empty.
  - replace (chains _ _) with [(3, [3]); (1, [1]); (0, []); (2, [2]); (0, [])]
      by (vm_compute; reflexivity).
    rewrite !Forall_cons, Forall_nil. cbn [fst snd].
    split_and!; [..|done]; first [by exists 0
      |eapply singleton_dlist; [done|vm_compute; reflexivity|done]].
  - repeat apply map_Forall_insert_2; try apply map_Forall_singleton; by repeat constructor.
Qed.

(** ** Witnesses *)

Import BumpAllocator.

Definition always (f : Z) (n : nat) (size : Z) : bool := true.

(** Put a new array into a new object, copy the object, release both. *)
Definition build_and_copy : client :=
  Call (Make MakeObject) (fun o =>
    if o =? 0 then Done
    else Call (Copy o true) (fun c =>
      if c =? 0 then Call (DeleteTree o) (fun _ => Done)
      else Call (AddToArray o c) (fun _ => Call (DeleteTree o) (fun _ => Done)))).

Lemma made_object t o : value t = made MakeObject o -> tkids t = [] /\ is_ref (tdata t) = false.
Proof.
  destruct t as [a d v s ks]. cbn. intros [= E1 _ _ _ _ E2]. apply map_eq_nil in E2.
  split; [done|]. unfold is_ref. by rewrite E1.
Qed.

Lemma build_and_copy_allowed : keeps_to [] (fun ts => ts = []) [] build_and_copy.
Proof.
  eapply keeps_call; [by apply may_make|].
  intros r ts [[-> ->]|(t & o & -> & Hne & Hv & -> & _)]; [by apply keeps_done|].
  rewrite (proj2 (Z.eqb_neq _ 0) Hne). apply made_object in Hv as [Hk Hr].
  eapply keeps_call.
  { apply (may_copy _ _ (Top []) t); [done|]. unfold unshared. rewrite cells_eq, Hk.
    by constructor. }
  intros c ts' [[-> ->]|(t' & -> & Hne' & _ & ->)].
  - cbn [Z.eqb]. eapply keeps_call; [by apply (may_delete _ _ _ [])|].
    intros r2 ts2 [_ ->]. by apply keeps_done.
  - rewrite (proj2 (Z.eqb_neq _ 0) Hne'). eapply keeps_call.
    { apply (may_add _ _ (Top []) t t' [t]); [done|]. split; [done|]. split; [done|].
      by rewrite Hk. }
    intros r2 ts2 [_ ->]. eapply keeps_call; [by apply (may_delete _ _ (add t t') [])|].
    intros r3 ts3 [_ ->]. by apply keeps_done.
Qed.

Lemma client_refines_trees_witness :
  exists h' ts', run_client always build_and_copy (Heap ∅ ∅ 0 libc_malloc libc_free) = inl (tt, h') /\
    ts' = [] /\ models h' ts' [] /\ (ts' = [] -> items h' = ∅ /\ map_to_list (strs h') ≡ₚ []).
Proof.
  apply (client_refines_trees always [] (fun ts => ts = []) [] build_and_copy).
  - apply build_and_copy_allowed.
  - split; [|done]. split; done.
Defined.

Lemma sample_plug : models sample (plug (Top [sample_leaf]) sample_tree) sample_strings.
Proof. cbn [plug]. rewrite (Permutation_swap sample_leaf). exact sample_models. Qed.

Lemma duplicate_deep_copy_witness :
  exists p h', cJSON_Duplicate always 1 true sample = inl (p, h') /\
    ((p = 0 /\ models h' [sample_tree; sample_leaf] sample_strings) \/
     exists t', p = root t' /\ p <> 0 /\ value t' = value sample_tree /\
       models h' [t'; sample_tree; sample_leaf] sample_strings /\
       (forall a, a ∈ addrs [t'] -> a ∉ addrs [sample_tree; sample_leaf]) /\
       (forall s, s ∈ strings [t'] -> s ∉ strings [sample_tree; sample_leaf])).
Proof.
  apply (duplicate_deep_copy always sample_strings (Top [sample_leaf]) sample_tree true sample).
  - exact sample_plug.
  - by repeat constructor.
Defined.

Lemma delete_releases_tree_witness :
  exists h' k, cJSON_Delete 1 sample = inl (tt, h') /\ models h' [sample_leaf] sample_strings /\
    (size (items sample) + size (strs sample) = size (items h') + size (strs h') + k)%nat /\
    forall w, exists w', delete_item (value sample_tree) w = inl (tt, w') /\
      live w' = live w - Z.of_nat k.
Proof.
  apply (delete_releases_tree sample_strings sample_tree [sample_leaf] sample).
  - exact sample_plug.
  - by repeat constructor.
Defined.

Lemma get_object_item_spec_witness :
  exists r, cJSON_GetObjectItem 1 100 sample = inl (r, sample) /\
    ((r = 0 /\ Forall (fun t => ~ tnamed [97; 66] t) (tkids sample_tree)) \/
     exists j t, r = root t /\ r <> 0 /\ tkids sample_tree !! j = Some t /\ tnamed [97; 66] t /\
       forall i u, (i < j)%nat -> tkids sample_tree !! i = Some u -> ~ tnamed [97; 66] u).
Proof.
  apply (get_object_item_spec sample_strings (Top [sample_leaf]) sample_tree 100 [97; 66] sample).
  - exact sample_plug.
  - reflexivity.
  - left.
Defined.

Lemma add_own_name_uses_freed_witness :
  cJSON_AddItemToObject always 1 3 3 sample = inr BadPointer.
Proof.
  apply (add_own_name_uses_freed always sample_strings 1 sample_leaf [121] [sample_tree] sample).
  - exact sample_models.
  - reflexivity.
Defined.

Lemma replace_in_object_leaks_name_witness :
  exists h' i', cJSON_ReplaceItemInObject always 1 100 3 sample = inl (tt, h') /\
    rename sample_leaf [97; 66] i' /\
    models h' [with_tkids sample_tree [i']] ((3, [121]) :: sample_strings).
Proof.
  apply (replace_in_object_leaks_name always sample_strings (Top []) sample_tree sample_leaf
    [sample_tree] 100 [97; 66] [121] 0 (Tree 2 sample_string (Some [104; 105]) (Some [65; 98]) [])).
  - exact sample_models.
  - split_and!; done.
  - left.
  - reflexivity.
  - vm_compute. reflexivity.
Defined.
