(* ===== verification/CJsonArrays.v ===== *)
(** The constructors of whole arrays in src/demo_json/cJSON.c ([cJSON_CreateIntArray] and the
    three like it): what they build when there is memory, and what happens when there is not. *)

From S2P Require Import Prelude Double Linked Heap CJson CJsonHeap CJsonTree CJsonApi CJsonClient.

Lemma made_array t o : value t = made MakeArray o -> tkids t = [] /\ is_ref (tdata t) = false.
Proof.
  destruct t as [a d v s ks]. cbn. intros [= E1 _ _ _ _ E2]. apply map_eq_nil in E2.
  split; [done|]. unfold is_ref. by rewrite E1.
Qed.

Section Appending.
Context {U : list (Z * text)}.

Lemma with_tkids_same h T ts :
  models h (T :: ts) U -> is_ref (tdata T) = false -> with_tkids T (tkids T) = T.
Proof using Type.
  intros Hm Hr. apply (models_plug h [] (Top ts)) in Hm as [Hp _].
  destruct (owner_facts (c := tcell T) Hr Hp) as (n & _ & _ & _ & _ & Hhd & _).
  cbn [data kids tcell] in Hhd. unfold with_tkids. rewrite set_child_same by done. by destruct T.
Qed.

(** The first element becomes the child, each other one is put behind the last. *)
Lemma wp_append_element h T t ts (Q : unit -> heap -> Prop) :
  models h (t :: T :: ts) U -> is_ref (tdata T) = false ->
  (forall h', models h' (with_tkids T (tkids T ++ [t]) :: ts) U -> Q tt h') ->
  wp (if bool_decide (tkids T = []) then modify (root T) (set_child (root t))
      else suffix_object (default 0 (root <$> last (tkids T))) (root t)) h Q.
Proof using Type.
  intros Hm Hr HQ. pose proof (wp_append_copy ts T t h Q Hm Hr HQ) as Hw.
  destruct (last (tkids T)) as [k|] eqn:El.
  - apply last_Some in El as [l El]. rewrite bool_decide_false by (rewrite El; by destruct l).
    assert (root k <> 0) as Hk.
    { rewrite (Permutation_swap T t) in Hm.
      apply (kid_not_null (C := Top (t :: ts)) (obj := T) (j := length l) Hm).
      rewrite El. by apply list_lookup_middle. }
    cbn [fmap option_fmap option_map from_option id] in *.
    by rewrite (proj2 (Z.eqb_neq _ 0) Hk) in Hw.
  - apply last_None in El. by rewrite bool_decide_true.
Qed.

End Appending.

Section Arrays.
Context `{AllocatorOk node, AllocatorOk text} (malloc_ok : Z -> nat -> Z -> bool).
Context {U : list (Z * text)}.

(** *** With enough memory *)

Section enough.
Context (Hok : forall f n size, malloc_ok f n size = true).

Lemma new_item_result {A} (f : Z -> St unit) (k : Z -> St A) h :
  exists h1, (item ← cJSON_New_Item malloc_ok; k item) h = k (Heap.malloc (items h)) h1.
Proof using Hok.
  unfold mbind, St_bind, cJSON_New_Item, malloc_item. rewrite Hok. eauto.
Qed.

Lemma wp_item_not_null (f : Z -> St unit) h (Q : Z -> heap -> Prop) :
  wp (item ← cJSON_New_Item malloc_ok; _ ← f item; mret item) h Q ->
  wp (item ← cJSON_New_Item malloc_ok; _ ← f item; mret item) h (fun p h' => p <> 0 /\ Q p h').
Proof using All.
  intros Hw. unfold wp in *.
  destruct (new_item_result f (fun item => _ ← f item; mret item) h) as [h1 E].
  rewrite E in *. unfold mbind, St_bind, mret, St_ret in *.
  destruct (f _ h1) as [[[] h2]|e]; [|done]. split; [apply malloc_not_null|done].
Qed.

Lemma wp_make_not_null m h (Q : Z -> heap -> Prop) :
  wp (make malloc_ok m) h Q -> wp (make malloc_ok m) h (fun p h' => p <> 0 /\ Q p h').
Proof using All. destruct m; apply wp_item_not_null. Qed.

(** What [made] says for the string the pointer leads to. *)
Definition text_of (m : maker) (o : option text) : Prop :=
  match m with
  | MakeString p => o = None \/ exists s, o = Some s /\ (p, s) ∈ U
  | _ => True
  end.

Lemma wp_create_loop {A} (mk : A -> maker) elems ts T (Q : unit -> heap -> Prop) h :
  (forall x p, x ∈ elems -> mk x = MakeString p -> exists s, (p, s) ∈ U) ->
  models h (T :: ts) U -> is_ref (tdata T) = false ->
  (forall ks h', Forall2 (fun x k => exists o, value k = made (mk x) o /\ text_of (mk x) o) elems ks ->
    models h' (with_tkids T (tkids T ++ ks) :: ts) U -> Q tt h') ->
  wp (create_loop (fun x => make malloc_ok (mk x)) (bool_decide (tkids T = [])) (root T)
    (default 0 (root <$> last (tkids T))) elems) h Q.
Proof using All.
  revert T h. induction elems as [|x elems IH]; intros T h Hread Hm Hr HQ; cbn [create_loop].
  - apply wp_return, (HQ [] h); [constructor|]. by rewrite app_nil_r, (with_tkids_same (U := U) h T ts).
  - apply wp_seq. eapply wp_weaken; [apply wp_make_not_null, (run_make malloc_ok _ _ (mk x) Hm)|].
    { destruct (mk x) eqn:E; try done. eapply Hread; [left|done]. }
    intros p h1 (Hp & ts1 & [[-> _]|(t & o & -> & _ & Hv & -> & Ho)] & Hm1); [done|].
    apply wp_seq, (wp_append_element (U := U) _ _ _ ts); [done|done|]. intros h2 Hm2.
    set (T' := with_tkids T (tkids T ++ [t])) in *.
    assert (bool_decide (tkids T' = []) = false) as E1.
    { apply bool_decide_false. unfold T'. cbn [tkids with_tkids]. by destruct (tkids T). }
    assert (default 0 (root <$> last (tkids T')) = root t) as E2.
    { unfold T'. cbn [tkids with_tkids]. by rewrite last_snoc. }
    change (root T) with (root T'). rewrite <- E1, <- E2. apply IH; [|exact Hm2|done|].
    + intros y q Hy. apply Hread. by right.
    + intros ks h3 Hks Hm3. apply (HQ (t :: ks)).
      * constructor; [|done]. exists o. split; [done|]. unfold text_of. by destruct (mk x); eauto.
      * unfold T' in Hm3. cbn [tkids with_tkids] in Hm3. by rewrite <- (assoc_L app) in Hm3.
Qed.

(** All the constructors of arrays: the elements are what the constructor of one of them makes. *)
Lemma wp_create_array {A} (mk : A -> maker) elems count ts h (Q : Z -> heap -> Prop) :
  models h ts U -> count <= Z.of_nat (length elems) ->
  (forall x p, x ∈ elems -> mk x = MakeString p -> exists s, (p, s) ∈ U) ->
  (forall T ks h', root T <> 0 -> value T = made MakeArray None -> tkids T = [] ->
    Forall2 (fun x k => exists o, value k = made (mk x) o /\ text_of (mk x) o)
      (take (Z.to_nat count) elems) ks ->
    models h' (with_tkids T ks :: ts) U -> Q (root T) h') ->
  wp (create_array malloc_ok (fun x => make malloc_ok (mk x)) elems count) h Q.
Proof using All.
  intros Hm Hcount Hread HQ. unfold create_array. apply wp_seq.
  eapply wp_weaken; [apply (wp_make_not_null MakeArray), (run_make malloc_ok _ _ MakeArray Hm I)|].
  intros p h1 (Hp & ts1 & [[-> _]|(T & o & -> & _ & Hv & -> & _)] & Hm1); [done|].
  rewrite (proj2 (Z.eqb_neq _ 0) Hp), (proj2 (Z.leb_le _ _) Hcount).
  apply made_array in Hv as Hkr. destruct Hkr as [Hk Hr].
  apply wp_seq.
  assert (bool_decide (tkids T = []) = true) as E1 by (by apply bool_decide_true).
  assert (default 0 (root <$> last (tkids T)) = 0) as E2 by (by rewrite Hk).
  rewrite <- E1, <- E2. apply (wp_create_loop mk _ ts T); [|exact Hm1|exact Hr|].
  - intros x q (j & Hx & _)%elem_of_take. apply Hread. by eapply list_elem_of_lookup_2.
  - intros ks h2 Hks Hm2. apply wp_return, (HQ T ks); [done|exact Hv|done|done|].
    by rewrite Hk in Hm2.
Qed.
End enough.
End Arrays.

(** *** Without *)

Section nothing.
Context `{AllocatorOk node, AllocatorOk text} (malloc_ok : Z -> nat -> Z -> bool).
Context {U : list (Z * text)}.

(** The next call of the allocator for an item. *)
Definition serves (h : heap) (n : nat) : bool :=
  malloc_ok (malloc_fn h) (calls h + n) sizeof_cJSON.

Definition same_calls (h h' : heap) (n : nat) : Prop :=
  calls h' = (calls h + n)%nat /\ malloc_fn h' = malloc_fn h.

Lemma serves_later h h' n m : same_calls h h' n -> serves h' m = serves h (n + m).
Proof using Type. intros [E1 E2]. unfold serves. by rewrite E1, E2, Nat.add_assoc. Qed.

Lemma create_number_calls d h p h' :
  cJSON_CreateNumber malloc_ok d h = inl (p, h') ->
  same_calls h h' 1 /\ (serves h 0 = false -> p = 0) /\ (serves h 0 = true -> p = Heap.malloc (items h)).
Proof using Type.
  unfold cJSON_CreateNumber, serves, mbind, St_bind, cJSON_New_Item, malloc_item.
  rewrite Nat.add_0_r. destruct (malloc_ok _ _ _).
  - destruct (negb _); cbn [when].
    + unfold mbind, St_bind, modify. cbn [items set_items count_call].
      rewrite !lookup_insert_eq. cbn. rewrite lookup_insert_eq. intros [= <- <-].
      split_and!; [split; cbn; lia || done|done|done].
    + intros [= <- <-]. split_and!; [split; cbn; lia || done|done|done].
  - cbn. intros [= <- <-]. split_and!; [split; cbn; lia || done|done|done].
Qed.

Lemma suffix_object_calls q i h h' :
  suffix_object q i h = inl (tt, h') -> same_calls h h' 0.
Proof using Type.
  unfold suffix_object, relink, mbind, St_bind. destruct (st_next _ _ _); [|done].
  destruct (st_prev _ _ _); [|done]. intros [= <-]. split; cbn; [lia|done].
Qed.

Lemma modify_calls p f h h' : modify p f h = inl (tt, h') -> same_calls h h' 0.
Proof using Type.
  unfold modify. destruct (items h !! p); [|done]. intros [= <-]. split; cbn; [lia|done].
Qed.

(** The null pointer is not an item. *)
Lemma null_not_item h ts : models h ts U -> items h !! 0 = None.
Proof using Type.
  intros [Hp _]. apply eq_None_not_Some. intros [n Hn].
  assert (map_to_list (core <$> items h) ≡ₚ entry <$> forest ts) as Hi by apply Hp.
  assert ((0, core n) ∈ map_to_list (core <$> items h)) as Hin.
  { apply elem_of_map_to_list. by rewrite lookup_fmap, Hn. }
  rewrite Hi in Hin. apply list_elem_of_fmap in Hin as (c & Ec & Hc).
  apply (placed_null_item Hp). apply list_elem_of_fmap. exists c. split; [|done].
  by injection Ec.
Qed.

Lemma suffix_null_item q h ts : models h ts U -> suffix_object q 0 h = inr BadPointer.
Proof using Type.
  intros Hz%null_not_item. unfold suffix_object, relink, mbind, St_bind, st_next, st_prev.
  destruct (items h !! q) as [m|] eqn:Eq; [|done]. cbn.
  rewrite lookup_insert_ne by (intros ->; congruence). by rewrite Hz.
Qed.

Lemma suffix_null_prev i h ts : models h ts U -> suffix_object 0 i h = inr BadPointer.
Proof using Type.
  intros Hz%null_not_item. unfold suffix_object, relink, mbind, St_bind, st_next. by rewrite Hz.
Qed.

(** One element: the item made, or the null pointer, and how often the allocator was called. *)
Lemma create_number_run d h ts :
  models h ts U ->
  exists p h1, cJSON_CreateNumber malloc_ok d h = inl (p, h1) /\ same_calls h h1 1 /\
    ((p = 0 /\ models h1 ts U) \/
     (serves h 0 = true /\ exists t, p = root t /\ models h1 (t :: ts) U)).
Proof using All.
  intros Hm. destruct (wp_run _ _ _ (run_make malloc_ok ts h (MakeNumber d) Hm I)) as
    (p & h1 & E & ts1 & Hr & Hm1). cbn [make] in E.
  destruct (create_number_calls _ _ _ _ E) as (Hc & Hf & Ht). exists p, h1.
  split; [done|]. split; [done|]. destruct Hr as [[-> ->]|(t & o & -> & Hne & _ & -> & _)].
  - by left.
  - right. destruct (serves h 0); [eauto|]. by destruct Hne; apply Hf.
Qed.

Abbreviation number_loop := (create_loop (fun i => cJSON_CreateNumber malloc_ok (of_int i))).

(** A loop that goes on behind the null pointer follows it. *)
Lemma loop_behind_null y elems a h ts :
  models h ts U -> number_loop false a 0 (y :: elems) h = inr BadPointer.
Proof using All.
  intros Hm. cbn [create_loop].
  destruct (create_number_run (of_int y) h ts Hm) as (p & h1 & E & _ & Hm1).
  unfold mbind, St_bind. rewrite E.
  destruct Hm1 as [[-> Hm1]|(_ & t & -> & Hm1)]; by rewrite (suffix_null_prev _ _ _ Hm1).
Qed.

(** The child of an item without children is set to the null pointer it already is. *)
Lemma set_null_child T h ts :
  models h (T :: ts) U -> is_ref (tdata T) = false -> tkids T = [] ->
  exists h', modify (root T) (set_child 0) h = inl (tt, h') /\ models h' (T :: ts) U.
Proof using Type.
  intros Hm Hr Hk. pose proof (with_tkids_same h T ts Hm Hr) as E. rewrite Hk in E.
  assert (child (tdata T) = 0) as Hc by (rewrite <- E; done).
  assert (set_child 0 (tdata T) = tdata T) as Ed by (by apply set_child_same).
  destruct (wp_run (modify (root T) (set_child 0)) h (fun _ h' => models h' (T :: ts) U)) as
    ([] & h' & Erun & Hm'); [|eauto].
  apply (tree_modify ts T _ _ Hm); [|by rewrite Ed|by rewrite Ed|].
  - split; [|by rewrite Ed]. intros m <-. done.
  - intros h' _ Hm'. rewrite Ed in Hm'. by destruct T.
Qed.

Lemma create_loop_null elems ts T h n :
  models h (T :: ts) U -> is_ref (tdata T) = false ->
  (n < length elems)%nat -> serves h n = false -> tkids T <> [] \/ (2 <= length elems)%nat ->
  number_loop (bool_decide (tkids T = [])) (root T) (default 0 (root <$> last (tkids T))) elems h =
    inr BadPointer.
Proof using All.
  revert T h n. induction elems as [|x elems IH]; intros T h n Hm Hr Hn Hs Hlen; [cbn in Hn; lia|].
  cbn [create_loop]. destruct (create_number_run (of_int x) h _ Hm) as (p & h1 & E & Hc & Hres).
  unfold mbind at 1, St_bind at 1. rewrite E.
  destruct Hres as [[-> Hm1]|(Hs0 & t & -> & Hm1)].
  - case_bool_decide as Hk.
    + destruct (set_null_child T h1 ts Hm1 Hr Hk) as (h2 & E2 & Hm2).
      unfold mbind at 1, St_bind at 1. rewrite E2.
      destruct elems as [|y elems]; [destruct Hlen as [?|Hlen]; [done|cbn in Hlen; lia]|].
      by apply (loop_behind_null _ _ _ _ (T :: ts)).
    + unfold mbind at 1, St_bind at 1. by rewrite (suffix_null_item _ _ _ Hm1).
  - destruct n as [|n]; [congruence|]. cbn [length] in Hn.
    destruct (wp_run _ _ (fun _ h' => models h' (with_tkids T (tkids T ++ [t]) :: ts) U)
      (wp_append_element h1 T t ts _ Hm1 Hr (fun h' Hm' => Hm'))) as ([] & h2 & E2 & Hm2).
    unfold mbind at 1, St_bind at 1. rewrite E2.
    assert (same_calls h1 h2 0) as Hc2.
    { revert E2. case_bool_decide; [apply modify_calls|apply suffix_object_calls]. }
    set (T' := with_tkids T (tkids T ++ [t])) in *.
    assert (bool_decide (tkids T' = []) = false) as E3.
    { apply bool_decide_false. unfold T'. cbn [tkids with_tkids]. by destruct (tkids T). }
    assert (default 0 (root <$> last (tkids T')) = root t) as E4.
    { unfold T'. cbn [tkids with_tkids]. by rewrite last_snoc. }
    change (root T) with (root T'). rewrite <- E3, <- E4. apply (IH T' h2 n); [done|done|lia| |].
    + rewrite (serves_later h1 h2 0) by done. by rewrite (serves_later h h1 1).
    + left. unfold T'. cbn [tkids with_tkids]. by destruct (tkids T).
Qed.

Lemma create_array_calls h p h' :
  cJSON_CreateArray malloc_ok h = inl (p, h') -> same_calls h h' 1.
Proof using Type.
  unfold cJSON_CreateArray, mbind, St_bind, cJSON_New_Item, malloc_item.
  destruct (malloc_ok _ _ _).
  - destruct (negb _); cbn [when].
    + unfold modify. cbn [items set_items count_call]. rewrite lookup_insert_eq.
      intros [= <- <-]. split; cbn; lia || done.
    + intros [= <- <-]. split; cbn; lia || done.
  - cbn. intros [= <- <-]. split; cbn; lia || done.
Qed.
End nothing.

(** C25. With enough memory [cJSON_CreateIntArray] builds the array of the first [count]
    numbers: a new tree whose children are number items with exactly these values, in order. *)
Theorem create_int_array_spec `{AllocatorOk node, AllocatorOk text}
    (malloc_ok : Z -> nat -> Z -> bool) U numbers count ts h :
  (forall f n size, malloc_ok f n size = true) -> models h ts U ->
  Forall (fun n => INT_MIN <= n <= INT_MAX) numbers -> count <= Z.of_nat (length numbers) ->
  exists t h', cJSON_CreateIntArray malloc_ok numbers count h = inl (root t, h') /\ root t <> 0 /\
    models h' (t :: ts) U /\
    value t = Item cJSON_Array None 0 zero None
      (map (fun n => Item cJSON_Number None n (of_int n) None []) (take (Z.to_nat count) numbers)).
Proof.
  intros Hok Hm Hint Hcount.
  destruct (wp_run (cJSON_CreateIntArray malloc_ok numbers count) h (fun p h' => exists t,
    p = root t /\ root t <> 0 /\ models h' (t :: ts) U /\
    value t = Item cJSON_Array None 0 zero None (map (fun n => Item cJSON_Number None n (of_int n)
      None []) (take (Z.to_nat count) numbers)))) as (p & h' & E & t & -> & Hrest); [|eauto].
  apply (wp_create_array malloc_ok Hok (fun n => MakeNumber (of_int n)) numbers count ts h _ Hm Hcount);
    [done|].
  intros T ks h' Hne Hv Hk Hks Hm'. exists (with_tkids T ks). split_and!; [done|done|done|].
  rewrite value_with_tkids, Hv. unfold CJson.set_child. cbn. f_equal.
  clear Hm'. apply (Forall_take _ (Z.to_nat count)) in Hint. revert Hint.
  induction Hks as [|n k ns ks (o & Hvk & _) _ IH]; intros Hint; [done|].
  apply Forall_cons in Hint as [Hn Hint]. cbn [map]. rewrite Hvk, IH by done. cbn [made].
  by rewrite to_int_of_int.
Qed.

(** C26. When the array can be allocated and one of at least two elements cannot,
    [cJSON_CreateIntArray] does not return: it follows the null pointer. *)
Theorem create_int_array_null_element `{AllocatorOk node, AllocatorOk text}
    (malloc_ok : Z -> nat -> Z -> bool) U numbers count n ts h :
  models h ts U -> 2 <= count <= Z.of_nat (length numbers) ->
  serves malloc_ok h 0 = true -> 0 <= Z.of_nat n < count -> serves malloc_ok h (S n) = false ->
  cJSON_CreateIntArray malloc_ok numbers count h = inr BadPointer.
Proof.
  intros Hm Hcount Hs0 Hn Hsn.
  destruct (wp_run _ _ _ (run_make malloc_ok ts h MakeArray Hm I)) as (p & h1 & E & ts1 & Hr & Hm1).
  cbn [make] in E. pose proof (create_array_calls malloc_ok _ _ _ E) as Hc.
  assert (p <> 0) as Hp.
  { revert E. unfold cJSON_CreateArray, mbind, St_bind, cJSON_New_Item, malloc_item.
    unfold serves in Hs0. rewrite Nat.add_0_r in Hs0. rewrite Hs0.
    assert (Heap.malloc (items h) <> 0) as Hne by apply malloc_not_null.
    rewrite (proj2 (Z.eqb_neq _ 0) Hne). cbn [negb when]. unfold modify.
    cbn [items set_items count_call]. rewrite lookup_insert_eq. by intros [= <- <-]. }
  destruct Hr as [[-> _]|(T & o & -> & _ & Hv & -> & _)]; [done|].
  unfold cJSON_CreateIntArray, create_array, mbind at 1, St_bind at 1. rewrite E.
  rewrite (proj2 (Z.eqb_neq _ 0) Hp), (proj2 (Z.leb_le count _)) by lia.
  apply made_array in Hv as Hkr. destruct Hkr as [Hk Hr].
  pose proof (create_loop_null malloc_ok (take (Z.to_nat count) numbers) ts T h1 n Hm1 Hr) as Hl.
  rewrite Hk in Hl. unfold mbind at 1, St_bind at 1. cbn in Hl. rewrite Hl; [done| | |].
  - rewrite length_take. lia.
  - by rewrite (serves_later malloc_ok h h1 1).
  - right. rewrite length_take. lia.
Qed.

Import BumpAllocator.

Lemma create_int_array_spec_witness :
  exists t h', cJSON_CreateIntArray always [7; -1; 3] 2 sample = inl (root t, h') /\ root t <> 0 /\
    models h' [t; sample_leaf; sample_tree] sample_strings /\
    value t = Item cJSON_Array None 0 zero None
      [Item cJSON_Number None 7 (of_int 7) None []; Item cJSON_Number None (-1) (of_int (-1)) None []].
Proof.
  apply (create_int_array_spec always sample_strings [7; -1; 3] 2 [sample_leaf; sample_tree] sample).
  - reflexivity.
  - exact sample_models.
  - unfold INT_MIN, INT_MAX. repeat constructor; lia.
  - cbn. lia.
Defined.

(** The third call of the allocator fails. *)
Definition third_fails (f : Z) (n : nat) (size : Z) : bool := negb (n =? 2)%nat.

Lemma create_int_array_null_element_witness :
  cJSON_CreateIntArray third_fails [7; -1; 3] 3 sample = inr BadPointer.
Proof.
  apply (create_int_array_null_element third_fails sample_strings [7; -1; 3] 3 1
    [sample_leaf; sample_tree] sample).
  - exact sample_models.
  - cbn. lia.
  - reflexivity.
  - lia.
  - reflexivity.
Defined.
