(* ===== verification/CJsonDocument.v ===== *)
(** A JSON document from beginning to end, src/demo_json/cJSON.c: a program creates it item by
    item with the functions of CJsonHeap.v, prints it, parses the text and releases it. *)

From S2P Require Import Prelude Double Linked Heap CJson CJsonPrint CJsonParse CJsonHeap CJsonTree.
From S2P Require Import CJsonApi CJsonClient CJsonArrays.

(** ** Documents *)

Inductive document : Set :=
| JNull
| JBool (b : bool)
| JInt (n : Z)
| JString (s : text)
| JArray (ds : list document)
| JObject (ms : list (text * document)).

Section document_ind.
Context (P : document -> Prop).
Context (Hnull : P JNull) (Hbool : forall b, P (JBool b)) (Hint : forall n, P (JInt n))
  (Hstring : forall s, P (JString s)) (Harray : forall ds, Forall P ds -> P (JArray ds))
  (Hobject : forall ms, Forall (fun m => P (snd m)) ms -> P (JObject ms)).

Lemma document_induction d : P d.
Proof using All.
  revert d. fix IH 1. intros [| | | |ds|ms]; [done|apply Hbool|apply Hint|apply Hstring| |].
  - apply Harray. induction ds as [|d ds IHds]; constructor; [apply IH|exact IHds].
  - apply Hobject. induction ms as [|[k d] ms IHms]; constructor; [apply IH|exact IHms].
Qed.
End document_ind.

(** The item of a document. [cJSON_CreateTrue] and [parse_value] disagree about [valueint]. *)
Fixpoint item_of (truth : Z) (name : option text) (d : document) : cJSON :=
  match d with
  | JNull => Item cJSON_NULL None 0 zero name []
  | JBool b => Item (if b then cJSON_True else cJSON_False) None (if b then truth else 0) zero name []
  | JInt n => Item cJSON_Number None n (of_int n) name []
  | JString s => Item cJSON_String (Some s) 0 zero name []
  | JArray ds => Item cJSON_Array None 0 zero name (map (item_of truth None) ds)
  | JObject ms =>
      Item cJSON_Object None 0 zero name (map (fun '(k, d) => item_of truth (Some k) d) ms)
  end.

(** The document of an item. *)
Fixpoint document_of (c : cJSON) : document :=
  if CJson.type c =? cJSON_False then JBool false
  else if CJson.type c =? cJSON_True then JBool true
  else if CJson.type c =? cJSON_Number then JInt (CJson.valueint c)
  else if CJson.type c =? cJSON_String then JString (default [] (CJson.valuestring c))
  else if CJson.type c =? cJSON_Array then JArray (map document_of (CJson.child c))
  else if CJson.type c =? cJSON_Object then
    JObject (map (fun c => (default [] (CJson.string c), document_of c)) (CJson.child c))
  else JNull.

Lemma string_item_of truth name d : CJson.string (item_of truth name d) = name.
Proof. by destruct d. Qed.

Lemma set_string_item_of truth name o d :
  CJson.set_string o (item_of truth name d) = item_of truth o d.
Proof. by destruct d. Qed.

Lemma map_Forall_id {A B} (f : A -> B) (g : B -> A) l : Forall (fun x => g (f x) = x) l -> map g (map f l) = l.
Proof. induction 1 as [|x l Hx _ IH]; [done|]. cbn [map]. by rewrite Hx, IH. Qed.

Lemma document_of_item_of truth name d : document_of (item_of truth name d) = d.
Proof.
  revert name. induction d as [|[]| | |ds IH|ms IH] using document_induction; intros name; try done;
    cbn; f_equal; apply map_Forall_id; (eapply Forall_impl; [exact IH|]).
  - by intros d Hd.
  - intros [k d] Hd. cbn in *. by rewrite Hd, string_item_of.
Qed.

(** ** The program *)

Section Build.
Context `{Allocator node, Allocator text} (malloc_ok : Z -> nat -> Z -> bool).
(** Where the strings of the program are. *)
Context (literal : text -> Z).

Fixpoint build (d : document) : St Z :=
  match d with
  | JNull => cJSON_CreateNull malloc_ok
  | JBool b => cJSON_CreateBool malloc_ok (Z.b2z b)
  | JInt n => cJSON_CreateNumber malloc_ok (of_int n)
  | JString s => cJSON_CreateString malloc_ok (literal s)
  | JArray ds =>
      a ← cJSON_CreateArray malloc_ok;
      _ ← (fix elements ds := match ds with
           | [] => mret tt
           | d :: ds => i ← build d; _ ← cJSON_AddItemToArray a i; elements ds
           end) ds;
      mret a
  | JObject ms =>
      o ← cJSON_CreateObject malloc_ok;
      _ ← (fix members ms := match ms with
           | [] => mret tt
           | (k, d) :: ms =>
               i ← build d; _ ← cJSON_AddItemToObject malloc_ok o (literal k) i; members ms
           end) ms;
      mret o
  end.
End Build.

(** The item at an address, read the way the printer walks over it. *)
Definition read_text (p : Z) : St (option text) :=
  if p =? 0 then mret None else s ← load_str p; mret (Some s).

Fixpoint read_chain (read : Z -> St cJSON) (fuel : nat) (c : Z) : St (list cJSON) :=
  match fuel with
  | O => throw NoFuel
  | S fuel =>
      if c =? 0 then mret [] else
      i ← read c;
      n ← load c;
      rest ← read_chain read fuel (next n);
      mret (i :: rest)
  end.

Fixpoint read_loop (fuel : nat) (p : Z) : St cJSON :=
  match fuel with
  | O => throw NoFuel
  | S fuel =>
      n ← load p;
      v ← read_text (valuestring n);
      s ← read_text (string n);
      cs ← read_chain (read_loop fuel) fuel (child n);
      mret (Item (type n) v (valueint n) (valuedouble n) s cs)
  end.

Definition read_item (p : Z) : St cJSON := fuelled (fun fuel => read_loop fuel p).

(** The numbers fit an [int], the strings are C strings of the program. *)
Inductive writable (U : list (Z * text)) (literal : text -> Z) : document -> Prop :=
| writable_null : writable U literal JNull
| writable_bool b : writable U literal (JBool b)
| writable_int n : INT_MIN <= n <= INT_MAX -> writable U literal (JInt n)
| writable_string s : c_string s -> (literal s, s) ∈ U -> writable U literal (JString s)
| writable_array ds : Forall (writable U literal) ds -> writable U literal (JArray ds)
| writable_object ms :
    Forall (fun m => c_string (fst m) /\ (literal (fst m), fst m) ∈ U) ms ->
    Forall (fun m => writable U literal (snd m)) ms -> writable U literal (JObject ms).

(** ** Building *)

Section building.
Context `{AllocatorOk node, AllocatorOk text} (malloc_ok : Z -> nat -> Z -> bool).
Context (Hok : forall f n size, malloc_ok f n size = true).
Context {U : list (Z * text)} (literal : text -> Z).

Lemma never_refuses : ~ refuses malloc_ok.
Proof using Hok. intros (f & n & size & E). by rewrite Hok in E. Qed.

(** A constructor makes its item. *)
Lemma wp_make_item ts m o h (Q : Z -> heap -> Prop) :
  models h ts U -> (forall p, m = MakeString p -> exists s, o = Some s /\ (p, s) ∈ U) ->
  (forall t h', root t <> 0 -> value t = made m o -> models h' (t :: ts) U -> Q (root t) h') ->
  wp (make malloc_ok m) h Q.
Proof using All.
  intros Hm Ho HQ. eapply wp_weaken; [apply (wp_make_not_null malloc_ok (U := U) Hok m)|].
  - apply (tree_make malloc_ok ts m h (fun p h' =>
      p = 0 \/ exists t, p = root t /\ value t = made m o /\ models h' (t :: ts) U) Hm).
    + destruct m; try done. destruct (Ho _ eq_refl) as (s & _ & Hin). exists s. by apply (models_user Hm).
    + intros h' _. by left.
    + intros t o' h' _ Hv Ho' Hm'. right. exists t. split_and!; [done| |done]. rewrite Hv.
      destruct m as [| | | | |p| |]; try done. destruct (Ho p eq_refl) as (s & -> & Hin).
      destruct (Ho' p eq_refl) as [[_ Hno]|Es]; [by destruct never_refuses|].
      by rewrite Es, (proj1 (models_user Hm Hin)).
  - cbn. intros p h' (Hne & [->|(t & -> & Hv & Hm')]); [done|]. by apply HQ.
Qed.

(** What building a document promises, next to any other trees. *)
Definition builds (d : document) : Prop :=
  forall ts h (Q : Z -> heap -> Prop), models h ts U ->
  (forall t h', root t <> 0 -> value t = item_of 0 None d -> models h' (t :: ts) U -> Q (root t) h') ->
  wp (build malloc_ok literal d) h Q.

Lemma wp_elements T ts ds h (Q : unit -> heap -> Prop) :
  Forall builds ds -> models h (T :: ts) U -> is_ref (tdata T) = false ->
  (forall ks h', map value ks = map (item_of 0 None) ds ->
    models h' (with_tkids T (tkids T ++ ks) :: ts) U -> Q tt h') ->
  wp ((fix elements ds := match ds with
       | [] => mret tt
       | d :: ds => i ← build malloc_ok literal d; _ ← cJSON_AddItemToArray (root T) i; elements ds
       end) ds) h Q.
Proof using All.
  intros Hds. revert T h. induction Hds as [|d ds Hd _ IH]; intros T h Hm Hr HQ.
  - apply wp_return, (HQ []); [done|]. by rewrite app_nil_r, (with_tkids_same (U := U) h T ts).
  - apply wp_seq, (Hd (T :: ts) _ _ Hm). intros t h1 _ Hv Hm1.
    apply wp_seq, (tree_add (Top ts) T t _ Hm1 Hr). intros h2 _ Hm2. cbn [plug] in Hm2.
    set (T' := with_tkids T (tkids T ++ [t])) in *. change (root T) with (root T').
    apply IH; [exact Hm2|exact Hr|]. intros ks h3 Hks Hm3. apply (HQ (t :: ks)).
    + cbn [map]. by rewrite Hv, Hks.
    + unfold T' in Hm3. cbn [tkids with_tkids] in Hm3. by rewrite <- (assoc_L app) in Hm3.
Qed.

Lemma value_with_name t p o : value (with_name t p o) = CJson.set_string o (value t).
Proof using Type. by destruct t. Qed.

Lemma wp_members T ts ms h (Q : unit -> heap -> Prop) :
  Forall (fun m => builds (snd m)) ms -> Forall (fun m => (literal (fst m), fst m) ∈ U) ms ->
  models h (T :: ts) U -> is_ref (tdata T) = false ->
  (forall ks h', map value ks = map (fun '(k, d) => item_of 0 (Some k) d) ms ->
    models h' (with_tkids T (tkids T ++ ks) :: ts) U -> Q tt h') ->
  wp ((fix members ms := match ms with
       | [] => mret tt
       | (k, d) :: ms =>
           i ← build malloc_ok literal d;
           _ ← cJSON_AddItemToObject malloc_ok (root T) (literal k) i; members ms
       end) ms) h Q.
Proof using All.
  intros Hds. revert T h. induction Hds as [|[k d] ms Hd _ IH]; intros T h Hin Hm Hr HQ.
  - apply wp_return, (HQ []); [done|]. by rewrite app_nil_r, (with_tkids_same (U := U) h T ts).
  - apply Forall_cons in Hin as [Hk Hin]. cbn [fst snd] in *.
    apply wp_seq, (Hd (T :: ts) _ _ Hm). intros t h1 _ Hv Hm1.
    apply wp_seq, (tree_add_object malloc_ok (Top ts) T t (literal k) k _ Hm1 Hr).
    { by apply (models_user Hm1). }
    { by apply (user_not_name Hm1 Hk). }
    intros p o h2 [->|[_ Hno]] Hm2; [|by destruct never_refuses]. cbn [plug] in Hm2.
    set (T' := with_tkids T (tkids T ++ [with_name t p (Some k)])) in *.
    change (root T) with (root T'). apply IH; [exact Hin|exact Hm2|exact Hr|].
    intros ks h3 Hks Hm3. apply (HQ (with_name t p (Some k) :: ks)).
    + cbn [map]. by rewrite value_with_name, Hv, set_string_item_of, Hks.
    + unfold T' in Hm3. cbn [tkids with_tkids] in Hm3. by rewrite <- (assoc_L app) in Hm3.
Qed.

Lemma build_spec d : writable U literal d -> builds d.
Proof using All.
  induction d as [|b|n|s|ds IH|ms IH] using document_induction; intros Hw ts h Q Hm HQ;
    inversion Hw; subst; cbn [build].
  - apply (wp_make_item ts MakeNull None h Q Hm); [done|exact HQ].
  - apply (wp_make_item ts (MakeBool (Z.b2z b)) None h Q Hm); [done|].
    intros t h' Hne Hv. apply HQ; [done|]. rewrite Hv. by destruct b.
  - apply (wp_make_item ts (MakeNumber (of_int n)) None h Q Hm); [done|].
    intros t h' Hne Hv. apply HQ; [done|]. rewrite Hv. cbn [made]. by rewrite to_int_of_int.
  - apply (wp_make_item ts (MakeString (literal s)) (Some s) h Q Hm); [|exact HQ].
    intros p [= <-]. eauto.
  - apply wp_seq, (wp_make_item ts MakeArray None h _ Hm); [done|].
    intros T h1 Hne Hv Hm1. apply made_array in Hv as Hk. destruct Hk as [Hk Hr].
    apply wp_seq, (wp_elements T ts ds); [|exact Hm1|exact Hr|].
    { rewrite Forall_forall in *. intros d Hd. auto. }
    intros ks h2 Hks Hm2. apply wp_return, (HQ (with_tkids T ks)); [done| |by rewrite Hk in Hm2].
    by rewrite value_with_tkids, Hv, Hks.
  - apply wp_seq, (wp_make_item ts MakeObject None h _ Hm); [done|].
    intros T h1 Hne Hv Hm1. apply made_object in Hv as Hk. destruct Hk as [Hk Hr].
    apply wp_seq, (wp_members T ts ms); [| |exact Hm1|exact Hr|].
    { rewrite Forall_forall in *. intros d Hd. auto. }
    { match goal with H : Forall (fun m => c_string _ /\ _) _ |- _ => eapply Forall_impl; [exact H|] end.
      by intros m []. }
    intros ks h2 Hks Hm2. apply wp_return, (HQ (with_tkids T ks)); [done| |by rewrite Hk in Hm2].
    by rewrite value_with_tkids, Hv, Hks.
Qed.
End building.

(** ** Reading *)

Section reading.
Context {U : list (Z * text)}.

Lemma wp_read_text h p o (Q : option text -> heap -> Prop) :
  holds_text (strs h) p o -> Q o h -> wp (read_text p) h Q.
Proof using Type.
  intros Ho HQ. unfold read_text. destruct o as [s|]; cbn in Ho.
  - destruct Ho as [Hp Hs]. rewrite (proj2 (Z.eqb_neq _ 0) Hp).
    apply wp_seq. eapply wp_load_str; [done|]. by apply wp_return.
  - subst p. by apply wp_return.
Qed.

Lemma wp_read_chain read fuel h ts t k1 k2 (Q : list cJSON -> heap -> Prop) :
  models h ts U -> tcell t ∈ forest ts -> is_ref (tdata t) = false -> tkids t = k1 ++ k2 ->
  (forall k (P : cJSON -> heap -> Prop), k ∈ k2 -> P (value k) h -> wp (read (root k)) h P) ->
  (length k2 < fuel)%nat -> Q (map value k2) h ->
  wp (read_chain read fuel (hd 0 (root <$> k2))) h Q.
Proof using Type.
  intros Hm Hin Hr. revert fuel k1 Q. induction k2 as [|k k2 IH]; intros [|fuel] k1 Q Ek Hread Hf HQ;
    try (cbn [length] in Hf; lia); cbn [read_chain fmap list_fmap hd].
  - by apply wp_return.
  - destruct Hm as [Hp Ht].
    destruct (kid_next (tcell t) (root <$> k1) (root k) (root <$> k2) Hp Hin Hr) as (Hk & n & Hn & Hnx).
    { cbn [kids tcell]. by rewrite Ek, fmap_app. }
    rewrite (proj2 (Z.eqb_neq _ 0) Hk). apply wp_seq, Hread; [left|].
    apply wp_seq. eapply wp_load; [exact Hn|]. rewrite Hnx. apply wp_seq, (IH fuel (k1 ++ [k])).
    + by rewrite <- (assoc_L app).
    + intros k' P Hk'. apply Hread. by right.
    + cbn [length] in Hf. lia.
    + by apply wp_return.
Qed.

Lemma wp_read_loop fuel h ts t (Q : cJSON -> heap -> Prop) :
  models h ts U -> cells t ⊆ forest ts -> unshared t -> (length (cells t) < fuel)%nat ->
  Q (value t) h -> wp (read_loop fuel (root t)) h Q.
Proof using Type.
  intros Hm. revert t Q. induction fuel as [|fuel IH]; intros t Q Hsub Hu Hf HQ; [lia|].
  pose proof (unshared_root _ Hu) as Hr. assert (tcell t ∈ forest ts) as Hin by apply Hsub, root_in_cells.
  cbn [read_loop]. apply (wp_load_tree ts t h _ _ Hm Hin Hr). intros n Hc Hv Hs Hch.
  apply wp_seq, (wp_read_text _ _ (tvtext t)); [done|].
  apply wp_seq, (wp_read_text _ _ (tname t)); [done|].
  rewrite Hch. apply wp_seq, (wp_read_chain _ _ h ts t [] (tkids t)); [done|done|done|done| | |].
  - intros k P Hk HP. pose proof Hk as (l1 & l2 & E)%list_elem_of_split.
    assert (cells k ⊆ forest (tkids t)) as Hkc.
    { intros c Hck. rewrite E, forest_app, forest_cons. set_solver. }
    apply IH; [|by apply (unshared_kids t)| |done].
    + intros c Hck. apply Hsub. rewrite cells_eq. right. by apply Hkc.
    + rewrite cells_eq, E, forest_app, forest_cons in Hf. cbn [length] in Hf.
      rewrite !length_app in Hf. lia.
  - rewrite cells_eq in Hf. cbn [length] in Hf.
    assert (length (tkids t) <= length (forest (tkids t)))%nat; [|lia].
    clear. induction (tkids t) as [|k ks IHk]; [done|]. rewrite forest_cons, cells_eq, length_app.
    cbn [length]. lia.
  - apply wp_return. destruct t as [a d v s ks]. cbn in *. by rewrite <- Hc in HQ.
Qed.

Lemma read_tree h t ts :
  models h (t :: ts) U -> unshared t -> read_item (root t) h = inl (value t, h).
Proof using Type.
  intros Hm Hu.
  destruct (wp_run (read_item (root t)) h (fun c h' => c = value t /\ h' = h)) as (c & h' & E & -> & ->);
    [|done].
  apply wp_fuelled. apply (wp_read_loop _ _ (t :: ts)); [done| |done| |done].
  - rewrite forest_cons. set_solver.
  - destruct Hm as [Hp _]. rewrite (placed_size Hp), forest_cons, length_app. lia.
Qed.
End reading.

(** A tree without references is built from the types of a document. *)
Lemma item_of_unshared truth d : forall name t, value t = item_of truth name d -> unshared t.
Proof.
  assert (forall t, (type (tdata t) <= 6 /\ 0 <= type (tdata t)) -> Forall unshared (tkids t) -> unshared t)
    as Hnode.
  { intros t Hty Hks. unfold unshared. rewrite cells_eq. constructor.
    - change (is_ref (tdata t) = false). unfold is_ref.
      assert (type (tdata t) = 0 \/ type (tdata t) = 1 \/ type (tdata t) = 2 \/ type (tdata t) = 3 \/
        type (tdata t) = 4 \/ type (tdata t) = 5 \/ type (tdata t) = 6) as Hcases by lia.
      by destruct Hcases as [->|[->|[->|[->|[->|[->| ->]]]]]].
    - induction Hks as [|k ks Hk _ IH]; [constructor|]. rewrite forest_cons. by apply Forall_app. }
  induction d as [|b|n|s|ds IH|ms IH] using document_induction; intros name t Hv; apply Hnode;
    destruct t as [a dt v s' ks]; cbn in *; injection Hv as Ety _ _ _ _ Eks; rewrite ?Ety;
    try (by apply map_eq_nil in Eks; subst); try done; try (by destruct b).
  - clear -IH Eks. revert ks Eks. induction IH as [|d ds Hd _ IHds]; intros [|k ks]; try done; cbn;
      intros [= Ek Eks]; constructor; eauto.
  - clear -IH Eks. revert ks Eks. induction IH as [|[key d] ms Hd _ IHms]; intros [|k ks]; try done; cbn;
      intros [= Ek Eks]; constructor; eauto.
Qed.

(** ** Printing and parsing *)

(** [valueint] of a truth value is not printed. *)
Lemma render_item_of fmt truth truth' name d :
  forall depth, render fmt (item_of truth name d) depth = render fmt (item_of truth' name d) depth.
Proof.
  revert name. induction d as [|[]| | |ds IH|ms IH] using document_induction; intros name depth; try done;
    cbn; f_equal; rewrite !map_map; apply map_ext_in; rewrite Forall_forall in IH.
  - intros d Hd%list_elem_of_In. by apply IH.
  - intros [k d] Hd%list_elem_of_In. rewrite !string_item_of. f_equal. by apply (IH (k, d)).
Qed.

Lemma item_of_canonical U literal d name : writable U literal d -> canonical (item_of 1 name d).
Proof.
  revert name. induction d as [|[]| | |ds IH|ms IH] using document_induction; intros name Hw;
    inversion Hw; subst; cbn; constructor; try done; try (apply Forall_map); rewrite Forall_forall in *.
  - intros d Hd. by apply IH; auto.
  - intros d Hd. by rewrite string_item_of.
  - intros [k d] Hd. by apply (IH (k, d)); auto.
  - intros [k d] Hd. exists k. rewrite string_item_of. split; [done|].
    by match goal with H : forall x, x ∈ ms -> c_string _ /\ _ |- _ => apply (H (k, d)) end.
Qed.

Lemma item_of_printable U literal d truth name :
  writable U literal d -> INT_MIN <= truth <= INT_MAX -> printable (item_of truth name d).
Proof.
  intros Hw Ht. revert name Hw.
  induction d as [|[]|n| |ds IH|ms IH] using document_induction;
    intros name Hw; inversion Hw; subst; constructor; cbn; try done;
    try (by unfold INT_MIN, INT_MAX in *; lia); try (apply Forall_map); rewrite ?Forall_forall in *.
  - by apply valid_of_int.
  - intros d Hd. auto.
  - intros [k d] Hd. by apply (IH (k, d)); auto.
Qed.

Section texts.
Context (malloc_ok : nat -> Z -> bool) (Hok : forall n size, malloc_ok n size = true).
Context (pow : double -> double -> double) (Hpow : pow (of_int 10) zero = of_int 1).

(** The text of a document parses to the document. *)
Lemma document_text U literal fmt d truth w :
  writable U literal d -> length_z (render fmt (item_of truth None d) 0) <= INT_MAX ->
  exists w', cJSON_ParseWithOpts malloc_ok pow (Some (render fmt (item_of truth None d) 0)) false true w
    = inl ((Some (item_of 1 None d), None), w').
Proof using Hok Hpow.
  intros Hw Hl. rewrite (render_item_of fmt truth 1) in *.
  pose proof (parse_text_back malloc_ok Hok pow Hpow fmt (item_of 1 None d) 0 w false true
    (item_of_canonical _ _ _ _ Hw) (string_item_of _ _ _) Hl) as H. unfold CJson.wp in H.
  destruct (cJSON_ParseWithOpts _ _ _ _ _ w) as [[r w']|f]; [|done]. destruct H as (-> & _). eauto.
Qed.

Lemma document_printed U literal fmt d w :
  writable U literal d -> room (render fmt (item_of 0 None d) 0) ->
  exists w', print_value malloc_ok (Some (item_of 0 None d)) 0 fmt w
    = inl (Some (render fmt (item_of 0 None d) 0), w').
Proof using Hok.
  intros Hw Hr. assert (printable (item_of 0 None d)) as Hp.
  { eapply item_of_printable; [exact Hw|]. unfold INT_MIN, INT_MAX. lia. }
  pose proof (print_item_spec malloc_ok fmt _ 0 w Hp ltac:(lia) Hr) as H. unfold CJson.wp in H.
  cbn [print_value]. destruct (print_item malloc_ok fmt _ 0 w) as [[[s|] w']|f]; [| |done].
  - destruct H as (_ & -> & _). eauto.
  - destruct H as (_ & (n & size & Hn) & _). by rewrite Hok in Hn.
Qed.
End texts.

(** Different documents have different texts, formatted or not. *)
Theorem document_text_injective U literal fmt d d' :
  writable U literal d -> writable U literal d' ->
  length_z (render fmt (item_of 0 None d) 0) <= INT_MAX ->
  render fmt (item_of 0 None d) 0 = render fmt (item_of 0 None d') 0 -> d = d'.
Proof.
  intros Hw Hw' Hl E.
  destruct (document_text (fun _ _ => true) ltac:(done) no_pow eq_refl U literal fmt d 0 (World 0 0 None) Hw Hl)
    as [w1 E1].
  rewrite E in Hl, E1.
  destruct (document_text (fun _ _ => true) ltac:(done) no_pow eq_refl U literal fmt d' 0 (World 0 0 None) Hw' Hl)
    as [w2 E2].
  rewrite E1 in E2. injection E2 as E2 _.
  by rewrite <- (document_of_item_of 1 None d), E2, document_of_item_of.
Qed.

(** C8. The life of a document whose numbers are of type [int] and whose text is shorter than a
    gigabyte. A program that creates it item by item, with a [malloc] that does not fail, next to
    whatever other trees there are, gets a tree from which the document can be read; printing the
    tree and parsing the text, formatted or not, gives the document back, and deleting the tree
    leaves the other trees and no more. *)
Theorem document_roundtrip
    `{AllocatorOk node, AllocatorOk text} (malloc_ok : Z -> nat -> Z -> bool)
    (text_ok : nat -> Z -> bool) pow U literal fmt d ts h w :
  (forall f n size, malloc_ok f n size = true) -> (forall n size, text_ok n size = true) ->
  pow (of_int 10) zero = of_int 1 -> models h ts U -> writable U literal d ->
  room (render fmt (item_of 0 None d) 0) ->
  exists p h1 c s w1 c' w2 h2,
    build malloc_ok literal d h = inl (p, h1) /\
    read_item p h1 = inl (c, h1) /\ document_of c = d /\
    print_value text_ok (Some c) 0 fmt w = inl (Some s, w1) /\
    cJSON_ParseWithOpts text_ok pow (Some s) false true w1 = inl ((Some c', None), w2) /\
    document_of c' = d /\
    cJSON_Delete p h1 = inl (tt, h2) /\ models h2 ts U.
Proof.
  intros Hok Htok Hpow Hm Hw Hr.
  destruct (wp_run (build malloc_ok literal d) h (fun p h1 => exists t, p = root t /\
    value t = item_of 0 None d /\ models h1 (t :: ts) U)) as (p & h1 & E & t & -> & Hv & Hm1).
  { apply (build_spec malloc_ok Hok literal d Hw ts h _ Hm). eauto. }
  pose proof (read_tree h1 t ts Hm1 (item_of_unshared _ _ _ _ Hv)) as Hread. rewrite Hv in Hread.
  destruct (document_printed text_ok Htok U literal fmt d w Hw Hr) as [w1 Hp].
  destruct (document_text text_ok Htok pow Hpow U literal fmt d 0 w1 Hw) as [w2 Ht].
  { unfold room, length_z in *. lia. }
  destruct (wp_run (cJSON_Delete (root t)) h1 (fun _ h2 => models h2 ts U)) as ([] & h2 & Hd & Hm2).
  { apply (tree_delete t ts _ Hm1). auto. }
  eexists _, h1, _, _, w1, _, w2, h2.
  by split_and!; [exact E|exact Hread|apply document_of_item_of|exact Hp|exact Ht
    |apply document_of_item_of|exact Hd|exact Hm2].
Qed.

(** ** Witnesses *)

(** [{"x": [1, true, "aB"], "aB": null}], with the two strings of the sample heap. *)
Definition sample_document : document :=
  JObject [([120], JArray [JInt 1; JBool true; JString [97; 66]]); ([97; 66], JNull)].

Definition sample_literal (s : text) : Z := if decide (s = [120]) then 101 else 100.

Lemma sample_writable : writable sample_strings sample_literal sample_document.
Proof.
  assert (forall s, s ∈ [[97; 66]; [120]] ->
    c_string s /\ (sample_literal s, s) ∈ sample_strings) as Hs.
  { intros s. rewrite !elem_of_cons, elem_of_nil. intros [->|[->|[]]]; split;
      try (by repeat constructor); unfold sample_literal, sample_strings; simpl; set_solver. }
  constructor; repeat (apply Forall_cons_2); try constructor; cbn [fst snd].
  all: try apply Hs; try set_solver.
  repeat (apply Forall_cons_2); try constructor; try apply Hs; try set_solver;
    unfold INT_MIN, INT_MAX; lia.
Qed.

Import BumpAllocator.

Lemma document_text_injective_witness :
  sample_document = JObject [([120], JArray [JInt 1; JBool true; JString [97; 66]]); ([97; 66], JNull)].
Proof.
  apply (document_text_injective sample_strings sample_literal false);
    [exact sample_writable|exact sample_writable|vm_compute; discriminate|reflexivity].
Defined.

Lemma document_roundtrip_witness :
  exists p h1 c s w1 c' w2 h2,
    build always sample_literal sample_document sample = inl (p, h1) /\
    read_item p h1 = inl (c, h1) /\ document_of c = sample_document /\
    print_value (fun _ _ => true) (Some c) 0 true (World 0 0 None) = inl (Some s, w1) /\
    cJSON_ParseWithOpts (fun _ _ => true) no_pow (Some s) false true w1 = inl ((Some c', None), w2) /\
    document_of c' = sample_document /\
    cJSON_Delete p h1 = inl (tt, h2) /\ models h2 [sample_leaf; sample_tree] sample_strings.
Proof.
  apply (document_roundtrip always (fun _ _ => true) no_pow sample_strings sample_literal true
    sample_document [sample_leaf; sample_tree] sample (World 0 0 None)).
  - reflexivity.
  - reflexivity.
  - reflexivity.
  - exact sample_models.
  - exact sample_writable.
  - vm_compute. discriminate.
Defined.
