(* ===== verification/CJsonDemo.v ===== *)
(** The program of src/demo_json/demo_json.c: it creates a document with strings, numbers and
    arrays, prints it, minifies the text and deletes the document. *)

From Stdlib Require Import SpecFloat Ascii String.
From S2P Require Import Prelude Double Heap CJson CJsonHeap CJsonDocument.

Definition str (s : String.string) : text := map (fun c => Z.of_N (N_of_ascii c)) (list_ascii_of_string s).

(** A [float] constant with the value [m * 2 ^ e]. *)
Definition float_const (m e : Z) : double := binary_normalize 53 1024 m e false.

Section Program.
Context `{Allocator node, Allocator text} (malloc_ok : Z -> nat -> Z -> bool).
(** Where the string constants are, and the value of [time(NULL)]. *)
Context (literal : text -> Z) (now : Z).

Abbreviation lit s := (literal (str s)).

(** The document, up to where it is printed. *)
(* src/demo_json/demo_json.c:12-40 main *)
Definition main_root : St Z :=
  root ← cJSON_CreateObject malloc_ok;
  i ← cJSON_CreateString malloc_ok (lit "i am String");
  _ ← cJSON_AddItemToObject malloc_ok root (lit "string") i;
  i ← cJSON_CreateBool malloc_ok 0;
  _ ← cJSON_AddItemToObject malloc_ok root (lit "bool") i;
  i ← cJSON_CreateNumber malloc_ok (of_int 100);
  _ ← cJSON_AddItemToObject malloc_ok root (lit "number") i;
  i ← cJSON_CreateNumber malloc_ok (of_int now);
  _ ← cJSON_AddItemToObject malloc_ok root (lit "timestamp") i;
  i ← cJSON_CreateNull malloc_ok;
  _ ← cJSON_AddItemToObject malloc_ok root (lit "null") i;
  sub ← cJSON_CreateObject malloc_ok;
  _ ← cJSON_AddItemToObject malloc_ok root (lit "sub") sub;
  arr ← cJSON_CreateArray malloc_ok;
  i ← cJSON_CreateObject malloc_ok;
  _ ← cJSON_AddItemToArray arr i;
  _ ← cJSON_AddItemToObject malloc_ok root (lit "arr") arr;
  strArr ← cJSON_CreateStringArray malloc_ok [lit "str1"; lit "str2"] 2;
  _ ← cJSON_AddItemToObject malloc_ok sub (lit "str_arr") strArr;
  fltArr ← cJSON_CreateFloatArray malloc_ok
    [float_const 13170115 (-22); float_const 13212058 (-22); float_const 13254001 (-22)] 3;
  _ ← cJSON_AddItemToObject malloc_ok sub (lit "float_arr") fltArr;
  mret root.
End Program.

(** What is printed, first as it is and then minified, and what is left of the memory. A null
    pointer from [cJSON_Print] would be followed by [cJSON_Minify]. *)
(* src/demo_json/demo_json.c:10-57 main *)
Definition main `{Allocator node, Allocator text} (malloc_ok : Z -> nat -> Z -> bool)
    (text_ok : nat -> Z -> bool) (literal : text -> Z) (now : Z) (h : heap) (w : world)
    : option (text * text * heap * world) :=
  match main_root malloc_ok literal now h with
  | inr _ => None
  | inl (root, h) =>
      match read_item root h with
      | inr _ => None
      | inl (c, h) =>
          match cJSON_Print text_ok (Some c) w with
          | inl (Some json, w) =>
              match cJSON_Minify json w, cJSON_Delete root h with
              | inl (small, w), inl (_, h) => Some (json, small, h, w)
              | _, _ => None
              end
          | _ => None
          end
      end
  end.

(** ** What it prints *)

Import BumpAllocator.

Definition constants : list text :=
  map str ["i am String"; "string"; "bool"; "number"; "timestamp"; "null"; "sub"; "arr"; "str1"; "str2";
    "str_arr"; "float_arr"]%string.

(** The constants of the program, at addresses of their own, and nothing else. *)
Definition start : heap := Heap ∅ (list_to_map (zip (seqZ 1 12) constants)) 0 libc_malloc libc_free.

Definition at_constant (s : text) : Z :=
  match list_find (fun t => t = s) constants with Some (i, _) => 1 + Z.of_nat i | None => 0 end.

(** A quote stands for the apostrophe of the texts below. *)
Definition quoted (s : String.string) : text := map (fun c => if c =? 39 then 34 else c) (str s).

(** In 2019 and after 2038, when the time is no [int]: the minified text is the document, the heap
    is as it was, and the printed text is never freed. *)
Definition main_prints (now : Z) (stamp : String.string) : Prop :=
  match main (fun _ _ _ => true) (fun _ _ => true) at_constant now start (World 0 0 None) with
  | Some (_, small, h, w) =>
      small = quoted ("{'string':'i am String','bool':false,'number':100,'timestamp':" ++ stamp ++
        ",'null':null,'sub':{'str_arr':['str1','str2'],'float_arr':[3.140000,3.150000,3.160000]}," ++
        "'arr':[{}]}")%string /\
      items h = ∅ /\ strs h = strs start /\ live w = 1
  | None => False
  end.

Theorem main_document : main_prints 1572400000 "1572400000" /\ main_prints 4000000000 "4000000000".
Proof. unfold main_prints. split; vm_compute; repeat split. Qed.
