(* ===== verification/ThreadPool.v ===== *)
(** The thread pool of src/demo_pthread/thread_pool/thread_pool.h.

    Worker threads and the callers of [threadpool_submit] interleave: every thread has a
    program counter, [worker_step] and [client_step] are what a thread does next, and [step]
    lets any thread that is not blocked go on. A mutex is its owner; waiting on the condition
    variable releases it, and a thread leaves the wait when it was signalled or spuriously.
    What a thread does under the lock between two of its calls is one step, because only the
    owner of the lock uses that data. A [TAILQ] is the list of its elements. *)

From stdpp Require Import relations.
From S2P Require Import Prelude.

(* src/demo_pthread/thread_pool/thread_pool.h:23-26 worker_t *)
Record worker_t := Worker_t { t_id : option nat; create_time : Z }.

(* src/demo_pthread/thread_pool/thread_pool.h:28-32 job_t *)
Record job_t := Job { data : list Z; job_length : Z }.

(** Workers and callers, numbered. *)
Inductive thread := Worker (i : nat) | Client (i : nat).

(* src/demo_pthread/thread_pool/thread_pool.h:34-46 thread_pool_t *)
Record thread_pool_t := Pool {
  core_szie : Z;
  max_size : Z;
  current_size : Z;
  max_idle : Z;
  _lock : option thread;
  workers : list worker_t;
  job_queue : list job_t;
  job_size : Z;
  shutdown : bool
}.

Definition set_lock t p := Pool (core_szie p) (max_size p) (current_size p) (max_idle p) t
  (workers p) (job_queue p) (job_size p) (shutdown p).
Definition set_queue q n p := Pool (core_szie p) (max_size p) (current_size p) (max_idle p)
  (_lock p) (workers p) q n (shutdown p).
Definition set_workers n ws p := Pool (core_szie p) (max_size p) n (max_idle p)
  (_lock p) ws (job_queue p) (job_size p) (shutdown p).
Definition set_shutdown p := Pool (core_szie p) (max_size p) (current_size p) (max_idle p)
  (_lock p) (workers p) (job_queue p) (job_size p) true.

(** ** Creating and cancelling workers *)

Section creation.
(** Whether the [i]-th call of [pthread_create], of [pthread_cancel] succeeds; [time(NULL)]. *)
Context (create_ok cancel_ok : nat -> bool) (now : Z).

(** A failed [pthread_create] is only logged: the slot counts, its [t_id] is indeterminate. *)
(* src/demo_pthread/thread_pool/thread_pool.h:117-129 threadpool_incre_worker *)
Definition threadpool_incre_worker (p : thread_pool_t) : thread_pool_t * Z :=
  if max_size p <=? current_size p then (p, -1)
  else
    let i := length (workers p) in
    let w := Worker_t (if create_ok i then Some i else None) now in
    (set_workers (current_size p + 1) (workers p ++ [w]) p, 0).

(** [while (current_size < core_szie) threadpool_incre_worker(threadpool)] *)
(* src/demo_pthread/thread_pool/thread_pool.h:111-113 threadpool_create *)
Fixpoint create_loop (fuel : nat) (p : thread_pool_t) : option thread_pool_t :=
  match fuel with
  | O => None
  | S fuel =>
      if current_size p <? core_szie p then create_loop fuel (threadpool_incre_worker p).1
      else Some p
  end.

(* src/demo_pthread/thread_pool/thread_pool.h:93-115 threadpool_create *)
Definition threadpool_create (fuel : nat) (core_size max_size max_idle : Z) : option thread_pool_t :=
  create_loop fuel (Pool core_size max_size 0 max_idle None [] [] 0 false).

(** [while (worker_tmp && current_size > core_szie)]: the pointer is never null; behind the
    slots in use nothing was ever stored. *)
(* src/demo_pthread/thread_pool/thread_pool.h:138-145 threadpool_decre_worker *)
Fixpoint decre_loop (fuel : nat) (i : nat) (p : thread_pool_t) : option thread_pool_t :=
  match fuel with
  | O => None
  | S fuel =>
      if core_szie p <? current_size p then
        w ← workers p !! i;
        let p := if (max_idle p <=? now - create_time w) && cancel_ok i
                 then set_workers (current_size p - 1) (workers p) p else p in
        decre_loop fuel (S i) p
      else Some p
  end.

(* src/demo_pthread/thread_pool/thread_pool.h:131-147 threadpool_decre_worker *)
Definition threadpool_decre_worker (p : thread_pool_t) : option (thread_pool_t * Z) :=
  if current_size p <=? core_szie p then Some (p, -1)
  else p ← decre_loop (S (S (length (workers p)))) 0 p; Some (p, 0).
End creation.

(** The pool is freed, whatever its threads do; a locked mutex must not be destroyed. *)
(* src/demo_pthread/thread_pool/thread_pool.h:183-191 threadpool_destroy *)
Definition threadpool_destroy (p : thread_pool_t) : option (option thread_pool_t) :=
  match _lock p with None => Some None | Some _ => None end.

(** ** What a thread does next *)

Inductive worker_pc :=
  | Test                 (* while (!shutdown) *)
  | Lock                 (* pthread_mutex_lock *)
  | Look                 (* while (TAILQ_EMPTY), lock held *)
  | Waiting              (* blocked in pthread_cond_wait *)
  | Woken                (* leaving pthread_cond_wait, which takes the lock again *)
  | Take                 (* TAILQ_FIRST, TAILQ_REMOVE, job_size--, lock held *)
  | Unlock (j : job_t)   (* pthread_mutex_unlock *)
  | Run (j : job_t)      (* job_handler *)
  | Free (j : job_t)     (* threadpool_free_job *)
  | Returned.

(** [None]: the thread is blocked, or has ended. *)
(* src/demo_pthread/thread_pool/thread_pool.h:65-91 threadpool_handler_wrapper *)
Definition worker_step (me : nat) (p : thread_pool_t) (pc : worker_pc)
    : option (thread_pool_t * worker_pc) :=
  match pc with
  | Test => Some (p, if shutdown p then Returned else Lock)
  | Lock | Woken =>
      match _lock p with None => Some (set_lock (Some (Worker me)) p, Look) | Some _ => None end
  | Look =>
      match job_queue p with [] => Some (set_lock None p, Waiting) | _ => Some (p, Take) end
  | Take =>
      match job_queue p with
      | [] => None
      | j :: q => Some (set_queue q (u64 (job_size p - 1)) p, Unlock j)
      end
  | Unlock j => Some (set_lock None p, Run j)
  | Run j => Some (p, Free j)
  | Free j => Some (p, Test)
  | Waiting | Returned => None
  end.

Inductive client_pc :=
  | Copy (d : list Z) (n : Z)  (* malloc, memcpy *)
  | CLock (j : job_t)          (* pthread_mutex_lock *)
  | Insert (j : job_t)         (* TAILQ_INSERT_TAIL, job_size++, lock held *)
  | Signal                     (* pthread_cond_signal, lock held *)
  | CUnlock                    (* pthread_mutex_unlock *)
  | CReturned.

(** The step of [Signal] is in [step]: it also wakes a worker. *)
(* src/demo_pthread/thread_pool/thread_pool.h:149-173 threadpool_submit *)
Definition client_step (me : nat) (p : thread_pool_t) (pc : client_pc)
    : option (thread_pool_t * client_pc) :=
  match pc with
  | Copy d n => Some (p, CLock (Job (take (Z.to_nat n) d) n))
  | CLock j =>
      match _lock p with None => Some (set_lock (Some (Client me)) p, Insert j) | Some _ => None end
  | Insert j => Some (set_queue (job_queue p ++ [j]) (u64 (job_size p + 1)) p, Signal)
  | Signal => Some (p, CUnlock)
  | CUnlock => Some (set_lock None p, CReturned)
  | CReturned => None
  end.

(** ** The system

    [inserted], [taken] and [handled] record the jobs in the order in which they went through
    the queue and through the handler. *)
Record system := System {
  pool : thread_pool_t;
  ws : list worker_pc;
  cs : list client_pc;
  inserted : list job_t;
  taken : list job_t;
  handled : list job_t
}.

Definition takes (pc : worker_pc) (p : thread_pool_t) : list job_t :=
  match pc, job_queue p with Take, j :: _ => [j] | _, _ => [] end.
Definition runs (pc : worker_pc) : list job_t := match pc with Run j => [j] | _ => [] end.
Definition inserts (pc : client_pc) : list job_t := match pc with Insert j => [j] | _ => [] end.

(** [pthread_cond_signal] wakes one waiting thread, if there is any. *)
Inductive signalled : list worker_pc -> list worker_pc -> Prop :=
  | signal_one l k : l !! k = Some Waiting -> signalled l (<[k := Woken]> l)
  | signal_none l : Waiting ∉ l -> signalled l l.

(** A thread that is not blocked does its next step. *)
Inductive move : system -> system -> Prop :=
  | move_worker s i pc p' pc' :
      ws s !! i = Some pc -> worker_step i (pool s) pc = Some (p', pc') ->
      move s (System p' (<[i := pc']> (ws s)) (cs s) (inserted s)
        (taken s ++ takes pc (pool s)) (handled s ++ runs pc))
  | move_client s i pc p' pc' ws' :
      cs s !! i = Some pc -> client_step i (pool s) pc = Some (p', pc') ->
      match pc with Signal => signalled (ws s) ws' | _ => ws' = ws s end ->
      move s (System p' ws' (<[i := pc']> (cs s)) (inserted s ++ inserts pc) (taken s) (handled s)).

(** Besides, a wait may end without a signal, a new caller may arrive, and the program may set
    [shutdown] (test_thread_pool.c does, in a signal handler). *)
Inductive step : system -> system -> Prop :=
  | step_move s s' : move s s' -> step s s'
  | step_spurious s i :
      ws s !! i = Some Waiting ->
      step s (System (pool s) (<[i := Woken]> (ws s)) (cs s) (inserted s) (taken s) (handled s))
  | step_submit s d n :
      n = Z.of_nat (length d) ->
      step s (System (pool s) (ws s) (cs s ++ [Copy d n]) (inserted s) (taken s) (handled s))
  | step_shutdown s :
      step s (System (set_shutdown (pool s)) (ws s) (cs s) (inserted s) (taken s) (handled s)).

(** [n] workers have been started on a pool that was just created. *)
Definition started (p : thread_pool_t) (n : nat) : system :=
  System p (replicate n Test) [] [] [] [].

Definition reachable (p : thread_pool_t) (n : nat) (s : system) : Prop := rtc step (started p n) s.

(** [threadpool_wait] joins every worker: it returns when all of them have. *)
(* src/demo_pthread/thread_pool/thread_pool.h:175-181 threadpool_wait *)
Definition threadpool_wait (s : system) : Prop :=
  forall i, (i < Z.to_nat (current_size (pool s)))%nat -> ws s !! i = Some Returned.

#[export] Instance job_t_eq : EqDecision job_t.
Proof. solve_decision. Defined.

#[export] Instance worker_pc_eq : EqDecision worker_pc.
Proof. solve_decision. Defined.

(** ** The invariant *)

Definition worker_holds (pc : worker_pc) : bool :=
  match pc with Look | Take | Unlock _ => true | _ => false end.
Definition client_holds (pc : client_pc) : bool :=
  match pc with Insert _ | Signal | CUnlock => true | _ => false end.

(** The threads inside a critical section. *)
Definition holds (s : system) (t : thread) : Prop :=
  match t with
  | Worker i => exists pc, ws s !! i = Some pc /\ worker_holds pc = true
  | Client i => exists pc, cs s !! i = Some pc /\ client_holds pc = true
  end.

(** The jobs a worker has removed from the queue and not yet handled. *)
Definition pending (pc : worker_pc) : list job_t :=
  match pc with Unlock j | Run j => [j] | _ => [] end.

Record ok (s : system) : Prop := {
  ok_lock t : holds s t <-> _lock (pool s) = Some t;
  ok_fifo : inserted s = taken s ++ job_queue (pool s);
  ok_size : job_size (pool s) = u64 (Z.of_nat (length (job_queue (pool s))));
  ok_take i : ws s !! i = Some Take -> job_queue (pool s) <> [];
  ok_handled : taken s ≡ₚ handled s ++ (ws s ≫= pending);
  ok_wake : job_queue (pool s) = [] \/ (exists i, cs s !! i = Some Signal) \/
    (exists pc, pc ∈ ws s /\ pc <> Waiting) \/ ws s = [];
  ok_running : shutdown (pool s) = false -> Returned ∉ ws s;
}.

Lemma pending_update l i x y :
  l !! i = Some x -> pending x = pending y -> (<[i := y]> l ≫= pending) ≡ₚ (l ≫= pending).
Proof.
  intros Hi E. pose proof (bind_update pending l i x y Hi) as H. rewrite E in H.
  by apply Permutation_app_inv_r in H.
Qed.

(** A thread that changes nothing but its program counter, and stays in or out of the lock. *)
Lemma holds_update s s' (i : nat) pc pc' t :
  ws s !! i = Some pc -> ws s' = <[i := pc']> (ws s) -> cs s' = cs s ->
  holds s' t <-> (t = Worker i /\ worker_holds pc' = true) \/ (t <> Worker i /\ holds s t).
Proof.
  intros Hi Ew Ec. apply lookup_lt_Some in Hi as Hl. destruct t as [j|j]; cbn [holds].
  - rewrite Ew. destruct (decide (i = j)) as [->|Hne].
    + rewrite list_lookup_insert_eq by done. split.
      * intros (x & [= <-] & Hx). by left.
      * intros [[_ Hx]|[Hne _]]; [by eexists|done].
    + rewrite list_lookup_insert_ne by done. split; [intros H; right; split; [congruence|done]|].
      intros [[[= ->] _]|[_ H]]; done.
  - rewrite Ec. split; [by right|]. by intros [[? _]|[_ H]].
Qed.

Lemma holds_update_client s s' (i : nat) pc pc' t :
  cs s !! i = Some pc -> cs s' = <[i := pc']> (cs s) ->
  (forall j, (exists x, ws s' !! j = Some x /\ worker_holds x = true) <->
     (exists x, ws s !! j = Some x /\ worker_holds x = true)) ->
  holds s' t <-> (t = Client i /\ client_holds pc' = true) \/ (t <> Client i /\ holds s t).
Proof.
  intros Hi Ec Ew. apply lookup_lt_Some in Hi as Hl. destruct t as [j|j]; cbn [holds].
  - rewrite Ew. split; [by right|]. by intros [[? _]|[_ H]].
  - rewrite Ec. destruct (decide (i = j)) as [->|Hne].
    + rewrite list_lookup_insert_eq by done. split.
      * intros (x & [= <-] & Hx). by left.
      * intros [[_ Hx]|[Hne _]]; [by eexists|done].
    + rewrite list_lookup_insert_ne by done. split; [intros H; right; split; [congruence|done]|].
      intros [[[= ->] _]|[_ H]]; done.
Qed.

(** The lock after a step of the thread [t0], which was inside iff [b] and is inside iff [b']. *)
Lemma lock_update s s' t0 (b b' : bool) l' :
  (forall t, holds s t <-> _lock (pool s) = Some t) ->
  (holds s t0 <-> b = true) ->
  (forall t, holds s' t <-> (t = t0 /\ b' = true) \/ (t <> t0 /\ holds s t)) ->
  match b, b' with
  | false, true => _lock (pool s) = None /\ l' = Some t0
  | true, false => l' = None
  | _, _ => l' = _lock (pool s)
  end ->
  forall t, holds s' t <-> l' = Some t.
Proof.
  intros Hl H0 Hs Hb t. rewrite Hs. pose proof (Hl t) as Ht. pose proof (Hl t0) as Ht0.
  destruct b, b'.
  - subst. assert (holds s t0) as H by by apply H0. apply Ht0 in H. rewrite H in *.
    split; [intros [[-> _]|[_ ?]]; [done|by apply Ht]|]. intros [= <-]. by left.
  - subst. assert (_lock (pool s) = Some t0) as H by by apply Ht0, H0.
    split; [intros [[_ ?]|[Hne ?]]; [done|]|done].
    assert (_lock (pool s) = Some t) as H2 by by apply Ht. congruence.
  - destruct Hb as [Hn ->]. rewrite Hn in *. split.
    + intros [[-> _]|[_ ?]]; [done|]. by assert (None = Some t) by by apply Ht.
    + intros [= <-]. by left.
  - subst. rewrite <- Ht. split; [by intros [[_ ?]|[_ ?]]|]. intros H. right. split; [|done].
    intros ->. by apply H0 in H.
Qed.

Lemma holds_worker s i pc : ws s !! i = Some pc -> holds s (Worker i) <-> worker_holds pc = true.
Proof. intros Hi. cbn. rewrite Hi. split; [by intros (? & [= <-] & ?)|by eexists]. Qed.

Lemma holds_client s i pc : cs s !! i = Some pc -> holds s (Client i) <-> client_holds pc = true.
Proof. intros Hi. cbn. rewrite Hi. split; [by intros (? & [= <-] & ?)|by eexists]. Qed.

(** Only the owner of the lock is inside. *)
Lemma inside_alone s t t' : ok s -> holds s t -> holds s t' -> t = t'.
Proof. intros Ho H H'. apply (ok_lock s Ho) in H, H'. congruence. Qed.

Lemma u64_dec n : u64 (u64 (Z.of_nat (S n)) - 1) = u64 (Z.of_nat n).
Proof. rewrite wrap_sub_l. f_equal. lia. Qed.

Lemma u64_inc n : u64 (u64 (Z.of_nat n) + 1) = u64 (Z.of_nat (n + 1)).
Proof. rewrite wrap_add_l. f_equal. lia. Qed.

(** A worker that is not in [Waiting] afterwards leaves no job without a thread that sees it. *)
Lemma wake_awake s i pc pc' (q : list job_t) :
  ws s !! i = Some pc -> pc' <> Waiting ->
  q = [] \/ (exists i, cs s !! i = Some Signal) \/
    (exists pc, pc ∈ <[i := pc']> (ws s) /\ pc <> Waiting) \/ <[i := pc']> (ws s) = [].
Proof. intros Hi Hp. right; right; left. exists pc'. split; [by eapply insert_elem|done]. Qed.

Lemma running_update (b : bool) (l : list worker_pc) i pc' :
  (b = false -> Returned ∉ l) -> (b = false -> pc' <> Returned) ->
  b = false -> Returned ∉ <[i := pc']> l.
Proof. intros Hl Hp Hb [?|?]%elem_of_insert; [by apply Hp|by apply Hl]. Qed.

(** What a worker's step does to the lock, the queue and the job it carries. *)
Lemma worker_step_facts i p pc p' pc' :
  worker_step i p pc = Some (p', pc') ->
  match worker_holds pc, worker_holds pc' with
  | false, true => _lock p = None /\ _lock p' = Some (Worker i)
  | true, false => _lock p' = None
  | _, _ => _lock p' = _lock p
  end /\
  job_queue p = takes pc p ++ job_queue p' /\
  (job_size p = u64 (Z.of_nat (length (job_queue p))) ->
   job_size p' = u64 (Z.of_nat (length (job_queue p')))) /\
  pending pc' ++ runs pc = pending pc ++ takes pc p /\
  (pc <> Take -> job_queue p' = job_queue p) /\
  (pc' = Take -> job_queue p' <> []) /\
  (pc' = Waiting -> job_queue p' = []) /\
  shutdown p' = shutdown p /\
  (pc' = Returned -> shutdown p = true).
Proof.
  intros H. destruct pc; simpl in H; repeat case_match; simplify_eq; cbn;
    repeat match goal with E : job_queue _ = _ |- _ => rewrite E; clear E end; cbn; split_and!;
    try done; try congruence.
  intros ->. apply u64_dec.
Qed.

Lemma ok_worker s i pc p' pc' :
  ok s -> ws s !! i = Some pc -> worker_step i (pool s) pc = Some (p', pc') ->
  ok (System p' (<[i := pc']> (ws s)) (cs s) (inserted s)
    (taken s ++ takes pc (pool s)) (handled s ++ runs pc)).
Proof.
  intros Ho Hi Hstep. pose proof Ho as [Hlock Hfifo Hsize Htake Hhand Hwake Hrun].
  destruct (worker_step_facts _ _ _ _ _ Hstep) as (Fl & Fq & Fs & Fp & Fsame & Ftake & Fwait & Fsd & Fret).
  split; cbn [pool ws cs inserted taken handled].
  - eapply (lock_update s _ (Worker i) (worker_holds pc) (worker_holds pc')); [done| | |exact Fl].
    + by apply holds_worker.
    + intros t. by eapply holds_update.
  - rewrite Hfifo, Fq. by rewrite (assoc_L app).
  - by apply Fs.
  - intros j [(-> & -> & _)|[Hne Hj]]%list_lookup_insert_Some; [by apply Ftake|].
    destruct (decide (pc = Take)) as [->|Hpc]; [|rewrite Fsame by done; by eapply Htake].
    exfalso. apply Hne. assert (Worker i = Worker j) as [= ->]; [|done].
    eapply (inside_alone s); [done|by eexists|by eexists].
  - rewrite Hhand. pose proof (bind_update pending (ws s) i pc pc' Hi) as Hperm.
    rewrite <- !(assoc_L app). f_equiv.
    apply (Permutation_app_inv_r (pending pc)). rewrite <- !(assoc_L app), <- Hperm.
    rewrite (Permutation_app_comm (takes _ _)), <- Fp.
    rewrite (Permutation_app_comm (pending pc')), (assoc_L app).
    by rewrite (Permutation_app_comm _ (runs pc)), <- (assoc_L app).
  - destruct (decide (pc' = Waiting)) as [->|Hw]; [left; by apply Fwait|by eapply wake_awake].
  - rewrite Fsd. apply running_update; [done|]. intros E ->. by rewrite Fret in E.
Qed.

(** ** Callers *)

Lemma client_step_facts i p pc p' pc' :
  client_step i p pc = Some (p', pc') ->
  match client_holds pc, client_holds pc' with
  | false, true => _lock p = None /\ _lock p' = Some (Client i)
  | true, false => _lock p' = None
  | _, _ => _lock p' = _lock p
  end /\
  job_queue p' = job_queue p ++ inserts pc /\
  (job_size p = u64 (Z.of_nat (length (job_queue p))) ->
   job_size p' = u64 (Z.of_nat (length (job_queue p')))) /\
  (inserts pc <> [] -> pc' = Signal) /\
  shutdown p' = shutdown p.
Proof.
  intros H. destruct pc; simpl in H; repeat case_match; simplify_eq; cbn; rewrite ?app_nil_r;
    split_and!; try done.
  intros ->. rewrite length_app. apply u64_inc.
Qed.

(** Waking a worker changes nobody's place but its own. *)
Lemma signalled_facts l l' :
  signalled l l' ->
  l' ≫= pending ≡ₚ l ≫= pending /\
  (forall i pc, pc <> Waiting -> pc <> Woken -> l' !! i = Some pc <-> l !! i = Some pc) /\
  (l = [] \/ exists pc, pc ∈ l' /\ pc <> Waiting).
Proof.
  intros [l0 k Hk|l0 Hn]; split_and!.
  - by apply pending_update with Waiting.
  - intros i pc H1 H2. rewrite list_lookup_insert_Some. split.
    + by intros [(-> & <- & _)|[_ ?]].
    + intros Hi. right. split; [|done]. intros ->. congruence.
  - right. exists Woken. split; [by eapply insert_elem|done].
  - done.
  - done.
  - destruct l0 as [|pc l0]; [by left|right]. exists pc. split; [left|].
    intros ->. apply Hn. left.
Qed.

Lemma ok_client s i pc p' pc' ws' :
  ok s -> cs s !! i = Some pc -> client_step i (pool s) pc = Some (p', pc') ->
  match pc with Signal => signalled (ws s) ws' | _ => ws' = ws s end ->
  ok (System p' ws' (<[i := pc']> (cs s)) (inserted s ++ inserts pc) (taken s) (handled s)).
Proof.
  intros Ho Hi Hstep Hws. pose proof Ho as [Hlock Hfifo Hsize Htake Hhand Hwake Hrun].
  destruct (client_step_facts _ _ _ _ _ Hstep) as (Fl & Fq & Fs & Fi & Fsd).
  assert (ws' ≫= pending ≡ₚ ws s ≫= pending /\
    (forall i pc, pc <> Waiting -> pc <> Woken -> ws' !! i = Some pc <-> ws s !! i = Some pc) /\
    (pc = Signal -> ws s = [] \/ exists pc, pc ∈ ws' /\ pc <> Waiting) /\
    (pc <> Signal -> ws' = ws s)) as (Wp & Wl & Ws & Wsame).
  { destruct pc; try by subst. destruct (signalled_facts _ _ Hws) as (? & ? & ?). done. }
  split; cbn [pool ws cs inserted taken handled].
  - eapply (lock_update s _ (Client i) (client_holds pc) (client_holds pc')); [done| | |exact Fl].
    + by apply holds_client.
    + intros t. eapply holds_update_client; [done|done|]. intros j. cbn [ws].
      split; intros (x & Hx & Hh); exists x; (split; [|done]); apply Wl; try done; by intros ->.
  - by rewrite Hfifo, Fq, (assoc_L app).
  - by apply Fs.
  - intros j Hj. rewrite Fq. apply Wl in Hj; [|done|done]. apply Htake in Hj.
    by intros [? _]%app_eq_nil.
  - by rewrite Wp.
  - destruct (decide (inserts pc = [])) as [E|E].
    2: { right; left. exists i. rewrite (Fi E). apply list_lookup_insert_eq. by eapply lookup_lt_Some. }
    rewrite Fq, E, app_nil_r. destruct Hwake as [?|[[k Hk]|Hw]]; [by left| |].
    + destruct (decide (k = i)) as [->|Hne].
      * right; right. assert (pc = Signal) as -> by congruence.
        destruct (Ws eq_refl) as [Hnil|Hex]; [|by left]. right.
        destruct Hws as [l k Hl|l _]; [by rewrite Hnil in Hl|done].
      * right; left. exists k. by rewrite list_lookup_insert_ne.
    + right; right. destruct (decide (client_holds pc = true /\ inserts pc = [])) as [[Hh _]|Hh].
      * destruct pc; try done; try (by rewrite Wsame).
        destruct (Ws eq_refl) as [Hnil|Hex]; [|by left]. right.
        destruct Hws as [l k Hl|l _]; [by rewrite Hnil in Hl|done].
      * rewrite Wsame; [done|]. intros ->. by apply Hh.
  - intros E Hr. rewrite Fsd in E. apply Hrun; [done|].
    apply list_elem_of_lookup in Hr as [j Hj]. apply Wl in Hj; [|done|done].
    by eapply list_elem_of_lookup_2.
Qed.

(** ** Every step *)

Lemma ok_move s s' : ok s -> move s s' -> ok s'.
Proof.
  intros Ho Hm. revert Ho. destruct Hm; intros Ho; [by eapply ok_worker|by eapply ok_client].
Qed.

Lemma ok_step s s' : ok s -> step s s' -> ok s'.
Proof.
  intros Ho Hst. revert Ho.
  destruct Hst as [s0 s1 Hm|s0 i Hi|s0 d n Hn|s0]; intros Ho.
  - by eapply ok_move.
  - destruct Ho as [Hlock Hfifo Hsize Htake Hhand Hwake Hrun].
    destruct (signalled_facts _ _ (signal_one _ _ Hi)) as (Wp & Wl & Ws).
    split; cbn [pool ws cs inserted taken handled]; try done.
    + intros t. rewrite <- Hlock. destruct t as [j|j]; [|done]. cbn [holds ws].
      split; intros (x & Hx & Hh); exists x; (split; [|done]); apply Wl; try done; by intros ->.
    + intros j Hj. apply Wl in Hj; [by eapply Htake|done|done].
    + by rewrite Wp.
    + right; right; left. exists Woken. split; [by eapply insert_elem|done].
    + intros E. apply running_update with (b := shutdown (pool s0)); [done|done|done].
  - destruct Ho as [Hlock Hfifo Hsize Htake Hhand Hwake Hrun].
    split; cbn [pool ws cs inserted taken handled]; try done.
    + intros t. rewrite <- Hlock. destruct t as [j|j]; [done|]. cbn [holds cs].
      split; intros (x & Hx & Hh).
      * apply lookup_app_Some in Hx as [Hx|[_ Hx]]; [by eexists|].
        apply list_lookup_singleton_Some in Hx as [_ <-]. done.
      * exists x. split; [by apply lookup_app_l_Some|done].
    + destruct Hwake as [?|[[k Hk]|?]]; [by left| |by right; right].
      right; left. exists k. by apply lookup_app_l_Some.
  - destruct Ho as [Hlock Hfifo Hsize Htake Hhand Hwake Hrun]. by split.
Qed.

(** A pool that was just created and [n] workers. *)
Definition idle (p : thread_pool_t) : Prop :=
  _lock p = None /\ job_queue p = [] /\ job_size p = 0 /\ shutdown p = false.

Lemma ok_started p n : idle p -> ok (started p n).
Proof.
  intros (Hl & Hq & Hs & Hd). split; cbn [started pool ws cs inserted taken handled].
  - intros t. rewrite Hl. split; [|done]. destruct t as [i|i]; cbn; intros (pc & Hi & Hh); [|done].
    by apply lookup_replicate in Hi as [-> _].
  - by rewrite Hq.
  - by rewrite Hq, Hs.
  - by intros i [? _]%lookup_replicate.
  - by induction n.
  - by left.
  - intros _ H. by apply elem_of_replicate in H as [? _].
Qed.

Lemma ok_reachable p n s : idle p -> reachable p n s -> ok s.
Proof.
  intros Hp Hr. assert (forall s1 s2, rtc step s1 s2 -> ok s1 -> ok s2) as H.
  { induction 1 as [|x y z Hxy _ IH]; [done|]. intros Ho. apply IH. by eapply ok_step. }
  eapply H; [exact Hr|by apply ok_started].
Qed.

(** ** Nothing is stranded *)

(** The oldest job [j] is still in the queue, and the workers have not been told to stop. *)
Record due (j : job_t) (T : list job_t) (s : system) : Prop := {
  due_ok : ok s;
  due_head : exists q, job_queue (pool s) = j :: q;
  due_taken : taken s = T;
  due_running : shutdown (pool s) = false;
  due_workers : ws s <> [];
}.

(** From [s] the threads can bring [j] out of the queue. *)
Definition leads (j : job_t) (T : list job_t) (s : system) : Prop :=
  exists s', rtc move s s' /\ taken s' = T ++ [j].

Lemma leads_step j T s s' : move s s' -> leads j T s' -> leads j T s.
Proof. intros Hm (s2 & Hr & Ht). exists s2. split; [by eapply rtc_l|done]. Qed.

Lemma insert_not_nil {A} (l : list A) i x : l <> [] -> <[i := x]> l <> [].
Proof. intros Hl H. apply (f_equal length) in H. rewrite length_insert in H. by destruct l. Qed.

(** A worker goes one step on, and does not take the job yet. *)
Lemma worker_goes_on j T s i pc p' pc' :
  due j T s -> ws s !! i = Some pc -> worker_step i (pool s) pc = Some (p', pc') -> pc <> Take ->
  exists s', move s s' /\ due j T s' /\ pool s' = p' /\ ws s' !! i = Some pc'.
Proof.
  intros [Ho [q Hq] Ht Hd Hw] Hi Hs Hne. eexists. split; [by econstructor|].
  destruct (worker_step_facts _ _ _ _ _ Hs) as (_ & _ & _ & _ & Fsame & _ & _ & Fsd & _).
  assert (takes pc (pool s) = []) as E by by destruct pc.
  split; [|split; [done|by apply list_lookup_insert_eq; eapply lookup_lt_Some]].
  split; cbn [pool ws taken].
  - by eapply ok_worker.
  - exists q. by rewrite Fsame.
  - by rewrite E, app_nil_r.
  - congruence.
  - by apply insert_not_nil.
Qed.

Lemma take_leads j T s i : due j T s -> ws s !! i = Some Take -> leads j T s.
Proof.
  intros [Ho [q Hq] Ht Hd Hw] Hi. eexists. split.
  - eapply rtc_once, (move_worker s i Take); [done|]. simpl. by rewrite Hq.
  - cbn [taken takes]. by rewrite Hq, Ht.
Qed.

Ltac go_on H :=
  let s' := fresh "s" in let Hm := fresh "Hm" in let Hd := fresh "Hd" in let Hp := fresh "Hp" in
  let Hw := fresh "Hw" in
  destruct H as (s' & Hm & Hd & Hp & Hw); apply (leads_step _ _ _ _ Hm).

Lemma look_leads j T s i : due j T s -> ws s !! i = Some Look -> leads j T s.
Proof.
  intros Hd Hi. destruct (due_head _ _ _ Hd) as [q Hq].
  assert (worker_step i (pool s) Look = Some (pool s, Take)) as Hs by (simpl; by rewrite Hq).
  go_on (worker_goes_on _ _ _ _ _ _ _ Hd Hi Hs ltac:(done)). by eapply take_leads.
Qed.

(** With the lock free, any worker that is not waiting gets there. *)
Lemma awake_leads j T s i pc :
  due j T s -> _lock (pool s) = None -> ws s !! i = Some pc -> pc <> Waiting -> leads j T s.
Proof.
  assert (forall s, due j T s -> _lock (pool s) = None ->
    (ws s !! i = Some Lock \/ ws s !! i = Some Woken) -> leads j T s) as Hlock.
  { intros s0 Hd Hl Hi.
    assert (exists pc, ws s0 !! i = Some pc /\ pc <> Take /\
      worker_step i (pool s0) pc = Some (set_lock (Some (Worker i)) (pool s0), Look))
      as (pc0 & Hi0 & Hne & Hs).
    { destruct Hi as [Hi|Hi]; eexists; (split; [exact Hi|]); (split; [done|]); simpl; by rewrite Hl. }
    go_on (worker_goes_on _ _ _ _ _ _ _ Hd Hi0 Hs Hne). by eapply look_leads. }
  assert (forall s, due j T s -> _lock (pool s) = None -> ws s !! i = Some Test -> leads j T s) as Htest.
  { intros s0 Hd Hl Hi.
    assert (worker_step i (pool s0) Test = Some (pool s0, Lock)) as Hs.
    { simpl. by rewrite (due_running _ _ _ Hd). }
    go_on (worker_goes_on _ _ _ _ _ _ _ Hd Hi Hs ltac:(done)). apply Hlock; [done|congruence|by left]. }
  assert (forall s jb, due j T s -> _lock (pool s) = None -> ws s !! i = Some (Free jb) -> leads j T s)
    as Hfree.
  { intros s0 jb Hd Hl Hi.
    go_on (worker_goes_on _ _ _ _ _ _ _ Hd Hi eq_refl ltac:(done)). apply Htest; [done|congruence|done]. }
  intros Hd Hl Hi Hne. pose proof (due_ok _ _ _ Hd) as Ho.
  assert (worker_holds pc = false) as Hh.
  { destruct (worker_holds pc) eqn:E; [|done]. assert (holds s (Worker i)) as H by by eexists.
    apply (ok_lock s Ho) in H. congruence. }
  destruct pc; try done; eauto.
  - go_on (worker_goes_on _ _ _ _ _ _ _ Hd Hi eq_refl ltac:(done)). eapply Hfree; [done|congruence|done].
  - exfalso. apply (ok_running s Ho (due_running _ _ _ Hd)). by eapply list_elem_of_lookup_2.
Qed.

Lemma free_leads j T s : due j T s -> _lock (pool s) = None -> leads j T s.
Proof.
  intros Hd Hl. pose proof (due_ok _ _ _ Hd) as Ho. destruct (due_head _ _ _ Hd) as [q Hq].
  destruct (ok_wake s Ho) as [E|[[k Hk]|[(pc & Hin & Hne)|E]]].
  - congruence.
  - assert (holds s (Client k)) as H by by eexists. apply (ok_lock s Ho) in H. congruence.
  - apply list_elem_of_lookup in Hin as [i Hi]. by eapply awake_leads.
  - by destruct (due_workers _ _ _ Hd).
Qed.

(** A caller goes one step on. *)
Lemma client_goes_on j T s i pc p' pc' :
  due j T s -> cs s !! i = Some pc -> client_step i (pool s) pc = Some (p', pc') ->
  exists s', move s s' /\ due j T s' /\ pool s' = p' /\ cs s' !! i = Some pc'.
Proof.
  intros [Ho [q Hq] Ht Hd Hw] Hi Hs.
  assert (exists ws', match pc with Signal => signalled (ws s) ws' | _ => ws' = ws s end /\ ws' <> [])
    as (ws' & Hws & Hne).
  { destruct pc; try (by exists (ws s)). destruct (decide (Waiting ∈ ws s)) as [Hin|Hin].
    - apply list_elem_of_lookup in Hin as [k Hk]. eexists.
      split; [by apply signal_one|by apply insert_not_nil].
    - exists (ws s). split; [by apply signal_none|done]. }
  destruct (client_step_facts _ _ _ _ _ Hs) as (_ & Fq & _ & _ & Fsd).
  exists (System p' ws' (<[i := pc']> (cs s)) (inserted s ++ inserts pc) (taken s) (handled s)).
  split; [by eapply move_client|].
  split; [|split; [done|by apply list_lookup_insert_eq; eapply lookup_lt_Some]].
  split; cbn [pool ws taken]; [by eapply ok_client| |done|congruence|done].
  exists (q ++ inserts pc). by rewrite Fq, Hq.
Qed.

Lemma due_leads j T s : due j T s -> leads j T s.
Proof.
  intros Hd. pose proof (due_ok _ _ _ Hd) as Ho.
  destruct (_lock (pool s)) as [t|] eqn:El; [|by apply free_leads].
  assert (holds s t) as Hh by by apply ok_lock.
  assert (forall s i, due j T s -> cs s !! i = Some CUnlock -> leads j T s) as Hunlock.
  { intros s0 i Hd0 Hi. go_on (client_goes_on _ _ _ _ _ _ _ Hd0 Hi eq_refl).
    apply free_leads; [done|]. by rewrite Hp. }
  assert (forall s i, due j T s -> cs s !! i = Some Signal -> leads j T s) as Hsignal.
  { intros s0 i Hd0 Hi. go_on (client_goes_on _ _ _ _ _ _ _ Hd0 Hi eq_refl). by eapply Hunlock. }
  destruct t as [i|i]; destruct Hh as (pc & Hi & Hh); destruct pc; try done.
  - by eapply look_leads.
  - by eapply take_leads.
  - go_on (worker_goes_on _ _ _ _ _ _ _ Hd Hi eq_refl ltac:(done)).
    apply free_leads; [done|]. by rewrite Hp.
  - go_on (client_goes_on _ _ _ _ _ _ _ Hd Hi eq_refl). by eapply Hsignal.
  - by eapply Hsignal.
  - by eapply Hunlock.
Qed.

(** ** Creation *)

Lemma create_loop_spec create_ok now fuel p :
  0 <= current_size p -> current_size p = Z.of_nat (length (workers p)) ->
  core_szie p <= max_size p -> Z.max 0 (core_szie p - current_size p) < Z.of_nat fuel ->
  exists p', create_loop create_ok now fuel p = Some p' /\
    current_size p' = Z.max (current_size p) (core_szie p) /\
    current_size p' = Z.of_nat (length (workers p')) /\
    _lock p' = _lock p /\ job_queue p' = job_queue p /\ job_size p' = job_size p /\
    shutdown p' = shutdown p.
Proof.
  revert p. induction fuel as [|fuel IH]; intros p H0 Hw Hm Hk; [lia|]. cbn [create_loop].
  destruct (Z.ltb_spec (current_size p) (core_szie p)); [|exists p; split_and!; done || lia].
  unfold threadpool_incre_worker. destruct (Z.leb_spec (max_size p) (current_size p)); [lia|].
  cbn [fst]. match goal with |- context [create_loop _ _ _ ?q] => set (p1 := q) end.
  destruct (IH p1) as (p' & E & Hc & Hw' & Hrest).
  - subst p1. cbn. lia.
  - subst p1. cbn. rewrite length_app. cbn. lia.
  - done.
  - subst p1. cbn. lia.
  - exists p'. split; [exact E|]. split; [subst p1; cbn in Hc; lia|]. by split.
Qed.

(** ** Workers that wait *)

(** Between the test of [shutdown] and the next job. *)
Definition behind_test (pc : worker_pc) : Prop :=
  pc = Lock \/ pc = Look \/ pc = Waiting \/ pc = Woken.

Record unemployed (s : system) : Prop := {
  un_queue : job_queue (pool s) = [];
  un_clients : Forall (eq CReturned) (cs s);
  un_workers : Forall behind_test (ws s);
}.

(** A step that brings no new caller. *)
Definition quiet (s s' : system) : Prop := step s s' /\ length (cs s') = length (cs s).

Lemma unemployed_quiet s s' : unemployed s -> quiet s s' -> unemployed s' /\
  length (ws s') = length (ws s) /\ current_size (pool s') = current_size (pool s).
Proof.
  intros [Hq Hc Hw] [Hst Hlen]. revert Hq Hc Hw Hlen.
  destruct Hst as [s s' [s0 i pc p' pc' Hi Hs|s0 i pc p' pc' ws' Hi Hs _]|s i Hi|s d n Hn|s];
    intros Hq Hc Hw Hlen.
  - pose proof (Forall_lookup_1 _ _ _ _ Hw Hi) as Hb. cbn [pool ws]. rewrite length_insert.
    assert (job_queue p' = [] /\ behind_test pc' /\ current_size p' = current_size (pool s0))
      as (Hq' & Hb' & Hz).
    { unfold behind_test in *. destruct Hb as [->|[->|[->| ->]]]; simpl in Hs; rewrite ?Hq in Hs;
        repeat case_match; simplify_eq; cbn; split_and!; auto. }
    split; [|done]. split; [done|done|]. by apply Forall_insert.
  - pose proof (Forall_lookup_1 _ _ _ _ Hc Hi) as <-. done.
  - cbn [pool ws]. rewrite length_insert. split; [|done]. split; [done|done|].
    apply Forall_insert; [done|]. unfold behind_test. auto.
  - cbn [cs] in Hlen. rewrite length_app in Hlen. simpl in Hlen. lia.
  - done.
Qed.

(** ** Theorems *)

(** C11. However workers, callers and signals interleave: only one thread at a time is inside
    the lock; jobs leave the queue in the order in which they came in; no worker takes from an
    empty queue; [job_size] counts the queue; and every job taken is with exactly one worker
    until its handler has run, once. *)
Theorem pool_invariant p n s :
  idle p -> reachable p n s ->
  (forall t t', holds s t -> holds s t' -> t = t') /\
  inserted s = taken s ++ job_queue (pool s) /\
  (forall i, ws s !! i = Some Take -> job_queue (pool s) <> []) /\
  job_size (pool s) = u64 (Z.of_nat (length (job_queue (pool s)))) /\
  taken s ≡ₚ handled s ++ (ws s ≫= pending).
Proof.
  intros Hp Hr. pose proof (ok_reachable p n s Hp Hr) as Ho. destruct (Ho).
  split_and!; try done. intros t t'. by apply inside_alone.
Qed.

(** C12. No wake-up is lost: as long as nobody sets [shutdown], from every reachable state the
    threads can go on, without a spurious wake-up or another job, until the oldest job in the
    queue is taken. *)
Theorem no_job_is_stranded p n s j q :
  idle p -> (0 < n)%nat -> reachable p n s ->
  shutdown (pool s) = false -> job_queue (pool s) = j :: q ->
  exists s', rtc move s s' /\ taken s' = taken s ++ [j].
Proof.
  intros Hp Hn Hr Hd Hq. apply due_leads. split; [by eapply ok_reachable|by exists q|done|done|].
  assert (forall s1 s2, rtc step s1 s2 -> ws s1 <> [] -> ws s2 <> []) as H.
  { clear. induction 1 as [|x y z Hxy _ IH]; [done|]. intros Hx. apply IH.
    destruct Hxy as [? ? [| ? ? ? ? ? ? ? ? Hw]| | |]; cbn [ws] in *; try done;
      try by apply insert_not_nil.
    destruct pc; try by subst. destruct Hw; [by apply insert_not_nil|done]. }
  eapply H; [exact Hr|]. destruct n; [lia|done].
Qed.

(** C31. [shutdown] does not stop a worker that waits for a job: once every caller is done and
    every worker is between the test of [shutdown] and an empty queue, no interleaving, no
    spurious wake-up and no write to [shutdown] ever lets [threadpool_wait] return. *)
Theorem shutdown_goes_unnoticed s s' :
  unemployed s -> ws s <> [] -> 0 < current_size (pool s) ->
  rtc quiet s s' -> ~ threadpool_wait s'.
Proof.
  intros Hu Hw Hc Hr. assert (unemployed s' /\ length (ws s') = length (ws s) /\
    current_size (pool s') = current_size (pool s)) as (Hu' & Hl & Hc').
  { clear Hw Hc. induction Hr as [|x y z Hxy _ IH]; [done|].
    destruct (unemployed_quiet _ _ Hu Hxy) as (Hy & E1 & E2). destruct (IH Hy) as (? & ? & ?).
    split_and!; [done|congruence|congruence]. }
  intros Hall. pose proof (Hall 0%nat ltac:(lia)) as H0.
  pose proof (Forall_lookup_1 _ _ _ _ (un_workers _ Hu') H0) as Hb. unfold behind_test in Hb.
  naive_solver.
Qed.

(** [threadpool_create] starts [core_size] workers on an idle pool when [max_size] allows
    that many, and never returns when it does not. *)
Theorem threadpool_create_terminates create_ok now core_size max_size max_idle :
  0 <= core_size -> 0 <= max_size ->
  (core_size <= max_size ->
   exists p, threadpool_create create_ok now (S (Z.to_nat core_size)) core_size max_size max_idle = Some p /\
     current_size p = core_size /\ length (workers p) = Z.to_nat core_size /\ idle p) /\
  (max_size < core_size ->
   forall fuel, threadpool_create create_ok now fuel core_size max_size max_idle = None).
Proof.
  intros Hc Hm. split.
  - intros Hle. unfold threadpool_create.
    destruct (create_loop_spec create_ok now (S (Z.to_nat core_size))
      (Pool core_size max_size 0 max_idle None [] [] 0 false)) as (p & E & H1 & H2 & H3); cbn in *; try lia.
    exists p. split; [exact E|]. unfold idle. split_and!; try done; try lia; apply H3.
  - intros Hlt fuel. unfold threadpool_create.
    destruct (create_loop create_ok now fuel _) as [p|] eqn:E; [|done]. exfalso.
    assert (forall fuel p q, create_loop create_ok now fuel p = Some q ->
      current_size p <= ThreadPool.max_size p -> ThreadPool.max_size p < core_szie p -> False) as H.
    { clear. induction fuel as [|fuel IH]; intros p q; [done|]. cbn [create_loop]. intros E H1 H2.
      destruct (Z.ltb_spec (current_size p) (core_szie p)); [|lia].
      eapply IH; [exact E| |]; unfold threadpool_incre_worker;
        destruct (Z.leb_spec (ThreadPool.max_size p) (current_size p)); cbn; lia. }
    eapply H; [exact E|cbn; lia|cbn; lia].
Qed.

(** When too few workers have been idle long enough, [threadpool_decre_worker] reads on
    behind the slots that were ever filled. *)
Theorem decre_worker_overreads cancel_ok now p :
  core_szie p < current_size p ->
  Forall (fun w => now - create_time w < max_idle p) (workers p) ->
  threadpool_decre_worker cancel_ok now p = None.
Proof.
  intros Hc Hw. unfold threadpool_decre_worker.
  destruct (Z.leb_spec (current_size p) (core_szie p)); [lia|].
  assert (forall fuel i, (i <= length (workers p))%nat -> decre_loop cancel_ok now fuel i p = None) as H1;
    [|by rewrite H1 by lia].
  induction fuel as [|fuel IH]; intros i Hi; [done|]. cbn [decre_loop].
  rewrite (proj2 (Z.ltb_lt _ _) Hc). destruct (workers p !! i) as [w|] eqn:E; [|done]. bind_simpl.
  pose proof (Forall_lookup_1 _ _ _ _ Hw E) as Hidle.
  rewrite (proj2 (Z.leb_gt (max_idle p) _)) by (cbn in Hidle; lia). cbn [andb]. apply IH.
  by apply lookup_lt_Some in E.
Qed.

(** ** Witnesses *)

(** The pool of test_thread_pool.c. *)
Definition three_workers : thread_pool_t :=
  default (Pool 0 0 0 0 None [] [] 0 false) (threadpool_create (fun _ => true) 0 4 3 16 600).

Lemma three_workers_idle : idle three_workers.
Proof. done. Qed.

Definition one_job : system :=
  System three_workers (replicate 3 Test) [Copy [1; 2] 2] [] [] [].

Lemma one_job_reachable : reachable three_workers 3 one_job.
Proof. apply rtc_once. by apply (step_submit (started three_workers 3) [1; 2] 2). Qed.

Lemma pool_invariant_witness :
  idle three_workers /\ reachable three_workers 3 one_job /\
  ((forall t t', holds one_job t -> holds one_job t' -> t = t') /\
   inserted one_job = taken one_job ++ job_queue (pool one_job) /\
   (forall i, ws one_job !! i = Some Take -> job_queue (pool one_job) <> []) /\
   job_size (pool one_job) = u64 (Z.of_nat (length (job_queue (pool one_job)))) /\
   taken one_job ≡ₚ handled one_job ++ (ws one_job ≫= pending)).
Proof.
  split; [apply three_workers_idle|]. split; [apply one_job_reachable|].
  apply (pool_invariant three_workers 3); [apply three_workers_idle|apply one_job_reachable].
Defined.

(** The caller has inserted its job and has not signalled yet. *)
Definition job_inserted : system :=
  System (Pool 3 16 3 600 (Some (Client 0)) (workers three_workers) [Job [1; 2] 2] 1 false)
    (replicate 3 Test) [Signal] [Job [1; 2] 2] [] [].

Lemma job_inserted_reachable : reachable three_workers 3 job_inserted.
Proof.
  eapply rtc_l; [by apply (step_submit (started three_workers 3) [1; 2] 2)|].
  eapply rtc_l; [by eapply step_move, (move_client _ 0 (Copy [1; 2] 2))|].
  eapply rtc_l; [by eapply step_move, (move_client _ 0 (CLock (Job [1; 2] 2)))|].
  eapply rtc_l; [by eapply step_move, (move_client _ 0 (Insert (Job [1; 2] 2)))|].
  apply rtc_refl.
Qed.

Lemma no_job_is_stranded_witness :
  exists s', rtc move job_inserted s' /\ taken s' = [] ++ [Job [1; 2] 2].
Proof.
  apply (no_job_is_stranded three_workers 3 job_inserted (Job [1; 2] 2) []);
    [apply three_workers_idle|lia|apply job_inserted_reachable|reflexivity|reflexivity].
Defined.

Definition all_waiting : system := System three_workers [Waiting; Waiting; Waiting] [CReturned] [] [] [].

Lemma shutdown_goes_unnoticed_witness :
  ~ threadpool_wait (System (set_shutdown three_workers) [Waiting; Woken; Waiting] [CReturned] [] [] []).
Proof.
  apply (shutdown_goes_unnoticed all_waiting).
  - split; [done|by repeat constructor|]. unfold behind_test.
    repeat (constructor; [by auto|]). constructor.
  - done.
  - done.
  - eapply rtc_l; [split; [apply step_shutdown|reflexivity]|].
    eapply rtc_l; [split; [by apply (step_spurious _ 1)|reflexivity]|]. apply rtc_refl.
Defined.

Lemma threadpool_create_terminates_witness :
  (exists p, threadpool_create (fun _ => true) 0 4 3 16 600 = Some p /\
     current_size p = 3 /\ length (workers p) = 3%nat /\ idle p) /\
  forall fuel, threadpool_create (fun _ => true) 0 fuel 3 2 600 = None.
Proof.
  split.
  - apply (threadpool_create_terminates (fun _ => true) 0 3 16 600); lia.
  - apply (threadpool_create_terminates (fun _ => true) 0 3 2 600); lia.
Defined.

Lemma decre_worker_overreads_witness :
  threadpool_decre_worker (fun _ => true) 10
    (Pool 1 4 2 600 None [Worker_t (Some 0%nat) 0; Worker_t (Some 1%nat) 0] [] 0 false) = None.
Proof. apply decre_worker_overreads; [simpl; lia|]. repeat constructor; simpl; lia. Defined.
