(* ===== verification/ProducerConsumer.v ===== *)
(** Producers and consumers of src/demo_pthread/demo_pthread.c around a counter, and the
    monitor that starts more consumers when the counter grows.

    Every thread has a program counter; [thread_step] is what it does next. The counter is
    changed under the mutex, whose owner is recorded. The monitor and the creation of threads
    take no lock, so that each of their reads and writes of shared variables is a step of its
    own: [i++] reads, and writes in a later step what it read and one, and [ordered] reads the
    elements of the list one at a time (each once, where the compiled code may read it again).
    What a call of the thread library does is one step. Printing and sleeping are no steps. *)

From stdpp Require Import relations.
From Stdlib Require Import Sorted.
From S2P Require Import Prelude Threads.

(* src/demo_pthread/demo_pthread.c:18-18 MONITOR_LIST_SIZE *)
Definition MONITOR_LIST_SIZE : Z := 10.
(* src/demo_pthread/demo_pthread.c:19-19 MAX_THREAD_NUM *)
Definition MAX_THREAD_NUM : Z := 32.

(** ** The trend of a series *)

(* src/demo_pthread/demo_pthread.c:28-28 LIGHT_DATA_DECREASE *)
Definition LIGHT_DATA_DECREASE : Z := -1.
(* src/demo_pthread/demo_pthread.c:29-29 LIGHT_DATA_DISORDER *)
Definition LIGHT_DATA_DISORDER : Z := 0.
(* src/demo_pthread/demo_pthread.c:30-30 LIGHT_DATA_INCREASE *)
Definition LIGHT_DATA_INCREASE : Z := 1.
(* src/demo_pthread/demo_pthread.c:31-31 LIGHT_DATA_STABLE *)
Definition LIGHT_DATA_STABLE : Z := 2.

(** [pdat] is what the pointer leads to; reading past it is undefined. *)
(* src/demo_pthread/demo_pthread.c:35-47 ordered *)
Fixpoint ordered (pdat : list Z) (len : Z) : option Z :=
  if len =? 1 then Some 2 else
  match pdat with
  | x :: (y :: _) as rest =>
      let t := (if x <? y then 1 else 0) - (if y <? x then 1 else 0)
               + 2 * (if x =? y then 1 else 0) in
      order ← ordered rest (len - 1);
      if (t * order =? 0) || (t * order =? -1) then Some 0
      else Some (if order <? t then order else t)
  | _ => None
  end.

(** ** Threads *)

(* src/demo_pthread/demo_pthread.c:13-25 monitor_list *)
Record state := State {
  _lock : option nat;
  size : Z;
  monitor_list : list Z;
  monitor_cur_index : Z;
  thread_num : Z;
  producer_size : Z;
  consumer_size : Z;
  tid_list : list Z;
}.

Inductive kind := Producer | Consumer.

Inductive pc :=
  (* consumer *)
  | CLock                          (* pthread_mutex_lock *)
  | CLook                          (* while (size == 0), lock held *)
  | CWaiting                       (* blocked in pthread_cond_wait *)
  | CWoken                         (* leaving pthread_cond_wait *)
  | CTake                          (* size--, lock held *)
  | CUnlock                        (* pthread_mutex_unlock *)
  (* producer *)
  | PLock                          (* pthread_mutex_lock *)
  | PAdd                           (* size += 3, lock held *)
  | PBroadcast                     (* pthread_cond_broadcast, lock held *)
  | PUnlock                        (* pthread_mutex_unlock *)
  | PMonitor                       (* reads the argument of monitor *)
  | PStore (cur_size : Z)          (* reads monitor_cur_index, for monitor_cur_index++ *)
  | PNext (cur_size i : Z)         (* monitor_cur_index is i + 1 *)
  | PPut (cur_size i : Z)          (* monitor_list[i % 10] = cur_size *)
  | PFull                          (* if (monitor_cur_index == 10) *)
  | PReset                         (* monitor_cur_index = 0 *)
  | PTrend (seen : list Z)         (* ordered(monitor_list, 10), which has read these; the switch *)
  (* create_consumer, create_producer *)
  | Test (k : kind) (after : pc)        (* if (thread_num == 32) *)
  | Slot (k : kind) (after : pc)        (* reads thread_num, for thread_num++ *)
  | SlotNext (k : kind) (n : Z) (after : pc)  (* thread_num is n + 1 *)
  | Spawn (k : kind) (n : Z) (after : pc)     (* pthread_create(&tid_list[n], ...) *)
  | Count (k : kind) (after : pc)       (* reads consumer_size or producer_size, for its ++ *)
  | CountNext (k : kind) (n : Z) (after : pc) (* it is n + 1 *)
  (* main *)
  | Joining.

#[export] Instance kind_eq_dec : EqDecision kind.
Proof. solve_decision. Defined.

#[export] Instance pc_eq_dec : EqDecision pc.
Proof. solve_decision. Defined.

#[export] Instance pc_threads : Threads pc := {
  inside p := match p with CLook | CTake | CUnlock | PAdd | PBroadcast | PUnlock => true | _ => false end;
  waits p := match p with CWaiting => true | _ => false end;
  wakes_to := CWoken;
  broadcasts p := match p with PBroadcast => true | _ => false end;
}.

#[export] Instance pc_threads_ok : ThreadsOk pc.
Proof. split; [intros []|..|intros []]; done. Qed.

Definition set_lock l s := State l (size s) (monitor_list s) (monitor_cur_index s)
  (thread_num s) (producer_size s) (consumer_size s) (tid_list s).
Definition set_size n s := State (_lock s) n (monitor_list s) (monitor_cur_index s)
  (thread_num s) (producer_size s) (consumer_size s) (tid_list s).
Definition set_monitor l i s := State (_lock s) (size s) l i
  (thread_num s) (producer_size s) (consumer_size s) (tid_list s).
Definition set_threads n l s := State (_lock s) (size s) (monitor_list s) (monitor_cur_index s)
  n (producer_size s) (consumer_size s) l.
Definition set_count k n s := State (_lock s) (size s) (monitor_list s) (monitor_cur_index s)
  (thread_num s) (match k with Producer => n | Consumer => producer_size s end)
  (match k with Producer => consumer_size s | Consumer => n end) (tid_list s).
Definition count_of k s := match k with Producer => producer_size s | Consumer => consumer_size s end.

Definition acquire (me : nat) (s : state) (p : pc) : option (state * pc) :=
  match _lock s with None => Some (set_lock (Some me) s, p) | Some _ => None end.

(* src/demo_pthread/demo_pthread.c:50-63 consumer *)
Definition consumer (me : nat) (s : state) (p : pc) : option (state * pc) :=
  match p with
  | CLock | CWoken => acquire me s CLook
  | CLook => if size s =? 0 then Some (set_lock None s, CWaiting) else Some (s, CTake)
  | CTake => Some (set_size (u32 (size s - 1)) s, CUnlock)
  | CUnlock => Some (set_lock None s, CLock)
  | _ => None
  end.

(** A signed [++] that must not overflow. *)
Definition inc (n : Z) : option Z := require (n <? INT_MAX) ≫= fun _ => Some (n + 1).

(* src/demo_pthread/demo_pthread.c:105-133 monitor *)
Definition monitor (s : state) (p : pc) : option (state * pc) :=
  match p with
  | PStore cur_size => Some (s, PNext cur_size (monitor_cur_index s))
  | PNext cur_size i => j ← inc i; Some (set_monitor (monitor_list s) j s, PPut cur_size i)
  | PPut cur_size i =>
      l ← zset (monitor_list s) (Z.rem i MONITOR_LIST_SIZE) cur_size;
      Some (set_monitor l (monitor_cur_index s) s, PFull)
  | PFull => Some (s, if monitor_cur_index s =? MONITOR_LIST_SIZE then PReset else PLock)
  | PReset => Some (set_monitor (monitor_list s) 0 s, PTrend [])
  | PTrend seen =>
      if Z.of_nat (length seen) <? MONITOR_LIST_SIZE then
        x ← znth (monitor_list s) (Z.of_nat (length seen)); Some (s, PTrend (seen ++ [x]))
      else
      t ← ordered seen MONITOR_LIST_SIZE;
      Some (s, if (t =? LIGHT_DATA_DISORDER) || (t =? LIGHT_DATA_INCREASE)
               then Test Consumer PLock else PLock)
  | _ => None
  end.

(* src/demo_pthread/demo_pthread.c:65-76 producer *)
Definition producer (me : nat) (s : state) (p : pc) : option (state * pc) :=
  match p with
  | PLock => acquire me s PAdd
  | PAdd => Some (set_size (u32 (size s + 3)) s, PBroadcast)
  | PBroadcast => Some (s, PUnlock)
  | PUnlock => Some (set_lock None s, PMonitor)
  | PMonitor => Some (s, PStore (i32 (size s)))
  | _ => monitor s p
  end.

Definition entry (k : kind) : pc := match k with Producer => PLock | Consumer => CLock end.

Section create.
(** Whether [pthread_create] succeeds, and the identifier it gives. *)
Context (create_ok : Z -> bool) (tid : Z -> Z).

(** The state, what the creator does next, and the thread that starts. *)
(* src/demo_pthread/demo_pthread.c:78-102 create_consumer *)
Definition create (s : state) (p : pc) : option (state * pc * list pc) :=
  match p with
  | Test k after => Some (s, if thread_num s =? MAX_THREAD_NUM then after else Slot k after, [])
  | Slot k after => Some (s, SlotNext k (thread_num s) after, [])
  | SlotNext k n after => n' ← inc n; Some (set_threads n' (tid_list s) s, Spawn k n after, [])
  | Spawn k n after =>
      l ← zset (tid_list s) n (tid n);
      Some (set_threads (thread_num s) l s, Count k after, if create_ok n then [entry k] else [])
  | Count k after => Some (s, CountNext k (count_of k s) after, [])
  | CountNext k n after => n' ← inc n; Some (set_count k n' s, after, [])
  | _ => None
  end.

(** [None]: the thread is blocked or its step is undefined. *)
Definition thread_step (me : nat) (s : state) (p : pc) : option (state * pc * list pc) :=
  match p with
  | CLock | CLook | CWaiting | CWoken | CTake | CUnlock =>
      '(s, p) ← consumer me s p; Some (s, p, [])
  | Test _ _ | Slot _ _ | SlotNext _ _ _ | Spawn _ _ _ | Count _ _ | CountNext _ _ _ => create s p
  | Joining => None
  | _ => '(s, p) ← producer me s p; Some (s, p, [])
  end.

(** [adds] and [takes] count the steps that change the counter. *)
Record system := System { st : state; pcs : list pc; adds : Z; takes : Z }.

Definition after_step (s : system) (i : nat) (p : pc) (r : state * pc * list pc) : system :=
  System r.1.1 (<[i := r.1.2]> (woken p (pcs s)) ++ r.2)
    (match p with PAdd => adds s + 1 | _ => adds s end)
    (match p with CTake => takes s + 1 | _ => takes s end).

Inductive step : system -> system -> Prop :=
  | step_thread s i p r :
      pcs s !! i = Some p -> thread_step i (st s) p = Some r -> step s (after_step s i p r)
  | step_spurious s i :
      pcs s !! i = Some CWaiting ->
      step s (System (st s) (<[i := CWoken]> (pcs s)) (adds s) (takes s)).

(** [main]: two producers and a consumer are created while the first ones already run. *)
(* src/demo_pthread/demo_pthread.c:136-156 main *)
Definition main : system :=
  System (State None 0 (replicate 10 0) 0 0 0 0 (replicate 32 0))
    [Test Producer (Test Producer (Test Consumer Joining))] 0 0.

Definition reachable (s : system) : Prop := rtc step main s.
End create.

(** ** The trend *)

Lemma ordered_cons x y l :
  ordered (x :: y :: l) (Z.of_nat (length (x :: y :: l))) =
    (let t := (if x <? y then 1 else 0) - (if y <? x then 1 else 0) + 2 * (if x =? y then 1 else 0) in
     order ← ordered (y :: l) (Z.of_nat (length (y :: l)));
     if (t * order =? 0) || (t * order =? -1) then Some 0
     else Some (if order <? t then order else t)).
Proof.
  cbn [ordered]. destruct (Z.eqb_spec (Z.of_nat (length (x :: y :: l))) 1); [simpl in *; lia|].
  by replace (Z.of_nat (length (x :: y :: l)) - 1) with (Z.of_nat (length (y :: l))) by (simpl; lia).
Qed.

Lemma Sorted_cons2 (R : Z -> Z -> Prop) x y l :
  Sorted R (x :: y :: l) <-> R x y /\ Sorted R (y :: l).
Proof.
  split.
  - intros [Hs Hh]%Sorted_inv. apply HdRel_inv in Hh. auto.
  - intros [Hr Hs]. constructor; [done|by constructor].
Qed.

(** [ordered] classifies a series: 2 when all elements are equal, 1 when it increases
    (weakly, and is not constant), -1 when it decreases, 0 otherwise. *)
Theorem ordered_spec x l :
  exists t, ordered (x :: l) (Z.of_nat (length (x :: l))) = Some t /\
    (t = LIGHT_DATA_STABLE <-> Forall (eq x) l) /\
    (t = LIGHT_DATA_STABLE \/ t = LIGHT_DATA_INCREASE <-> Sorted Z.le (x :: l)) /\
    (t = LIGHT_DATA_STABLE \/ t = LIGHT_DATA_DECREASE <-> Sorted Z.ge (x :: l)) /\
    (t = 2 \/ t = 1 \/ t = 0 \/ t = -1).
Proof.
  unfold LIGHT_DATA_STABLE, LIGHT_DATA_INCREASE, LIGHT_DATA_DECREASE.
  revert x. induction l as [|y l IH]; intros x.
  - exists 2. split; [done|]. by split_and!; [split; constructor|split; repeat constructor..|left]; auto.
  - destruct (IH y) as (t & E & H2 & H1 & Hm & Ht). rewrite ordered_cons, E. bind_simpl.
    assert (x = y -> Forall (eq x) l <-> t = 2) as Heq by (intros ->; by symmetry).
    destruct (Z.ltb_spec x y), (Z.ltb_spec y x), (Z.eqb_spec x y); try lia;
      destruct Ht as [->|[->|[->| ->]]]; cbn; eexists; (split; [done|]);
      rewrite Forall_cons, !Sorted_cons2, <- H1, <- Hm; clear - Heq H H0;
      split_and!; try lia; auto; naive_solver lia.
Qed.

(** ** The counter *)

(** Where a thread goes on after it has created another one. *)
Fixpoint calm (p : pc) : bool :=
  match p with
  | PLock | Joining => true
  | Test _ p | Slot _ p | SlotNext _ _ p | Spawn _ _ p | Count _ p | CountNext _ _ p => calm p
  | _ => false
  end.

Definition returns (p : pc) : bool :=
  match p with
  | Test _ p | Slot _ p | SlotNext _ _ p | Spawn _ _ p | Count _ p | CountNext _ _ p => calm p
  | _ => true
  end.

Lemma calm_facts p :
  calm p = true -> inside p = false /\ returns p = true /\ p <> CTake /\ p <> CWaiting.
Proof. by destruct p. Qed.

Record ok (s : system) : Prop := {
  ok_lock : inv_lock (pcs s) (_lock (st s));
  ok_size : size (st s) = u32 (3 * adds s - takes s);
  ok_counts : 0 <= takes s <= 3 * adds s;
  ok_take : CTake ∈ pcs s -> size (st s) <> 0;
  ok_wake : size (st s) <> 0 -> CWaiting ∈ pcs s -> PBroadcast ∈ pcs s;
  ok_returns : Forall (fun p => returns p = true) (pcs s);
}.

Section invariant.
Context (create_ok : Z -> bool) (tid : Z -> Z).

Definition starting (q : pc) : Prop := q = PLock \/ q = CLock.

Lemma counter_thread_facts i s p s' p' qs :
  thread_step create_ok tid i s p = Some (s', p', qs) -> returns p = true ->
  lock_step i (inside p) (inside p') (_lock s) (_lock s') /\
  Forall starting qs /\ returns p' = true /\
  size s' = match p with PAdd => u32 (size s + 3) | CTake => u32 (size s - 1) | _ => size s end /\
  (p' = CTake -> size s' <> 0) /\ (p' = CWaiting -> size s' = 0) /\
  (p = PAdd -> p' = PBroadcast).
Proof.
  intros Hs Hr. destruct p; simpl in Hs; try done;
    try (unfold acquire in Hs; repeat case_match; simplify_eq/=; split_and!; try done;
      repeat constructor; by apply Z.eqb_neq || by apply Z.eqb_eq).
  - destruct (Z.eqb_spec (size s) 0); simplify_eq/=; split_and!; by try constructor.
  - destruct (inc _); simplify_eq/=. split_and!; by try constructor.
  - destruct (zset _ _ _); simplify_eq/=. split_and!; by try constructor.
  - destruct (_ <? _); [destruct (znth _ _)|destruct (ordered _ _)]; simplify_eq/=;
      [split_and!; by try constructor|]. destruct (_ || _); split_and!; by try constructor.
  - apply calm_facts in Hr as Hc. destruct Hc as (Hin & Hr' & Hne).
    simplify_eq/=. destruct (_ =? _); simpl; rewrite ?Hin; split_and!; by try constructor; try tauto.
  - destruct (inc _); simplify_eq/=. split_and!; by try constructor.
  - destruct (zset _ _ _); simplify_eq/=. split_and!; try done.
    destruct (create_ok _); [|constructor]. apply Forall_cons_2; [|constructor].
    destruct k; [by left|by right].
  - apply calm_facts in Hr as Hc. destruct Hc as (Hin & Hr' & Hne). destruct (inc _); simplify_eq/=.
    rewrite Hin. split_and!; by try constructor; try tauto.
Qed.

Lemma starting_outside qs : Forall starting qs -> Forall (fun q => inside q = false) qs.
Proof. intros Hq. eapply Forall_impl; [exact Hq|]. by intros q [->| ->]. Qed.

Lemma counter_ok_step s s' : ok s -> step create_ok tid s s' -> ok s'.
Proof.
  intros Ho Hst. revert Ho. destruct Hst as [s i p [[s' p'] qs] Hi Hs|s i Hi]; intros Ho;
    destruct Ho as [Hlock Hsize Hcounts Htake Hwake Hret].
  - assert (returns p = true) as Hr by by eapply (Forall_lookup_1 _ _ _ _ Hret).
    destruct (counter_thread_facts _ _ _ _ _ _ Hs Hr) as (Fl & Fq & Fr & Fs & Ft & Fw & Fb).
    pose proof (woken_self _ _ _ Hi) as Hi'.
    assert (forall x, x ∈ qs -> x = PLock \/ x = CLock) as Fq'.
    { intros x Hx. by eapply (proj1 (Forall_forall _ _) Fq). }
    assert (p = CTake -> size (st s) <> 0) as Hp0.
    { intros ->. by eapply Htake, list_elem_of_lookup_2. }
    unfold after_step. split; cbn [st pcs adds takes fst snd].
    + by eapply inv_lock_step; [..|apply starting_outside].
    + rewrite Fs, Hsize. destruct p; try done; rewrite ?wrap_add_l, ?wrap_sub_l; f_equal; lia.
    + destruct p; try lia. assert (3 * adds s <> takes s); [|lia].
      intros E. apply Hp0; [done|]. by rewrite Hsize, E, Z.sub_diag.
    + intros [Hin|Hin]%elem_of_app; [|by apply Fq' in Hin as [|]].
      apply list_elem_of_lookup in Hin as [j Hj].
      apply list_lookup_insert_Some in Hj as [(-> & -> & _)|[Hne Hj]]; [by apply Ft|].
      apply woken_other in Hj; [|done..].
      assert (holder (pcs s) j) as Hjh by by exists CTake.
      assert (inside p = false) as Hp.
      { destruct (inside p) eqn:E; [|done]. destruct Hne.
        eapply holder_unique; [exact Hlock|by exists p|done]. }
      rewrite Fs. destruct p; try done; by eapply Htake, list_elem_of_lookup_2.
    + intros Hne [Hin|Hin]%elem_of_app; [|by apply Fq' in Hin as [|]]. apply elem_of_app; left.
      apply elem_of_insert in Hin as [E|Hin]; [by rewrite Fw in Hne|].
      apply woken_waiting in Hin as [Hin Hb]; [|done].
      assert (p = PAdd \/ p <> PAdd) as [->|Hp] by (destruct p; (by left) || by right).
      { rewrite Fb by done. by eapply insert_elem. }
      assert (PBroadcast ∈ pcs s) as [j Hj]%list_elem_of_lookup.
      { apply Hwake; [|done]. rewrite Fs in Hne. destruct p; try done; by apply Hp0. }
      apply list_elem_of_lookup. exists j.
      rewrite list_lookup_insert_ne by (intros ->; simplify_eq). by apply woken_other.
    + apply Forall_app. split; [apply Forall_insert; [|done]|].
      * apply Forall_lookup. intros j x Hx. apply woken_lookup in Hx as (y & Hy & ->).
        apply (Forall_lookup_1 _ _ _ _ Hret) in Hy. destruct (broadcasts p); [by destruct y|done].
      * eapply Forall_impl; [exact Fq|]. by intros q [->| ->].
  - split; cbn [st pcs adds takes]; try done.
    + exact (inv_lock_spurious _ _ _ _ Hlock Hi eq_refl).
    + by intros [?|Hin]%elem_of_insert; [|apply Htake].
    + intros Hne [?|Hin]%elem_of_insert; [done|]. specialize (Hwake Hne Hin).
      apply list_elem_of_lookup in Hwake as [j Hj]. apply list_elem_of_lookup. exists j.
      by rewrite list_lookup_insert_ne by congruence.
    + by apply Forall_insert.
Qed.

Lemma ok_main : ok main.
Proof.
  split; cbn [main st pcs adds takes size _lock]; try done.
  - intros i. split; [|done]. intros (x & Hx & Hin). apply list_lookup_singleton_Some in Hx as [_ <-]. done.
  - by intros ?%list_elem_of_singleton.
  - by apply Forall_singleton.
Qed.

Lemma counter_ok_reachable s : reachable create_ok tid s -> ok s.
Proof.
  unfold reachable. assert (forall s1 s2, rtc (step create_ok tid) s1 s2 -> ok s1 -> ok s2) as H.
  { induction 1 as [|x y z Hxy _ IH]; [done|]. intros Ho. apply IH. by eapply counter_ok_step. }
  intros Hr. eapply H; [exact Hr|apply ok_main].
Qed.

(** C40. However producers, consumers and the threads they create interleave: the counter is
    what was produced less what was consumed, as an unsigned number, and no more is consumed
    than was produced; only one thread at a time is inside the lock; and when the counter is
    not 0 no consumer sleeps on without a broadcast to come. *)
Theorem counter_invariant s :
  reachable create_ok tid s ->
  size (st s) = u32 (3 * adds s - takes s) /\ 0 <= takes s <= 3 * adds s /\
  (forall i j, holder (pcs s) i -> holder (pcs s) j -> i = j) /\
  (size (st s) <> 0 -> CWaiting ∈ pcs s -> PBroadcast ∈ pcs s).
Proof.
  intros [Hl Hs Hc _ Hw _]%counter_ok_reachable. split_and!; try done; try lia.
  intros i j. by eapply holder_unique.
Qed.
End invariant.

(** ** Races *)

Section schedules.
Context (create_ok : Z -> bool) (tid : Z -> Z).

(** The threads [ids] go on, in this order. *)
Fixpoint schedule (ids : list nat) (s : system) : option system :=
  match ids with
  | [] => Some s
  | i :: ids =>
      p ← pcs s !! i;
      r ← thread_step create_ok tid i (st s) p;
      schedule ids (after_step s i p r)
  end.

Lemma counter_schedule_steps ids : forall s s',
  schedule ids s = Some s' -> rtc (step create_ok tid) s s'.
Proof.
  induction ids as [|i ids IH]; intros s s' E; simpl in E; [by simplify_eq|].
  destruct (pcs s !! i) as [p|] eqn:Hi; simpl in E; [|done].
  destruct (thread_step create_ok tid i (st s) p) as [r|] eqn:Hs; simpl in E; [|done].
  eapply rtc_l; [|by apply IH]. by apply step_thread.
Qed.

(** A thread that is to write the index has read one that was not too small. *)
Definition past (p : pc) : Prop := match p with PNext _ i => MONITOR_LIST_SIZE <= i | _ => True end.

(** The monitor has missed the moment at which its list was full. *)
Definition blind (s : system) : Prop :=
  MONITOR_LIST_SIZE < monitor_cur_index (st s) /\ Forall (fun p => p <> PReset /\ past p) (pcs s).

Lemma calm_past p : calm p = true -> p <> PReset /\ past p.
Proof using Type. by destruct p. Qed.

Lemma blind_thread_step i s p s' p' qs :
  thread_step create_ok tid i s p = Some (s', p', qs) -> returns p = true -> p <> PReset -> past p ->
  MONITOR_LIST_SIZE < monitor_cur_index s ->
  MONITOR_LIST_SIZE < monitor_cur_index s' /\ p' <> PReset /\ past p'.
Proof.
  intros Hs Hr Hp Hpast Hi. destruct p; simpl in Hs; try done;
    try (unfold acquire in Hs; repeat case_match; (simplify_eq/=; split; done)).
  - simplify_eq/=. split_and!; [done|done|lia].
  - unfold inc in Hs. destruct (require _); simplify_eq/=. split_and!; [lia|done|done].
  - destruct (zset _ _ _); by simplify_eq/=.
  - destruct (Z.eqb_spec (monitor_cur_index s) MONITOR_LIST_SIZE); [lia|by simplify_eq/=].
  - destruct (_ <? _); [destruct (znth _ _)|destruct (ordered _ _)]; simplify_eq/=; [done|].
    split; [done|]. by destruct (_ || _).
  - simplify_eq/=. split; [done|]. destruct (_ =? _); [by apply calm_past|done].
  - destruct (inc _); by simplify_eq/=.
  - destruct (zset _ _ _); by simplify_eq/=.
  - destruct (inc _); simplify_eq/=. split; [done|by apply calm_past].
Qed.

Lemma blind_step s s' : ok s -> blind s -> step create_ok tid s s' -> blind s'.
Proof.
  intros Ho [Hi Hr] Hst. revert Ho Hi Hr. destruct Hst as [s i p [[s' p'] qs] Hl Hs|s i Hl]; intros Ho Hi Hr.
  - pose proof (Forall_lookup_1 _ _ _ _ (ok_returns _ Ho) Hl) as Hret. cbv beta in Hret.
    destruct (Forall_lookup_1 _ _ _ _ Hr Hl) as [Hp Hpast].
    destruct (blind_thread_step _ _ _ _ _ _ Hs Hret Hp Hpast Hi) as [Hi' Hp'].
    destruct (counter_thread_facts _ _ _ _ _ _ _ _ Hs Hret) as (_ & Hq & _).
    split; [done|]. cbn [after_step pcs fst snd]. apply Forall_app. split; [apply Forall_insert; [|done]|].
    + apply Forall_lookup. intros j x Hx. apply woken_lookup in Hx as (y & Hy & ->).
      apply (Forall_lookup_1 _ _ _ _ Hr) in Hy. destruct (broadcasts p); [by destruct y|done].
    + eapply Forall_impl; [exact Hq|]. by intros q [->| ->].
  - split; [done|]. cbn [pcs]. by apply Forall_insert.
Qed.

(** Once it has, it never starts a consumer again, whatever happens. *)
Lemma blind_forever s s' : ok s -> blind s -> rtc (step create_ok tid) s s' -> blind s'.
Proof.
  intros Ho Hb Hr. induction Hr as [|x y z Hxy _ IH]; [done|].
  apply IH; [by eapply counter_ok_step|by eapply blind_step].
Qed.
End schedules.

Definition always (_ : Z) : bool := true.

(** One producer's loop around [monitor], the last one of ten, and its creation of a consumer. *)
Definition round (i : nat) : list nat := replicate 90 i.

Definition overflowing : list nat :=
  replicate 18 0%nat ++ concat (replicate 28 (round 1 ++ replicate 18 1%nat)) ++
  round 1 ++ replicate 13 1%nat ++ round 2 ++ replicate 13 2%nat ++ replicate 2 1%nat ++ replicate 2 2%nat.

Definition overflowed : system := default main (schedule always id overflowing main).

Lemma main_run ids s : schedule always id ids main = Some s -> reachable always id s.
Proof. apply counter_schedule_steps. Qed.

(** The limit on the number of threads is tested without a lock: two producers may both
    find 31 threads and each start a consumer, and the second one stores its identifier behind
    the end of [tid_list]. *)
Theorem tid_list_overflows :
  exists s i, reachable always id s /\ pcs s !! i = Some (Spawn Consumer MAX_THREAD_NUM PLock) /\
    thread_step always id i (st s) (Spawn Consumer MAX_THREAD_NUM PLock) = None.
Proof.
  exists overflowed, 2%nat. split; [apply (main_run overflowing); vm_compute; reflexivity|].
  split_and!; vm_compute; reflexivity.
Qed.

(** One producer has stored the tenth number when another one stores its own. *)
Definition blinding : list nat := replicate 18 0%nat ++ replicate 89 1%nat ++ replicate 8 2%nat.

Definition blinded : system := default main (schedule always id blinding main).

(** The index of the monitor's list is not protected either: when another producer stores its
    number between the tenth one and the test for it, the test fails for good, and from then
    on the trend is never looked at. *)
Theorem monitor_goes_blind :
  reachable always id blinded /\ monitor_cur_index (st blinded) = 11 /\
  forall s, rtc (step always id) blinded s -> Forall (fun p => p <> PReset) (pcs s).
Proof.
  assert (reachable always id blinded) as Hr by (apply (main_run blinding); vm_compute; reflexivity).
  split; [exact Hr|]. split; [vm_compute; reflexivity|]. intros s Hs.
  apply (blind_forever always id) in Hs; [|by eapply counter_ok_reachable|].
  - destruct Hs as [_ Hs]. eapply Forall_impl; [exact Hs|]. by intros p [? _].
  - split; [by vm_compute|]. vm_compute. by repeat constructor.
Qed.

(** ** Witness: a consumer has taken one of three *)

Definition one_taken : system :=
  default main (schedule always id (replicate 18 0%nat ++ replicate 4 1%nat ++ replicate 3 3%nat) main).

Lemma counter_invariant_witness :
  reachable always id one_taken /\ size (st one_taken) = 2 /\
  (size (st one_taken) = u32 (3 * adds one_taken - takes one_taken) /\
   0 <= takes one_taken <= 3 * adds one_taken /\
   (forall i j, holder (pcs one_taken) i -> holder (pcs one_taken) j -> i = j) /\
   (size (st one_taken) <> 0 -> CWaiting ∈ pcs one_taken -> PBroadcast ∈ pcs one_taken)).
Proof.
  assert (reachable always id one_taken) as Hr.
  { apply (main_run (replicate 18 0%nat ++ replicate 4 1%nat ++ replicate 3 3%nat)).
    vm_compute. reflexivity. }
  split; [exact Hr|]. split; [vm_compute; reflexivity|]. exact (counter_invariant always id one_taken Hr).
Defined.
